(* ===== verification/_CoqProject ===== *)
-Q . S2P
Prelude.v
CString.v
Spinlock.v
Sleeplock.v
ProcDefs.v
ProcSpec.v
Proc.v
ProcProps.v
Sched.v
Trap.v
Ring.v
Pipe.v
Console.v
Block.v
BlockLayer.v
Bio.v
Log.v
LogProps.v
Crash.v
Syscall.v
VmDefs.v
Kalloc.v
Vm.v
AddrSpace.v
CopyVm.v
UserMem.v
ForkVm.v
VmDemo.v
FsDefs.v
InodeProps.v
FsRules.v
Path.v
FsAlloc.v
FsFile.v
FsRW.v
Dir.v
FileDefs.v
SysfileDefs.v
ExecDefs.v
SysfileProps.v
ExecProps.v
ExecDemo.v
FdProps.v
Accounts.v
Grep.v
Printf.v
Umalloc.v
Shell.v
ShellProps.v
ShellParse.v
ShellText.v
ShellRun.v
Ide.v
Mkfs.v
MkfsProps.v
MkfsImage.v
Threads.v
MergeSort.v
CondVar.v
Kbd.v
Screen.v
MemFuns.v
Bootmain.v
Mp.v
Tools.v
Apic.v
Clock.v
X86.v
Swtch.v
TrapAsm.v
UserMode.v
Usys.v
Start.v
Login.v
Utils.v
Debug.v
Race.v
