(* ===== verification/Prelude.v ===== *)
(** * xv6 with multilevel scheduling, users and permissions: a verification

    The program under src/xv6-public is a small Unix for x86 in C: the xv6
    teaching kernel, extended with a multilevel feedback queue and a second
    scheduling policy, user accounts with login, file modes and thread stubs.
    src/extra holds exercises with POSIX threads.  This library translates the
    kernel with its assembly, its loader, the builder of its file system and
    most of its user level into executable definitions and proves what makes
    them correct.
    Definitions keep the names of the C functions.

    ** The parts and how they interact

    A stub of the user library (usys.S) traps, and the vectors and trapasm.S call
    trap (trap.c) with the registers on the kernel's stack; syscall.c fetches the arguments from the
    user's memory and calls the functions of sysproc.c and sysfile.c.  The first
    work on the process table (proc.c), which uses the memory system (vm.c on
    kalloc.c) and the open files.  The second work on file.c, on top of the
    inodes and directories of fs.c, which write through the log (log.c) to the
    buffer cache (bio.c) and the disk.  exec.c joins both sides.  Sleep-locks,
    pipes and the console sleep and wake up through the process table, and
    everything is guarded by spin locks.  The schedulers switch between
    processes by swtch.S.  Before that, bootasm.S and bootmain.c load the
    kernel, entry.S turns paging on, mp.c finds the processors, which main.c
    starts in entryother.S, and lapic.c and ioapic.c set up their interrupts;
    the first process runs initcode.S, which executes init and login.  The file
    system was written by mkfs.c on the host.

    ** Files

    - Prelude.v: 32-bit words (u32, s32, u8), the state monad M whose results
      are a value, a panic or a sleep, its total-correctness predicate wp, and
      lemmas on lists and finite maps; ends, for systems all of whose runs come
      to a good end.  CString.v: the string functions of string.c and ulib.c on
      byte lists.  MemFuns.v: memset, memmove and memcmp of both, on memory.
    - Spinlock.v (spinlock.c): pushcli, popcli, acquire, release, and their
      interleaving on several CPUs access by access.
    - Sleeplock.v (sleeplock.c), Pipe.v (pipe.c), Console.v (the input side of
      console.c): each call is split where it may sleep, and any number of
      processes run the pieces in any order.  Ring.v is the ring buffer with
      wrapping counters that pipes and console share.
    - ProcDefs.v (proc.c): the process table and its operations, over the class
      Services of what proc.c asks of memory and files.  ProcSpec.v is an
      abstract machine of process life cycles with its invariant, Proc.v the
      system of all CPUs and the refinement, ProcProps.v the theorems.  Sched.v
      has one pass of each of the three scheduler loops, Trap.v trap.c.
    - VmDefs.v (kalloc.c, vm.c) on physical memory as pages of bytes; Kalloc.v,
      Vm.v, AddrSpace.v, CopyVm.v and UserMem.v their theorems; ForkVm.v
      implements the memory half of Services by them.  VmDemo.v holds concrete
      machines.
    - Block.v: the byte layout of disk blocks.  BlockLayer.v: the class of what
      the buffer cache promises; Bio.v (bio.c, memide.c) implements it, Log.v
      (log.c) and FsDefs.v (fs.c) are written against it.  LogProps.v: the log
      between commits.  Crash.v: commit and recovery on the block layer with the
      history of its disk, for crashes of both.
      InodeProps.v, FsRules.v, Path.v, FsAlloc.v, FsFile.v, FsRW.v and Dir.v:
      the layers of fs.c.
    - FileDefs.v (file.c), SysfileDefs.v (sysfile.c: file-system calls, accounts,
      modes); SysfileProps.v, FdProps.v, Accounts.v their theorems.
    - Syscall.v (syscall.c, sysproc.c, prac_syscall.c).  ExecDefs.v (exec.c,
      elf.h, loaduvm), ExecProps.v, ExecDemo.v.
    - Devices: Ide.v (ide.c) on the class IdeDisk of what a disk behind the ports
      does.  Kbd.v (kbd.c, kbd.h), Screen.v (cgaputc and consputc of console.c,
      uartputc), Apic.v (ioapic.c, lapic.c, picirq.c), Clock.v (cmostime of
      lapic.c), Mp.v (mp.c), Bootmain.v (bootmain.c).
    - The processor: X86.v has the registers, segments, descriptor tables,
      memory, the instructions the kernel's assembly uses, and interrupts.  On
      it, Swtch.v (swtch.S), TrapAsm.v (vectors.pl, trapasm.S, tvinit, seginit,
      switchuvm, switchkvm, struct trapframe), UserMode.v (kvmalloc, idtinit,
      mpenter and mpmain of main.c; the stacks and frames of allocproc, userinit and fork), Usys.v
      (usys.S, syscall.h, initcode.S).  Start.v adds real mode and paging
      (bootasm.S, entry.S, entryother.S, entrypgdir and startothers of main.c).
    - Debug.v (getcallerpcs of spinlock.c, panic of console.c, procdump of
      proc.c; uartinit and uartgetc of uart.c).
    - Mkfs.v (mkfs.c), MkfsProps.v, MkfsImage.v: the builder, on the same layouts
      and inode lemmas as fs.c.
    - User level: Shell.v (the parser of sh.c), ShellProps.v, ShellParse.v and
      ShellText.v its theorems, ShellRun.v (runcmd and main of sh.c); Grep.v
      (grep.c), Printf.v (printf.c, and cprintf of console.c), Umalloc.v
      (umalloc.c), Tools.v (wc.c, ls.c), Login.v (login.c, init.c, gets of
      ulib.c), Utils.v (cat.c, echo.c, kill.c, ln.c, mkdir.c, rm.c, and main of
      grep.c).
    - src/extra: Threads.v has threads that share memory, with every
      interleaving; MergeSort.v (prac_pthread.c) uses it.  CondVar.v
      (condition_variable.c, no_race.c) has its systems as step relations,
      Race.v (race.c) every schedule of its threads.

    ** What the theorems show

    Processes: every section of proc.c run in a reachable state is a step of the
    abstract machine; hence no lost wakeups between exit and wait, live parents,
    a process on at most one CPU, never a panic on the way to the scheduler.
    Schedulers: the process selected is the one the policy names, round robin
    does not starve, MLFQ levels stay in range.  Locks: mutual exclusion for
    spin and sleep-locks, no lost wakeups on pipes, first-in first-out pipes, a
    line discipline for the console.  Storage: the cache is transparent, a
    crash at any write of a commit, and of the recoveries after it, leaves all
    or nothing, readi and writei
    transfer exactly the bytes of the file, dirlink adds one name, inode counts
    and disk layouts agree, namex ends.  Memory: the allocator hands out free
    pages only, fork gives the child its own copy, exec replaces the image or
    changes nothing, and no page is lost on any path.  Calls: arguments from
    the user stay inside the process, descriptors and reference counts agree,
    open in its plain modes grants only what the file's mode allows.  User level: malloc and free keep
    disjoint blocks, grep prints the matching lines, printed numbers read back;
    the shell parses its lines as the grammar says, a command printed reads
    back, and running it gives the processes and descriptors of its meaning, with no end
    of a pipe open where it should not be; wc
    counts the text whatever the sizes of the reads.  Devices: the disk driver
    serves its queue in order and loses no request; the keyboard decoder stays
    in its tables, follows the modifiers and gives the characters of the keys; the screen is a window
    on the text written; interrupts go where they were routed; the clock is
    never read half before and half after a tick; the processors found are those
    of the table; the loader puts every segment in place.  Processor: swtch
    returns like a call when the thread is switched to again; a trap saves every
    register on the right stack and trapret resumes the machine exactly, for
    every vector; fork returns twice; a stub reaches the function of its name
    and comes back with its result; the first process calls exec of /init; a
    user's instruction enters the kernel only at the gates open to it; the boot
    sector, entry and entryother reach C code with the segments, stack and
    paging it needs, and the other processors come up on stacks of their own
    under every interleaving.  Accounts: login starts a shell only for a name
    and password that accountcheck accepts.  Image: mkfs writes
    the files given in a file system the kernel's invariant holds of, and a
    kernel booted from it reads them back.  Threads: the parallel sort sorts
    under every schedule, the waiting and the locked counting example end with
    the value they should have, and without the lock counts can be lost.  Other theorems prove faults of the code; each is
    described where it stands.

    ** Parameters, bounds and fuel

    What lies outside is a parameter: the class Services (memory and files, for
    proc.c), FileServices (files, when memory is real), BlockLayer, the devices
    behind devsw, the bytes of user memory (umem), what a dispatched process
    does before it comes back (slice), the addresses the linker sets (kend,
    kdata), the word at address 0 (word0), sbrk for malloc; the disk behind the
    IDE ports, the answers of the clock and of the local APIC, whether open,
    pipe and fork succeed for the shell, the reads of the host's files for mkfs
    and of the files for the utilities; the addresses of the assembly's labels,
    what a page directory maps (space), and the answers of the keyboard
    controller at boot.  Sizes are those of the source, FSSIZE and
    NINODES of mkfs among them; the sort is on an array of any length that is a
    multiple of the number of threads.  Loops that are not
    structural carry fuel computed from their bounds: two rounds more than the
    blocks of a transfer (xfer_fuel), one more than the directory's entries, one
    more than the length of a path, one more than the pages of a range, the
    size of the input for grep, four turns for each byte of a line for the
    shell's parser, the sectors of a segment and two for the loader.  Waits on
    devices (the clock, the local APIC, the table of mp.c) take the number of
    turns as an argument, and the theorems say that some number is enough.  The
    theorems are on results, so they also say
    that the fuel is enough; for malloc and free the bound on the fuel is
    twice the number of free blocks and five.

    ** Not modelled

    The sequence of calls of main in main.c, which sets up the components one
    after the other, each model starting from the state its set-up leaves; the
    first call of forkret, which runs iinit and initlog (both modelled) in the
    first process; consoleinit, ideinit of memide.c and stat of ulib.c, which
    are a few calls of modelled functions.  Timing, caches and the translation
    of addresses after boot in the processor model: once the kernel runs, its
    memory is flat, and what a change of page directory shows is an argument.
    Messages of cprintf other than those of panic and procdump.  The bodies of
    the thread calls, which are comments in the source.  Interleavings inside
    fs.c and sysfile.c, which are run by one process at a time.  zombie.c,
    getppid.c, usertests.c and the other test programs, which are not part of
    the system, and the thread examples that only print their argument. *)

From stdpp Require Export base tactics numbers list gmap strings sorting functions relations.
From stdpp Require Import options.

#[export] Set Default Goal Selector "!".
#[global] Unset Default Proof Using.

Declare Scope kernel_scope.
Delimit Scope kernel_scope with K.
#[global] Open Scope Z_scope.

(** ** Machine words

    The kernel is a 32-bit x86 program: [uint] is a 32-bit unsigned word and
    [int] a 32-bit two's complement word.  Both are kept as [Z] and every
    operation that may wrap says so with [u32] or [s32]. *)

Definition u32 (x : Z) : Z := x mod 2 ^ 32.
Definition u8 (x : Z) : Z := x mod 2 ^ 8.
Definition s32 (x : Z) : Z :=
  let y := u32 x in if y <? 2 ^ 31 then y else y - 2 ^ 32.

Definition is_u32 (x : Z) : Prop := 0 <= x < 2 ^ 32.
Definition is_s32 (x : Z) : Prop := - 2 ^ 31 <= x < 2 ^ 31.

(** ** Wait channels

    [sleep] and [wakeup] identify what a process waits for by an address;
    each kind of address the kernel sleeps on is a constructor. *)

Inductive chan :=
| CNull
| CProc (slot : nat)          (* a struct proc: wait() *)
| CTicks                      (* &ticks: sys_sleep() *)
| CLog                        (* &log: begin_op() *)
| CSleeplock (lk : Z)         (* a struct sleeplock: acquiresleep() *)
| CPipeRead (p : Z)           (* &p->nread: piperead() *)
| CPipeWrite (p : Z)          (* &p->nwrite: pipewrite() *)
| CInput                      (* &input.r: consoleread() *)
| CBuf (b : nat).             (* a struct buf: iderw() *)

#[global] Instance chan_eq_dec : EqDecision chan.
Proof. solve_decision. Defined.

(** ** The kernel monad

    A kernel function run on a state [s] returns a value and a new state,
    panics, or goes to sleep on a channel.  A function that sleeps in a
    [while] loop is modelled up to its call of [sleep]; the loop is entered
    again, on whatever state there is then, when the process is woken. *)

Inductive outcome (S A : Type) : Type :=
| Ret (a : A) (s : S)
| Panic (msg : string)
| Sleep (c : chan) (s : S).
Arguments Ret {S A} _ _.
Arguments Panic {S A} _.
Arguments Sleep {S A} _ _.

Definition M (S A : Type) : Type := S -> outcome S A.

#[global] Instance M_ret {S} : MRet (M S) := λ A a s, Ret a s.
#[global] Instance M_bind {S} : MBind (M S) := λ A B k m s,
  match m s with
  | Ret a s' => k a s'
  | Panic msg => Panic msg
  | Sleep c s' => Sleep c s'
  end.

Definition get {S} : M S S := λ s, Ret s s.
Definition put {S} (s' : S) : M S unit := λ _, Ret tt s'.
Definition gets {S A} (f : S -> A) : M S A := λ s, Ret (f s) s.
Definition modify {S} (f : S -> S) : M S unit := λ s, Ret tt (f s).
Definition panic {S A} (msg : string) : M S A := λ _, Panic msg.
Definition sleep_on {S A} (c : chan) : M S A := λ s, Sleep c s.
Definition when {S} (b : bool) (m : M S unit) : M S unit :=
  if b then m else mret tt.

(** Run an operation of a component inside a larger state. *)
Definition zoom {S T A} (proj : T -> S) (inj : S -> T -> T) (m : M S A) : M T A :=
  λ t, match m (proj t) with
       | Ret a s => Ret a (inj s t)
       | Panic msg => Panic msg
       | Sleep c s => Sleep c (inj s t)
       end.

(** [for(i = lo; i < lo + n; i++) body(i);] *)
Fixpoint for_range {St} (lo : nat) (n : nat) (body : nat -> M St unit) : M St unit :=
  match n with
  | O => mret tt
  | S n' => body lo ;; for_range (S lo) n' body
  end.

(** The total-correctness predicate: [m] returns, without panicking or
    sleeping, in a state that satisfies [Q]. *)
Definition wp {S A} (m : M S A) (Q : A -> S -> Prop) (s : S) : Prop :=
  match m s with Ret a s' => Q a s' | _ => False end.

(** ** Lemmas on the monad *)

Section monad.
Context {S : Type}.

Lemma bind_Ret {A B} (m : M S A) (k : A -> M S B) s a s' :
  m s = Ret a s' -> (m ≫= k) s = k a s'.
Proof. unfold mbind, M_bind. by intros ->. Qed.

Lemma bind_Ret_inv {A B} (m : M S A) (k : A -> M S B) s b s' :
  (m ≫= k) s = Ret b s' -> exists a s1, m s = Ret a s1 /\ k a s1 = Ret b s'.
Proof. unfold mbind, M_bind. destruct (m s) eqn:E; naive_solver. Qed.

Lemma bind_ext {A B} (m : M S A) (k k' : A -> M S B) s :
  (forall a s', k a s' = k' a s') -> (m ≫= k) s = (m ≫= k') s.
Proof. intros E. unfold mbind, M_bind. by destruct (m s). Qed.

Lemma wp_ret {A} (a : A) (Q : A -> S -> Prop) s : Q a s -> wp (mret a) Q s.
Proof. done. Qed.

Lemma wp_bind {A B} (m : M S A) (k : A -> M S B) (Q : B -> S -> Prop) s :
  wp m (λ a s', wp (k a) Q s') s -> wp (m ≫= k) Q s.
Proof. unfold wp, mbind, M_bind. by destruct (m s). Qed.

Lemma wp_bind_inv {A B} (m : M S A) (k : A -> M S B) (Q : B -> S -> Prop) s :
  wp (m ≫= k) Q s -> wp m (λ a s', wp (k a) Q s') s.
Proof. unfold wp, mbind, M_bind. by destruct (m s). Qed.

Lemma wp_mono {A} (m : M S A) (P Q : A -> S -> Prop) s :
  wp m P s -> (forall a s', P a s' -> Q a s') -> wp m Q s.
Proof. unfold wp. destruct (m s); naive_solver. Qed.

Lemma wp_get (Q : S -> S -> Prop) s : Q s s -> wp get Q s.
Proof. done. Qed.

Lemma wp_gets {A} (f : S -> A) (Q : A -> S -> Prop) s : Q (f s) s -> wp (gets f) Q s.
Proof. done. Qed.

Lemma wp_modify (f : S -> S) (Q : unit -> S -> Prop) s : Q tt (f s) -> wp (modify f) Q s.
Proof. done. Qed.

Lemma wp_Ret {A} (m : M S A) (Q : A -> S -> Prop) s a s' :
  m s = Ret a s' -> Q a s' -> wp m Q s.
Proof. unfold wp. by intros ->. Qed.

Lemma wp_inv {A} (m : M S A) (Q : A -> S -> Prop) s :
  wp m Q s -> exists a s', m s = Ret a s' /\ Q a s'.
Proof. unfold wp. destruct (m s); naive_solver. Qed.
Lemma wp_value {A} (m : M S A) (Q : A -> S -> Prop) s a s' : wp m Q s -> m s = Ret a s' -> Q a s'.
Proof. unfold wp. by intros H E; rewrite E in H. Qed.
End monad.

(** Invert a run of a bind that returned. *)
Ltac bind_inv H :=
  lazymatch type of H with
  | (_ ≫= _) _ = Ret _ _ =>
      let a := fresh "a" in let s1 := fresh "s" in
      let H1 := fresh "Hrun" in let H2 := fresh "Hrun" in
      apply bind_Ret_inv in H as (a & s1 & H1 & H2); try bind_inv H2
  end.

(** One step of symbolic execution of a [wp] goal. *)
Ltac wp_step :=
  first
    [ apply wp_bind
    | apply wp_ret
    | apply wp_get
    | apply wp_gets
    | apply wp_modify ]; cbv beta.

Create HintDb kernel discriminated.

(** ** Lemmas on words *)

Lemma u32_id x : is_u32 x -> u32 x = x.
Proof. intros. by apply Z.mod_small. Qed.

Lemma u32_range x : is_u32 (u32 x).
Proof. apply Z.mod_pos_bound. lia. Qed.

Lemma s32_id x : is_s32 x -> s32 x = x.
Proof.
  unfold is_s32, s32, u32. intros Hx.
  destruct (decide (0 <= x)) as [Hp|Hn].
  - rewrite Z.mod_small by lia. by rewrite (proj2 (Z.ltb_lt _ _)) by lia.
  - rewrite <-(Z.mod_add x 1) by lia. rewrite Z.mod_small by lia.
    rewrite (proj2 (Z.ltb_ge _ _)) by lia. lia.
Qed.

#[export] Hint Resolve u32_range : kernel.

(** ** Lemmas on lists and functional maps *)

Lemma fmap_alter_id {A B} (g : A -> B) (f : A -> A) i (l : list A) :
  (forall x, g (f x) = g x) -> g <$> alter f i l = g <$> l.
Proof.
  intros Hf. apply list_eq. intros j. rewrite !list_lookup_fmap, list_lookup_alter.
  case_decide; [subst|done]. destruct (l !! _) as [x|]; [|done]. cbn. by rewrite Hf.
Qed.

Lemma filter_all {A} (P : A -> Prop) `{!forall x, Decision (P x)} (l : list A) :
  (forall x, x ∈ l -> P x) -> filter P l = l.
Proof.
  induction l as [|x l IH]; intros Hall; [done|].
  rewrite filter_cons_True by (apply Hall; constructor).
  f_equal. apply IH. intros y Hy. apply Hall. by constructor.
Qed.

Lemma length_filter_ext {A} (P Q : A -> Prop) `{!forall x, Decision (P x)} `{!forall x, Decision (Q x)} (l : list A) :
  (forall x, x ∈ l -> P x <-> Q x) -> length (filter P l) = length (filter Q l).
Proof.
  induction l as [|x l IH]; intros Hall; [done|].
  assert (P x <-> Q x) as Hx by (apply Hall; constructor).
  assert (length (filter P l) = length (filter Q l)) as El by (apply IH; intros y Hy; apply Hall; by constructor).
  destruct (decide (P x)) as [HP|HP].
  - rewrite !filter_cons_True by naive_solver. cbn. by rewrite El.
  - rewrite !filter_cons_False by naive_solver. done.
Qed.

(** Removing an element of a duplicate-free list removes exactly one. *)
Lemma length_filter_ne `{!EqDecision A} (x : A) (l : list A) :
  NoDup l -> x ∈ l -> length l = S (length (filter (λ y, y ≠ x) l)).
Proof.
  induction l as [|y l IH]; intros Hnd Hin; [by apply not_elem_of_nil in Hin|].
  apply NoDup_cons in Hnd as [Hni Hnd].
  destruct (decide (y = x)) as [->|Hne].
  - rewrite filter_cons_False by naive_solver. simpl. f_equal.
    rewrite filter_all; [done|]. intros z Hz ->. done.
  - rewrite filter_cons_True by done. simpl. f_equal. apply IH; [done|].
    apply elem_of_cons in Hin. naive_solver.
Qed.

(** Rule induction: what holds at the start and is kept by every step holds
    in every reachable state. *)
Lemma rtc_invariant {A} (R : relation A) (P : A -> Prop) x y :
  (forall a b, P a -> R a b -> P b) -> P x -> rtc R x y -> P y.
Proof. intros Hstep Hx Hxy. revert Hx. induction Hxy; eauto. Qed.

(** Every run from here ends, in a state with [P]. *)
Inductive ends {S} (step : S -> S -> Prop) (P : S -> Prop) : S -> Prop :=
| ends_done s : P s -> ends step P s
| ends_step s : (exists s', step s s') -> (forall s', step s s' -> ends step P s') -> ends step P s.

(** It is enough to have an invariant, under which a state has [P] or can go on,
    and an order in which the steps descend. *)
Lemma ends_intro {S T} (step : S -> S -> Prop) (I P : S -> Prop) (f : S -> T) (lt : T -> T -> Prop) :
  (forall s s', I s -> step s s' -> I s' /\ lt (f s') (f s)) -> (forall s, I s -> P s \/ exists s', step s s') ->
  forall s, I s -> Acc lt (f s) -> ends step P s.
Proof.
  intros Hstep Hgo s HI Ha. remember (f s) as x eqn:E. revert s E HI. induction Ha as [x _ IH]. intros s -> HI.
  destruct (Hgo s HI) as [HP|Hs]; [by apply ends_done|]. apply ends_step; [done|]. intros s' Hs'. destruct (Hstep s s' HI Hs') as [HI' Hlt]. by eapply IH.
Qed.

Lemma ends_mono {S} (step : S -> S -> Prop) (P Q : S -> Prop) s : (forall s, P s -> Q s) -> ends step P s -> ends step Q s.
Proof. intros H Ha. induction Ha as [s HP|s Hs Hn IH]; [apply ends_done; auto|by apply ends_step]. Qed.
