(* ===== verification/CString.v ===== *)
(** * C strings (string.c, and the string part of ulib.c)

    A [char*] is the list of the bytes (0..255) from it to the end of its
    object.  Reading past the end of the list gives 0: a string argument may
    leave its terminating NUL implicit, and a fixed array is never read past
    its last byte because the bound [n] of the call is its size.  A write
    through a [char*] returns the new contents of the destination. *)

From S2P Require Import Prelude.

Definition hd0 (l : list Z) : Z := match l with [] => 0 | c :: _ => c end.

(** The bytes of a character literal string. *)
Fixpoint bytes_of (s : string) : list Z :=
  match s with
  | EmptyString => []
  | String a s' => Z.of_N (Ascii.N_of_ascii a) :: bytes_of s'
  end.

(** ** string.c *)

Fixpoint strncmp (p q : list Z) (n : nat) : Z :=
  match n with
  | O => 0
  | S n' =>
      if negb (hd0 p =? 0) && (hd0 p =? hd0 q)
      then strncmp (tail p) (tail q) n'
      else u8 (hd0 p) - u8 (hd0 q)
  end.

(** [while(n-- > 0) *s++ = 0;] *)
Fixpoint zero_fill (s : list Z) (n : nat) : list Z :=
  match n, s with
  | S n', _ :: s' => 0 :: zero_fill s' n'
  | _, _ => s
  end.

Fixpoint strncpy (s t : list Z) (n : nat) : list Z :=
  match n, s with
  | S n', _ :: s' =>
      let c := hd0 t in
      if c =? 0 then c :: zero_fill s' n' else c :: strncpy s' (tail t) n'
  | _, _ => s
  end.

(** [*s = 0;] *)
Definition put_nul (s : list Z) : list Z :=
  match s with [] => [] | _ :: s' => 0 :: s' end.

(** The loop of [safestrcpy], entered with [n] already decremented. *)
Fixpoint safestrcpy_loop (s t : list Z) (n : nat) : list Z :=
  match n, s with
  | S n', _ :: s' =>
      let c := hd0 t in
      if c =? 0 then c :: put_nul s' else c :: safestrcpy_loop s' (tail t) n'
  | _, _ => put_nul s
  end.

Definition safestrcpy (s t : list Z) (n : Z) : list Z :=
  if n <=? 0 then s else safestrcpy_loop s t (Z.to_nat (n - 1)).

Fixpoint strlen (s : list Z) : Z :=
  match s with
  | [] => 0
  | c :: s' => if c =? 0 then 0 else 1 + strlen s'
  end.

(** ** ulib.c *)

Fixpoint strcmp (p q : list Z) : Z :=
  match p with
  | c :: p' =>
      if negb (c =? 0) && (c =? hd0 q) then strcmp p' (tail q)
      else u8 c - u8 (hd0 q)
  | [] => 0 - u8 (hd0 q)
  end.

(** [strcpy]: the destination is assumed long enough, as in the source. *)
Fixpoint strcpy (s t : list Z) : list Z :=
  match s, t with
  | _ :: s', c :: t' => if c =? 0 then c :: s' else c :: strcpy s' t'
  | s, [] => put_nul s
  | [], _ => []
  end.

(** The offset [strchr] stops at, or [None] for the null pointer. *)
Fixpoint strchr (s : list Z) (c : Z) : option nat :=
  match s with
  | [] => None
  | d :: s' =>
      if d =? 0 then None
      else if d =? c then Some 0%nat
      else S <$> strchr s' c
  end.

Fixpoint atoi_loop (n : Z) (s : list Z) : Z :=
  match s with
  | c :: s' => if (48 <=? c) && (c <=? 57) then atoi_loop (n * 10 + c - 48) s' else n
  | [] => n
  end.
Definition atoi (s : list Z) : Z := atoi_loop 0 s.

(** ** What the functions mean *)

(** The string at a [char*]: the bytes before the first NUL. *)
Fixpoint cstr (l : list Z) : list Z :=
  match l with
  | [] => []
  | c :: l' => if c =? 0 then [] else c :: cstr l'
  end.

(** The string in a field of [n] bytes, which need not hold a NUL. *)
Definition cstrn (n : nat) (l : list Z) : list Z := cstr (take n l).

Definition is_bytes (l : list Z) : Prop := Forall (λ c, 0 <= c < 256) l.

Lemma u8_id c : 0 <= c < 256 -> u8 c = c.
Proof. intros. by apply Z.mod_small. Qed.

Lemma is_bytes_hd l : is_bytes l -> 0 <= hd0 l < 256.
Proof. destruct 1; simpl; lia. Qed.

Lemma is_bytes_tail l : is_bytes l -> is_bytes (tail l).
Proof. destruct 1; simpl; [constructor | done]. Qed.

#[export] Hint Resolve is_bytes_hd is_bytes_tail : kernel.

Lemma cstrn_S n l :
  cstrn (S n) l = if hd0 l =? 0 then [] else hd0 l :: cstrn n (tail l).
Proof. unfold cstrn. destruct l as [|c l]; simpl; [done|]. by destruct (c =? 0). Qed.

(** [strncmp] returns 0 exactly when the two fields hold the same string. *)
Lemma strncmp_zero_iff p q n :
  is_bytes p -> is_bytes q ->
  strncmp p q n = 0 <-> cstrn n p = cstrn n q.
Proof.
  revert p q. induction n as [|n IH]; intros p q Hp Hq; [done|].
  rewrite !cstrn_S. simpl.
  pose proof (is_bytes_hd p Hp). pose proof (is_bytes_hd q Hq).
  rewrite !u8_id by done.
  destruct (Z.eqb_spec (hd0 p) 0) as [Hp0|Hp0]; simpl.
  - destruct (Z.eqb_spec (hd0 q) 0); split; intros Heq; try done; lia.
  - destruct (Z.eqb_spec (hd0 p) (hd0 q)) as [Heq|Hne].
    + rewrite IH by eauto with kernel. rewrite <-Heq.
      rewrite (proj2 (Z.eqb_neq _ _)) by done. split; [by intros -> | by intros [= ->]].
    + split; [lia|]. destruct (Z.eqb_spec (hd0 q) 0); [done|]. by intros [= ? _].
Qed.

Lemma length_zero_fill s n : length (zero_fill s n) = length s.
Proof. revert s. induction n; intros [|??]; simpl; auto. Qed.

Lemma zero_fill_spec s n :
  (n <= length s)%nat -> zero_fill s n = replicate n 0 ++ drop n s.
Proof.
  revert s. induction n as [|n IH]; intros [|c s] Hn; simpl in *; try done; [lia|].
  f_equal. apply IH. lia.
Qed.

Lemma length_strncpy s t n : length (strncpy s t n) = length s.
Proof.
  revert s t. induction n as [|n IH]; intros [|c s] t; simpl; try done.
  destruct (_ =? 0); simpl; by rewrite ?length_zero_fill, ?IH.
Qed.

Lemma is_bytes_zero_fill n l : is_bytes l -> is_bytes (zero_fill l n).
Proof. revert l. induction n as [|n IH]; intros [|x l] Hl; try done. inversion Hl; subst. constructor; [lia|by apply IH]. Qed.

Lemma is_bytes_strncpy s t n : is_bytes s -> is_bytes t -> is_bytes (strncpy s t n).
Proof.
  revert s t. induction n as [|n IH]; intros [|x s] t Hs Ht; try done. inversion Hs; subst. cbn [strncpy].
  pose proof (is_bytes_hd t Ht). case_match; constructor; try done; [by apply is_bytes_zero_fill|].
  apply IH; [done|by apply is_bytes_tail].
Qed.

Lemma length_cstrn n l : (length (cstrn n l) <= n)%nat.
Proof.
  revert l. induction n as [|n IH]; intros l; [done|].
  rewrite cstrn_S. destruct (_ =? 0); simpl; [lia|]. specialize (IH (tail l)). lia.
Qed.

(** [strncpy] writes exactly [n] bytes: the source string, then NULs. *)
Lemma strncpy_spec s t n :
  (n <= length s)%nat ->
  strncpy s t n =
    cstrn n t ++ replicate (n - length (cstrn n t)) 0 ++ drop n s.
Proof.
  revert s t. induction n as [|n IH]; intros [|c s] t Hn; simpl in Hn; try done; [lia|].
  rewrite cstrn_S. simpl strncpy.
  destruct (Z.eqb_spec (hd0 t) 0) as [->|Hne]; simpl.
  - rewrite zero_fill_spec by lia. done.
  - f_equal. rewrite IH by lia. done.
Qed.

Lemma cstr_nz_app l r : Forall (λ c, c ≠ 0) l -> cstr (l ++ r) = l ++ cstr r.
Proof.
  induction 1 as [|c l Hc _ IH]; simpl; [done|].
  rewrite (proj2 (Z.eqb_neq _ _)) by done. by rewrite IH.
Qed.

Lemma cstr_nz l : Forall (λ c, c ≠ 0) (cstr l).
Proof. induction l as [|c l IH]; simpl; [constructor|]. destruct (Z.eqb_spec c 0); by constructor. Qed.

Lemma cstr_replicate n r : cstr (replicate (S n) 0 ++ r) = [].
Proof. done. Qed.

(** A field filled by [strncpy] holds the source string, truncated to [n]. *)
Lemma cstrn_strncpy s t n :
  (n <= length s)%nat -> cstrn n (strncpy s t n) = cstrn n t.
Proof.
  intros Hn. rewrite strncpy_spec by done.
  pose proof (length_cstrn n t) as Hl. unfold cstrn at 1. rewrite app_assoc, take_app_le.
  2:{ rewrite length_app, length_replicate. lia. }
  rewrite take_ge by (rewrite length_app, length_replicate; lia).
  rewrite cstr_nz_app by apply cstr_nz.
  destruct (n - length (cstrn n t))%nat; by rewrite ?app_nil_r.
Qed.

Lemma length_safestrcpy s t n : length (safestrcpy s t n) = length s.
Proof.
  unfold safestrcpy. destruct (n <=? 0); [done|].
  generalize (Z.to_nat (n - 1)). intros m. revert s t.
  induction m as [|m IH]; intros [|c s] t; simpl; try done.
  destruct (_ =? 0); simpl; [by destruct s | by rewrite IH].
Qed.

Lemma cstr_safestrcpy_loop s t m :
  (m < length s)%nat -> cstr (safestrcpy_loop s t m) = cstrn m t.
Proof.
  revert s t. induction m as [|m IH]; intros [|c s] t Hm; simpl in Hm; try lia; [done|].
  rewrite cstrn_S. simpl. destruct (Z.eqb_spec (hd0 t) 0) as [->|Hne]; simpl; [done|].
  rewrite (proj2 (Z.eqb_neq _ _)) by done. rewrite IH by lia. done.
Qed.

Lemma strlen_length l : strlen l = Z.of_nat (length (cstr l)).
Proof. induction l as [|c l IH]; simpl; [done|]. destruct (c =? 0); simpl; lia. Qed.

Lemma strcmp_zero_iff p q :
  is_bytes p -> is_bytes q -> strcmp p q = 0 <-> cstr p = cstr q.
Proof.
  revert q. induction p as [|c p IH]; intros q Hp Hq; simpl.
  - pose proof (is_bytes_hd q Hq). rewrite u8_id by done.
    destruct q as [|d q]; simpl in *; [done|]. destruct (Z.eqb_spec d 0); naive_solver lia.
  - pose proof (is_bytes_hd q Hq). inversion Hp as [|?? Hc Hp']; subst.
    rewrite !u8_id by done.
    destruct q as [|d q]; simpl in *; destruct (Z.eqb_spec c 0); simpl.
    + naive_solver lia.
    + destruct (Z.eqb_spec c 0); [lia|]. split; [lia|done].
    + destruct (Z.eqb_spec d 0); split; intros; try done; lia.
    + inversion Hq; subst. destruct (Z.eqb_spec c d) as [->|Hne].
      * rewrite (proj2 (Z.eqb_neq _ _)) by done. rewrite IH by done. split; [by intros -> | by intros [= ->]].
      * split; [lia|]. destruct (Z.eqb_spec d 0); [done|]. by intros [= ? _].
Qed.

Lemma strchr_Some s c k :
  strchr s c = Some k <->
  (k < length (cstr s))%nat /\ cstr s !! k = Some c /\ (forall j, (j < k)%nat -> cstr s !! j ≠ Some c).
Proof.
  revert k. induction s as [|d s IH]; intros k; simpl; [naive_solver lia|].
  destruct (Z.eqb_spec d 0) as [->|Hd]; simpl; [naive_solver lia|].
  destruct (Z.eqb_spec d c) as [->|Hc].
  - split.
    + intros [= <-]. repeat split; [lia|]. intros j; lia.
    + intros (_ & Hk & Hj). destruct k as [|k]; [done|]. by destruct (Hj 0%nat ltac:(lia)).
  - rewrite fmap_Some. split.
    + intros (k' & Hk' & ->). apply IH in Hk' as (? & ? & Hj). repeat split; [lia|done|].
      intros [|j] ?; simpl; [naive_solver | apply Hj; lia].
    + intros (? & Hk & Hj). destruct k as [|k]; simpl in Hk; [naive_solver|].
      exists k. split; [|done]. apply IH. repeat split; [lia|done|].
      intros j ?. apply (Hj (S j)). lia.
Qed.
