(* ===== verification/Spinlock.v ===== *)
(** * Spin locks and interrupt nesting (spinlock.c, mycpu of proc.c)

    Every operation is run by a CPU [c].  The state holds the per-CPU records
    of [cpus[]], each CPU's interrupt flag (FL_IF of its EFLAGS register) and
    the locks.  The second half of the file interleaves the CPUs at the
    granularity of the memory accesses of [acquire] and [release] and proves
    mutual exclusion. *)

From S2P Require Import Prelude.

(** struct cpu, the fields this component uses *)
Record cpu := mkCpu { apicid : Z; ncli : Z; intena : bool }.

(** struct spinlock; [lcpu] is the field [cpu] *)
Record spinlock := mkSpinlock { locked : Z; lcpu : option nat }.

Record lstate := mkL {
  cpus : list cpu;
  eflags : nat -> bool;           (* is FL_IF set on this CPU? *)
  locks : nat -> spinlock
}.

Definition set_cpus (f : list cpu -> list cpu) (s : lstate) : lstate :=
  mkL (f (cpus s)) (eflags s) (locks s).
Definition set_eflags (c : nat) (b : bool) (s : lstate) : lstate :=
  mkL (cpus s) (<[c := b]> (eflags s)) (locks s).
Definition set_lock (l : nat) (k : spinlock) (s : lstate) : lstate :=
  mkL (cpus s) (eflags s) (<[l := k]> (locks s)).

Definition with_ncli (n : Z) (k : cpu) : cpu := mkCpu (apicid k) n (intena k).
Definition with_intena (b : bool) (k : cpu) : cpu := mkCpu (apicid k) (ncli k) b.

Section ops.
(** The local APIC id the hardware reports on each CPU ([lapicid()]). *)
Variable lapicid : nat -> Z.

(** [for (i = 0; i < ncpu; ++i) if (cpus[i].apicid == apicid) return &cpus[i];] *)
Fixpoint find_cpu (l : list cpu) (id : Z) (i : nat) : option nat :=
  match l with
  | [] => None
  | k :: l' => if apicid k =? id then Some i else find_cpu l' id (S i)
  end.

Definition mycpu (c : nat) : M lstate nat :=
  s ← get;
  if eflags s c then panic "mycpu called with interrupts enabled"
  else match find_cpu (cpus s) (lapicid c) 0 with
       | Some i => mret i
       | None => panic "unknown apicid"
       end.

Definition cli (c : nat) : M lstate unit := modify (set_eflags c false).
Definition sti (c : nat) : M lstate unit := modify (set_eflags c true).

Definition cpu_ncli (i : nat) (s : lstate) : Z := from_option ncli 0 (cpus s !! i).
Definition cpu_intena (i : nat) (s : lstate) : bool := from_option intena false (cpus s !! i).

Definition pushcli (c : nat) : M lstate unit :=
  fl ← gets (λ s, eflags s c);
  cli c ;;
  i ← mycpu c;
  n ← gets (cpu_ncli i);
  when (n =? 0) (modify (set_cpus (alter (with_intena fl) i))) ;;
  modify (set_cpus (alter (with_ncli (n + 1)) i)).

Definition popcli (c : nat) : M lstate unit :=
  fl ← gets (λ s, eflags s c);
  if (fl : bool) then panic "popcli - interruptible"
  else
    i ← mycpu c;
    n ← gets (cpu_ncli i);
    modify (set_cpus (alter (with_ncli (n - 1)) i)) ;;
    if n - 1 <? 0 then panic "popcli"
    else
      ie ← gets (cpu_intena i);
      when ((n - 1 =? 0) && ie) (sti c).

Definition holding (c l : nat) : M lstate bool :=
  pushcli c ;;
  i ← mycpu c;
  k ← gets (λ s, locks s l);
  popcli c ;;
  mret (negb (locked k =? 0) && bool_decide (lcpu k = Some i)).

Definition initlock (l : nat) : M lstate unit :=
  modify (set_lock l (mkSpinlock 0 None)).

(** [xchg(&lk->locked, 1)]: returns the old value *)
Definition xchg_locked (l : nat) : M lstate Z :=
  k ← gets (λ s, locks s l);
  modify (set_lock l (mkSpinlock 1 (lcpu k))) ;;
  mret (locked k).

(** [acquire] up to its spin loop *)
Definition acquire_enter (c l : nat) : M lstate unit :=
  pushcli c ;;
  h ← holding c l;
  if (h : bool) then panic "acquire" else mret tt.

(** [lk->cpu = mycpu();] *)
Definition acquire_record (c l : nat) : M lstate unit :=
  i ← mycpu c;
  k ← gets (λ s, locks s l);
  modify (set_lock l (mkSpinlock (locked k) (Some i))).

(** [acquire] when the first [xchg] wins; a CPU that loses it spins. *)
Definition acquire (c l : nat) : M lstate bool :=
  acquire_enter c l ;;
  old ← xchg_locked l;
  if old =? 0 then acquire_record c l ;; mret true else mret false.

(** [release] up to the store that frees the lock *)
Definition release_enter (c l : nat) : M lstate unit :=
  h ← holding c l;
  if negb h then panic "release"
  else k ← gets (λ s, locks s l); modify (set_lock l (mkSpinlock (locked k) None)).

(** [movl $0, lk->locked; popcli();] *)
Definition release_store (c l : nat) : M lstate unit :=
  k ← gets (λ s, locks s l);
  modify (set_lock l (mkSpinlock 0 (lcpu k))) ;;
  popcli c.

Definition release (c l : nat) : M lstate unit :=
  release_enter c l ;; release_store c l.

(** ** Well-formedness: each CPU finds its own record *)

Definition ncpu (s : lstate) : nat := length (cpus s).

Definition wf (s : lstate) : Prop :=
  NoDup (apicid <$> cpus s) /\
  (forall c k, cpus s !! c = Some k -> apicid k = lapicid c).

Lemma find_cpu_spec l id i j :
  NoDup (apicid <$> l) ->
  (apicid <$> l) !! j = Some id -> find_cpu l id i = Some (i + j)%nat.
Proof.
  revert i j. induction l as [|k l IH]; intros i j Hnd Hj; [done|].
  rewrite fmap_cons in Hnd, Hj. apply NoDup_cons in Hnd as [Hni Hnd].
  destruct j as [|j]; simpl in Hj |- *.
  - injection Hj as ->. rewrite Z.eqb_refl. f_equal. lia.
  - destruct (Z.eqb_spec (apicid k) id) as [<-|Hne].
    + destruct Hni. by apply list_elem_of_lookup_2 in Hj.
    + rewrite (IH (S i) j) by done. f_equal. lia.
Qed.

Lemma mycpu_ok s c :
  wf s -> (c < ncpu s)%nat -> eflags s c = false -> mycpu c s = Ret c s.
Proof.
  intros [Hnd Hid] Hc Hfl. unfold mycpu, mbind, M_bind, get. rewrite Hfl.
  destruct (lookup_lt_is_Some_2 (cpus s) c) as [k Hk]; [done|].
  rewrite (find_cpu_spec _ _ 0 c); [done..|].
  by rewrite list_lookup_fmap, Hk, <-(Hid c k).
Qed.

(** A function on a CPU's record that keeps its APIC id. *)
Lemma wf_alter s f i :
  (forall k, apicid (f k) = apicid k) -> wf s -> wf (set_cpus (alter f i) s).
Proof.
  intros Hf [Hnd Hid]. split; simpl.
  - by rewrite fmap_alter_id.
  - intros c k Hk. destruct (decide (i = c)) as [->|Hne].
    + rewrite list_lookup_alter_eq in Hk.
      apply fmap_Some in Hk as (k0 & Hk0 & ->). rewrite Hf. by apply Hid.
    + rewrite list_lookup_alter_ne in Hk by done. by apply Hid.
Qed.

(** ** The effect of the interrupt-nesting operations *)

Definition push_cpu (fl : bool) (k : cpu) : cpu :=
  mkCpu (apicid k) (ncli k + 1) (if ncli k =? 0 then fl else intena k).
Definition pushed (c : nat) (s : lstate) : lstate :=
  set_cpus (alter (push_cpu (eflags s c)) c) (set_eflags c false s).

Lemma pushcli_run s c :
  wf s -> (c < ncpu s)%nat -> pushcli c s = Ret tt (pushed c s).
Proof.
  intros Hwf Hc. unfold pushcli.
  erewrite bind_Ret by done. erewrite bind_Ret by done.
  erewrite bind_Ret by (by apply mycpu_ok; [| |apply fn_lookup_insert]).
  erewrite bind_Ret by done.
  destruct (lookup_lt_is_Some_2 (cpus s) c) as [k Hk]; [done|].
  unfold cpu_ncli. simpl. rewrite Hk. simpl.
  unfold pushed, set_cpus, set_eflags, when, mbind, M_bind, modify; simpl.
  destruct (ncli k =? 0) eqn:E; simpl; f_equal; f_equal.
  - rewrite list_alter_alter_eq. apply (list_alter_ext _ _ _ _ c); [|done].
    intros k' Hk'. rewrite Hk in Hk'. injection Hk' as <-. unfold push_cpu. by rewrite E.
  - apply (list_alter_ext _ _ _ _ c); [|done].
    intros k' Hk'. rewrite Hk in Hk'. injection Hk' as <-. unfold push_cpu. by rewrite E.
Qed.

Definition popped (c : nat) (s : lstate) : lstate :=
  let n := cpu_ncli c s - 1 in
  let s' := set_cpus (alter (with_ncli n) c) s in
  if (n =? 0) && cpu_intena c s then set_eflags c true s' else s'.

Lemma popcli_run s c :
  wf s -> (c < ncpu s)%nat -> eflags s c = false -> 1 <= cpu_ncli c s ->
  popcli c s = Ret tt (popped c s).
Proof.
  intros Hwf Hc Hfl Hn. unfold popcli.
  erewrite bind_Ret by done. rewrite Hfl.
  erewrite bind_Ret by (by apply mycpu_ok).
  erewrite bind_Ret by done. erewrite bind_Ret by done.
  rewrite (proj2 (Z.ltb_ge _ _)) by lia. erewrite bind_Ret by done.
  unfold popped. set (s' := set_cpus _ s).
  assert (cpu_intena c s' = cpu_intena c s) as ->.
  { unfold cpu_intena, s'. simpl. rewrite list_lookup_alter_eq. by destruct (cpus s !! c). }
  by destruct (_ && _).
Qed.

(** [popcli] with interrupts on, or without a matching [pushcli], panics. *)
Lemma popcli_unmatched s c :
  wf s -> (c < ncpu s)%nat -> eflags s c = true \/ cpu_ncli c s <= 0 ->
  exists msg, popcli c s = Panic msg.
Proof.
  intros Hwf Hc H. unfold popcli. erewrite bind_Ret by done.
  destruct (eflags s c) eqn:Hfl; [by eexists|]. destruct H as [|H]; [done|].
  erewrite bind_Ret by (by apply mycpu_ok).
  erewrite bind_Ret by done. erewrite bind_Ret by done.
  rewrite (proj2 (Z.ltb_lt _ _)) by lia. by eexists.
Qed.

Lemma ncpu_alter f i s : ncpu (set_cpus (alter f i) s) = ncpu s.
Proof. unfold ncpu. simpl. apply length_alter. Qed.

Lemma wf_pushed s c : wf s -> wf (pushed c s).
Proof. intros. by apply wf_alter. Qed.

Lemma wf_popped s c : wf s -> wf (popped c s).
Proof.
  intros Hwf. unfold popped. destruct (_ && _); [|by apply wf_alter].
  by apply (wf_alter s (with_ncli (cpu_ncli c s - 1)) c) in Hwf as [??].
Qed.

Lemma cpu_ncli_alter s f c d :
  (c < ncpu s)%nat ->
  cpu_ncli d (set_cpus (alter f c) s) =
    if decide (c = d) then from_option (λ k, ncli (f k)) 0 (cpus s !! c) else cpu_ncli d s.
Proof.
  intros Hc. unfold cpu_ncli. simpl. rewrite list_lookup_alter. case_decide; [subst|done].
  by destruct (cpus s !! d).
Qed.

Lemma cpu_ncli_pushed s c d :
  (c < ncpu s)%nat ->
  cpu_ncli d (pushed c s) = cpu_ncli d s + (if decide (c = d) then 1 else 0).
Proof.
  intros Hc. unfold pushed. rewrite cpu_ncli_alter by done. simpl.
  case_decide; [subst|by rewrite Z.add_0_r]. unfold cpu_ncli. simpl.
  destruct (lookup_lt_is_Some_2 (cpus s) d) as [k Hk]; [done|]. by rewrite Hk.
Qed.

Lemma cpu_ncli_popped s c d :
  (c < ncpu s)%nat ->
  cpu_ncli d (popped c s) = cpu_ncli d s - (if decide (c = d) then 1 else 0).
Proof.
  intros Hc. assert (cpu_ncli d (popped c s) =
    cpu_ncli d (set_cpus (alter (with_ncli (cpu_ncli c s - 1)) c) s)) as ->.
  { unfold popped. by destruct (_ && _). }
  rewrite cpu_ncli_alter by done. case_decide; [subst|by rewrite Z.sub_0_r].
  destruct (lookup_lt_is_Some_2 (cpus s) d) as [k Hk]; [done|]. by rewrite Hk.
Qed.

Lemma cpu_intena_pushed s c :
  (c < ncpu s)%nat ->
  cpu_intena c (pushed c s) = if cpu_ncli c s =? 0 then eflags s c else cpu_intena c s.
Proof.
  intros Hc. unfold cpu_intena, cpu_ncli, pushed. simpl. rewrite list_lookup_alter_eq.
  destruct (lookup_lt_is_Some_2 (cpus s) c) as [k Hk]; [done|]. by rewrite Hk.
Qed.

Lemma eflags_popped s c d :
  eflags (popped c s) d =
    if decide (c = d) then ((cpu_ncli c s - 1 =? 0) && cpu_intena c s) || eflags s c
    else eflags s d.
Proof.
  unfold popped. destruct (_ && _); simpl; case_decide; subst; try done.
  - apply fn_lookup_insert.
  - by rewrite fn_lookup_insert_ne.
Qed.

Lemma locks_popped s c : locks (popped c s) = locks s.
Proof. unfold popped. by destruct (_ && _). Qed.

(** Interrupts are off on a CPU that is inside a [pushcli]. *)
Definition cli_ok (s : lstate) (c : nat) : Prop :=
  0 <= cpu_ncli c s /\ (0 < cpu_ncli c s -> eflags s c = false).

(** [holding] leaves the lock, the nesting depth and the interrupt flag as
    they were, and returns whether the lock is taken and records this CPU. *)
Lemma holding_run s c l :
  wf s -> (c < ncpu s)%nat -> cli_ok s c ->
  exists s', holding c l s =
      Ret (negb (locked (locks s l) =? 0) && bool_decide (lcpu (locks s l) = Some c)) s' /\
    wf s' /\ ncpu s' = ncpu s /\ locks s' = locks s /\
    (forall d, cpu_ncli d s' = cpu_ncli d s) /\ (forall d, eflags s' d = eflags s d).
Proof.
  intros Hwf Hc [Hn Hoff]. unfold holding.
  rewrite (bind_Ret _ _ _ _ _ (pushcli_run s c Hwf Hc)).
  assert (c < ncpu (pushed c s))%nat by (unfold pushed; by rewrite ncpu_alter).
  assert (eflags (pushed c s) c = false) by apply fn_lookup_insert.
  rewrite (bind_Ret _ _ _ _ _ (mycpu_ok _ _ (wf_pushed s c Hwf) ltac:(done) ltac:(done))).
  erewrite bind_Ret by done.
  assert (cpu_ncli c (pushed c s) = cpu_ncli c s + 1) as Hn'.
  { rewrite cpu_ncli_pushed by done. by rewrite decide_True. }
  erewrite bind_Ret.
  2:{ apply popcli_run; [by apply wf_pushed|done|done|lia]. }
  exists (popped c (pushed c s)). split; [done|]. split_and!.
  - by apply wf_popped, wf_pushed.
  - unfold popped. destruct (_ && _); unfold ncpu; simpl; by rewrite !length_alter.
  - by rewrite locks_popped.
  - intros d. rewrite cpu_ncli_popped, cpu_ncli_pushed by done. case_decide; lia.
  - intros d. rewrite eflags_popped, Hn', cpu_intena_pushed by done.
    replace (cpu_ncli c s + 1 - 1) with (cpu_ncli c s) by lia.
    case_decide; [subst d|by apply fn_lookup_insert_ne].
    replace (eflags (pushed c s) c) with false. rewrite orb_false_r.
    destruct (Z.eqb_spec (cpu_ncli c s) 0); simpl; [done|]. symmetry. apply Hoff. lia.
Qed.
End ops.

(** ** Interleaving the CPUs

    Each CPU is either running kernel code, spinning in [acquire], between
    its winning [xchg] and the store to [lk->cpu], or between the two stores
    of [release].  [held] lists the locks whose [acquire] returned on a CPU
    and whose [release] has not started, [nest] counts its explicit
    [pushcli]s.  Both are ghost state: no guard of a step that runs a lock
    operation reads them. *)

Inductive pc := PRun | PSpin (l : nat) | POwn (l : nat) | PRel (l : nat).

Record sys := mkSys {
  ls : lstate;
  pcs : nat -> pc;
  held : nat -> list nat;
  nest : nat -> nat
}.

Section smp.
Variable lapicid : nat -> Z.

Inductive step : sys -> sys -> Prop :=
| step_acquire x c l s' :
    (c < ncpu (ls x))%nat -> pcs x c = PRun ->
    acquire_enter lapicid c l (ls x) = Ret tt s' ->
    step x (mkSys s' (<[c := PSpin l]> (pcs x)) (held x) (nest x))
| step_spin x c l old s' :
    (c < ncpu (ls x))%nat -> pcs x c = PSpin l ->
    xchg_locked l (ls x) = Ret old s' ->
    step x (mkSys s' (if old =? 0 then <[c := POwn l]> (pcs x) else pcs x) (held x) (nest x))
| step_record x c l s' :
    (c < ncpu (ls x))%nat -> pcs x c = POwn l ->
    acquire_record lapicid c l (ls x) = Ret tt s' ->
    step x (mkSys s' (<[c := PRun]> (pcs x)) (<[c := l :: held x c]> (held x)) (nest x))
| step_release x c l s' :
    (c < ncpu (ls x))%nat -> pcs x c = PRun ->
    release_enter lapicid c l (ls x) = Ret tt s' ->
    step x (mkSys s' (<[c := PRel l]> (pcs x))
              (<[c := filter (λ k, k ≠ l) (held x c)]> (held x)) (nest x))
| step_free x c l s' :
    (c < ncpu (ls x))%nat -> pcs x c = PRel l ->
    release_store lapicid c l (ls x) = Ret tt s' ->
    step x (mkSys s' (<[c := PRun]> (pcs x)) (held x) (nest x))
| step_push x c s' :
    (c < ncpu (ls x))%nat -> pcs x c = PRun ->
    pushcli lapicid c (ls x) = Ret tt s' ->
    step x (mkSys s' (pcs x) (held x) (<[c := S (nest x c)]> (nest x)))
| step_pop x c n s' :
    (c < ncpu (ls x))%nat -> pcs x c = PRun -> nest x c = S n ->
    popcli lapicid c (ls x) = Ret tt s' ->
    step x (mkSys s' (pcs x) (held x) (<[c := n]> (nest x)))
| step_sti x c :
    (c < ncpu (ls x))%nat -> pcs x c = PRun -> cpu_ncli c (ls x) = 0 ->
    step x (mkSys (set_eflags c true (ls x)) (pcs x) (held x) (nest x)).

(** Boot: no lock taken, no [pushcli], each record at its CPU's index. *)
Definition init (x : sys) : Prop :=
  wf lapicid (ls x) /\
  (forall c, pcs x c = PRun /\ held x c = [] /\ nest x c = 0%nat) /\
  (forall c, cpu_ncli c (ls x) = 0) /\
  (forall l, locks (ls x) l = mkSpinlock 0 None).

Definition owns (x : sys) (c l : nat) : Prop :=
  l ∈ held x c \/ pcs x c = POwn l \/ pcs x c = PRel l.

Definition pc_depth (p : pc) : Z := match p with PRun => 0 | _ => 1 end.

(** Nesting depths account for the locks held; interrupts are off under them. *)
Definition cpu_inv (x : sys) : Prop :=
  wf lapicid (ls x) /\
  (forall c, (c < ncpu (ls x))%nat ->
    cpu_ncli c (ls x) = Z.of_nat (length (held x c)) + pc_depth (pcs x c) + Z.of_nat (nest x c)) /\
  (forall c, (c < ncpu (ls x))%nat -> 0 < cpu_ncli c (ls x) -> eflags (ls x) c = false).

(** A taken lock has exactly one owner, and records it while it is held. *)
Record lock_inv (x : sys) : Prop := {
  li_free l : locked (locks (ls x) l) = 0 -> forall c, ~ owns x c l;
  li_owner l : locked (locks (ls x) l) ≠ 0 -> exists c, owns x c l;
  li_uniq l c d : owns x c l -> owns x d l -> c = d;
  li_excl c l : l ∈ held x c -> pcs x c ≠ POwn l /\ pcs x c ≠ PRel l;
  li_nodup c : NoDup (held x c);
  li_cpu c l : lcpu (locks (ls x) l) = Some c <-> l ∈ held x c
}.

Definition inv (x : sys) : Prop := cpu_inv x /\ lock_inv x.

Lemma inv_init x : init x -> inv x.
Proof.
  intros (Hwf & Hpc & Hn & Hl).
  assert (forall c l, ~ owns x c l) as Hno.
  { intros c l. unfold owns. destruct (Hpc c) as (-> & -> & _). set_solver. }
  split.
  - split_and!; [done| |].
    + intros c _. destruct (Hpc c) as (-> & -> & ->). by rewrite Hn.
    + intros c _. rewrite Hn. lia.
  - split.
    + intros l _ c. apply Hno.
    + intros l. by rewrite Hl.
    + intros l c d []%Hno.
    + intros c l H. destruct (Hno c l). by left.
    + intros c. destruct (Hpc c) as (_ & -> & _). constructor.
    + intros c l. rewrite Hl. destruct (Hpc c) as (_ & -> & _). set_solver.
Qed.

(** Updating one CPU's entries keeps the depth account of the others. *)
Lemma cpu_inv_upd x x' c :
  cpu_inv x -> wf lapicid (ls x') -> ncpu (ls x') = ncpu (ls x) ->
  (forall d, d ≠ c -> cpu_ncli d (ls x') = cpu_ncli d (ls x) /\
     eflags (ls x') d = eflags (ls x) d /\ pcs x' d = pcs x d /\
     held x' d = held x d /\ nest x' d = nest x d) ->
  cpu_ncli c (ls x') = Z.of_nat (length (held x' c)) + pc_depth (pcs x' c) + Z.of_nat (nest x' c) ->
  (0 < cpu_ncli c (ls x') -> eflags (ls x') c = false) ->
  cpu_inv x'.
Proof.
  intros (Hwf & Hn & Hoff) Hwf' Hcpu Hne Hc Hoff'. split; [done|]. rewrite Hcpu.
  split; intros d Hd; (destruct (decide (d = c)) as [->|Hdc]; [done|]);
    destruct (Hne d Hdc) as (E1 & E2 & E3 & E4 & E5); rewrite ?E1, ?E2, ?E3, ?E4, ?E5; auto.
Qed.

(** [s'] is [s] after [c] changed its own nesting depth by [dn]. *)
Definition cpu_moved (c : nat) (dn : Z) (s s' : lstate) : Prop :=
  wf lapicid s' /\ ncpu s' = ncpu s /\
  (forall d, cpu_ncli d s' = cpu_ncli d s + if decide (c = d) then dn else 0) /\
  (forall d, d ≠ c -> eflags s' d = eflags s d).

Lemma cpu_inv_cli_ok x c : cpu_inv x -> (c < ncpu (ls x))%nat -> cli_ok (ls x) c.
Proof.
  intros (Hwf & Hn & Hoff) Hc. split; [|auto]. rewrite Hn by done.
  destruct (pcs x c); simpl; lia.
Qed.

Lemma pushed_moved s c :
  wf lapicid s -> (c < ncpu s)%nat -> cpu_moved c 1 s (pushed c s).
Proof.
  intros Hwf Hc. split_and!.
  - by apply wf_pushed.
  - apply length_alter.
  - intros d. by rewrite cpu_ncli_pushed.
  - intros d Hd. by apply fn_lookup_insert_ne.
Qed.

Lemma popped_moved s c :
  wf lapicid s -> (c < ncpu s)%nat -> cpu_moved c (-1) s (popped c s).
Proof.
  intros Hwf Hc. split_and!.
  - by apply wf_popped.
  - unfold popped. destruct (_ && _); apply length_alter.
  - intros d. rewrite cpu_ncli_popped by done. case_decide; lia.
  - intros d Hd. rewrite eflags_popped. by rewrite decide_False by congruence.
Qed.

Lemma acquire_enter_run s c l :
  wf lapicid s -> (c < ncpu s)%nat -> cli_ok s c ->
  (locked (locks s l) ≠ 0 /\ lcpu (locks s l) = Some c ->
    acquire_enter lapicid c l s = Panic "acquire") /\
  (~ (locked (locks s l) ≠ 0 /\ lcpu (locks s l) = Some c) ->
    exists s', acquire_enter lapicid c l s = Ret tt s' /\
      cpu_moved c 1 s s' /\ locks s' = locks s /\ eflags s' c = false).
Proof.
  intros Hwf Hc [Hn Hoff]. unfold acquire_enter.
  rewrite (bind_Ret _ _ _ _ _ (pushcli_run lapicid s c Hwf Hc)).
  destruct (pushed_moved s c Hwf Hc) as (Hwf1 & Hcpu1 & Hn1 & Hfl1).
  destruct (holding_run lapicid (pushed c s) c l) as (s' & Hrun & Hwf' & Hcpu' & Hl' & Hn' & Hfl');
    [done|lia| |].
  { split; [rewrite Hn1, decide_True by done; lia|]. intros _. apply fn_lookup_insert. }
  rewrite (bind_Ret _ _ _ _ _ Hrun). clear Hrun. simpl.
  assert (cpu_moved c 1 s s' /\ locks s' = locks s /\ eflags s' c = false) as Hmv.
  { unfold cpu_moved. split_and!; [done|congruence|..|done|].
    - intros d. by rewrite Hn', Hn1.
    - intros d Hd. by rewrite Hfl', Hfl1.
    - rewrite Hfl'. apply fn_lookup_insert. }
  destruct (Z.eqb_spec (locked (locks s l)) 0) as [Hz|Hz]; simpl.
  - split; [naive_solver|]. intros _. by exists s'.
  - case_bool_decide as Hlc; [split; [done|]; intros []; by split|].
    split; [naive_solver|]. intros _. by exists s'.
Qed.

(** What does not touch the locks or change who owns them. *)
Lemma lock_inv_frame x x' :
  lock_inv x -> locks (ls x') = locks (ls x) -> held x' = held x ->
  (forall c l, pcs x' c = POwn l <-> pcs x c = POwn l) ->
  (forall c l, pcs x' c = PRel l <-> pcs x c = PRel l) ->
  lock_inv x'.
Proof.
  intros [H1 H2 H3 H4 H5 H6] Hl Hh Ho Hr.
  assert (forall c l, owns x' c l <-> owns x c l) as Hown.
  { intros c l. unfold owns. by rewrite Hh, Ho, Hr. }
  split; rewrite ?Hl, ?Hh; auto.
  - intros l Hz c. rewrite Hown. by apply H1.
  - intros l Hz. destruct (H2 l Hz) as [c Hc]. exists c. by apply Hown.
  - intros l c d. rewrite !Hown. apply H3.
  - intros c l Hin. destruct (H4 c l Hin). rewrite Ho, Hr. done.
Qed.

Lemma inv_acquire x c l s' :
  inv x -> (c < ncpu (ls x))%nat -> pcs x c = PRun ->
  acquire_enter lapicid c l (ls x) = Ret tt s' ->
  inv (mkSys s' (<[c := PSpin l]> (pcs x)) (held x) (nest x)).
Proof.
  intros [Hc Hl] Hcn Hpc Hrun.
  destruct (acquire_enter_run (ls x) c l) as [Hp Hr]; [apply Hc|done|by apply cpu_inv_cli_ok|].
  destruct Hr as (s1 & Hrun' & (Hwf & Hcpu & Hn & Hfl) & Hlk & Hoff).
  { intros Hbad. by rewrite Hp in Hrun. }
  rewrite Hrun in Hrun'. injection Hrun' as <-. split.
  - apply (cpu_inv_upd x _ c); simpl; auto.
    + intros d Hd. rewrite Hn, decide_False, fn_lookup_insert_ne by congruence.
      rewrite Z.add_0_r. auto.
    + destruct Hc as (_ & Hc & _). rewrite Hn, decide_True, fn_lookup_insert by done.
      rewrite Hc by done. rewrite Hpc. simpl. lia.
  - apply (lock_inv_frame x); auto; intros d k; simpl;
      (destruct (decide (c = d)) as [<-|Hne];
       [rewrite fn_lookup_insert, Hpc; naive_solver | by rewrite fn_lookup_insert_ne]).
Qed.

(** Rewrite a lookup in an updated per-CPU or per-lock function. *)
Ltac fn_cases c d :=
  destruct (decide (c = d)) as [<-|?];
  [ rewrite ?fn_lookup_insert in * | rewrite ?(fn_lookup_insert_ne _ c d) in * by done ].

Lemma inv_spin x c l old s' :
  inv x -> (c < ncpu (ls x))%nat -> pcs x c = PSpin l ->
  xchg_locked l (ls x) = Ret old s' ->
  inv (mkSys s' (if old =? 0 then <[c := POwn l]> (pcs x) else pcs x) (held x) (nest x)).
Proof.
  intros [Hc Hl] Hcn Hpc [= <- <-]. split.
  { apply (cpu_inv_upd x _ c); simpl; auto; try apply Hc; auto.
    - intros d Hd. repeat split. destruct (_ =? 0); [|done].
      by rewrite fn_lookup_insert_ne by congruence.
    - destruct Hc as (_ & Hc & _). specialize (Hc c Hcn). rewrite Hpc in Hc.
      destruct (_ =? 0); [rewrite fn_lookup_insert | rewrite Hpc]; exact Hc. }
  destruct Hl as [H1 H2 H3 H4 H5 H6].
  destruct (Z.eqb_spec (locked (locks (ls x) l)) 0) as [Hz|Hz].
  - specialize (H1 l Hz) as Hno.
    assert (forall d k, owns (mkSys (set_lock l (mkSpinlock 1 (lcpu (locks (ls x) l))) (ls x))
              (<[c := POwn l]> (pcs x)) (held x) (nest x)) d k <->
            owns x d k \/ (d = c /\ k = l)) as Hown.
    { intros d k. unfold owns. simpl. fn_cases c d; [rewrite Hpc|]; naive_solver. }
    split; simpl; auto.
    + intros k Hk d. rewrite Hown. fn_cases l k; simpl in *; [done|].
      intros [Hd|[_ ?]]; [by apply (H1 k Hk d)|congruence].
    + intros k Hk. fn_cases l k; [exists c; apply Hown; auto|].
      destruct (H2 k Hk) as [d Hd]. exists d. apply Hown. auto.
    + intros k d e. rewrite !Hown.
      intros [Hd|[-> ->]] [He|[-> Ek]]; subst; eauto; [by destruct (Hno d)|by destruct (Hno e)].
    + intros d k Hin. destruct (H4 d k Hin). fn_cases c d; [|done].
      split; [|done]. intros [= <-]. destruct (Hno c). by left.
    + intros d k. fn_cases l k; simpl; apply H6.
  - split; simpl; auto.
    + intros k Hk d. fn_cases l k; simpl in *; [done|]. by apply (H1 k).
    + intros k Hk. fn_cases l k; by apply H2.
    + intros d k. fn_cases l k; simpl; apply H6.
Qed.

Lemma inv_record x c l s' :
  inv x -> (c < ncpu (ls x))%nat -> pcs x c = POwn l ->
  acquire_record lapicid c l (ls x) = Ret tt s' ->
  inv (mkSys s' (<[c := PRun]> (pcs x)) (<[c := l :: held x c]> (held x)) (nest x)).
Proof.
  intros [Hc Hl] Hcn Hpc Hrun.
  assert (0 < cpu_ncli c (ls x)) as Hpos.
  { destruct Hc as (_ & Hc & _). rewrite Hc, Hpc by done. simpl. lia. }
  unfold acquire_record in Hrun. erewrite bind_Ret in Hrun.
  2:{ apply mycpu_ok; [apply Hc|done|]. by apply Hc. }
  injection Hrun as <-. split.
  { apply (cpu_inv_upd x _ c); simpl; auto; try apply Hc; auto.
    - intros d Hd. by rewrite !fn_lookup_insert_ne by congruence.
    - destruct Hc as (_ & Hc & _). specialize (Hc c Hcn). rewrite Hpc in Hc.
      rewrite !fn_lookup_insert. simpl length. simpl in *. unfold cpu_ncli in *. simpl in *. lia. }
  destruct Hl as [H1 H2 H3 H4 H5 H6].
  assert (owns x c l) as Hcl by (unfold owns; auto).
  assert (l ∉ held x c) as Hni by (intros Hin; by destruct (H4 c l Hin)).
  set (x' := mkSys _ _ _ _).
  assert (forall d k, owns x' d k <-> owns x d k) as Hown.
  { intros d k. unfold owns, x'. simpl. fn_cases c d; [|done].
    rewrite elem_of_cons, Hpc. naive_solver. }
  split; simpl.
  - intros k Hk d. rewrite Hown. apply H1. fn_cases l k; done.
  - intros k Hk. destruct (H2 k) as [d Hd]; [fn_cases l k; done|]. exists d. by apply Hown.
  - intros k d e. rewrite !Hown. apply H3.
  - intros d k. fn_cases c d; [done|]. apply H4.
  - intros d. fn_cases c d; [|done]. apply NoDup_cons. auto.
  - intros d k. fn_cases l k; simpl.
    + fn_cases c d; [rewrite elem_of_cons; naive_solver|].
      split; [congruence|]. intros Hin. destruct (H3 l c d); [done|by left|done].
    + fn_cases c d; [|apply H6]. rewrite elem_of_cons, H6. naive_solver.
Qed.

Lemma inv_release x c l s' :
  inv x -> (c < ncpu (ls x))%nat -> pcs x c = PRun ->
  release_enter lapicid c l (ls x) = Ret tt s' ->
  l ∈ held x c /\
  inv (mkSys s' (<[c := PRel l]> (pcs x))
         (<[c := filter (λ k, k ≠ l) (held x c)]> (held x)) (nest x)).
Proof.
  intros [Hc Hl] Hcn Hpc Hrun. unfold release_enter in Hrun.
  destruct (holding_run lapicid (ls x) c l) as (s1 & Hh & Hwf1 & Hcpu1 & Hlk1 & Hn1 & Hfl1);
    [apply Hc|done|by apply cpu_inv_cli_ok|].
  rewrite (bind_Ret _ _ _ _ _ Hh) in Hrun. clear Hh.
  destruct (negb (locked (locks (ls x) l) =? 0)) eqn:Elk; [|done]. simpl in Hrun.
  case_bool_decide as Elc; [|done]. injection Hrun as <-.
  destruct Hl as [H1 H2 H3 H4 H5 H6].
  assert (l ∈ held x c) as Hin by (by apply H6). split; [done|].
  set (hc := filter (λ k, k ≠ l) (held x c)).
  assert (length (held x c) = S (length hc)) as Hlen.
  { by apply length_filter_ne. }
  split.
  { apply (cpu_inv_upd x _ c); simpl; auto; try done.
    - intros d Hd. rewrite !fn_lookup_insert_ne by congruence. rewrite <-Hn1. done.
    - destruct Hc as (_ & Hc & _). specialize (Hc c Hcn). rewrite Hpc in Hc.
      rewrite !fn_lookup_insert. specialize (Hn1 c). unfold cpu_ncli in *. simpl in *. lia.
    - intros Hpos. rewrite Hfl1. destruct Hc as (_ & _ & Hc). apply Hc; [done|].
      specialize (Hn1 c). unfold cpu_ncli in *. simpl in *. lia. }
  set (x' := mkSys _ _ _ _).
  assert (forall d k, owns x' d k <-> owns x d k) as Hown.
  { intros d k. unfold owns, x'. simpl. fn_cases c d; [|done].
    unfold hc. rewrite list_elem_of_filter, Hpc.
    destruct (decide (k = l)) as [->|]; naive_solver. }
  split; simpl; rewrite ?Hlk1.
  - intros k Hk d. rewrite Hown. apply H1. fn_cases l k; done.
  - intros k Hk. destruct (H2 k) as [d Hd]; [fn_cases l k; done|]. exists d. by apply Hown.
  - intros k d e. rewrite !Hown. apply H3.
  - intros d k. fn_cases c d; [|apply H4]. unfold hc. rewrite list_elem_of_filter.
    intros [? _]. split; [done|congruence].
  - intros d. fn_cases c d; [|done]. by apply NoDup_filter.
  - intros d k. fn_cases l k; simpl.
    + split; [done|]. fn_cases c d.
      * unfold hc. rewrite list_elem_of_filter. naive_solver.
      * intros Hd. destruct (H3 l c d); [by left|by left|done].
    + fn_cases c d; [|apply H6]. unfold hc. rewrite list_elem_of_filter, H6. naive_solver.
Qed.

Lemma inv_free x c l s' :
  inv x -> (c < ncpu (ls x))%nat -> pcs x c = PRel l ->
  release_store lapicid c l (ls x) = Ret tt s' ->
  inv (mkSys s' (<[c := PRun]> (pcs x)) (held x) (nest x)).
Proof.
  intros [Hc Hl] Hcn Hpc Hrun.
  assert (0 < cpu_ncli c (ls x)) as Hpos.
  { destruct Hc as (_ & Hc & _). rewrite Hc, Hpc by done. simpl. lia. }
  unfold release_store in Hrun. erewrite !bind_Ret in Hrun by done.
  set (s1 := set_lock _ _ _) in Hrun.
  assert (wf lapicid s1) as Hwf1 by apply Hc.
  rewrite popcli_run in Hrun; [|done|done|by apply Hc|unfold cpu_ncli in *; simpl; lia].
  injection Hrun as <-. destruct (popped_moved s1 c Hwf1 Hcn) as (Hwf2 & Hcpu2 & Hn2 & Hfl2).
  split.
  { apply (cpu_inv_upd x _ c); simpl; auto.
    - intros d Hd. rewrite fn_lookup_insert_ne, Hn2, Hfl2, decide_False by congruence.
      rewrite Z.add_0_r. done.
    - destruct Hc as (_ & Hc & _). specialize (Hc c Hcn). rewrite Hpc in Hc.
      rewrite fn_lookup_insert, Hn2, decide_True by done.
      unfold cpu_ncli in *. simpl in *. lia.
    - rewrite Hn2, decide_True by done. rewrite eflags_popped, decide_True by done. intros Hgt.
      rewrite (proj2 (Z.eqb_neq _ _)) by lia. simpl. by apply Hc. }
  destruct Hl as [H1 H2 H3 H4 H5 H6].
  assert (owns x c l) as Hcl by (unfold owns; auto).
  assert (l ∉ held x c) as Hni by (intros Hin; by destruct (H4 c l Hin)).
  set (x' := mkSys _ _ _ _).
  assert (forall d k, owns x' d k <-> owns x d k /\ k ≠ l) as Hown.
  { intros d k. unfold owns, x'. simpl. fn_cases c d.
    - rewrite Hpc. destruct (decide (k = l)) as [->|]; naive_solver.
    - split; [|naive_solver]. intros Hd. split; [done|]. intros ->.
      destruct (H3 l c d); [done|done|done]. }
  split; simpl; rewrite ?locks_popped; auto.
  - intros k Hk d. rewrite Hown. intros [Hd Hne]. simpl in Hk.
    rewrite fn_lookup_insert_ne in Hk by done. by apply (H1 k Hk d).
  - intros k Hk. simpl in Hk. fn_cases l k; [done|].
    destruct (H2 k Hk) as [d Hd]. exists d. apply Hown. naive_solver.
  - intros k d e. rewrite !Hown. intros [? _] [? _]. by eapply H3.
  - intros d k Hin. destruct (H4 d k Hin). fn_cases c d; done.
  - intros d k. simpl. fn_cases l k; simpl; apply H6.
Qed.

(** Steps that only change a CPU's interrupt nesting. *)
Lemma inv_nest x c dn s' n' :
  inv x -> (c < ncpu (ls x))%nat -> pcs x c = PRun ->
  cpu_moved c dn (ls x) s' -> locks s' = locks (ls x) ->
  Z.of_nat n' = Z.of_nat (nest x c) + dn ->
  (0 < cpu_ncli c s' -> eflags s' c = false) ->
  inv (mkSys s' (pcs x) (held x) (<[c := n']> (nest x))).
Proof.
  intros [Hc Hl] Hcn Hpc (Hwf & Hcpu & Hn & Hfl) Hlk Hn' Hoff. split.
  - apply (cpu_inv_upd x _ c); simpl; auto.
    + intros d Hd. rewrite fn_lookup_insert_ne, Hn, decide_False by congruence.
      rewrite Z.add_0_r. auto.
    + destruct Hc as (_ & Hc & _). rewrite fn_lookup_insert, Hn, decide_True by done.
      rewrite Hc by done. lia.
  - by apply (lock_inv_frame x).
Qed.

Lemma inv_step x y : inv x -> step x y -> inv y.
Proof.
  intros Hinv Hstep. destruct Hstep as [x c l s' Hc Hpc Hrun|x c l old s' Hc Hpc Hrun|
    x c l s' Hc Hpc Hrun|x c l s' Hc Hpc Hrun|x c l s' Hc Hpc Hrun|x c s' Hc Hpc Hrun|
    x c n s' Hc Hpc Hnest Hrun|x c Hc Hpc Hz].
  - by apply inv_acquire.
  - by apply inv_spin.
  - by apply inv_record.
  - by apply inv_release.
  - by apply (inv_free _ _ l).
  - pose proof Hinv as [(Hwf & _) _]. rewrite (pushcli_run lapicid) in Hrun by done.
    injection Hrun as <-.
    apply (inv_nest _ _ 1); try done; [by apply pushed_moved|lia|]. intros _. apply fn_lookup_insert.
  - pose proof Hinv as [(Hwf & Hn & Hoff) _].
    assert (1 <= cpu_ncli c (ls x)) as Hge by (rewrite Hn, Hpc, Hnest by done; simpl; lia).
    assert (eflags (ls x) c = false) as Hfl by (apply Hoff; [done|lia]).
    rewrite (popcli_run lapicid) in Hrun by done. injection Hrun as <-.
    apply (inv_nest _ _ (-1)); try done; [by apply popped_moved|apply locks_popped|lia|].
    rewrite cpu_ncli_popped, eflags_popped, !decide_True by done. intros Hgt.
    rewrite (proj2 (Z.eqb_neq _ _)) by lia. done.
  - destruct Hinv as [Hci Hli]. split.
    + apply (cpu_inv_upd x _ c); simpl; auto; try apply Hci; auto.
      * intros d Hd. by rewrite fn_lookup_insert_ne by congruence.
      * unfold cpu_ncli in *. simpl in *. lia.
    + by apply (lock_inv_frame x).
Qed.

Lemma inv_reachable x y : init x -> rtc step x y -> inv y.
Proof. intros Hinit. apply rtc_invariant; eauto using inv_init, inv_step. Qed.

(** C39: in every interleaving of the CPUs from boot, a spin lock whose
    [acquire] returned on one CPU is held by no other CPU, and interrupts
    are off on the CPU that holds it. *)
Theorem spinlock_mutual_exclusion x y c l :
  init x -> rtc step x y -> (c < ncpu (ls y))%nat -> l ∈ held y c ->
  eflags (ls y) c = false /\ (forall d, l ∈ held y d -> d = c).
Proof.
  intros Hinit Hrtc Hc Hin.
  destruct (inv_reachable x y Hinit Hrtc) as [(Hwf & Hn & Hoff) Hl]. split.
  - apply Hoff; [done|]. rewrite Hn by done. apply list_elem_of_In in Hin.
    destruct (held y c); [done|]. simpl length. destruct (pcs y c); simpl; lia.
  - intros d Hd. eapply (li_uniq y Hl); by left.
Qed.

(** [holding], which reads the lock without owning it, answers exactly
    whether this CPU holds the lock, on every CPU in every reachable state,
    and leaves the locks, nesting depths and interrupt flags unchanged. *)
Theorem holding_exact x y c l :
  init x -> rtc step x y -> (c < ncpu (ls y))%nat ->
  exists s', holding lapicid c l (ls y) = Ret (bool_decide (l ∈ held y c)) s' /\
    locks s' = locks (ls y) /\ (forall d, cpu_ncli d s' = cpu_ncli d (ls y)) /\
    (forall d, eflags s' d = eflags (ls y) d).
Proof.
  intros Hinit Hrtc Hc.
  destruct (inv_reachable x y Hinit Hrtc) as [Hci Hl].
  destruct (holding_run lapicid (ls y) c l) as (s' & Hrun & _ & _ & Hlk & Hn & Hfl);
    [apply Hci|done|by apply cpu_inv_cli_ok|].
  exists s'. split_and!; try done. rewrite Hrun. f_equal.
  destruct (decide (l ∈ held y c)) as [Hin|Hni].
  - rewrite (bool_decide_eq_true_2 (l ∈ _)) by done.
    rewrite bool_decide_eq_true_2 by (by apply (li_cpu y Hl)).
    destruct (Z.eqb_spec (locked (locks (ls y) l)) 0) as [Hz|]; [|done].
    destruct (li_free y Hl l Hz c). by left.
  - rewrite (bool_decide_eq_false_2 (l ∈ _)) by done.
    rewrite bool_decide_eq_false_2, andb_false_r; [done|]. by rewrite (li_cpu y Hl).
Qed.
End smp.

(** ** Two CPUs, lock 7 taken by CPU 0 *)

Definition demo_apic (c : nat) : Z := Z.of_nat c.
Definition demo_boot : sys :=
  mkSys (mkL [mkCpu 0 0 false; mkCpu 1 0 false] (λ _, true) (λ _, mkSpinlock 0 None))
    (λ _, PRun) (λ _, []) (λ _, 0%nat).

Lemma demo_boot_init : init demo_apic demo_boot.
Proof.
  split_and!; try done.
  - split; [by apply NoDup_ListNoDup; repeat constructor; simpl; naive_solver|].
    intros [|[|c]] k; simpl; naive_solver.
  - by intros [|[|c]].
Qed.

Lemma demo_locked : exists y,
  rtc (step demo_apic) demo_boot y /\ (0 < ncpu (ls y))%nat /\ 7%nat ∈ held y 0 /\ pcs y 0 = PRun.
Proof.
  eexists. split.
  - eapply rtc_l; [by eapply (step_acquire _ demo_boot 0 7); [by apply Nat.ltb_lt|..]|].
    eapply rtc_l; [by eapply (step_spin _ _ 0 7); [by apply Nat.ltb_lt|..]|].
    eapply rtc_l; [by eapply (step_record _ _ 0 7); [by apply Nat.ltb_lt|..]|].
    apply rtc_refl.
  - split_and!; [by apply Nat.ltb_lt|by repeat constructor|done].
Qed.

Lemma spinlock_mutual_exclusion_witness : exists y,
  rtc (step demo_apic) demo_boot y /\ eflags (ls y) 0 = false /\
  (forall d, 7%nat ∈ held y d -> d = 0%nat).
Proof.
  destruct demo_locked as (y & Hy & Hn & Hin & _). exists y. split; [done|].
  apply (spinlock_mutual_exclusion demo_apic demo_boot y 0 7 demo_boot_init Hy Hn Hin).
Defined.

Lemma holding_exact_witness : exists y s',
  rtc (step demo_apic) demo_boot y /\
  holding demo_apic 0 7 (ls y) = Ret (bool_decide (7%nat ∈ held y 0)) s'.
Proof.
  destruct demo_locked as (y & Hy & Hn & _). exists y.
  destruct (holding_exact demo_apic demo_boot y 0 7 demo_boot_init Hy Hn) as (s' & Hrun & _).
  by exists s'.
Defined.
