(* ===== verification/Sleeplock.v ===== *)
(** * Sleep-locks (sleeplock.c)

    The operations run under the spin-lock [lk->lk], so each is one atomic step;
    acquiresleep is modelled up to its return or its sleep, and its loop is
    entered again after a wakeup.  The second half runs any number of processes
    on one lock. *)

From S2P Require Import Prelude.

Record sleeplock := mkSl { locked : bool; slpid : Z }.

Definition initsleeplock : sleeplock := mkSl false 0.

Definition acquiresleep (lk : Z) (mypid : Z) : M sleeplock unit :=
  l ← get;
  if locked l then sleep_on (CSleeplock lk) else put (mkSl true mypid).

(** The caller also wakes every process asleep on the lock. *)
Definition releasesleep : M sleeplock unit := put (mkSl false 0).

Definition holdingsleep (mypid : Z) : M sleeplock bool :=
  l ← get; mret (locked l && (slpid l =? mypid)).

(** ** Processes on one lock *)

Inductive slphase := Away | Trying | Asleep | Inside.
#[global] Instance slphase_eq_dec : EqDecision slphase.
Proof. solve_decision. Defined.

Record slsys := mkSS { sl_lock : sleeplock; sl_at : Z -> slphase }.

(** wakeup(lk) *)
Definition wake_all (f : Z -> slphase) (p : Z) : slphase := match f p with Asleep => Trying | x => x end.

(** [lk] is the address of the lock; processes are named by their pids.  [kill]
    may wake a sleeper at any time. *)
Inductive sl_step (lk : Z) (s : slsys) : slsys -> Prop :=
| SL_call p : sl_at s p = Away -> sl_step lk s (mkSS (sl_lock s) (<[p := Trying]> (sl_at s)))
| SL_enter p l : sl_at s p = Trying -> acquiresleep lk p (sl_lock s) = Ret tt l ->
    sl_step lk s (mkSS l (<[p := Inside]> (sl_at s)))
| SL_block p c l : sl_at s p = Trying -> acquiresleep lk p (sl_lock s) = Sleep c l ->
    sl_step lk s (mkSS l (<[p := Asleep]> (sl_at s)))
| SL_kill p : sl_at s p = Asleep -> sl_step lk s (mkSS (sl_lock s) (<[p := Trying]> (sl_at s)))
| SL_leave p l : sl_at s p = Inside -> releasesleep (sl_lock s) = Ret tt l ->
    sl_step lk s (mkSS l (wake_all (<[p := Away]> (sl_at s)))).

Definition sl_init : slsys := mkSS initsleeplock (λ _, Away).

Record sl_inv (s : slsys) : Prop := {
  sl_holder p : sl_at s p = Inside -> sl_lock s = mkSl true p;
  sl_held : locked (sl_lock s) = true -> sl_at s (slpid (sl_lock s)) = Inside;
  sl_sleeper p : sl_at s p = Asleep -> locked (sl_lock s) = true
}.

Lemma sl_at_insert p x (f : Z -> slphase) q : <[p := x]> f q = if decide (p = q) then x else f q.
Proof. case_decide; subst; [apply fn_lookup_insert|by apply fn_lookup_insert_ne]. Qed.

(** A process that was not inside changes its phase to one outside. *)
Lemma sl_inv_phase s p x : sl_inv s -> sl_at s p <> Inside -> x <> Inside ->
  (x = Asleep -> locked (sl_lock s) = true) -> sl_inv (mkSS (sl_lock s) (<[p := x]> (sl_at s))).
Proof.
  intros [H1 H2 H3] Hp Hx Hs. constructor; cbn.
  - intros q. rewrite sl_at_insert. case_decide; [done|auto].
  - intros Hl. rewrite sl_at_insert. case_decide; [|auto]. subst. by rewrite H2 in Hp.
  - intros q. rewrite sl_at_insert. case_decide; [auto|by apply H3].
Qed.

Lemma sl_inv_step lk s s' : sl_inv s -> sl_step lk s s' -> sl_inv s'.
Proof.
  intros Hi Hst. destruct Hst as [p Hp|p l Hp Ha|p c l Hp Ha|p Hp|p l Hp Hr].
  - apply sl_inv_phase; [done|by rewrite Hp|done|done].
  - unfold acquiresleep, mbind, M_bind, get, put in Ha. destruct (locked (sl_lock s)) eqn:El; [done|].
    injection Ha as <-. destruct Hi as [H1 H2 H3]. constructor; cbn.
    + intros q. rewrite sl_at_insert. case_decide; [by subst|]. intros Hq. rewrite (H1 q Hq) in El. done.
    + intros _. by rewrite sl_at_insert, decide_True.
    + done.
  - unfold acquiresleep, mbind, M_bind, get, put, sleep_on in Ha. destruct (locked (sl_lock s)) eqn:El; [|done].
    injection Ha as <- <-. apply sl_inv_phase; [done|by rewrite Hp|done|done].
  - apply sl_inv_phase; [done|by rewrite Hp|done|done].
  - injection Hr as <-. destruct Hi as [H1 H2 H3]. constructor; cbn; [|done|].
    + intros q. unfold wake_all. rewrite sl_at_insert. case_decide as E; [done|].
      destruct (sl_at s q) eqn:Eq; try done. pose proof (H1 q Eq). pose proof (H1 p Hp). congruence.
    + intros q. unfold wake_all. by destruct (<[p := Away]> (sl_at s) q).
Qed.

(** A sleep-lock excludes: at any time at most one process is inside, the one
    holdingsleep says; and no process sleeps on a lock that nobody holds, so a
    release never leaves a waiter behind. *)
Theorem sleeplock_exclusion lk s (Hr : rtc (sl_step lk) sl_init s) :
  (forall p q, sl_at s p = Inside -> sl_at s q = Inside -> p = q) /\
  (forall p, holdingsleep p (sl_lock s) = Ret (bool_decide (sl_at s p = Inside)) (sl_lock s)) /\
  (forall p, sl_at s p = Asleep -> exists q, sl_at s q = Inside).
Proof.
  assert (sl_inv s) as [H1 H2 H3].
  { revert Hr. apply (rtc_invariant (sl_step lk) sl_inv); [apply sl_inv_step|]. by constructor. }
  split_and!.
  - intros p q Hp Hq. pose proof (H1 p Hp). pose proof (H1 q Hq). congruence.
  - intros p. unfold holdingsleep, mbind, M_bind, get, mret, M_ret. f_equal.
    destruct (decide (sl_at s p = Inside)) as [E|E].
    + rewrite bool_decide_true by done. rewrite (H1 p E). cbn. by rewrite Z.eqb_refl.
    + rewrite bool_decide_false by done. destruct (locked (sl_lock s)) eqn:El; [|done]. cbn.
      apply Z.eqb_neq. intros <-. auto.
  - intros p Hp. exists (slpid (sl_lock s)). eauto.
Qed.

(** Process 1 holds the lock and process 2 sleeps on it. *)
Definition sl_contended : slsys :=
  mkSS (mkSl true 1) (<[2 := Asleep]> (<[1 := Inside]> (<[2 := Trying]> (<[1 := Trying]> (λ _, Away))))).

Lemma sleeplock_exclusion_witness :
  sl_at sl_contended 2 = Asleep /\ exists q, sl_at sl_contended q = Inside.
Proof.
  split; [reflexivity|]. refine (proj2 (proj2 (sleeplock_exclusion 0 sl_contended _)) 2 _); [|reflexivity].
  eapply rtc_l; [apply (SL_call 0 sl_init 1); reflexivity|].
  eapply rtc_l; [apply (SL_call 0 _ 2); reflexivity|].
  eapply rtc_l; [apply (SL_enter 0 _ 1 (mkSl true 1)); reflexivity|].
  eapply rtc_l; [apply (SL_block 0 _ 2 (CSleeplock 0) (mkSl true 1)); reflexivity|].
  apply rtc_refl.
Defined.
