(* ===== verification/ProcDefs.v ===== *)
(** * The process table: data and operations (proc.c, proc.h)

    The state is the process table with its lock, the identity of the process
    this CPU runs ([c->proc]), the CPU's interrupt nesting, and the rest of the
    kernel (memory, files, inodes), which [proc.c] reaches through the
    operations of the class [Services].  A [struct proc*] is the index of its
    slot, the null pointer [None].  The trap frame and the saved context, which
    the source keeps at the top of the process's own kernel stack page, are
    fields of the process record. *)

From S2P Require Import Prelude CString.

(** ** param.h, mmu.h *)
Definition NPROC : nat := 64.
Definition NOFILE : nat := 16.
Definition PGSIZE : Z := 4096.
Definition KSTACKSIZE : Z := 4096.
Definition FL_IF : Z := 512.
Definition SEG_UCODE : Z := 3.
Definition SEG_UDATA : Z := 4.
Definition DPL_USER : Z := 3.

(** The scheduler is chosen when the kernel is built: [MULTILEVEL_SCHED],
    [MLFQ_SCHED] with the number of levels [MLFQ_K], or neither. *)
Inductive policy := RoundRobin | Multilevel | Mlfq (MLFQ_K : Z).

Inductive procstate := UNUSED | EMBRYO | SLEEPING | RUNNABLE | RUNNING | ZOMBIE.
#[global] Instance procstate_eq_dec : EqDecision procstate.
Proof. solve_decision. Defined.

(** struct trapframe: the registers the kernel reads or writes by name, and
    the remaining ones in order. *)
Record trapframe := mkTf {
  eax : Z; esp : Z; eip : Z; tf_eflags : Z;
  cs : Z; ds : Z; es : Z; ss : Z;
  trapno : Z; err : Z; other_regs : list Z
}.
Definition tf_zero : trapframe := mkTf 0 0 0 0 0 0 0 0 0 0 (replicate 9 0).
Definition set_eax (v : Z) (t : trapframe) : trapframe :=
  mkTf v (esp t) (eip t) (tf_eflags t) (cs t) (ds t) (es t) (ss t) (trapno t) (err t) (other_regs t).

(** struct proc *)
Record proc := mkProc {
  sz : Z; pgdir : Z; kstack : Z; state : procstate; pid : Z;
  parent : option nat; tf : trapframe; context_eip : Z; pchan : chan; killed : Z;
  ofile : list (option nat); cwd : option nat;
  priority : Z; tq : Z; qlvl : Z;
  name : list Z; id : list Z
}.

(** A slot of the zero-initialised table. *)
Definition proc_zero : proc :=
  mkProc 0 0 0 UNUSED 0 None tf_zero 0 CNull 0 (replicate NOFILE None) None 0 0 0
    (replicate 16 0) (replicate 16 0).

Definition set_sz v p := mkProc v (pgdir p) (kstack p) (state p) (pid p) (parent p) (tf p) (context_eip p) (pchan p) (killed p) (ofile p) (cwd p) (priority p) (tq p) (qlvl p) (name p) (id p).
Definition set_pgdir v p := mkProc (sz p) v (kstack p) (state p) (pid p) (parent p) (tf p) (context_eip p) (pchan p) (killed p) (ofile p) (cwd p) (priority p) (tq p) (qlvl p) (name p) (id p).
Definition set_kstack v p := mkProc (sz p) (pgdir p) v (state p) (pid p) (parent p) (tf p) (context_eip p) (pchan p) (killed p) (ofile p) (cwd p) (priority p) (tq p) (qlvl p) (name p) (id p).
Definition set_state v p := mkProc (sz p) (pgdir p) (kstack p) v (pid p) (parent p) (tf p) (context_eip p) (pchan p) (killed p) (ofile p) (cwd p) (priority p) (tq p) (qlvl p) (name p) (id p).
Definition set_pid v p := mkProc (sz p) (pgdir p) (kstack p) (state p) v (parent p) (tf p) (context_eip p) (pchan p) (killed p) (ofile p) (cwd p) (priority p) (tq p) (qlvl p) (name p) (id p).
Definition set_parent v p := mkProc (sz p) (pgdir p) (kstack p) (state p) (pid p) v (tf p) (context_eip p) (pchan p) (killed p) (ofile p) (cwd p) (priority p) (tq p) (qlvl p) (name p) (id p).
Definition set_tf v p := mkProc (sz p) (pgdir p) (kstack p) (state p) (pid p) (parent p) v (context_eip p) (pchan p) (killed p) (ofile p) (cwd p) (priority p) (tq p) (qlvl p) (name p) (id p).
Definition set_context v p := mkProc (sz p) (pgdir p) (kstack p) (state p) (pid p) (parent p) (tf p) v (pchan p) (killed p) (ofile p) (cwd p) (priority p) (tq p) (qlvl p) (name p) (id p).
Definition set_chan v p := mkProc (sz p) (pgdir p) (kstack p) (state p) (pid p) (parent p) (tf p) (context_eip p) v (killed p) (ofile p) (cwd p) (priority p) (tq p) (qlvl p) (name p) (id p).
Definition set_killed v p := mkProc (sz p) (pgdir p) (kstack p) (state p) (pid p) (parent p) (tf p) (context_eip p) (pchan p) v (ofile p) (cwd p) (priority p) (tq p) (qlvl p) (name p) (id p).
Definition set_ofile v p := mkProc (sz p) (pgdir p) (kstack p) (state p) (pid p) (parent p) (tf p) (context_eip p) (pchan p) (killed p) v (cwd p) (priority p) (tq p) (qlvl p) (name p) (id p).
Definition set_cwd v p := mkProc (sz p) (pgdir p) (kstack p) (state p) (pid p) (parent p) (tf p) (context_eip p) (pchan p) (killed p) (ofile p) v (priority p) (tq p) (qlvl p) (name p) (id p).
Definition set_priority v p := mkProc (sz p) (pgdir p) (kstack p) (state p) (pid p) (parent p) (tf p) (context_eip p) (pchan p) (killed p) (ofile p) (cwd p) v (tq p) (qlvl p) (name p) (id p).
Definition set_tq v p := mkProc (sz p) (pgdir p) (kstack p) (state p) (pid p) (parent p) (tf p) (context_eip p) (pchan p) (killed p) (ofile p) (cwd p) (priority p) v (qlvl p) (name p) (id p).
Definition set_qlvl v p := mkProc (sz p) (pgdir p) (kstack p) (state p) (pid p) (parent p) (tf p) (context_eip p) (pchan p) (killed p) (ofile p) (cwd p) (priority p) (tq p) v (name p) (id p).
Definition set_name v p := mkProc (sz p) (pgdir p) (kstack p) (state p) (pid p) (parent p) (tf p) (context_eip p) (pchan p) (killed p) (ofile p) (cwd p) (priority p) (tq p) (qlvl p) v (id p).
Definition set_id v p := mkProc (sz p) (pgdir p) (kstack p) (state p) (pid p) (parent p) (tf p) (context_eip p) (pchan p) (killed p) (ofile p) (cwd p) (priority p) (tq p) (qlvl p) (name p) v.

(** ** The rest of the kernel, as proc.c calls it

    File and inode pointers are indices of the file table and of the inode
    cache.  [kalloc], [setupkvm] and [copyuvm] return 0 when out of memory. *)
Class Services (W : Type) := {
  sv_kalloc : M W Z;
  sv_kfree : Z -> M W unit;
  sv_setupkvm : M W Z;
  sv_inituvm : Z -> M W unit;
  sv_copyuvm : Z -> Z -> M W Z;
  sv_freevm : Z -> M W unit;
  sv_allocuvm : Z -> Z -> Z -> M W Z;
  sv_deallocuvm : Z -> Z -> Z -> M W Z;
  sv_switchuvm : Z -> M W unit;
  sv_filedup : nat -> M W nat;
  sv_fileclose : nat -> M W unit;
  sv_idup : nat -> M W nat;
  sv_iput : nat -> M W unit;
  sv_begin_op : M W unit;
  sv_end_op : M W unit;
  sv_namei_root : M W (option nat)
}.

(** The state of proc.c on one CPU; [other] is the rest of the kernel. *)
Record pst (W : Type) := mkPst {
  ptab : list proc;
  plock : bool;                  (* ptable.lock is held by this CPU *)
  initproc : option nat;
  nextpid : Z;
  cur : option nat;              (* c->proc *)
  intr : bool;                   (* FL_IF *)
  pncli : Z;                     (* c->ncli *)
  pintena : bool;                (* c->intena *)
  other : W
}.
Arguments mkPst {W}.
Arguments ptab {W}. Arguments plock {W}. Arguments initproc {W}. Arguments nextpid {W}.
Arguments cur {W}. Arguments intr {W}. Arguments pncli {W}. Arguments pintena {W}.
Arguments other {W}.

Section ops.
Context {W : Type} {SV : Services W}.
(** The build's scheduler, and the addresses the linker gives to [forkret]. *)
Context (pol : policy) (forkret_addr : Z).
(** What reading [pid] through a null process pointer yields: the kernel runs
    on the page table of the current process, where low addresses are user
    memory. *)
Context (null_pid : Z).

Definition with_ptab (f : list proc -> list proc) (s : pst W) : pst W :=
  mkPst (f (ptab s)) (plock s) (initproc s) (nextpid s) (cur s) (intr s) (pncli s) (pintena s) (other s).
Definition with_initproc (i : option nat) (s : pst W) : pst W :=
  mkPst (ptab s) (plock s) i (nextpid s) (cur s) (intr s) (pncli s) (pintena s) (other s).
Definition with_nextpid (n : Z) (s : pst W) : pst W :=
  mkPst (ptab s) (plock s) (initproc s) n (cur s) (intr s) (pncli s) (pintena s) (other s).
Definition with_cur (c : option nat) (s : pst W) : pst W :=
  mkPst (ptab s) (plock s) (initproc s) (nextpid s) c (intr s) (pncli s) (pintena s) (other s).
Definition with_intena (b : bool) (s : pst W) : pst W :=
  mkPst (ptab s) (plock s) (initproc s) (nextpid s) (cur s) (intr s) (pncli s) b (other s).
Definition with_other (w : W) (s : pst W) : pst W :=
  mkPst (ptab s) (plock s) (initproc s) (nextpid s) (cur s) (intr s) (pncli s) (pintena s) w.

(** Call an operation of the rest of the kernel. *)
Definition ext {A} (m : M W A) : M (pst W) A := zoom other with_other m.

Definition pupd (i : nat) (f : proc -> proc) : M (pst W) unit := modify (with_ptab (alter f i)).
Definition pread (i : nat) : M (pst W) proc := gets (λ s, default proc_zero (ptab s !! i)).

(** [myproc()], when the caller dereferences the result. *)
Definition myproc : M (pst W) nat :=
  c ← gets cur; match c with Some i => mret i | None => panic "null process" end.

(** acquire(&ptable.lock) and release(&ptable.lock) on this CPU: the nesting of
    [pushcli] and [popcli], and the two checks of the lock itself. *)
Definition acquire_ptable : M (pst W) unit :=
  s ← get;
  let ena := if (pncli s =? 0)%Z then intr s else pintena s in
  if plock s then panic "acquire"
  else put (mkPst (ptab s) true (initproc s) (nextpid s) (cur s) false (pncli s + 1) ena (other s)).

Definition release_ptable : M (pst W) unit :=
  s ← get;
  if negb (plock s) then panic "release"
  else if intr s then panic "popcli - interruptible"
  else if (pncli s - 1 <? 0)%Z then panic "popcli"
  else
    let on := (pncli s - 1 =? 0)%Z && pintena s in
    put (mkPst (ptab s) false (initproc s) (nextpid s) (cur s) on (pncli s - 1) (pintena s) (other s)).

(** First slot of the table that satisfies [f]: the kernel's linear searches. *)
Definition find_slot (f : proc -> bool) (l : list proc) : option nat :=
  fst <$> list_find (λ p, f p = true) l.

Definition is_unused (p : proc) : bool := bool_decide (state p = UNUSED).

(** ** allocproc *)

Definition mlfq_reset (p : proc) : proc :=
  match pol with Mlfq _ => set_priority 0 (set_qlvl 0 (set_tq 0 p)) | _ => p end.

Definition alloc_init (np : Z) (p : proc) : proc :=
  let p := set_pid np (set_state EMBRYO p) in
  let p := mlfq_reset p in
  set_id (strncpy (id p) (bytes_of "root") 4) p.

(** The critical section: claim a slot and give it a pid. *)
Definition alloc_slot : M (pst W) (option nat) :=
  acquire_ptable;;
  s ← get;
  match find_slot is_unused (ptab s) with
  | None => release_ptable;; mret None
  | Some i =>
      pupd i (alloc_init (nextpid s));;
      modify (with_nextpid (s32 (nextpid s + 1)));;
      release_ptable;;
      mret (Some i)
  end.

(** The kernel stack, and the context that starts at [forkret]. *)
Definition alloc_kstack (i : nat) : M (pst W) (option nat) :=
  k ← ext sv_kalloc;
  pupd i (set_kstack k);;
  if (k =? 0)%Z then pupd i (set_state UNUSED);; mret None
  else pupd i (set_context forkret_addr);; mret (Some i).

Definition allocproc : M (pst W) (option nat) :=
  o ← alloc_slot;
  match o with None => mret None | Some i => alloc_kstack i end.

(** ** userinit *)

Definition user_cs : Z := Z.lor (Z.shiftl SEG_UCODE 3) DPL_USER.
Definition user_ds : Z := Z.lor (Z.shiftl SEG_UDATA 3) DPL_USER.
Definition init_tf : trapframe :=
  mkTf 0 PGSIZE 0 FL_IF user_cs user_ds user_ds user_ds 0 0 (replicate 9 0).

(** [p->state = RUNNABLE] under the lock: the last step of userinit and fork. *)
Definition publish (i : nat) : M (pst W) unit :=
  acquire_ptable;; pupd i (set_state RUNNABLE);; release_ptable.

Definition userinit : M (pst W) unit :=
  o ← allocproc;
  modify (with_initproc o);;
  pg ← ext sv_setupkvm;
  match o with
  | None => panic "null process"
  | Some i =>
      pupd i (set_pgdir pg);;
      if (pg =? 0)%Z then panic "userinit: out of memory?" else
      ext (sv_inituvm pg);;
      pupd i (set_sz PGSIZE);;
      pupd i (set_tf init_tf);;
      pupd i (λ p, set_name (safestrcpy (name p) (bytes_of "initcode") 16) p);;
      d ← ext sv_namei_root;
      pupd i (set_cwd d);;
      publish i
  end.

(** ** growproc *)

(** [sz] for the process and every slot with its pid. *)
Definition set_sz_of_pid (pd n : Z) (p : proc) : proc :=
  if (pid p =? pd)%Z then set_sz n p else p.

(** A failing [allocuvm] or [deallocuvm] returns without [release]. *)
Definition growproc (n : Z) : M (pst W) Z :=
  i ← myproc;
  acquire_ptable;;
  p ← pread i;
  nsz ← (if (0 <? n)%Z then ext (sv_allocuvm (pgdir p) (sz p) (u32 (sz p + n)))
         else if (n <? 0)%Z then ext (sv_deallocuvm (pgdir p) (sz p) (u32 (sz p + n)))
         else mret (sz p));
  if negb (n =? 0)%Z && (nsz =? 0)%Z then mret (-1)
  else
    modify (with_ptab (fmap (set_sz_of_pid (pid p) nsz)));;
    pupd i (set_sz nsz);;
    release_ptable;;
    ext (sv_switchuvm (pgdir p));;
    mret 0.

(** ** fork, fork2 *)

(** Duplicate descriptor [fd] of process [i] into the child [j]. *)
Definition dup_fd (i j fd : nat) : M (pst W) unit :=
  p ← pread i;
  match ofile p !! fd with
  | Some (Some f) =>
      f' ← ext (sv_filedup f);
      pupd j (λ q, set_ofile (<[fd := Some f']> (ofile q)) q)
  | _ => mret tt
  end.

(** From [copyuvm] to [safestrcpy]: everything between the allocation of the
    child [j] and its publication.  [uname] is the source of the child's user
    name, given the parent.  False: out of memory, the slot is given back. *)
Definition fork_body (uname : proc -> list Z) (i j : nat) : M (pst W) bool :=
  p ← pread i;
  pg ← ext (sv_copyuvm (pgdir p) (sz p));
  pupd j (set_pgdir pg);;
  if (pg =? 0)%Z then
    np ← pread j;
    ext (sv_kfree (kstack np));;
    pupd j (set_kstack 0);;
    pupd j (set_state UNUSED);;
    mret false
  else
    pupd j (set_sz (sz p));;
    pupd j (set_parent (Some i));;
    pupd j (set_tf (tf p));;
    pupd j (λ q, set_id (strncpy (id q) (uname p) 16) q);;
    pupd j (λ q, set_tf (set_eax 0 (tf q)) q);;
    for_range 0 NOFILE (dup_fd i j);;
    d ← match cwd p with Some c => c' ← ext (sv_idup c); mret (Some c') | None => panic "null inode" end;
    pupd j (set_cwd d);;
    pupd j (λ q, set_name (safestrcpy (name q) (name p) 16) q);;
    mret true.

Definition fork_with (uname : proc -> list Z) : M (pst W) Z :=
  i ← myproc;
  o ← allocproc;
  match o with
  | None => mret (-1)
  | Some j =>
      ok ← fork_body uname i j;
      if negb ok then mret (-1)
      else
        np ← pread j;
        publish j;;
        mret (pid np)
  end.

Definition fork : M (pst W) Z := fork_with id.
Definition fork2 (username : list Z) : M (pst W) Z := fork_with (λ _, username).

(** ** sched and the scheduler's side of a switch *)

(** [sched()] up to [swtch]; the result is the saved [intena]. *)
Definition sched_out : M (pst W) bool :=
  i ← myproc;
  p ← pread i;
  s ← get;
  if negb (plock s) then panic "sched ptable.lock"
  else if negb (pncli s =? 1)%Z then panic "sched locks"
  else if bool_decide (state p = RUNNING) then panic "sched running"
  else if intr s then panic "sched interruptible"
  else mret (pintena s).

(** [sched()] after [swtch] returned to this process. *)
Definition sched_in (intena : bool) : M (pst W) unit := modify (with_intena intena).

(** The scheduler after [swtch] returned to it: [c->proc = 0]. *)
Definition sched_back : M (pst W) unit := modify (with_cur None).

(** The scheduler runs slot [i]: [c->proc = p; switchuvm(p); p->state = RUNNING]. *)
Definition dispatch (i : nat) : M (pst W) unit :=
  modify (with_cur (Some i));;
  p ← pread i;
  ext (sv_switchuvm (pgdir p));;
  pupd i (set_state RUNNING).

(** ** yield, yield_ *)

Definition yield_enter : M (pst W) bool :=
  acquire_ptable;; i ← myproc; pupd i (set_state RUNNABLE);; sched_out.
Definition yield_exit (intena : bool) : M (pst W) unit := sched_in intena;; release_ptable.

Definition mlfq_top (p : proc) : proc := set_qlvl 0 (set_tq 0 p).

(** Compiled to nothing unless the scheduler is MLFQ. *)
Definition yield__enter : M (pst W) (option bool) :=
  match pol with
  | Mlfq _ =>
      acquire_ptable;; i ← myproc;
      pupd i (set_state RUNNABLE);; pupd i mlfq_top;;
      b ← sched_out; mret (Some b)
  | _ => mret None
  end.

(** ** sleep, wakeup, kill *)

(** The lock handed to [sleep]: null, [ptable.lock], or another held lock. *)
Inductive sleep_lock := LkNull | LkPtable | LkOther.

(** acquire and release of a lock other than ptable.lock: the interrupt nesting. *)
Definition release_other : M (pst W) unit :=
  modify (λ s, mkPst (ptab s) (plock s) (initproc s) (nextpid s) (cur s)
                 ((pncli s - 1 =? 0)%Z && pintena s) (pncli s - 1) (pintena s) (other s)).
Definition acquire_other : M (pst W) unit :=
  modify (λ s, mkPst (ptab s) (plock s) (initproc s) (nextpid s) (cur s) false (pncli s + 1)
                 (if (pncli s =? 0)%Z then intr s else pintena s) (other s)).

Definition sleep_enter (mlfq : bool) (c : chan) (lk : sleep_lock) : M (pst W) bool :=
  o ← gets cur;
  match o with
  | None => panic "sleep"
  | Some i =>
      match lk with LkNull => panic "sleep without lk" | _ => mret tt end;;
      match lk with LkOther => acquire_ptable;; release_other | _ => mret tt end;;
      pupd i (set_chan c);;
      pupd i (set_state SLEEPING);;
      when mlfq (pupd i mlfq_top);;
      sched_out
  end.

Definition sleep_exit (lk : sleep_lock) (intena : bool) : M (pst W) unit :=
  sched_in intena;;
  i ← myproc;
  pupd i (set_chan CNull);;
  match lk with LkOther => release_ptable;; acquire_other | _ => mret tt end.

(** [sleep] and, under MLFQ, [sleep_], which also returns the process to the
    top queue. *)
Definition sleep (c : chan) (lk : sleep_lock) : M (pst W) bool := sleep_enter false c lk.
Definition sleep_ (c : chan) (lk : sleep_lock) : M (pst W) (option bool) :=
  match pol with
  | Mlfq _ => b ← sleep_enter true c lk; mret (Some b)
  | _ => mret None
  end.

Definition wake (c : chan) (p : proc) : proc :=
  if bool_decide (state p = SLEEPING /\ pchan p = c) then set_state RUNNABLE p else p.
Definition wakeup1 (c : chan) : M (pst W) unit := modify (with_ptab (fmap (wake c))).
Definition wakeup (c : chan) : M (pst W) unit :=
  acquire_ptable;; wakeup1 c;; release_ptable.

Definition kill_proc (p : proc) : proc :=
  let p := set_killed 1 p in
  if bool_decide (state p = SLEEPING) then set_state RUNNABLE p else p.
Definition kill (pd : Z) : M (pst W) Z :=
  acquire_ptable;;
  s ← get;
  match find_slot (λ p, pid p =? pd)%Z (ptab s) with
  | Some i => pupd i kill_proc;; release_ptable;; mret 0
  | None => release_ptable;; mret (-1)
  end.

(** ** exit *)

Definition clear_name0 (p : proc) : proc := set_name (<[0%nat := 0]> (name p)) p.

(** What exit does to another slot with the same pid, and wait to a zombie. *)
Definition reset_slot (p : proc) : proc :=
  set_state UNUSED (set_killed 0 (clear_name0 (set_parent None (set_pid 0 (set_kstack 0 p))))).

(** The first loop: the slots that share the pid of [i]. *)
Definition exit_peer (i k : nat) : M (pst W) unit :=
  p ← pread k; c ← pread i;
  if (pid p =? pid c)%Z && negb (k =? i)%nat then
    ext (sv_kfree (kstack p));; pupd k reset_slot
  else mret tt.

Definition exit_peers (i : nat) : M (pst W) unit :=
  acquire_ptable;; for_range 0 NPROC (exit_peer i);; release_ptable.

(** The beginning of exit, up to the end of its first critical section. *)
Definition exit_enter : M (pst W) nat :=
  i ← myproc;
  ip ← gets initproc;
  if bool_decide (ip = Some i) then panic "init exiting" else
  exit_peers i;; mret i.

Definition close_fd (i fd : nat) : M (pst W) unit :=
  p ← pread i;
  match ofile p !! fd with
  | Some (Some f) =>
      ext (sv_fileclose f);; pupd i (λ q, set_ofile (<[fd := None]> (ofile q)) q)
  | _ => mret tt
  end.

(** Close the files and drop the current directory. *)
Definition exit_files (i : nat) : M (pst W) unit :=
  for_range 0 NOFILE (close_fd i);;
  ext sv_begin_op;;
  p ← pread i;
  match cwd p with Some c => ext (sv_iput c) | None => panic "null inode" end;;
  ext sv_end_op;;
  pupd i (set_cwd None).

(** The loop over the children: hand slot [k] to init, waking init for a zombie. *)
Definition reparent (i k : nat) : M (pst W) unit :=
  p ← pread k;
  ip ← gets initproc;
  if bool_decide (parent p = Some i) then
    pupd k (set_parent ip);;
    when (bool_decide (state p = ZOMBIE)) (wakeup1 (from_option CProc CNull ip))
  else mret tt.

(** The last critical section, which ends in the scheduler. *)
Definition exit_final (i : nat) : M (pst W) bool :=
  acquire_ptable;;
  p ← pread i;
  wakeup1 (from_option CProc CNull (parent p));;
  for_range 0 NPROC (reparent i);;
  pupd i (set_state ZOMBIE);;
  sched_out.

Definition exit : M (pst W) bool :=
  i ← exit_enter; exit_files i;; exit_final i.

(** ** wait *)

Definition is_child (i : nat) (p : proc) : bool := bool_decide (parent p = Some i).
Definition is_zombie_child (i : nat) (p : proc) : bool :=
  bool_decide (parent p = Some i) && bool_decide (state p = ZOMBIE).

(** One turn of the [for(;;)], with the lock held.  [None]: no child is a zombie
    and the process goes to sleep on its own slot. *)
Definition wait_turn (i : nat) : M (pst W) (option Z) :=
  s ← get;
  match find_slot (is_zombie_child i) (ptab s) with
  | Some k =>
      p ← pread k;
      ext (sv_kfree (kstack p));;
      ext (sv_freevm (pgdir p));;
      pupd k reset_slot;;
      release_ptable;;
      mret (Some (pid p))
  | None =>
      c ← pread i;
      if negb (existsb (is_child i) (ptab s)) || negb (killed c =? 0)%Z
      then release_ptable;; mret (Some (-1))
      else sleep (CProc i) LkPtable;; mret None
  end.

(** wait up to its first sleep, and from a wakeup to the next. *)
Definition wait : M (pst W) (option Z) := i ← myproc; acquire_ptable;; wait_turn i.
Definition wait_again (intena : bool) : M (pst W) (option Z) :=
  sleep_exit LkPtable intena;; i ← myproc; wait_turn i.

(** ** The MLFQ bookkeeping; compiled to nothing for the other schedulers *)

Definition is_mlfq : bool := match pol with Mlfq _ => true | _ => false end.

Definition priority_boost : M (pst W) unit :=
  when is_mlfq (acquire_ptable;; modify (with_ptab (fmap mlfq_top));; release_ptable).

Definition pid_of (l : list proc) (o : option nat) : Z :=
  match o with Some i => pid (default proc_zero (l !! i)) | None => null_pid end.

Definition setpriority (pd prio : Z) : M (pst W) Z :=
  if is_mlfq then
    acquire_ptable;;
    s ← get;
    i ← myproc;
    match find_slot (λ p, (pid p =? pd)%Z && (pid_of (ptab s) (parent p) =? pid_of (ptab s) (Some i))%Z)
            (ptab s) with
    | Some k => pupd k (set_priority prio);; release_ptable;; mret 0
    | None => release_ptable;; mret (-1)
    end
  else mret 0.

Definition qlvl_down : M (pst W) unit :=
  when is_mlfq
    (acquire_ptable;; i ← myproc;
     pupd i (set_tq 0);; pupd i (λ p, set_qlvl (s32 (qlvl p + 1)) p);; release_ptable).

Definition update_tq : M (pst W) unit :=
  when is_mlfq
    (acquire_ptable;; i ← myproc; pupd i (λ p, set_tq (s32 (tq p + 1)) p);; release_ptable).

Definition getlev : M (pst W) Z :=
  if is_mlfq then i ← myproc; p ← pread i; mret (qlvl p) else mret 0.

(** ** The thread calls, whose bodies are commented out *)
Definition thread_create (thread start_routine arg : Z) : M (pst W) Z := mret 0.
Definition thread_exit (retval : Z) : M (pst W) unit := mret tt.
Definition thread_join (thread retval : Z) : M (pst W) Z := mret 0.
Definition thread_terminate (pd tid : Z) : M (pst W) unit := mret tt.

End ops.
