(* ===== verification/ProcSpec.v ===== *)
(** * The life cycle of processes: an abstract machine and its invariant

    What [proc.c] promises about process slots, without the memory, the files
    and the scheduling data: every slot has a state, a pid, a parent and a wait
    channel, every CPU runs at most one slot, and every process is at a control
    point of the kernel calls that are not one critical section (fork, exit).
    [astep] is the machine; [ainv] is what holds in each of its reachable
    states.  [Proc.v] shows that the code implements the machine. *)

From S2P Require Import Prelude ProcDefs.

Record key := mkKey { kst : procstate; kpid : Z; kpar : option nat; kch : chan }.

Definition key_of (p : proc) : key := mkKey (state p) (pid p) (parent p) (pchan p).

(** Where a process is in fork or exit: [PFork j] owns the fresh slot [j],
    [PBody j] has given it a kernel stack, [PPub j] has filled it in. *)
Inductive kpc := PRun | PFork (j : nat) | PBody (j : nat) | PPub (j : nat) | PExit1 | PExit2.

Definition owns (pc : kpc) : option nat :=
  match pc with PFork j | PBody j | PPub j => Some j | _ => None end.

Record asys := mkA {
  a_tab : list key; a_init : option nat; a_npid : Z;
  a_cpu : nat -> option nat; a_pc : nat -> kpc
}.

Definition alive (st : procstate) : Prop := st = SLEEPING \/ st = RUNNABLE \/ st = RUNNING.

Definition k_state (st : procstate) (k : key) : key := mkKey st (kpid k) (kpar k) (kch k).
Definition k_alloc (n : Z) (k : key) : key := mkKey EMBRYO n (kpar k) (kch k).
Definition k_parent (o : option nat) (k : key) : key := mkKey (kst k) (kpid k) o (kch k).
Definition k_sleep (c : chan) (k : key) : key := mkKey SLEEPING (kpid k) (kpar k) c.
Definition k_unchan (k : key) : key := mkKey (kst k) (kpid k) (kpar k) CNull.
Definition k_reset (k : key) : key := mkKey UNUSED 0 None (kch k).
Definition k_wake (c : chan) (k : key) : key :=
  if bool_decide (kst k = SLEEPING /\ kch k = c) then k_state RUNNABLE k else k.
Definition k_unsleep (k : key) : key :=
  if bool_decide (kst k = SLEEPING) then k_state RUNNABLE k else k.
Definition k_reparent (i : nat) (o : option nat) (k : key) : key :=
  if bool_decide (kpar k = Some i) then k_parent o k else k.

Definition k_zombie_child (i : nat) (k : key) : bool :=
  bool_decide (kpar k = Some i) && bool_decide (kst k = ZOMBIE).

(** exit of slot [i], whose parent is [par], in a table with init [o]: wake the
    parent, give the children to init, wake init if one is a zombie. *)
Definition k_exit (i : nat) (par o : option nat) (l : list key) : list key :=
  let l1 := k_wake (from_option CProc CNull par) <$> l in
  let l2 := k_reparent i o <$> l1 in
  let l3 := if existsb (k_zombie_child i) l1 then k_wake (from_option CProc CNull o) <$> l2 else l2 in
  alter (k_state ZOMBIE) i l3.

Definition upd_tab (f : list key -> list key) (a : asys) : asys :=
  mkA (f (a_tab a)) (a_init a) (a_npid a) (a_cpu a) (a_pc a).
Definition upd_pc (i : nat) (p : kpc) (a : asys) : asys :=
  mkA (a_tab a) (a_init a) (a_npid a) (a_cpu a) (<[i := p]> (a_pc a)).
Definition upd_cpu (c : nat) (o : option nat) (a : asys) : asys :=
  mkA (a_tab a) (a_init a) (a_npid a) (<[c := o]> (a_cpu a)) (a_pc a).
Definition upd_npid (n : Z) (a : asys) : asys :=
  mkA (a_tab a) (a_init a) n (a_cpu a) (a_pc a).

(** Channels a process sleeps on outside wait. *)
Definition plain_chan (c : chan) : Prop := match c with CNull | CProc _ => False | _ => True end.

(** One critical section, or one private section of fork or exit, by CPU [c]. *)
Inductive astep (a : asys) : asys -> Prop :=
| A_skip : astep a a
| A_alloc c i j k : a_cpu a c = Some i -> a_pc a i = PRun ->
    a_tab a !! j = Some k -> kst k = UNUSED -> a_npid a < 2 ^ 31 - 1 ->
    astep a (upd_pc i (PFork j) (upd_npid (a_npid a + 1) (upd_tab (alter (k_alloc (a_npid a)) j) a)))
| A_free c i j : a_cpu a c = Some i -> owns (a_pc a i) = Some j ->
    astep a (upd_pc i PRun (upd_tab (alter (k_state UNUSED) j) a))
| A_stack c i j : a_cpu a c = Some i -> a_pc a i = PFork j -> astep a (upd_pc i (PBody j) a)
| A_adopt c i j : a_cpu a c = Some i -> a_pc a i = PBody j ->
    astep a (upd_pc i (PPub j) (upd_tab (alter (k_parent (Some i)) j) a))
| A_publish c i j : a_cpu a c = Some i -> a_pc a i = PPub j ->
    astep a (upd_pc i PRun (upd_tab (alter (k_state RUNNABLE) j) a))
| A_exit1 c i : a_cpu a c = Some i -> a_pc a i = PRun -> a_init a <> Some i ->
    astep a (upd_pc i PExit1 a)
| A_exit2 c i : a_cpu a c = Some i -> a_pc a i = PExit1 -> astep a (upd_pc i PExit2 a)
| A_exit3 c i k : a_cpu a c = Some i -> a_pc a i = PExit2 -> a_tab a !! i = Some k ->
    astep a (upd_pc i PRun (upd_cpu c None (upd_tab (k_exit i (kpar k) (a_init a)) a)))
| A_reap c i j k : a_cpu a c = Some i -> a_pc a i = PRun -> a_tab a !! j = Some k ->
    k_zombie_child i k = true -> astep a (upd_tab (alter k_reset j) a)
| A_wait c i : a_cpu a c = Some i -> a_pc a i = PRun ->
    existsb (k_zombie_child i) (a_tab a) = false ->
    astep a (upd_cpu c None (upd_tab (alter (k_sleep (CProc i)) i) a))
| A_sleep c i ch : a_cpu a c = Some i -> plain_chan ch ->
    astep a (upd_cpu c None (upd_tab (alter (k_sleep ch) i) a))
| A_unchan c i : a_cpu a c = Some i -> astep a (upd_tab (alter k_unchan i) a)
| A_wakeup ch : astep a (upd_tab (fmap (k_wake ch)) a)
| A_kill j : astep a (upd_tab (alter k_unsleep j) a)
| A_yield c i : a_cpu a c = Some i ->
    astep a (upd_cpu c None (upd_tab (alter (k_state RUNNABLE) i) a))
| A_dispatch c i k : a_cpu a c = None -> a_tab a !! i = Some k -> kst k = RUNNABLE ->
    astep a (upd_cpu c (Some i) (upd_tab (alter (k_state RUNNING) i) a)).

(** ** The invariant *)
Record ainv (a : asys) : Prop := mkInv {
  (** the counter of pids is positive and has not overflowed *)
  inv_npid : 0 < a_npid a < 2 ^ 31;
  (** pids are below the counter, positive in used slots, and never shared *)
  inv_pid i k : a_tab a !! i = Some k -> 0 <= kpid k < a_npid a /\ (kst k <> UNUSED -> 0 < kpid k);
  inv_uniq i j k l : a_tab a !! i = Some k -> a_tab a !! j = Some l ->
    kpid k = kpid l -> kpid k <> 0 -> i = j;
  (** a CPU runs a RUNNING slot, no two CPUs the same one, and nothing else is RUNNING *)
  inv_cpu c i : a_cpu a c = Some i -> exists k, a_tab a !! i = Some k /\ kst k = RUNNING;
  inv_cpu_inj c d i : a_cpu a c = Some i -> a_cpu a d = Some i -> c = d;
  inv_running i k : a_tab a !! i = Some k -> kst k = RUNNING -> exists c, a_cpu a c = Some i;
  (** init is alive and has no parent, nobody is its own parent, every parent is
      alive, every process but init has a parent *)
  inv_init : exists i k, a_init a = Some i /\ a_tab a !! i = Some k /\ alive (kst k) /\ kpar k = None;
  inv_self i k : a_tab a !! i = Some k -> kpar k <> Some i;
  inv_parent i k j : a_tab a !! i = Some k -> kpar k = Some j ->
    exists l, a_tab a !! j = Some l /\ alive (kst l);
  inv_orphan i k : a_tab a !! i = Some k -> kst k <> UNUSED -> kst k <> EMBRYO ->
    a_init a <> Some i -> is_Some (kpar k);
  (** nobody sleeps in wait while a child is a zombie *)
  inv_wait i k j : a_tab a !! i = Some k -> kst k = SLEEPING -> kch k = CProc j ->
    j = i /\ forall n l, a_tab a !! n = Some l -> kpar l = Some i -> kst l <> ZOMBIE;
  (** a slot being forked is EMBRYO and belongs to one live process *)
  inv_owner i j : owns (a_pc a i) = Some j ->
    (exists k, a_tab a !! i = Some k /\ alive (kst k)) /\
    (exists l, a_tab a !! j = Some l /\ kst l = EMBRYO /\
               (a_pc a i = PPub j -> kpar l = Some i));
  inv_owner_inj i i' j : owns (a_pc a i) = Some j -> owns (a_pc a i') = Some j -> i = i';
  (** init does not exit *)
  inv_exit i : a_pc a i = PExit1 \/ a_pc a i = PExit2 -> a_init a <> Some i
}.

(** ** Preservation *)

Lemma lookup_alter_iff {A} (f : A -> A) i j (l : list A) x :
  alter f j l !! i = Some x <->
  exists y, l !! i = Some y /\ x = (if decide (j = i) then f y else y).
Proof.
  rewrite list_lookup_alter. case_decide as E; [subst|naive_solver].
  destruct (l !! i); naive_solver.
Qed.

Lemma lookup_fmap_iff {A B} (f : A -> B) i (l : list A) x :
  (f <$> l) !! i = Some x <-> exists y, l !! i = Some y /\ x = f y.
Proof. rewrite list_lookup_fmap. destruct (l !! i); naive_solver. Qed.

Lemma fn_insert_iff {A} (g : nat -> A) i j x : <[j := x]> g i = if decide (j = i) then x else g i.
Proof. case_decide; subst; [apply fn_lookup_insert|by apply fn_lookup_insert_ne]. Qed.

(** A lookup in an updated table, in terms of the table before. *)
Ltac lk H :=
  let y := fresh "y" in
  apply lookup_alter_iff in H as (y & H & ->); case_decide; subst; cbn in *.

Definition wakes (k k' : key) : Prop :=
  k' = k \/ (kst k = SLEEPING /\ k' = k_state RUNNABLE k).

Lemma alive_fwd (l l' : list key) :
  (forall i k, l !! i = Some k -> exists k', l' !! i = Some k' /\ wakes k k') ->
  forall i k, l !! i = Some k -> alive (kst k) -> exists k', l' !! i = Some k' /\ alive (kst k').
Proof.
  intros Hf i k Hk Ha. destruct (Hf _ _ Hk) as (k' & Hk' & [->|[_ ->]]); [eauto|].
  exists (k_state RUNNABLE k). cbn. unfold alive. auto.
Qed.

Section preservation.
Context (a : asys) (Hi : ainv a).

(** Waking sleepers, any of them, keeps the invariant. *)
Lemma ainv_wakes (l' : list key) :
  (forall i k', l' !! i = Some k' -> exists k, a_tab a !! i = Some k /\ wakes k k') ->
  (forall i k, a_tab a !! i = Some k -> exists k', l' !! i = Some k' /\ wakes k k') ->
  ainv (upd_tab (λ _, l') a).
Proof.
  intros Hb Hf. destruct Hi as [H1 H2 H3 H4 H5 H6 H7 Hself H8 H9 H10 H11 H12 H13].
  constructor; cbn; try done.
  - intros i k' Hk. destruct (Hb _ _ Hk) as (k & Hl & [->|[Hs ->]]);
      destruct (H2 _ _ Hl); cbn; [done|]. split; [done|]. rewrite Hs in *. auto.
  - intros i j k' m' Hk Hm He Hn. destruct (Hb _ _ Hk) as (k & Hl & Hw).
    destruct (Hb _ _ Hm) as (m & Hl' & Hw').
    apply (H3 i j k m); [done|done| |]; destruct Hw as [->|[? ->]], Hw' as [->|[? ->]]; done.
  - intros c i Hc. destruct (H4 _ _ Hc) as (k & Hk & Hr).
    destruct (Hf _ _ Hk) as (k' & ? & [->|[? ->]]); [eauto|congruence].
  - intros i k' Hk Hr. destruct (Hb _ _ Hk) as (k & Hl & [->|[Hs ->]]); [eauto|done].
  - destruct H7 as (i & k & ? & Hk & ? & ?). exists i.
    destruct (Hf _ _ Hk) as (k' & ? & [->|[? ->]]); [eauto|].
    exists (k_state RUNNABLE k). unfold alive. split_and!; cbn; auto.
  - intros i k' Hk. destruct (Hb _ _ Hk) as (k & Hl & [->|[_ ->]]); exact (Hself _ _ Hl).
  - intros i k' j Hk Hp. destruct (Hb _ _ Hk) as (k & Hl & Hw).
    destruct (H8 i k j) as (m & Hm & ?); [done|by destruct Hw as [->|[? ->]]|].
    destruct (alive_fwd _ _ Hf _ _ Hm) as (? & ? & ?); eauto.
  - intros i k' Hk. destruct (Hb _ _ Hk) as (k & Hl & [->|[Hs ->]]); [eauto|].
    intros _ _ Hni. apply (H9 _ _ Hl); congruence.
  - intros i k' j Hk Hs Hc. destruct (Hb _ _ Hk) as (k & Hl & [->|[_ ->]]); [|done].
    destruct (H10 i k j) as [-> Hz]; [done..|]. split; [done|].
    intros n m' Hm Hp. destruct (Hb _ _ Hm) as (m & Hl' & [->|[? ->]]); [eauto|done].
  - intros i j Ho. destruct (H11 _ _ Ho) as [(k & Hk & ?) (m & Hm & He & ?)].
    split; [destruct (alive_fwd _ _ Hf _ _ Hk) as (? & ? & ?); eauto|].
    destruct (Hf _ _ Hm) as (m' & ? & [->|[? ->]]); [eauto|congruence].
Qed.

Lemma alive_not st : alive st -> st <> UNUSED /\ st <> EMBRYO /\ st <> ZOMBIE.
Proof. unfold alive. intuition congruence. Qed.

(** A live slot that stays alive across the change. *)
Lemma alive_alter (f : key -> key) i j k :
  a_tab a !! j = Some k -> alive (kst k) -> (j = i -> alive (kst (f k))) ->
  exists k', alter f i (a_tab a) !! j = Some k' /\ alive (kst k').
Proof.
  intros Hk Ha Hf. destruct (decide (j = i)) as [->|Hn].
  - exists (f k). rewrite lookup_alter_iff. case_decide; naive_solver.
  - exists k. rewrite lookup_alter_iff. case_decide; naive_solver.
Qed.

(** A live slot changes to another live state, with the CPUs to match: yield,
    sleep, wait's sleep, dispatch. *)
Lemma ainv_switch i k st ch cpu' :
  a_tab a !! i = Some k -> alive (kst k) -> alive st ->
  (forall j, st = SLEEPING -> ch = CProc j ->
     j = i /\ forall n l, a_tab a !! n = Some l -> kpar l = Some i -> kst l <> ZOMBIE) ->
  (forall c j, cpu' c = Some j -> (j = i /\ st = RUNNING) \/ (j <> i /\ a_cpu a c = Some j)) ->
  (forall c j, j <> i -> a_cpu a c = Some j -> cpu' c = Some j) ->
  (st = RUNNING -> exists c, cpu' c = Some i) ->
  (forall c d, cpu' c = Some i -> cpu' d = Some i -> c = d) ->
  ainv (mkA (alter (λ k, mkKey st (kpid k) (kpar k) ch) i (a_tab a)) (a_init a) (a_npid a) cpu' (a_pc a)).
Proof.
  set (g := λ k, mkKey st (kpid k) (kpar k) ch).
  intros Hk Ha Hst Hw Hc1 Hc2 Hr Hinj. destruct Hi as [H1 H2 H3 H4 H5 H6 H7 Hself H8 H9 H10 H11 H12 H13].
  pose proof (alive_not _ Ha) as (Hu & He & Hz). pose proof (alive_not _ Hst) as (Hu' & He' & Hz').
  constructor; cbn; try done.
  - intros j l Hl. lk Hl; [|eauto]. destruct (H2 _ _ Hl) as [? Hp].
    split; [done|]. intros _. apply Hp. congruence.
  - intros j n l m Hl Hm. lk Hl; lk Hm; eauto.
  - intros c j Hc. destruct (Hc1 _ _ Hc) as [[-> ->]|[Hn Hc']].
    + eexists. rewrite lookup_alter_iff. split; [eexists; split; [exact Hk|done]|]. by case_decide.
    + destruct (H4 _ _ Hc') as (l & Hl & ?). exists l. rewrite lookup_alter_iff.
      split; [|done]. exists l. case_decide; naive_solver.
  - intros c d j Hc Hd. destruct (Hc1 _ _ Hc) as [[-> ->]|[? ?]], (Hc1 _ _ Hd) as [[? ?]|[? ?]];
      naive_solver.
  - intros j l Hl Hs. lk Hl; [eauto|]. destruct (H6 _ _ Hl Hs) as [c ?]. exists c. auto.
  - destruct H7 as (j & l & ? & Hl & ? & ?). exists j. setoid_rewrite lookup_alter_iff.
    eexists. split; [done|]. split; [eauto|]. by case_decide.
  - intros j l Hl. lk Hl; exact (Hself _ _ Hl).
  - intros j l n Hl Hp. assert (exists l0, a_tab a !! j = Some l0 /\ kpar l0 = Some n) as (l0 & Hl0 & Hp0).
    { lk Hl; eauto. }
    destruct (H8 _ _ _ Hl0 Hp0) as (m & Hm & ?). destruct (alive_alter g i n m) as (? & ? & ?); eauto.
  - intros j l Hl ? ? ?. lk Hl; [|eauto]. apply (H9 _ _ Hl); congruence.
  - assert (forall n, (forall m q, a_tab a !! m = Some q -> kpar q = Some n -> kst q <> ZOMBIE) ->
            forall m q, alter g i (a_tab a) !! m = Some q -> kpar q = Some n -> kst q <> ZOMBIE) as Hnz.
    { intros n Hn m q Hq Hp. lk Hq; eauto. }
    intros j l n Hl Hs Hc. lk Hl.
    + destruct (Hw n) as [-> ?]; eauto.
    + destruct (H10 _ _ _ Hl Hs Hc) as [-> ?]; eauto.
  - intros j n Ho. destruct (H11 _ _ Ho) as [(l & Hl & ?) (m & Hm & Hme & ?)]. split.
    + destruct (alive_alter g i j l) as (? & ? & ?); eauto.
    + exists m. rewrite lookup_alter_iff. split; [|done]. exists m. case_decide; naive_solver.
Qed.

Definition alive_at (i : nat) : Prop := exists k, a_tab a !! i = Some k /\ alive (kst k).

(** A slot that no CPU can run changes to another such state: allocation,
    release and publication of a child, reaping.  [pc'] says who owns what
    afterwards. *)
Lemma ainv_slot j k f npid' pc' :
  a_tab a !! j = Some k -> ~ alive (kst k) ->
  kst (f k) = UNUSED \/ kst (f k) = EMBRYO \/ kst (f k) = RUNNABLE ->
  a_npid a <= npid' < 2 ^ 31 ->
  0 <= kpid (f k) < npid' -> (kst (f k) <> UNUSED -> 0 < kpid (f k)) ->
  kpid (f k) = 0 \/ kpid (f k) = kpid k \/ a_npid a <= kpid (f k) ->
  (forall i, kpar (f k) = Some i -> kpar k = Some i \/ alive_at i) ->
  (kst (f k) = RUNNABLE -> is_Some (kpar (f k))) ->
  (forall i n, owns (pc' i) = Some n ->
     (n <> j /\ owns (a_pc a i) = Some n /\ (pc' i = PPub n -> a_pc a i = PPub n)) \/
     (n = j /\ kst (f k) = EMBRYO /\ alive_at i /\ (pc' i = PPub j -> kpar (f k) = Some i))) ->
  (forall i i', owns (pc' i) = Some j -> owns (pc' i') = Some j -> i = i') ->
  (forall i, pc' i = PExit1 \/ pc' i = PExit2 -> a_init a <> Some i) ->
  ainv (mkA (alter f j (a_tab a)) (a_init a) npid' (a_cpu a) pc').
Proof.
  intros Hk Hna Hst Hn Hp Hp0 Hpf Hpar Hrun Hown Hinj Hex.
  destruct Hi as [H1 H2 H3 H4 H5 H6 H7 Hself H8 H9 H10 H11 H12 H13].
  assert (forall n l, a_tab a !! n = Some l -> alive (kst l) ->
          alter f j (a_tab a) !! n = Some l) as Hkeep.
  { intros n l Hl Ha. apply lookup_alter_iff. exists l. split; [done|].
    case_decide; subst; [congruence|done]. }
  assert (forall l, a_tab a !! j = Some l -> l = k) as Hjk by (intros; congruence).
  assert (kst (f k) <> RUNNING /\ kst (f k) <> SLEEPING /\ kst (f k) <> ZOMBIE) as (Hr & Hs & Hz)
    by (destruct Hst as [->|[->| ->]]; done).
  constructor; cbn; try done.
  - lia.
  - intros n l Hl. lk Hl; [by rewrite (Hjk _ Hl)|]. destruct (H2 _ _ Hl). split; [lia|auto].
  - intros n m l q Hl Hq. lk Hl; lk Hq; [done| | |eauto].
    + rewrite (Hjk _ Hl). intros. destruct (H2 _ _ Hq). destruct Hpf as [?|[?|?]]; [lia| |lia].
      eapply H3; [exact Hk|exact Hq|congruence..].
    + rewrite (Hjk _ Hq). intros. destruct (H2 _ _ Hl). destruct Hpf as [?|[?|?]]; [lia| |lia].
      eapply H3; [exact Hl|exact Hk|congruence..].
  - intros c i Hc. destruct (H4 _ _ Hc) as (l & Hl & E). exists l. split; [|done].
    apply Hkeep; [done|]. rewrite E. unfold alive. auto.
  - intros n l Hl E. lk Hl; [|eauto]. by rewrite (Hjk _ Hl) in E.
  - destruct H7 as (i & l & ? & Hl & ? & ?). eauto 8.
  - intros n l Hl. lk Hl; [|exact (Hself _ _ Hl)]. rewrite (Hjk _ Hl).
    intros E. destruct (Hpar _ E) as [E'|(q & Hq & ?)]; [exact (Hself _ _ Hk E')|].
    by rewrite (Hjk _ Hq) in *.
  - intros n l m Hl Hm. assert (alive_at m) as (q & Hq & ?).
    { lk Hl; [|exact (H8 _ _ _ Hl Hm)]. rewrite (Hjk _ Hl) in Hm.
      destruct (Hpar _ Hm) as [Hm'|Hm']; [exact (H8 _ _ _ Hk Hm')|exact Hm']. }
    eauto.
  - intros n l Hl Hu He ?. lk Hl; [|eauto]. rewrite (Hjk _ Hl) in Hu, He |- *.
    destruct Hst as [?|[?|?]]; [congruence..|auto].
  - intros n l m Hl E Hc. lk Hl; [by rewrite (Hjk _ Hl) in E|].
    destruct (H10 _ _ _ Hl E Hc) as [-> Hnz]. split; [done|].
    intros i q Hq Hq'. lk Hq; [by rewrite (Hjk _ Hq)|eauto].
  - intros i n Ho. destruct (Hown _ _ Ho) as [(Hnj & Ho' & Hpub)|(-> & He & (q & Hq & ?) & Hpub)].
    + destruct (H11 _ _ Ho') as [(l & Hl & ?) (m & Hm & ? & ?)]. split; [eauto|].
      exists m. rewrite lookup_alter_iff. split; [|auto]. exists m. by case_decide.
    + split; [eauto|]. exists (f k). rewrite lookup_alter_iff. split; [|auto].
      exists k. by case_decide.
  - intros i i' n Ho Ho'. destruct (Hown _ _ Ho) as [(? & ? & _)|(-> & _)]; [|eauto].
    destruct (Hown _ _ Ho') as [(? & ? & _)|(-> & _)]; [eauto|done].
Qed.

(** Moving a control point between points that own nothing. *)
Lemma ainv_pc pc' :
  (forall i n, owns (pc' i) = Some n -> owns (a_pc a i) = Some n /\ (pc' i = PPub n -> a_pc a i = PPub n)) ->
  (forall i, pc' i = PExit1 \/ pc' i = PExit2 -> a_init a <> Some i) ->
  ainv (mkA (a_tab a) (a_init a) (a_npid a) (a_cpu a) pc').
Proof.
  intros Ho Hex. destruct Hi as [H1 H2 H3 H4 H5 H6 H7 Hself H8 H9 H10 H11 H12 H13].
  constructor; cbn; try done.
  - intros i j Hj. destruct (Ho _ _ Hj) as [Hj' Hp]. destruct (H11 _ _ Hj') as [? (l & ? & ? & ?)].
    split; [done|]. exists l. auto.
  - intros i i' j Hj Hj'. eapply H12; by apply Ho.
Qed.
End preservation.

(** ** exit *)
Section exit.
Context (a : asys) (Hi : ainv a).
Context (c i : nat) (k : key).
Context (Hc : a_cpu a c = Some i) (Hpc : a_pc a i = PExit2) (Hk : a_tab a !! i = Some k).

Definition dead_tab (l : list key) : list key :=
  alter (k_state ZOMBIE) i (k_reparent i (a_init a) <$> l).

Lemma dead_tab_iff l n q :
  dead_tab l !! n = Some q <->
  exists p, l !! n = Some p /\
    q = mkKey (if decide (i = n) then ZOMBIE else kst p) (kpid p)
          (if decide (kpar p = Some i) then a_init a else kpar p) (kch p).
Proof.
  unfold dead_tab, k_reparent, k_parent, k_state. rewrite lookup_alter_iff. split.
  - intros (y & Hy & ->). apply lookup_fmap_iff in Hy as (p & Hp & ->). exists p. split; [done|].
    destruct (decide (i = n)), (decide (kpar p = Some i));
      rewrite ?bool_decide_true, ?bool_decide_false by done; by destruct p.
  - intros (p & Hp & ->). eexists. split; [apply lookup_fmap_iff; eauto|].
    destruct (decide (i = n)), (decide (kpar p = Some i));
      rewrite ?bool_decide_true, ?bool_decide_false by done; by destruct p.
Qed.

Lemma init_not_exiting : a_init a <> Some i.
Proof. apply (inv_exit _ Hi). auto. Qed.

Lemma dead_tab_alive n p :
  a_tab a !! n = Some p -> alive (kst p) -> n <> i ->
  exists q, dead_tab (a_tab a) !! n = Some q /\ alive (kst q).
Proof.
  intros Hp Ha Hn. eexists. split; [apply dead_tab_iff; eauto|]. cbn. by rewrite decide_False by done.
Qed.

(** After an exit the new parent of a slot is alive and is not the dead one. *)
Lemma dead_tab_parent n p j :
  a_tab a !! n = Some p -> (if decide (kpar p = Some i) then a_init a else kpar p) = Some j ->
  alive_at a j /\ j <> i.
Proof.
  intros Hp. case_decide as E; intros Hj.
  - destruct (inv_init _ Hi) as (j' & q & Hj' & Hq & ? & _). rewrite Hj' in Hj. simplify_eq.
    split; [by exists q|]. intros ->. by apply init_not_exiting.
  - split; [by eapply (inv_parent _ Hi)|]. intros ->. done.
Qed.

Lemma ainv_dead :
  (forall p q, kpar k = Some p -> a_tab a !! p = Some q -> kst q = SLEEPING -> kch q <> CProc p) ->
  (forall n l o q, a_tab a !! n = Some l -> k_zombie_child i l = true ->
     a_init a = Some o -> a_tab a !! o = Some q -> kst q = SLEEPING -> kch q <> CProc o) ->
  ainv (upd_pc i PRun (upd_cpu c None (upd_tab dead_tab a))).
Proof.
  intros F1 F2. pose proof (inv_init _ Hi) as (o & q0 & Ho & Hq0 & Hqa & Hqp).
  assert (o <> i) as Hoi by (intros ->; by apply init_not_exiting).
  assert (kst k = RUNNING) as Hkr.
  { destruct (inv_cpu _ Hi _ _ Hc) as (k' & ? & ?). congruence. }
  constructor; cbn.
  - apply (inv_npid _ Hi).
  - intros n l (p & Hp & ->)%dead_tab_iff. cbn. destruct (inv_pid _ Hi _ _ Hp) as [? Hpos].
    split; [done|]. case_decide; [|done]. subst. intros _. apply Hpos. congruence.
  - intros n m l q (p & Hp & ->)%dead_tab_iff (p' & Hp' & ->)%dead_tab_iff. cbn.
    by apply (inv_uniq _ Hi).
  - intros d n. rewrite fn_insert_iff. case_decide as Hd; [done|]. intros Hn.
    assert (n <> i) by (intros ->; apply Hd; by eapply (inv_cpu_inj _ Hi)).
    destruct (inv_cpu _ Hi _ _ Hn) as (l & Hl & Hr). eexists. split; [apply dead_tab_iff; eauto|].
    cbn. by rewrite decide_False by done.
  - intros d d' n. rewrite !fn_insert_iff. repeat case_decide; try done. by apply (inv_cpu_inj _ Hi).
  - intros n l (p & Hp & ->)%dead_tab_iff. cbn. case_decide as En; [done|]. intros Hr.
    destruct (inv_running _ Hi _ _ Hp Hr) as [d Hd]. exists d. rewrite fn_insert_iff.
    case_decide as E; [|done]. subst d. congruence.
  - exists o. eexists. split; [done|]. split; [apply dead_tab_iff; eauto|]. cbn.
    rewrite decide_False by done. split; [done|]. by rewrite Hqp.
  - intros n l (p & Hp & ->)%dead_tab_iff. cbn. case_decide as E; [|by apply (inv_self _ Hi)].
    rewrite Ho. intros [= ->]. congruence.
  - intros n l j (p & Hp & ->)%dead_tab_iff Hj. cbn in Hj.
    destruct (dead_tab_parent _ _ _ Hp Hj) as [(q & Hq & ?) ?]. by eapply dead_tab_alive.
  - intros n l (p & Hp & ->)%dead_tab_iff. cbn. intros Hu He Hni.
    destruct (decide (kpar p = Some i)); [rewrite Ho; by eexists|].
    apply (inv_orphan _ Hi _ _ Hp); [..|done];
      (destruct (decide (i = n)) as [<-|]; [congruence|done]).
  - intros n l j (p & Hp & ->)%dead_tab_iff. cbn. case_decide as En; [done|]. intros Hs Hch.
    destruct (inv_wait _ Hi _ _ _ Hp Hs Hch) as [-> Hz]. split; [done|].
    intros m r (p' & Hp' & ->)%dead_tab_iff. cbn. intros Hpar.
    destruct (decide (i = m)) as [<-|Em].
    + assert (p' = k) as -> by congruence.
      rewrite decide_False in Hpar by (by apply (inv_self _ Hi)).
      by destruct (F1 _ _ Hpar Hp Hs).
    + destruct (decide (kpar p' = Some i)) as [E|E]; [|by apply (Hz _ _ Hp')]. intros Hzm.
      apply (F2 m p' n p Hp'); [|done..].
      unfold k_zombie_child. by rewrite !bool_decide_true.
  - intros n j. rewrite fn_insert_iff. case_decide as En; [done|]. intros Hn.
    destruct (inv_owner _ Hi _ _ Hn) as [(l & Hl & ?) (m & Hm & He & Hpub)].
    split; [by eapply dead_tab_alive|]. eexists. split; [apply dead_tab_iff; eauto|]. cbn.
    rewrite decide_False by (intros ->; congruence). split; [done|]. intros Hp.
    rewrite Hpub by done. by rewrite decide_False by congruence.
  - intros n n' j. rewrite !fn_insert_iff. repeat case_decide; try done. by apply (inv_owner_inj _ Hi).
  - intros n. rewrite fn_insert_iff. case_decide; [by intros [|]|]. by apply (inv_exit _ Hi).
Qed.
End exit.

Lemma wakes_k_wake ch k : wakes k (k_wake ch k).
Proof. unfold wakes, k_wake. case_bool_decide; naive_solver. Qed.

Lemma wakes_k_unsleep k : wakes k (k_unsleep k).
Proof. unfold wakes, k_unsleep. case_bool_decide; naive_solver. Qed.

Lemma k_wake_reparent ch i o k : k_wake ch (k_reparent i o k) = k_reparent i o (k_wake ch k).
Proof. unfold k_wake, k_reparent, k_parent, k_state. repeat (case_bool_decide; cbn in *); naive_solver. Qed.

Lemma k_wake_not_sleeping ch k : kst (k_wake ch k) = SLEEPING -> kch (k_wake ch k) <> ch.
Proof. unfold k_wake. case_bool_decide; cbn; naive_solver. Qed.

Lemma k_wake_fields ch k :
  kpar (k_wake ch k) = kpar k /\ kch (k_wake ch k) = kch k /\
  (kst (k_wake ch k) = ZOMBIE <-> kst k = ZOMBIE) /\ (kst (k_wake ch k) = SLEEPING -> kst k = SLEEPING).
Proof. unfold k_wake. case_bool_decide; cbn; intuition congruence. Qed.

Lemma ainv_fmap a f :
  ainv a -> (forall k, wakes k (f k)) -> ainv (upd_tab (fmap f) a).
Proof.
  intros Hi Hf. apply (ainv_wakes a Hi (f <$> a_tab a)).
  - intros i k' Hk. apply lookup_fmap_iff in Hk as (k & ? & ->). eauto.
  - intros i k Hk. exists (f k). split; [|done]. apply lookup_fmap_iff. eauto.
Qed.

Lemma ainv_wake_one a f j :
  ainv a -> (forall k, wakes k (f k)) -> ainv (upd_tab (alter f j) a).
Proof.
  intros Hi Hf. apply (ainv_wakes a Hi (alter f j (a_tab a))).
  - intros i k' Hk. apply lookup_alter_iff in Hk as (k & ? & ->). exists k. split; [done|].
    case_decide; [done|by left].
  - intros i k Hk. eexists. split; [apply lookup_alter_iff; eauto|]. case_decide; [done|by left].
Qed.

(** The table of a dying process, with its wake-ups done first. *)
Lemma k_exit_dead a i par :
  exists b : bool,
    k_exit i par (a_init a) (a_tab a) =
      dead_tab a i ((λ k, if b then k_wake (from_option CProc CNull (a_init a)) k else k) <$>
                    (k_wake (from_option CProc CNull par) <$> a_tab a)) /\
    b = existsb (k_zombie_child i) (k_wake (from_option CProc CNull par) <$> a_tab a).
Proof.
  eexists. split; [|reflexivity]. unfold k_exit, dead_tab. f_equal.
  destruct (existsb _ _); [|by rewrite list_fmap_id].
  rewrite <-!list_fmap_compose. apply list_fmap_ext. intros n k _. cbn. apply k_wake_reparent.
Qed.

Lemma ainv_exit a c i k :
  ainv a -> a_cpu a c = Some i -> a_pc a i = PExit2 -> a_tab a !! i = Some k ->
  ainv (upd_pc i PRun (upd_cpu c None (upd_tab (k_exit i (kpar k) (a_init a)) a))).
Proof.
  intros Hi Hc Hpc Hk.
  destruct (k_exit_dead a i (kpar k)) as (b & He & Hb).
  set (ch1 := from_option CProc CNull (kpar k)) in *.
  set (a1 := upd_tab (fmap (k_wake ch1)) a).
  assert (ainv a1) as Hi1 by (apply ainv_fmap; [done|apply wakes_k_wake]).
  set (f := λ k, if b then k_wake (from_option CProc CNull (a_init a)) k else k) in *.
  assert (forall k, wakes k (f k)) as Hf by (intros; unfold f; destruct b; [apply wakes_k_wake|by left]).
  set (a2 := upd_tab (fmap f) a1). assert (ainv a2) as Hi2 by by apply ainv_fmap.
  assert (forall n q, a_tab a2 !! n = Some q -> exists p, a_tab a !! n = Some p /\ q = f (k_wake ch1 p)) as Hl.
  { intros n q Hq. apply lookup_fmap_iff in Hq as (y & Hy & ->).
    apply lookup_fmap_iff in Hy as (p & ? & ->). eauto. }
  assert (a_tab a2 !! i = Some (f (k_wake ch1 k))) as Hk2.
  { cbn. rewrite !list_lookup_fmap, Hk. done. }
  assert (forall k, kpar (f k) = kpar k /\ kch (f k) = kch k /\
    (kst (f k) = ZOMBIE <-> kst k = ZOMBIE) /\ (kst (f k) = SLEEPING -> kst k = SLEEPING)) as Hff.
  { intros q. unfold f. destruct b; [apply k_wake_fields|done]. }
  cut (ainv (upd_pc i PRun (upd_cpu c None (upd_tab (dead_tab a2 i) a2)))).
  { unfold upd_tab, upd_cpu, upd_pc. cbn. by rewrite He. }
  eapply (ainv_dead a2 Hi2 c i _ Hc Hpc Hk2).
  - intros p q Hp Hq. destruct (Hl _ _ Hq) as (p0 & _ & ->). destruct (Hff (k_wake ch1 p0)) as (_ & -> & _ & Hs).
    intros Hsl%Hs. apply k_wake_not_sleeping in Hsl.
    destruct (Hff (k_wake ch1 k)) as (Hp' & _). rewrite Hp' in Hp.
    destruct (k_wake_fields ch1 k) as (Hp'' & _). rewrite Hp'' in Hp.
    assert (ch1 = CProc p) by (unfold ch1; by rewrite Hp). congruence.
  - intros n l o q Hn Hz Ho Hq. destruct (Hl _ _ Hq) as (p0 & _ & ->).
    destruct (Hl _ _ Hn) as (n0 & Hn0 & ->).
    assert (b = true) as Hbt.
    { rewrite Hb. apply existsb_exists. exists (k_wake ch1 n0). split.
      - apply list_elem_of_In, list_elem_of_fmap. exists n0. split; [done|]. by eapply list_elem_of_lookup_2.
      - unfold k_zombie_child in *. destruct (Hff (k_wake ch1 n0)) as (E & _ & Ez & _).
        rewrite E in Hz. apply andb_true_iff in Hz as [Hz1 Hz2]. apply andb_true_iff. split; [done|].
        rewrite bool_decide_eq_true in *. by apply Ez. }
    unfold f. rewrite Hbt. cbn in Ho. rewrite Ho. apply k_wake_not_sleeping.
Qed.

(** ** The steps of fork and wait *)
Section steps.
Context (a : asys) (Hi : ainv a).

Lemma cpu_alive c i : a_cpu a c = Some i -> alive_at a i.
Proof.
  intros Hc. destruct (inv_cpu _ Hi _ _ Hc) as (k & Hk & Hr). exists k. rewrite Hr.
  unfold alive. auto.
Qed.

Lemma not_alive_dead st : st = UNUSED \/ st = EMBRYO \/ st = ZOMBIE -> ~ alive st.
Proof. unfold alive. intuition congruence. Qed.

(** What an owned slot looks like, and that nobody else owns it. *)
Lemma owned i j : owns (a_pc a i) = Some j ->
  exists k, a_tab a !! j = Some k /\ kst k = EMBRYO /\ 0 < kpid k /\
    (a_pc a i = PPub j -> kpar k = Some i) /\
    (forall n, n <> i -> owns (a_pc a n) <> Some j).
Proof.
  intros Ho. destruct (inv_owner _ Hi _ _ Ho) as [_ (k & Hk & He & Hp)]. exists k.
  split_and!; [done..| |done|].
  - destruct (inv_pid _ Hi _ _ Hk) as [_ Hpos]. apply Hpos. congruence.
  - intros n Hn Ho'. apply Hn. by eapply (inv_owner_inj _ Hi).
Qed.

(** The control points after [i] moved to a point that owns nothing. *)
Lemma pc_released i j : owns (a_pc a i) = Some j ->
  forall n m, owns (<[i := PRun]> (a_pc a) n) = Some m ->
  m <> j /\ owns (a_pc a n) = Some m /\ (<[i := PRun]> (a_pc a) n = PPub m -> a_pc a n = PPub m).
Proof.
  intros Ho n m. rewrite fn_insert_iff. case_decide as E; [done|]. intros Hm. split; [|done].
  intros ->. apply E. by eapply (inv_owner_inj _ Hi).
Qed.

Lemma pc_exit i pc : owns pc <> None \/ pc = PRun ->
  forall n, <[i := pc]> (a_pc a) n = PExit1 \/ <[i := pc]> (a_pc a) n = PExit2 -> a_init a <> Some n.
Proof.
  intros Hpc n. rewrite fn_insert_iff. case_decide as E; [|apply (inv_exit _ Hi)].
  intros [->| ->]; destruct Hpc; done.
Qed.

Lemma ainv_alloc c i j k :
  a_cpu a c = Some i -> a_pc a i = PRun -> a_tab a !! j = Some k -> kst k = UNUSED ->
  a_npid a < 2 ^ 31 - 1 ->
  ainv (upd_pc i (PFork j) (upd_npid (a_npid a + 1) (upd_tab (alter (k_alloc (a_npid a)) j) a))).
Proof.
  intros Hc Hpc Hk Hu Hn. pose proof (inv_npid _ Hi). 
  assert (forall n, owns (a_pc a n) <> Some j) as Hno.
  { intros n Ho. destruct (owned _ _ Ho) as (l & Hl & He & _). congruence. }
  apply (ainv_slot a Hi j k); cbn; auto; try lia; try done.
  - rewrite Hu. apply not_alive_dead. auto.
  - intros n m. rewrite fn_insert_iff. case_decide as E.
    + cbn. intros [= <-]. right. subst n. split_and!; [done..|by eapply cpu_alive|done].
    + intros Ho. left. split; [|done]. intros ->. by apply (Hno n).
  - intros n n'. rewrite !fn_insert_iff. repeat case_decide; try congruence; intros Ho Ho';
      by (destruct (Hno n) || destruct (Hno n')).
  - apply pc_exit. by left.
Qed.

Lemma ainv_free i j :
  owns (a_pc a i) = Some j -> ainv (upd_pc i PRun (upd_tab (alter (k_state UNUSED) j) a)).
Proof.
  intros Ho. destruct (owned _ _ Ho) as (k & Hk & He & Hpos & _). pose proof (inv_npid _ Hi).
  destruct (inv_pid _ Hi _ _ Hk).
  apply (ainv_slot a Hi j k); cbn; auto; try lia; try done.
  - rewrite He. apply not_alive_dead. auto.
  - intros n m Hm. left. by eapply pc_released.
  - intros n n' Hn. by destruct (pc_released _ _ Ho _ _ Hn).
  - apply pc_exit. by right.
Qed.

Lemma ainv_adopt c i j :
  a_cpu a c = Some i -> a_pc a i = PBody j ->
  ainv (upd_pc i (PPub j) (upd_tab (alter (k_parent (Some i)) j) a)).
Proof.
  intros Hc Hpc. assert (owns (a_pc a i) = Some j) as Ho by by rewrite Hpc.
  destruct (owned _ _ Ho) as (k & Hk & He & Hpos & _ & Hno). pose proof (inv_npid _ Hi).
  destruct (inv_pid _ Hi _ _ Hk).
  apply (ainv_slot a Hi j k); cbn; auto; try lia; try done.
  - rewrite He. apply not_alive_dead. auto.
  - intros n [= <-]. right. by eapply cpu_alive.
  - intros n m. rewrite fn_insert_iff. case_decide as E.
    + cbn. intros [= <-]. right. subst n. split_and!; [done..|by eapply cpu_alive|done].
    + intros Hm. left. split; [|done]. intros ->. by apply (Hno n).
  - intros n n'. rewrite !fn_insert_iff. repeat case_decide; try congruence; intros Hn Hn'; exfalso;
      first [eapply (Hno n); [congruence|exact Hn] | eapply (Hno n'); [congruence|exact Hn']].
  - apply pc_exit. by left.
Qed.

Lemma ainv_publish i j :
  a_pc a i = PPub j -> ainv (upd_pc i PRun (upd_tab (alter (k_state RUNNABLE) j) a)).
Proof.
  intros Hpc. assert (owns (a_pc a i) = Some j) as Ho by by rewrite Hpc.
  destruct (owned _ _ Ho) as (k & Hk & He & Hpos & Hpar & _). pose proof (inv_npid _ Hi).
  destruct (inv_pid _ Hi _ _ Hk).
  apply (ainv_slot a Hi j k); cbn; auto; try lia; try done.
  - rewrite He. apply not_alive_dead. auto.
  - intros _. rewrite Hpar by done. by eexists.
  - intros n m Hm. left. by eapply pc_released.
  - intros n n' Hn. by destruct (pc_released _ _ Ho _ _ Hn).
  - apply pc_exit. by right.
Qed.

Lemma ainv_reap i j k :
  a_tab a !! j = Some k -> k_zombie_child i k = true -> ainv (upd_tab (alter k_reset j) a).
Proof.
  intros Hk Hz. apply andb_true_iff in Hz as [_ Hz%bool_decide_eq_true]. pose proof (inv_npid _ Hi).
  assert (forall n, owns (a_pc a n) <> Some j) as Hno.
  { intros n Ho. destruct (owned _ _ Ho) as (l & Hl & He & _). congruence. }
  apply (ainv_slot a Hi j k); cbn; auto; try lia; try done.
  - rewrite Hz. apply not_alive_dead. auto.
  - intros n m Hm. left. split; [|done]. intros ->. by apply (Hno n).
  - intros n n' Hn. by destruct (Hno n).
  - apply (inv_exit _ Hi).
Qed.

Lemma alter_as (f : key -> key) i k st ch : a_tab a !! i = Some k ->
  f k = mkKey st (kpid k) (kpar k) ch ->
  alter f i (a_tab a) = alter (λ k, mkKey st (kpid k) (kpar k) ch) i (a_tab a).
Proof. intros Hk Hf. apply list_alter_ext; [|done]. intros x Hx. by simplify_eq. Qed.

(** The process of CPU [c] leaves it: yield, sleep, wait. *)
Lemma ainv_leave c i k f st ch :
  a_cpu a c = Some i -> a_tab a !! i = Some k -> f k = mkKey st (kpid k) (kpar k) ch ->
  st = SLEEPING \/ st = RUNNABLE ->
  (forall j, st = SLEEPING -> ch = CProc j ->
     j = i /\ forall n l, a_tab a !! n = Some l -> kpar l = Some i -> kst l <> ZOMBIE) ->
  ainv (upd_cpu c None (upd_tab (alter f i) a)).
Proof.
  intros Hc Hk Hf Hst Hw. unfold upd_cpu, upd_tab; cbn. rewrite (alter_as _ _ _ _ _ Hk Hf).
  destruct (cpu_alive _ _ Hc) as (k' & Hk' & Ha). assert (k' = k) as -> by congruence.
  apply (ainv_switch a Hi i k); try done.
  - unfold alive. destruct Hst as [-> | ->]; auto.
  - intros d n. rewrite fn_insert_iff. case_decide as E; [done|]. intros Hd. right. split; [|done].
    intros ->. apply E. by eapply (inv_cpu_inj _ Hi).
  - intros d n Hn Hd. rewrite fn_insert_iff. case_decide as E; [congruence|done].
  - intros ->. destruct Hst; done.
  - intros d d'. rewrite !fn_insert_iff. repeat case_decide; try done. by apply (inv_cpu_inj _ Hi).
Qed.

Lemma ainv_unchan c i : a_cpu a c = Some i -> ainv (upd_tab (alter k_unchan i) a).
Proof.
  intros Hc. destruct (inv_cpu _ Hi _ _ Hc) as (k & Hk & Hr).
  unfold upd_tab. rewrite (alter_as k_unchan i k RUNNING CNull) by (done || (unfold k_unchan; by rewrite Hr)).
  apply (ainv_switch a Hi i k); try done; try (rewrite ?Hr; unfold alive; auto; done).
  - intros d n Hd. destruct (decide (n = i)); auto.
  - eauto.
  - intros d d'. apply (inv_cpu_inj _ Hi).
Qed.

Lemma ainv_dispatch c i k :
  a_cpu a c = None -> a_tab a !! i = Some k -> kst k = RUNNABLE ->
  ainv (upd_cpu c (Some i) (upd_tab (alter (k_state RUNNING) i) a)).
Proof.
  intros Hc Hk Hr. unfold upd_cpu, upd_tab; cbn.
  rewrite (alter_as (k_state RUNNING) i k RUNNING (kch k)) by done.
  assert (forall d, a_cpu a d <> Some i) as Hno.
  { intros d Hd. destruct (inv_cpu _ Hi _ _ Hd) as (k' & ? & ?). congruence. }
  apply (ainv_switch a Hi i k); try done; try (rewrite ?Hr; unfold alive; auto; done).
  - intros d n. rewrite fn_insert_iff. case_decide as E; [intros [= <-]; auto|].
    intros Hd. right. split; [|done]. intros ->. by apply (Hno d).
  - intros d n Hn Hd. rewrite fn_insert_iff. case_decide; [congruence|done].
  - intros _. exists c. apply fn_lookup_insert.
  - intros d d'. rewrite !fn_insert_iff. repeat case_decide; try congruence; intros Hd Hd';
      by (destruct (Hno d) || destruct (Hno d')).
Qed.
End steps.

Lemma no_zombie_child a i :
  existsb (k_zombie_child i) (a_tab a) = false ->
  forall n l, a_tab a !! n = Some l -> kpar l = Some i -> kst l <> ZOMBIE.
Proof.
  intros Hz n l Hl Hp Hst. apply not_true_iff_false in Hz. apply Hz. apply existsb_exists.
  exists l. split; [by eapply list_elem_of_In, list_elem_of_lookup_2|].
  unfold k_zombie_child. by rewrite !bool_decide_true.
Qed.

Lemma ainv_step a a' : ainv a -> astep a a' -> ainv a'.
Proof.
  intros Hi Hs. destruct Hs as [|c i j k Hc Hpc Hk Hu Hn|c i j Hc Hpc|c i j Hc Hpc|c i j Hc Hpc|c i j Hc Hpc
    |c i Hc Hpc Hni|c i Hc Hpc|c i k Hc Hpc Hk|c i j k Hc Hpc Hk Hz|c i Hc Hpc Hz|c i ch Hc Hch|c i Hc|ch|j
    |c i Hc|c i k Hc Hk Hr].
  - done.
  - by eapply ainv_alloc.
  - by apply ainv_free.
  - apply ainv_pc; [done| |apply (pc_exit _ Hi); by left].
    intros n m. rewrite fn_insert_iff. case_decide; [subst n|done]. rewrite Hpc. done.
  - by eapply ainv_adopt.
  - by apply ainv_publish.
  - apply ainv_pc; [done| |].
    + intros n m. rewrite fn_insert_iff. by case_decide.
    + intros n. rewrite fn_insert_iff. case_decide; [by subst|]. apply (inv_exit _ Hi).
  - apply ainv_pc; [done| |].
    + intros n m. rewrite fn_insert_iff. by case_decide.
    + intros n. rewrite fn_insert_iff. case_decide; [subst n|apply (inv_exit _ Hi)].
      intros _. apply (inv_exit _ Hi). auto.
  - by apply ainv_exit.
  - by eapply ainv_reap.
  - destruct (inv_cpu _ Hi _ _ Hc) as (k & Hk & _).
    eapply (ainv_leave a Hi c i k _ SLEEPING (CProc i)); try done; [by left|].
    intros j _ [= <-]. split; [done|]. by apply no_zombie_child.
  - destruct (inv_cpu _ Hi _ _ Hc) as (k & Hk & _).
    eapply (ainv_leave a Hi c i k _ SLEEPING ch); try done; [by left|].
    intros j _ ->. done.
  - by eapply ainv_unchan.
  - apply ainv_fmap; [done|apply wakes_k_wake].
  - apply ainv_wake_one; [done|apply wakes_k_unsleep].
  - destruct (inv_cpu _ Hi _ _ Hc) as (k & Hk & _).
    eapply (ainv_leave a Hi c i k _ RUNNABLE (kch k)); try done. by right.
  - by eapply ainv_dispatch.
Qed.

Lemma astep_length a b : astep a b -> length (a_tab b) = length (a_tab a).
Proof.
  intros []; cbn; rewrite ?length_alter, ?length_fmap; try done.
  unfold k_exit. rewrite length_alter. destruct (existsb _ _); by rewrite ?length_fmap.
Qed.

(** Every slot that is being made has its maker. *)
Definition embryo_owned (a : asys) : Prop :=
  forall j k, a_tab a !! j = Some k -> kst k = EMBRYO -> exists i, owns (a_pc a i) = Some j.

Lemma k_wake_embryo ch k : kst (k_wake ch k) = EMBRYO <-> kst k = EMBRYO.
Proof. unfold k_wake. case_bool_decide as E; [|done]. cbn. split; [done|]. destruct E. congruence. Qed.

Lemma k_exit_embryo i par o l j k : k_exit i par o l !! j = Some k -> kst k = EMBRYO -> exists k', l !! j = Some k' /\ kst k' = EMBRYO.
Proof.
  unfold k_exit. intros (y & Hy & ->)%lookup_alter_iff. case_decide; [done|]. intros He.
  assert (exists z, (k_reparent i o <$> (k_wake (from_option CProc CNull par) <$> l)) !! j = Some z /\ kst z = EMBRYO) as (z & Hz & Ez).
  { destruct (existsb _ _); [|by eexists]. apply lookup_fmap_iff in Hy as (z & Hz & ->). exists z. by rewrite k_wake_embryo in He. }
  apply lookup_fmap_iff in Hz as (x & Hx & ->). apply lookup_fmap_iff in Hx as (w & Hw & ->). exists w. split; [done|].
  unfold k_reparent in Ez. rewrite <-(k_wake_embryo (from_option CProc CNull par)). by case_bool_decide.
Qed.

(** A step keeps the makers when no slot becomes EMBRYO and a process stops making
    only the slot it leaves in another state. *)
Lemma embryo_keep a (l' : list key) (pc' : nat -> kpc) :
  (forall j k, l' !! j = Some k -> kst k = EMBRYO -> exists k', a_tab a !! j = Some k' /\ kst k' = EMBRYO) ->
  (forall i j, owns (a_pc a i) = Some j -> owns (pc' i) = Some j \/ forall k, l' !! j = Some k -> kst k <> EMBRYO) ->
  embryo_owned a -> forall j k, l' !! j = Some k -> kst k = EMBRYO -> exists i, owns (pc' i) = Some j.
Proof.
  intros Hl Hpc Ho j k Hj He. destruct (Hl j k Hj He) as (k' & Hj' & He'). destruct (Ho j k' Hj' He') as [i Hi].
  exists i. destruct (Hpc i j Hi) as [|Hn]; [done|]. by destruct (Hn k Hj).
Qed.

Lemma embryo_alter a f i j k : alter f i (a_tab a) !! j = Some k ->
  (forall y, kst (f y) = EMBRYO -> kst y = EMBRYO) -> kst k = EMBRYO -> exists k', a_tab a !! j = Some k' /\ kst k' = EMBRYO.
Proof. intros (y & Hy & ->)%lookup_alter_iff Hf He. exists y. split; [done|]. case_decide; [by apply Hf|done]. Qed.

Lemma embryo_step a a' : embryo_owned a -> astep a a' -> embryo_owned a'.
Proof.
  intros Ho Hs.
  destruct Hs as [|c i j k Hc Hpc Hk Hu Hn|c i j Hc Hpc|c i j Hc Hpc|c i j Hc Hpc|c i j Hc Hpc
    |c i Hc Hpc Hni|c i Hc Hpc|c i k Hc Hpc Hk|c i j k Hc Hpc Hk Hz|c i Hc Hpc Hz|c i ch Hc Hch|c i Hc|ch|j
    |c i Hc|c i k Hc Hk Hr]; [done|..]; unfold embryo_owned; cbn [a_tab a_pc upd_tab upd_pc upd_cpu upd_npid].
  - intros m q (y & Hy & ->)%lookup_alter_iff He. destruct (decide (j = m)) as [->|]; [exists i; by rewrite fn_insert_iff, decide_True|].
    destruct (Ho m y Hy He) as [i' Hi']. exists i'. rewrite fn_insert_iff, decide_False; [done|]. intros <-. by rewrite Hpc in Hi'.
  - apply (embryo_keep a); [intros; by eapply embryo_alter| |done]. intros i' j' Hi'. rewrite fn_insert_iff. case_decide; [subst i'|by left].
    right. intros k (y & Hy & ->)%lookup_alter_iff. rewrite decide_True by congruence. done.
  - apply (embryo_keep a); [by eauto| |done]. intros i' j' Hi'. rewrite fn_insert_iff. case_decide; [subst i'|by left]. left. by rewrite Hpc in Hi'.
  - apply (embryo_keep a); [intros; by eapply embryo_alter| |done]. intros i' j' Hi'. rewrite fn_insert_iff. case_decide; [subst i'|by left]. left. by rewrite Hpc in Hi'.
  - apply (embryo_keep a); [intros; by eapply embryo_alter| |done]. intros i' j' Hi'. rewrite fn_insert_iff. case_decide; [subst i'|by left].
    right. intros k (y & Hy & ->)%lookup_alter_iff. rewrite Hpc in Hi'. injection Hi' as ->. by rewrite decide_True.
  - apply (embryo_keep a); [by eauto| |done]. intros i' j' Hi'. rewrite fn_insert_iff. case_decide; [subst i'; by rewrite Hpc in Hi'|by left].
  - apply (embryo_keep a); [by eauto| |done]. intros i' j' Hi'. rewrite fn_insert_iff. case_decide; [subst i'; by rewrite Hpc in Hi'|by left].
  - apply (embryo_keep a); [intros; by eapply k_exit_embryo| |done]. intros i' j' Hi'. rewrite fn_insert_iff. case_decide; [subst i'; by rewrite Hpc in Hi'|by left].
  - apply (embryo_keep a); [intros; by eapply embryo_alter|auto|done].
  - apply (embryo_keep a); [intros; by eapply embryo_alter|auto|done].
  - apply (embryo_keep a); [intros; by eapply embryo_alter|auto|done].
  - apply (embryo_keep a); [intros; by eapply embryo_alter|auto|done].
  - apply (embryo_keep a); [|auto|done]. intros m q (y & Hy & ->)%lookup_fmap_iff He. exists y. by rewrite k_wake_embryo in He.
  - apply (embryo_keep a); [intros; eapply embryo_alter; try done|auto|done]. intros y. unfold k_unsleep. case_bool_decide; done.
  - apply (embryo_keep a); [intros; by eapply embryo_alter|auto|done].
  - apply (embryo_keep a); [intros; by eapply embryo_alter|auto|done].
Qed.

(** ** Equality of states up to the CPU and control-point maps pointwise *)
Definition aeq (a b : asys) : Prop :=
  a_tab a = a_tab b /\ a_init a = a_init b /\ a_npid a = a_npid b /\
  (forall c, a_cpu a c = a_cpu b c) /\ (forall i, a_pc a i = a_pc b i).
Infix "≡ₐ" := aeq (at level 70).

#[export] Instance aeq_equivalence : Equivalence aeq.
Proof.
  split.
  - by intros a.
  - intros a b (? & ? & ? & ? & ?). by split_and!.
  - intros a b c (? & ? & ? & Hc & Hp) (? & ? & ? & Hc' & Hp').
    split_and!; [congruence..| |]; intros; by rewrite ?Hc, ?Hp.
Qed.

Lemma ainv_aeq a b : aeq a b -> ainv a -> ainv b.
Proof.
  intros (Ht & Hi & Hn & Hc & Hp) [H1 H2 H3 H4 H5 H6 H7 Hself H8 H9 H10 H11 H12 H13].
  constructor; rewrite <-?Ht, <-?Hi, <-?Hn; try done; intros *; rewrite <-?Hc, <-?Hp; eauto.
  intros Hk Hr. destruct (H6 _ _ Hk Hr) as [c ?]. exists c. by rewrite <-Hc.
Qed.

#[export] Instance ainv_proper : Proper (aeq ==> iff) ainv.
Proof. intros a b Hab. split; [by apply ainv_aeq|apply ainv_aeq; by symmetry]. Qed.
#[export] Instance upd_pc_proper : Proper (eq ==> eq ==> aeq ==> aeq) upd_pc.
Proof.
  intros i ? <- p ? <- a b (? & ? & ? & ? & Hp). split_and!; try done. cbn.
  intros j. rewrite !fn_insert_iff. by case_decide.
Qed.
