(* ===== verification/Proc.v ===== *)
(** * The process table on several CPUs, and its refinement

    The system of all CPUs: a step is one critical section (or one private
    section of fork or exit) of the operations of [ProcDefs.v], run by one CPU
    on its view of the shared state.  Every step is a step of the machine of
    [ProcSpec.v], so its invariant holds in every reachable state of the code. *)

From S2P Require Import Prelude CString ProcDefs ProcSpec.

Section system.
Context {W : Type} {SV : Services W}.
Context (pol : policy) (forkret_addr null_pid : Z).

Record psys := mkSys {
  y_tab : list proc; y_init : option nat; y_npid : Z;
  y_cpu : nat -> option nat; y_pc : nat -> kpc; y_w : W
}.

(** What CPU [c] sees when it holds no lock, and the system after it ran. *)
Definition view (b e : bool) (c : nat) (s : psys) : pst W :=
  mkPst (y_tab s) false (y_init s) (y_npid s) (y_cpu s c) b 0 e (y_w s).
Definition back (c : nat) (v : pst W) (s : psys) : psys :=
  mkSys (ptab v) (initproc v) (nextpid v) (<[c := cur v]> (y_cpu s)) (y_pc s) (other v).
Definition goto (i : nat) (p : kpc) (s : psys) : psys :=
  mkSys (y_tab s) (y_init s) (y_npid s) (y_cpu s) (<[i := p]> (y_pc s)) (y_w s).

(** CPU [c] runs [m] from a state where it holds no lock to one where it holds none. *)
Definition run {A} (c : nat) (m : M (pst W) A) (s : psys) (r : A) (s' : psys) : Prop :=
  exists b e v, m (view b e c s) = Ret r v /\ plock v = false /\ s' = back c v s.

(** A section that ends in [sched]: the scheduler clears [c->proc] and, at the
    latest at the end of its loop, releases the lock. *)
Definition switched {A} (m : M (pst W) A) : M (pst W) unit := m ;; sched_back ;; release_ptable.
Definition switched_opt {A} (m : M (pst W) (option A)) : M (pst W) unit :=
  o ← m; match o with Some _ => mret tt | None => sched_back ;; release_ptable end.

(** yield_ for the schedulers without it is an empty function. *)
Definition yield__section : M (pst W) unit :=
  o ← yield__enter pol; match o with Some _ => sched_back ;; release_ptable | None => mret tt end.

Definition dispatch_section (i : nat) : M (pst W) unit :=
  acquire_ptable ;; dispatch i ;; release_ptable.

(** The process returns from [swtch] with the lock the scheduler took. *)
Definition wait_again_section (e : bool) : M (pst W) unit :=
  acquire_ptable ;; switched_opt (wait_again e).
Definition sleep_section (mlfq : bool) (ch : chan) : M (pst W) unit :=
  acquire_other ;; switched (sleep_enter mlfq ch LkOther).
Definition sleep_exit_section (e : bool) : M (pst W) unit :=
  acquire_ptable ;; sleep_exit LkPtable e ;; release_ptable.

Inductive pstep (s : psys) : psys -> Prop :=
| P_alloc c i o s' : y_cpu s c = Some i -> y_pc s i = PRun -> y_npid s < 2 ^ 31 - 1 ->
    run c (alloc_slot pol) s o s' ->
    pstep s (match o with Some j => goto i (PFork j) s' | None => s' end)
| P_kstack c i j o s' : y_cpu s c = Some i -> y_pc s i = PFork j ->
    run c (alloc_kstack forkret_addr j) s o s' ->
    pstep s (goto i (match o with Some _ => PBody j | None => PRun end) s')
| P_body c i j uname (ok : bool) s' : y_cpu s c = Some i -> y_pc s i = PBody j ->
    run c (fork_body uname i j) s ok s' ->
    pstep s (goto i (if ok then PPub j else PRun) s')
| P_publish c i j s' : y_cpu s c = Some i -> y_pc s i = PPub j ->
    run c (publish j) s tt s' -> pstep s (goto i PRun s')
| P_exit_enter c i s' : y_cpu s c = Some i -> y_pc s i = PRun ->
    run c exit_enter s i s' -> pstep s (goto i PExit1 s')
| P_exit_files c i s' : y_cpu s c = Some i -> y_pc s i = PExit1 ->
    run c (exit_files i) s tt s' -> pstep s (goto i PExit2 s')
| P_exit_final c i s' : y_cpu s c = Some i -> y_pc s i = PExit2 ->
    run c (switched (exit_final i)) s tt s' -> pstep s (goto i PRun s')
| P_wait c i s' : y_cpu s c = Some i -> y_pc s i = PRun ->
    run c (switched_opt wait) s tt s' -> pstep s s'
| P_wait_again c i e s' : y_cpu s c = Some i -> y_pc s i = PRun ->
    run c (wait_again_section e) s tt s' -> pstep s s'
| P_sleep c i m ch s' : y_cpu s c = Some i -> plain_chan ch ->
    run c (sleep_section m ch) s tt s' -> pstep s s'
| P_sleep_exit c i e s' : y_cpu s c = Some i ->
    run c (sleep_exit_section e) s tt s' -> pstep s s'
| P_wakeup c ch s' : run c (wakeup ch) s tt s' -> pstep s s'
| P_kill c pd r s' : run c (kill pd) s r s' -> pstep s s'
| P_yield c i s' : y_cpu s c = Some i -> run c (switched yield_enter) s tt s' -> pstep s s'
| P_yield_ c i s' : y_cpu s c = Some i -> run c yield__section s tt s' -> pstep s s'
| P_dispatch c i p s' : y_cpu s c = None -> y_tab s !! i = Some p -> state p = RUNNABLE ->
    run c (dispatch_section i) s tt s' -> pstep s s'
| P_grow c n r s' : run c (growproc n) s r s' -> pstep s s'
| P_boost c s' : run c (priority_boost pol) s tt s' -> pstep s s'
| P_setpriority c pd pr r s' : run c (setpriority pol null_pid pd pr) s r s' -> pstep s s'
| P_qlvl_down c s' : run c (qlvl_down pol) s tt s' -> pstep s s'
| P_update_tq c s' : run c (update_tq pol) s tt s' -> pstep s s'.

(** The state of the machine of [ProcSpec.v] that a system state stands for. *)
Definition abs (s : psys) : asys :=
  mkA (key_of <$> y_tab s) (y_init s) (y_npid s) (y_cpu s) (y_pc s).

(** ** What each primitive does to the abstract part of a view *)

Definition kv (v : pst W) : list key * option nat * Z * option nat :=
  (key_of <$> ptab v, initproc v, nextpid v, cur v).

Lemma kv_eq v v' : kv v' = kv v <->
  key_of <$> ptab v' = key_of <$> ptab v /\ initproc v' = initproc v /\ nextpid v' = nextpid v /\ cur v' = cur v.
Proof. unfold kv. split; [intros [= ? ? ? ?]; auto|by intros (-> & -> & -> & ->)]. Qed.

Lemma acquire_kv v u v' : acquire_ptable v = Ret u v' -> kv v' = kv v /\ ptab v' = ptab v.
Proof. unfold acquire_ptable, mbind, M_bind. cbn. destruct (plock v); [done|]. by intros [= _ <-]. Qed.

Lemma release_kv v u v' : release_ptable v = Ret u v' -> kv v' = kv v /\ ptab v' = ptab v.
Proof.
  unfold release_ptable, mbind, M_bind. cbn. repeat case_match; try done. by intros [= _ <-].
Qed.

Lemma ext_kv {A} (m : M W A) v r v' : ext m v = Ret r v' -> kv v' = kv v /\ ptab v' = ptab v.
Proof. unfold ext, zoom. destruct (m (other v)); [|done..]. by intros [= _ <-]. Qed.

Lemma pupd_ptab i f (v : pst W) : pupd i f v = Ret tt (with_ptab (alter f i) v).
Proof. done. Qed.

Lemma key_alter f g i (l : list proc) :
  (forall p, key_of (f p) = g (key_of p)) -> key_of <$> alter f i l = alter g i (key_of <$> l).
Proof.
  intros Hf. apply list_eq. intros j. rewrite list_lookup_fmap, !list_lookup_alter, !list_lookup_fmap.
  case_decide; [subst|done]. destruct (l !! j); cbn; [by rewrite Hf|done].
Qed.

Lemma key_alter_id f i (l : list proc) :
  (forall p, key_of (f p) = key_of p) -> key_of <$> alter f i l = key_of <$> l.
Proof. apply fmap_alter_id. Qed.

Lemma key_fmap f g (l : list proc) :
  (forall p, key_of (f p) = g (key_of p)) -> key_of <$> (f <$> l) = g <$> (key_of <$> l).
Proof. intros Hf. rewrite <-!list_fmap_compose. apply list_fmap_ext. intros. apply Hf. Qed.

(** Symbolic execution of a run that returned, down to the primitives. *)
Ltac mstep :=
  repeat (cbv beta in *;
  match goal with
  | H : (_ ≫= _) _ = Ret _ _ |- _ => apply bind_Ret_inv in H as (? & ? & ? & H)
  | H : get _ = Ret _ _ |- _ => injection H as <- <-
  | H : gets _ _ = Ret _ _ |- _ => injection H as <- <-
  | H : pread _ _ = Ret _ _ |- _ => injection H as <- <-
  | H : modify _ _ = Ret _ _ |- _ => injection H as _ <-
  | H : pupd _ _ _ = Ret _ _ |- _ => injection H as _ <-
  | H : mret _ _ = Ret _ _ |- _ => injection H as <- <-
  | H : panic _ _ = Ret _ _ |- _ => discriminate H
  | H : acquire_ptable _ = Ret _ _ |- _ => apply acquire_kv in H as [? ?]
  | H : release_ptable _ = Ret _ _ |- _ => apply release_kv in H as [? ?]
  | H : ext _ _ = Ret _ _ |- _ => apply ext_kv in H as [? ?]
  end).

Lemma find_slot_Some f l i : find_slot f l = Some i -> exists p, l !! i = Some p /\ f p = true.
Proof.
  unfold find_slot. intros ([j p] & Hf & ->)%fmap_Some. apply list_find_Some in Hf as (? & ? & _). eauto.
Qed.

Lemma find_slot_None f l : find_slot f l = None -> existsb f l = false.
Proof.
  unfold find_slot. intros Hn%fmap_None. apply list_find_None in Hn.
  apply not_true_iff_false. intros (x & Hx & Hfx)%existsb_exists.
  rewrite Forall_forall in Hn. apply (Hn x); [by apply list_elem_of_In|done].
Qed.

Lemma myproc_inv (v : pst W) i v' : myproc v = Ret i v' -> v' = v /\ cur v = Some i.
Proof. unfold myproc, mbind, M_bind, gets. destruct (cur v) eqn:E; [|done]. by intros [= -> ->]. Qed.

Lemma sched_out_inv (v : pst W) b v' : sched_out v = Ret b v' -> v' = v.
Proof.
  unfold sched_out. intros H. mstep. apply myproc_inv in H0 as [-> _].
  repeat case_match; mstep; done.
Qed.

(** Rewriting the abstract part through updates of the table. *)
Definition kmap (f : list key -> list key) (x : list key * option nat * Z * option nat) :=
  let '(l, i, n, c) := x in (f l, i, n, c).

Lemma kv_alter i f g (v : pst W) :
  (forall p, key_of (f p) = g (key_of p)) -> kv (with_ptab (alter f i) v) = kmap (alter g i) (kv v).
Proof. intros Hf. unfold kv, kmap. cbn. by rewrite (key_alter f g). Qed.

Lemma kv_alter_id i f (v : pst W) :
  (forall p, key_of (f p) = key_of p) -> kv (with_ptab (alter f i) v) = kv v.
Proof. intros Hf. unfold kv. cbn. by rewrite key_alter_id. Qed.

Lemma kv_fmap f g (v : pst W) :
  (forall p, key_of (f p) = g (key_of p)) -> kv (with_ptab (fmap f) v) = kmap (fmap g) (kv v).
Proof. intros Hf. unfold kv, kmap. cbn. by rewrite (key_fmap f g). Qed.

Lemma kv_fmap_id f (v : pst W) :
  (forall p, key_of (f p) = key_of p) -> kv (with_ptab (fmap f) v) = kv v.
Proof.
  intros Hf. unfold kv. cbn. rewrite (key_fmap f (λ k, k)) by done. by rewrite list_fmap_id.
Qed.

Lemma alloc_init_key n p : key_of (alloc_init pol n p) = k_alloc n (key_of p).
Proof. unfold alloc_init, mlfq_reset. by destruct pol. Qed.

Lemma alloc_slot_kv v o v' : alloc_slot pol v = Ret o v' ->
  match o with
  | None => kv v' = kv v
  | Some j => exists p, ptab v !! j = Some p /\ state p = UNUSED /\
      kv v' = (alter (k_alloc (nextpid v)) j (key_of <$> ptab v), initproc v, s32 (nextpid v + 1), cur v)
  end.
Proof.
  unfold alloc_slot. intros H. apply bind_Ret_inv in H as (u & v1 & Ha & H).
  apply acquire_kv in Ha as [Hkv Hpt]. mstep. rewrite Hpt in H.
  destruct (find_slot _ _) as [j|] eqn:Ef; mstep; [|congruence].
  apply find_slot_Some in Ef as (p & Hp & Hu). exists p.
  unfold is_unused in Hu. rewrite bool_decide_eq_true in Hu. split_and!; [done..|].
  apply kv_eq in Hkv as (_ & Hin & Hn & Hc).
  match goal with E : kv _ = kv _ |- _ => rewrite E end. unfold kv. cbn.
  rewrite (key_alter _ (k_alloc (nextpid v1))) by apply alloc_init_key. congruence.
Qed.

Lemma alloc_kstack_kv j v o v' : alloc_kstack forkret_addr j v = Ret o v' ->
  kv v' = match o with None => kmap (alter (k_state UNUSED) j) (kv v) | Some _ => kv v end.
Proof.
  unfold alloc_kstack. intros H. mstep. destruct (_ =? 0); mstep.
  - rewrite (kv_alter _ _ (k_state UNUSED)), kv_alter_id by done. congruence.
  - rewrite !kv_alter_id by done. done.
Qed.

Lemma for_range_kv lo n body v u v' :
  (forall i v u v', body i v = Ret u v' -> kv v' = kv v) ->
  for_range lo n body v = Ret u v' -> kv v' = kv v.
Proof.
  intros Hb. revert lo v. induction n as [|n IH]; cbn [for_range]; intros lo v H; mstep; [done|].
  apply IH in H. rewrite H. by eapply Hb.
Qed.

Lemma dup_fd_kv i j fd v u v' : dup_fd i j fd v = Ret u v' -> kv v' = kv v.
Proof.
  unfold dup_fd. intros H. mstep. repeat case_match; mstep; [|done..]. by rewrite kv_alter_id.
Qed.

(** Evaluate the abstract part of updated tables; [g] is what the one update
    that is not invisible does to a key. *)
Ltac kvs g :=
  repeat match goal with
  | H : context [kv (with_ptab (alter ?f ?i) ?v)] |- _ =>
      first [rewrite (kv_alter_id i f v) in H by done | rewrite (kv_alter i f g v) in H by done]
  | |- context [kv (with_ptab (alter ?f ?i) ?v)] =>
      first [rewrite (kv_alter_id i f v) by done | rewrite (kv_alter i f g v) by done]
  end; congruence.

Lemma fork_body_kv uname i j v ok v' : fork_body uname i j v = Ret ok v' ->
  kv v' = kmap (alter (if ok : bool then k_parent (Some i) else k_state UNUSED) j) (kv v).
Proof.
  unfold fork_body. intros H. mstep. destruct (_ =? 0); mstep; [kvs (k_state UNUSED)|].
  match goal with E : for_range _ _ _ _ = Ret _ _ |- _ =>
    apply for_range_kv in E; [|by intros; eapply dup_fd_kv] end.
  case_match; mstep. kvs (k_parent (Some i)).
Qed.

Lemma publish_kv j v u v' : publish j v = Ret u v' -> kv v' = kmap (alter (k_state RUNNABLE) j) (kv v).
Proof. unfold publish. intros H. mstep. kvs (k_state RUNNABLE). Qed.

(** ** exit *)

Definition kpid_at (l : list key) (k : nat) : Z := from_option kpid 0 (l !! k).

Lemma pid_at (l : list proc) k : pid (default proc_zero (l !! k)) = kpid_at (key_of <$> l) k.
Proof. unfold kpid_at. rewrite list_lookup_fmap. by destruct (l !! k). Qed.

(** No slot shares the pid of slot [i]. *)
Definition alone (i : nat) (l : list key) : Prop := forall k, k <> i -> kpid_at l k <> kpid_at l i.

Lemma exit_peers_loop i n lo v u v' :
  alone i (key_of <$> ptab v) -> for_range lo n (exit_peer i) v = Ret u v' -> v' = v.
Proof.
  intros Hal. revert lo v Hal. induction n as [|n IH]; cbn [for_range]; intros lo v Hal H; mstep; [done|].
  assert (x0 = v) as ->; [|by apply (IH (S lo))].
  unfold exit_peer in *. mstep. rewrite !pid_at in *.
  destruct (decide (lo = i)) as [->|Hne].
  - rewrite Nat.eqb_refl in *. cbn [negb] in *. rewrite andb_false_r in *. cbv iota in *. by mstep.
  - rewrite (proj2 (Z.eqb_neq _ _)) in * by (by apply Hal). cbn [andb] in *. by mstep.
Qed.

Lemma exit_peers_kv i v u v' :
  alone i (key_of <$> ptab v) -> exit_peers i v = Ret u v' -> kv v' = kv v.
Proof.
  unfold exit_peers. intros Hal H. apply bind_Ret_inv in H as (? & v1 & Ha & H).
  apply acquire_kv in Ha as [Hkv Hpt]. mstep.
  match goal with E : for_range _ _ _ _ = Ret _ _ |- _ => apply exit_peers_loop in E; [|by rewrite Hpt] end.
  congruence.
Qed.

(** The process that goes on in exit is not init. *)
Lemma exit_enter_kv v i v' : alone i (key_of <$> ptab v) -> exit_enter v = Ret i v' -> kv v' = kv v /\ initproc v <> Some i.
Proof.
  unfold exit_enter. intros Hal H. apply bind_Ret_inv in H as (j & v1 & [-> Hj]%myproc_inv & H). mstep.
  case_bool_decide as E; [done|]. mstep. split; [by eapply exit_peers_kv|done].
Qed.

Lemma close_fd_kv i fd v u v' : close_fd i fd v = Ret u v' -> kv v' = kv v.
Proof.
  unfold close_fd. intros H. mstep. repeat case_match; mstep; [|done..]. kvs (λ k : key, k).
Qed.

Lemma exit_files_kv i v u v' : exit_files i v = Ret u v' -> kv v' = kv v.
Proof.
  unfold exit_files. intros H. mstep.
  match goal with E : for_range _ _ _ _ = Ret _ _ |- _ =>
    apply for_range_kv in E; [|by intros; eapply close_fd_kv] end.
  case_match; mstep. kvs (λ k : key, k).
Qed.

(** The loop over the children, on keys: one slot, and all of them. *)
Definition rp_step (i : nat) (o : option nat) (l : list key) (n : nat) : list key :=
  match l !! n with
  | Some k =>
      if bool_decide (kpar k = Some i) then
        let l' := alter (k_parent o) n l in
        if bool_decide (kst k = ZOMBIE) then k_wake (from_option CProc CNull o) <$> l' else l'
      else l
  | None => l
  end.

Lemma wake_key ch p : key_of (wake ch p) = k_wake ch (key_of p).
Proof. unfold wake, k_wake. cbn. by case_bool_decide. Qed.

Lemma reparent_kv i n v u v' : reparent i n v = Ret u v' ->
  kv v' = kmap (λ l, rp_step i (initproc v) l n) (kv v).
Proof.
  unfold reparent. intros H. mstep. unfold kv, kmap, rp_step. rewrite list_lookup_fmap.
  destruct (ptab v !! n) as [p|] eqn:Ep; cbn in *.
  - case_bool_decide; cbn in *; mstep; [|done].
    unfold when in *. case_bool_decide; cbn in *.
    + unfold wakeup1 in *. mstep. cbn.
      by rewrite (key_fmap _ _ _ (wake_key _)), (key_alter _ (k_parent (initproc v))).
    + mstep. cbn. by rewrite (key_alter _ (k_parent (initproc v))).
  - case_bool_decide; [done|]. by mstep.
Qed.

Lemma reparent_loop_kv i n lo v u v' : for_range lo n (reparent i) v = Ret u v' ->
  kv v' = kmap (λ l, foldl (rp_step i (initproc v)) l (seq lo n)) (kv v).
Proof.
  revert lo v. induction n as [|n IH]; cbn [for_range]; intros lo v H; mstep; [done|].
  apply IH in H. match goal with E : reparent _ _ _ = _ |- _ => apply reparent_kv in E; rename E into Hr end.
  rewrite H. cbn [seq foldl]. unfold kv, kmap in Hr |- *. by injection Hr as -> -> -> ->.
Qed.

Lemma take_S_existsb (f : key -> bool) n l k : l !! n = Some k ->
  existsb f (take (S n) l) = existsb f (take n l) || f k.
Proof. intros Hk. rewrite (take_S_r _ _ _ Hk), existsb_app. cbn. by rewrite orb_false_r. Qed.

Lemma k_wake_idem ch k : k_wake ch (k_wake ch k) = k_wake ch k.
Proof. unfold k_wake. repeat (case_bool_decide; cbn in *); naive_solver. Qed.

Lemma k_wake_parent ch o k : k_wake ch (k_parent o k) = k_parent o (k_wake ch k).
Proof. unfold k_wake, k_parent. cbn. by case_bool_decide. Qed.

Lemma k_wake_zombie ch k : kst k = ZOMBIE -> k_wake ch k = k.
Proof. intros Hk. unfold k_wake. rewrite bool_decide_false; [done|]. rewrite Hk. by intros []. Qed.

(** The table after the loop has passed the first [n] slots. *)
Definition rp_done (i : nat) (o : option nat) (b : bool) (n m : nat) (k : key) : key :=
  let k := if decide (m < n)%nat then k_reparent i o k else k in
  if b then k_wake (from_option CProc CNull o) k else k.

Lemma rp_done_S i o b n m k : m <> n -> rp_done i o b (S n) m k = rp_done i o b n m k.
Proof. intros Hm. unfold rp_done. by rewrite (decide_ext (m < S n)%nat (m < n)%nat) by lia. Qed.

Lemma rp_done_wake i o b n m k :
  k_wake (from_option CProc CNull o) (rp_done i o b n m k) = rp_done i o true n m k.
Proof. unfold rp_done. destruct b; [apply k_wake_idem|done]. Qed.

Lemma rp_done_here i o b n k : rp_done i o b n n k =
  if b then k_wake (from_option CProc CNull o) k else k.
Proof. unfold rp_done. by rewrite decide_False by lia. Qed.

Lemma rp_done_next i o b n k : rp_done i o b (S n) n k =
  if b then k_wake (from_option CProc CNull o) (k_reparent i o k) else k_reparent i o k.
Proof. unfold rp_done. by rewrite decide_True by lia. Qed.

Lemma rp_fold i o l n m : (n <= length l)%nat ->
  foldl (rp_step i o) l (seq 0 n) !! m =
  rp_done i o (existsb (k_zombie_child i) (take n l)) n m <$> l !! m.
Proof.
  revert m. induction n as [|n IH]; intros m Hn; [by cbn; destruct (l !! m)|].
  rewrite seq_S, foldl_app. cbn [foldl Nat.add].
  destruct (lookup_lt_is_Some_2 l n) as [x Hx]; [lia|].
  rewrite (take_S_existsb _ _ _ _ Hx). set (b := existsb _ (take n l)) in *.
  unfold rp_step at 1. rewrite IH by lia. rewrite Hx. cbn [fmap option_fmap option_map].
  rewrite rp_done_here. unfold k_zombie_child.
  assert (kpar (if b then k_wake (from_option CProc CNull o) x else x) = kpar x) as ->.
  { destruct b; [apply k_wake_fields|done]. }
  assert (k_reparent i o x = if bool_decide (kpar x = Some i) then k_parent o x else x) as Hr by done.
  destruct (decide (kpar x = Some i)) as [Hp|Hp];
    [rewrite (bool_decide_true _ Hp) in *|rewrite (bool_decide_false _ Hp) in *]; cbn [andb].
  - destruct (decide (kst x = ZOMBIE)) as [Hz|Hz].
    + rewrite (k_wake_zombie _ x Hz). replace (if b then x else x) with x by by destruct b.
      rewrite !bool_decide_true by done.
      rewrite orb_true_r, list_lookup_fmap, list_lookup_alter, !IH by lia.
      case_decide as E; [subst m; rewrite Hx; cbn [fmap option_fmap option_map]; rewrite rp_done_here, rp_done_next, Hr|].
      * by rewrite (k_wake_zombie _ x Hz); destruct b.
      * destruct (l !! m); cbn [fmap option_fmap option_map]; [|done]. by rewrite rp_done_wake, rp_done_S by done.
    + assert (kst (if b then k_wake (from_option CProc CNull o) x else x) <> ZOMBIE) as Hz'.
      { destruct b; [|done]. by rewrite (proj1 (proj2 (proj2 (k_wake_fields _ x)))). }
      rewrite !bool_decide_false by done. rewrite orb_false_r, list_lookup_alter, !IH by lia.
      case_decide as E; [subst m; rewrite Hx; cbn [fmap option_fmap option_map]; rewrite rp_done_here, rp_done_next, Hr|].
      * by destruct b; rewrite ?k_wake_parent.
      * destruct (l !! m); cbn [fmap option_fmap option_map]; [|done]. by rewrite rp_done_S by done.
  - rewrite orb_false_r, IH by lia. destruct (decide (m = n)) as [->|E].
    + rewrite Hx. cbn [fmap option_fmap option_map]. by rewrite rp_done_here, rp_done_next, Hr.
    + destruct (l !! m); cbn [fmap option_fmap option_map]; [|done]. by rewrite rp_done_S by done.
Qed.

(** The whole loop: the children go to init, which is woken for a zombie. *)
Lemma rp_fold_all i o l :
  foldl (rp_step i o) l (seq 0 (length l)) =
  let l2 := k_reparent i o <$> l in
  if existsb (k_zombie_child i) l then k_wake (from_option CProc CNull o) <$> l2 else l2.
Proof.
  apply list_eq. intros m. rewrite rp_fold by lia. rewrite firstn_all. cbn zeta.
  destruct (l !! m) as [k|] eqn:Ek.
  - pose proof (lookup_lt_Some _ _ _ Ek). destruct (existsb _ l);
      rewrite !list_lookup_fmap, Ek; cbn; unfold rp_done; by rewrite decide_True by done.
  - destruct (existsb _ l); by rewrite !list_lookup_fmap, Ek.
Qed.

Lemma wakeup1_kv ch (v : pst W) u v' : wakeup1 ch v = Ret u v' -> kv v' = kmap (fmap (k_wake ch)) (kv v).
Proof. intros H. unfold wakeup1 in H. mstep. apply kv_fmap, wake_key. Qed.

Lemma kv_fields v l i n c : kv v = (l, i, n, c) ->
  key_of <$> ptab v = l /\ initproc v = i /\ nextpid v = n /\ cur v = c.
Proof. by intros [= <- <- <- <-]. Qed.

Lemma exit_final_kv i p v b v' :
  exit_final i v = Ret b v' -> length (ptab v) = NPROC -> ptab v !! i = Some p ->
  kv v' = kmap (k_exit i (parent p) (initproc v)) (kv v).
Proof.
  unfold exit_final. intros H Hlen Hp. apply bind_Ret_inv in H as (u & v1 & Ha & H).
  apply acquire_kv in Ha as [Hkv Hpt].
  apply bind_Ret_inv in H as (q & v2 & Hq & H). injection Hq as <- <-. rewrite Hpt, Hp in H. change (default proc_zero (Some p)) with p in H.
  apply bind_Ret_inv in H as (? & v3 & Hw%wakeup1_kv & H).
  apply bind_Ret_inv in H as (? & v4 & Hr & H). apply reparent_loop_kv in Hr.
  apply bind_Ret_inv in H as (? & v5 & Hz & H). apply sched_out_inv in H as ->. injection Hz as _ <-.
  rewrite (kv_alter _ _ (k_state ZOMBIE)) by done. rewrite Hr, Hw. rewrite Hkv in *.
  unfold kv, kmap in *. apply kv_fields in Hw as (Ht & -> & _). f_equal. f_equal. f_equal.
  unfold k_exit. f_equal.
  rewrite <-rp_fold_all. f_equal. by rewrite !length_fmap, Hlen.
Qed.

Lemma acquire_other_kv (v : pst W) u v' : acquire_other v = Ret u v' -> kv v' = kv v /\ ptab v' = ptab v.
Proof. by intros [= _ <-]. Qed.
Lemma release_other_kv (v : pst W) u v' : release_other v = Ret u v' -> kv v' = kv v /\ ptab v' = ptab v.
Proof. by intros [= _ <-]. Qed.

Lemma kmap_alter2 (f g : key -> key) i x :
  kmap (alter f i) (kmap (alter g i) x) = kmap (alter (f ∘ g) i) x.
Proof. destruct x as [[[l o] n] c]. cbn. by rewrite list_alter_alter_eq. Qed.

Lemma sleep_enter_kv m ch lk (v : pst W) b v' : sleep_enter m ch lk v = Ret b v' ->
  exists i, cur v = Some i /\ kv v' = kmap (alter (k_sleep ch) i) (kv v).
Proof.
  unfold sleep_enter. intros H. apply bind_Ret_inv in H as (o & v0 & Ho & H). injection Ho as <- <-.
  destruct (cur v) as [i|]; [|by mstep]. exists i. split; [done|].
  apply bind_Ret_inv in H as (? & v1 & HA & H). apply bind_Ret_inv in H as (? & v2 & HB & H).
  assert (kv v2 = kv v) as Hkv.
  { destruct lk; mstep; [done|].
    match goal with E : release_other _ = _ |- _ => apply release_other_kv in E as [? _] end. congruence. }
  clear HA HB. mstep. apply sched_out_inv in H as ->.
  match goal with E : when _ _ ?x = Ret _ ?y |- _ =>
    assert (kv y = kv x) as -> by (destruct m; cbn in E; mstep; [by rewrite kv_alter_id|done]) end.
  rewrite (kv_alter _ _ (k_state SLEEPING)) by done.
  rewrite (kv_alter _ _ (λ k, mkKey (kst k) (kpid k) (kpar k) ch)) by done.
  rewrite kmap_alter2, Hkv. done.
Qed.

Lemma wait_turn_kv i v o v' : wait_turn i v = Ret o v' -> cur v = Some i ->
  match o with
  | Some _ => kv v' = kv v \/ exists k p, ptab v !! k = Some p /\ k_zombie_child i (key_of p) = true /\
                kv v' = kmap (alter k_reset k) (kv v)
  | None => existsb (k_zombie_child i) (key_of <$> ptab v) = false /\
            kv v' = kmap (alter (k_sleep (CProc i)) i) (kv v)
  end.
Proof.
  unfold wait_turn. intros H Hc. apply bind_Ret_inv in H as (s & v0 & Ho & H). injection Ho as <- <-.
  destruct (find_slot _ _) as [k|] eqn:Ef.
  - apply find_slot_Some in Ef as (p & Hp & Hz). mstep. right. exists k, p. split_and!; [done..|].
    kvs k_reset.
  - apply find_slot_None in Ef. mstep. destruct (_ || _); mstep; [by left|]. 
    match goal with E : sleep _ _ _ = _ |- _ => apply sleep_enter_kv in E as (j & Hj & ->) end.
    assert (j = i) as -> by congruence. split; [|done].
    rewrite <-Ef. clear. induction (ptab v) as [|p l IH]; cbn; [done|by rewrite IH].
Qed.

(** ** The simulation *)

Definition with_kcur (o : option nat) (x : list key * option nat * Z * option nat) :=
  let '(l, i, n, _) := x in (l, i, n, o).

Lemma sched_back_kv (v : pst W) u v' : sched_back v = Ret u v' -> kv v' = with_kcur None (kv v).
Proof. by intros [= _ <-]. Qed.

Lemma switched_kv {A} (m : M (pst W) A) v u v' : switched m v = Ret u v' ->
  exists r v1, m v = Ret r v1 /\ kv v' = with_kcur None (kv v1).
Proof.
  unfold switched. intros H. apply bind_Ret_inv in H as (r & v1 & Hm & H).
  apply bind_Ret_inv in H as (? & v2 & Hs%sched_back_kv & [Hk _]%release_kv).
  exists r, v1. split; [done|congruence].
Qed.

Lemma switched_opt_kv {A} (m : M (pst W) (option A)) v u v' : switched_opt m v = Ret u v' ->
  exists o v1, m v = Ret o v1 /\ kv v' = match o with Some _ => kv v1 | None => with_kcur None (kv v1) end.
Proof.
  unfold switched_opt. intros H. apply bind_Ret_inv in H as (o & v1 & Hm & H).
  exists o, v1. split; [done|]. destruct o; [by mstep|].
  apply bind_Ret_inv in H as (? & v2 & Hs%sched_back_kv & [Hk _]%release_kv). congruence.
Qed.

(** The run of a section whose effect on the abstract part is [f] and, on
    [c->proc], to set it to [o]. *)
Lemma sim_cpu {A} c (m : M (pst W) A) s r s' f o :
  run c m s r s' ->
  (forall b e v', m (view b e c s) = Ret r v' -> kv v' = with_kcur o (kmap f (kv (view b e c s)))) ->
  abs s' ≡ₐ upd_cpu c o (upd_tab f (abs s)).
Proof.
  intros (b & e & v & Hm & _ & ->) Hf. specialize (Hf _ _ _ Hm). injection Hf as Ht Hi Hn Hc.
  unfold abs, upd_cpu, upd_tab, back; cbn. by rewrite Ht, Hi, Hn, Hc.
Qed.

Lemma sim_tab {A} c (m : M (pst W) A) s r s' f :
  run c m s r s' ->
  (forall b e v', m (view b e c s) = Ret r v' -> kv v' = kmap f (kv (view b e c s))) ->
  abs s' ≡ₐ upd_tab f (abs s).
Proof.
  intros (b & e & v & Hm & _ & ->) Hf. specialize (Hf _ _ _ Hm). injection Hf as Ht Hi Hn Hc.
  split_and!; cbn; try done. intros d. rewrite Hc, fn_insert_iff. by case_decide; subst.
Qed.

Lemma sim_skip {A} c (m : M (pst W) A) s r s' :
  run c m s r s' ->
  (forall b e v', m (view b e c s) = Ret r v' -> kv v' = kv (view b e c s)) -> abs s' ≡ₐ abs s.
Proof.
  intros Hr Hf. etrans; [apply (sim_tab _ _ _ _ _ (λ l, l) Hr)|by destruct s].
  intros b e v Hv. by rewrite (Hf _ _ _ Hv).
Qed.

Lemma kill_kv pd (v : pst W) r v' : kill pd v = Ret r v' ->
  kv v' = kv v \/ exists j, kv v' = kmap (alter k_unsleep j) (kv v).
Proof.
  unfold kill. intros H. mstep. destruct (find_slot _ _) as [j|]; mstep; [right; exists j|left; congruence].
  assert (forall p, key_of (kill_proc p) = k_unsleep (key_of p)) as Hk.
  { intros p. unfold kill_proc, k_unsleep. cbn. by case_bool_decide. }
  match goal with E : context [kv (with_ptab (alter kill_proc ?i) ?x)] |- _ =>
    rewrite (kv_alter i kill_proc k_unsleep x Hk) in E end. congruence.
Qed.

Lemma wakeup_kv ch (v : pst W) r v' : wakeup ch v = Ret r v' -> kv v' = kmap (fmap (k_wake ch)) (kv v).
Proof.
  unfold wakeup. intros H. mstep.
  match goal with E : wakeup1 _ _ = _ |- _ => apply wakeup1_kv in E end. congruence.
Qed.

Lemma yield_enter_kv (v : pst W) r v' : yield_enter v = Ret r v' ->
  exists i, cur v = Some i /\ kv v' = kmap (alter (k_state RUNNABLE) i) (kv v).
Proof.
  unfold yield_enter. intros H. apply bind_Ret_inv in H as (? & v1 & [Hk _]%acquire_kv & H).
  apply bind_Ret_inv in H as (i & v2 & [-> Hc]%myproc_inv & H). mstep. apply sched_out_inv in H as ->.
  exists i. apply kv_eq in Hk as Hk'. split; [destruct Hk' as (_ & _ & _ & <-); done|].
  kvs (k_state RUNNABLE).
Qed.

Lemma yield__section_kv (v : pst W) r v' : yield__section v = Ret r v' ->
  kv v' = kv v \/
  exists i, cur v = Some i /\ kv v' = with_kcur None (kmap (alter (k_state RUNNABLE) i) (kv v)).
Proof.
  unfold yield__section, yield__enter. intros H. apply bind_Ret_inv in H as (o & v1 & Ho & H).
  destruct pol; mstep; try by left. right.
  match goal with E : myproc _ = _ |- _ => apply myproc_inv in E as [-> Hc]; rename Hc into Hcur end.
  match goal with E : sched_out _ = _ |- _ => apply sched_out_inv in E as -> end.
  match goal with E : sched_back _ = _ |- _ => apply sched_back_kv in E end.
  eexists. split.
  - match goal with E : kv _ = kv v |- _ => apply kv_eq in E as (_ & _ & _ & <-) end. exact Hcur.
  - kvs (k_state RUNNABLE).
Qed.

Lemma dispatch_section_kv i (v : pst W) r v' : dispatch_section i v = Ret r v' ->
  kv v' = with_kcur (Some i) (kmap (alter (k_state RUNNING) i) (kv v)).
Proof.
  unfold dispatch_section, dispatch. intros H. mstep.
  match goal with E : kv _ = kv (with_cur ?o ?x) |- _ =>
    change (kv (with_cur o x)) with (with_kcur o (kv x)) in E end.
  repeat match goal with E : kv _ = _ |- _ => progress (rewrite ?(kv_alter _ _ (k_state RUNNING)) in E by done) end.
  repeat match goal with E : kv _ = _ |- _ => rewrite E in *; clear E end.
  by destruct (kv v) as [[[? ?] ?] ?].
Qed.

Lemma sleep_exit_section_kv e (v : pst W) r v' : sleep_exit_section e v = Ret r v' ->
  exists i, cur v = Some i /\ kv v' = kmap (alter k_unchan i) (kv v).
Proof.
  unfold sleep_exit_section, sleep_exit, sched_in. intros H.
  apply bind_Ret_inv in H as (? & v1 & [Hk _]%acquire_kv & H). mstep.
  match goal with E : myproc _ = _ |- _ => apply myproc_inv in E as [-> Hc] end.
  eexists. apply kv_eq in Hk as Hk'. split; [destruct Hk' as (_ & _ & _ & <-); exact Hc|].
  assert (kv (with_intena e v1) = kv v1) by done. kvs k_unchan.
Qed.

Lemma growproc_kv n (v : pst W) r v' : growproc n v = Ret r v' -> kv v' = kv v.
Proof.
  unfold growproc. intros H. apply bind_Ret_inv in H as (i & v0 & [-> _]%myproc_inv & H).
  apply bind_Ret_inv in H as (? & v1 & [Hk _]%acquire_kv & H).
  apply bind_Ret_inv in H as (p & v2 & Hp & H). injection Hp as <- <-.
  apply bind_Ret_inv in H as (nsz & v2 & Hn & H).
  assert (kv v2 = kv v1) as Hk2 by (repeat case_match; mstep; done).
  clear Hn. destruct (_ && _); mstep; [congruence|].
  match goal with E : context [kv (with_ptab (alter ?f ?i) ?x)] |- _ => rewrite (kv_alter_id i f x) in E by done end.
  match goal with E : context [kv (with_ptab (fmap ?f) ?x)] |- _ =>
    rewrite (kv_fmap_id f x) in E by (intros q; unfold set_sz_of_pid; by case_match) end.
  congruence.
Qed.

Lemma priority_boost_kv (v : pst W) r v' : priority_boost pol v = Ret r v' -> kv v' = kv v.
Proof.
  unfold priority_boost, when. intros H. destruct (is_mlfq pol); mstep; [|done].
  rewrite kv_fmap_id in * by done. congruence.
Qed.

Lemma setpriority_kv pd pr (v : pst W) r v' : setpriority pol null_pid pd pr v = Ret r v' -> kv v' = kv v.
Proof.
  unfold setpriority. intros H. destruct (is_mlfq pol); mstep; [|done].
  match goal with E : myproc _ = _ |- _ => apply myproc_inv in E as [-> _] end.
  destruct (find_slot _ _); mstep; kvs (λ k : key, k).
Qed.

Lemma qlvl_down_kv (v : pst W) r v' : qlvl_down pol v = Ret r v' -> kv v' = kv v.
Proof.
  unfold qlvl_down, when. intros H. destruct (is_mlfq pol); mstep; [|done].
  match goal with E : myproc _ = _ |- _ => apply myproc_inv in E as [-> _] end. kvs (λ k : key, k).
Qed.

Lemma update_tq_kv (v : pst W) r v' : update_tq pol v = Ret r v' -> kv v' = kv v.
Proof.
  unfold update_tq, when. intros H. destruct (is_mlfq pol); mstep; [|done].
  match goal with E : myproc _ = _ |- _ => apply myproc_inv in E as [-> _] end. kvs (λ k : key, k).
Qed.

Lemma ainv_alone s c i : ainv (abs s) -> y_cpu s c = Some i -> alone i (key_of <$> y_tab s).
Proof.
  intros Hi Hc k Hne Heq. destruct (inv_cpu _ Hi c i Hc) as (q & Hq & Hr).
  destruct (inv_pid _ Hi _ _ Hq) as [_ Hpos]. cbn in Hq.
  unfold kpid_at in Heq. rewrite Hq in Heq. cbn in Heq.
  destruct (_ !! k) as [q'|] eqn:Ek; cbn in Heq.
  - apply Hne. apply (inv_uniq _ Hi _ _ _ _ Ek Hq); [done|]. rewrite Heq.
    assert (0 < kpid q) by (apply Hpos; congruence). lia.
  - assert (0 < kpid q) by (apply Hpos; congruence). lia.
Qed.

(** The abstract machine can do, in some steps, what the code did in one section. *)
Definition refines (s s' : psys) : Prop := exists a', rtc astep (abs s) a' /\ abs s' ≡ₐ a'.

Lemma refines_once s s' a' : astep (abs s) a' -> abs s' ≡ₐ a' -> refines s s'.
Proof. intros Ha He. exists a'. split; [by apply rtc_once|done]. Qed.

Lemma refines_skip s s' : abs s' ≡ₐ abs s -> refines s s'.
Proof. intros He. by exists (abs s). Qed.

Lemma goto_abs i p s : abs (goto i p s) = upd_pc i p (abs s).
Proof. done. Qed.

Lemma kmap_id x : kmap (λ l, l) x = x.
Proof. by destruct x as [[[? ?] ?] ?]. Qed.

Lemma sim_alloc c i s o s' :
  y_cpu s c = Some i -> y_pc s i = PRun -> 0 < y_npid s < 2 ^ 31 - 1 -> run c (alloc_slot pol) s o s' ->
  refines s (match o with Some j => goto i (PFork j) s' | None => s' end).
Proof.
  intros Hc Hpc Hn Hr. destruct o as [j|].
  - destruct Hr as (b & e & v & Hm & _ & ->). apply alloc_slot_kv in Hm as (p & Hp & Hu & Hk).
    cbn in *. eapply refines_once; [eapply (A_alloc _ c i j (key_of p)); try done; [|cbn; lia]|].
    { cbn. by rewrite list_lookup_fmap, Hp. }
    rewrite s32_id in Hk by (unfold is_s32; lia). injection Hk as Ht Hi Hn' Hc'.
    split_and!; cbn; try done. intros d. rewrite Hc', fn_insert_iff. by case_decide; subst.
  - apply refines_skip, (sim_skip _ _ _ _ _ Hr). intros b e v H. by apply alloc_slot_kv in H.
Qed.

(** What a turn of wait's loop does, as steps of the machine from a state
    with the same abstract part as the view. *)
Lemma sim_turn c i a v v' r s :
  switched_opt (wait_turn i) v = Ret r v' -> cur v = Some i ->
  kv v = (a_tab a, a_init a, a_npid a, a_cpu a c) -> a_pc a i = PRun -> a_pc a = y_pc s ->
  (forall d, <[c := a_cpu a c]> (y_cpu s) d = a_cpu a d) ->
  exists a', astep a a' /\ abs (back c v' s) ≡ₐ a'.
Proof.
  intros H Hcur Hk Hpc Hpcs Hcpu. apply switched_opt_kv in H as (o & v1 & Hw & Hk').
  apply wait_turn_kv in Hw; [|done]. injection Hk as Ht Hin Hn Hca.
  assert (a_cpu a c = Some i) as Hci by congruence.
  assert (forall l x, kv v' = (l, a_init a, a_npid a, x) ->
    abs (back c v' s) ≡ₐ mkA l (a_init a) (a_npid a) (<[c := x]> (y_cpu s)) (a_pc a)) as Hback.
  { intros l x [= <- <- <- <-]. split_and!; cbn; try done. by rewrite Hpcs. }
  destruct o as [res|].
  - destruct Hw as [Hw|(k & p & Hp & Hz & Hw)].
    + exists a. split; [apply A_skip|]. rewrite Hk' in Hback. rewrite Hw in Hback. 
      etrans; [apply Hback; unfold kv; by rewrite Ht, Hin, Hn, Hca|]. by split_and!.
    + exists (upd_tab (alter k_reset k) a). split.
      { apply (A_reap a c i k (key_of p)); try done. rewrite <-Ht, list_lookup_fmap, Hp. done. }
      rewrite Hk', Hw in Hback. etrans; [apply Hback; unfold kv, kmap; by rewrite Ht, Hin, Hn, Hca|].
      by split_and!.
  - destruct Hw as [Hz Hw]. exists (upd_cpu c None (upd_tab (alter (k_sleep (CProc i)) i) a)). split.
    { apply A_wait; try done. by rewrite <-Ht. }
    rewrite Hk', Hw in Hback. etrans; [apply Hback; unfold kv, kmap, with_kcur; by rewrite Ht, Hin, Hn|].
    split_and!; cbn; try done. intros d. rewrite !fn_insert_iff. specialize (Hcpu d).
    rewrite fn_insert_iff in Hcpu. by case_decide.
Qed.

Lemma bind_assoc {A B C} (m : M (pst W) A) (f : A -> M (pst W) B) (g : B -> M (pst W) C) v :
  ((m ≫= f) ≫= g) v = (m ≫= (λ a, f a ≫= g)) v.
Proof. unfold mbind, M_bind. by destruct (m v). Qed.

Lemma sim_wait c i s s' :
  y_cpu s c = Some i -> y_pc s i = PRun -> run c (switched_opt wait) s tt s' -> refines s s'.
Proof.
  intros Hc Hpc (b & e & v & Hm & _ & ->). unfold switched_opt, wait in Hm. rewrite bind_assoc in Hm.
  apply bind_Ret_inv in Hm as (j & v0 & [-> Hj]%myproc_inv & Hm). rewrite bind_assoc in Hm.
  apply bind_Ret_inv in Hm as (? & v1 & [Hk _]%acquire_kv & Hm). cbn in Hj.
  assert (j = i) as -> by congruence.
  destruct (sim_turn c i (abs s) v1 v tt s Hm) as (a' & Ha & He); try done.
  - apply kv_eq in Hk as (_ & _ & _ & ->). done.
  - intros d. cbn. rewrite fn_insert_iff. by case_decide; subst.
  - by eapply refines_once.
Qed.

Lemma sleep_exit_kv e (v : pst W) r v' : sleep_exit LkPtable e v = Ret r v' ->
  exists i, cur v = Some i /\ kv v' = kmap (alter k_unchan i) (kv v).
Proof.
  unfold sleep_exit, sched_in. intros H. mstep.
  match goal with E : myproc _ = _ |- _ => apply myproc_inv in E as [-> Hc] end.
  eexists. split; [exact Hc|]. assert (kv (with_intena e v) = kv v) by done. kvs k_unchan.
Qed.

Lemma sim_wait_again c i e s s' :
  y_cpu s c = Some i -> y_pc s i = PRun -> run c (wait_again_section e) s tt s' -> refines s s'.
Proof.
  intros Hc Hpc (b & e' & v & Hm & _ & ->).
  unfold wait_again_section, switched_opt, wait_again in Hm.
  apply bind_Ret_inv in Hm as (? & v1 & [Hk _]%acquire_kv & Hm). rewrite bind_assoc in Hm.
  apply bind_Ret_inv in Hm as (? & v2 & (j & Hj & Hk2)%sleep_exit_kv & Hm). rewrite bind_assoc in Hm.
  apply bind_Ret_inv in Hm as (j' & v3 & [-> Hj']%myproc_inv & Hm).
  rewrite Hk in Hk2. apply kv_eq in Hk as (_ & _ & _ & Hcur). cbn in Hcur.
  assert (j = i) as -> by congruence. injection Hk2 as Ht Hin Hn Hc2. cbn in *.
  assert (j' = i) as -> by congruence.
  destruct (sim_turn c i (upd_tab (alter k_unchan i) (abs s)) v2 v tt s Hm) as (a' & Ha & He); try done.
  - unfold kv. cbn. by rewrite Ht, Hin, Hn, Hc2.
  - intros d. cbn. rewrite fn_insert_iff. by case_decide; subst.
  - exists a'. split; [|done]. eapply rtc_l; [by eapply A_unchan|by apply rtc_once].
Qed.

Lemma sim_fork c i j uname ok s s' :
  y_cpu s c = Some i -> y_pc s i = PBody j -> run c (fork_body uname i j) s ok s' ->
  refines s (goto i (if ok then PPub j else PRun) s').
Proof.
  intros Hc Hpc Hr. eapply refines_once.
  2: { rewrite goto_abs. apply upd_pc_proper; [done..|]. eapply (sim_tab _ _ _ _ _ _ Hr).
       intros b e v' H. apply (fork_body_kv _ _ _ _ _ _ H). }
  destruct ok; [by eapply (A_adopt _ c)|]. eapply (A_free _ c); [done|]. cbn. by rewrite Hpc.
Qed.

Lemma sim_kstack c i j o s s' :
  y_cpu s c = Some i -> y_pc s i = PFork j -> run c (alloc_kstack forkret_addr j) s o s' ->
  refines s (goto i (match o with Some _ => PBody j | None => PRun end) s').
Proof.
  intros Hc Hpc Hr. eapply refines_once.
  2: { rewrite goto_abs. apply upd_pc_proper; [done..|]. eapply (sim_tab _ _ _ _ _
         (match o with None => alter (k_state UNUSED) j | Some _ => λ l, l end) Hr).
       intros b e v' H%alloc_kstack_kv. destruct o; by rewrite ?kmap_id. }
  destruct o; [by eapply (A_stack _ c)|]. eapply (A_free _ c); [done|]. cbn. by rewrite Hpc.
Qed.

Lemma sim_exit_final c i s s' :
  length (y_tab s) = NPROC -> ainv (abs s) -> y_cpu s c = Some i -> y_pc s i = PExit2 ->
  run c (switched (exit_final i)) s tt s' -> refines s (goto i PRun s').
Proof.
  intros Hlen Hi Hc Hpc Hr. destruct (inv_cpu _ Hi c i Hc) as (k & Hk & _). cbn in Hk.
  apply lookup_fmap_iff in Hk as (p & Hp & ->).
  eapply refines_once; [eapply (A_exit3 _ c i (key_of p)); try done|].
  { cbn. by rewrite list_lookup_fmap, Hp. }
  rewrite goto_abs. apply upd_pc_proper; [done..|]. eapply (sim_cpu _ _ _ _ _ _ _ Hr).
  intros b e v' (r & v1 & Hx & ->)%switched_kv. f_equal. by apply (exit_final_kv _ p _ _ _ Hx).
Qed.

Lemma sim_sleep c i m ch s s' :
  y_cpu s c = Some i -> plain_chan ch -> run c (sleep_section m ch) s tt s' -> refines s s'.
Proof.
  intros Hc Hch Hr. eapply refines_once; [by eapply (A_sleep _ c i ch)|]. eapply (sim_cpu _ _ _ _ _ _ _ Hr).
  intros b e v' H. unfold sleep_section in H. apply bind_Ret_inv in H as (? & v1 & [Hk _]%acquire_other_kv & H).
  apply switched_kv in H as (r & v2 & (j & Hj & Hk2)%sleep_enter_kv & ->). rewrite Hk2, Hk.
  apply kv_eq in Hk as (_ & _ & _ & Hcur). cbn in Hcur. assert (j = i) as -> by congruence. done.
Qed.

(** A section with one of two effects, known only after it ran. *)
Lemma run_const {A} c (m : M (pst W) A) s r s' : run c m s r s' ->
  exists b e v, m (view b e c s) = Ret r v /\ run c (λ _, Ret tt v) s tt s'.
Proof. intros (b & e & v & ? & ? & ->). exists b, e, v. split; [done|]. by exists b, e, v. Qed.

Lemma sim_kill c pd r s s' : run c (kill pd) s r s' -> refines s s'.
Proof.
  intros (b & e & v & Hm & Hr)%run_const. destruct (kill_kv _ _ _ _ Hm) as [Hk|[j Hk]].
  - apply refines_skip. eapply (sim_skip _ _ _ _ _ Hr). by intros b' e' v' [= <-].
  - eapply refines_once; [apply (A_kill _ j)|]. eapply (sim_tab _ _ _ _ _ _ Hr). by intros b' e' v' [= <-].
Qed.

Lemma sim_yield_ c i s s' : y_cpu s c = Some i -> run c yield__section s tt s' -> refines s s'.
Proof.
  intros Hc (b & e & v & Hm & Hr)%run_const. destruct (yield__section_kv _ _ _ Hm) as [Hk|(j & Hj & Hk)].
  - apply refines_skip. eapply (sim_skip _ _ _ _ _ Hr). by intros b' e' v' [= <-].
  - cbn in Hj. assert (j = i) as -> by congruence.
    eapply refines_once; [by eapply (A_yield _ c i)|]. eapply (sim_cpu _ _ _ _ _ _ _ Hr). by intros b' e' v' [= <-].
Qed.

(** Every step of the code is matched by the machine. *)
Lemma pstep_refines s s' :
  length (y_tab s) = NPROC -> ainv (abs s) -> pstep s s' -> refines s s'.
Proof.
  intros Hlen Hi Hs. destruct Hs as [c i o s' Hc Hpc Hn Hr|c i j o s' Hc Hpc Hr|c i j uname ok s' Hc Hpc Hr
    |c i j s' Hc Hpc Hr|c i s' Hc Hpc Hr|c i s' Hc Hpc Hr|c i s' Hc Hpc Hr|c i s' Hc Hpc Hr|c i e s' Hc Hpc Hr
    |c i m ch s' Hc Hch Hr|c i e s' Hc Hr|c ch s' Hr|c pd r s' Hr|c i s' Hc Hr|c i s' Hc Hr
    |c i p s' Hc Hp Hst Hr|c n r s' Hr|c s' Hr|c pd pr r s' Hr|c s' Hr|c s' Hr].
  - pose proof (inv_npid _ Hi). eapply sim_alloc; [done..|cbn in *; lia|done].
  - by eapply sim_kstack.
  - by eapply sim_fork.
  - eapply refines_once; [by eapply (A_publish _ c i j)|]. rewrite goto_abs. apply upd_pc_proper; [done..|].
    eapply (sim_tab _ _ _ _ _ _ Hr). intros b e v' H. apply (publish_kv _ _ _ _ H).
  - pose proof (ainv_alone s c i Hi Hc) as Hal. assert (y_init s <> Some i) as Hni.
    { destruct Hr as (b & e & v' & H & _). by apply (exit_enter_kv (view b e c s) i v'). }
    eapply refines_once; [by eapply (A_exit1 _ c i)|]. rewrite goto_abs. apply upd_pc_proper; [done..|].
    apply (sim_skip _ _ _ _ _ Hr). intros b e v' H. by eapply exit_enter_kv.
  - eapply refines_once; [by eapply (A_exit2 _ c i)|]. rewrite goto_abs. apply upd_pc_proper; [done..|].
    apply (sim_skip _ _ _ _ _ Hr). intros b e v' H. apply (exit_files_kv _ _ _ _ H).
  - by eapply sim_exit_final.
  - by eapply sim_wait.
  - by eapply sim_wait_again.
  - by eapply sim_sleep.
  - eapply refines_once; [by eapply (A_unchan _ c i)|]. eapply (sim_tab _ _ _ _ _ _ Hr).
    intros b e' v' (j & Hj & Hk)%sleep_exit_section_kv. cbn in Hj. by assert (j = i) as -> by congruence.
  - eapply refines_once; [apply (A_wakeup _ ch)|]. eapply (sim_tab _ _ _ _ _ _ Hr).
    intros b e v' H. apply (wakeup_kv _ _ _ _ H).
  - by eapply sim_kill.
  - eapply refines_once; [by eapply (A_yield _ c i)|]. eapply (sim_cpu _ _ _ _ _ _ _ Hr).
    intros b e v' (r & v1 & (j & Hj & Hk)%yield_enter_kv & ->)%switched_kv. cbn in Hj.
    assert (j = i) as -> by congruence. by rewrite Hk.
  - by eapply sim_yield_.
  - eapply refines_once; [eapply (A_dispatch _ c i (key_of p)); try done|].
    { cbn. by rewrite list_lookup_fmap, Hp. }
    eapply (sim_cpu _ _ _ _ _ _ _ Hr). intros b e v' H. apply (dispatch_section_kv _ _ _ _ H).
  - apply refines_skip, (sim_skip _ _ _ _ _ Hr). intros b e v' H. apply (growproc_kv _ _ _ _ H).
  - apply refines_skip, (sim_skip _ _ _ _ _ Hr). intros b e v' H. apply (priority_boost_kv _ _ _ H).
  - apply refines_skip, (sim_skip _ _ _ _ _ Hr). intros b e v' H. apply (setpriority_kv _ _ _ _ _ H).
  - apply refines_skip, (sim_skip _ _ _ _ _ Hr). intros b e v' H. apply (qlvl_down_kv _ _ _ H).
  - apply refines_skip, (sim_skip _ _ _ _ _ Hr). intros b e v' H. apply (update_tq_kv _ _ _ H).
Qed.

(** ** Boot and the reachable states *)

Definition zero_table : list proc := replicate NPROC proc_zero.

(** main.c calls [userinit] before any CPU runs its scheduler. *)
Definition boot (s : psys) : Prop :=
  exists b e w v, userinit pol forkret_addr (mkPst zero_table false None 1 None b 0 e w) = Ret tt v /\
    s = mkSys (ptab v) (initproc v) (nextpid v) (λ _, None) (λ _, PRun) (other v).

Definition reachable (s : psys) : Prop := exists s0, boot s0 /\ rtc pstep s0 s.

Lemma userinit_kv v u v' : userinit pol forkret_addr v = Ret u v' ->
  exists j p, ptab v !! j = Some p /\ state p = UNUSED /\
    kv v' = (alter (k_state RUNNABLE) j (alter (k_alloc (nextpid v)) j (key_of <$> ptab v)),
             Some j, s32 (nextpid v + 1), cur v).
Proof.
  unfold userinit, allocproc. intros H. apply bind_Ret_inv in H as (o & v2 & Ha & H).
  apply bind_Ret_inv in Ha as (o1 & v1 & Ho1%alloc_slot_kv & Ha).
  destruct o1 as [j|]; [|injection Ha as <- <-; mstep].
  destruct Ho1 as (p & Hp & Hu & Hk1). exists j, p. split_and!; [done..|].
  assert (o = None \/ o = Some j) as Ho.
  { unfold alloc_kstack in Ha. mstep. destruct (_ =? 0); mstep; auto. }
  apply alloc_kstack_kv in Ha. destruct o as [i|]; [|mstep].
  destruct Ho as [|[= ->]]; [done|].
  rewrite Hk1 in Ha. clear Hk1.
  apply bind_Ret_inv in H as (? & v3 & Hv3 & H). injection Hv3 as _ <-.
  assert (kv (with_initproc (Some j) v2) = (alter (k_alloc (nextpid v)) j (key_of <$> ptab v),
             Some j, s32 (nextpid v + 1), cur v)) as Hk by (by injection Ha as <- _ <- <-).
  clear Ha. mstep. destruct (_ =? 0); [by mstep|]. mstep. apply publish_kv in H.
  repeat match goal with
  | E : context [kv (with_ptab (alter ?f ?i) ?x)] |- _ => rewrite (kv_alter_id i f x) in E by done end.
  match goal with E : kv v' = kmap _ (kv ?x) |- _ => assert (kv x = kv (with_initproc (Some j) v2)) as E' by congruence;
    rewrite E, E', Hk end. done.
Qed.

Lemma boot_keys j m (k : key) :
  alter (k_state RUNNABLE) j (alter (k_alloc 1) j (key_of <$> zero_table)) !! m = Some k ->
  k = mkKey (if decide (m = j) then RUNNABLE else UNUSED) (if decide (m = j) then 1 else 0) None CNull.
Proof.
  intros (y & Hy & ->)%lookup_alter_iff. apply lookup_alter_iff in Hy as (z & Hz & ->).
  apply lookup_fmap_iff in Hz as (p & Hp & ->). apply lookup_replicate in Hp as [-> _].
  destruct (decide (j = m)) as [->|]; [by rewrite !decide_True by done|].
  by rewrite !decide_False by congruence.
Qed.

Lemma boot_ainv s : boot s -> length (y_tab s) = NPROC /\ ainv (abs s).
Proof.
  intros (b & e & w & v & Hu & ->). apply userinit_kv in Hu as (j & p & Hp & _ & Hk).
  cbn [ptab nextpid cur] in Hp, Hk. apply kv_fields in Hk as (Ht & Hin & Hn & _). cbn [y_tab]. split.
  { rewrite <-(length_fmap key_of), Ht, !length_alter, length_fmap. done. }
  unfold abs. cbn [y_tab y_init y_npid y_cpu y_pc]. rewrite Ht, Hin, Hn. clear Ht Hin Hn.
  assert (exists k, alter (k_state RUNNABLE) j (alter (k_alloc 1) j (key_of <$> zero_table)) !! j = Some k) as [k Hj].
  { apply lookup_lt_is_Some_2. rewrite !length_alter, length_fmap. by eapply lookup_lt_Some. }
  constructor; cbn [a_tab a_init a_npid a_cpu a_pc owns]; try done.
  - intros i q ->%boot_keys. cbn. by case_decide.
  - intros i i' q q' ->%boot_keys ->%boot_keys. cbn. repeat case_decide; congruence.
  - intros i q ->%boot_keys. cbn. by case_decide.
  - exists j, k. split_and!; [done..| |]; apply boot_keys in Hj; subst k; cbn; [|done].
    rewrite decide_True by done. unfold alive. auto.
  - by intros i q ->%boot_keys.
  - by intros i q i' ->%boot_keys.
  - intros i q ->%boot_keys. cbn. case_decide; [|done]. congruence.
  - by intros i q i' ->%boot_keys.
  - by intros i [|].
Qed.

Lemma refines_inv s s' :
  length (y_tab s) = NPROC -> ainv (abs s) -> refines s s' -> length (y_tab s') = NPROC /\ ainv (abs s').
Proof.
  intros Hlen Hi (a' & Hst & He). split.
  - destruct He as (Ht & _). cbn in Ht. rewrite <-(length_fmap key_of), Ht.
    apply (rtc_invariant astep (λ a, length (a_tab a) = NPROC) (abs s)); [|by cbn; rewrite length_fmap|done].
    intros a b Ha Hab. by rewrite (astep_length _ _ Hab).
  - rewrite He. by apply (rtc_invariant astep ainv (abs s)); [intros; by eapply ainv_step|..].
Qed.

Lemma boot_embryo s : boot s -> embryo_owned (abs s).
Proof.
  intros (b & e & w & v & Hu & ->). apply userinit_kv in Hu as (j & p & Hp & _ & Hk). cbn [ptab nextpid cur] in Hp, Hk.
  apply kv_fields in Hk as (Ht & _ & _ & _). intros i k. cbn [a_tab abs y_tab]. rewrite Ht. intros ->%boot_keys. cbn. by case_decide.
Qed.

Lemma reachable_embryo s : reachable s -> length (y_tab s) = NPROC /\ ainv (abs s) /\ embryo_owned (abs s).
Proof.
  intros (s0 & Hb & Hr). revert Hr.
  apply (rtc_invariant pstep (λ s, length (y_tab s) = NPROC /\ ainv (abs s) /\ embryo_owned (abs s))).
  - intros a b (Hl & Hi & He) Hab. pose proof (pstep_refines a b Hl Hi Hab) as Hr. destruct (refines_inv a b Hl Hi Hr) as [Hl' Hi'].
    split_and!; [done..|]. destruct Hr as (a' & Hst & (Ht & _ & _ & _ & Hp)). intros j k. rewrite Ht. intros Hj Hk.
    assert (embryo_owned a') as Ho by (by apply (rtc_invariant astep embryo_owned (abs a)); [intros; by eapply embryo_step|..]).
    destruct (Ho j k Hj Hk) as [i Hi2]. exists i. by rewrite Hp.
  - destruct (boot_ainv s0 Hb). split_and!; [done..|by apply boot_embryo].
Qed.

Lemma reachable_inv s : reachable s -> length (y_tab s) = NPROC /\ ainv (abs s).
Proof.
  intros (s0 & Hb & Hr). revert Hr.
  apply (rtc_invariant pstep (λ s, length (y_tab s) = NPROC /\ ainv (abs s))); [|by apply boot_ainv].
  intros a b [Hl Hi] Hab. apply (refines_inv a b Hl Hi). by apply pstep_refines.
Qed.
End system.
