(* ===== verification/ProcProps.v ===== *)
(** * What the process table guarantees

    The theorems on every reachable state of the process system, the behaviour
    of single calls (fork, kill, growproc, the switch to the scheduler), and a
    small instance of the services on which they are evaluated. *)

From S2P Require Import Prelude CString ProcDefs ProcSpec Proc.

(** ** Reachable states *)
Section reachable.
Context {W : Type} {SV : Services W}.
Context (pol : policy) (forkret_addr null_pid : Z).

Definition used (p : proc) : Prop := state p <> UNUSED.

(** C1: Every section of fork, exit, wait, sleep, wakeup, kill, yield, dispatch,
    growproc and the MLFQ calls that a CPU runs in a reachable state is a
    sequence of steps of the abstract life-cycle machine.  (A section here is one
    that gives ptable.lock back, which a failing growproc does not; and the counter
    of pids has not reached the largest int.) *)
Theorem proc_refinement (s s' : psys) (Hr : reachable pol forkret_addr null_pid s)
  (Hs : pstep pol forkret_addr null_pid s s') :
  exists a', rtc astep (abs s) a' /\ abs s' ≡ₐ a'.
Proof. destruct (reachable_inv _ _ _ _ Hr). by eapply pstep_refines. Qed.

(** No two processes ever have the same pid, and a used slot has a
    positive one. *)
Theorem pids_unique (s : psys) i j p q (Hr : reachable pol forkret_addr null_pid s)
  (Hp : y_tab s !! i = Some p) (Hq : y_tab s !! j = Some q) (Hu : used p) (Hv : used q) :
  0 < pid p /\ (pid p = pid q -> i = j).
Proof.
  destruct (reachable_inv _ _ _ _ Hr) as [_ Hi].
  assert (a_tab (abs s) !! i = Some (key_of p)) as Hp' by (cbn; by rewrite list_lookup_fmap, Hp).
  assert (a_tab (abs s) !! j = Some (key_of q)) as Hq' by (cbn; by rewrite list_lookup_fmap, Hq).
  destruct (inv_pid _ Hi _ _ Hp') as [_ Hpos]. specialize (Hpos Hu). split; [done|].
  intros He. apply (inv_uniq _ Hi _ _ _ _ Hp' Hq'); cbn in *; [done|lia].
Qed.

(** C5: A process is RUNNING exactly when one CPU runs it, and no process is
    on two CPUs. *)
Theorem running_on_one_cpu (s : psys) i p (Hr : reachable pol forkret_addr null_pid s) (Hp : y_tab s !! i = Some p) :
  (state p = RUNNING <-> exists c, y_cpu s c = Some i) /\
  (forall c d, y_cpu s c = Some i -> y_cpu s d = Some i -> c = d).
Proof.
  destruct (reachable_inv _ _ _ _ Hr) as [_ Hi].
  assert (a_tab (abs s) !! i = Some (key_of p)) as Hp' by (cbn; by rewrite list_lookup_fmap, Hp).
  split; [split|intros c d; apply (inv_cpu_inj _ Hi)].
  - intros Hs. apply (inv_running _ Hi _ _ Hp' Hs).
  - intros [c Hc]. destruct (inv_cpu _ Hi _ _ Hc) as (k & Hk & Hs). rewrite Hp' in Hk. by simplify_eq.
Qed.

(** C4: init never dies, since exit panics before it ends init; every process but
    init that fork has published, zombies included, has a parent that is alive and
    can wait for it; and a slot still EMBRYO is being made by one live process. *)
Theorem parents_alive (s : psys) (Hr : reachable pol forkret_addr null_pid s) :
  (exists i p, y_init s = Some i /\ y_tab s !! i = Some p /\ alive (state p)) /\
  (forall i p, y_tab s !! i = Some p -> used p -> state p <> EMBRYO -> y_init s <> Some i ->
     exists j q, parent p = Some j /\ j <> i /\ y_tab s !! j = Some q /\ alive (state q)) /\
  (forall i p, y_tab s !! i = Some p -> state p = EMBRYO ->
     exists j q, owns (y_pc s j) = Some i /\ y_tab s !! j = Some q /\ alive (state q) /\
       forall j', owns (y_pc s j') = Some i -> j' = j).
Proof.
  destruct (reachable_embryo _ _ _ _ Hr) as (_ & Hi & Ho). split_and!.
  - destruct (inv_init _ Hi) as (i & k & Hin & Hk & Ha & _). cbn in Hk.
    apply lookup_fmap_iff in Hk as (p & Hp & ->). eauto.
  - intros i p Hp Hu He Hni.
    assert (a_tab (abs s) !! i = Some (key_of p)) as Hp' by (cbn; by rewrite list_lookup_fmap, Hp).
    destruct (inv_orphan _ Hi _ _ Hp' Hu He Hni) as [j Hj]. cbn in Hj.
    destruct (inv_parent _ Hi _ _ _ Hp' Hj) as (k & Hk & Ha). cbn in Hk.
    apply lookup_fmap_iff in Hk as (q & Hq & ->). exists j, q. split_and!; try done.
    intros ->. by apply (inv_self _ Hi _ _ Hp').
  - intros i p Hp He. destruct (Ho i (key_of p)) as [j Hj]; [cbn; by rewrite list_lookup_fmap, Hp|done|].
    destruct (inv_owner _ Hi j i Hj) as [(k & Hk & Ha) _]. cbn in Hk. apply lookup_fmap_iff in Hk as (q & Hq & ->).
    exists j, q. split_and!; try done. intros j' Hj'. by apply (inv_owner_inj _ Hi _ _ _ Hj' Hj).
Qed.

(** C3: No wakeup of wait is lost: while a process sleeps in wait, none of its
    children is a zombie. *)
Theorem wait_no_lost_wakeup (s : psys) i j p q (Hr : reachable pol forkret_addr null_pid s)
  (Hp : y_tab s !! i = Some p) (Hs : state p = SLEEPING) (Hc : pchan p = CProc i)
  (Hq : y_tab s !! j = Some q) (Hpar : parent q = Some i) : state q <> ZOMBIE.
Proof.
  destruct (reachable_inv _ _ _ _ Hr) as [_ Hi].
  assert (a_tab (abs s) !! i = Some (key_of p)) as Hp' by (cbn; by rewrite list_lookup_fmap, Hp).
  destruct (inv_wait _ Hi _ _ _ Hp' Hs Hc) as [_ Hz]. apply (Hz j (key_of q)); [|done].
  cbn. by rewrite list_lookup_fmap, Hq.
Qed.
End reachable.

(** ** An instance of the services, and a run on it

    Memory never runs out, files and inodes are numbers. *)
Definition toy_services : Services unit := {|
  sv_kalloc := mret 4096; sv_kfree := λ _, mret tt; sv_setupkvm := mret 8192;
  sv_inituvm := λ _, mret tt; sv_copyuvm := λ _ _, mret 12288; sv_freevm := λ _, mret tt;
  sv_allocuvm := λ _ _ n, mret n; sv_deallocuvm := λ _ _ n, mret n; sv_switchuvm := λ _, mret tt;
  sv_filedup := λ f, mret f; sv_fileclose := λ _, mret tt; sv_idup := λ i, mret i;
  sv_iput := λ _, mret tt; sv_begin_op := mret tt; sv_end_op := mret tt;
  sv_namei_root := mret (Some 1%nat)
|}.
#[local] Existing Instance toy_services.

Definition exec {A} (c : nat) (m : M (pst unit) A) (s : psys) : psys :=
  match m (view true false c s) with Ret _ v => back c v s | _ => s end.

Lemma run_exec {A} c (m : M (pst unit) A) s r :
  wp m (λ r' v, r' = r /\ plock v = false) (view true false c s) -> run c m s r (exec c m s).
Proof.
  unfold wp, exec. destruct (m _) as [r' v| |] eqn:E; [|done..]. intros [-> Hl].
  by exists true, false, v.
Qed.

Definition t_boot : psys :=
  match userinit (Mlfq 5) 100 (mkPst zero_table false None 1 None true 0 false tt) with
  | Ret _ v => mkSys (ptab v) (initproc v) (nextpid v) (λ _, None) (λ _, PRun) (other v)
  | _ => mkSys [] None 0 (λ _, None) (λ _, PRun) tt
  end.
Definition t_run : psys := exec 0 (dispatch_section 0) t_boot.
Definition t_alloc : psys := goto 0 (PFork 1) (exec 0 (alloc_slot (Mlfq 5)) t_run).
Definition t_stack : psys := goto 0 (PBody 1) (exec 0 (alloc_kstack 100 1) t_alloc).
Definition t_body : psys := goto 0 (PPub 1) (exec 0 (fork_body id 0 1) t_stack).
Definition t_child : psys := goto 0 PRun (exec 0 (publish 1) t_body).
(** The parent sleeps in wait and the child runs on CPU 1. *)
Definition t_wait : psys := exec 0 (switched_opt wait) t_child.
Definition t_both : psys := exec 1 (dispatch_section 1) t_wait.

Lemma t_boot_boot : boot (Mlfq 5) 100 t_boot.
Proof. exists true, false, tt. eexists. split; [vm_compute; reflexivity|]. vm_compute. reflexivity. Qed.

Lemma t_both_step : pstep (Mlfq 5) 100 0 t_wait t_both.
Proof.
  eapply (P_dispatch _ _ _ _ 1 1); [vm_compute; reflexivity..|].
  unfold t_both. apply run_exec. by vm_compute.
Qed.

Lemma t_wait_reachable : reachable (Mlfq 5) 100 0 t_wait.
Proof.
  exists t_boot. split; [apply t_boot_boot|].
  apply rtc_l with t_run.
  { eapply (P_dispatch _ _ _ _ 0 0); [vm_compute; reflexivity..|].
    apply (run_exec 0 (dispatch_section 0) t_boot tt). by vm_compute. }
  apply rtc_l with t_alloc.
  { apply (P_alloc _ _ _ _ 0 0 (Some 1%nat)); [by vm_compute..|].
    apply (run_exec 0 (alloc_slot (Mlfq 5)) t_run (Some 1%nat)). by vm_compute. }
  apply rtc_l with t_stack.
  { apply (P_kstack _ _ _ _ 0 0 1 (Some 1%nat)); [by vm_compute..|].
    apply (run_exec 0 (alloc_kstack 100 1) t_alloc (Some 1%nat)). by vm_compute. }
  apply rtc_l with t_body.
  { apply (P_body _ _ _ _ 0 0 1 id true); [by vm_compute..|].
    apply (run_exec 0 (fork_body id 0 1) t_stack true). by vm_compute. }
  apply rtc_l with t_child.
  { apply (P_publish _ _ _ _ 0 0 1); [by vm_compute..|].
    apply (run_exec 0 (publish 1) t_body tt). by vm_compute. }
  apply rtc_once. apply (P_wait _ _ _ _ 0 0); [by vm_compute..|].
  unfold t_wait. apply run_exec. by vm_compute.
Qed.

Lemma t_both_reachable : reachable (Mlfq 5) 100 0 t_both.
Proof.
  destruct t_wait_reachable as (s0 & Hb & Hr). exists s0. split; [done|].
  eapply rtc_r; [done|apply t_both_step].
Qed.

Lemma proc_refinement_witness :
  exists a', rtc astep (abs t_wait) a' /\ abs t_both ≡ₐ a'.
Proof. apply (proc_refinement (Mlfq 5) 100 0 t_wait t_both t_wait_reachable t_both_step). Defined.

Definition slot (s : @psys unit) (i : nat) : proc := default proc_zero (y_tab s !! i).

Lemma pids_unique_witness :
  0 < pid (slot t_both 0) /\ (pid (slot t_both 0) = pid (slot t_both 1) -> 0%nat = 1%nat).
Proof.
  apply (pids_unique (Mlfq 5) 100 0 t_both 0 1 _ _ t_both_reachable);
    first [vm_compute; reflexivity | vm_compute; discriminate].
Defined.

Lemma running_on_one_cpu_witness :
  (state (slot t_both 1) = RUNNING <-> exists c, y_cpu t_both c = Some 1%nat) /\
  (forall c d, y_cpu t_both c = Some 1%nat -> y_cpu t_both d = Some 1%nat -> c = d).
Proof. apply (running_on_one_cpu (Mlfq 5) 100 0 t_both 1 _ t_both_reachable). vm_compute. reflexivity. Defined.

Lemma parents_alive_witness :
  exists j q, parent (slot t_both 1) = Some j /\ j <> 1%nat /\ y_tab t_both !! j = Some q /\ alive (state q).
Proof.
  apply (proj1 (proj2 (parents_alive (Mlfq 5) 100 0 t_both t_both_reachable)) 1%nat (slot t_both 1));
    [vm_compute; reflexivity|vm_compute; discriminate..].
Defined.

Lemma wait_no_lost_wakeup_witness : state (slot t_both 1) <> ZOMBIE.
Proof.
  apply (wait_no_lost_wakeup (Mlfq 5) 100 0 t_both 0 1 (slot t_both 0) _ t_both_reachable);
    vm_compute; reflexivity.
Defined.

(** ** The switch to the scheduler *)
Section switch.
Context {W : Type} {SV : Services W}.

(** The lock and interrupt state inside a critical section entered with no
    lock held and interrupts [b]. *)
Definition locked_with (b : bool) (v : pst W) : Prop :=
  plock v = true /\ pncli v = 1 /\ intr v = false /\ pintena v = b.

Lemma wp_acquire b e c s Q :
  (forall v, locked_with b v -> ptab v = y_tab s -> initproc v = y_init s -> cur v = y_cpu s c -> Q tt v) ->
  wp acquire_ptable Q (view (W := W) b e c s).
Proof. intros HQ. apply HQ; done. Qed.

Lemma wp_acquire_gen (v : pst W) Q : plock v = false ->
  Q tt (mkPst (ptab v) true (initproc v) (nextpid v) (cur v) false (pncli v + 1)
          (if (pncli v =? 0)%Z then intr v else pintena v) (other v)) ->
  wp acquire_ptable Q v.
Proof. intros Hl HQ. unfold acquire_ptable. apply wp_bind, wp_get. by rewrite Hl. Qed.

Lemma wp_myproc i (v : pst W) Q : cur v = Some i -> Q i v -> wp myproc Q v.
Proof. intros Hc HQ. unfold wp, myproc, mbind, M_bind, gets. by rewrite Hc. Qed.

Lemma wp_sched_out b i p (v : pst W) Q :
  locked_with b v -> cur v = Some i -> ptab v !! i = Some p -> state p <> RUNNING ->
  Q b v -> wp sched_out Q v.
Proof.
  intros (Hl & Hn & Hf & He) Hc Hp Hs HQ. unfold sched_out. apply wp_bind.
  apply (wp_myproc i); [done|]. apply wp_bind. unfold pread. apply wp_gets. rewrite Hp. apply wp_bind, wp_get.
  cbn. rewrite Hl, Hn, Hf. cbn. rewrite bool_decide_false by done. apply wp_ret. by rewrite He.
Qed.

Lemma wp_reparent_loop i b lo n (v : pst W) Q :
  locked_with b v -> 
  (forall v', locked_with b v' -> cur v' = cur v -> length (ptab v') = length (ptab v) -> Q tt v') ->
  wp (for_range lo n (reparent i)) Q v.
Proof.
  revert lo v. induction n as [|n IH]; intros lo v Hl HQ; cbn [for_range]; [by apply wp_ret, HQ|].
  apply wp_bind. unfold reparent at 1. apply wp_bind. unfold pread. apply wp_gets. apply wp_bind, wp_gets.
  case_bool_decide; [|apply wp_ret; by apply IH].
  apply wp_bind. unfold pupd. apply wp_modify. unfold when, wakeup1. case_bool_decide;
    [apply wp_modify|apply wp_ret]; (apply IH; [done|]); intros v' ? Hc Hlen; apply HQ; try done;
    cbn in Hlen; by rewrite ?length_fmap, ?length_alter in Hlen.
Qed.

(** In a reachable state no process can make [sched] panic: yield, every
    sleep and the end of exit reach the scheduler with ptable.lock held, one
    level of interrupt nesting, interrupts off and the process not RUNNING, and
    the saved [intena] is the interrupt state at the entry. *)
Theorem sched_never_panics pol forkret_addr null_pid (s : psys (W := W)) c i b e
  (Hr : reachable pol forkret_addr null_pid s) (Hc : y_cpu s c = Some i) :
  wp yield_enter (λ saved v, saved = b /\ locked_with b v) (view b e c s) /\
  (forall ch, wp (acquire_other ;; sleep ch LkOther)
     (λ saved v, saved = b /\ locked_with b v) (view b e c s)) /\
  wp (exit_final i) (λ saved v, saved = b /\ locked_with b v) (view b e c s).
Proof.
  destruct (reachable_inv _ _ _ _ Hr) as [_ Hi]. destruct (inv_cpu _ Hi c i Hc) as (k & Hk & _).
  cbn in Hk. apply lookup_fmap_iff in Hk as (p & Hp & _).
  split_and!.
  - unfold yield_enter. apply wp_bind, wp_acquire. intros v Hl Ht _ Hcv. rewrite Hc in Hcv.
    apply wp_bind, (wp_myproc i); [done|]. apply wp_bind. unfold pupd. apply wp_modify.
    eapply (wp_sched_out b i (set_state RUNNABLE p)); try done.
    cbn. by rewrite list_lookup_alter_eq, Ht, Hp.
  - intros ch. apply wp_bind. unfold acquire_other. apply wp_modify. cbn [ptab plock initproc nextpid cur intr pncli pintena other view].
    unfold sleep, sleep_enter. apply wp_bind, wp_gets. cbn [cur]. rewrite Hc.
    apply wp_bind, wp_ret, wp_bind, wp_bind, wp_acquire_gen; [done|].
    unfold release_other. apply wp_modify, wp_bind. unfold pupd. apply wp_modify, wp_bind, wp_modify, wp_bind, wp_ret.
    eapply (wp_sched_out b i (set_state SLEEPING (set_chan ch p))); [done..| | |done]; [|done].
    cbn [with_ptab ptab]. by rewrite !list_lookup_alter_eq, Hp.
  - unfold exit_final. apply wp_bind, wp_acquire. intros v Hl Ht _ Hcv. rewrite Hc in Hcv.
    apply wp_bind. unfold pread. apply wp_gets. apply wp_bind. unfold wakeup1 at 1. apply wp_modify.
    apply wp_bind. eapply wp_reparent_loop; [done|]. intros v' Hl' Hc' Hlen. apply wp_bind. unfold pupd.
    apply wp_modify. cbn in Hc', Hlen. rewrite length_fmap in Hlen.
    destruct (lookup_lt_is_Some_2 (ptab v') i) as [q Hq].
    { rewrite Hlen, Ht. by eapply lookup_lt_Some. }
    eapply (wp_sched_out b i (set_state ZOMBIE q)); try done; [by cbn; rewrite Hc'|].
    cbn. by rewrite list_lookup_alter_eq, Hq.
Qed.
End switch.

Lemma sched_never_panics_witness :
  wp yield_enter (λ saved v, saved = true /\ locked_with true v) (view true false 1 t_both) /\
  (forall ch, wp (acquire_other ;; sleep ch LkOther)
     (λ saved v, saved = true /\ locked_with true v) (view true false 1 t_both)) /\
  wp (exit_final 1) (λ saved v, saved = true /\ locked_with true v) (view true false 1 t_both).
Proof.
  apply (sched_never_panics (Mlfq 5) 100 0 t_both 1 1 true false t_both_reachable).
  vm_compute. reflexivity.
Defined.

(** ** fork *)
Section fork.
Context {W : Type} {SV : Services W}.
Context (pol : policy) (forkret_addr : Z).
(** filedup returns the file it is given (file.c). *)
Hypothesis filedup_same : forall f w r w', sv_filedup f w = Ret r w' -> r = f.

(** The child's descriptors after the first [n] were copied. *)
Definition dup_list (pf qf : list (option nat)) (lo n : nat) : list (option nat) :=
  foldl (λ l fd, match pf !! fd with Some (Some f) => <[fd := Some f]> l | _ => l end) qf (seq lo n).

Lemma ext_run {A} (m : M W A) (v : pst W) r v' :
  ext m v = Ret r v' -> exists w, m (other v) = Ret r w /\ v' = with_other w v.
Proof. unfold ext, zoom. destruct (m (other v)); [|done..]. intros [= -> <-]. eauto. Qed.

Lemma dup_fd_ptab i j fd p q (v : pst W) u v' :
  i <> j -> ptab v !! i = Some p -> ptab v !! j = Some q -> dup_fd i j fd v = Ret u v' ->
  ptab v' = alter (set_ofile (match ofile p !! fd with
                              | Some (Some f) => <[fd := Some f]> (ofile q) | _ => ofile q end)) j (ptab v).
Proof.
  intros Hne Hp Hq H. unfold dup_fd in H. apply bind_Ret_inv in H as (p' & v1 & H1 & H).
  injection H1 as <- <-. rewrite Hp in H. change (default proc_zero (Some p)) with p in H.
  assert (alter (set_ofile (ofile q)) j (ptab v) = ptab v) as Hid.
  { apply list_eq. intros m. rewrite list_lookup_alter. case_decide; [subst|done]. rewrite Hq. by destruct q. }
  destruct (ofile p !! fd) as [[f|]|]; [|by injection H as _ <-; rewrite Hid..].
  apply bind_Ret_inv in H as (f' & v2 & Hd & H). apply ext_run in Hd as (w & ->%filedup_same & ->).
  injection H as _ <-. cbn. apply list_alter_ext; [|done]. intros x Hx. by simplify_eq.
Qed.

Lemma dup_loop_ptab i j p q lo n (v : pst W) u v' :
  i <> j -> ptab v !! i = Some p -> ptab v !! j = Some q -> for_range lo n (dup_fd i j) v = Ret u v' ->
  ptab v' = alter (set_ofile (dup_list (ofile p) (ofile q) lo n)) j (ptab v).
Proof.
  intros Hne. revert lo v q. induction n as [|n IH]; cbn [for_range]; intros lo v q Hp Hq H.
  - injection H as _ <-. apply list_eq. intros m. rewrite list_lookup_alter. case_decide; [subst|done].
    rewrite Hq. by destruct q.
  - apply bind_Ret_inv in H as (? & v1 & H1 & H). eapply dup_fd_ptab in H1; [|done..].
    assert (ptab v1 !! i = Some p) as Hp1 by (rewrite H1, list_lookup_alter_ne; done).
    pose proof (list_lookup_alter_eq (set_ofile (match ofile p !! lo with
      | Some (Some f) => <[lo := Some f]> (ofile q) | _ => ofile q end)) (ptab v) j) as Hq1.
    rewrite <-H1, Hq in Hq1. apply (IH _ _ _ Hp1 Hq1) in H.
    rewrite H, H1, list_alter_alter_eq. apply list_alter_ext; [|reflexivity]. intros y _. reflexivity.
Qed.

Lemma dup_list_lookup pf n fd : length pf = NOFILE -> (n <= NOFILE)%nat ->
  dup_list pf (replicate NOFILE None) 0 n !! fd =
  if decide (fd < n)%nat then pf !! fd else replicate NOFILE None !! fd.
Proof.
  intros Hl. induction n as [|n IH]; intros Hn; [done|].
  unfold dup_list. rewrite seq_S, foldl_app. cbn [foldl Nat.add].
  fold (dup_list pf (replicate NOFILE None) 0 n). specialize (IH ltac:(lia)).
  assert (length (dup_list pf (replicate NOFILE None) 0 n) = NOFILE) as Hlen.
  { clear. unfold dup_list. generalize (seq 0 n). intros l.
    assert (length (replicate NOFILE (@None nat)) = NOFILE) as H by done. revert H.
    generalize (replicate NOFILE (@None nat)). induction l as [|fd l IH]; intros q Hq; [done|].
    cbn. apply IH. repeat case_match; by rewrite ?length_insert. }
  destruct (lookup_lt_is_Some_2 pf n) as [o Ho]; [lia|]. rewrite Ho.
  destruct (decide (fd = n)) as [->|Hne].
  - rewrite decide_True by lia. rewrite Ho. destruct o as [f|].
    + by rewrite list_lookup_insert_eq by lia.
    + rewrite IH, decide_False by lia. by apply lookup_replicate_2.
  - rewrite (decide_ext (fd < S n)%nat (fd < n)%nat) by lia.
    destruct o; [by rewrite list_lookup_insert_ne by done|done].
Qed.

Lemma dup_list_all pf : length pf = NOFILE -> dup_list pf (replicate NOFILE None) 0 NOFILE = pf.
Proof.
  intros Hl. apply list_eq. intros fd. rewrite dup_list_lookup by done. case_decide; [done|].
  rewrite lookup_ge_None_2 by (rewrite length_replicate; lia). by rewrite lookup_ge_None_2 by lia.
Qed.

Lemma fork_body_ptab uname i j p q (v : pst W) v' :
  i <> j -> ptab v !! i = Some p -> ptab v !! j = Some q ->
  length (ofile p) = NOFILE -> ofile q = replicate NOFILE None ->
  fork_body uname i j v = Ret true v' ->
  exists pg d, pg <> 0 /\
    ptab v' = alter (λ _, mkProc (sz p) pg (kstack q) (state q) (pid q) (Some i) (set_eax 0 (tf p)) (context_eip q)
      (pchan q) (killed q) (ofile p) d (priority q) (tq q) (qlvl q)
      (safestrcpy (name q) (name p) 16) (strncpy (id q) (uname p) 16)) j (ptab v).
Proof.
  intros Hne Hp Hq Hlen Hof H. unfold fork_body in H.
  apply bind_Ret_inv in H as (p' & v1 & H1 & H). injection H1 as <- <-.
  rewrite Hp in H. change (default proc_zero (Some p)) with p in H.
  apply bind_Ret_inv in H as (pg & v1 & [_ Hpt]%ext_kv & H).
  apply bind_Ret_inv in H as (? & v2 & H2 & H). injection H2 as _ <-.
  destruct (Z.eqb_spec pg 0) as [|Hpg].
  { apply bind_Ret_inv in H as (? & ? & _ & H). apply bind_Ret_inv in H as (? & ? & _ & H).
    apply bind_Ret_inv in H as (? & ? & _ & H). apply bind_Ret_inv in H as (? & ? & _ & H). done. }
  do 5 (apply bind_Ret_inv in H as (? & v2 & E & H); injection E as _ <-).
  apply bind_Ret_inv in H as (? & v2 & Hl & H).
  eapply (dup_loop_ptab i j p) in Hl; [|done|..]; cycle 1.
  { cbn. rewrite !list_lookup_alter_ne by done. by rewrite Hpt. }
  { cbn. by rewrite !list_lookup_alter_eq, Hpt, Hq. }
  apply bind_Ret_inv in H as (d & v3 & Hd & H).
  assert (ptab v3 = ptab v2) as Hd' by (destruct (cwd p); [apply bind_Ret_inv in Hd as (? & ? & [_ E]%ext_kv & Hd);
    injection Hd as _ <-; done|done]).
  do 2 (apply bind_Ret_inv in H as (? & ? & E & H); injection E as _ <-). injection H as <-.
  exists pg, d. split; [done|]. cbn [with_ptab ptab]. rewrite Hd', Hl. cbn [with_ptab ptab].
  rewrite Hpt, !list_alter_alter_eq. apply list_alter_ext; [|done].
  intros y Hy. assert (y = q) as -> by congruence.
  change (ofile (set_tf _ _)) with (ofile q). rewrite Hof, dup_list_all by done. reflexivity.
Qed.

Lemma allocproc_ptab (v : pst W) j v' :
  allocproc pol forkret_addr v = Ret (Some j) v' ->
  exists q k, ptab v !! j = Some q /\ state q = UNUSED /\ k <> 0 /\ cur v' = cur v /\
    ptab v' = alter (λ q, set_context forkret_addr (set_kstack k (alloc_init pol (nextpid v) q))) j (ptab v).
Proof.
  unfold allocproc. intros H. apply bind_Ret_inv in H as (o & v1 & Ha & H).
  destruct o as [i|]; [|done]. unfold alloc_slot in Ha.
  apply bind_Ret_inv in Ha as (? & v0 & Hacq & Ha). apply acquire_kv in Hacq as [Hk0 Hp0].
  apply kv_eq in Hk0 as (_ & _ & Hn0 & Hc0).
  apply bind_Ret_inv in Ha as (s & s' & Hs & Ha). injection Hs as <- <-. rewrite Hp0, Hn0 in Ha.
  destruct (find_slot _ _) as [i'|] eqn:Ef; [|by apply bind_Ret_inv in Ha as (? & ? & _ & Ha)].
  apply find_slot_Some in Ef as (q & Hq & Hu). unfold is_unused in Hu. rewrite bool_decide_eq_true in Hu.
  do 2 (apply bind_Ret_inv in Ha as (? & ? & E & Ha); injection E as _ <-).
  apply bind_Ret_inv in Ha as (? & v2 & [Hk2 Hp2]%release_kv & Ha). injection Ha as <- <-.
  apply kv_eq in Hk2 as (_ & _ & _ & Hc2). unfold alloc_kstack in H.
  apply bind_Ret_inv in H as (k & v3 & [Hk3 Hp3]%ext_kv & H). apply kv_eq in Hk3 as (_ & _ & _ & Hc3).
  apply bind_Ret_inv in H as (? & ? & E & H). injection E as _ <-.
  destruct (Z.eqb_spec k 0); apply bind_Ret_inv in H as (? & ? & E & H); [by injection E as _ <-|].
  injection E as _ <-. injection H as <- <-. exists q, k. split_and!; try done.
  - cbn in *. congruence.
  - cbn in *. by rewrite Hp3, Hp2, Hp0, !list_alter_alter_eq.
Qed.

(** A fork that succeeds (fork copies the parent's user name, fork2 takes
    it from its caller) returns a fresh pid, leaves every other slot as it was,
    and turns a free slot into a RUNNABLE child of the caller with a copy of
    its size, trap frame (with eax 0), descriptors, name and user name. *)
Theorem fork_child_spec uname i p (v v' : pst W) r
  (Hc : cur v = Some i) (Hp : ptab v !! i = Some p) (Hu : used p) (Hof : length (ofile p) = NOFILE)
  (Hfree : forall j q, ptab v !! j = Some q -> state q = UNUSED -> ofile q = replicate NOFILE None)
  (Hr : r <> -1) (H : fork_with pol forkret_addr uname v = Ret r v') :
  exists j q np, ptab v !! j = Some q /\ state q = UNUSED /\ r = nextpid v /\
    ptab v' = alter (λ _, np) j (ptab v) /\
    pid np = nextpid v /\ state np = RUNNABLE /\ parent np = Some i /\ sz np = sz p /\
    tf np = set_eax 0 (tf p) /\ ofile np = ofile p /\ context_eip np = forkret_addr /\
    killed np = killed q /\ pgdir np <> 0 /\ kstack np <> 0 /\
    name np = safestrcpy (name q) (name p) 16 /\
    id np = strncpy (strncpy (id q) (bytes_of "root") 4) (uname p) 16.
Proof.
  unfold fork_with in H. apply bind_Ret_inv in H as (i' & v0 & [-> Hi]%myproc_inv & H).
  assert (i' = i) as -> by congruence.
  apply bind_Ret_inv in H as ([j|] & v1 & Ha & H); [|by injection H as <- _].
  apply allocproc_ptab in Ha as (q & k & Hq & Hqu & Hk & _ & Hpt).
  assert (i <> j) as Hne by (intros ->; apply Hu; congruence).
  apply bind_Ret_inv in H as ([|] & v2 & Hb & H); [|by injection H as <- _].
  eapply (fork_body_ptab uname i j p) in Hb; [|done|..]; cycle 1.
  { by rewrite Hpt, list_lookup_alter_ne. }
  { by rewrite Hpt, list_lookup_alter_eq, Hq. }
  { done. }
  { unfold alloc_init, mlfq_reset. destruct pol; by apply (Hfree _ _ Hq). }
  destruct Hb as (pg & d & Hpg & Hb). rewrite Hpt, list_alter_alter_eq in Hb.
  apply bind_Ret_inv in H as (np & v3 & E & H). injection E as <- <-.
  rewrite Hb, list_lookup_alter_eq, Hq in H. 
  apply bind_Ret_inv in H as (? & v3 & Hpub & H). injection H as <- <-.
  unfold publish in Hpub. apply bind_Ret_inv in Hpub as (? & v4 & [_ H4]%acquire_kv & Hpub).
  apply bind_Ret_inv in Hpub as (? & ? & E & [_ H5]%release_kv). injection E as _ <-.
  cbn [with_ptab ptab] in H5. rewrite H4, Hb, list_alter_alter_eq in H5.
  exists j, q. eexists. rewrite H5. split_and!;
    [exact Hq|exact Hqu| |apply list_alter_ext; [intros; cbv beta delta [compose]; reflexivity|reflexivity]|..];
    cbn; try done; unfold alloc_init, mlfq_reset; by destruct pol.
Qed.
End fork.

(** A state with init (slot 0) running on CPU 0, seen by that CPU. *)
Definition t_view : pst unit := view true false 0 t_run.
Definition t_forked : Z * pst unit :=
  match fork (Mlfq 5) 100 t_view with Ret r v => (r, v) | _ => (-1, t_view) end.

Lemma fork_child_spec_witness : exists j q np, ptab t_view !! j = Some q /\ state q = UNUSED /\
  fst t_forked = nextpid t_view /\ ptab (snd t_forked) = alter (λ _, np) j (ptab t_view) /\
  pid np = nextpid t_view /\ state np = RUNNABLE /\ parent np = Some 0%nat /\ sz np = sz (slot t_run 0) /\
  tf np = set_eax 0 (tf (slot t_run 0)) /\ ofile np = ofile (slot t_run 0) /\ context_eip np = 100 /\
  killed np = killed q /\ pgdir np <> 0 /\ kstack np <> 0 /\
  name np = safestrcpy (name q) (name (slot t_run 0)) 16 /\
  id np = strncpy (strncpy (id q) (bytes_of "root") 4) (id (slot t_run 0)) 16.
Proof.
  apply (fork_child_spec (Mlfq 5) 100).
  - intros f w r w' H. by injection H.
  - vm_compute; reflexivity.
  - vm_compute; reflexivity.
  - vm_compute; discriminate.
  - vm_compute; reflexivity.
  - intros [|j] q Hq.
    + vm_compute in Hq. by injection Hq as <-.
    + assert (tail (ptab t_view) !! j = Some q) as Hq' by done.
      replace (tail (ptab t_view)) with (replicate 63 proc_zero) in Hq' by (vm_compute; reflexivity).
      by apply lookup_replicate in Hq' as [-> _].
  - vm_compute; discriminate.
  - vm_compute; reflexivity.
Defined.

Section calls.
Context {W : Type} {SV : Services W}.

(** Kill matches a slot by pid only, free slots included, and allocproc does
    not clear [killed]: in a state where no lock is held and the first slot
    with pid 0 is the first free slot, kill(0) reports success and the next
    process allocated is born killed. *)
Theorem kill_free_slot_poisons_next pol (v : pst W) j
  (Hl : plock v = false) (Hn : pncli v = 0)
  (Hu : find_slot is_unused (ptab v) = Some j)
  (Hz : find_slot (λ p, pid p =? 0)%Z (ptab v) = Some j) :
  exists v1 v2 p, kill 0 v = Ret 0 v1 /\ alloc_slot pol v1 = Ret (Some j) v2 /\
    ptab v2 !! j = Some p /\ killed p = 1 /\ state p = EMBRYO /\ pid p = nextpid v.
Proof.
  destruct (find_slot_Some _ _ _ Hu) as (q & Hq & Hqu). unfold is_unused in Hqu.
  rewrite bool_decide_eq_true in Hqu.
  assert (find_slot is_unused (alter kill_proc j (ptab v)) = Some j) as Hu'.
  { unfold find_slot in *. apply fmap_Some in Hu as ([j' q'] & Hf & Ej). cbn in Ej. subst j'.
    apply fmap_Some. exists (j, kill_proc q). split; [|done].
    apply list_find_Some in Hf as (Hq' & _ & Hmin). apply list_find_Some. split_and!.
    - by rewrite list_lookup_alter_eq, Hq.
    - unfold is_unused, kill_proc. cbn. rewrite (bool_decide_false (state q = SLEEPING)) by congruence.
      apply bool_decide_eq_true. done.
    - intros i y Hy Hi. rewrite list_lookup_alter_ne in Hy by lia. by eapply Hmin. }
  eexists _, _, _. split; [|split].
  - unfold kill, acquire_ptable, release_ptable, mbind, M_bind, get, modify, mret, M_ret, put, with_ptab.
    cbn -[find_slot]. rewrite Hl. cbn -[find_slot]. rewrite Hz. cbn. rewrite Hn. cbn. reflexivity.
  - unfold alloc_slot, acquire_ptable, release_ptable, mbind, M_bind, get, mret, M_ret, put.
    cbn -[find_slot]. rewrite Hu'. cbn. reflexivity.
  - cbn. rewrite !list_lookup_alter_eq, Hq. cbn. split; [reflexivity|].
    unfold alloc_init, mlfq_reset, kill_proc. cbn. rewrite bool_decide_false by congruence. by destruct pol.
Qed.

(** growproc returns -1 when memory runs out but keeps ptable.lock: the next
    acquire on the CPU panics. *)
Theorem growproc_failure_keeps_lock n i w (v : pst W)
  (Hl : plock v = false) (Hc : cur v = Some i) (Hn : 0 < n)
  (Hfail : let p := default proc_zero (ptab v !! i) in
           sv_allocuvm (pgdir p) (sz p) (u32 (sz p + n)) (other v) = Ret 0 w) :
  exists v', growproc n v = Ret (-1) v' /\ plock v' = true /\
    (forall A (k : unit -> M (pst W) A), (acquire_ptable ≫= k) v' = Panic "acquire").
Proof.
  cbn zeta in Hfail. set (p := default proc_zero (ptab v !! i)) in *.
  eexists. split; [|split].
  - unfold growproc, myproc, acquire_ptable, pread, ext, zoom, mbind, M_bind, gets, get, put, mret, M_ret.
    rewrite Hc. cbn -[from_option lookup u32]. rewrite Hl. cbn -[from_option lookup u32]. fold p.
    rewrite (proj2 (Z.ltb_lt 0 n) Hn). cbn -[from_option lookup u32]. rewrite Hfail.
    rewrite (proj2 (Z.eqb_neq n 0)) by lia. reflexivity.
  - reflexivity.
  - intros. reflexivity.
Qed.
End calls.

Lemma kill_free_slot_poisons_next_witness :
  exists v1 v2 p, kill 0 t_view = Ret 0 v1 /\ alloc_slot (Mlfq 5) v1 = Ret (Some 1%nat) v2 /\
    ptab v2 !! 1%nat = Some p /\ killed p = 1 /\ state p = EMBRYO /\ pid p = nextpid t_view.
Proof. apply (kill_free_slot_poisons_next (Mlfq 5) t_view 1); vm_compute; reflexivity. Defined.

(** The services of a machine that is out of memory. *)
Definition full_services : Services unit := {|
  sv_kalloc := mret 0; sv_kfree := λ _, mret tt; sv_setupkvm := mret 0;
  sv_inituvm := λ _, mret tt; sv_copyuvm := λ _ _, mret 0; sv_freevm := λ _, mret tt;
  sv_allocuvm := λ _ _ _, mret 0; sv_deallocuvm := λ _ _ n, mret n; sv_switchuvm := λ _, mret tt;
  sv_filedup := λ f, mret f; sv_fileclose := λ _, mret tt; sv_idup := λ i, mret i;
  sv_iput := λ _, mret tt; sv_begin_op := mret tt; sv_end_op := mret tt;
  sv_namei_root := mret (Some 1%nat)
|}.

Lemma growproc_failure_keeps_lock_witness :
  exists v', growproc (SV := full_services) 4096 t_view = Ret (-1) v' /\ plock v' = true /\
    (forall A (k : unit -> M (pst unit) A), (acquire_ptable ≫= k) v' = Panic "acquire").
Proof.
  apply (growproc_failure_keeps_lock (SV := full_services) 4096 0 tt t_view);
    first [vm_compute; reflexivity | lia].
Defined.
