(* ===== verification/Sched.v ===== *)
(** * The three schedulers (scheduler() of proc.c)

    One pass of each scheduler's outer loop, as a function of the table and of
    what happens while a dispatched process runs.  [slice i l] is the table when
    process [i], dispatched in table [l], has come back to the scheduler: every
    process, interrupt handler and other CPU may have changed it meanwhile. *)

From S2P Require Import Prelude ProcDefs.

Definition runnable (p : proc) : bool := bool_decide (state p = RUNNABLE).

Section pass.
Context (slice : nat -> list proc -> list proc).

(** [c->proc = p; p->state = RUNNING; swtch(...)], up to the return. *)
Definition run_slot (i : nat) (l : list proc) : list proc :=
  slice i (alter (set_state RUNNING) i l).

(** ** Round robin: the dispatched slots, in order, and the final table *)
Fixpoint rr_loop (i n : nat) (l : list proc) : list nat * list proc :=
  match n with
  | O => ([], l)
  | S n' =>
      match l !! i with
      | Some p =>
          if runnable p then
            let '(tr, l') := rr_loop (S i) n' (run_slot i l) in (i :: tr, l')
          else rr_loop (S i) n' l
      | None => rr_loop (S i) n' l
      end
  end.
Definition rr_pass (l : list proc) : list nat * list proc := rr_loop 0 NPROC l.

(** ** Multilevel: even pids in turn, else the odd pid that is smallest

    The loop remembers the slot of the odd process chosen so far and whether an
    even process was found; the trace has the dispatched slots with their pids. *)
Fixpoint ml_loop (i n : nat) (odd : option nat) (even : bool) (l : list proc)
  : list (nat * Z) * list proc * option nat * bool :=
  match n with
  | O => ([], l, odd, even)
  | S n' =>
      match l !! i with
      | Some p =>
          if negb (runnable p) then ml_loop (S i) n' odd even l
          else if (Z.rem (pid p) 2 =? 0) then
            let '(tr, l', o, e) := ml_loop (S i) n' odd true (run_slot i l) in ((i, pid p) :: tr, l', o, e)
          else if (Z.rem (pid p) 2 =? 1) then
            match odd with
            | None => ml_loop (S i) n' (Some i) even l
            | Some k =>
                if (pid p <? pid (default proc_zero (l !! k))) then ml_loop (S i) n' (Some i) even l
                else ml_loop (S i) n' odd even l
            end
          else ml_loop (S i) n' odd even l
      | None => ml_loop (S i) n' odd even l
      end
  end.

Definition ml_pass (l : list proc) : list (nat * Z) * list proc :=
  let '(tr, l', odd, even) := ml_loop 0 NPROC None false l in
  match odd with
  | Some k => if even then (tr, l') else (tr ++ [(k, pid (default proc_zero (l' !! k)))], run_slot k l')
  | None => (tr, l')
  end.
End pass.

(** ** MLFQ: one process per pass *)

(** The body of the loop: the process selected so far and the next one. *)
Definition mlfq_better (s p : proc) : bool :=
  if (qlvl p <? qlvl s) then true
  else if (qlvl s =? qlvl p) then
    ((tq s =? 0) && (priority s <? priority p)) || ((tq s =? 0) && negb (tq p =? 0))
  else false.

Definition mlfq_eligible (K : Z) (p : proc) : bool := runnable p && negb (qlvl p =? K).

Fixpoint mlfq_loop (K : Z) (l : list proc) (i : nat) (sel : option (nat * proc)) : option (nat * proc) :=
  match l with
  | [] => sel
  | p :: l' =>
      mlfq_loop K l' (S i)
        (if negb (mlfq_eligible K p) then sel
         else match sel with
              | None => Some (i, p)
              | Some (j, s) => if mlfq_better s p then Some (i, p) else sel
              end)
  end.
Definition mlfq_select (K : Z) (l : list proc) : option nat := fst <$> mlfq_loop K l 0 None.

(** ** Round robin does not starve anybody *)
Section rr.
Context (slice : nat -> list proc -> list proc).

Definition runnable_at (k : nat) (l : list proc) : Prop := exists p, l !! k = Some p /\ state p = RUNNABLE.

Lemma runnable_at_true k l p : l !! k = Some p -> runnable_at k l -> runnable p = true.
Proof. intros Hk (q & Hq & Hs). simplify_eq. unfold runnable. by apply bool_decide_eq_true. Qed.

Lemma rr_loop_sorted n : forall i l, let tr := (rr_loop slice i n l).1 in
  StronglySorted lt tr /\ Forall (λ k, i <= k < i + n)%nat tr.
Proof.
  induction n as [|n IH]; intros i l; cbn; [by split; constructor|].
  assert (forall l', let tr := (rr_loop slice (S i) n l').1 in
    StronglySorted lt tr /\ Forall (λ k, i <= k < i + S n)%nat tr) as IH'.
  { intros l'. destruct (IH (S i) l') as [? Hf]. split; [done|]. eapply Forall_impl; [exact Hf|]. cbn. lia. }
  destruct (l !! i) as [p|]; [|apply IH']. destruct (runnable p); [|apply IH'].
  destruct (IH (S i) (run_slot slice i l)) as [Hs Hf].
  destruct (rr_loop slice (S i) n (run_slot slice i l)) as [tr l']. cbn in *. split.
  - constructor; [done|]. eapply Forall_impl; [exact Hf|]. cbn. lia.
  - constructor; [lia|]. eapply Forall_impl; [exact Hf|]. cbn. lia.
Qed.

Lemma rr_loop_reaches k n : forall i l, (i <= k < i + n)%nat ->
  (forall j l, j <> k -> runnable_at k l -> runnable_at k (slice j l)) ->
  runnable_at k l -> k ∈ (rr_loop slice i n l).1.
Proof.
  induction n as [|n IH]; intros i l Hk Hkeep Hr; [lia|]. cbn.
  destruct (decide (i = k)) as [->|Hne].
  - destruct Hr as (p & Hp & Hs). rewrite Hp. unfold runnable. rewrite bool_decide_true by done.
    destruct (rr_loop _ _ _ _) as [tr l']. cbn. constructor.
  - destruct (l !! i) as [p|]; [|by apply IH; [lia|..]].
    destruct (runnable p); [|by apply IH; [lia|..]].
    assert (k ∈ (rr_loop slice (S i) n (run_slot slice i l)).1) as Hin.
    { apply IH; [lia|done|]. unfold run_slot. apply Hkeep; [done|].
      destruct Hr as (q & Hq & Hs). exists q. by rewrite list_lookup_alter_ne. }
    destruct (rr_loop _ _ _ _) as [tr l']. cbn in *. by constructor.
Qed.

(** C37: Round robin is fair: whatever the other processes do while they run, a
    process that stays RUNNABLE is dispatched in the current pass, and no slot
    is dispatched twice in a pass. *)
Theorem rr_no_starvation k l (Hk : (k < NPROC)%nat) (Hr : runnable_at k l)
  (Hkeep : forall j l, j <> k -> runnable_at k l -> runnable_at k (slice j l)) :
  k ∈ (rr_pass slice l).1 /\ NoDup (rr_pass slice l).1 /\ (length (rr_pass slice l).1 <= NPROC)%nat.
Proof.
  unfold rr_pass. split; [apply rr_loop_reaches; [lia|done..]|].
  destruct (rr_loop_sorted NPROC 0 l) as [Hs Hf].
  assert (NoDup (rr_loop slice 0 NPROC l).1) as Hnd.
  { revert Hs. generalize (rr_loop slice 0 NPROC l).1. induction 1 as [|x t Hs IH Hlt]; constructor; [|done].
    intros Hin. rewrite Forall_forall in Hlt. specialize (Hlt _ Hin). lia. }
  split; [done|]. rewrite <-(length_seq NPROC 0). apply submseteq_length, NoDup_submseteq; [done|].
  intros x Hx. rewrite Forall_forall in Hf. specialize (Hf _ Hx). cbn in Hf. by apply elem_of_seq.
Qed.
End rr.

(** ** What MLFQ selects *)

(** A process that may run: RUNNABLE, and not moved out to level K. *)
Definition waits (K : Z) (p : proc) : Prop := state p = RUNNABLE /\ qlvl p <> K.

(** [i] is the slot to run next: the lowest level in use; in it, the first
    process in the middle of a time quantum, or else the first of those with
    the highest priority. *)
Record mlfq_choice (K : Z) (l : list proc) (i : nat) (p : proc) : Prop := {
  mc_at : l !! i = Some p;
  mc_waits : waits K p;
  mc_level j q : l !! j = Some q -> waits K q -> qlvl p <= qlvl q;
  mc_quantum j q : l !! j = Some q -> waits K q -> qlvl q = qlvl p ->
    tq q <> 0 -> tq p <> 0 /\ (i <= j)%nat;
  mc_priority j q : l !! j = Some q -> waits K q -> qlvl q = qlvl p ->
    tq p = 0 -> priority q <= priority p /\ ((j < i)%nat -> priority q < priority p)
}.

Lemma eligible_waits K p : mlfq_eligible K p = true <-> waits K p.
Proof. unfold mlfq_eligible, runnable, waits. by rewrite andb_true_iff, bool_decide_eq_true, negb_true_iff, Z.eqb_neq. Qed.

(** The policy names one slot. *)
Lemma mlfq_choice_unique K l i j p q : mlfq_choice K l i p -> mlfq_choice K l j q -> i = j.
Proof.
  intros [Ha Hw Hl Hq Hp] [Ha' Hw' Hl' Hq' Hp']. pose proof (Hl _ _ Ha' Hw'). pose proof (Hl' _ _ Ha Hw).
  assert (qlvl p = qlvl q) as E by lia. specialize (Hq _ _ Ha' Hw' ltac:(done)). specialize (Hq' _ _ Ha Hw ltac:(done)).
  specialize (Hp _ _ Ha' Hw' ltac:(done)). specialize (Hp' _ _ Ha Hw ltac:(done)).
  destruct (decide (tq p = 0)) as [Ep|Np], (decide (tq q = 0)) as [Eq|Nq]; naive_solver lia.
Qed.

Definition mlfq_sel_ok (K : Z) (l : list proc) (sel : option (nat * proc)) : Prop :=
  match sel with
  | Some (i, p) => mlfq_choice K l i p
  | None => forall j q, l !! j = Some q -> ~ waits K q
  end.

(** A slot of a table extended by one process. *)
Lemma lookup_snoc_cases (l : list proc) x j q : (l ++ [x]) !! j = Some q ->
  (l !! j = Some q /\ (j < length l)%nat) \/ (j = length l /\ q = x).
Proof.
  intros [Hj|[Hj Hq]]%lookup_app_Some.
  - left. split; [done|]. by eapply lookup_lt_Some.
  - right. apply list_lookup_singleton_Some in Hq as [? <-]. split; [lia|done].
Qed.

Lemma mlfq_keep K l x sel : mlfq_sel_ok K l sel -> ~ waits K x ->
  mlfq_sel_ok K (l ++ [x]) sel.
Proof.
  intros Hs Hx. destruct sel as [[i p]|]; cbn in *.
  - destruct Hs as [Ha He Hl Hq Hp]. constructor; [by apply lookup_app_l_Some|done|..];
      intros j q [[Hj ?]|[-> ->]]%lookup_snoc_cases; eauto; by intros.
  - intros j q [[Hj ?]|[-> ->]]%lookup_snoc_cases; eauto.
Qed.

Lemma mlfq_first K l x : mlfq_sel_ok K l None -> waits K x ->
  mlfq_sel_ok K (l ++ [x]) (Some (length l, x)).
Proof.
  intros Hs Hx. constructor; [by apply list_lookup_middle|done|..];
    intros j q [[Hj%Hs ?]|[-> ->]]%lookup_snoc_cases; try done; lia.
Qed.

Lemma mlfq_stay K l x i p : mlfq_choice K l i p -> waits K x -> mlfq_better p x = false ->
  mlfq_choice K (l ++ [x]) i p.
Proof.
  intros [Ha He Hl Hq Hp] Hx Hb. unfold mlfq_better in Hb.
  pose proof (lookup_lt_Some _ _ _ Ha).
  destruct (Z.ltb_spec (qlvl x) (qlvl p)); [done|].
  constructor; [by apply lookup_app_l_Some|done|..]; intros j q [[Hj ?]|[-> ->]]%lookup_snoc_cases; eauto; intros.
  - rewrite (proj2 (Z.eqb_eq _ _)) in Hb by congruence. apply orb_false_iff in Hb as [_ Hb].
    destruct (Z.eqb_spec (tq p) 0), (Z.eqb_spec (tq x) 0); cbn in Hb; try done. lia.
  - rewrite (proj2 (Z.eqb_eq _ _)) in Hb by congruence. apply orb_false_iff in Hb as [Hb _].
    rewrite (proj2 (Z.eqb_eq (tq p) 0)) in Hb by done. cbn in Hb. apply Z.ltb_ge in Hb. lia.
Qed.

Lemma mlfq_replace K l x i p : mlfq_choice K l i p -> waits K x -> mlfq_better p x = true ->
  mlfq_choice K (l ++ [x]) (length l) x.
Proof.
  intros [Ha He Hl Hq Hp] Hx Hb. unfold mlfq_better in Hb.
  assert (qlvl x <= qlvl p) as Hle by (destruct (Z.ltb_spec (qlvl x) (qlvl p)), (Z.eqb_spec (qlvl p) (qlvl x)); try done; lia).
  assert (qlvl x = qlvl p -> tq p = 0 /\ (priority p < priority x \/ tq x <> 0)) as Hsame.
  { intros Hx'. rewrite (proj2 (Z.ltb_ge _ _)), (proj2 (Z.eqb_eq _ _)) in Hb by lia.
    destruct (Z.eqb_spec (tq p) 0); [|done]. split; [done|]. cbn in Hb.
    destruct (Z.ltb_spec (priority p) (priority x)); [by left|]. right. cbn in Hb.
    by apply negb_true_iff, Z.eqb_neq in Hb. }
  constructor; [by apply list_lookup_middle|done|..]; intros j q [[Hj Hjl]|[-> ->]]%lookup_snoc_cases Hqe.
  - specialize (Hl _ _ Hj Hqe). lia.
  - lia.
  - intros Hqx Htq. specialize (Hl _ _ Hj Hqe). assert (qlvl x = qlvl p) as Hxp by lia.
    destruct (Hsame Hxp) as [Htp _]. destruct (Hq _ _ Hj Hqe ltac:(lia) Htq). done.
  - auto.
  - intros Hqx Htx. specialize (Hl _ _ Hj Hqe). assert (qlvl x = qlvl p) as Hxp by lia.
    destruct (Hsame Hxp) as [Htp [Hlt|]]; [|done]. destruct (Hp _ _ Hj Hqe ltac:(lia) Htp). lia.
  - intros. lia.
Qed.

Lemma mlfq_loop_ok K l : forall pre sel, mlfq_sel_ok K pre sel ->
  mlfq_sel_ok K (pre ++ l) (mlfq_loop K l (length pre) sel).
Proof.
  induction l as [|x l IH]; intros pre sel Hs; cbn; [by rewrite app_nil_r|].
  rewrite (cons_middle x pre l), (assoc_L (++)).
  replace (S (length pre)) with (length (pre ++ [x])) by (rewrite length_app; cbn; lia).
  apply IH. pose proof (eligible_waits K x) as Hx. destruct (mlfq_eligible K x); cbn; [apply proj1 in Hx; specialize (Hx eq_refl)|apply mlfq_keep; [done|]; intros ?%Hx; done].
  destruct sel as [[i p]|]; [|by apply mlfq_first].
  destruct (mlfq_better p x) eqn:Hb; [by eapply mlfq_replace|by apply mlfq_stay].
Qed.

Lemma mlfq_select_choice K l :
  match mlfq_select K l with
  | Some i => exists p, mlfq_choice K l i p
  | None => forall j q, l !! j = Some q -> ~ waits K q
  end.
Proof.
  pose proof (mlfq_loop_ok K l [] None) as H. cbn in H. unfold mlfq_select.
  destruct (mlfq_loop K l 0 None) as [[i p]|]; cbn in *; [|by apply H].
  exists p. by apply H.
Qed.

(** C36: MLFQ runs a process exactly when some RUNNABLE process is at another level
    than K, the level of those whose time is used up, and then the only one its
    policy names: in the lowest level in use the first process in the middle of its
    quantum, else the first of the highest priority. *)
Theorem mlfq_select_spec K l :
  match mlfq_select K l with
  | Some i => (exists p, mlfq_choice K l i p) /\ forall j q, mlfq_choice K l j q -> j = i
  | None => forall j q, l !! j = Some q -> ~ (state q = RUNNABLE /\ qlvl q <> K)
  end.
Proof.
  pose proof (mlfq_select_choice K l) as H. destruct (mlfq_select K l) as [i|]; [|exact H]. split; [done|].
  destruct H as [p Hp]. intros j q Hq. by eapply mlfq_choice_unique.
Qed.

(** ** Multilevel: even pids first, then the smallest odd pid *)
Section ml.
Context (slice : nat -> list proc -> list proc).

Definition even_pid (pd : Z) : Prop := Z.rem pd 2 = 0.

(** The trace of the loop has even pids, and the flag says whether it is empty. *)
Lemma ml_loop_trace n : forall i odd even l,
  let '(tr, _, _, e) := ml_loop slice i n odd even l in
  Forall (λ x, even_pid x.2) tr /\ (e = false -> tr = [] /\ even = false).
Proof.
  induction n as [|n IH]; intros i odd even l; cbn; [by split; [constructor|]|].
  destruct (l !! i) as [p|]; [|apply IH]. destruct (negb (runnable p)); [apply IH|].
  destruct (Z.eqb_spec (Z.rem (pid p) 2) 0) as [He|He].
  - specialize (IH (S i) odd true (run_slot slice i l)).
    destruct (ml_loop _ _ _ _ _ _) as [[[tr l'] o] e]. destruct IH as [Hf Hn]. split.
    + by constructor.
    + intros He'. by destruct (Hn He').
  - destruct (_ =? 1); [|apply IH]. destruct odd as [k|]; [|apply IH]. destruct (_ <? _); apply IH.
Qed.

(** The odd process remembered after the slots below [i]. *)
Definition odd_min (l : list proc) (i : nat) (odd : option nat) : Prop :=
  (forall j q, (j < i)%nat -> l !! j = Some q -> state q = RUNNABLE -> Z.rem (pid q) 2 <> 0) /\
  match odd with
  | None => forall j q, (j < i)%nat -> l !! j = Some q -> state q = RUNNABLE -> Z.rem (pid q) 2 <> 1
  | Some k => exists p, l !! k = Some p /\ state p = RUNNABLE /\ Z.rem (pid p) 2 = 1 /\
      forall j q, (j < i)%nat -> l !! j = Some q -> state q = RUNNABLE -> Z.rem (pid q) 2 = 1 -> pid p <= pid q
  end.

(** One more slot, whose process is not the new minimum. *)
Lemma odd_min_keep l i odd :
  odd_min l i odd ->
  (forall p, l !! i = Some p -> state p = RUNNABLE ->
     Z.rem (pid p) 2 <> 0 /\
     (Z.rem (pid p) 2 = 1 -> exists k q, odd = Some k /\ l !! k = Some q /\ pid q <= pid p)) ->
  odd_min l (S i) odd.
Proof.
  intros [H1 H2] Hi. split.
  - intros j q Hj Hq Hr. destruct (decide (j = i)) as [->|]; [by apply Hi|by apply (H1 j q); [lia|..]].
  - destruct odd as [k|].
    + destruct H2 as (p & Hp & Hpr & Hpo & Hmin). exists p. split_and!; [done..|].
      intros j q Hj Hq Hr Ho. destruct (decide (j = i)) as [->|]; [|by apply (Hmin j q); [lia|..]].
      destruct (proj2 (Hi _ Hq Hr) Ho) as (k' & q' & [= <-] & Hq' & ?). by simplify_eq.
    + intros j q Hj Hq Hr Ho. destruct (decide (j = i)) as [->|]; [|by apply (H2 j q); [lia|..]].
      destruct (proj2 (Hi _ Hq Hr) Ho) as (k' & q' & ? & _). done.
Qed.

Lemma odd_min_take l i p odd :
  odd_min l i odd -> l !! i = Some p -> state p = RUNNABLE -> Z.rem (pid p) 2 = 1 ->
  (forall k q, odd = Some k -> l !! k = Some q -> pid p < pid q) -> odd_min l (S i) (Some i).
Proof.
  intros [H1 H2] Hp Hr Ho Hlt. split.
  - intros j q Hj Hq Hqr. destruct (decide (j = i)) as [->|]; [|by apply (H1 j q); [lia|..]].
    simplify_eq. lia.
  - exists p. split_and!; [done..|]. intros j q Hj Hq Hqr Hqo.
    destruct (decide (j = i)) as [->|]; [by simplify_eq|].
    destruct odd as [k|]; [|by destruct (H2 j q ltac:(lia) Hq Hqr Hqo)].
    destruct H2 as (p' & Hp' & _ & _ & Hmin). specialize (Hmin j q ltac:(lia) Hq Hqr Hqo).
    specialize (Hlt k p' eq_refl Hp'). lia.
Qed.

(** Without an even process nothing runs in the loop, which finds the minimum. *)
Lemma ml_loop_odd n : forall i odd l l' o tr,
  odd_min l i odd -> ml_loop slice i n odd false l = (tr, l', o, false) ->
  l' = l /\ odd_min l (i + n) o.
Proof.
  induction n as [|n IH]; intros i odd l l' o tr Hm; cbn.
  { intros [= <- <- <-]. by rewrite Nat.add_0_r. }
  rewrite <-Nat.add_succ_comm. destruct (l !! i) as [p|] eqn:Hp.
  2: { apply IH. apply odd_min_keep; [done|]. congruence. }
  unfold runnable. case_bool_decide as Hr; cbn.
  2: { apply IH. apply odd_min_keep; [done|]. congruence. }
  destruct (Z.eqb_spec (Z.rem (pid p) 2) 0) as [He|He].
  { pose proof (ml_loop_trace n (S i) odd true (run_slot slice i l)) as Ht.
    destruct (ml_loop _ _ _ _ _ _) as [[[tr' l''] o'] e]. intros [= <- <- <- ->].
    by destruct (proj2 Ht eq_refl). }
  destruct (Z.eqb_spec (Z.rem (pid p) 2) 1) as [Ho|Ho].
  2: { apply IH. apply odd_min_keep; [done|]. intros. by simplify_eq. }
  destruct odd as [k|]; [|apply IH; by eapply odd_min_take].
  pose proof Hm as [_ (q & Hq & _)]. rewrite Hq. cbn.
  destruct (Z.ltb_spec (pid p) (pid q)).
  - apply IH. eapply odd_min_take; try done. intros k' q' [= <-] ?. by simplify_eq.
  - apply IH. apply odd_min_keep; [done|]. intros. simplify_eq. eauto 8.
Qed.

(** A pass of the multilevel scheduler either runs even pids only, or finds
    no RUNNABLE process with an even pid and runs one process: the RUNNABLE one
    with the smallest odd pid. *)
Theorem ml_policy l :
  let tr := (ml_pass slice l).1 in
  Forall (λ x, even_pid x.2) tr \/
  exists k p, tr = [(k, pid p)] /\ l !! k = Some p /\ state p = RUNNABLE /\ Z.rem (pid p) 2 = 1 /\
    forall j q, (j < NPROC)%nat -> l !! j = Some q -> state q = RUNNABLE ->
      ~ even_pid (pid q) /\ (Z.rem (pid q) 2 = 1 -> pid p <= pid q).
Proof.
  unfold ml_pass. cbn zeta.
  pose proof (ml_loop_trace NPROC 0 None false l) as Ht.
  destruct (ml_loop slice 0 NPROC None false l) as [[[tr l'] o] e] eqn:E. destruct Ht as [Hf He].
  destruct o as [k|]; [|by left]. destruct e; [by left|]. right.
  apply ml_loop_odd in E as [-> [Hev (p & Hp & Hr & Ho & Hmin)]].
  2: { split; intros; lia. }
  destruct (He eq_refl) as [-> _]. exists k, p. rewrite Hp. split_and!; [done..|].
  intros j q Hj Hq Hqr. split; [by apply (Hev j q)|]. intros. by apply (Hmin j q).
Qed.
End ml.

(** A table whose slots 2 and 5 are RUNNABLE, and processes that do nothing but
    yield. *)
Definition sample_table : list proc :=
  alter (λ p, set_pid 7 (set_state RUNNABLE p)) 2%nat
    (alter (λ p, set_pid 3 (set_state RUNNABLE p)) 5%nat (replicate NPROC proc_zero)).
Definition just_yield (i : nat) (l : list proc) : list proc := alter (set_state RUNNABLE) i l.

Lemma rr_no_starvation_witness :
  5%nat ∈ (rr_pass just_yield sample_table).1 /\ NoDup (rr_pass just_yield sample_table).1 /\
  (length (rr_pass just_yield sample_table).1 <= NPROC)%nat.
Proof.
  apply (rr_no_starvation just_yield 5 sample_table).
  - by apply Nat.ltb_lt.
  - eexists. split; [vm_compute; reflexivity|reflexivity].
  - intros j l Hj (p & Hp & Hs). exists p. unfold just_yield. by rewrite list_lookup_alter_ne.
Defined.
