(* ===== verification/Trap.v ===== *)
(** * Traps (trap.c): the timer, MLFQ accounting, killed processes

    A trap runs until it returns to the interrupted code, gives up the CPU
    ([yield]) or ends the process ([exit]); the rest of trap after a yield is a
    second entry point.  The device handlers and the system calls are
    parameters. *)

From S2P Require Import Prelude ProcDefs Sched.

Definition T_SYSCALL : Z := 64.
Definition T_PRACTICE : Z := 128.
Definition T_IRQ0 : Z := 32.
Definition IRQ_TIMER : Z := 0.
Definition IRQ_KBD : Z := 1.
Definition IRQ_COM1 : Z := 4.
Definition IRQ_IDE : Z := 14.
Definition IRQ_SPURIOUS : Z := 31.

(** What trap does next. *)
Inductive trap_next := TReturn | TYield | TExit.

Section trap.
Context {W : Type}.
Context (pol : policy).

(** The clock with its lock, beside the process table. *)
Record tst := mkTst { ticks : Z; tickslock : bool; tproc : pst W }.

Definition onproc {A} (m : M (pst W) A) : M tst A :=
  zoom tproc (λ p t, mkTst (ticks t) (tickslock t) p) m.

(** acquire(&tickslock), release(&tickslock): the lock bit and the nesting. *)
Definition acquire_ticks : M tst unit :=
  t ← get;
  if tickslock t then panic "acquire"
  else onproc acquire_other ;; modify (λ t, mkTst (ticks t) true (tproc t)).
Definition release_ticks : M tst unit :=
  t ← get;
  if negb (tickslock t) then panic "release"
  else modify (λ t, mkTst (ticks t) false (tproc t)) ;; onproc release_other.

(** [case T_IRQ0 + IRQ_TIMER], with [cpuid() == 0] as [cpu0]. *)
Definition timer_intr (cpu0 : bool) : M tst unit :=
  when cpu0 (
    acquire_ticks ;;
    modify (λ t, mkTst (u32 (ticks t + 1)) (tickslock t) (tproc t)) ;;
    onproc (wakeup CTicks) ;;
    when (is_mlfq pol) (
      o ← gets (λ t : tst, cur (tproc t));
      match o with Some _ => onproc (update_tq pol) | None => mret tt end ;;
      n ← gets ticks;
      when (n mod 100 =? 0) (onproc (priority_boost pol))) ;;
    release_ticks).

(** The process of this CPU, if any: [myproc()] as a test. *)
Definition curproc : M tst (option proc) :=
  gets (λ t, match cur (tproc t) with
             | Some i => Some (default proc_zero (ptab (tproc t) !! i))
             | None => None end).

Definition from_user (tf : trapframe) : bool := Z.land (cs tf) 3 =? DPL_USER.

(** [myproc() && myproc()->killed && (tf->cs&3) == DPL_USER] *)
Definition must_exit (tf : trapframe) : M tst bool :=
  o ← curproc; mret (match o with Some p => negb (killed p =? 0) && from_user tf | None => false end).

(** The quantum of a level: [qlvl * 4 + 2] ticks. *)
Definition quantum (lvl : Z) : Z := lvl * 4 + 2.

Definition is_timer (tf : trapframe) : bool := trapno tf =? T_IRQ0 + IRQ_TIMER.

(** Lines 124-135: the forced yield. *)
Definition tick_yield (tf : trapframe) : M tst bool :=
  o ← curproc;
  match o with
  | Some p =>
      if bool_decide (state p = RUNNING) && is_timer tf then
        when (is_mlfq pol && (quantum (qlvl p) <=? tq p)) (onproc (qlvl_down pol)) ;;
        mret true
      else mret false
  | None => mret false
  end.

(** The device handlers, and [syscall()], which may change the whole state. *)
Context (ideintr kbdintr uartintr : M tst unit) (syscall : M tst unit).

(** [killed] of the current process, which the system call path dereferences. *)
Definition cur_killed : M tst bool :=
  i ← (onproc myproc : M tst nat);
  p ← (onproc (pread i) : M tst proc);
  mret (negb (killed p =? 0)).

Definition set_cur_tf (tf : trapframe) : M tst unit :=
  i ← (onproc myproc : M tst nat); onproc (pupd i (set_tf tf)).

(** Lines 40-62: [T_SYSCALL] runs [syscall()], [T_PRACTICE] prints a line. *)
Definition trap_call (tf : trapframe) (body : M tst unit) : M tst trap_next :=
  k ← cur_killed;
  if (k : bool) then mret TExit
  else
    set_cur_tf tf ;; body ;;
    k' ← cur_killed;
    mret (if (k' : bool) then TExit else TReturn).

(** Lines 64-116: the interrupt or fault itself. *)
Definition trap_switch (cpu0 : bool) (tf : trapframe) : M tst unit :=
  let n := trapno tf in
  if n =? T_IRQ0 + IRQ_TIMER then timer_intr cpu0
  else if n =? T_IRQ0 + IRQ_IDE then ideintr
  else if n =? T_IRQ0 + IRQ_IDE + 1 then mret tt
  else if n =? T_IRQ0 + IRQ_KBD then kbdintr
  else if n =? T_IRQ0 + IRQ_COM1 then uartintr
  else if (n =? T_IRQ0 + 7) || (n =? T_IRQ0 + IRQ_SPURIOUS) then mret tt
  else
    o ← gets (λ t : tst, cur (tproc t));
    match o with
    | Some i => if Z.land (cs tf) 3 =? 0 then panic "trap" else onproc (pupd i (set_killed 1))
    | None => panic "trap"
    end.

Definition trap (cpu0 : bool) (tf : trapframe) : M tst trap_next :=
  if trapno tf =? T_SYSCALL then trap_call tf syscall
  else if trapno tf =? T_PRACTICE then trap_call tf (mret tt)
  else
    trap_switch cpu0 tf ;;
    k ← must_exit tf;
    if (k : bool) then mret TExit
    else
      y ← tick_yield tf;
      if (y : bool) then mret TYield
      else k' ← must_exit tf; mret (if (k' : bool) then TExit else TReturn).

(** After [yield()] returned: lines 137-139. *)
Definition trap_resume (tf : trapframe) : M tst trap_next :=
  k ← must_exit tf; mret (if (k : bool) then TExit else TReturn).
End trap.
Arguments tst : clear implicits.

(** ** The accounting of a timer tick *)

(** The scheduling data of the current process after a tick, [boosted] when the
    clock reached a multiple of 100. *)
Definition account (boosted : bool) (p : proc) : proc :=
  let p1 := set_tq (s32 (tq p + 1)) p in
  let p2 := if boosted then mlfq_top p1 else p1 in
  if quantum (qlvl p2) <=? tq p2 then set_qlvl (s32 (qlvl p2 + 1)) (set_tq 0 p2) else p2.

Section timer.
Context {W : Type}.

(** An interrupt arrives: the gate has cleared FL_IF, no lock is held here. *)
Definition intr_entry (t : tst W) : Prop :=
  tickslock t = false /\ plock (tproc t) = false /\ pncli (tproc t) = 0 /\ intr (tproc t) = false.

(** No ptable.lock is held, interrupts are off and stay so, [n] other locks are held. *)
Definition quiet (n : Z) (v : pst W) : Prop :=
  0 <= n /\ plock v = false /\ pncli v = n /\ intr v = false /\ (0 < n -> pintena v = false).

Definition same_but (f : list proc -> list proc) (v v' : pst W) : Prop :=
  ptab v' = f (ptab v) /\ cur v' = cur v.

(** A critical section on ptable.lock whose body updates the table. *)
Lemma wp_critical n (m : M (pst W) unit) f (v : pst W) Q :
  quiet n v ->
  (forall v1, ptab v1 = ptab v -> cur v1 = cur v -> m v1 = Ret tt (with_ptab f v1)) ->
  (forall v', quiet n v' -> same_but f v v' -> Q tt v') ->
  wp (acquire_ptable ;; m ;; release_ptable) Q v.
Proof.
  intros (Hp & Hl & Hn & Hi & He) Hm HQ.
  unfold wp, acquire_ptable, release_ptable, mbind, M_bind, get, put, mret. cbn. rewrite Hl. cbn.
  rewrite Hm by done. cbn. rewrite Hn. replace (n + 1 - 1) with n by lia.
  rewrite (proj2 (Z.ltb_ge n 0)) by lia.
  apply HQ; [|done]. destruct (Z.eqb_spec n 0); unfold quiet; cbn; split_and!; auto.
Qed.

Lemma wp_wakeup n ch (v : pst W) Q : quiet n v ->
  (forall v', quiet n v' -> same_but (fmap (wake ch)) v v' -> Q tt v') -> wp (wakeup ch) Q v.
Proof. intros Hq HQ. by eapply wp_critical. Qed.

Lemma wp_boost n K (v : pst W) Q : quiet n v ->
  (forall v', quiet n v' -> same_but (fmap mlfq_top) v v' -> Q tt v') -> wp (priority_boost (Mlfq K)) Q v.
Proof. intros Hq HQ. unfold priority_boost, when, is_mlfq. by eapply wp_critical. Qed.

Lemma wp_ext {A} (m m' : M (pst W) A) Q v : m v = m' v -> wp m' Q v -> wp m Q v.
Proof. unfold wp. by intros ->. Qed.

Lemma wp_update_tq n K i (v : pst W) Q : quiet n v -> cur v = Some i ->
  (forall v', quiet n v' -> same_but (alter (λ p, set_tq (s32 (tq p + 1)) p) i) v v' -> Q tt v') ->
  wp (update_tq (Mlfq K)) Q v.
Proof.
  intros Hq Hc HQ. unfold update_tq, when, is_mlfq.
  apply wp_ext with (acquire_ptable ;; (i ← myproc; pupd i (λ p, set_tq (s32 (tq p + 1)) p)) ;; release_ptable).
  { unfold mbind, M_bind. destruct (acquire_ptable v) as [? s| |]; [|done..]. by destruct (myproc s). }
  eapply wp_critical; [done| |done]. intros v1 _ Hc1.
  unfold myproc, mbind, M_bind, gets. rewrite Hc1, Hc. done.
Qed.

Lemma wp_qlvl_down n K i (v : pst W) Q : quiet n v -> cur v = Some i ->
  (forall v', quiet n v' -> same_but (alter (λ p, set_qlvl (s32 (qlvl p + 1)) (set_tq 0 p)) i) v v' -> Q tt v') ->
  wp (qlvl_down (Mlfq K)) Q v.
Proof.
  intros Hq Hc HQ. unfold qlvl_down, when, is_mlfq.
  apply wp_ext with (acquire_ptable ;;
    (i ← myproc; pupd i (λ p, set_qlvl (s32 (qlvl p + 1)) (set_tq 0 p))) ;; release_ptable).
  { unfold mbind, M_bind. destruct (acquire_ptable v) as [? s| |]; [|done..].
    destruct (myproc s) as [j s'| |]; [|done..]. cbn. unfold with_ptab. cbn. by rewrite list_alter_alter_eq. }
  eapply wp_critical; [done| |done]. intros v1 _ Hc1.
  unfold myproc, mbind, M_bind, gets. rewrite Hc1, Hc. done.
Qed.

Lemma wp_onproc {A} (m : M (pst W) A) Q (t : tst W) :
  wp m (λ a v, Q a (mkTst (ticks t) (tickslock t) v)) (tproc t) -> wp (onproc m) Q t.
Proof. unfold wp, onproc, zoom. by destruct (m (tproc t)). Qed.

(** The scheduling data [p] at slot [i] of the current process. *)
Definition at_cur (i : nat) (p : proc) (t : tst W) : Prop :=
  cur (tproc t) = Some i /\ ptab (tproc t) !! i = Some p.

Lemma at_cur_alter i p f v v' tk tl tk' tl' :
  at_cur i p (mkTst tk tl v) -> same_but (alter f i) v v' -> at_cur i (f p) (mkTst tk' tl' v').
Proof. intros [Hc Hp] [Ht Hc']. split; cbn in *; [congruence|]. by rewrite Ht, list_lookup_alter_eq, Hp. Qed.

Lemma at_cur_fmap i p f v v' tk tl tk' tl' :
  at_cur i p (mkTst tk tl v) -> same_but (fmap f) v v' -> at_cur i (f p) (mkTst tk' tl' v').
Proof. intros [Hc Hp] [Ht Hc']. split; cbn in *; [congruence|]. by rewrite Ht, list_lookup_fmap, Hp. Qed.

(** The handler of the timer on CPU 0: the clock, and the quantum or the boost. *)
Lemma wp_timer_intr K i p (t : tst W) Q :
  intr_entry t -> at_cur i p t -> state p = RUNNING ->
  let n := u32 (ticks t + 1) in
  let p1 := set_tq (s32 (tq p + 1)) p in
  (forall v, quiet 0 v -> at_cur i (if n mod 100 =? 0 then mlfq_top p1 else p1) (mkTst n false v) ->
     Q tt (mkTst n false v)) ->
  wp (timer_intr (Mlfq K) true) Q t.
Proof.
  intros (Htl & Hpl & Hn & Hin) Hc Hs n p1 HQ. unfold timer_intr. cbn [when is_mlfq].
  apply wp_bind. unfold acquire_ticks. apply wp_bind, wp_get. rewrite Htl. apply wp_bind, wp_onproc.
  unfold acquire_other. apply wp_modify, wp_modify. apply wp_bind, wp_modify. cbn [ticks tickslock tproc]. fold n.
  apply wp_bind, wp_onproc, (wp_wakeup 1).
  { unfold quiet. cbn. rewrite Hn, Hpl. cbn. split_and!; [lia|done..]. }
  intros v1 Hq1 Hv1. cbn [ticks tickslock tproc] in *. apply (at_cur_fmap i p _ _ _ (ticks t) (tickslock t) n true) in Hv1.
  2: { destruct t, Hc; by split. }
  assert (wake CTicks p = p) as Hw by (unfold wake; by rewrite bool_decide_false by (rewrite Hs; by intros [])).
  rewrite Hw in Hv1.
  apply wp_bind, wp_bind, wp_gets. cbn [tproc]. pose proof Hv1 as [Hc1 _]. cbn in Hc1. rewrite Hc1.
  apply wp_bind, wp_onproc, (wp_update_tq 1 K i); [done..|]. intros v2 Hq2 Hv2.
  apply (at_cur_alter i p _ _ _ n true n true) in Hv2; [|done]. cbn [ticks tickslock tproc]. fold p1 in Hv2.
  assert (forall v3 q, quiet 1 v3 -> at_cur i q (mkTst n true v3) ->
    q = (if n mod 100 =? 0 then mlfq_top p1 else p1) -> wp release_ticks Q (mkTst n true v3)) as Hrel.
  { intros v3 q (_ & Hl3 & Hn3 & Hi3 & He3) Hv3 ->. unfold release_ticks. apply wp_bind, wp_get. cbn [tickslock negb].
    apply wp_bind, wp_modify, wp_onproc. unfold release_other. apply wp_modify. apply HQ.
    - unfold quiet. cbn. rewrite Hn3, He3 by lia. split_and!; [lia|done|done|done|lia].
    - destruct Hv3. by split. }
  apply wp_bind, wp_gets. cbn [ticks]. unfold when. destruct (n mod 100 =? 0) eqn:Eb.
  - apply wp_onproc, (wp_boost 1 K); [done|]. intros v3 Hq3 Hv3.
    apply (at_cur_fmap i p1 _ _ _ n true n true) in Hv3; [|done]. by eapply Hrel.
  - apply wp_ret. by eapply Hrel.
Qed.

Lemma curproc_at i p (t : tst W) : at_cur i p t -> curproc t = Ret (Some p) t.
Proof. intros [Hc Hp]. unfold curproc, gets. by rewrite Hc, Hp. Qed.

Lemma wp_must_exit i p tf (t : tst W) Q :
  at_cur i p t -> Q (negb (killed p =? 0) && from_user tf) t -> wp (must_exit tf) Q t.
Proof. intros Hc HQ. unfold must_exit. apply wp_bind. unfold wp. by rewrite (curproc_at i p t Hc). Qed.

(** A timer interrupt on CPU 0 under MLFQ charges one tick to the running
    process and makes it yield: a process that has used up the quantum of its
    level (4 times the level, plus 2) goes down one level with a new quantum,
    and at every hundredth tick it goes back to level 0. *)
Theorem timer_charges_quantum K (ide kbd uart sysc : M (tst W) unit) tf i p (t : tst W)
  (Ht : trapno tf = T_IRQ0 + IRQ_TIMER) (He : intr_entry t) (Hc : at_cur i p t)
  (Hs : state p = RUNNING) (Hk : killed p = 0) :
  wp (trap (Mlfq K) ide kbd uart sysc true tf)
    (λ r t', r = TYield /\ ticks t' = u32 (ticks t + 1) /\
       at_cur i (account (u32 (ticks t + 1) mod 100 =? 0) p) t' /\ quiet 0 (tproc t')) t.
Proof.
  unfold trap. rewrite Ht. cbn [Z.eqb]. unfold trap_switch. rewrite Ht. cbn [Z.eqb]. apply wp_bind.
  apply (wp_timer_intr K i p t); [done..|]. intros v Hq Hv.
  set (n := u32 (ticks t + 1)) in *. set (p1 := if n mod 100 =? 0 then _ else _) in *.
  assert (state p1 = RUNNING /\ killed p1 = 0) as [Hs1 Hk1] by (unfold p1; by destruct (_ =? 0)).
  apply wp_bind. apply (wp_must_exit i p1); [done|]. rewrite Hk1. cbn. apply wp_bind. unfold tick_yield.
  apply wp_bind. unfold wp at 1. rewrite (curproc_at i p1) by done.
  rewrite bool_decide_true by done. unfold is_timer. rewrite Ht. cbn [andb Z.eqb is_mlfq].
  change (T_IRQ0 + IRQ_TIMER =? T_IRQ0 + IRQ_TIMER) with true. cbv iota.
  replace (account (n mod 100 =? 0) p) with
    (if quantum (qlvl p1) <=? tq p1 then set_qlvl (s32 (qlvl p1 + 1)) (set_tq 0 p1) else p1) by done.
  apply wp_bind. unfold when. destruct (quantum (qlvl p1) <=? tq p1).
  - apply wp_onproc, (wp_qlvl_down 0 K i); [done|by destruct Hv|]. intros v' Hq' Hv'.
    apply (at_cur_alter i p1 _ _ _ n false n false) in Hv'; [|done]. apply wp_ret. cbn. by apply wp_ret.
  - apply wp_ret. cbn. by apply wp_ret.
Qed.
End timer.

(** ** The levels stay in range *)
Section levels.
Context (K : Z) (HK : 0 < K < 2 ^ 20).

(** Every level is between 0 and K, a process that runs is below K, and the
    ticks charged are fewer than the quantum. *)
Definition level_ok (p : proc) : Prop :=
  0 <= qlvl p <= K /\ (state p = RUNNING -> qlvl p < K) /\ 0 <= tq p < quantum (qlvl p).

Lemma level_ok_account b p : level_ok p -> state p = RUNNING -> level_ok (set_state RUNNABLE (account b p)).
Proof.
  unfold level_ok, account, quantum. intros (Hl & Hr & Ht) Hs. specialize (Hr Hs).
  destruct b; cbn; [change (0 * 4 + 2 <=? 0) with false; cbn; split_and!; try done; lia|].
  rewrite (s32_id (tq p + 1)) by (unfold is_s32; lia).
  destruct (Z.leb_spec (qlvl p * 4 + 2) (tq p + 1)); cbn;
    rewrite ?s32_id by (unfold is_s32; lia); split_and!; try done; lia.
Qed.

Lemma level_ok_top p : level_ok (mlfq_top p).
Proof. unfold level_ok, quantum. cbn. split_and!; try done; lia. Qed.

Lemma level_ok_stop st p : level_ok p -> st <> RUNNING -> level_ok (set_state st p).
Proof. unfold level_ok. cbn. naive_solver. Qed.

(** What happens to the levels: a tick and the yield that follows, a boost,
    sleep_ and yield_ (which reset), any other change of state than a dispatch,
    a new process, a new priority, and the dispatch of what MLFQ selects. *)
Inductive level_step (l : list proc) : list proc -> Prop :=
| L_tick i b p : l !! i = Some p -> state p = RUNNING ->
    level_step l (alter (λ p, set_state RUNNABLE (account b p)) i l)
| L_boost : level_step l (fmap mlfq_top l)
| L_reset i st : st <> RUNNING -> level_step l (alter (λ p, mlfq_top (set_state st p)) i l)
| L_state i st : st <> RUNNING -> level_step l (alter (set_state st) i l)
| L_wakeup ch : level_step l (fmap (wake ch) l)
| L_alloc i n : level_step l (alter (alloc_init (Mlfq K) n) i l)
| L_priority i pr : level_step l (alter (set_priority pr) i l)
| L_dispatch i : mlfq_select K l = Some i -> level_step l (alter (set_state RUNNING) i l).

Lemma Forall_alter_at (P : proc -> Prop) f i l :
  Forall P l -> (forall p, l !! i = Some p -> P p -> P (f p)) -> Forall P (alter f i l).
Proof.
  intros Hl Hf. apply Forall_lookup. intros j q. rewrite list_lookup_alter.
  rewrite Forall_lookup in Hl. case_decide; [subst|by apply Hl].
  intros (p & Hp & ->)%fmap_Some. apply Hf; [done|by eapply Hl].
Qed.

Lemma level_ok_step l l' : Forall level_ok l -> level_step l l' -> Forall level_ok l'.
Proof.
  intros Hl [i b p Hp Hs| |i st Hst|i st Hst|ch|i n|i pr|i Hsel].
  - apply Forall_alter_at; [done|]. intros q Hq Hok. simplify_eq. by apply level_ok_account.
  - apply Forall_fmap. eapply Forall_impl; [done|]. intros q _. apply level_ok_top.
  - apply Forall_alter_at; [done|]. intros. apply level_ok_top.
  - apply Forall_alter_at; [done|]. intros. by apply level_ok_stop.
  - apply Forall_fmap. eapply Forall_impl; [done|]. intros q Hq. cbn. unfold wake.
    case_bool_decide; [by apply level_ok_stop|done].
  - apply Forall_alter_at; [done|]. intros q _ _. unfold level_ok, quantum. cbn. split_and!; try done; lia.
  - apply Forall_alter_at; [done|]. intros q _ Hq. exact Hq.
  - apply Forall_alter_at; [done|]. intros q Hq (Hr & _ & Ht).
    pose proof (mlfq_select_choice K l) as Hc. rewrite Hsel in Hc. destruct Hc as (p & [Hp He _ _ _]).
    simplify_eq. destruct He as [_ He].
    unfold level_ok. cbn. lia.
Qed.

(** Under MLFQ every level is between 0 and K, a process that runs is below
    level K, and it is charged fewer ticks than its quantum, in every table
    reached from one of new processes. *)
Theorem mlfq_levels_bounded l l' (Hl : Forall level_ok l) (Hr : rtc level_step l l') :
  Forall level_ok l'.
Proof. revert Hr. apply (rtc_invariant level_step (Forall level_ok)); [apply level_ok_step|done]. Qed.
End levels.

(** ** Witnesses *)
Definition k_tf : trapframe := mkTf 0 0 0 0 27 35 35 35 (T_IRQ0 + IRQ_TIMER) 0 [].
Definition k_proc : proc := set_tq 1 (set_state RUNNING (set_pid 1 proc_zero)).
Definition k_tst : tst unit :=
  mkTst 41 false (mkPst (k_proc :: replicate 63 proc_zero) false (Some 0%nat) 2 (Some 0%nat) false 0 true tt).

Lemma timer_charges_quantum_witness :
  wp (trap (Mlfq 5) (mret tt) (mret tt) (mret tt) (mret tt) true k_tf)
    (λ r t', r = TYield /\ ticks t' = 42 /\ at_cur 0 (account false k_proc) t' /\ quiet 0 (tproc t')) k_tst.
Proof.
  apply (timer_charges_quantum 5 (mret tt) (mret tt) (mret tt) (mret tt) k_tf 0 k_proc k_tst).
  - reflexivity.
  - by vm_compute.
  - by split.
  - reflexivity.
  - reflexivity.
Defined.

Lemma mlfq_levels_bounded_witness :
  Forall (level_ok 5) (alter (λ p, set_state RUNNABLE (account false p)) 0%nat (k_proc :: replicate 63 proc_zero)).
Proof.
  apply (mlfq_levels_bounded 5 ltac:(lia) (k_proc :: replicate 63 proc_zero)).
  - constructor; [|apply Forall_replicate]; unfold level_ok, quantum; cbn; split_and!; (done || lia).
  - apply rtc_once. by eapply L_tick.
Defined.
