(* ===== verification/Ring.v ===== *)
(** * Ring buffers with free-running 32-bit counters

    pipe.c and console.c keep a queue in an array of [N] bytes with counters
    that only ever count up, and wrap around at 2^32.  [N] divides 2^32, so the
    index [counter % N] stays right across the wrap-around. *)

From S2P Require Import Prelude.

Lemma seqZ_one m : seqZ m 1 = [m].
Proof. by rewrite seqZ_cons by lia. Qed.

Section ring.
Context (N : Z) (HN : 0 < N) (Hdiv : (N | 2 ^ 32)).

(** [buf[c % N]] *)
Definition ring_at (buf : list Z) (c : Z) : Z := buf !!! Z.to_nat (c mod N).

(** The queued bytes, oldest first: from the read to the write counter. *)
Definition ring_contents (buf : list Z) (r w : Z) : list Z :=
  (λ k, ring_at buf (r + k)) <$> seqZ 0 (u32 (w - r)).

Definition ring_put (buf : list Z) (c x : Z) : list Z := <[Z.to_nat (c mod N) := x]> buf.

Lemma u32_mod_N x : u32 x mod N = x mod N.
Proof.
  destruct Hdiv as [q Hq]. unfold u32. rewrite Hq.
  rewrite (Z.mod_eq x (q * N)) by nia.
  replace (x - q * N * (x / (q * N))) with (x + - (q * (x / (q * N))) * N) by ring.
  by rewrite Z.mod_add by lia.
Qed.

Lemma ring_at_u32 buf c : ring_at buf (u32 c) = ring_at buf c.
Proof. unfold ring_at. by rewrite u32_mod_N. Qed.

Lemma u32_sub_succ w r : u32 (w - r) < 2 ^ 32 - 1 -> u32 (u32 (w + 1) - r) = u32 (w - r) + 1.
Proof.
  unfold u32. intros H. rewrite Zminus_mod_idemp_l.
  replace (w + 1 - r) with ((w - r) + 1) by ring. rewrite <-Zplus_mod_idemp_l.
  apply Z.mod_small. pose proof (Z.mod_pos_bound (w - r) (2 ^ 32)). lia.
Qed.

Lemma u32_sub_pred w r : 0 < u32 (w - r) -> u32 (u32 (w - 1) - r) = u32 (w - r) - 1.
Proof.
  unfold u32. intros H. rewrite Zminus_mod_idemp_l.
  replace (w - 1 - r) with ((w - r) - 1) by ring. rewrite <-Zminus_mod_idemp_l.
  apply Z.mod_small. pose proof (Z.mod_pos_bound (w - r) (2 ^ 32)). lia.
Qed.

Lemma u32_sub_read w r : 0 < u32 (w - r) -> u32 (w - u32 (r + 1)) = u32 (w - r) - 1.
Proof.
  unfold u32. intros H. rewrite Zminus_mod_idemp_r.
  replace (w - (r + 1)) with ((w - r) - 1) by ring. rewrite <-Zminus_mod_idemp_l.
  apply Z.mod_small. pose proof (Z.mod_pos_bound (w - r) (2 ^ 32)). lia.
Qed.

Lemma length_ring_contents buf r w : length (ring_contents buf r w) = Z.to_nat (u32 (w - r)).
Proof. unfold ring_contents. by rewrite length_fmap, length_seqZ. Qed.

Lemma ring_contents_nil buf r w : is_u32 r -> is_u32 w -> ring_contents buf r w = [] <-> r = w.
Proof.
  intros Hr Hw. split.
  - intros He%(f_equal length). rewrite length_ring_contents in He. cbn in He.
    pose proof (u32_range (w - r)). unfold is_u32, u32 in *.
    assert ((w - r) mod 2 ^ 32 = 0) as H0 by lia. apply Z.mod_divide in H0 as [q Hq]; [|lia]. nia.
  - intros ->. unfold ring_contents. by rewrite Z.sub_diag.
Qed.

(** Two counters less than [N] apart have different slots. *)
Lemma ring_slots_differ r k w : 0 <= k < u32 (w - r) -> u32 (w - r) < N -> (r + k) mod N <> w mod N.
Proof.
  intros Hk Hn He. set (n := u32 (w - r)) in *.
  assert ((r + k) mod N = (r + n) mod N) as He'.
  { rewrite He. unfold n. rewrite <-(u32_mod_N (r + _)), <-(u32_mod_N w). f_equal. unfold u32.
    rewrite Zplus_mod_idemp_r. f_equal. lia. }
  assert ((n - k) mod N = 0) as Hz.
  { replace (n - k) with ((r + n) - (r + k)) by ring. rewrite Zminus_mod, He', Z.sub_diag. by apply Zmod_0_l. }
  rewrite Z.mod_small in Hz by lia. lia.
Qed.

Lemma ring_push buf r w x :
  length buf = Z.to_nat N -> u32 (w - r) < N -> N < 2 ^ 32 ->
  ring_contents (ring_put buf w x) r (u32 (w + 1)) = ring_contents buf r w ++ [x].
Proof.
  intros Hl Hn HNs. unfold ring_contents. pose proof (u32_range (w - r)) as Hr. unfold is_u32 in Hr.
  rewrite u32_sub_succ by lia. rewrite (seqZ_app 0 (u32 (w - r)) 1), fmap_app by lia. f_equal.
  - apply list_fmap_ext. intros i k Hk. apply lookup_seqZ in Hk as [-> Hi].
    unfold ring_at, ring_put. rewrite list_lookup_total_insert_ne; [done|].
    intros He. apply (ring_slots_differ r (0 + Z.of_nat i) w); [lia|done|].
    apply Z2Nat.inj in He; [done|apply Z.mod_pos_bound; lia..].
  - rewrite seqZ_one. cbn [fmap list_fmap]. f_equal. unfold ring_at, ring_put. rewrite Z.add_0_l.
    replace ((r + u32 (w - r)) mod N) with (w mod N).
    + apply list_lookup_total_insert_eq. rewrite Hl. pose proof (Z.mod_pos_bound w N). lia.
    + rewrite <-(u32_mod_N (r + _)), <-(u32_mod_N w). f_equal. unfold u32.
      rewrite Zplus_mod_idemp_r. f_equal. lia.
Qed.

Lemma ring_pop buf r w :
  0 < u32 (w - r) -> ring_contents buf r w = ring_at buf r :: ring_contents buf (u32 (r + 1)) w.
Proof.
  intros Hn. unfold ring_contents. rewrite u32_sub_read by done.
  rewrite (seqZ_cons 0) by done. cbn. f_equal; [by rewrite Z.add_0_r|].
  rewrite <-(fmap_add_seqZ 1 0), <-list_fmap_compose. apply list_fmap_ext. intros i k _. cbn.
  rewrite <-(ring_at_u32 _ (u32 (r + 1) + k)). unfold u32. rewrite Zplus_mod_idemp_l.
  fold (u32 (r + 1 + k)). rewrite ring_at_u32. f_equal. lia.
Qed.

Lemma ring_unpush buf r w :
  0 < u32 (w - r) ->
  ring_contents buf r w = ring_contents buf r (u32 (w - 1)) ++ [ring_at buf (w - 1)].
Proof.
  intros Hn. unfold ring_contents. rewrite u32_sub_pred by done.
  replace (u32 (w - r)) with ((u32 (w - r) - 1) + 1) at 1 by lia.
  rewrite seqZ_app, fmap_app by lia. f_equal. rewrite seqZ_one. cbn [fmap list_fmap]. f_equal.
  rewrite <-(ring_at_u32 _ (w - 1)), <-(ring_at_u32 _ (r + _)). f_equal.
  unfold u32. replace (r + (0 + ((w - r) mod 2 ^ 32 - 1))) with (r - 1 + (w - r) mod 2 ^ 32) by ring.
  rewrite Zplus_mod_idemp_r. f_equal. lia.
Qed.

(** A byte put behind the end of a longer queue does not touch a shorter one. *)
Lemma ring_put_before buf r w e x :
  u32 (w - r) <= u32 (e - r) -> u32 (e - r) < N ->
  ring_contents (ring_put buf e x) r w = ring_contents buf r w.
Proof.
  intros Hwe Hn. unfold ring_contents. apply list_fmap_ext. intros i k Hk.
  apply lookup_seqZ in Hk as [-> Hi]. unfold ring_at, ring_put. rewrite list_lookup_total_insert_ne; [done|].
  intros He. apply (ring_slots_differ r (0 + Z.of_nat i) e); [lia|done|].
  apply Z2Nat.inj in He; [done|apply Z.mod_pos_bound; lia..].
Qed.

(** The queue up to [e] is the queue up to [w] followed by the rest. *)
Lemma ring_contents_app buf r w e :
  u32 (w - r) + u32 (e - w) = u32 (e - r) ->
  ring_contents buf r e = ring_contents buf r w ++ ring_contents buf w e.
Proof.
  intros Hs. unfold ring_contents. rewrite <-Hs.
  pose proof (u32_range (w - r)) as H1. pose proof (u32_range (e - w)) as H2. unfold is_u32 in *.
  rewrite seqZ_app, fmap_app by lia. f_equal. rewrite Z.add_0_l.
  replace (seqZ (u32 (w - r)) (u32 (e - w))) with (Z.add (u32 (w - r)) <$> seqZ 0 (u32 (e - w)))
    by (rewrite fmap_add_seqZ; f_equal; lia).
  rewrite <-list_fmap_compose. apply list_fmap_ext. intros i k _. cbn.
  rewrite <-(ring_at_u32 _ (w + k)), <-(ring_at_u32 _ (r + _)). f_equal. unfold u32.
  replace (r + ((w - r) mod 2 ^ 32 + k)) with (r + k + (w - r) mod 2 ^ 32) by ring.
  rewrite Zplus_mod_idemp_r. f_equal. lia.
Qed.
End ring.
