(* ===== verification/Pipe.v ===== *)
(** * Pipes (pipe.c)

    [pipewrite], [piperead] and [pipeclose] as the critical sections between
    two sleeps: a call runs under the pipe's lock until it returns or goes to
    sleep, and starts again from what is left when it is woken.  The bytes are
    a ring buffer of [Ring.v]. *)

From S2P Require Import Prelude Ring.

Definition PIPESIZE : Z := 512.

Record pipe := mkPipe {
  data : list Z; nread : Z; nwrite : Z; readopen : bool; writeopen : bool
}.

(** The fields pipealloc sets; [d] is what the page from kalloc holds. *)
Definition pipe_new (d : list Z) : pipe := mkPipe d 0 0 true true.

Definition pipe_put (b : Z) (p : pipe) : pipe :=
  mkPipe (ring_put PIPESIZE (data p) (nwrite p) b) (nread p) (u32 (nwrite p + 1)) (readopen p) (writeopen p).
Definition pipe_take (p : pipe) : pipe :=
  mkPipe (data p) (u32 (nread p + 1)) (nwrite p) (readopen p) (writeopen p).

Definition pipe_full (p : pipe) : bool := nwrite p =? u32 (nread p + PIPESIZE).
Definition pipe_empty (p : pipe) : bool := nread p =? nwrite p.

(** How a section of pipewrite ends: all written, -1 with [rest] not written, or
    asleep with [rest] left. *)
Inductive pw_end := WDone | WFail (rest : list Z) | WSleep (rest : list Z).

Fixpoint pipewrite (killed : bool) (addr : list Z) (p : pipe) : pipe * pw_end :=
  match addr with
  | [] => (p, WDone)
  | b :: rest =>
      if pipe_full p then
        if negb (readopen p) || killed then (p, WFail addr) else (p, WSleep addr)
      else pipewrite killed rest (pipe_put b p)
  end.

(** The wakeups of a section: readers, once done or before going to sleep. *)
Definition pw_wakes_readers (e : pw_end) : bool :=
  match e with WDone | WSleep _ => true | WFail _ => false end.

Fixpoint pipe_copy (n : nat) (p : pipe) : list Z * pipe :=
  match n with
  | O => ([], p)
  | S n' =>
      if pipe_empty p then ([], p)
      else let '(bs, p') := pipe_copy n' (pipe_take p) in (ring_at PIPESIZE (data p) (nread p) :: bs, p')
  end.

Inductive pr_end := RDone (bs : list Z) | RFail | RSleep.

(** Writers are woken when it returns bytes, [RDone]. *)
Definition piperead (killed : bool) (n : nat) (p : pipe) : pipe * pr_end :=
  if pipe_empty p && writeopen p then
    if killed then (p, RFail) else (p, RSleep)
  else let '(bs, p') := pipe_copy n p in (p', RDone bs).

(** Closing the write end wakes readers, the read end writers; the page is
    freed when both are closed. *)
Definition pipeclose (writable : bool) (p : pipe) : pipe * bool :=
  let p' := if writable then mkPipe (data p) (nread p) (nwrite p) (readopen p) false
            else mkPipe (data p) (nread p) (nwrite p) false (writeopen p) in
  (p', negb (readopen p') && negb (writeopen p')).

(** ** One section against the queue of bytes *)

Definition contents (p : pipe) : list Z := ring_contents PIPESIZE (data p) (nread p) (nwrite p).

Record pipe_wf (p : pipe) : Prop := {
  wf_data : length (data p) = 512%nat;
  wf_nread : is_u32 (nread p);
  wf_nwrite : is_u32 (nwrite p);
  wf_len : u32 (nwrite p - nread p) <= PIPESIZE
}.

Lemma pipe_divides : (PIPESIZE | 2 ^ 32).
Proof. by exists 8388608. Qed.

Lemma pipe_full_spec p : pipe_wf p -> pipe_full p = true <-> length (contents p) = 512%nat.
Proof.
  intros [Hd Hr Hw Hl]. unfold pipe_full, contents. rewrite length_ring_contents, Z.eqb_eq.
  unfold is_u32, u32, PIPESIZE in *. split.
  - intros ->. rewrite Zminus_mod_idemp_l. replace (nread p + 512 - nread p) with 512 by ring. done.
  - intros Hn. assert ((nwrite p - nread p) mod 2 ^ 32 = 512) as He by lia.
    rewrite <-He, Zplus_mod_idemp_r. replace (nread p + (nwrite p - nread p)) with (nwrite p) by ring.
    by rewrite Z.mod_small.
Qed.

Lemma pipe_empty_spec p : pipe_wf p -> pipe_empty p = true <-> contents p = [].
Proof.
  intros [_ Hr Hw _]. unfold pipe_empty, contents. rewrite Z.eqb_eq.
  by rewrite ring_contents_nil by done.
Qed.

Lemma length_contents p : pipe_wf p -> (length (contents p) <= 512)%nat.
Proof. intros [_ _ _ Hl]. unfold contents. rewrite length_ring_contents. unfold PIPESIZE in Hl. lia. Qed.

Lemma not_full p : pipe_wf p -> pipe_full p = false -> u32 (nwrite p - nread p) < PIPESIZE.
Proof.
  intros Hwf Hf. assert (length (contents p) <> 512%nat) as Hne.
  { intros He%pipe_full_spec; [congruence|done]. }
  destruct Hwf as [_ _ _ Hl]. unfold contents in Hne. rewrite length_ring_contents in Hne.
  unfold PIPESIZE in *. pose proof (u32_range (nwrite p - nread p)). unfold is_u32 in *. lia.
Qed.

Lemma pipe_put_spec b p : pipe_wf p -> pipe_full p = false ->
  pipe_wf (pipe_put b p) /\ contents (pipe_put b p) = contents p ++ [b].
Proof.
  intros Hwf Hf. pose proof (not_full _ Hwf Hf) as Hn. destruct Hwf as [Hd Hr Hw Hl]. split.
  - constructor; cbn; [by unfold ring_put; rewrite length_insert|done|apply u32_range|].
    rewrite u32_sub_succ by (unfold PIPESIZE in *; lia). lia.
  - unfold contents. cbn. apply ring_push; [done|apply pipe_divides|done..].
Qed.

Lemma pipe_take_spec p : pipe_wf p -> pipe_empty p = false ->
  pipe_wf (pipe_take p) /\ contents p = ring_at PIPESIZE (data p) (nread p) :: contents (pipe_take p).
Proof.
  intros Hwf He. assert (0 < u32 (nwrite p - nread p)) as Hn.
  { pose proof (u32_range (nwrite p - nread p)) as Hu. unfold is_u32 in Hu.
    assert (contents p <> []) as Hne by (intros E%pipe_empty_spec; [congruence|done]).
    destruct (decide (u32 (nwrite p - nread p) = 0)) as [E|]; [|lia].
    destruct Hne. apply length_zero_iff_nil. unfold contents. by rewrite length_ring_contents, E. }
  destruct Hwf as [Hd Hr Hw Hl]. split.
  - constructor; cbn; [done|apply u32_range|done|]. rewrite u32_sub_read by done. lia.
  - unfold contents. cbn. apply ring_pop; [done|apply pipe_divides|done].
Qed.

(** What is left of the caller's bytes after a section, and what it took of them. *)
Definition unsent (e : pw_end) : list Z := match e with WDone => [] | WFail r | WSleep r => r end.
Definition taken (bs : list Z) (e : pw_end) : list Z := take (length bs - length (unsent e)) bs.

(** A section of pipewrite appends a prefix of its bytes to the queue; what is
    left is what it sleeps with. *)
Lemma pipewrite_spec killed addr : forall p p' e, pipe_wf p -> pipewrite killed addr p = (p', e) ->
  addr = taken addr e ++ unsent e /\ pipe_wf p' /\ contents p' = contents p ++ taken addr e /\
    readopen p' = readopen p /\ writeopen p' = writeopen p /\
    match e with
    | WDone => True
    | WFail _ => pipe_full p' = true /\ (readopen p = false \/ killed = true)
    | WSleep _ => pipe_full p' = true /\ readopen p = true
    end.
Proof.
  induction addr as [|b addr IH]; intros p p' e Hwf; cbn [pipewrite].
  { intros [= <- <-]. split_and!; by rewrite ?app_nil_r. }
  destruct (pipe_full p) eqn:Hf.
  - assert (taken (b :: addr) (WSleep (b :: addr)) = []) as Ht by (unfold taken; cbn [unsent]; by rewrite Nat.sub_diag).
    destruct (negb (readopen p) || killed) eqn:Hc; intros [= <- <-]; rewrite ?Ht;
      [change (taken (b :: addr) (WFail (b :: addr)) = []) in Ht; rewrite Ht|]; split_and!; rewrite ?app_nil_r; try done.
    + apply orb_true_iff in Hc as [Hn|Hn]; [left; by apply negb_true_iff|by right].
    + apply orb_false_iff in Hc as [Hn _]. by apply negb_false_iff.
  - intros H. destruct (pipe_put_spec b p Hwf Hf) as [Hwf' Hc'].
    destruct (IH _ _ _ Hwf' H) as (Ha & Hw & Hc & Hro & Hwo & He).
    assert (taken (b :: addr) e = b :: taken addr e) as Ht.
    { unfold taken. apply (f_equal length) in Ha. rewrite length_app in Ha. cbn [length].
      by replace (S (length addr) - length (unsent e))%nat with (S (length addr - length (unsent e))) by lia. }
    rewrite Ht. split_and!; try done; [cbn; by rewrite <-Ha|]. by rewrite Hc, Hc', <-app_assoc.
Qed.

(** A section of piperead that returns takes the oldest bytes, as many as there
    are up to [n]. *)
Lemma pipe_copy_spec n : forall p bs p', pipe_wf p -> pipe_copy n p = (bs, p') ->
  pipe_wf p' /\ contents p = bs ++ contents p' /\ (length bs = n `min` length (contents p))%nat /\
  readopen p' = readopen p /\ writeopen p' = writeopen p.
Proof.
  induction n as [|n IH]; intros p bs p' Hwf; cbn; [by intros [= <- <-]|].
  destruct (pipe_empty p) eqn:He.
  - intros [= <- <-]. apply pipe_empty_spec in He as ->; done.
  - destruct (pipe_take_spec p Hwf He) as [Hwf' Hc]. destruct (pipe_copy n (pipe_take p)) as [bs' p''] eqn:E.
    intros [= <- <-]. destruct (IH _ _ _ Hwf' E) as (Hw & Hc' & Hl & Hro & Hwo).
    rewrite Hc. split_and!; try done; cbn; [by rewrite Hc'|by rewrite Hl].
Qed.

(** ** Many readers and writers

    What each process is doing with the pipe: nothing, about to run a section
    of a call, or asleep in one. *)
Inductive task := TIdle | TWrite (rest : list Z) | TWriteSleep (rest : list Z) | TRead (n : nat) | TReadSleep (n : nat).

Definition wake_writers (t : task) : task := match t with TWriteSleep r => TWrite r | _ => t end.
Definition wake_readers (t : task) : task := match t with TReadSleep n => TRead n | _ => t end.

Definition is_reading (t : task) : Prop := match t with TRead _ | TReadSleep _ => True | _ => False end.
Definition is_writing (t : task) : Prop := match t with TWrite _ | TWriteSleep _ => True | _ => False end.

(** [sent] are the bytes that calls of write were given and took, in the order of
    their sections, [recv] the bytes that calls of read returned. *)
Record psystem := mkPS { ps_pipe : pipe; ps_task : nat -> task; sent : list Z; recv : list Z }.

(** Where a write section leaves the tasks: it wakes the readers unless it fails. *)
Definition after_write (i : nat) (e : pw_end) (t : nat -> task) : nat -> task :=
  let t' := if pw_wakes_readers e then wake_readers ∘ t else t in
  <[i := match e with WSleep r => TWriteSleep r | _ => TIdle end]> t'.

(** fileclose calls pipeclose when the last reference to an end goes away, so no
    call is under way on that end, and calls start on open ends. *)
Section system.
(** Whether a process may be killed while it writes. *)
Context (kills : bool).

Inductive ps_step (s : psystem) : psystem -> Prop :=
| PS_call i t : ps_task s i = TIdle ->
    (exists bs, t = TWrite bs /\ writeopen (ps_pipe s) = true) \/
    (exists n, t = TRead n /\ readopen (ps_pipe s) = true) ->
    ps_step s (mkPS (ps_pipe s) (<[i := t]> (ps_task s)) (sent s) (recv s))
| PS_write i bs killed p' e : ps_task s i = TWrite bs -> (killed = true -> kills = true) ->
    pipewrite killed bs (ps_pipe s) = (p', e) ->
    ps_step s (mkPS p' (after_write i e (ps_task s))
      (sent s ++ taken bs e) (recv s))
| PS_read i n killed p' bs : ps_task s i = TRead n -> piperead killed n (ps_pipe s) = (p', RDone bs) ->
    ps_step s (mkPS p' (<[i := TIdle]> (wake_writers ∘ ps_task s)) (sent s) (recv s ++ bs))
| PS_read_sleep i n killed p' : ps_task s i = TRead n -> piperead killed n (ps_pipe s) = (p', RSleep) ->
    ps_step s (mkPS p' (<[i := TReadSleep n]> (ps_task s)) (sent s) (recv s))
| PS_read_fail i n killed p' : ps_task s i = TRead n -> piperead killed n (ps_pipe s) = (p', RFail) ->
    ps_step s (mkPS p' (<[i := TIdle]> (ps_task s)) (sent s) (recv s))
| PS_close writable p' freed : pipeclose writable (ps_pipe s) = (p', freed) ->
    (forall i, ~ (if writable then is_writing else is_reading) (ps_task s i)) ->
    ps_step s (mkPS p' ((if writable then wake_readers else wake_writers) ∘ ps_task s) (sent s) (recv s)).

Definition ps_init (d : list Z) : psystem := mkPS (pipe_new d) (λ _, TIdle) [] [].

(** Nothing lost, duplicated or reordered. *)
Definition fifo (s : psystem) : Prop :=
  pipe_wf (ps_pipe s) /\ sent s = recv s ++ contents (ps_pipe s).

Lemma piperead_inv killed n p p' e : pipe_wf p -> piperead killed n p = (p', e) ->
  match e with
  | RDone bs => pipe_wf p' /\ contents p = bs ++ contents p' /\
      readopen p' = readopen p /\ writeopen p' = writeopen p /\ (contents p' = contents p -> bs = [])
  | RSleep => p' = p /\ contents p = [] /\ writeopen p = true
  | RFail => p' = p
  end.
Proof.
  intros Hwf. unfold piperead. destruct (pipe_empty p) eqn:He; cbn.
  - destruct (writeopen p) eqn:Hwo; cbn.
    + destruct killed; intros [= <- <-]; [done|]. split_and!; try done. by apply pipe_empty_spec.
    + destruct (pipe_copy n p) as [bs q] eqn:E. intros [= <- <-].
      destruct (pipe_copy_spec _ _ _ _ Hwf E) as (? & Hc & _ & ? & ?). split_and!; try done; [congruence|].
      intros Hs. rewrite Hs in Hc. apply (f_equal length) in Hc. rewrite length_app in Hc.
      apply length_zero_iff_nil. lia.
  - destruct (pipe_copy n p) as [bs q] eqn:E. intros [= <- <-].
    destruct (pipe_copy_spec _ _ _ _ Hwf E) as (? & Hc & _ & ? & ?). split_and!; try done.
    intros Hs. rewrite Hs in Hc. apply (f_equal length) in Hc. rewrite length_app in Hc.
    apply length_zero_iff_nil. lia.
Qed.

Lemma fifo_step s s' : fifo s -> ps_step s s' -> fifo s'.
Proof.
  intros [Hwf Hs] [i t Hi Ht|i bs killed p' e Hi Hk Hw|i n killed p' bs Hi Hr|i n killed p' Hi Hr|i n killed p' Hi Hr
    |writable p' freed Hc Hno]; unfold fifo; cbn.
  - done.
  - destruct (pipewrite_spec _ _ _ _ _ Hwf Hw) as (_ & Hwf' & Hc & _). split; [done|].
    by rewrite Hc, Hs, <-app_assoc.
  - apply piperead_inv in Hr as (Hwf' & Hc & _); [|done]. split; [done|]. by rewrite Hs, Hc, app_assoc.
  - apply piperead_inv in Hr as (-> & _); done.
  - apply piperead_inv in Hr as ->; done.
  - unfold pipeclose in Hc. injection Hc as <- _. destruct writable; cbn; split; try done; by destruct Hwf.
Qed.

(** C9: A pipe is a FIFO queue: with any number of readers and writers, sleeping,
    woken, killed or closing their end at any time, the bytes read so far
    followed by the bytes in the buffer are exactly the bytes that the callers of
    write gave and write took, in order; the buffer never holds more than 512, and
    the counters may wrap. *)
Theorem pipe_fifo d s (Hd : length d = 512%nat) (Hr : rtc ps_step (ps_init d) s) :
  sent s = recv s ++ contents (ps_pipe s) /\ (length (contents (ps_pipe s)) <= 512)%nat.
Proof.
  assert (fifo s) as [Hwf Hs].
  { revert Hr. apply (rtc_invariant ps_step fifo); [apply fifo_step|]. by split; [split|]. }
  split; [done|by apply length_contents].
Qed.

(** ** No sleeper is forgotten *)
Record sleepers_ok (s : psystem) : Prop := {
  so_fifo : fifo s;
  so_open i : (is_reading (ps_task s i) -> readopen (ps_pipe s) = true) /\
              (is_writing (ps_task s i) -> writeopen (ps_pipe s) = true);
  so_writer i r : ps_task s i = TWriteSleep r -> pipe_full (ps_pipe s) = true /\ readopen (ps_pipe s) = true;
  so_reader i n : ps_task s i = TReadSleep n -> contents (ps_pipe s) = [] /\ writeopen (ps_pipe s) = true
}.

Lemma wake_readers_writing t : is_writing (wake_readers t) <-> is_writing t.
Proof. by destruct t. Qed.
Lemma wake_readers_reading t : is_reading (wake_readers t) <-> is_reading t.
Proof. by destruct t. Qed.
Lemma wake_writers_writing t : is_writing (wake_writers t) <-> is_writing t.
Proof. by destruct t. Qed.
Lemma wake_writers_reading t : is_reading (wake_writers t) <-> is_reading t.
Proof. by destruct t. Qed.

Lemma task_insert i t (f : nat -> task) j : <[i := t]> f j = if decide (i = j) then t else f j.
Proof. case_decide; subst; [apply fn_lookup_insert|by apply fn_lookup_insert_ne]. Qed.

Lemma sleepers_write s i bs p' e :
  sleepers_ok s -> ps_task s i = TWrite bs -> pipewrite false bs (ps_pipe s) = (p', e) ->
  sleepers_ok (mkPS p' (after_write i e (ps_task s))
    (sent s ++ taken bs e) (recv s)).
Proof.
  intros [Hf Ho Hw Hr] Hi Hp.
  assert (ps_step s (mkPS p' (after_write i e (ps_task s))
    (sent s ++ taken bs e) (recv s))) as Hst by (eapply (PS_write s i bs false); [done|intros [=]|done]).
  destruct (pipewrite_spec _ _ _ _ _ (proj1 Hf) Hp) as (_ & Hwf' & Hc & Hro & Hwo & He).
  pose proof (proj2 (Ho i)) as Hoi. rewrite Hi in Hoi. specialize (Hoi I).
  constructor; cbn; [by eapply fifo_step|..]; unfold after_write.
  - intros j. rewrite Hro, Hwo, task_insert. case_decide as E.
    + subst j. destruct e; cbn; auto.
    + specialize (Ho j). destruct (pw_wakes_readers e); [|done]. cbn.
      by rewrite wake_readers_reading, wake_readers_writing.
  - intros j r. rewrite task_insert. case_decide as E.
    + destruct e; [done..|]. intros _. rewrite Hro. naive_solver.
    + intros Hj. assert (ps_task s j = TWriteSleep r) as Hj'.
      { destruct (pw_wakes_readers e); [|done]. cbn in Hj. by destruct (ps_task s j). }
      destruct (Hw _ _ Hj') as [Hfull Hopen]. rewrite Hro. split; [|done].
      apply pipe_full_spec in Hfull; [|by destruct Hf]. apply pipe_full_spec; [done|].
      rewrite Hc, length_app, Hfull. pose proof (length_contents _ Hwf') as Hle.
      rewrite Hc, length_app, Hfull in Hle. lia.
  - intros j n. rewrite task_insert. case_decide as E; [by destruct e|].
    destruct e; cbn; [by destruct (ps_task s j)| |by destruct (ps_task s j)].
    intros Hj. destruct He as [_ [Hro'|]]; [|done].
    pose proof (proj1 (Ho j)) as Hoj. rewrite Hj in Hoj. specialize (Hoj I). congruence.
Qed.

Lemma sleepers_read s i n killed p' bs :
  sleepers_ok s -> ps_task s i = TRead n -> piperead killed n (ps_pipe s) = (p', RDone bs) ->
  sleepers_ok (mkPS p' (<[i := TIdle]> (wake_writers ∘ ps_task s)) (sent s) (recv s ++ bs)).
Proof.
  intros [Hf Ho Hw Hr] Hi Hp.
  assert (ps_step s (mkPS p' (<[i := TIdle]> (wake_writers ∘ ps_task s)) (sent s) (recv s ++ bs))) as Hst
    by (by eapply PS_read).
  destruct (piperead_inv _ _ _ _ _ (proj1 Hf) Hp) as (Hwf' & Hc & Hro & Hwo & _).
  constructor; cbn; [by eapply fifo_step|..].
  - intros j. rewrite Hro, Hwo, task_insert. case_decide; [done|]. cbn.
    rewrite wake_writers_reading, wake_writers_writing. apply Ho.
  - intros j r. rewrite task_insert. case_decide; [done|]. cbn. by destruct (ps_task s j).
  - intros j m. rewrite task_insert. case_decide; [done|]. cbn. intros Hj.
    assert (ps_task s j = TReadSleep m) as Hj' by (by destruct (ps_task s j)).
    destruct (Hr _ _ Hj') as [He ?]. rewrite He in Hc. symmetry in Hc. apply app_eq_nil in Hc as [_ ->].
    by rewrite Hwo.
Qed.

Lemma sleepers_close s w p' freed :
  sleepers_ok s -> pipeclose w (ps_pipe s) = (p', freed) ->
  (forall i, ~ (if w then is_writing else is_reading) (ps_task s i)) ->
  sleepers_ok (mkPS p' ((if w then wake_readers else wake_writers) ∘ ps_task s) (sent s) (recv s)).
Proof.
  intros [Hf Ho Hw Hr] Hp Hno.
  assert (ps_step s (mkPS p' ((if w then wake_readers else wake_writers) ∘ ps_task s) (sent s) (recv s))) as Hst
    by (by eapply PS_close).
  unfold pipeclose in Hp. injection Hp as Hp' _.
  constructor; cbn; [by eapply fifo_step|..]; rewrite <-Hp'; destruct w; cbn.
  - intros j. rewrite wake_readers_reading, wake_readers_writing. split; [apply Ho|]. intros Hj. by destruct (Hno j).
  - intros j. rewrite wake_writers_reading, wake_writers_writing. split; [|apply Ho]. intros Hj. by destruct (Hno j).
  - intros j r Hj. destruct (Hno j). by destruct (ps_task s j).
  - intros j r. by destruct (ps_task s j).
  - intros j n. by destruct (ps_task s j).
  - intros j n Hj. destruct (Hno j). by destruct (ps_task s j).
Qed.

Lemma sleepers_step s s' : kills = false -> sleepers_ok s -> ps_step s s' -> sleepers_ok s'.
Proof.
  intros Hk Hs Hst. pose proof Hst as Hst'. destruct Hst as [i t Hi Ht|i bs killed p' e Hi Hkl Hw|i n killed p' bs Hi Hr
    |i n killed p' Hi Hr|i n killed p' Hi Hr|w p' freed Hc Hno].
  - destruct Hs as [Hf Ho Hw Hr]. constructor; cbn; [done|..]; intros j; try intros r; rewrite task_insert; case_decide; auto;
      destruct Ht as [(? & -> & ?)|(? & -> & ?)]; cbn; naive_solver.
  - assert (killed = false) as -> by (destruct killed; [by rewrite Hkl in Hk|done]). by eapply sleepers_write.
  - by eapply sleepers_read.
  - apply piperead_inv in Hr as (-> & He & Hwo); [|by destruct Hs as [[]]]. destruct Hs as [Hf Ho Hw Hrd].
    constructor; cbn; [by eapply fifo_step|..]; intros j; try intros r; rewrite task_insert; case_decide; auto; subst; cbn; auto.
    + split; [|done]. intros _. apply (Ho j). by rewrite Hi.
    + intros [=].
    + apply Hw.
  - apply piperead_inv in Hr as ->; [|by destruct Hs as [[]]]. destruct Hs as [Hf Ho Hw Hrd].
    constructor; cbn; [by eapply fifo_step|..]; intros j; try intros r; rewrite task_insert; case_decide; eauto; done.
  - by eapply sleepers_close.
Qed.
End system.

(** C38: No sleeper on a pipe is forgotten (as long as no writer is killed while it
    writes): a writer asleep faces a full buffer whose read end is open, a
    reader asleep an empty one whose write end is open, so the two never sleep
    at the same time. *)
Theorem pipe_no_lost_wakeup d s (Hd : length d = 512%nat) (Hr : rtc (ps_step false) (ps_init d) s) :
  (forall i r, ps_task s i = TWriteSleep r -> pipe_full (ps_pipe s) = true /\ readopen (ps_pipe s) = true) /\
  (forall i n, ps_task s i = TReadSleep n -> contents (ps_pipe s) = [] /\ writeopen (ps_pipe s) = true) /\
  (forall i j r n, ps_task s i = TWriteSleep r -> ps_task s j = TReadSleep n -> False).
Proof.
  assert (sleepers_ok s) as [[Hwf _] _ Hw Hrd].
  { revert Hr. apply (rtc_invariant (ps_step false) sleepers_ok); [by intros; eapply sleepers_step|].
    constructor; [by split; [split|]|done..]. }
  split_and!; [done..|]. intros i j r n Hi Hj. destruct (Hw _ _ Hi) as [Hf _], (Hrd _ _ Hj) as [He _].
  apply pipe_full_spec in Hf; [|done]. by rewrite He in Hf.
Qed.

(** A writer that finds the pipe full and is killed returns -1 without waking
    the readers, although it may have put bytes in: for every killed writer of
    more bytes than fit in an empty pipe, a reader asleep stays asleep with
    the pipe full. *)
Theorem pipe_killed_writer_forgets_reader p bs i j n (t : nat -> task)
  (Hwf : pipe_wf p) (He : contents p = []) (Hl : (512 < length bs)%nat) (Hij : i <> j)
  (Hj : t j = TReadSleep n) :
  let '(p', e) := pipewrite true bs p in
  e = WFail (drop 512 bs) /\ contents p' = take 512 bs /\ after_write i e t j = TReadSleep n.
Proof.
  destruct (pipewrite true bs p) as [p' e] eqn:E.
  destruct (pipewrite_spec _ _ _ _ _ Hwf E) as (Ha & Hwf' & Hc & _ & _ & Hend).
  pose proof (length_contents _ Hwf') as Hle. rewrite He in Hc. cbn in Hc.
  assert (exists r, e = WFail r) as [r ->].
  { destruct e as [|r|r]; [|by eexists|].
    - rewrite app_nil_r in Ha. rewrite Hc, <-Ha in Hle. lia.
    - exfalso. clear -E. revert p E. induction bs as [|b l IH]; intros p; cbn; [done|].
      destruct (pipe_full p); [by rewrite orb_true_r|apply IH]. }
  destruct Hend as [Hf _]. apply pipe_full_spec in Hf; [|done]. rewrite Hc in Hf. cbn [unsent] in Ha.
  assert (drop 512 bs = r /\ take 512 bs = taken bs (WFail r)) as [-> ->].
  { rewrite <-Hf. split; rewrite Ha at 2; [by rewrite drop_app_length|by rewrite take_app_length]. }
  split_and!; [done..|]. unfold after_write. by rewrite task_insert, decide_False by done.
Qed.

(** ** Witnesses *)
Definition zeros512 : list Z := replicate 512 0.
Definition w_call : psystem := mkPS (pipe_new zeros512) (<[3%nat := TWrite [7; 8]]> (λ _, TIdle)) [] [].
Definition w_pipe : pipe := (pipewrite false [7; 8] (pipe_new zeros512)).1.
Definition w_done : psystem :=
  mkPS w_pipe (after_write 3 WDone (ps_task w_call))
    (sent w_call ++ taken [7; 8] WDone) (recv w_call).

Lemma w_run kills : rtc (ps_step kills) (ps_init zeros512) w_done.
Proof.
  apply rtc_l with w_call; [apply PS_call; [done|left; eauto]|]. apply rtc_once.
  apply (PS_write kills w_call 3 [7; 8] false w_pipe WDone); [reflexivity|intros [=]|].
  vm_compute. reflexivity.
Qed.

Lemma pipe_fifo_witness :
  sent w_done = recv w_done ++ contents (ps_pipe w_done) /\ (length (contents (ps_pipe w_done)) <= 512)%nat.
Proof. apply (pipe_fifo true zeros512 w_done eq_refl (w_run true)). Defined.

Lemma pipe_no_lost_wakeup_witness :
  (forall i r, ps_task w_done i = TWriteSleep r -> pipe_full (ps_pipe w_done) = true /\ readopen (ps_pipe w_done) = true) /\
  (forall i n, ps_task w_done i = TReadSleep n -> contents (ps_pipe w_done) = [] /\ writeopen (ps_pipe w_done) = true) /\
  (forall i j r n, ps_task w_done i = TWriteSleep r -> ps_task w_done j = TReadSleep n -> False).
Proof. apply (pipe_no_lost_wakeup zeros512 w_done eq_refl (w_run false)). Defined.

Lemma pipe_killed_writer_forgets_reader_witness :
  let '(p', e) := pipewrite true (replicate 600 1) (pipe_new zeros512) in
  e = WFail (drop 512 (replicate 600 1)) /\ contents p' = take 512 (replicate 600 1) /\ after_write 0 e (λ _, TReadSleep 4) 1 = TReadSleep 4.
Proof.
  apply (pipe_killed_writer_forgets_reader (pipe_new zeros512) (replicate 600 1) 0 1 4 (λ _, TReadSleep 4)).
  - by split.
  - reflexivity.
  - rewrite length_replicate. by apply Nat.ltb_lt.
  - discriminate.
  - reflexivity.
Defined.
