(* ===== verification/Console.v ===== *)
(** * Console input (console.c): line editing and reading

    [consoleintr] edits the unfinished line in a ring buffer of [Ring.v] and
    commits it at a newline, a control-D or when the buffer is full;
    [consoleread] takes committed characters.  The specification is a line
    discipline on two lists: what is committed and what is being edited. *)

From S2P Require Import Prelude Ring.

Definition INPUT_BUF : Z := 128.
Definition ctrl (x : Z) : Z := x - 64.             (* C(x), x - '@' *)
Definition C_P : Z := ctrl 80.
Definition C_U : Z := ctrl 85.
Definition C_H : Z := ctrl 72.
Definition C_D : Z := ctrl 68.
Definition DEL : Z := 127.
Definition NL : Z := 10.
Definition CR : Z := 13.
Definition BACKSPACE : Z := 256.

(** A [char] of the buffer, as the [int] it is read back as. *)
Definition s8 (x : Z) : Z := let y := u8 x in if y <? 128 then y else y - 256.

(** The input buffer; [out] is what went to consputc, [woken] whether readers
    were woken, [dump] whether a process listing was asked for. *)
Record input := mkInput {
  ibuf : list Z; ir : Z; iw : Z; ie : Z; out : list Z; woken : bool; dump : bool
}.

(** [input.e--; consputc(BACKSPACE);] *)
Definition erase (s : input) : input :=
  mkInput (ibuf s) (ir s) (iw s) (u32 (ie s - 1)) (out s ++ [BACKSPACE]) (woken s) (dump s).

(** The loop of control-U; it turns at most once per character being edited. *)
Fixpoint kill_line (fuel : nat) (s : input) : input :=
  match fuel with
  | O => s
  | S fuel' =>
      if negb (ie s =? iw s) && negb (ring_at INPUT_BUF (ibuf s) (u32 (ie s - 1)) =? NL)
      then kill_line fuel' (erase s) else s
  end.

Definition consolechar (c : Z) (s : input) : input :=
  if c =? C_P then mkInput (ibuf s) (ir s) (iw s) (ie s) (out s) (woken s) true
  else if c =? C_U then kill_line (Z.to_nat (u32 (ie s - iw s))) s
  else if (c =? C_H) || (c =? DEL) then if negb (ie s =? iw s) then erase s else s
  else if negb (c =? 0) && (u32 (ie s - ir s) <? INPUT_BUF) then
    let c := if c =? CR then NL else c in
    let s := mkInput (ring_put INPUT_BUF (ibuf s) (ie s) (s8 c)) (ir s) (iw s) (u32 (ie s + 1))
               (out s ++ [c]) (woken s) (dump s) in
    if (c =? NL) || (c =? C_D) || (ie s =? u32 (ir s + INPUT_BUF))
    then mkInput (ibuf s) (ir s) (ie s) (ie s) (out s) true (dump s) else s
  else s.

(** The characters getc() returns before it returns a negative number. *)
Definition consoleintr (cs : list Z) (s : input) : input := foldl (λ s c, consolechar c s) s cs.

(** How a section of consoleread ends: with bytes (or -1), or asleep with [n]
    characters still wanted and the bytes of this call so far. *)
Inductive cr_end := CDone (bs : list Z) | CFail | CSleep (n : nat) (bs : list Z).

(** The loop: [n] still wanted, [bs] delivered, so [n < target] is [bs <> nil]. *)
Fixpoint consoleread (killed : bool) (n : nat) (bs : list Z) (s : input) : input * cr_end :=
  match n with
  | O => (s, CDone bs)
  | S n' =>
      if ir s =? iw s then if killed then (s, CFail) else (s, CSleep n bs)
      else
        let c := ring_at INPUT_BUF (ibuf s) (ir s) in
        let s' := mkInput (ibuf s) (u32 (ir s + 1)) (iw s) (ie s) (out s) (woken s) (dump s) in
        if c =? C_D then
          (if negb (bool_decide (bs = [])) then
             mkInput (ibuf s) (u32 (ir s' - 1)) (iw s) (ie s) (out s) (woken s) (dump s) else s', CDone bs)
        else if c =? NL then (s', CDone (bs ++ [c]))
        else consoleread killed n' (bs ++ [c]) s'
  end.

(** A run of the console: interrupts, each with the characters getc() has, and
    sections of reads, by any processes: a call wants [n] characters and has [bs]
    already, which is none when it starts.  An interrupt shows what it echoed,
    whether it woke the readers and whether it asked for the listing. *)
Inductive cevent := Typed (cs : list Z) | Reads (killed : bool) (n : nat) (bs : list Z).
Inductive cresult := Echo (o : list Z) (w d : bool) | Got (e : cr_end).

Definition console_event (ev : cevent) (s : input) : input * cresult :=
  match ev with
  | Typed cs =>
      let s' := consoleintr cs (mkInput (ibuf s) (ir s) (iw s) (ie s) [] false false) in
      (s', Echo (out s') (woken s') (dump s'))
  | Reads killed n bs => let '(s', e) := consoleread killed n bs s in (s', Got e)
  end.
Fixpoint console_run (evs : list cevent) (s : input) : input * list cresult :=
  match evs with
  | [] => (s, [])
  | ev :: evs' => let '(s, r) := console_event ev s in let '(s, rs) := console_run evs' s in (s, r :: rs)
  end.

(** ** The line discipline *)
Record line := mkLine { committed : list Z; editing : list Z }.

Definition line_size (l : line) : nat := (length (committed l) + length (editing l))%nat.

Definition linechar (c : Z) (l : line) : line :=
  if c =? C_P then l
  else if c =? C_U then mkLine (committed l) []
  else if (c =? C_H) || (c =? DEL) then mkLine (committed l) (removelast (editing l))
  else if negb (c =? 0) && (line_size l <? 128)%nat then
    let c := if c =? CR then NL else c in
    let l' := mkLine (committed l) (editing l ++ [s8 c]) in
    if (c =? NL) || (c =? C_D) || (line_size l' =? 128)%nat
    then mkLine (committed l' ++ editing l') [] else l'
  else l.

(** What a character shows on the screen, and whether it commits the line. *)
Definition takes (c : Z) (l : line) : bool :=
  negb (bool_decide (c ∈ [0; C_P; C_U; C_H; DEL])) && (line_size l <? 128)%nat.
Definition lineecho (c : Z) (l : line) : list Z :=
  if c =? C_U then replicate (length (editing l)) BACKSPACE
  else if (c =? C_H) || (c =? DEL) then replicate (length (editing l) `min` 1) BACKSPACE
  else if takes c l then [if c =? CR then NL else c] else [].
Definition linecommits (c : Z) (l : line) : bool :=
  takes c l && (bool_decide (c ∈ [NL; CR; C_D]) || (line_size l =? 127)%nat).

(** What a read takes from the committed characters. *)
Fixpoint lineread (killed : bool) (n : nat) (bs q : list Z) : list Z * cr_end :=
  match n, q with
  | O, _ => (q, CDone bs)
  | S n', [] => ([], if killed then CFail else CSleep n bs)
  | S n', c :: q' =>
      if c =? C_D then (if bool_decide (bs = []) then q' else q, CDone bs)
      else if c =? NL then (q', CDone (bs ++ [c]))
      else lineread killed n' (bs ++ [c]) q'
  end.

Fixpoint line_typed (cs : list Z) (l : line) : line * (list Z * bool) :=
  match cs with
  | [] => (l, ([], false))
  | c :: cs' =>
      let '(l', (o, w)) := line_typed cs' (linechar c l) in
      (l', (lineecho c l ++ o, linecommits c l || w))
  end.
Definition line_event (ev : cevent) (l : line) : line * cresult :=
  match ev with
  | Typed cs => let '(l', (o, w)) := line_typed cs l in (l', Echo o w (bool_decide (C_P ∈ cs)))
  | Reads killed n bs => let '(q, e) := lineread killed n bs (committed l) in (mkLine q (editing l), Got e)
  end.
Fixpoint line_run (evs : list cevent) (l : line) : line * list cresult :=
  match evs with
  | [] => (l, [])
  | ev :: evs' => let '(l, r) := line_event ev l in let '(l, rs) := line_run evs' l in (l, r :: rs)
  end.

(** ** The buffer implements the line discipline *)
Section refinement.

Lemma input_divides : (INPUT_BUF | 2 ^ 32).
Proof. by exists 33554432. Qed.

Record rep (s : input) (l : line) : Prop := {
  rep_len : length (ibuf s) = 128%nat;
  rep_u32 : is_u32 (ir s) /\ is_u32 (iw s) /\ is_u32 (ie s);
  rep_order : u32 (iw s - ir s) + u32 (ie s - iw s) = u32 (ie s - ir s);
  rep_size : u32 (ie s - ir s) <= INPUT_BUF;
  rep_committed : ring_contents INPUT_BUF (ibuf s) (ir s) (iw s) = committed l;
  rep_editing : ring_contents INPUT_BUF (ibuf s) (iw s) (ie s) = editing l;
  rep_nl : NL ∉ editing l
}.

Lemma u32_sub_zero x y : is_u32 x -> is_u32 y -> (x =? y) = (u32 (x - y) =? 0).
Proof.
  unfold is_u32, u32. intros Hx Hy. destruct (Z.eqb_spec x y) as [->|Hne]; [by rewrite Z.sub_diag|].
  symmetry. apply Z.eqb_neq. intros H. apply Z.mod_divide in H as [q Hq]; [|lia]. nia.
Qed.

Lemma rep_editing_len s l : rep s l -> Z.of_nat (length (editing l)) = u32 (ie s - iw s).
Proof.
  intros [_ _ _ _ _ He _]. rewrite <-He, length_ring_contents. pose proof (u32_range (ie s - iw s)) as H.
  unfold is_u32 in H. lia.
Qed.

Lemma rep_line_size s l : rep s l -> Z.of_nat (line_size l) = u32 (ie s - ir s).
Proof.
  intros Hr. pose proof (rep_editing_len _ _ Hr). destruct Hr as [_ _ Ho _ Hc _ _]. unfold line_size.
  rewrite Nat2Z.inj_add, <-Hc, length_ring_contents. pose proof (u32_range (iw s - ir s)) as Hu.
  unfold is_u32 in Hu. lia.
Qed.

Lemma editing_empty s l : rep s l -> (ie s =? iw s) = true <-> editing l = [].
Proof.
  intros Hr. pose proof (rep_editing_len _ _ Hr) as Hl. destruct Hr as [_ (_ & Hw & He) _ _ _ _ _].
  rewrite u32_sub_zero, Z.eqb_eq by done. rewrite <-Hl. split; [|intros E; by rewrite E].
  intros. apply length_zero_iff_nil. lia.
Qed.

Lemma rep_erase s l : rep s l -> editing l <> [] -> rep (erase s) (mkLine (committed l) (removelast (editing l))).
Proof.
  intros Hr Hne. pose proof (rep_editing_len _ _ Hr) as Hl.
  assert (0 < u32 (ie s - iw s)) as Hpos by (destruct (editing l); [done|cbn in Hl; lia]).
  destruct Hr as [Hlen (Hur & Huw & Hue) Ho Hs Hc He Hnl].
  assert (0 < u32 (ie s - ir s)) as Hpos' by (pose proof (u32_range (iw s - ir s)) as Hu; unfold is_u32 in Hu; lia).
  constructor; cbn; try done.
  - split_and!; [done..|apply u32_range].
  - rewrite !u32_sub_pred by done. lia.
  - rewrite u32_sub_pred by done. lia.
  - rewrite <-He, (ring_unpush INPUT_BUF ltac:(done) input_divides _ (iw s) (ie s)) by done.
    by rewrite removelast_last.
  - intros Hin. apply Hnl. rewrite (app_removelast_last 0 Hne). apply elem_of_app. by left.
Qed.

Lemma kill_line_rep n : forall s l, rep s l -> length (editing l) = n ->
  rep (kill_line n s) (mkLine (committed l) []) /\
  (out (kill_line n s), woken (kill_line n s), dump (kill_line n s)) = (out s ++ replicate n BACKSPACE, woken s, dump s).
Proof.
  induction n as [|n IH]; intros s l Hr Hn; cbn [kill_line].
  { apply length_zero_iff_nil in Hn. destruct l. cbn in *. subst. by rewrite app_nil_r. }
  assert (editing l <> []) as Hne by (intros E; by rewrite E in Hn).
  assert ((ie s =? iw s) = false) as ->.
  { apply not_true_iff_false. intros E%(editing_empty _ _ Hr). done. }
  assert ((ring_at INPUT_BUF (ibuf s) (u32 (ie s - 1)) =? NL) = false) as ->.
  { apply Z.eqb_neq. intros E. destruct Hr as [_ _ _ _ _ He Hnl]. apply Hnl. rewrite <-He.
    rewrite (ring_unpush INPUT_BUF ltac:(done) input_divides).
    - apply elem_of_app. right. rewrite (ring_at_u32 INPUT_BUF ltac:(done) input_divides) in E. rewrite E. by constructor.
    - rewrite <-He, length_ring_contents in Hn. lia. }
  cbn [negb andb]. destruct (IH (erase s) (mkLine (committed l) (removelast (editing l)))) as [H1 H2]; [by apply rep_erase| |].
  { cbn. rewrite (app_removelast_last 0 Hne), length_app in Hn. cbn in Hn. lia. }
  split; [done|]. rewrite H2. cbn [erase out woken dump replicate]. by rewrite <-app_assoc.
Qed.

Lemma s8_nl c : 0 <= c < 256 -> s8 c = NL -> c = NL.
Proof.
  unfold s8, u8, NL. intros Hc. rewrite Z.mod_small by lia. destruct (Z.ltb_spec c 128); lia.
Qed.

(** Appending a character to the line being edited. *)
Lemma rep_append s l c o wk d : rep s l -> u32 (ie s - ir s) < INPUT_BUF -> s8 c <> NL ->
  rep (mkInput (ring_put INPUT_BUF (ibuf s) (ie s) (s8 c)) (ir s) (iw s) (u32 (ie s + 1)) o wk d)
      (mkLine (committed l) (editing l ++ [s8 c])).
Proof.
  intros [Hlen (Hur & Huw & Hue) Ho Hs Hc He Hnl] Hlt Hcn.
  pose proof (u32_range (iw s - ir s)) as H1. pose proof (u32_range (ie s - iw s)) as H2. unfold is_u32 in H1, H2.
  constructor; cbn; unfold INPUT_BUF in *.
  - unfold ring_put. by rewrite length_insert.
  - split_and!; [done..|apply u32_range].
  - rewrite !u32_sub_succ by lia. lia.
  - rewrite u32_sub_succ by lia. lia.
  - rewrite (ring_put_before 128); [done|done|apply input_divides|lia|lia].
  - rewrite (ring_push 128); [by rewrite He|done|apply input_divides|done|lia|done].
  - intros [Hin|Hin]%elem_of_app; [done|]. apply list_elem_of_singleton in Hin. congruence.
Qed.

(** Committing everything up to the end: also for a line that ends in a newline. *)
Lemma rep_commit s l c o wk d : rep s l -> u32 (ie s - ir s) < INPUT_BUF ->
  rep (mkInput (ring_put INPUT_BUF (ibuf s) (ie s) (s8 c)) (ir s) (u32 (ie s + 1)) (u32 (ie s + 1)) o wk d)
      (mkLine (committed l ++ editing l ++ [s8 c]) []).
Proof.
  intros [Hlen (Hur & Huw & Hue) Ho Hs Hc He Hnl] Hlt.
  constructor; cbn; unfold INPUT_BUF in *.
  - unfold ring_put. by rewrite length_insert.
  - split_and!; [done|apply u32_range..].
  - rewrite Z.sub_diag. change (u32 0) with 0. lia.
  - rewrite u32_sub_succ by lia. lia.
  - rewrite (ring_push 128); [|done|apply input_divides|done|lia|done].
    rewrite (ring_contents_app 128 ltac:(done) input_divides _ _ (iw s)) by done. by rewrite Hc, He, app_assoc.
  - unfold ring_contents. by rewrite Z.sub_diag.
  - apply not_elem_of_nil.
Qed.

(** The tests of the code on the counters are tests on the size of the line. *)
Lemma rep_fits s l : rep s l -> (u32 (ie s - ir s) <? INPUT_BUF) = (line_size l <? 128)%nat.
Proof. intros Hr. pose proof (rep_line_size _ _ Hr). apply eq_true_iff_eq. rewrite Z.ltb_lt, Nat.ltb_lt. unfold INPUT_BUF. lia. Qed.
Lemma rep_fills s l : rep s l -> u32 (ie s - ir s) < INPUT_BUF ->
  (u32 (ie s + 1) =? u32 (ir s + INPUT_BUF)) = (line_size l =? 127)%nat.
Proof.
  intros Hr Hb. pose proof (rep_line_size _ _ Hr) as Hsz. rewrite u32_sub_zero by apply u32_range.
  assert (u32 (u32 (ie s + 1) - u32 (ir s + INPUT_BUF)) = u32 (u32 (ie s - ir s) + 1 - INPUT_BUF)) as ->.
  { unfold u32, INPUT_BUF. rewrite Zminus_mod_idemp_r, Zminus_mod_idemp_l.
    replace ((ie s - ir s) mod 2 ^ 32 + 1 - 128) with ((ie s - ir s) mod 2 ^ 32 + - 127) by ring.
    rewrite Zplus_mod_idemp_l. f_equal. ring. }
  apply eq_true_iff_eq. rewrite Z.eqb_eq, Nat.eqb_eq. unfold u32, INPUT_BUF in *.
  pose proof (Z.mod_pos_bound (ie s - ir s) (2 ^ 32) ltac:(lia)) as Hm. split.
  - intros H0. apply Z.mod_divide in H0 as [q Hq]; [|lia]. nia.
  - intros H0. replace ((ie s - ir s) mod 2 ^ 32 + 1 - 128) with 0 by lia. done.
Qed.

Lemma line_size_append l x : line_size (mkLine (committed l) (editing l ++ [x])) = S (line_size l).
Proof. unfold line_size. cbn. rewrite length_app. cbn. lia. Qed.

(** An interrupt's output so far, and what a character adds. *)
Definition shows (c : Z) (l : line) (s s' : input) : Prop :=
  (out s', woken s', dump s') = (out s ++ lineecho c l, woken s || linecommits c l, dump s || (c =? C_P)).

Lemma shows_nothing c l s : lineecho c l = [] -> linecommits c l = false -> c <> C_P -> shows c l s s.
Proof. intros E1 E2 Hc. unfold shows. rewrite E1, E2, app_nil_r, (proj2 (Z.eqb_neq c C_P) Hc). by rewrite !orb_false_r. Qed.

Lemma takes_ctl c l : c ∈ [0; C_P; C_U; C_H; DEL] -> takes c l = false.
Proof. intros Hc. unfold takes. by rewrite bool_decide_true. Qed.

Lemma consolechar_rep c s l : 0 <= c < 256 -> rep s l -> rep (consolechar c s) (linechar c l) /\ shows c l s (consolechar c s).
Proof.
  intros Hc Hr. unfold consolechar, linechar. destruct (Z.eqb_spec c C_P) as [->|HP].
  { split; [by destruct Hr|]. unfold shows. cbn. by rewrite app_nil_r, orb_false_r, orb_true_r. }
  destruct (Z.eqb_spec c C_U) as [->|HU].
  { pose proof (rep_editing_len _ _ Hr). destruct (kill_line_rep (length (editing l)) s l Hr eq_refl) as [H1 H2].
    replace (Z.to_nat (u32 (ie s - iw s))) with (length (editing l)) by lia. split; [done|]. unfold shows. rewrite H2. cbn. by rewrite !orb_false_r. }
  destruct ((c =? C_H) || (c =? DEL)) eqn:EH.
  { assert (c ∈ [0; C_P; C_U; C_H; DEL]) as Hin by (apply orb_true_iff in EH as [->%Z.eqb_eq| ->%Z.eqb_eq]; set_solver).
    assert (shows c l s (if negb (ie s =? iw s) then erase s else s)) as Hsh.
    { unfold shows, lineecho, linecommits. rewrite (takes_ctl c l Hin), EH, (proj2 (Z.eqb_neq c C_U) HU), (proj2 (Z.eqb_neq c C_P) HP), !orb_false_r.
      destruct (ie s =? iw s) eqn:E; cbn [negb erase out woken dump].
      - apply (editing_empty _ _ Hr) in E. by rewrite E, app_nil_r.
      - destruct (editing l) as [|x e] eqn:Ee; [by rewrite (proj2 (editing_empty _ _ Hr) Ee) in E|]. cbn [length]. by rewrite (Nat.min_r _ 1) by lia. }
    split; [|done]. destruct (ie s =? iw s) eqn:E; cbn [negb].
    - apply (editing_empty _ _ Hr) in E. destruct l as [cm ed]. cbn in *. by subst.
    - apply rep_erase; [done|]. intros E'%(editing_empty _ _ Hr). congruence. }
  assert (c <> C_H /\ c <> DEL) as [HH HD] by (apply orb_false_iff in EH as [?%Z.eqb_neq ?%Z.eqb_neq]; done).
  rewrite (rep_fits _ _ Hr). assert (negb (c =? 0) && (line_size l <? 128)%nat = takes c l) as Et.
  { unfold takes. f_equal. f_equal. apply eq_true_iff_eq. rewrite Z.eqb_eq, bool_decide_eq_true, !elem_of_cons, elem_of_nil. tauto. }
  assert (lineecho c l = if takes c l then [if c =? CR then NL else c] else []) as Ee.
  { unfold lineecho. by rewrite (proj2 (Z.eqb_neq c C_U) HU), EH. }
  rewrite Et. destruct (takes c l) eqn:Htk; [|split; [done|]; apply shows_nothing; [done|unfold linecommits; by rewrite Htk|done]].
  assert (u32 (ie s - ir s) < INPUT_BUF) as Hb.
  { apply Z.ltb_lt. rewrite (rep_fits _ _ Hr). unfold takes in Htk. by apply andb_true_iff in Htk as [_ ?]. }
  set (c' := if c =? CR then NL else c). cbn zeta. rewrite line_size_append.
  assert (0 <= c' < 256) as Hc' by (unfold c', NL; destruct (c =? CR); lia).
  cbn [ie ir ibuf out woken dump]. rewrite (rep_fills _ _ Hr Hb). cbn [committed editing].
  change (S (line_size l) =? 128)%nat with (line_size l =? 127)%nat.
  assert ((c' =? NL) || (c' =? C_D) || (line_size l =? 127)%nat = linecommits c l) as Ec.
  { unfold linecommits. rewrite Htk. cbn [andb]. f_equal. apply eq_true_iff_eq. rewrite orb_true_iff, !Z.eqb_eq, bool_decide_eq_true, !elem_of_cons, elem_of_nil.
    unfold c'. destruct (Z.eqb_spec c CR) as [->|]; [|tauto]. unfold NL, CR, C_D, ctrl. lia. }
  rewrite Ec. unfold shows. rewrite Ee. destruct (linecommits c l) eqn:Hcommit; cbn [out woken dump].
  - split; [by apply rep_commit|]. by rewrite (proj2 (Z.eqb_neq c C_P) HP), orb_true_r, orb_false_r.
  - split; [|by rewrite (proj2 (Z.eqb_neq c C_P) HP), !orb_false_r]. apply rep_append; [done..|].
    intros E%s8_nl; [|done]. by rewrite E in Ec.
Qed.

Lemma consoleintr_rep cs : forall s l, Forall (λ c, 0 <= c < 256) cs -> rep s l ->
  let s' := consoleintr cs s in let '(l', (o, w)) := line_typed cs l in
  rep s' l' /\ (out s', woken s', dump s') = (out s ++ o, woken s || w, dump s || bool_decide (C_P ∈ cs)).
Proof.
  induction cs as [|c cs IH]; intros s l Hcs Hr; cbn [line_typed].
  { split; [done|]. cbn. by rewrite app_nil_r, !orb_false_r. }
  apply Forall_cons in Hcs as [Hc Hcs]. destruct (consolechar_rep c s l Hc Hr) as [Hr' [= E1 E2 E3]].
  specialize (IH _ _ Hcs Hr'). destruct (line_typed cs (linechar c l)) as [l' [o w]]. cbn zeta in *. destruct IH as [H1 H2].
  change (consoleintr (c :: cs) s) with (consoleintr cs (consolechar c s)). split; [done|]. rewrite H2, E1, E2, E3, app_assoc, !orb_assoc.
  assert (bool_decide (C_P ∈ c :: cs) = (c =? C_P) || bool_decide (C_P ∈ cs)) as ->; [|by rewrite orb_assoc].
  apply eq_true_iff_eq. rewrite orb_true_iff, Z.eqb_eq, !bool_decide_eq_true, elem_of_cons. split; intros [?|?]; auto.
Qed.

Lemma rep_read_one s l : rep s l -> (ir s =? iw s) = false ->
  exists c q, committed l = c :: q /\ c = ring_at INPUT_BUF (ibuf s) (ir s) /\
    rep (mkInput (ibuf s) (u32 (ir s + 1)) (iw s) (ie s) (out s) (woken s) (dump s)) (mkLine q (editing l)).
Proof.
  intros [Hlen (Hur & Huw & Hue) Ho Hs Hc He Hnl] Hne.
  assert (0 < u32 (iw s - ir s)) as Hpos.
  { pose proof (u32_range (iw s - ir s)) as Hu. unfold is_u32 in Hu.
    rewrite Z.eqb_sym, u32_sub_zero in Hne by done. apply Z.eqb_neq in Hne. lia. }
  pose proof (u32_range (ie s - iw s)) as Hu2. unfold is_u32 in Hu2.
  rewrite (ring_pop INPUT_BUF ltac:(done) input_divides) in Hc by done.
  eexists _, _. split; [by rewrite <-Hc|]. split; [done|]. constructor; cbn; try done.
  - split_and!; [apply u32_range|done..].
  - rewrite !u32_sub_read by lia. lia.
  - rewrite u32_sub_read by lia. lia.
Qed.

Lemma consoleread_rep killed n : forall bs s l, rep s l ->
  let '(s', e) := consoleread killed n bs s in
  let '(q, e') := lineread killed n bs (committed l) in
  e = e' /\ rep s' (mkLine q (editing l)).
Proof.
  induction n as [|n IH]; intros bs s l Hr; cbn [consoleread lineread]; [by destruct l|].
  destruct (ir s =? iw s) eqn:E.
  - assert (committed l = []) as ->.
    { destruct Hr as [_ (Hur & Huw & _) _ _ <- _ _]. apply ring_contents_nil; [done..|by apply Z.eqb_eq]. }
    assert (rep s (mkLine [] (editing l))); [|by destruct killed]. destruct Hr as [Hlen Hu Ho Hs Hc He Hnl].
    constructor; try done. cbn. apply ring_contents_nil; [apply Hu..|by apply Z.eqb_eq].
  - destruct (rep_read_one _ _ Hr E) as (c & q & Hcm & Hc & Hr'). rewrite Hcm, <-Hc. cbn [ir].
    destruct (c =? C_D).
    + destruct (decide (bs = [])) as [->|Hbs].
      * by rewrite !bool_decide_true by done.
      * rewrite !bool_decide_false by done. split; [done|].
        assert (u32 (u32 (ir s + 1) - 1) = ir s) as Hback.
        { unfold u32. rewrite Zminus_mod_idemp_l. replace (ir s + 1 - 1) with (ir s) by ring.
          apply Z.mod_small. destruct Hr as [_ (Hu & _) _ _ _ _ _]. done. }
        cbn [negb ir]. rewrite Hback, <-Hcm. destruct l, s. exact Hr.
    + destruct (c =? NL); [done|]. apply (IH _ _ (mkLine q (editing l))). done.
Qed.
End refinement.

(** The buffer at boot. *)
Definition input0 : input := mkInput (replicate 128 0) 0 0 0 [] false false.

Lemma rep_input0 : rep input0 (mkLine [] []).
Proof. constructor; try done. by apply not_elem_of_nil. Qed.

(** getc() returns bytes. *)
Definition bytes_typed (ev : cevent) : Prop := match ev with Typed cs => Forall (λ c, 0 <= c < 256) cs | Reads _ _ _ => True end.

Lemma console_event_rep ev s l : bytes_typed ev -> rep s l ->
  let '(s', r) := console_event ev s in let '(l', r') := line_event ev l in r = r' /\ rep s' l'.
Proof.
  intros Hev Hr. destruct ev as [cs|killed n bs]; cbn [console_event line_event].
  - set (s0 := mkInput _ _ _ _ _ _ _). assert (rep s0 l) as Hr0 by (by destruct Hr).
    pose proof (consoleintr_rep cs s0 l Hev Hr0) as H. destruct (line_typed cs l) as [l' [o w]]. destruct H as [H [= -> -> ->]]. done.
  - pose proof (consoleread_rep killed n bs s l Hr) as H. destruct (consoleread killed n bs s) as [s' e], (lineread killed n bs (committed l)) as [q e'].
    destruct H as [-> H]. done.
Qed.

Lemma console_run_rep evs : forall s l, Forall bytes_typed evs -> rep s l ->
  let '(s', rs) := console_run evs s in let '(l', rs') := line_run evs l in rs = rs' /\ rep s' l'.
Proof.
  induction evs as [|ev evs IH]; intros s l Hev Hr; cbn [console_run line_run]; [done|]. apply Forall_cons in Hev as [H1 H2].
  pose proof (console_event_rep ev s l H1 Hr) as H. destruct (console_event ev s) as [s1 r1], (line_event ev l) as [l1 r1']. destruct H as [-> H].
  specialize (IH s1 l1 H2 H). destruct (console_run evs s1) as [s2 rs], (line_run evs l1) as [l2 rs']. destruct IH as [-> IH]. done.
Qed.

(** C10: Console input is a line discipline.  For any sequence of interrupts with
    any characters and of reads by any processes from boot on, the ring buffer
    shows at every event what the specification on two lists shows: the echo of
    the characters typed and erased, the wakeup when a line is committed (at a
    newline, a control-D or 128 unread characters), and for a read the characters
    committed, up to a newline or a control-D, or that it sleeps; the buffer holds
    the two lists after it, however often its indices have wrapped, and nothing
    typed beyond 128 unread characters overwrites any. *)
Theorem console_line_discipline evs
  (Hcs : Forall bytes_typed evs) :
  let '(s, rs) := console_run evs input0 in
  let '(l, rs') := line_run evs (mkLine [] []) in
  rs = rs' /\ rep s l.
Proof. apply (console_run_rep evs input0); [done|apply rep_input0]. Qed.

(** "ab", backspace, "c", newline, "x"; a reader; and 130 characters more. *)
Definition typed : list cevent := [Typed [97; 98; 8; 99; 13; 120]; Reads false 10 []; Typed (replicate 130 121); Reads false 200 []].

Lemma console_line_discipline_witness :
  (console_run typed input0).2 = (line_run typed (mkLine [] [])).2 /\
  exists s l, console_run typed input0 = (s, (line_run typed (mkLine [] [])).2) /\ rep s l.
Proof.
  assert (Forall bytes_typed typed) as H.
  { repeat constructor; try lia. }
  pose proof (console_line_discipline typed H) as D. destruct (console_run typed input0) as [s rs], (line_run typed (mkLine [] [])) as [l rs'].
  destruct D as [-> D]. split; [reflexivity|]. exists s, l. split; [reflexivity|exact D].
Defined.
