(* ===== verification/Block.v ===== *)
(** * Disk blocks: 512 bytes with little-endian fields

    The structures of fs.h and log.c are overlaid on the bytes of a block; a
    field is read and written by its byte offset. *)

From S2P Require Import Prelude.

Definition BSIZE : nat := 512.
Definition block := list Z.
Definition zero_block : block := replicate BSIZE 0.

(** Overwrite the bytes from offset [o] on, as memmove does inside a block. *)
Fixpoint splice (o : nat) (bs : list Z) (b : block) : block :=
  match o, b with
  | S o', x :: b' => x :: splice o' bs b'
  | S _, [] => []
  | O, _ => take (length b) bs ++ drop (length bs) b
  end.

Definition slice (o n : nat) (b : block) : list Z := take n (drop o b).

(** Little-endian integers of [n] bytes. *)
Fixpoint le_bytes (n : nat) (v : Z) : list Z :=
  match n with O => [] | S n' => v mod 256 :: le_bytes n' (v / 256) end.
Fixpoint le_val (bs : list Z) : Z :=
  match bs with [] => 0 | x :: bs' => x + 256 * le_val bs' end.

Definition get32 (b : block) (o : nat) : Z := le_val (slice o 4 b).
Definition put32 (b : block) (o : nat) (v : Z) : block := splice o (le_bytes 4 v) b.
Definition get16 (b : block) (o : nat) : Z := le_val (slice o 2 b).
Definition put16 (b : block) (o : nat) (v : Z) : block := splice o (le_bytes 2 v) b.

(** ** Lemmas *)

Lemma length_le_bytes n v : length (le_bytes n v) = n.
Proof. revert v. induction n; intros; cbn; [done|]. by f_equal. Qed.

Lemma length_splice bs b o : length (splice o bs b) = length b.
Proof.
  revert b. induction o as [|o IH]; intros b.
  - destruct b; cbn [splice]; rewrite length_app, length_take, length_drop; lia.
  - destruct b; [done|]. cbn. by rewrite IH.
Qed.

Lemma splice_app b o bs : (o + length bs <= length b)%nat ->
  splice o bs b = take o b ++ bs ++ drop (o + length bs) b.
Proof.
  revert b. induction o as [|o IH]; intros b Hl.
  - destruct b as [|x b]; cbn [splice].
    + cbn in Hl. destruct bs; [done|cbn in Hl; lia].
    + by rewrite take_ge by lia.
  - destruct b as [|x b]; [cbn in Hl; lia|]. cbn. f_equal. apply IH. cbn in Hl. lia.
Qed.

Lemma slice_splice_same o bs b : (o + length bs <= length b)%nat ->
  slice o (length bs) (splice o bs b) = bs.
Proof.
  intros Hl. rewrite splice_app by done. unfold slice.
  rewrite drop_app_ge by (rewrite length_take; lia). rewrite length_take, Nat.min_l, Nat.sub_diag, drop_0 by lia.
  apply take_app_length.
Qed.

(** Ranges that do not overlap do not see each other. *)
Lemma slice_splice_other o n o' bs b : (o' + length bs <= length b)%nat ->
  (o + n <= o')%nat \/ (o' + length bs <= o)%nat ->
  slice o n (splice o' bs b) = slice o n b.
Proof.
  intros Hl Hd. apply list_eq. intros i. unfold slice. destruct (decide (i < n)%nat).
  2: { by rewrite !lookup_take_ge by lia. }
  rewrite !lookup_take_lt, !lookup_drop by lia. rewrite splice_app by done.
  destruct Hd as [Hd|Hd].
  - rewrite lookup_app_l by (rewrite length_take; lia). by rewrite lookup_take_lt by lia.
  - rewrite lookup_app_r by (rewrite length_take; lia). rewrite length_take, Nat.min_l by lia.
    rewrite lookup_app_r by lia. rewrite lookup_drop. f_equal. lia.
Qed.

Lemma le_val_bytes n v : 0 <= v < 256 ^ Z.of_nat n -> le_val (le_bytes n v) = v.
Proof.
  revert v. induction n as [|n IH]; intros v Hv; cbn [le_bytes le_val].
  - change (256 ^ Z.of_nat 0) with 1 in Hv. lia.
  - rewrite IH; [pose proof (Z.div_mod v 256); lia|]. rewrite Nat2Z.inj_succ, Z.pow_succ_r in Hv by lia.
    split; [apply Z.div_pos; lia|]. apply Z.div_lt_upper_bound; lia.
Qed.

Lemma get32_put32 b o v : (o + 4 <= length b)%nat -> is_u32 v -> get32 (put32 b o v) o = v.
Proof.
  intros Hl Hv. unfold get32, put32. rewrite (slice_splice_same o (le_bytes 4 v)) by done.
  by apply le_val_bytes.
Qed.

Lemma get32_put32_other b o o' v : (o' + 4 <= length b)%nat -> (o + 4 <= o')%nat \/ (o' + 4 <= o)%nat ->
  get32 (put32 b o' v) o = get32 b o.
Proof. intros. unfold get32, put32. by rewrite slice_splice_other. Qed.

Lemma length_put32 b o v : length (put32 b o v) = length b.
Proof. apply length_splice. Qed.

Lemma le_val_range bs : Forall (λ x, 0 <= x < 256) bs -> 0 <= le_val bs < 256 ^ Z.of_nat (length bs).
Proof.
  induction 1 as [|x bs Hx _ IH]; cbn [le_val length]; [done|].
  rewrite Nat2Z.inj_succ, Z.pow_succ_r by lia. lia.
Qed.

#[global] Arguments get32 : simpl never.
#[global] Arguments put32 : simpl never.
#[global] Arguments get16 : simpl never.
#[global] Arguments put16 : simpl never.
#[global] Arguments splice : simpl never.
#[global] Arguments slice : simpl never.
