(* ===== verification/BlockLayer.v ===== *)
(** * What the buffer cache promises to the log and the file system

    A client of bio.c gets a locked buffer for a block ([bread]), reads and
    changes its bytes, writes it through to the disk ([bwrite]) or pins it in
    the cache (sets [B_DIRTY], as log_write does), and gives it back ([brelse]).
    It may hold several buffers at a time.  To the client the cache is a map from
    block numbers to contents, beside the contents on the disk; the two differ
    only on pinned blocks and on blocks it holds.  [Bio.v] implements the
    interface. *)

From S2P Require Import Prelude Block.

Definition NBUF : nat := 30.

(** A buffer is named by its index in the cache, which stands for the pointer the
    code uses.  [bl_ok s H] says that the state is sound and that the process
    holds exactly the buffers of [H], each for the block it maps to. *)
Class BlockLayer (St : Type) := {
  bl_ok : St -> gmap nat Z -> Prop;
  bl_cur : St -> Z -> block;
  bl_disk : St -> Z -> block;
  bl_pinned : St -> gset Z;
  bl_size : Z;                               (* blocks on the disk *)
  bl_bread : Z -> M St nat;
  bl_blockno : nat -> M St Z;                (* b->blockno *)
  bl_data : nat -> M St block;               (* b->data *)
  bl_set : nat -> block -> M St unit;        (* writes to b->data *)
  bl_pin : nat -> M St unit;                 (* b->flags |= B_DIRTY *)
  bl_bwrite : nat -> M St unit;
  bl_brelse : nat -> M St unit
}.

(** The blocks of the held buffers. *)
Definition held_blocks (H : gmap nat Z) : gset Z := map_img H.

(** The contents after block [b] got [d]. *)
Definition upd (f : Z -> block) (b : Z) (d : block) (x : Z) : block := if decide (x = b) then d else f x.

Lemma upd_eq f b d : upd f b d b = d.
Proof. unfold upd. by rewrite decide_True. Qed.
Lemma upd_ne f b d x : x <> b -> upd f b d x = f x.
Proof. intros. unfold upd. by rewrite decide_False. Qed.
Lemma upd_ext f g b d x : (forall y, f y = g y) -> upd f b d x = upd g b d x.
Proof. intros E. unfold upd. by case_decide. Qed.

Section sees.
Context {St : Type} `{BlockLayer St}.

(** The client's view: cached contents [c], disk [d], pinned blocks [P], held
    buffers [H]. *)
Definition sees (s : St) (c d : Z -> block) (P : gset Z) (H : gmap nat Z) : Prop :=
  bl_ok s H /\ (forall x, bl_cur s x = c x) /\ (forall x, bl_disk s x = d x) /\ bl_pinned s = P.

Lemma sees_ext s c d P Hd c' d' : sees s c d P Hd ->
  (forall x, c x = c' x) -> (forall x, d x = d' x) -> sees s c' d' P Hd.
Proof. intros (? & Hc & Hdd & ?) E1 E2. split_and!; [done| | |done]; intros x; congruence. Qed.
End sees.

(** The cache has a buffer left for block [b] beside the pinned and held ones. *)
Definition room (n : Z) (P : gset Z) (H : gmap nat Z) (b : Z) : Prop :=
  0 <= b < n /\ (b ∉ held_blocks H) /\ (size ({[b]} ∪ P ∪ held_blocks H) <= NBUF)%nat.

Class BlockLaws (St : Type) `{BlockLayer St} := {
  bl_clean s Hd b : bl_ok s Hd -> b ∉ bl_pinned s -> b ∉ held_blocks Hd -> bl_cur s b = bl_disk s b;
  bl_length s Hd b : bl_ok s Hd -> length (bl_cur s b) = BSIZE /\ length (bl_disk s b) = BSIZE;
  bl_bread_law s c d P Hd b : sees s c d P Hd -> room bl_size P Hd b ->
    wp (bl_bread b) (λ i s', Hd !! i = None /\ sees s' c d P (<[i:=b]> Hd)) s;
  bl_blockno_law s c d P Hd i b : sees s c d P Hd -> Hd !! i = Some b ->
    wp (bl_blockno i) (λ n s', n = b /\ s' = s) s;
  bl_data_law s c d P Hd i b : sees s c d P Hd -> Hd !! i = Some b ->
    wp (bl_data i) (λ v s', v = c b /\ s' = s) s;
  bl_set_law s c d P Hd i b v : sees s c d P Hd -> Hd !! i = Some b -> length v = BSIZE ->
    wp (bl_set i v) (λ _ s', sees s' (upd c b v) d P Hd) s;
  bl_pin_law s c d P Hd i b : sees s c d P Hd -> Hd !! i = Some b ->
    wp (bl_pin i) (λ _ s', sees s' c d ({[b]} ∪ P) Hd) s;
  bl_bwrite_law s c d P Hd i b : sees s c d P Hd -> Hd !! i = Some b ->
    wp (bl_bwrite i) (λ _ s', sees s' c (upd d b (c b)) (P ∖ {[b]}) Hd) s;
  bl_brelse_law s c d P Hd i b : sees s c d P Hd -> Hd !! i = Some b -> b ∈ P \/ c b = d b ->
    wp (bl_brelse i) (λ _ s', sees s' c d P (delete i Hd)) s
}.

(** ** The typical uses of bio.c's interface *)
Section uses.
Context {St : Type} `{BLi : BlockLayer St} `{BW : !BlockLaws St}.

Definition use_read (b : Z) : M St block :=
  i ← bl_bread b; v ← bl_data i; bl_brelse i ;; mret v.
Definition use_write (b : Z) (v : block) : M St unit :=
  i ← bl_bread b; bl_set i v ;; bl_bwrite i ;; bl_brelse i.
Definition use_pin (b : Z) (v : block) : M St unit :=
  i ← bl_bread b; bl_set i v ;; bl_pin i ;; bl_brelse i.

Lemma held_empty : held_blocks ∅ = ∅.
Proof. apply map_img_empty_L. Qed.
Lemma held_insert (H : gmap nat Z) i b : H !! i = None -> held_blocks (<[i:=b]> H) = {[b]} ∪ held_blocks H.
Proof. apply map_img_insert_notin_L. Qed.

Lemma room_empty n P b : 0 <= b < n -> (size ({[b]} ∪ P) <= NBUF)%nat -> room n P ∅ b.
Proof. intros Hb Hs. unfold room. rewrite held_empty, (right_id_L ∅ (∪)). split_and!; [lia..|set_solver|done]. Qed.

Lemma room_insert n P H i a b : H !! i = None -> 0 <= b < n -> b ∉ held_blocks H -> b <> a ->
  (size ({[b]} ∪ P ∪ ({[a]} ∪ held_blocks H)) <= NBUF)%nat -> room n P (<[i:=a]> H) b.
Proof. intros Hi Hb Hn Hne Hs. unfold room. rewrite held_insert by done. split_and!; [lia..|set_solver|done]. Qed.

Lemma sees_length s c d P Hd b : sees s c d P Hd -> length (c b) = BSIZE /\ length (d b) = BSIZE.
Proof. intros (Ho & Hc & Hdk & _). rewrite <-Hc, <-Hdk. by eapply bl_length. Qed.

Lemma sees_clean s c d P b : sees s c d P ∅ -> b ∉ P -> c b = d b.
Proof.
  intros (Ho & Hc & Hd & Hp) Hb. rewrite <-Hc, <-Hd. eapply bl_clean; [done|by rewrite Hp|].
  rewrite held_empty. set_solver.
Qed.

Lemma use_read_wp s c d P b Q : sees s c d P ∅ -> room bl_size P ∅ b ->
  (forall s', sees s' c d P ∅ -> Q (c b) s') -> wp (use_read b) Q s.
Proof.
  intros Hs Hr HQ. unfold use_read. apply wp_bind. eapply wp_mono; [by eapply bl_bread_law|].
  intros i s1 [Hi H1]. apply wp_bind. eapply wp_mono; [eapply bl_data_law; [exact H1|apply lookup_insert_eq]|].
  intros v s2 [-> ->]. apply wp_bind. eapply wp_mono.
  { eapply bl_brelse_law; [exact H1|apply lookup_insert_eq|].
    destruct (decide (b ∈ P)); [by left|right]. by eapply sees_clean. }
  intros [] s3 H3. apply wp_ret, HQ. by rewrite delete_insert_id in H3.
Qed.

Lemma use_write_wp s c d P b v Q : sees s c d P ∅ -> room bl_size P ∅ b -> length v = BSIZE ->
  (forall s', sees s' (upd c b v) (upd d b v) (P ∖ {[b]}) ∅ -> Q tt s') -> wp (use_write b v) Q s.
Proof.
  intros Hs Hr Hv HQ. unfold use_write. apply wp_bind. eapply wp_mono; [by eapply bl_bread_law|].
  intros i s1 [Hi H1]. apply wp_bind. eapply wp_mono; [eapply bl_set_law; [exact H1|apply lookup_insert_eq|done]|].
  intros [] s2 H2. apply wp_bind. eapply wp_mono; [eapply bl_bwrite_law; [exact H2|apply lookup_insert_eq]|].
  intros [] s3 H3. rewrite upd_eq in H3. eapply wp_mono.
  { eapply bl_brelse_law; [exact H3|apply lookup_insert_eq|]. right. by rewrite !upd_eq. }
  intros [] s4 H4. apply HQ. by rewrite delete_insert_id in H4.
Qed.

Lemma use_pin_wp s c d P b v Q : sees s c d P ∅ -> room bl_size P ∅ b -> length v = BSIZE ->
  (forall s', sees s' (upd c b v) d ({[b]} ∪ P) ∅ -> Q tt s') -> wp (use_pin b v) Q s.
Proof.
  intros Hs Hr Hv HQ. unfold use_pin. apply wp_bind. eapply wp_mono; [by eapply bl_bread_law|].
  intros i s1 [Hi H1]. apply wp_bind. eapply wp_mono; [eapply bl_set_law; [exact H1|apply lookup_insert_eq|done]|].
  intros [] s2 H2. apply wp_bind. eapply wp_mono; [eapply bl_pin_law; [exact H2|apply lookup_insert_eq]|].
  intros [] s3 H3. eapply wp_mono.
  { eapply bl_brelse_law; [exact H3|apply lookup_insert_eq|]. left. set_solver. }
  intros [] s4 H4. apply HQ. by rewrite delete_insert_id in H4.
Qed.
End uses.
