(* ===== verification/Bio.v ===== *)
(** * The buffer cache (bio.c), on the memory disk (memide.c)

    The buffers with their sleep-locks, the list that orders them by use, and the
    disk.  The operations are those of one process, whose pid is [mypid]; the
    cache implements the block layer of [BlockLayer.v]. *)

From S2P Require Import Prelude Sleeplock Block BlockLayer.

Record buf := mkBuf {
  bvalid : bool; bdirty : bool; bdev : Z; bno : Z;
  blk : sleeplock; refcnt : Z; bdata : block
}.
Definition buf0 : buf := mkBuf false false 0 0 initsleeplock 0 zero_block.

(** [order] lists the buffers from head.next (most recently used) to head.prev. *)
Record bcache := mkBc { bufs : list buf; order : list nat; bclock : bool; disk : Z -> block }.

Definition set_flags (v d : bool) (b : buf) := mkBuf v d (bdev b) (bno b) (blk b) (refcnt b) (bdata b).
Definition set_blk (l : sleeplock) (b : buf) := mkBuf (bvalid b) (bdirty b) (bdev b) (bno b) l (refcnt b) (bdata b).
Definition set_refcnt (n : Z) (b : buf) := mkBuf (bvalid b) (bdirty b) (bdev b) (bno b) (blk b) n (bdata b).
Definition set_bdata (d : block) (b : buf) := mkBuf (bvalid b) (bdirty b) (bdev b) (bno b) (blk b) (refcnt b) d.

Section bio.
(** The number of blocks of the disk image, and the pid of the running process. *)
Context (disksize mypid : Z).

Definition bget_buf (s : bcache) (i : nat) : buf := default buf0 (bufs s !! i).
Definition bupd (i : nat) (f : buf -> buf) : M bcache unit :=
  modify (λ s, mkBc (alter f i (bufs s)) (order s) (bclock s) (disk s)).
Definition bfield {A} (i : nat) (f : buf -> A) : M bcache A := gets (λ s, f (bget_buf s i)).

Definition acquire_bc : M bcache unit :=
  s ← get; if bclock s then panic "acquire" else put (mkBc (bufs s) (order s) true (disk s)).
Definition release_bc : M bcache unit :=
  s ← get; if negb (bclock s) then panic "release" else put (mkBc (bufs s) (order s) false (disk s)).

(** binit: every buffer goes in at the head of the list in turn. *)
Definition binit (d : Z -> block) : bcache := mkBc (replicate NBUF buf0) (rev (seq 0 NBUF)) false d.

(** An operation on the sleep-lock of buffer [i]. *)
Definition on_lock {A} (i : nat) (m : M sleeplock A) : M bcache A :=
  zoom (λ s, blk (bget_buf s i)) (λ l s, mkBc (alter (set_blk l) i (bufs s)) (order s) (bclock s) (disk s)) m.
Definition acquire_buf (i : nat) : M bcache unit := on_lock i (acquiresleep (Z.of_nat i) mypid).
Definition release_buf (i : nat) : M bcache unit := on_lock i releasesleep.
Definition holding_buf (i : nat) : M bcache bool := on_lock i (holdingsleep mypid).

Definition bmatch (dev blockno : Z) (b : buf) : bool := (bdev b =? dev) && (bno b =? blockno).
Definition buf_free (b : buf) : bool := (refcnt b =? 0) && negb (bdirty b).

(** The first index of the list whose buffer satisfies [f]. *)
Definition find_buf (f : buf -> bool) (s : bcache) (l : list nat) : option nat :=
  snd <$> list_find (λ i, f (bget_buf s i) = true) l.

Definition bget (dev blockno : Z) : M bcache nat :=
  acquire_bc ;;
  s ← get;
  match find_buf (bmatch dev blockno) s (order s) with
  | Some i =>
      bupd i (λ b, set_refcnt (u32 (refcnt b + 1)) b) ;; release_bc ;; acquire_buf i ;; mret i
  | None =>
      match find_buf buf_free s (rev (order s)) with
      | Some i =>
          bupd i (λ b, mkBuf false false dev blockno (blk b) 1 (bdata b)) ;;
          release_bc ;; acquire_buf i ;; mret i
      | None => panic "bget: no buffers"
      end
  end.

(** iderw of memide.c: [B_DIRTY] writes the block, otherwise it is read. *)
Definition iderw (i : nat) : M bcache unit :=
  h ← holding_buf i;
  b ← bfield i (λ b, b);
  if negb h then panic "iderw: buf not locked"
  else if bvalid b && negb (bdirty b) then panic "iderw: nothing to do"
  else if negb (bdev b =? 1) then panic "iderw: request not for disk 1"
  else if disksize <=? bno b then panic "iderw: block out of range"
  else if bdirty b then
    modify (λ s, mkBc (bufs s) (order s) (bclock s) (upd (disk s) (bno b) (bdata b))) ;;
    bupd i (set_flags true false)
  else
    s ← get;
    bupd i (λ b, set_flags true false (set_bdata (disk s (bno b)) b)).

Definition bread (dev blockno : Z) : M bcache nat :=
  i ← bget dev blockno;
  v ← bfield i bvalid;
  when (negb v) (iderw i) ;;
  mret i.

Definition bwrite (i : nat) : M bcache unit :=
  h ← holding_buf i;
  if negb h then panic "bwrite"
  else bupd i (λ b, set_flags (bvalid b) true b) ;; iderw i.

Definition brelse (i : nat) : M bcache unit :=
  h ← holding_buf i;
  if negb h then panic "brelse"
  else
    release_buf i ;;
    acquire_bc ;;
    bupd i (λ b, set_refcnt (u32 (refcnt b - 1)) b) ;;
    n ← bfield i refcnt;
    when (n =? 0) (modify (λ s, mkBc (bufs s) (i :: filter (λ j, j ≠ i) (order s)) (bclock s) (disk s))) ;;
    release_bc.

(** ** What a client sees of the blocks of device 1 *)

Definition on_disk1 (b : Z) (x : buf) : bool := (bdev x =? 1) && (bno x =? b).
Definition cached (s : bcache) (b : Z) : option buf := snd <$> list_find (λ x, on_disk1 b x = true) (bufs s).
Definition bc_cur (s : bcache) (b : Z) : block := match cached s b with Some x => bdata x | None => disk s b end.
Definition bc_pinned (s : bcache) : gset Z := list_to_set (bno <$> filter (λ x, bdirty x = true) (bufs s)).

Definition held_lock : sleeplock := mkSl true mypid.
Definition idle (x : buf) : Prop := blk x = initsleeplock /\ refcnt x = 0.
Definition in_hand (x : buf) : Prop := blk x = held_lock /\ refcnt x = 1.

(** A buffer as it is between two calls: held for its block, or free. *)
Definition buf_ok (d : Z -> block) (h : option Z) (x : buf) : Prop :=
  match h with
  | Some b => in_hand x /\ bno x = b /\ bdev x = 1 /\ bvalid x = true
  | None => idle x /\ (bdev x = 0 /\ bvalid x = false /\ bdirty x = false \/
      bdev x = 1 /\ bvalid x = true /\ (bdirty x = false -> bdata x = d (bno x)))
  end.

(** The cache between the calls of a process that holds the buffers of [H]. *)
Record bc_ok (s : bcache) (H : gmap nat Z) : Prop := {
  bc_len : length (bufs s) = NBUF;
  bc_order : order s ≡ₚ seq 0 NBUF;
  bc_lock : bclock s = false;
  bc_buf i x : bufs s !! i = Some x -> buf_ok (disk s) (H !! i) x;
  bc_uniq i j x y : bufs s !! i = Some x -> bufs s !! j = Some y -> bdev x = 1 -> bdev y = 1 -> bno x = bno y -> i = j;
  bc_data i x : bufs s !! i = Some x -> bdev x = 1 -> length (bdata x) = BSIZE;
  bc_disk b : length (disk s b) = BSIZE;
  bc_held i b : H !! i = Some b -> (i < NBUF)%nat /\ b < disksize
}.

(** ** Running the operations on a buffer *)

Lemma bget_buf_at l i x o k d : (i < length l)%nat -> bget_buf (mkBc (<[i:=x]> l) o k d) i = x.
Proof. intros Hi. unfold bget_buf. cbn. by rewrite list_lookup_insert_eq. Qed.

Lemma alter_at {A} (f : A -> A) i x (l : list A) : (i < length l)%nat -> alter f i (<[i:=x]> l) = <[i:=f x]> l.
Proof.
  intros Hi. apply list_eq. intros j. destruct (decide (i = j)) as [<-|Hne].
  - by rewrite list_lookup_alter_eq, !list_lookup_insert_eq by done.
  - by rewrite list_lookup_alter_ne, !list_lookup_insert_ne by done.
Qed.

Lemma bupd_at l i x o k d f : (i < length l)%nat ->
  bupd i f (mkBc (<[i:=x]> l) o k d) = Ret tt (mkBc (<[i:=f x]> l) o k d).
Proof. intros Hi. unfold bupd, modify. cbn. by rewrite alter_at. Qed.

Lemma bfield_at {A} l i x o k d (f : buf -> A) : (i < length l)%nat ->
  bfield i f (mkBc (<[i:=x]> l) o k d) = Ret (f x) (mkBc (<[i:=x]> l) o k d).
Proof. intros Hi. unfold bfield, gets. by rewrite bget_buf_at. Qed.

Lemma on_lock_at {A} l i x o k d (m : M sleeplock A) a lk : (i < length l)%nat -> m (blk x) = Ret a lk ->
  on_lock i m (mkBc (<[i:=x]> l) o k d) = Ret a (mkBc (<[i:=set_blk lk x]> l) o k d).
Proof. intros Hi Hm. unfold on_lock, zoom. rewrite bget_buf_at, Hm by done. cbn. by rewrite alter_at. Qed.

#[local] Arguments acquire_buf : simpl never.
#[local] Arguments release_buf : simpl never.
#[local] Arguments holding_buf : simpl never.
#[local] Arguments bupd : simpl never.
#[local] Arguments bfield : simpl never.

Lemma acquire_buf_at l i x o k d : (i < length l)%nat -> blk x = initsleeplock ->
  acquire_buf i (mkBc (<[i:=x]> l) o k d) = Ret tt (mkBc (<[i:=set_blk held_lock x]> l) o k d).
Proof. intros Hi Hx. apply on_lock_at; [done|]. by rewrite Hx. Qed.

Lemma release_buf_at l i x o k d : (i < length l)%nat ->
  release_buf i (mkBc (<[i:=x]> l) o k d) = Ret tt (mkBc (<[i:=set_blk initsleeplock x]> l) o k d).
Proof. intros Hi. by apply on_lock_at. Qed.

Lemma holding_buf_at l i x o k d : (i < length l)%nat -> blk x = held_lock ->
  holding_buf i (mkBc (<[i:=x]> l) o k d) = Ret true (mkBc (<[i:=x]> l) o k d).
Proof.
  intros Hi Hx. unfold holding_buf. erewrite on_lock_at; [|done|].
  2: { rewrite Hx. unfold holdingsleep, mbind, M_bind, get, mret, M_ret. cbn. by rewrite Z.eqb_refl. }
  do 3 f_equal. destruct x; cbn in *. by subst.
Qed.

(** The buffer [x] in the hands of the process, and given back. *)
Definition take_buf (x : buf) : buf := set_refcnt 1 (set_blk held_lock x).
Definition give_buf (x : buf) : buf := set_refcnt 0 (set_blk initsleeplock x).

Lemma brelse_at l i x o d : (i < length l)%nat -> in_hand x ->
  brelse i (mkBc (<[i:=x]> l) o false d) =
  Ret tt (mkBc (<[i:=give_buf x]> l) (i :: filter (λ j, j ≠ i) o) false d).
Proof.
  intros Hi [Hb Hr]. unfold brelse, acquire_bc, release_bc, when, get, put, modify, mbind, M_bind.
  rewrite holding_buf_at by done. cbn. rewrite release_buf_at by done. cbn.
  rewrite bupd_at by done. cbn. rewrite bfield_at by done. cbn. by rewrite Hr.
Qed.

Lemma bwrite_at l i x o d : (i < length l)%nat -> in_hand x -> bdev x = 1 -> bno x < disksize ->
  bwrite i (mkBc (<[i:=x]> l) o false d) =
  Ret tt (mkBc (<[i:=set_flags true false x]> l) o false (upd d (bno x) (bdata x))).
Proof.
  intros Hi [Hb Hr] Hd Hn. unfold bwrite, iderw, get, put, modify, mbind, M_bind.
  rewrite holding_buf_at by done. cbn. rewrite bupd_at by done. cbn.
  rewrite holding_buf_at by done. cbn. rewrite bfield_at by done. cbn.
  rewrite andb_false_r, Hd, (proj2 (Z.leb_gt _ _)) by done. cbn. by rewrite bupd_at.
Qed.

(** ** The view of a state *)

Lemma bget_buf_lookup s i : (i < length (bufs s))%nat -> bufs s !! i = Some (bget_buf s i).
Proof. intros [x Hx]%lookup_lt_is_Some_2. unfold bget_buf. by rewrite Hx. Qed.

Lemma on_disk1_spec b x : on_disk1 b x = true <-> bdev x = 1 /\ bno x = b.
Proof. unfold on_disk1. by rewrite andb_true_iff, !Z.eqb_eq. Qed.

Lemma cached_Some s b i x : (forall j y, bufs s !! j = Some y -> bdev y = 1 -> bno y = b -> j = i) ->
  bufs s !! i = Some x -> bdev x = 1 -> bno x = b -> bc_cur s b = bdata x.
Proof.
  intros Hu Hi Hd Hn. unfold bc_cur, cached. destruct (list_find _ _) as [[j y]|] eqn:E; cbn.
  - apply list_find_Some in E as (Hj & Hy & _). apply on_disk1_spec in Hy as [Hy1 Hy2].
    assert (j = i) as -> by eauto. congruence.
  - rewrite list_find_None, Forall_forall in E. destruct (E x); [by eapply list_elem_of_lookup_2|].
    by apply on_disk1_spec.
Qed.

Lemma cached_None s b : (forall j x, bufs s !! j = Some x -> bdev x = 1 -> bno x <> b) -> bc_cur s b = disk s b.
Proof.
  intros Hno. unfold bc_cur, cached. destruct (list_find _ _) as [[j y]|] eqn:E; cbn; [|done].
  apply list_find_Some in E as (Hj & [Hy1 Hy2]%on_disk1_spec & _). by destruct (Hno j y).
Qed.

(** A block is in one buffer or in none. *)
Lemma cached_cases s H b : bc_ok s H ->
  (exists i x, bufs s !! i = Some x /\ bdev x = 1 /\ bno x = b /\ bc_cur s b = bdata x) \/
  (forall j x, bufs s !! j = Some x -> bdev x = 1 -> bno x <> b) /\ bc_cur s b = disk s b.
Proof.
  intros Hok. unfold bc_cur, cached. destruct (list_find _ _) as [[j y]|] eqn:E; cbn.
  - apply list_find_Some in E as (Hj & [Hy1 Hy2]%on_disk1_spec & _). left. by exists j, y.
  - right. split; [|done]. intros j x Hj Hd Hn. rewrite list_find_None, Forall_forall in E.
    apply (E x); [by eapply list_elem_of_lookup_2|by apply on_disk1_spec].
Qed.

Lemma elem_of_pinned s b : b ∈ bc_pinned s <-> exists i x, bufs s !! i = Some x /\ bdirty x = true /\ bno x = b.
Proof.
  unfold bc_pinned. rewrite elem_of_list_to_set, list_elem_of_fmap. setoid_rewrite list_elem_of_filter.
  split.
  - intros (x & -> & ? & [i Hi]%list_elem_of_lookup). eauto.
  - intros (i & x & Hi & ? & <-). exists x. eauto using list_elem_of_lookup_2.
Qed.

Lemma dirty_dev s H i x : bc_ok s H -> bufs s !! i = Some x -> bdirty x = true -> bdev x = 1.
Proof.
  intros Hok Hx Hd. pose proof (bc_buf s H Hok i x Hx) as Hb. unfold buf_ok in Hb. destruct (H !! i); [tauto|].
  destruct Hb as [_ [(_ & _ & ?)|(? & _)]]; congruence.
Qed.

(** ** Every operation replaces one buffer *)

(** Buffer [i] is the one for block [b], or one to recycle, and no other is for it. *)
Record slot_for (s : bcache) (H : gmap nat Z) (b : Z) (i : nat) : Prop := {
  sf_others j y : j <> i -> bufs s !! j = Some y -> bdev y = 1 -> bno y <> b;
  sf_old : exists y, bufs s !! i = Some y /\ (bdev y = 1 /\ bno y = b \/ H !! i = None /\ bdirty y = false)
}.

Record takes (s : bcache) (H H' : gmap nat Z) (b : Z) (i : nat) (x : buf) (o : list nat) (d : Z -> block) : Prop := {
  tk_block : bdev x = 1 /\ bno x = b /\ length (bdata x) = BSIZE;
  tk_ok : buf_ok d (H' !! i) x;
  tk_held j : j <> i -> H' !! j = H !! j;
  tk_disk c : c <> b -> d c = disk s c;
  tk_disk_len : length (d b) = BSIZE;
  tk_order : o ≡ₚ seq 0 NBUF;
  tk_range c : H' !! i = Some c -> c < disksize
}.

Section replace.
Context (s : bcache) (H H' : gmap nat Z) (b : Z) (i : nat) (x : buf) (o : list nat) (d : Z -> block).
Hypothesis Hok : bc_ok s H.
Hypothesis Hslot : slot_for s H b i.
Hypothesis Htakes : takes s H H' b i x o d.
Let s' := mkBc (<[i:=x]> (bufs s)) o false d.

Lemma replace_len : (i < length (bufs s))%nat.
Proof. destruct Hslot as [_ (y & Hy & _)]. by eapply lookup_lt_Some. Qed.

Lemma replace_lookup j y : bufs s' !! j = Some y -> j = i /\ y = x \/ j <> i /\ bufs s !! j = Some y.
Proof.
  cbn. pose proof replace_len. destruct (decide (i = j)) as [<-|Hne].
  - rewrite list_lookup_insert_eq by done. naive_solver.
  - rewrite list_lookup_insert_ne by done. naive_solver.
Qed.

Lemma buf_ok_disk h y : (bdev y = 1 -> bno y <> b) -> buf_ok (disk s) h y -> buf_ok d h y.
Proof.
  intros Hne. unfold buf_ok. destruct h; [done|]. intros [Hi [Hz|(Hd & Hv & Hc)]]; split; auto.
  right. split_and!; try done. intros E. rewrite (tk_disk _ _ _ _ _ _ _ _ Htakes) by auto. auto.
Qed.

Lemma replace_ok : bc_ok s' H'.
Proof.
  destruct Htakes as [(Hd & Hn & Hl) Hb Hh Hdk Hdl Ho Hr]. constructor.
  - cbn. rewrite length_insert. apply (bc_len s H Hok).
  - done.
  - done.
  - intros j y [[-> ->]|[Hj Hy]]%replace_lookup; [done|]. rewrite Hh by done. apply buf_ok_disk.
    + intros Hdy. by eapply (sf_others _ _ _ _ Hslot).
    + by apply (bc_buf s H Hok).
  - intros j k y z [[-> ->]|[Hj Hy]]%replace_lookup [[-> ->]|[Hk Hz]]%replace_lookup Hdy Hdz Hno; [done|..].
    + destruct (sf_others _ _ _ _ Hslot k z); [done..|congruence].
    + destruct (sf_others _ _ _ _ Hslot j y); [done..|congruence].
    + by eapply (bc_uniq s H Hok j k).
  - intros j y [[-> ->]|[Hj Hy]]%replace_lookup Hdy; [done|]. by eapply (bc_data s H Hok).
  - intros c. cbn. destruct (decide (c = b)) as [->|]; [done|]. rewrite Hdk by done. apply (bc_disk s H Hok).
  - intros j c Hj. destruct (decide (j = i)) as [->|Hne].
    + rewrite <-(bc_len s H Hok). split; [apply replace_len|by apply Hr].
    + rewrite Hh in Hj by done. by apply (bc_held s H Hok).
Qed.

Lemma replace_uniq j y : bufs s' !! j = Some y -> bdev y = 1 -> bno y = b -> j = i.
Proof.
  intros [[-> ->]|[Hj Hy]]%replace_lookup Hd Hn; [done|]. by destruct (sf_others _ _ _ _ Hslot j y).
Qed.

Lemma replace_cur c : bc_cur s' c = upd (bc_cur s) b (bdata x) c.
Proof.
  pose proof replace_len as Hlt. destruct Htakes as [(Hd & Hn & Hl) Hb Hh Hdk Hdl Ho Hr].
  destruct (decide (c = b)) as [->|Hne].
  { rewrite upd_eq. apply (cached_Some s' b i x); try done; [apply replace_uniq|]. cbn. by apply list_lookup_insert_eq. }
  rewrite upd_ne by done. destruct (cached_cases s H c Hok) as [(j & y & Hj & Hdy & Hy & ->)|[Hno ->]].
  - destruct (decide (j = i)) as [->|Hji].
    + destruct (sf_old _ _ _ _ Hslot) as (z & Hz & [[_ ?]|[HN Hcl]]); [congruence|].
      assert (z = y) as -> by congruence. rewrite cached_None.
      * cbn. rewrite Hdk by done. pose proof (bc_buf s H Hok i y Hj) as Hby. rewrite HN in Hby.
        destruct Hby as [_ [(? & _)|(_ & _ & ->)]]; [lia|by rewrite Hy|done].
      * intros k w [[_ ->]|[Hki Hk]]%replace_lookup Hw; [congruence|].
        intros Hwc. apply Hki. eapply (bc_uniq s H Hok k i); eauto. congruence.
    + eapply (cached_Some s' c j); try done.
      * intros k w [[_ ->]|[Hki Hk]]%replace_lookup Hw Hwc; [congruence|]. eapply (bc_uniq s H Hok k j); eauto. congruence.
      * cbn. by rewrite list_lookup_insert_ne.
  - rewrite (cached_None s'); [cbn; by rewrite Hdk|].
    intros k w [[_ ->]|[Hki Hk]]%replace_lookup Hw; [congruence|by eapply Hno].
Qed.

Lemma replace_pinned : bc_pinned s' = if bdirty x then {[b]} ∪ bc_pinned s else bc_pinned s ∖ {[b]}.
Proof.
  pose proof replace_len as Hlt. destruct Htakes as [(Hd & Hn & Hl) Hb Hh Hdk Hdl Ho Hr].
  assert (forall c, c <> b -> c ∈ bc_pinned s' <-> c ∈ bc_pinned s) as Hother.
  { intros c Hne. rewrite !elem_of_pinned. split; intros (j & y & Hj & Hdy & Hy).
    - apply replace_lookup in Hj as [[-> ->]|[_ Hj]]; [congruence|]. by exists j, y.
    - exists j, y. split; [|done]. destruct (decide (i = j)) as [<-|Hji].
      + destruct (sf_old _ _ _ _ Hslot) as (z & Hz & [[_ ?]|[_ ?]]); congruence.
      + cbn. by rewrite list_lookup_insert_ne. }
  assert (b ∈ bc_pinned s' <-> bdirty x = true) as Hbp.
  { rewrite elem_of_pinned. split.
    - intros (j & y & Hj & Hdy & Hy). apply replace_lookup in Hj as [[_ ->]|[Hji Hj]]; [done|].
      destruct (sf_others _ _ _ _ Hslot j y); [done..|by eapply dirty_dev|done].
    - intros Hdx. exists i, x. split; [|done]. cbn. by apply list_lookup_insert_eq. }
  apply set_eq. intros c. destruct (decide (c = b)) as [->|Hne].
  - rewrite Hbp. destruct (bdirty x); set_solver.
  - rewrite (Hother c Hne). destruct (bdirty x); set_solver.
Qed.
End replace.

(** ** The buffer of a cached block *)

Lemma cached_slot s H b i x : bc_ok s H -> bufs s !! i = Some x -> bdev x = 1 -> bno x = b ->
  slot_for s H b i /\ bc_cur s b = bdata x /\ (bdirty x = true <-> b ∈ bc_pinned s).
Proof.
  intros Hok Hx Hd Hn.
  assert (forall j y, bufs s !! j = Some y -> bdev y = 1 -> bno y = b -> j = i) as Hu.
  { intros j y Hj Hdy Hy. eapply (bc_uniq s H Hok j i); eauto. congruence. }
  split_and!.
  - constructor; [|by exists x; auto]. intros j y Hne Hj Hdy Hy. eauto.
  - by eapply cached_Some.
  - rewrite elem_of_pinned. split; [by exists i, x|]. intros (j & y & Hj & Hdy & Hy).
    assert (j = i) as -> by (eapply Hu; eauto using dirty_dev). congruence.
Qed.

Definition with_buf (s : bcache) (i : nat) (x : buf) : bcache := mkBc (<[i:=x]> (bufs s)) (order s) false (disk s).

Lemma with_buf_id s H i x : bc_ok s H -> bufs s !! i = Some x -> with_buf s i x = s.
Proof. intros Hok Hx. unfold with_buf. rewrite list_insert_id by done. rewrite <-(bc_lock s H Hok). by destruct s. Qed.

Lemma held_buf s H i b : bc_ok s H -> H !! i = Some b ->
  exists x, with_buf s i x = s /\ (i < length (bufs s))%nat /\ in_hand x /\ bdev x = 1 /\ bno x = b /\ bvalid x = true /\
    length (bdata x) = BSIZE /\ slot_for s H b i /\ bc_cur s b = bdata x /\ (bdirty x = true <-> b ∈ bc_pinned s).
Proof.
  intros Hok Hi. assert (i < length (bufs s))%nat as Hlt by (rewrite (bc_len s H Hok); by apply (bc_held s H Hok i b)).
  pose proof (bget_buf_lookup s i Hlt) as Hx. exists (bget_buf s i).
  pose proof (bc_buf s H Hok i _ Hx) as Hb. rewrite Hi in Hb. destruct Hb as (Hh & Hn & Hd & Hv).
  destruct (cached_slot s H b i _ Hok Hx Hd Hn) as (? & ? & ?).
  split_and!; try done; try apply Hh; [by eapply with_buf_id|by eapply (bc_data s H Hok)|tauto..].
Qed.

(** ** bread finds or makes a buffer for the block *)

Lemma find_buf_Some f s l i : find_buf f s l = Some i -> i ∈ l /\ f (bget_buf s i) = true.
Proof.
  unfold find_buf. destruct (list_find _ _) as [[k j]|] eqn:E; cbn; [|done]. intros [= ->].
  apply list_find_Some in E as (Hk & Hf & _). by eauto using list_elem_of_lookup_2.
Qed.

Lemma find_buf_None f s l i : find_buf f s l = None -> i ∈ l -> f (bget_buf s i) = false.
Proof.
  unfold find_buf. destruct (list_find _ _) as [[k j]|] eqn:E; cbn; [done|]. intros _ Hi.
  rewrite list_find_None, Forall_forall in E. by apply not_true_iff_false, E.
Qed.

Lemma order_elem s H i : bc_ok s H -> i ∈ order s <-> (i < length (bufs s))%nat.
Proof. intros Hok. rewrite (bc_order s H Hok), elem_of_seq, (bc_len s H Hok). lia. Qed.

Lemma miss_uncached s H b : bc_ok s H -> find_buf (bmatch 1 b) s (order s) = None ->
  forall j y, bufs s !! j = Some y -> bdev y = 1 -> bno y <> b.
Proof.
  intros Hok Hnone j y Hj Hd Hy.
  assert (bmatch 1 b (bget_buf s j) = false) as Hm.
  { eapply find_buf_None; [exact Hnone|]. eapply order_elem; [done|]. by eapply lookup_lt_Some. }
  unfold bget_buf in Hm. rewrite Hj in Hm. change (bmatch 1 b y = false) in Hm.
  unfold bmatch in Hm. by rewrite Hd, Hy, !Z.eqb_refl in Hm.
Qed.

(** With no buffer to recycle every buffer is pinned or held, each for a block
    of its own. *)
Lemma no_victim_full s H : bc_ok s H -> (forall i x, bufs s !! i = Some x -> buf_free x = false) ->
  (forall i x, bufs s !! i = Some x -> bdev x = 1) /\
  list_to_set (bno <$> bufs s) ⊆ bc_pinned s ∪ held_blocks H /\ size (list_to_set (bno <$> bufs s) : gset Z) = NBUF.
Proof.
  intros Hok Hall.
  assert (forall i x, bufs s !! i = Some x -> bdev x = 1 /\ bno x ∈ bc_pinned s ∪ held_blocks H) as Hb.
  { intros i x Hx. pose proof (Hall i x Hx) as Hf. pose proof (bc_buf s H Hok i x Hx) as Hk.
    unfold buf_free in Hf. destruct (H !! i) as [c|] eqn:Hi; cbn in Hk.
    - destruct Hk as (_ & <- & ? & _). split; [done|]. apply elem_of_union_r. by eapply elem_of_map_img_2.
    - destruct Hk as [[_ Hr] _]. rewrite Hr in Hf. apply negb_false_iff in Hf.
      split; [by eapply dirty_dev|]. apply elem_of_union_l, elem_of_pinned. by exists i, x. }
  split_and!.
  - intros i x Hx. by eapply Hb.
  - intros c (x & -> & [i Hi]%list_elem_of_lookup)%elem_of_list_to_set%list_elem_of_fmap. by eapply Hb.
  - rewrite size_list_to_set; [rewrite length_fmap; apply (bc_len s H Hok)|].
    apply NoDup_alt. intros i j c. rewrite !list_lookup_fmap.
    intros (x & Hx & ->)%fmap_Some (y & Hy & E)%fmap_Some.
    eapply (bc_uniq s H Hok i j); eauto; by eapply Hb.
Qed.

Lemma miss_has_victim s H b : bc_ok s H -> room disksize (bc_pinned s) H b ->
  find_buf (bmatch 1 b) s (order s) = None ->
  exists i, find_buf buf_free s (rev (order s)) = Some i /\ i ∈ order s /\ buf_free (bget_buf s i) = true.
Proof.
  intros Hok (_ & _ & Hsz) Hnone. destruct (find_buf buf_free s (rev (order s))) as [i|] eqn:E.
  - exists i. apply find_buf_Some in E as [Hi Hf]. split_and!; [done| |done].
    by apply list_elem_of_In, in_rev, list_elem_of_In.
  - exfalso. destruct (no_victim_full s H Hok) as (Hdev & Hsub & Hn).
    { intros i x Hx. replace x with (bget_buf s i) by (unfold bget_buf; by rewrite Hx).
      eapply find_buf_None; [exact E|]. apply list_elem_of_In, in_rev. rewrite rev_involutive. apply list_elem_of_In.
      eapply order_elem; [done|]. by eapply lookup_lt_Some. }
    set (X := list_to_set (bno <$> bufs s) : gset Z) in *.
    assert (b ∉ X) as Hb.
    { intros (x & -> & [i Hi]%list_elem_of_lookup)%elem_of_list_to_set%list_elem_of_fmap.
      by apply (miss_uncached s H _ Hok Hnone i x Hi (Hdev i x Hi)). }
    assert (size ({[b]} ∪ X) <= NBUF)%nat as Hle.
    { etransitivity; [|exact Hsz]. apply subseteq_size. set_solver. }
    rewrite size_union in Hle by set_solver. rewrite size_singleton, Hn in Hle. lia.
Qed.

#[local] Arguments find_buf : simpl never.

Lemma find_buf_lock f s o k d l : find_buf f (mkBc (bufs s) o k d) l = find_buf f s l.
Proof. done. Qed.

(** What bread does to the buffer it returns. *)
Record bread_gets (s : bcache) (H : gmap nat Z) (b : Z) (i : nat) (x : buf) : Prop := {
  bg_run : bread 1 b s = Ret i (with_buf s i x);
  bg_free : H !! i = None;
  bg_slot : slot_for s H b i;
  bg_buf : in_hand x /\ bdev x = 1 /\ bno x = b /\ bvalid x = true;
  bg_cur : bdata x = bc_cur s b;
  bg_pinned : bdirty x = true <-> b ∈ bc_pinned s
}.

Lemma bread_hit s H b i : bc_ok s H -> b ∉ held_blocks H -> find_buf (bmatch 1 b) s (order s) = Some i ->
  exists x, bread_gets s H b i x.
Proof.
  intros Hok Hb Ef. pose proof (find_buf_Some _ _ _ _ Ef) as [Hi [Hd%Z.eqb_eq Hn%Z.eqb_eq]%andb_true_iff].
  pose proof (proj1 (order_elem s H i Hok) Hi) as Hlt. pose proof (bget_buf_lookup s i Hlt) as Hx.
  set (x := bget_buf s i) in *. destruct (cached_slot s H b i x Hok Hx Hd Hn) as (Hsl & Hc & Hp).
  assert (H !! i = None) as HN.
  { destruct (H !! i) as [c|] eqn:E; [exfalso|done]. pose proof (bc_buf s H Hok i x Hx) as Hk. rewrite E in Hk.
    apply Hb. apply (elem_of_map_img_2 _ i). destruct Hk as (_ & ? & _). congruence. }
  pose proof (bc_buf s H Hok i x Hx) as Hk. rewrite HN in Hk.
  destruct Hk as [[Hblk Hr] [(? & _)|(_ & Hv & _)]]; [lia|].
  exists (take_buf x). constructor; try done. cbn.
  unfold bread, bget, acquire_bc, release_bc, get, put, mbind, M_bind, mret, M_ret.
  rewrite (bc_lock s H Hok). cbn. rewrite find_buf_lock, Ef.
  rewrite <-(list_insert_id (bufs s) i x Hx) at 1. rewrite bupd_at by done. cbn.
  rewrite acquire_buf_at by done. cbn. rewrite bfield_at by done. cbn. rewrite Hv. cbn.
  unfold with_buf, take_buf. do 3 f_equal. rewrite Hr. by destruct x.
Qed.

Definition fresh (b : Z) (d : block) : buf := mkBuf true false 1 b held_lock 1 d.

Lemma bread_miss s H b i : bc_ok s H -> b < disksize -> find_buf (bmatch 1 b) s (order s) = None ->
  find_buf buf_free s (rev (order s)) = Some i -> i ∈ order s -> buf_free (bget_buf s i) = true ->
  bread_gets s H b i (fresh b (disk s b)).
Proof.
  intros Hok Hb Ef Ev Hi [Hr%Z.eqb_eq Hcl%negb_true_iff]%andb_true_iff.
  pose proof (miss_uncached s H b Hok Ef) as Hno.
  pose proof (proj1 (order_elem s H i Hok) Hi) as Hlt. pose proof (bget_buf_lookup s i Hlt) as Hx.
  set (x := bget_buf s i) in *. pose proof (bc_buf s H Hok i x Hx) as Hk.
  destruct (H !! i) as [c|] eqn:HN; [destruct Hk as ([_ ?] & _); lia|]. destruct Hk as [[Hblk _] _].
  constructor; try done.
  - unfold bread, bget, iderw, acquire_bc, release_bc, when, get, put, mbind, M_bind, mret, M_ret.
    rewrite (bc_lock s H Hok). cbn. rewrite !find_buf_lock, Ef, Ev.
    rewrite <-(list_insert_id (bufs s) i x Hx) at 1. rewrite bupd_at by done. cbn.
    rewrite acquire_buf_at by done. cbn. rewrite bfield_at by done. cbn.
    rewrite holding_buf_at by done. cbn. rewrite bfield_at by done. cbn.
    rewrite (proj2 (Z.leb_gt _ _)) by done. by rewrite bupd_at.
  - constructor; [by eauto|]. exists x. auto.
  - cbn. symmetry. by apply cached_None.
  - split; [done|]. rewrite elem_of_pinned. intros (j & y & Hj & Hdy & Hy).
    destruct (Hno j y); [done|by eapply dirty_dev|done].
Qed.

Lemma bread_spec s H b : bc_ok s H -> room disksize (bc_pinned s) H b -> exists i x, bread_gets s H b i x.
Proof.
  intros Hok Hr. pose proof Hr as (Hb & Hnh & _).
  destruct (find_buf (bmatch 1 b) s (order s)) as [i|] eqn:Ef; [exists i; by apply bread_hit|].
  destruct (miss_has_victim s H b Hok Hr Ef) as (i & Ev & Hi & Hf).
  exists i, (fresh b (disk s b)). apply bread_miss; try done. lia.
Qed.

(** brelse moves the buffer to the front of the list. *)
Lemma order_front i (o : list nat) n : o ≡ₚ seq 0 n -> (i < n)%nat -> i :: filter (λ j, j ≠ i) o ≡ₚ seq 0 n.
Proof.
  intros Ho Hi. apply NoDup_Permutation; [|apply NoDup_seq|].
  - constructor; [rewrite list_elem_of_filter; naive_solver|]. apply NoDup_filter. rewrite Ho. apply NoDup_seq.
  - intros j. rewrite elem_of_cons, list_elem_of_filter, Ho, !elem_of_seq. destruct (decide (j = i)); naive_solver lia.
Qed.

(** ** The cache implements the block layer *)

Lemma cur_length s H b : bc_ok s H -> length (bc_cur s b) = BSIZE.
Proof.
  intros Hok. destruct (cached_cases s H b Hok) as [(i & x & Hi & Hd & _ & ->)|[_ ->]].
  - by eapply (bc_data s H Hok).
  - apply (bc_disk s H Hok).
Qed.

Lemma clean_on_disk s H b : bc_ok s H -> b ∉ bc_pinned s -> b ∉ held_blocks H -> bc_cur s b = disk s b.
Proof.
  intros Hok Hp Hh. destruct (cached_cases s H b Hok) as [(i & x & Hi & Hd & Hn & ->)|[_ ->]]; [|done].
  pose proof (bc_buf s H Hok i x Hi) as Hk. destruct (H !! i) as [c|] eqn:E.
  - destruct Hk as (_ & <- & _). destruct Hh. subst b. by apply (elem_of_map_img_2 _ i).
  - destruct Hk as [_ [(? & _)|(_ & _ & Hc)]]; [lia|]. rewrite <-Hn. apply Hc.
    destruct (bdirty x) eqn:Ed; [|done]. destruct Hp. apply elem_of_pinned. by exists i, x.
Qed.

Definition bio_layer : BlockLayer bcache :=
  {| bl_ok := bc_ok; bl_cur := bc_cur; bl_disk := disk; bl_pinned := bc_pinned; bl_size := disksize;
     bl_bread := bread 1; bl_blockno := λ i, bfield i bno; bl_data := λ i, bfield i bdata;
     bl_set := λ i v, bupd i (set_bdata v); bl_pin := λ i, bupd i (λ b, set_flags (bvalid b) true b);
     bl_bwrite := bwrite; bl_brelse := brelse |}.

#[local] Existing Instance bio_layer.

Lemma sees_replace s c d P H H' b i x o d' :
  sees s c d P H -> slot_for s H b i -> takes s H H' b i x o d' ->
  sees (mkBc (<[i:=x]> (bufs s)) o false d') (upd c b (bdata x)) d'
    (if bdirty x then {[b]} ∪ P else P ∖ {[b]}) H'.
Proof.
  intros (Hok & Hc & Hd & Hp) Hsl Htk. cbn in *. split_and!; cbn.
  - by eapply replace_ok.
  - intros y. etransitivity; [by eapply replace_cur|]. by apply upd_ext.
  - done.
  - etransitivity; [by eapply replace_pinned|]. by rewrite Hp.
Qed.

Lemma upd_same f b v x : f b = v -> upd f b v x = f x.
Proof. intros <-. unfold upd. case_decide; by subst. Qed.

Lemma pin_same (v : bool) (b : Z) (P : gset Z) : (v = true <-> b ∈ P) -> P = if v then {[b]} ∪ P else P ∖ {[b]}.
Proof. intros Hv. destruct v; [assert (b ∈ P) by (by apply Hv)|assert (b ∉ P) by (rewrite <-Hv; done)]; set_solver. Qed.

Lemma bread_law s c d P H b : sees s c d P H -> room disksize P H b ->
  wp (bread 1 b) (λ i s', H !! i = None /\ sees s' c d P (<[i:=b]> H)) s.
Proof.
  intros Hs Hr. pose proof Hs as (Hok & Hc & Hd & Hp). cbn in *. rewrite <-Hp in Hr.
  destruct (bread_spec s H b Hok Hr) as (i & x & [Hrun Hf Hsl (Hh & Hdv & Hn & Hv) Hcur Hpin]).
  eapply wp_Ret; [exact Hrun|]. split; [done|]. rewrite Hp in Hpin. rewrite (pin_same _ _ _ Hpin).
  eapply sees_ext; [apply (sees_replace s c d P H (<[i:=b]> H) b i x); [done..|]| |].
  - constructor; try done.
    + split_and!; [done..|]. rewrite Hcur. by eapply cur_length.
    + by rewrite lookup_insert_eq.
    + intros j Hj. by rewrite lookup_insert_ne.
    + apply (bc_disk s H Hok).
    + apply (bc_order s H Hok).
    + rewrite lookup_insert_eq. intros y [= <-]. apply Hr.
  - intros y. apply upd_same. by rewrite Hcur, Hc.
  - done.
Qed.

(** The operations on a held buffer that leave it held. *)
Lemma held_law s c d P H i b (f : buf -> buf) d' : sees s c d P H -> H !! i = Some b ->
  (forall x, in_hand x -> bdev x = 1 -> bno x = b -> bvalid x = true -> length (bdata x) = BSIZE ->
     in_hand (f x) /\ bdev (f x) = 1 /\ bno (f x) = b /\ bvalid (f x) = true /\ length (bdata (f x)) = BSIZE) ->
  (forall y, y <> b -> d' y = disk s y) -> length (d' b) = BSIZE ->
  exists x, with_buf s i x = s /\ (i < length (bufs s))%nat /\ bdata x = c b /\ (bdirty x = true <-> b ∈ P) /\
    in_hand x /\ bdev x = 1 /\ bno x = b /\ bvalid x = true /\
    sees (mkBc (<[i:=f x]> (bufs s)) (order s) false d') (upd c b (bdata (f x))) d'
      (if bdirty (f x) then {[b]} ∪ P else P ∖ {[b]}) H.
Proof.
  intros Hs Hi Hf Hd' Hl'. pose proof Hs as (Hok & Hc & Hd & Hp). cbn in *.
  destruct (held_buf s H i b Hok Hi) as (x & Hid & Hlt & Hh & Hdv & Hn & Hv & Hl & Hsl & Hcur & Hpin).
  destruct (Hf x Hh Hdv Hn Hv Hl) as (Hh' & Hdv' & Hn' & Hv' & Hlf).
  rewrite Hp in Hpin. exists x. split_and!; try done; try apply Hh; [by rewrite <-Hc|tauto..|].
  apply (sees_replace s c d P H H b i); try done. constructor; try done.
  - rewrite Hi. by split_and!.
  - apply (bc_order s H Hok).
  - intros y Hy. by apply (bc_held s H Hok i y).
Qed.

Lemma set_law s c d P H i b v : sees s c d P H -> H !! i = Some b -> length v = BSIZE ->
  wp (bupd i (set_bdata v)) (λ _ s', sees s' (upd c b v) d P H) s.
Proof.
  intros Hs Hi Hl. pose proof Hs as (Hok & _ & Hd & _).
  destruct (held_law s c d P H i b (set_bdata v) (disk s)) as (x & Hid & Hlt & _ & Hpin & _ & _ & _ & _ & Hs'); try done.
  { apply (bc_disk s H Hok). }
  eapply wp_Ret; [rewrite <-Hid at 1; unfold with_buf; by apply bupd_at|]. cbn in *.
  rewrite <-(pin_same _ _ _ Hpin) in Hs'. eapply sees_ext; [exact Hs'|done|exact Hd].
Qed.

Lemma pin_law s c d P H i b : sees s c d P H -> H !! i = Some b ->
  wp (bupd i (λ b, set_flags (bvalid b) true b)) (λ _ s', sees s' c d ({[b]} ∪ P) H) s.
Proof.
  intros Hs Hi. pose proof Hs as (Hok & _ & Hd & _).
  destruct (held_law s c d P H i b (λ b, set_flags (bvalid b) true b) (disk s)) as (x & Hid & Hlt & Hc & Hpin & _ & _ & _ & _ & Hs'); try done.
  { apply (bc_disk s H Hok). }
  eapply wp_Ret; [rewrite <-Hid at 1; unfold with_buf; by apply bupd_at|]. cbn in *.
  eapply sees_ext; [exact Hs'|intros y; by apply upd_same|exact Hd].
Qed.

Lemma bwrite_law s c d P H i b : sees s c d P H -> H !! i = Some b ->
  wp (bwrite i) (λ _ s', sees s' c (upd d b (c b)) (P ∖ {[b]}) H) s.
Proof.
  intros Hs Hi. pose proof Hs as (Hok & Hcur & Hd & _). destruct (bc_held s H Hok i b Hi) as [_ Hb].
  destruct (held_law s c d P H i b (set_flags true false) (upd (disk s) b (c b))) as (x & Hid & Hlt & Hc & Hpin & Hh & Hdv & Hn & _ & Hs'); try done.
  { intros y Hy. by apply upd_ne. }
  { rewrite upd_eq, <-Hcur. by eapply cur_length. }
  eapply wp_Ret; [rewrite <-Hid at 1; unfold with_buf; apply bwrite_at; [done..|lia]|]. rewrite Hn, Hc.
  eapply sees_ext; [exact Hs'|intros y; by apply upd_same|]. intros y. by apply upd_ext.
Qed.

Lemma brelse_law s c d P H i b : sees s c d P H -> H !! i = Some b -> b ∈ P \/ c b = d b ->
  wp (brelse i) (λ _ s', sees s' c d P (delete i H)) s.
Proof.
  intros Hs Hi Hcl. pose proof Hs as (Hok & Hc & Hd & Hp). cbn in Hok, Hc, Hd, Hp.
  destruct (held_buf s H i b Hok Hi) as (x & Hid & Hlt & Hh & Hdv & Hn & Hv & Hl & Hsl & Hcur & Hpin).
  rewrite Hp in Hpin.
  eapply wp_Ret; [rewrite <-Hid at 1; unfold with_buf; by apply brelse_at|].
  rewrite (pin_same _ _ _ Hpin). eapply sees_ext; [apply (sees_replace s c d P H (delete i H) b i (give_buf x)); [done..|]| |].
  - constructor; try done.
    + rewrite lookup_delete_eq. split; [done|]. right. split_and!; try done. cbn. intros Hcd.
      rewrite Hn, <-Hcur, Hc, Hd. destruct Hcl as [HP|]; [|done]. apply Hpin in HP. congruence.
    + intros j Hj. by rewrite lookup_delete_ne.
    + apply (bc_disk s H Hok).
    + apply order_front; [apply (bc_order s H Hok)|]. by rewrite <-(bc_len s H Hok).
    + by rewrite lookup_delete_eq.
  - intros y. apply upd_same. cbn. by rewrite <-Hcur.
  - done.
Qed.

Lemma bfield_held {A} s i x (f : buf -> A) : with_buf s i x = s -> (i < length (bufs s))%nat -> bfield i f s = Ret (f x) s.
Proof. intros Hid Hlt. rewrite <-Hid. by apply bfield_at. Qed.

Lemma bio_laws : @BlockLaws bcache bio_layer.
Proof.
  constructor; cbn.
  - apply clean_on_disk.
  - intros s H b Hok. split; [by eapply cur_length|by apply (bc_disk s H Hok)].
  - apply bread_law.
  - intros s c d P H i b Hs Hi. destruct (held_buf s H i b (proj1 Hs) Hi) as (x & Hid & Hlt & _ & _ & Hn & _).
    eapply wp_Ret; [by apply (bfield_held s i x)|done].
  - intros s c d P H i b Hs Hi.
    destruct (held_buf s H i b (proj1 Hs) Hi) as (x & Hid & Hlt & _ & _ & Hn & _ & _ & _ & Hc & _).
    eapply wp_Ret; [by apply (bfield_held s i x)|]. cbn. rewrite <-Hc. split; [apply Hs|done].
  - apply set_law.
  - apply pin_law.
  - apply bwrite_law.
  - apply brelse_law.
Qed.

Lemma binit_sees d : (forall b, length (d b) = BSIZE) -> sees (binit d) d d ∅ ∅.
Proof.
  intros Hd. assert (forall i x, bufs (binit d) !! i = Some x -> x = buf0) as Hall by (by intros i x [-> _]%lookup_replicate).
  split; [|split; [|split; [reflexivity|]]].
  - constructor; [reflexivity|symmetry; apply Permutation_rev|reflexivity|..].
    + intros i x ->%Hall. rewrite lookup_empty. split; [done|]. by left.
    + intros i j x y Hx%Hall. by subst.
    + by intros i x ->%Hall.
    + done.
    + done.
  - intros b. apply cached_None. by intros i x ->%Hall.
  - apply set_eq. intros b. rewrite elem_of_pinned. split; [|set_solver]. by intros (i & x & ->%Hall & ? & _).
Qed.
End bio.

(** ** The cache is transparent

    The specification: two maps and a set, with no buffers. *)
Record flat := mkFlat { f_cur : Z -> block; f_disk : Z -> block; f_pin : gset Z }.
Inductive fop := FRead (b : Z) | FWrite (b : Z) (d : block) | FPin (b : Z) (d : block).

Definition fop_block (op : fop) : Z := match op with FRead b | FWrite b _ | FPin b _ => b end.
Definition flat_step (op : fop) (f : flat) : flat :=
  match op with
  | FRead _ => f
  | FWrite b d => mkFlat (upd (f_cur f) b d) (upd (f_disk f) b d) (f_pin f ∖ {[b]})
  | FPin b d => mkFlat (upd (f_cur f) b d) (f_disk f) ({[b]} ∪ f_pin f)
  end.
Definition flat_result (op : fop) (f : flat) : list block := match op with FRead b => [f_cur f b] | _ => [] end.
Fixpoint flat_run (ops : list fop) (f : flat) : list block * flat :=
  match ops with
  | [] => ([], f)
  | op :: ops' => let '(rs, f') := flat_run ops' (flat_step op f) in (flat_result op f ++ rs, f')
  end.

(** Every block is on the disk, the data is a block, and there is a buffer left. *)
Definition flat_legal (n : Z) (op : fop) (f : flat) : bool :=
  bool_decide (0 <= fop_block op < n) &&
  match op with FRead _ => true | FWrite _ d | FPin _ d => (length d =? BSIZE)%nat end &&
  (size ({[fop_block op]} ∪ f_pin f) <=? NBUF)%nat.
Fixpoint flat_legal_all (n : Z) (ops : list fop) (f : flat) : bool :=
  match ops with [] => true | op :: ops' => flat_legal n op f && flat_legal_all n ops' (flat_step op f) end.

Section transparent.
Context (n mypid : Z).
#[local] Instance bio_n : BlockLayer bcache := bio_layer n mypid.
#[local] Instance bio_n_laws : BlockLaws bcache := bio_laws n mypid.

Definition bio_step (op : fop) : M bcache (list block) :=
  match op with
  | FRead b => d ← use_read b; mret [d]
  | FWrite b d => use_write b d ;; mret []
  | FPin b d => use_pin b d ;; mret []
  end.
Fixpoint bio_run (ops : list fop) : M bcache (list block) :=
  match ops with [] => mret [] | op :: ops' => r ← bio_step op; rs ← bio_run ops'; mret (r ++ rs) end.

Definition bio_rel (s : bcache) (f : flat) : Prop := sees s (f_cur f) (f_disk f) (f_pin f) ∅.

Lemma bio_step_refines op s f : bio_rel s f -> flat_legal n op f = true ->
  wp (bio_step op) (λ r s', r = flat_result op f /\ bio_rel s' (flat_step op f)) s.
Proof.
  intros Hs [[Hb%bool_decide_eq_true Hl]%andb_true_iff Hr%Nat.leb_le]%andb_true_iff.
  pose proof (room_empty n _ _ Hb Hr) as Hroom.
  destruct op as [b|b d|b d]; cbn in Hl, Hroom; cbn [bio_step flat_result flat_step]; apply wp_bind.
  - eapply use_read_wp; [exact Hs|done|]. intros s' Hs'. by apply wp_ret.
  - eapply use_write_wp; [exact Hs|done|by apply Nat.eqb_eq|]. intros s' Hs'. by apply wp_ret.
  - eapply use_pin_wp; [exact Hs|done|by apply Nat.eqb_eq|]. intros s' Hs'. by apply wp_ret.
Qed.

Lemma bio_run_refines ops : forall s f, bio_rel s f -> flat_legal_all n ops f = true ->
  wp (bio_run ops) (λ rs s', rs = (flat_run ops f).1 /\ bio_rel s' (flat_run ops f).2) s.
Proof.
  induction ops as [|op ops IH]; intros s f Hrel Hl; cbn [bio_run flat_run flat_legal_all] in *.
  { by apply wp_ret. }
  apply andb_true_iff in Hl as [Hl Hls]. apply wp_bind.
  eapply wp_mono; [by apply bio_step_refines|]. cbn. intros r s1 [-> Hrel1]. apply wp_bind.
  eapply wp_mono; [by apply (IH _ _ Hrel1)|]. cbn. intros rs s2 [-> Hrel2]. apply wp_ret.
  by destruct (flat_run ops (flat_step op f)).
Qed.

(** C8: The buffer cache is transparent: from binit on, any sequence of reads,
    write-throughs and pins returns exactly what a memory without a cache would,
    whatever is evicted and reused in between; it never panics, and what is on
    the disk and what is pinned is what the specification says, as long as the
    block and the pinned ones fit in the 30 buffers. *)
Theorem bio_transparent d ops (Hd : forall b, length (d b) = BSIZE)
  (Hl : flat_legal_all n ops (mkFlat d d ∅) = true) :
  wp (bio_run ops) (λ rs s, let f := (flat_run ops (mkFlat d d ∅)).2 in
    rs = (flat_run ops (mkFlat d d ∅)).1 /\ bc_ok n mypid s ∅ /\ (forall x, bc_cur s x = f_cur f x) /\
    (forall x, disk s x = f_disk f x) /\ bc_pinned s = f_pin f) (binit d).
Proof.
  apply (bio_run_refines ops (binit d) (mkFlat d d ∅)); [|done]. by apply (binit_sees n mypid).
Qed.
End transparent.

Definition sample_data : block := replicate BSIZE 1.
Definition sample_ops : list fop := [FPin 7 sample_data; FRead 8; FWrite 9 sample_data; FRead 7; FRead 9].

Lemma sample_legal : flat_legal_all 100 sample_ops (mkFlat (λ _, zero_block) (λ _, zero_block) ∅) = true.
Proof. vm_compute. reflexivity. Qed.

Lemma sample_result :
  let f := flat_run sample_ops (mkFlat (λ _, zero_block) (λ _, zero_block) ∅) in
  f.1 = [zero_block; sample_data; sample_data] /\ f_disk f.2 7 = zero_block /\ f_disk f.2 9 = sample_data.
Proof. done. Qed.

Lemma bio_transparent_witness :
  wp (bio_run 100 1 sample_ops)
    (λ rs s, rs = [zero_block; sample_data; sample_data] /\ disk s 7 = zero_block /\ disk s 9 = sample_data)
    (binit (λ _, zero_block)).
Proof.
  eapply wp_mono; [apply (bio_transparent 100 1 (λ _, zero_block) sample_ops); [reflexivity|exact sample_legal]|].
  intros rs s (-> & _ & _ & Hd & _). rewrite !Hd. exact sample_result.
Defined.
