(* ===== verification/Log.v ===== *)
(** * The write-ahead log (log.c)

    begin_op and end_op bracket the operations of the file system, log_write
    records a modified block, and commit writes the recorded blocks to the log,
    the header, the home locations and the header again.  The log runs on any
    block layer of [BlockLayer.v]. *)

From S2P Require Import Prelude Block BlockLayer.

Definition MAXOPBLOCKS : Z := 10.
Definition LOGSIZE : Z := 30.

(** struct log; the blocks of the in-memory header, [lh.block[0 .. lh.n-1]], are
    the list [lh]. *)
Record log := mkLog {
  lstart : Z; lsize : Z; outstanding : Z; committing : bool; lh : list Z
}.

Section log.
Context {St : Type} `{BL : BlockLayer St}.

Record lst := mkLst { lg : log; llock : bool; bs : St }.

Definition on_blocks {A} (m : M St A) : M lst A := zoom bs (λ b s, mkLst (lg s) (llock s) b) m.
Definition set_log (f : log -> log) : M lst unit := modify (λ s, mkLst (f (lg s)) (llock s) (bs s)).
Definition set_lh (l : list Z) (g : log) : log := mkLog (lstart g) (lsize g) (outstanding g) (committing g) l.
Definition set_outstanding (n : Z) (g : log) : log := mkLog (lstart g) (lsize g) n (committing g) (lh g).
Definition set_committing (b : bool) (g : log) : log := mkLog (lstart g) (lsize g) (outstanding g) b (lh g).

Definition acquire_log : M lst unit :=
  s ← get; if llock s then panic "acquire" else put (mkLst (lg s) true (bs s)).
Definition release_log : M lst unit :=
  s ← get; if negb (llock s) then panic "release" else put (mkLst (lg s) false (bs s)).

(** ** The header block: n at offset 0, block[i] at 4 + 4i *)

Definition hdr_off (i : nat) : nat := (4 + 4 * i)%nat.

Fixpoint hdr_put (i : nat) (l : list Z) (b : block) : block :=
  match l with [] => b | x :: l' => hdr_put (S i) l' (put32 b (hdr_off i) x) end.

Definition hdr_encode (l : list Z) (b : block) : block :=
  hdr_put 0 l (put32 b 0 (Z.of_nat (length l))).

Definition hdr_n (b : block) : Z := s32 (get32 b 0).
Definition hdr_decode (b : block) : list Z := (λ i, get32 b (hdr_off i)) <$> seq 0 (Z.to_nat (hdr_n b)).

Definition write_head : M lst unit :=
  g ← gets lg;
  i ← on_blocks (bl_bread (lstart g));
  b ← on_blocks (bl_data i);
  on_blocks (bl_set i (hdr_encode (lh g) b)) ;;
  on_blocks (bl_bwrite i) ;;
  on_blocks (bl_brelse i).

Definition read_head : M lst unit :=
  g ← gets lg;
  i ← on_blocks (bl_bread (lstart g));
  b ← on_blocks (bl_data i);
  set_log (set_lh (hdr_decode b)) ;;
  on_blocks (bl_brelse i).

(** The bodies of the loops of write_log and install_trans; [lh.block[tail]]. *)
Definition lh_at (g : log) (tail : nat) : Z := default 0 (lh g !! tail).
Definition log_block (g : log) (tail : nat) : Z := lstart g + Z.of_nat tail + 1.

Definition write_log_step (tail : nat) : M lst unit :=
  g ← gets lg;
  to ← on_blocks (bl_bread (log_block g tail));
  from ← on_blocks (bl_bread (lh_at g tail));
  b ← on_blocks (bl_data from);
  on_blocks (bl_set to b) ;;
  on_blocks (bl_bwrite to) ;;
  on_blocks (bl_brelse from) ;;
  on_blocks (bl_brelse to).

Definition install_step (tail : nat) : M lst unit :=
  g ← gets lg;
  lbuf ← on_blocks (bl_bread (log_block g tail));
  dbuf ← on_blocks (bl_bread (lh_at g tail));
  b ← on_blocks (bl_data lbuf);
  on_blocks (bl_set dbuf b) ;;
  on_blocks (bl_bwrite dbuf) ;;
  on_blocks (bl_brelse lbuf) ;;
  on_blocks (bl_brelse dbuf).

Definition write_log : M lst unit := g ← gets lg; for_range 0 (length (lh g)) write_log_step.
Definition install_trans : M lst unit := g ← gets lg; for_range 0 (length (lh g)) install_step.

Definition recover_from_log : M lst unit :=
  read_head ;; install_trans ;; set_log (set_lh []) ;; write_head.

Definition commit : M lst unit :=
  g ← gets lg;
  if (0 <? length (lh g))%nat then
    write_log ;; write_head ;; install_trans ;; set_log (set_lh []) ;; write_head
  else mret tt.

(** struct superblock, seven words at the start of block 1. *)
Record superblock := mkSb {
  sb_size : Z; sb_nblocks : Z; sb_ninodes : Z; sb_nlog : Z;
  sb_logstart : Z; sb_inodestart : Z; sb_bmapstart : Z
}.
Definition sb_decode (b : block) : superblock :=
  mkSb (get32 b 0) (get32 b 4) (get32 b 8) (get32 b 12) (get32 b 16) (get32 b 20) (get32 b 24).

Definition readsb : M lst superblock :=
  i ← on_blocks (bl_bread 1); b ← on_blocks (bl_data i); on_blocks (bl_brelse i) ;; mret (sb_decode b).

(** initlog; sizeof(struct logheader) is 4 + 4 * LOGSIZE. *)
Definition initlog : M lst unit :=
  if Z.of_nat BSIZE <=? 4 + 4 * LOGSIZE then panic "initlog: too big logheader"
  else
    sb ← readsb;
    set_log (λ g, mkLog (s32 (sb_logstart sb)) (s32 (sb_nlog sb)) (outstanding g) (committing g) (lh g)) ;;
    recover_from_log.

(** ** Transactions *)

(** begin_op up to its return or its sleep; the loop is entered again after a
    wakeup. *)
Definition begin_op : M lst unit :=
  acquire_log ;;
  g ← gets lg;
  if committing g || (LOGSIZE <? Z.of_nat (length (lh g)) + (outstanding g + 1) * MAXOPBLOCKS)
  then release_log ;; sleep_on CLog
  else set_log (set_outstanding (outstanding g + 1)) ;; release_log.

(** The first critical section of end_op: whether to commit. *)
Definition end_op_enter : M lst bool :=
  acquire_log ;;
  set_log (λ g, set_outstanding (outstanding g - 1) g) ;;
  g ← gets lg;
  if committing g then panic "log.committing"
  else if outstanding g =? 0 then set_log (set_committing true) ;; release_log ;; mret true
  else release_log ;; mret false.

Definition end_op_leave : M lst unit :=
  acquire_log ;; set_log (set_committing false) ;; release_log.

Definition end_op : M lst unit :=
  c ← end_op_enter;
  when c (commit ;; end_op_leave).

(** [log_write] on buffer [i]: panics, the absorbing search, and the pin.
    [lh.block[i] = b->blockno] writes back the number the search found. *)
Definition log_write (i : nat) : M lst unit :=
  g ← gets lg;
  if (LOGSIZE <=? Z.of_nat (length (lh g))) || (lsize g - 1 <=? Z.of_nat (length (lh g)))
  then panic "too big a transaction"
  else if outstanding g <? 1 then panic "log_write outside of trans"
  else
    acquire_log ;;
    b ← on_blocks (bl_blockno i);
    set_log (λ g, if bool_decide (b ∈ lh g) then g else set_lh (lh g ++ [b]) g) ;;
    on_blocks (bl_pin i) ;;
    release_log.
End log.
Arguments lst : clear implicits.
#[global] Arguments hdr_off : simpl never.
