(* ===== verification/LogProps.v ===== *)
(** * The log between commits

    The header block, the contents of the disk during a commit, the rules of the
    block layer below the log, begin_op and log_write.  Crash.v has commit and
    recovery, with and without crashes. *)

From S2P Require Import Prelude Sleeplock Block BlockLayer Bio Log.

(** ** The header block *)

Lemma length_hdr_put l i b : length (hdr_put i l b) = length b.
Proof. revert i b. induction l as [|x l IH]; intros; cbn; [done|]. by rewrite IH, length_put32. Qed.

Lemma hdr_put_before l : forall i b o, (o + 4 <= hdr_off i)%nat -> (hdr_off (i + length l) <= length b)%nat ->
  get32 (hdr_put i l b) o = get32 b o.
Proof.
  induction l as [|x l IH]; intros i b o Ho Hl; cbn in *; [done|].
  rewrite IH.
  - apply get32_put32_other; unfold hdr_off in *; lia.
  - unfold hdr_off in *. lia.
  - rewrite length_put32. unfold hdr_off in *. lia.
Qed.

Lemma hdr_put_at l : forall i b j x, l !! j = Some x -> is_u32 x -> (hdr_off (i + length l) <= length b)%nat ->
  get32 (hdr_put i l b) (hdr_off (i + j)) = x.
Proof.
  induction l as [|y l IH]; intros i b j x Hj Hx Hl; [done|]. cbn.
  destruct j as [|j]; cbn in Hj, Hl.
  - injection Hj as ->. rewrite hdr_put_before by (rewrite ?length_put32; unfold hdr_off in *; lia).
    rewrite Nat.add_0_r. apply get32_put32; [unfold hdr_off in *; lia|done].
  - replace (i + S j)%nat with (S i + j)%nat by lia. apply IH; [done..|].
    rewrite length_put32. unfold hdr_off in *. lia.
Qed.

Lemma hdr_n_encode l b : length b = BSIZE -> (length l <= 127)%nat -> hdr_n (hdr_encode l b) = Z.of_nat (length l).
Proof.
  intros Hb Hl. unfold hdr_n, hdr_encode, BSIZE in *.
  rewrite hdr_put_before by (rewrite ?length_put32; unfold hdr_off; lia).
  rewrite get32_put32 by (unfold is_u32; lia). apply s32_id. unfold is_s32. lia.
Qed.

(** The header read back is the header written. *)
Lemma hdr_roundtrip l b : length b = BSIZE -> (length l <= 127)%nat -> Forall is_u32 l ->
  hdr_decode (hdr_encode l b) = l.
Proof.
  intros Hb Hl Hu. unfold hdr_decode. rewrite hdr_n_encode by done. rewrite Nat2Z.id.
  apply list_eq. intros j. rewrite list_lookup_fmap. destruct (l !! j) as [x|] eqn:Hj.
  - pose proof (lookup_lt_Some _ _ _ Hj). rewrite lookup_seq_lt by done. cbn. f_equal.
    apply (hdr_put_at l 0); [done|by eapply Forall_lookup_1|].
    rewrite length_put32. unfold hdr_off, BSIZE in *. lia.
  - apply lookup_ge_None in Hj. by rewrite lookup_seq_ge by done.
Qed.

Lemma length_hdr_encode l b : length (hdr_encode l b) = length b.
Proof. unfold hdr_encode. by rewrite length_hdr_put, length_put32. Qed.

Section log_props.
Context {St : Type} `{BLi : BlockLayer St} `{BW : !BlockLaws St}.


(** What the log area and the header must satisfy for a commit to be possible:
    distinct home blocks outside the log, a log area with room for them, and
    fewer blocks than the cache has buffers. *)
Record lh_ok (g : log) : Prop := {
  ok_nodup : NoDup (lh g);
  ok_len : (length (lh g) < NBUF)%nat;
  ok_area : 0 < lstart g /\ lstart g + Z.of_nat (length (lh g)) < lstart g + lsize g <= bl_size;
  ok_disk : bl_size < 2 ^ 32;
  ok_home b : b ∈ lh g -> 0 <= b < bl_size /\ (b < lstart g \/ lstart g + lsize g <= b)
}.

(** A block outside the log area. *)
Definition home (g : log) (b : Z) : Prop := b < lstart g \/ lstart g + lsize g <= b.

(** The block layer below the log: cached contents [c], disk [d], pinned [P]. *)
Definition mem (g : log) (c d : Z -> block) (P : gset Z) (s : lst St) : Prop :=
  (lg s = g /\ llock s = false) /\ sees (bs s) c d P ∅.

Lemma mem_ext g c d P c' d' s : mem g c d P s ->
  (forall x, c x = c' x) -> (forall x, d x = d' x) -> mem g c' d' P s.
Proof. intros [Hg Hs] Hc Hd. split; [done|]. by eapply sees_ext. Qed.

Lemma wp_on_blocks {A} (m : M St A) Q (s : lst St) :
  wp m (λ a b, Q a (mkLst (lg s) (llock s) b)) (bs s) -> wp (on_blocks m) Q s.
Proof. unfold wp, on_blocks, zoom. by destruct (m (bs s)). Qed.

Lemma mem_length g c d P s b : mem g c d P s -> length (c b) = BSIZE /\ length (d b) = BSIZE.
Proof. intros [_ Hs]. by eapply sees_length. Qed.

(** ** The operations of the block layer below the log, with buffers held *)

Definition memh (g : log) (c d : Z -> block) (P : gset Z) (Hd : gmap nat Z) (s : lst St) : Prop :=
  (lg s = g /\ llock s = false) /\ sees (bs s) c d P Hd.

Lemma wpb_bread g c d P H b s Q : memh g c d P H s -> room bl_size P H b ->
  (forall i s', H !! i = None -> memh g c d P (<[i:=b]> H) s' -> Q i s') -> wp (on_blocks (bl_bread b)) Q s.
Proof.
  intros [Hg Hs] Hr HQ. apply wp_on_blocks. eapply wp_mono; [by eapply bl_bread_law|].
  cbn. intros i s' [Hi Hs']. by apply HQ.
Qed.

Lemma wpb_data g c d P H i b s Q : memh g c d P H s -> H !! i = Some b -> Q (c b) s -> wp (on_blocks (bl_data i)) Q s.
Proof.
  intros [Hg Hs] Hi HQ. apply wp_on_blocks. eapply wp_mono; [by eapply bl_data_law|].
  cbn. intros v s' [-> ->]. by destruct s.
Qed.

Lemma wpb_set g c d P H i b v s Q : memh g c d P H s -> H !! i = Some b -> length v = BSIZE ->
  (forall s', memh g (upd c b v) d P H s' -> Q tt s') -> wp (on_blocks (bl_set i v)) Q s.
Proof.
  intros [Hg Hs] Hi Hv HQ. apply wp_on_blocks. eapply wp_mono; [by eapply bl_set_law|].
  cbn. intros [] s' Hs'. by apply HQ.
Qed.

Lemma wpb_brelse g c d P H i b s Q : memh g c d P H s -> H !! i = Some b -> b ∈ P \/ c b = d b ->
  (forall s', memh g c d P (delete i H) s' -> Q tt s') -> wp (on_blocks (bl_brelse i)) Q s.
Proof.
  intros [Hg Hs] Hi Hc HQ. apply wp_on_blocks. eapply wp_mono; [by eapply bl_brelse_law|].
  cbn. intros [] s' Hs'. by apply HQ.
Qed.

Lemma mem_clean g c d P s b : mem g c d P s -> b ∈ P \/ c b = d b.
Proof. intros [_ Hs]. destruct (decide (b ∈ P)); [by left|right]. by eapply sees_clean. Qed.

Lemma room_small P b : (size P < NBUF)%nat -> 0 <= b < bl_size -> room bl_size P ∅ b.
Proof.
  intros Hs Hb. apply room_empty; [done|]. rewrite size_union_alt.
  rewrite size_singleton. pose proof (subseteq_size (P ∖ {[b]}) P ltac:(set_solver)). lia.
Qed.

(** A second buffer, beside one for [a]. *)
Lemma room_second P a b i : 0 <= b < bl_size -> b <> a -> (size ({[a; b]} ∪ P) <= NBUF)%nat ->
  room bl_size P (<[i:=a]> ∅) b.
Proof.
  intros Hb Hne Hs. apply room_insert; [apply lookup_empty|done|rewrite held_empty; set_solver|done|].
  rewrite held_empty. by replace ({[b]} ∪ P ∪ ({[a]} ∪ ∅)) with ({[a; b]} ∪ P) by set_solver.
Qed.

(** ** The contents during a commit *)

(** Two buffers held at once. *)
Lemma two_held (i k : nat) (a b : Z) : (<[i:=a]> ∅ : gmap nat Z) !! k = None ->
  let H := <[k:=b]> (<[i:=a]> ∅) : gmap nat Z in
  H !! i = Some a /\ H !! k = Some b /\ delete k H !! i = Some a /\ delete i H !! k = Some b /\
  delete i (delete k H) = ∅ /\ delete k (delete i H) = ∅.
Proof.
  intros Hk H. assert (i <> k) as Hne by (intros ->; by rewrite lookup_insert_eq in Hk).
  assert (delete k H = <[i:=a]> ∅) as E1 by (apply delete_insert_id; done).
  assert (delete i H = <[k:=b]> ∅) as E2.
  { unfold H. rewrite delete_insert_ne by done. f_equal. apply delete_insert_id. apply lookup_empty. }
  rewrite E1, E2. unfold H. rewrite lookup_insert_ne, !lookup_insert_eq by done.
  split_and!; try done; apply delete_insert_id, lookup_empty.
Qed.

(** The contents [f] with the first [j] log blocks filled from [c], and with the
    first [j] home blocks installed from [c]. *)
Definition filled (g : log) (c f : Z -> block) (j : nat) (x : Z) : block :=
  let t := x - lstart g - 1 in
  if bool_decide (0 <= t < Z.of_nat j) then c (lh_at g (Z.to_nat t)) else f x.
Definition home_index (g : log) (j : nat) (x : Z) : option nat := fst <$> list_find (λ y, y = x) (take j (lh g)).
Definition installed (g : log) (c f : Z -> block) (j : nat) (x : Z) : block :=
  match home_index g j x with Some t => c (log_block g t) | None => f x end.

Lemma filled_S g c f j x : upd (filled g c f j) (log_block g j) (c (lh_at g j)) x = filled g c f (S j) x.
Proof.
  unfold upd, filled, log_block. case_decide as E.
  - subst x. replace (lstart g + Z.of_nat j + 1 - lstart g - 1) with (Z.of_nat j) by lia.
    rewrite bool_decide_true by lia. by rewrite Nat2Z.id.
  - repeat case_bool_decide; try done; lia.
Qed.

Lemma filled_home g c f j x : (j < Z.to_nat (lsize g))%nat -> home g x -> filled g c f j x = f x.
Proof. intros Hj Hx. unfold filled. rewrite bool_decide_false; [done|]. unfold home in Hx. lia. Qed.

Lemma filled_start g c f j : filled g c f j (lstart g) = f (lstart g).
Proof. unfold filled. rewrite bool_decide_false; [done|]. lia. Qed.

Lemma filled_log g c f j t : (t < j)%nat -> filled g c f j (log_block g t) = c (lh_at g t).
Proof.
  intros Ht. unfold filled, log_block. replace (lstart g + Z.of_nat t + 1 - lstart g - 1) with (Z.of_nat t) by lia.
  rewrite bool_decide_true by lia. by rewrite Nat2Z.id.
Qed.

Lemma home_index_Some g j x t : home_index g j x = Some t -> lh g !! t = Some x /\ (t < j)%nat.
Proof.
  unfold home_index. intros ([t' y] & Hf & ->)%fmap_Some. cbn.
  apply list_find_Some in Hf as (Hl & -> & _). by apply lookup_take_Some in Hl.
Qed.

Lemma home_index_None g j x t : home_index g j x = None -> (t < j)%nat -> lh g !! t <> Some x.
Proof.
  unfold home_index. intros Hn%fmap_None Ht Hx. apply list_find_None in Hn.
  rewrite Forall_lookup in Hn. apply (Hn t x); [|done]. by rewrite lookup_take_lt.
Qed.

Lemma installed_S g c f j x b : NoDup (lh g) -> lh g !! j = Some b ->
  upd (installed g c f j) b (c (log_block g j)) x = installed g c f (S j) x.
Proof.
  intros Hnd Hb. unfold upd, installed. case_decide as E.
  - subst x. destruct (home_index g (S j) b) as [t|] eqn:Ht.
    + apply home_index_Some in Ht as [Ht _]. by rewrite (NoDup_lookup _ _ _ _ Hnd Ht Hb).
    + by destruct (home_index_None _ _ _ j Ht ltac:(lia)).
  - destruct (home_index g j x) as [t|] eqn:Ht, (home_index g (S j) x) as [u|] eqn:Hu; try done.
    + apply home_index_Some in Ht as [Ht _], Hu as [Hu _]. by rewrite (NoDup_lookup _ _ _ _ Hnd Ht Hu).
    + apply home_index_Some in Ht as [Ht ?]. by destruct (home_index_None _ _ _ t Hu ltac:(lia)).
    + apply home_index_Some in Hu as [Hu ?]. destruct (decide (u = j)) as [->|]; [congruence|].
      by destruct (home_index_None _ _ _ u Ht ltac:(lia)).
Qed.

(** Two more buffers fit beside the pinned ones: one of the blocks is pinned, or
    two buffers are left. *)
Lemma room_two (P : gset Z) (a b : Z) : (size P < NBUF)%nat -> b ∈ P \/ (size P + 2 <= NBUF)%nat ->
  (size ({[a; b]} ∪ P) <= NBUF)%nat.
Proof.
  intros Hs [Hb|Hp].
  - replace ({[a; b]} ∪ P) with ({[a]} ∪ P) by set_solver. rewrite size_union_alt.
    rewrite size_singleton. pose proof (subseteq_size (P ∖ {[a]}) P ltac:(set_solver)). lia.
  - rewrite size_union_alt. pose proof (subseteq_size (P ∖ {[a; b]}) P ltac:(set_solver)).
    assert (size ({[a; b]} : gset Z) <= 2)%nat; [|lia].
    rewrite size_union_alt. rewrite size_singleton.
    pose proof (subseteq_size ({[b]} ∖ {[a]} : gset Z) {[b]} ltac:(set_solver)) as Hle. rewrite size_singleton in Hle. lia.
Qed.

Section loops.
Context (g : log) (Hok : lh_ok g).

Lemma lh_at_lookup t b : lh g !! t = Some b -> lh_at g t = b.
Proof. intros Hb. unfold lh_at. by rewrite Hb. Qed.

Lemma lh_lookup t : (t < length (lh g))%nat ->
  exists b, lh g !! t = Some b /\ lh_at g t = b /\ 0 <= b < bl_size /\ home g b.
Proof.
  intros Ht. destruct (lookup_lt_is_Some_2 _ _ Ht) as [b Hb]. exists b.
  destruct (ok_home _ Hok b) as [? ?]; [by eapply list_elem_of_lookup_2|].
  split; [done|]. split; [by apply lh_at_lookup|]. split; [lia|done].
Qed.

Lemma log_block_valid t : (t < length (lh g))%nat -> 0 <= log_block g t < bl_size.
Proof. intros Ht. destruct (ok_area _ Hok). unfold log_block. lia. Qed.

Lemma log_block_not_home t : (t < length (lh g))%nat -> ~ home g (log_block g t).
Proof. intros Ht. destruct (ok_area _ Hok). unfold log_block, home. lia. Qed.

Lemma installed_log c f j t : (t < length (lh g))%nat -> installed g c f j (log_block g t) = f (log_block g t).
Proof.
  intros Ht. unfold installed. destruct (home_index g j (log_block g t)) as [u|] eqn:E; [|done].
  apply home_index_Some in E as [Hu _]. destruct (lh_lookup u) as (b & Hb & _ & _ & Hbh); [by eapply lookup_lt_Some|].
  rewrite Hb in Hu. injection Hu as ->. by destruct (log_block_not_home t Ht).
Qed.

End loops.

(** ** A commit that may start *)

Lemma installed_0 g c f x : installed g c f 0 x = f x.
Proof. done. Qed.

Lemma home_not_start g x : 0 < lsize g -> home g x -> x <> lstart g.
Proof. unfold home. lia. Qed.

Lemma hdr_n_nil b : length b = BSIZE -> hdr_n (hdr_encode [] b) = 0.
Proof. intros Hb. by rewrite hdr_n_encode by (done || cbn; lia). Qed.

(** A state in which a commit may start: a legal transaction whose blocks are
    exactly the pinned ones, and an empty header on the disk. *)
Record ready (s : lst St) : Prop := {
  rd_lh : lh_ok (lg s);
  rd_lock : llock s = false;
  rd_bl : bl_ok (bs s) ∅;
  rd_pinned : bl_pinned (bs s) = list_to_set (lh (lg s));
  rd_empty : hdr_n (bl_disk (bs s) (lstart (lg s))) = 0
}.

Section commit.
Context (s : lst St) (Hrd : ready s).
Abbreviation g := (lg s).
Abbreviation c := (bl_cur (bs s)).
Abbreviation d := (bl_disk (bs s)).
Abbreviation P := (bl_pinned (bs s)).
Abbreviation n := (length (lh (lg s))).

Lemma ready_mem : mem g (filled g c c 0) (filled g c d 0) P s.
Proof.
  assert (forall f x, f x = filled g c f 0 x) as H0.
  { intros f x. unfold filled. rewrite bool_decide_false; [done|lia]. }
  eapply mem_ext; [|apply H0..]. split; [split; [done|apply Hrd]|]. split_and!; try done. apply Hrd.
Qed.

Lemma ready_size : (size P < NBUF)%nat.
Proof.
  rewrite (rd_pinned _ Hrd). eapply Nat.le_lt_trans; [|apply (ok_len _ (rd_lh _ Hrd))].
  rewrite size_list_to_set; [done|]. apply (rd_lh _ Hrd).
Qed.

Lemma ready_home x : x ∈ P -> home g x.
Proof. rewrite (rd_pinned _ Hrd), elem_of_list_to_set. intros Hx. by apply (ok_home _ (rd_lh _ Hrd)). Qed.

Lemma ready_pinned x : x ∈ lh g -> x ∈ P.
Proof. intros Hx. by rewrite (rd_pinned _ Hrd), elem_of_list_to_set. Qed.

Lemma ready_size_pos : 0 < lsize g /\ (n < Z.to_nat (lsize g))%nat /\ 0 <= lstart g < bl_size.
Proof. destruct (ok_area _ (rd_lh _ Hrd)). lia. Qed.

(** The cache and the disk once the header is written. *)
Definition new_head : block := hdr_encode (lh g) (filled g c c n (lstart g)).
Definition c1 : Z -> block := upd (filled g c c n) (lstart g) new_head.
Definition d1 : Z -> block := upd (filled g c d n) (lstart g) new_head.

Lemma c1_log t : (t < n)%nat -> c1 (log_block g t) = c (lh_at g t) /\ d1 (log_block g t) = c (lh_at g t).
Proof.
  intros Ht. unfold c1, d1. rewrite !upd_ne by (unfold log_block; lia). by rewrite !filled_log.
Qed.

(** The home blocks on the disk, from the header write on: old or new, and the
    log blocks hold the new contents. *)
Lemma installed_home j x : (j <= n)%nat -> home g x ->
  installed g c1 d1 j x = d x \/ installed g c1 d1 j x = c x.
Proof.
  intros Hj Hx. pose proof ready_size_pos as (Hp & Hn & Hst). unfold installed.
  destruct (home_index g j x) as [t|] eqn:E.
  - apply home_index_Some in E as [Ht ?]. rewrite (proj1 (c1_log t ltac:(lia))), (lh_at_lookup _ _ _ Ht). by right.
  - left. unfold d1. rewrite upd_ne by (by apply (home_not_start g)). by apply filled_home.
Qed.

Lemma clean_home x : (forall t, lh g !! t <> Some x) -> c x = d x.
Proof.
  intros Hx. eapply bl_clean; [apply Hrd| |rewrite held_empty; set_solver].
  rewrite (rd_pinned _ Hrd), elem_of_list_to_set. intros [t Ht]%list_elem_of_lookup. by apply (Hx t).
Qed.

Lemma installed_all x : home g x -> installed g c1 d1 n x = c x.
Proof.
  intros Hx. pose proof ready_size_pos as (Hp & Hn & Hst). unfold installed.
  destruct (home_index g n x) as [t|] eqn:E.
  - apply home_index_Some in E as [Ht ?]. by rewrite (proj1 (c1_log t ltac:(lia))), (lh_at_lookup _ _ _ Ht).
  - unfold d1. rewrite upd_ne by (by apply (home_not_start g)). rewrite filled_home by done.
    symmetry. apply clean_home. intros t Ht. apply (home_index_None _ _ _ t E); [by eapply lookup_lt_Some|done].
Qed.

(** The disk after the header write holds the header of the transaction. *)
Lemma installed_head j : (j <= n)%nat -> hdr_decode (installed g c1 d1 j (lstart g)) = lh g.
Proof.
  intros Hj. pose proof ready_size_pos as (Hp & Hn & Hst). unfold installed.
  destruct (home_index g j (lstart g)) as [t|] eqn:E.
  { apply home_index_Some in E as [Ht _]. apply list_elem_of_lookup_2 in Ht.
    destruct (ok_home _ (rd_lh _ Hrd) _ Ht). lia. }
  unfold d1. rewrite upd_eq. unfold new_head. apply hdr_roundtrip.
  - rewrite filled_start. eapply bl_length, Hrd.
  - pose proof (ok_len _ (rd_lh _ Hrd)). unfold NBUF in *. lia.
  - apply Forall_forall. intros b Hb. destruct (ok_home _ (rd_lh _ Hrd) _ Hb).
    unfold is_u32. pose proof (ok_disk _ (rd_lh _ Hrd)). lia.
Qed.

(** A header in memory with the blocks of this log, on a log area like this one. *)
Lemma lh_ok_like g' l : lstart g' = lstart g -> lsize g' = lsize g -> l = lh g \/ l = [] -> lh_ok (set_lh l g').
Proof.
  intros Hs Hz Hl. destruct (rd_lh _ Hrd) as [Hnd Hlen Ha Hd Hh].
  destruct Hl as [->| ->]; constructor; cbn; rewrite ?Hs, ?Hz; try done.
  - apply NoDup_nil_2.
  - unfold NBUF. lia.
  - lia.
  - intros b Hb. by apply not_elem_of_nil in Hb.
Qed.

End commit.

(** ** Transactions keep the log ready *)

(** Between critical sections, outside a commit. *)
Record tx_inv (s : lst St) : Prop := {
  tx_ready : ready s;
  tx_lock : llock s = false;
  tx_idle : committing (lg s) = false;
  tx_out : 0 <= outstanding (lg s)
}.

Lemma tx_outstanding s k : tx_inv s -> 0 <= k ->
  tx_inv (mkLst (set_outstanding k (lg s)) false (bs s)).
Proof.
  intros [[[? ? ? ? ?] ? ? ? ?] ? ? ?] Hk. constructor; [|done..]. by constructor.
Qed.

(** begin_op admits an operation exactly when the blocks logged so far and ten
    per operation under way, the new one included, fit in 30; otherwise it
    sleeps with nothing changed. *)
Theorem begin_op_admission (s : lst St) (Hs : tx_inv s) :
  if Z.of_nat (length (lh (lg s))) + (outstanding (lg s) + 1) * 10 <=? 30
  then exists s', begin_op s = Ret tt s' /\ tx_inv s' /\ outstanding (lg s') = outstanding (lg s) + 1 /\ bs s' = bs s
  else begin_op s = Sleep CLog s.
Proof.
  pose proof Hs as [_ Hl Hc Ho]. unfold begin_op, acquire_log, release_log, set_log, mbind, M_bind, get, gets, put, modify.
  rewrite Hl. cbn. rewrite Hc. cbn. unfold LOGSIZE, MAXOPBLOCKS.
  rewrite Z.leb_antisym. destruct (30 <? _); cbn.
  - destruct s. cbn in *. by subst.
  - eexists. split; [done|]. split; [|done]. apply (tx_outstanding s); [done|lia].
Qed.

(** The header once block [b] is logged. *)
Definition absorb (b : Z) (g : log) : log := if bool_decide (b ∈ lh g) then g else set_lh (lh g ++ [b]) g.

Lemma absorb_same b g : lstart (absorb b g) = lstart g /\ lsize (absorb b g) = lsize g /\
  committing (absorb b g) = committing g /\ outstanding (absorb b g) = outstanding g.
Proof. unfold absorb. by case_bool_decide. Qed.

Lemma absorb_lh b g : lh (absorb b g) = if bool_decide (b ∈ lh g) then lh g else lh g ++ [b].
Proof. unfold absorb. by case_bool_decide. Qed.

(** The log has room for another block, in a transaction. *)
Definition can_log (g : log) : Prop :=
  1 <= outstanding g /\ Z.of_nat (length (lh g)) < lsize g - 1 /\ (length (lh g) < NBUF)%nat.

Lemma wp_log_write g c d P H i b s Q : memh g c d P H s -> H !! i = Some b -> can_log g ->
  (forall s', memh (absorb b g) c d ({[b]} ∪ P) H s' -> Q tt s') -> wp (log_write i) Q s.
Proof.
  intros [[Hg Hl] Hs] Hi (Ho & Hn & Hlt) HQ. unfold NBUF in Hlt. unfold log_write. apply wp_bind, wp_gets. rewrite Hg.
  rewrite (proj2 (Z.leb_gt _ _)) by (unfold LOGSIZE; lia). rewrite (proj2 (Z.leb_gt _ _)) by lia.
  rewrite (proj2 (Z.ltb_ge _ _)) by lia. cbn [orb].
  apply wp_bind. unfold acquire_log. apply wp_bind, wp_get. rewrite Hl. unfold put. apply (wp_modify (λ _, _)).
  apply wp_bind, wp_on_blocks. cbn [bs lg llock]. eapply wp_mono; [by eapply bl_blockno_law|].
  cbn. intros b' s1 [-> ->]. apply wp_bind. unfold set_log. apply wp_modify. cbn [lg llock bs].
  apply wp_bind, wp_on_blocks. cbn [bs lg llock]. eapply wp_mono; [by eapply bl_pin_law|].
  cbn. intros [] t Ht. unfold release_log. apply wp_bind, wp_get. cbn [negb llock].
  apply (wp_modify (λ _, _)). cbn [lg bs]. apply HQ. split; [split; [cbn; by rewrite Hg|done]|done].
Qed.

(** The use of log_write that its comment gives: the block gets new contents in a
    transaction. *)
Definition logged_write (b : Z) (v : block) : M (lst St) unit :=
  i ← on_blocks (bl_bread b); on_blocks (bl_set i v) ;; log_write i ;; on_blocks (bl_brelse i).

Lemma lh_ok_absorb g b : lh_ok g -> can_log g -> (length (lh g) < NBUF - 1)%nat ->
  0 <= b < bl_size -> home g b -> lh_ok (absorb b g).
Proof.
  intros [Hnd Hln Ha Hd Hh] (_ & Hn & _) Hlt Hb Hhb. unfold absorb. case_bool_decide as Hin; [done|].
  unfold NBUF in *. constructor; cbn; try done.
  - apply NoDup_app. split_and!; [done| |apply NoDup_singleton].
    intros x Hx Hx'%list_elem_of_singleton. by subst.
  - rewrite length_app. cbn. unfold NBUF. lia.
  - rewrite length_app. cbn. lia.
  - intros x [Hx|Hx%list_elem_of_singleton]%elem_of_app; [by apply Hh|by subst].
Qed.

Lemma ready_mem' s : ready s -> mem (lg s) (bl_cur (bs s)) (bl_disk (bs s)) (list_to_set (lh (lg s))) s.
Proof. intros [? ? ? ? ?]. by split. Qed.

(** The typical use of log_write, inside a transaction that is not too big,
    returns, puts the block in the cache and leaves the disk alone, pins it,
    logs its number once however often it is written, and leaves the log ready
    to commit. *)
Theorem log_write_absorbs (s : lst St) b v (Hs : tx_inv s) (Ho : 1 <= outstanding (lg s))
  (Hn : Z.of_nat (length (lh (lg s))) < lsize (lg s) - 1) (Hlt : (length (lh (lg s)) < NBUF - 1)%nat)
  (Hb : 0 <= b < bl_size /\ home (lg s) b) (Hv : length v = BSIZE) :
  wp (logged_write b v) (λ _ s', tx_inv s' /\
    lh (lg s') = (if bool_decide (b ∈ lh (lg s)) then lh (lg s) else lh (lg s) ++ [b]) /\
    (forall x, bl_cur (bs s') x = upd (bl_cur (bs s)) b v x) /\
    (forall x, bl_disk (bs s') x = bl_disk (bs s) x)) s.
Proof.
  destruct Hs as [Hrd Hl Hc Hout]. pose proof (ready_mem' s Hrd) as Hm.
  assert (can_log (lg s)) as Hcan by (split_and!; lia).
  unfold logged_write. apply wp_bind. eapply wpb_bread; [exact Hm|apply room_small; [|apply Hb]|].
  { rewrite <-(rd_pinned _ Hrd). by apply ready_size. }
  intros i s1 _ H1. apply wp_bind. eapply wpb_set; [exact H1|apply lookup_insert_eq|done|]. intros s2 H2.
  apply wp_bind. eapply wp_log_write; [exact H2|apply lookup_insert_eq|done|].
  intros s3 H3. eapply wpb_brelse; [exact H3|apply lookup_insert_eq|left; set_solver|].
  intros s4 H4. rewrite delete_insert_id in H4 by apply lookup_empty.
  destruct H4 as [[Hg4 Hk4] (Ho4 & Hc4 & Hd4 & Hp4)].
  destruct (absorb_same b (lg s)) as (E1 & E2 & E3 & E4).
  split_and!; [|by rewrite Hg4, absorb_lh|done|done].
  constructor; rewrite ?Hg4, ?E3, ?E4; try done. constructor; rewrite ?Hg4; try done.
  - apply lh_ok_absorb; try done; [apply Hrd|apply Hb..].
  - rewrite Hp4, absorb_lh. case_bool_decide as Hin; [|set_solver].
    assert (b ∈ (list_to_set (lh (lg s)) : gset Z)) by (by apply elem_of_list_to_set). set_solver.
  - rewrite E1, Hd4. apply Hrd.
Qed.

(** The reservation of begin_op and the limit of log_write disagree by one: on a
    log area of 30 blocks, as mkfs makes it, an operation is admitted beside
    two others, and the thirtieth distinct block of the three panics. *)
Theorem log_reservation_off_by_one (s : lst St) i
  (Hs : tx_inv s) (Hsz : lsize (lg s) = 30) :
  (lh (lg s) = [] -> outstanding (lg s) = 2 -> exists s', begin_op s = Ret tt s') /\
  (length (lh (lg s)) = 29%nat -> log_write i s = Panic "too big a transaction").
Proof.
  split.
  - intros Hn Ho. destruct Hs as [_ Hl Hc _].
    unfold begin_op, acquire_log, release_log, set_log, mbind, M_bind, get, gets, put, modify.
    rewrite Hl. cbn. rewrite Hc, Hn, Ho. cbn. eauto.
  - intros Hn. unfold log_write, mbind, M_bind, gets. by rewrite Hn, Hsz.
Qed.
End log_props.

(** ** On the buffer cache

    A disk of 1000 blocks with the log in blocks 2 to 31; process 1 has written
    block 100 in a transaction. *)
Section on_bio.
#[local] Instance disk1000 : BlockLayer bcache := bio_layer 1000 1.
#[local] Instance disk1000_laws : BlockLaws bcache := bio_laws 1000 1.

Definition zero_disk : Z -> block := λ _, zero_block.
Definition log0 (n : Z) (l : list Z) : log := mkLog 2 30 n false l.
Definition ones : block := replicate BSIZE 1.
Definition buf100 : buf := mkBuf true true 1 100 initsleeplock 0 ones.

Definition fresh_log (n : Z) : lst bcache := mkLst (log0 n []) false (binit zero_disk).
Definition one_block : lst bcache := mkLst (log0 1 [100]) false (mkBc (<[0%nat := buf100]> (replicate NBUF buf0)) (rev (seq 0 NBUF)) false zero_disk).

Lemma lh_ok_log0 n l : l = [] \/ l = [100] -> lh_ok (log0 n l).
Proof.
  intros Hl. constructor; cbn; try lia.
  - destruct Hl as [->| ->]; [apply NoDup_nil_2|apply NoDup_singleton].
  - destruct Hl as [->| ->]; cbn; unfold NBUF; lia.
  - destruct Hl as [->| ->]; cbn; lia.
  - intros b Hb. destruct Hl as [->| ->]; [by apply not_elem_of_nil in Hb|].
    apply list_elem_of_singleton in Hb. lia.
Qed.

Lemma fresh_log_inv n : 0 <= n -> tx_inv (fresh_log n).
Proof.
  intros Hn. destruct (binit_sees 1000 1 zero_disk) as (Hok & _ & _ & Hp); [done|]. constructor; try done.
  constructor; [apply lh_ok_log0; auto|reflexivity|exact Hok|exact Hp|reflexivity].
Qed.

Lemma one_block_ready : ready one_block.
Proof.
  assert (sees (binit zero_disk) zero_disk zero_disk ∅ ∅) as Hs by (by apply (binit_sees 1000 1)).
  destruct (sees_replace 1000 1 (binit zero_disk) zero_disk zero_disk ∅ ∅ ∅ 100 0 buf100 (rev (seq 0 NBUF)) zero_disk Hs)
    as (Hok & _ & _ & Hp).
  - constructor; [|by exists buf0; auto]. by intros j y _ [-> _]%lookup_replicate.
  - constructor; try done; [|symmetry; apply Permutation_rev]. by split; [|right].
  - constructor; [apply lh_ok_log0; auto|reflexivity|exact Hok| |reflexivity].
    etransitivity; [exact Hp|]. reflexivity.
Qed.

Lemma begin_op_admission_witness : begin_op (fresh_log 3) = Sleep CLog (fresh_log 3).
Proof. apply (begin_op_admission (fresh_log 3)). apply fresh_log_inv. lia. Defined.

Lemma log_write_absorbs_witness :
  wp (logged_write 100 ones) (λ _ s', tx_inv s' /\ lh (lg s') = [100] /\
    (forall x, bl_cur (bs s') x = upd (bl_cur (bs (fresh_log 1))) 100 ones x) /\
    (forall x, bl_disk (bs s') x = bl_disk (bs (fresh_log 1)) x)) (fresh_log 1).
Proof.
  apply (log_write_absorbs (fresh_log 1) 100 ones); try reflexivity; try (cbn; lia).
  - apply fresh_log_inv. lia.
  - split; [cbn; lia|]. right. cbn. lia.
Defined.

Lemma log_reservation_off_by_one_witness : exists s', begin_op (fresh_log 2) = Ret tt s'.
Proof.
  apply (log_reservation_off_by_one (fresh_log 2) 0); try reflexivity. apply fresh_log_inv. lia.
Defined.
End on_bio.
