(* ===== verification/Crash.v ===== *)
(** * Crashes of commit and of recovery

    The block layer with a history: every disk there was, one more with each call
    of bwrite.  The code of log.c runs on it unchanged, so that the disks of the
    history are the ones a crash of commit, or of a recovery, may leave.  One block
    is written whole or not at all. *)

From S2P Require Import Prelude Sleeplock Block BlockLayer Bio Log LogProps.

Section crash.
Context {St : Type} `{BLi : BlockLayer St} `{BW : !BlockLaws St}.

(** ** The disks of a run *)

Record traced := mkTr { base : St; trail : list (Z -> block) }.

Definition lift {A} (m : M St A) : M traced A := zoom base (λ b t, mkTr b (trail t)) m.

#[global] Instance traced_layer : BlockLayer traced := {|
  bl_ok t := bl_ok (base t); bl_cur t := bl_cur (base t); bl_disk t := bl_disk (base t); bl_pinned t := bl_pinned (base t);
  bl_size := bl_size (St := St);
  bl_bread b := lift (bl_bread b); bl_blockno i := lift (bl_blockno i); bl_data i := lift (bl_data i);
  bl_set i v := lift (bl_set i v); bl_pin i := lift (bl_pin i); bl_brelse i := lift (bl_brelse i);
  bl_bwrite i := lift (bl_bwrite i) ;; modify (λ t, mkTr (base t) (trail t ++ [bl_disk (base t)]))
|}.

Definition begin_trace (s : lst St) : lst traced := mkLst (lg s) (llock s) (mkTr (bs s) [bl_disk (bs s)]).
Definition untrace (t : lst traced) : lst St := mkLst (lg t) (llock t) (base (bs t)).

(** The disk before [m] and after each of its writes. *)
Definition disks (m : M (lst traced) unit) (s : lst St) : list (Z -> block) :=
  match m (begin_trace s) with Ret _ t | Sleep _ t => trail (bs t) | Panic _ => [] end.

(** ** The history changes nothing *)

Definition untraces {A} (m : M (lst traced) A) (m' : M (lst St) A) : Prop := forall t,
  match m t with
  | Ret a t' => m' (untrace t) = Ret a (untrace t')
  | Panic msg => m' (untrace t) = Panic msg
  | Sleep c t' => m' (untrace t) = Sleep c (untrace t')
  end.

Lemma untraces_bind {A B} (m : M (lst traced) A) m' (k : A -> M (lst traced) B) k' :
  untraces m m' -> (forall a, untraces (k a) (k' a)) -> untraces (m ≫= k) (m' ≫= k').
Proof.
  intros Hm Hk t. unfold mbind, M_bind. specialize (Hm t). destruct (m t) as [a t1| |]; rewrite Hm; [apply Hk|done..].
Qed.
Lemma untraces_gets {A} (k : log -> M (lst traced) A) k' : (forall g, untraces (k g) (k' g)) -> untraces (g ← gets lg; k g) (g ← gets lg; k' g).
Proof. intros Hk t. exact (Hk (lg t) t). Qed.
Lemma untraces_set f : untraces (set_log f) (set_log f).
Proof. intros t. done. Qed.
Lemma untraces_lift {A} (m : M St A) : untraces (on_blocks (lift m)) (on_blocks m).
Proof. intros t. unfold on_blocks, lift, zoom, untrace. cbn. by destruct (m (base (bs t))). Qed.
Lemma untraces_bwrite i : untraces (on_blocks (bl_bwrite i)) (on_blocks (bl_bwrite i)).
Proof. intros t. cbn. unfold on_blocks, lift, zoom, untrace, mbind, M_bind. cbn. by destruct (bl_bwrite i (base (bs t))) as [[]| |]. Qed.
Lemma untraces_for n (f : nat -> M (lst traced) unit) f' : (forall j, untraces (f j) (f' j)) -> forall j, untraces (for_range j n f) (for_range j n f').
Proof. intros Hf. induction n as [|n IH]; intros j; cbn [for_range]; [by intros t|]. by apply untraces_bind. Qed.

Ltac untrace_tac := repeat first
  [ apply untraces_gets; intros ? | apply untraces_bwrite | apply untraces_lift | apply untraces_set
  | apply untraces_for; intros ? | apply untraces_bind; [|intros ?] ].

Lemma commit_untraces : untraces commit commit.
Proof.
  unfold commit, write_log, install_trans, write_head, write_log_step, install_step.
  apply untraces_gets. intros g. destruct (0 <? length (lh g))%nat; [|by intros t]. untrace_tac.
Qed.

Lemma recover_untraces : untraces recover_from_log recover_from_log.
Proof.
  unfold recover_from_log, read_head, install_trans, write_head, install_step. untrace_tac.
Qed.

Lemma wp_untraces (m : M (lst traced) unit) (m' : M (lst St) unit) Q s :
  untraces m m' -> wp m (λ a t, Q a (untrace t)) (begin_trace s) -> wp m' Q s.
Proof.
  intros He Hw. specialize (He (begin_trace s)). unfold wp in *. replace (untrace (begin_trace s)) with s in He by (by destruct s).
  destruct (m (begin_trace s)); [by rewrite He|done..].
Qed.

(** ** Rules that keep account of the disks

    [C k] must hold of the disk that write number [k] leaves, the disk at the start
    being number 0. *)
Section rules.
Context (C : nat -> (Z -> block) -> Prop).

Definition sized (D : Z -> block) : Prop := forall x, length (D x) = BSIZE.

Definition hm (g : log) (c d : Z -> block) (P : gset Z) (H : gmap nat Z) (k : nat) (t : lst traced) : Prop :=
  (lg t = g /\ llock t = false) /\ sees (base (bs t)) c d P H /\
  length (trail (bs t)) = k /\ forall j D, trail (bs t) !! j = Some D -> C j D /\ sized D.

Lemma wp_on_lift {A} (m : M St A) Q (t : lst traced) :
  wp m (λ a b, Q a (mkLst (lg t) (llock t) (mkTr b (trail (bs t))))) (base (bs t)) -> wp (on_blocks (lift m)) Q t.
Proof. unfold wp, on_blocks, lift, zoom. cbn. by destruct (m (base (bs t))). Qed.

Lemma hm_ext g c d P k c' d' t : hm g c d P ∅ k t -> (forall x, c x = c' x) -> (forall x, d x = d' x) -> hm g c' d' P ∅ k t.
Proof. intros (Hg & Hs & Hr) Hc Hd. split; [done|]. split; [|done]. by eapply sees_ext. Qed.

Lemma hm_length g c d P H k t b : hm g c d P H k t -> length (c b) = BSIZE /\ length (d b) = BSIZE.
Proof. intros (_ & Hs & _). by eapply sees_length. Qed.

Lemma hm_clean g c d P k t b : hm g c d P ∅ k t -> b ∈ P \/ c b = d b.
Proof. intros (_ & Hs & _). destruct (decide (b ∈ P)); [by left|right]. by eapply sees_clean. Qed.

Lemma hm_bread g c d P H k b t Q : hm g c d P H k t -> room (bl_size (St := St)) P H b ->
  (forall i t', H !! i = None -> hm g c d P (<[i:=b]> H) k t' -> Q i t') -> wp (on_blocks (bl_bread b)) Q t.
Proof.
  intros (Hg & Hs & Hr) Hb HQ. apply wp_on_lift. eapply wp_mono; [by eapply bl_bread_law|].
  cbn. intros i b' [Hi Hs']. by apply HQ.
Qed.

Lemma hm_data g c d P H k i b t Q : hm g c d P H k t -> H !! i = Some b -> Q (c b) t -> wp (on_blocks (bl_data i)) Q t.
Proof.
  intros (Hg & Hs & Hr) Hi HQ. apply wp_on_lift. eapply wp_mono; [by eapply bl_data_law|].
  cbn. intros v b' [-> ->]. by destruct t as [? ? []].
Qed.

Lemma hm_set g c d P H k i b v t Q : hm g c d P H k t -> H !! i = Some b -> length v = BSIZE ->
  (forall t', hm g (upd c b v) d P H k t' -> Q tt t') -> wp (on_blocks (bl_set i v)) Q t.
Proof.
  intros (Hg & Hs & Hr) Hi Hv HQ. apply wp_on_lift. eapply wp_mono; [by eapply bl_set_law|].
  cbn. intros [] b' Hs'. by apply HQ.
Qed.

Lemma hm_brelse g c d P H k i b t Q : hm g c d P H k t -> H !! i = Some b -> b ∈ P \/ c b = d b ->
  (forall t', hm g c d P (delete i H) k t' -> Q tt t') -> wp (on_blocks (bl_brelse i)) Q t.
Proof.
  intros (Hg & Hs & Hr) Hi Hc HQ. apply wp_on_lift. eapply wp_mono; [by eapply bl_brelse_law|].
  cbn. intros [] b' Hs'. by apply HQ.
Qed.

Lemma hm_bwrite g c d P H k i b t Q : hm g c d P H k t -> H !! i = Some b ->
  (forall D, (forall x, D x = upd d b (c b) x) -> C k D) ->
  (forall t', hm g c (upd d b (c b)) (P ∖ {[b]}) H (S k) t' -> Q tt t') -> wp (on_blocks (bl_bwrite i)) Q t.
Proof.
  intros (Hg & Hs & Hk & Ht) Hi HD HQ. unfold on_blocks, wp, zoom. cbn. unfold mbind, M_bind, lift, zoom, modify.
  destruct (wp_inv _ _ _ (bl_bwrite_law _ _ _ _ _ _ _ Hs Hi)) as ([] & b' & -> & Hs'). apply HQ.
  split; [done|]. split; [exact Hs'|]. cbn. split; [rewrite length_app; cbn; lia|].
  intros j D [Hj|[Hj HD']]%lookup_app_Some; [by apply Ht|]. apply list_lookup_singleton_Some in HD' as [E <-].
  replace j with k by lia. split; [apply HD, Hs'|]. intros x. by eapply bl_length, Hs'.
Qed.

Lemma hm_set_lh g c d P H k l t Q : hm g c d P H k t ->
  (forall t', hm (set_lh l g) c d P H k t' -> Q tt t') -> wp (set_log (set_lh l)) Q t.
Proof. intros ([Hg Hk] & Hm) HQ. unfold set_log. apply wp_modify, HQ. split; [split; [cbn; by rewrite Hg|done]|done]. Qed.

(** ** The parts of commit and of recovery, with one write each *)

Lemma hm_write_head g c d P k t Q : hm g c d P ∅ k t -> room (bl_size (St := St)) P ∅ (lstart g) ->
  let v := hdr_encode (lh g) (c (lstart g)) in
  (forall D, (forall x, D x = upd d (lstart g) v x) -> C k D) ->
  (forall t', hm g (upd c (lstart g) v) (upd d (lstart g) v) (P ∖ {[lstart g]}) ∅ (S k) t' -> Q tt t') ->
  wp write_head Q t.
Proof.
  intros Hm Hr v HD HQ. unfold write_head. apply wp_bind, wp_gets. rewrite (proj1 (proj1 Hm)).
  apply wp_bind. eapply hm_bread; [exact Hm|done|]. intros i t1 Hi H1.
  apply wp_bind. eapply hm_data; [exact H1|apply lookup_insert_eq|].
  apply wp_bind. eapply hm_set; [exact H1|apply lookup_insert_eq| |].
  { rewrite length_hdr_encode. apply (hm_length _ _ _ _ _ _ _ _ Hm). }
  intros t2 H2. apply wp_bind. eapply hm_bwrite; [exact H2|apply lookup_insert_eq|by rewrite upd_eq|]. intros t3 H3.
  rewrite upd_eq in H3. eapply hm_brelse; [exact H3|apply lookup_insert_eq|right; by rewrite !upd_eq|].
  intros t4 H4. apply HQ. by rewrite delete_insert_id in H4.
Qed.

Lemma hm_read_head g c d P k t Q : hm g c d P ∅ k t -> room (bl_size (St := St)) P ∅ (lstart g) ->
  (forall t', hm (set_lh (hdr_decode (c (lstart g))) g) c d P ∅ k t' -> Q tt t') -> wp read_head Q t.
Proof.
  intros Hm Hr HQ. unfold read_head. apply wp_bind, wp_gets. rewrite (proj1 (proj1 Hm)).
  apply wp_bind. eapply hm_bread; [exact Hm|done|]. intros i t1 Hi H1.
  apply wp_bind. eapply hm_data; [exact H1|apply lookup_insert_eq|].
  apply wp_bind. eapply hm_set_lh; [exact H1|]. intros t2 H2.
  eapply hm_brelse; [exact H2|apply lookup_insert_eq|by eapply hm_clean|].
  intros t3 H3. apply HQ. by rewrite delete_insert_id in H3.
Qed.

Lemma hm_write_log_step g c d P j k t Q (a := lh_at g j) (b := log_block g j) :
  hm g c d P ∅ k t -> 0 <= a < bl_size (St := St) -> 0 <= b < bl_size (St := St) -> a <> b ->
  (size P < NBUF)%nat -> (size ({[b; a]} ∪ P) <= NBUF)%nat ->
  (forall D, (forall x, D x = upd d b (c a) x) -> C k D) ->
  (forall t', hm g (upd c b (c a)) (upd d b (c a)) (P ∖ {[b]}) ∅ (S k) t' -> Q tt t') -> wp (write_log_step j) Q t.
Proof.
  intros Hm Ha Hb Hne Hsz Hsz2 HD HQ. unfold write_log_step. apply wp_bind, wp_gets. rewrite (proj1 (proj1 Hm)).
  pose proof (hm_clean _ _ _ _ _ _ a Hm) as Hcl. destruct (hm_length _ _ _ _ _ _ _ a Hm) as [Hla _].
  apply wp_bind. eapply hm_bread; [exact Hm|by apply room_small|]. intros i t1 _ H1.
  apply wp_bind. eapply hm_bread; [exact H1|by apply room_second|]. intros o t2 Ho H2.
  destruct (two_held i o b a Ho) as (Ei & Ek & Edi & Edk & Eik & Eki).
  apply wp_bind. eapply hm_data; [exact H2|exact Ek|].
  apply wp_bind. eapply hm_set; [exact H2|exact Ei|done|]. intros t3 H3.
  apply wp_bind. eapply hm_bwrite; [exact H3|exact Ei|by rewrite upd_eq|]. intros t4 H4. rewrite upd_eq in H4.
  apply wp_bind. eapply hm_brelse; [exact H4|exact Ek| |].
  { rewrite !upd_ne by done. destruct Hcl; [left; set_solver|by right]. }
  intros t5 H5. eapply hm_brelse; [exact H5|exact Edi|right; by rewrite !upd_eq|].
  intros t6 H6. apply HQ. fold a b in H6. rewrite Eik in H6. exact H6.
Qed.

Lemma hm_install_step g c d P j k t Q (a := log_block g j) (b := lh_at g j) :
  hm g c d P ∅ k t -> 0 <= a < bl_size (St := St) -> 0 <= b < bl_size (St := St) -> a <> b ->
  (size P < NBUF)%nat -> (size ({[a; b]} ∪ P) <= NBUF)%nat ->
  (forall D, (forall x, D x = upd d b (c a) x) -> C k D) ->
  (forall t', hm g (upd c b (c a)) (upd d b (c a)) (P ∖ {[b]}) ∅ (S k) t' -> Q tt t') -> wp (install_step j) Q t.
Proof.
  intros Hm Ha Hb Hne Hsz Hsz2 HD HQ. unfold install_step. apply wp_bind, wp_gets. rewrite (proj1 (proj1 Hm)).
  pose proof (hm_clean _ _ _ _ _ _ a Hm) as Hcl. destruct (hm_length _ _ _ _ _ _ _ a Hm) as [Hla _].
  apply wp_bind. eapply hm_bread; [exact Hm|by apply room_small|]. intros i t1 _ H1.
  apply wp_bind. eapply hm_bread; [exact H1|by apply room_second|]. intros o t2 Ho H2.
  destruct (two_held i o a b Ho) as (Ei & Ek & Edi & Edk & Eik & Eki).
  apply wp_bind. eapply hm_data; [exact H2|exact Ei|].
  apply wp_bind. eapply hm_set; [exact H2|exact Ek|done|]. intros t3 H3.
  apply wp_bind. eapply hm_bwrite; [exact H3|exact Ek|by rewrite upd_eq|]. intros t4 H4. rewrite upd_eq in H4.
  apply wp_bind. eapply hm_brelse; [exact H4|exact Ei| |].
  { rewrite !upd_ne by done. destruct Hcl; [left; set_solver|by right]. }
  intros t5 H5. eapply hm_brelse; [exact H5|exact Edk|right; by rewrite !upd_eq|].
  intros t6 H6. apply HQ. fold a b in H6. rewrite Eki in H6. exact H6.
Qed.

(** ** The two loops *)

Section loops.
Context (g : log) (Hok : lh_ok (St := St) g).

Lemma hm_write_log_loop c d P n : forall j k t Q,
  (size P < NBUF)%nat -> (forall x, x ∈ P -> home g x) -> (forall x, x ∈ lh g -> x ∈ P) -> (j + n <= length (lh g))%nat ->
  hm g (filled g c c j) (filled g c d j) P ∅ (j + k) t ->
  (forall i D, (j <= i < j + n)%nat -> (forall x, D x = filled g c d (S i) x) -> C (i + k) D) ->
  (forall t', hm g (filled g c c (j + n)) (filled g c d (j + n)) P ∅ (j + n + k) t' -> Q tt t') ->
  wp (for_range j n write_log_step) Q t.
Proof.
  induction n as [|n IH]; intros j k t Q Hsz HP HL Hjn Hm HD HQ; cbn [for_range].
  { apply wp_ret. apply HQ. by rewrite Nat.add_0_r. }
  destruct (lh_lookup g Hok j) as (b & Hb & Hat & Hbv & Hbh); [lia|].
  pose proof (log_block_valid g Hok j ltac:(lia)). pose proof (log_block_not_home g Hok j ltac:(lia)) as Hnh.
  assert (filled g c c j (lh_at g j) = c (lh_at g j)) as Hrd.
  { apply filled_home; [|by rewrite Hat]. destruct (ok_area _ Hok). lia. }
  apply wp_bind. eapply hm_write_log_step; [exact Hm|by rewrite Hat|done|rewrite Hat; congruence|done|..].
  { apply room_two; [done|]. left. rewrite Hat. apply HL. by eapply list_elem_of_lookup_2. }
  { intros D E. apply HD; [lia|]. intros x. rewrite E, Hrd. apply filled_S. }
  assert (P ∖ {[log_block g j]} = P) as HPd.
  { assert (log_block g j ∉ P) by (intros ?%HP; done). set_solver. }
  intros t' Hm'. rewrite Hrd, HPd in Hm'. apply (IH (S j) k); [done|done|done|lia| |intros i D Hi; apply HD; lia|].
  - eapply hm_ext; [exact Hm'|..]; intros x; apply filled_S.
  - intros t2 Hm2. apply HQ. by replace (j + S n)%nat with (S j + n)%nat by lia.
Qed.

Lemma hm_install_loop c d P n : forall j k t Q,
  (size P < NBUF)%nat -> (forall x, x ∈ lh g -> x ∈ P) \/ (size P + 2 <= NBUF)%nat -> (j + n <= length (lh g))%nat ->
  hm g (installed g c c j) (installed g c d j) (P ∖ list_to_set (take j (lh g))) ∅ (j + k) t ->
  (forall i D, (j <= i < j + n)%nat -> (forall x, D x = installed g c d (S i) x) -> C (i + k) D) ->
  (forall t', hm g (installed g c c (j + n)) (installed g c d (j + n)) (P ∖ list_to_set (take (j + n) (lh g))) ∅ (j + n + k) t' -> Q tt t') ->
  wp (for_range j n install_step) Q t.
Proof.
  induction n as [|n IH]; intros j k t Q Hsz HL Hjn Hm HD HQ; cbn [for_range].
  { apply wp_ret. apply HQ. by rewrite Nat.add_0_r. }
  destruct (lh_lookup g Hok j) as (b & Hb & Hat & Hbv & Hbh); [lia|].
  pose proof (log_block_valid g Hok j ltac:(lia)).
  assert (size (P ∖ list_to_set (take j (lh g))) < NBUF)%nat as Hsz'.
  { eapply Nat.le_lt_trans; [apply subseteq_size|exact Hsz]. set_solver. }
  assert (log_block g j <> lh_at g j) as Hne by (rewrite Hat; intros <-; by apply (log_block_not_home g Hok j ltac:(lia))).
  apply wp_bind. eapply hm_install_step; [exact Hm|done|by rewrite Hat|done|done|..].
  { apply room_two; [done|]. destruct HL as [HL|HL]; [left|right].
    - rewrite Hat. apply elem_of_difference. split; [apply HL; by eapply list_elem_of_lookup_2|].
      rewrite elem_of_list_to_set. intros [u Hu]%list_elem_of_lookup. apply lookup_take_Some in Hu as [Hu ?].
      assert (u = j); [|lia]. eapply NoDup_lookup; [by destruct Hok|done..].
    - pose proof (subseteq_size (P ∖ list_to_set (take j (lh g))) P ltac:(set_solver)). lia. }
  { intros D E. apply HD; [lia|]. intros x. rewrite E, Hat, (installed_log g Hok c c j j) by lia. apply installed_S; by destruct Hok. }
  intros t' Hm'. rewrite Hat, (installed_log g Hok c c j j) in Hm' by lia. apply (IH (S j) k); [done|done|lia| |intros i D Hi; apply HD; lia|].
  - rewrite (take_S_r _ _ _ Hb), list_to_set_app_L. cbn [list_to_set].
    replace (P ∖ (list_to_set (take j (lh g)) ∪ ({[b]} ∪ ∅))) with (P ∖ list_to_set (take j (lh g)) ∖ {[b]}) by set_solver.
    eapply hm_ext; [exact Hm'|..]; intros x; apply installed_S; by destruct Hok.
  - intros t2 Hm2. apply HQ. by replace (j + S n)%nat with (S j + n)%nat by lia.
Qed.
End loops.

(** Recovery: the writes of install_trans for the header found on the disk, and
    the write of an empty header. *)
Lemma hm_recover g0 D l k t Q (g := set_lh l g0) (n := length l) :
  hm g0 D D ∅ ∅ k t -> hdr_decode (D (lstart g0)) = l -> lh_ok (St := St) g ->
  (forall i D', (i < n)%nat -> (forall x, D' x = installed g D D (S i) x) -> C (i + k) D') ->
  (forall D' v, hdr_n v = 0 -> (forall x, D' x = upd (installed g D D n) (lstart g) v x) -> C (n + k) D') ->
  (forall t' c' v, hdr_n v = 0 -> hm (set_lh [] g) c' (upd (installed g D D n) (lstart g) v) ∅ ∅ (S (n + k)) t' -> Q tt t') ->
  wp recover_from_log Q t.
Proof.
  intros Hm Hl Hok HD HE HQ. destruct (ok_area _ Hok) as [Hs Ha]. cbn in Hs, Ha.
  assert (size (∅ : gset Z) < NBUF)%nat as Hsz by (rewrite size_empty; unfold NBUF; lia).
  unfold recover_from_log. apply wp_bind. eapply hm_read_head; [exact Hm|apply room_small; [done|lia]|].
  intros t2 Hm2. rewrite Hl in Hm2. fold g in Hm2.
  apply wp_bind. unfold install_trans. apply wp_bind, wp_gets. rewrite (proj1 (proj1 Hm2)).
  assert (forall l', ∅ ∖ list_to_set l' = (∅ : gset Z)) as Hempty by set_solver.
  eapply (hm_install_loop g Hok D D ∅ _ 0 k); [done|right; rewrite size_empty; unfold NBUF; lia|cbn; lia| |intros i D' Hi; apply HD; cbn in Hi; lia|].
  { rewrite Hempty. eapply hm_ext; [exact Hm2|intros x; symmetry; apply installed_0..]. }
  intros t3 Hm3. rewrite Hempty in Hm3. cbn [Nat.add lh g set_lh] in Hm3. fold n in Hm3. apply wp_bind. eapply hm_set_lh; [exact Hm3|]. intros t4 Hm4.
  pose proof (hdr_n_nil _ (proj1 (hm_length _ _ _ _ _ _ _ (lstart g) Hm4))) as Hz.
  eapply hm_write_head; [exact Hm4|apply room_small; [done|cbn; lia]|intros D' E; by eapply HE|].
  intros t5 Hm5. replace (∅ ∖ {[lstart (set_lh [] g)]}) with (∅ : gset Z) in Hm5 by set_solver. eapply HQ; [exact Hz|exact Hm5].
Qed.

(** A commit of [n] blocks: [n] writes to the log, the header, [n] writes to the
    home blocks and the empty header. *)
Lemma hm_commit s Q (g := lg s) (n := length (lh (lg s))) :
  ready s -> (0 < n)%nat -> C 0 (bl_disk (bs s)) ->
  (forall i D, (i < n)%nat -> (forall x, D x = filled g (bl_cur (bs s)) (bl_disk (bs s)) (S i) x) -> C (i + 1) D) ->
  (forall D, (forall x, D x = d1 s x) -> C (n + 1) D) ->
  (forall i D, (i < n)%nat -> (forall x, D x = installed g (c1 s) (d1 s) (S i) x) -> C (i + S (n + 1)) D) ->
  (forall D v, hdr_n v = 0 -> (forall x, D x = upd (installed g (c1 s) (d1 s) n) (lstart g) v x) -> C (n + S (n + 1)) D) ->
  (forall t' c' v, hdr_n v = 0 -> hm (set_lh [] g) c' (upd (installed g (c1 s) (d1 s) n) (lstart g) v) ∅ ∅ (S (n + S (n + 1))) t' -> Q tt t') ->
  wp commit Q (begin_trace s).
Proof.
  intros Hrd Hn H0 HL HH HI HE HQ. pose proof (ready_size_pos s Hrd) as (Hp & Hnl & Hst). pose proof (ready_size s Hrd) as Hsz.
  unfold commit. apply wp_bind, wp_gets. cbn [lg begin_trace]. replace (0 <? _)%nat with true by (symmetry; by apply Nat.ltb_lt).
  apply wp_bind. unfold write_log. apply wp_bind, wp_gets. cbn [lg begin_trace].
  eapply (hm_write_log_loop g (rd_lh _ Hrd) (bl_cur (bs s)) (bl_disk (bs s)) (bl_pinned (bs s)) n 0 1); [done|by apply (ready_home s)|by apply (ready_pinned s)|done| |intros i D Hi; apply HL; lia|].
  { destruct (ready_mem s Hrd) as [Hg Hs]. split; [exact Hg|]. split; [exact Hs|]. split; [done|]. cbn. intros j D [-> <-]%list_lookup_singleton_Some. split; [exact H0|]. intros x. eapply bl_length, Hrd. }
  intros t1 Hm1. cbn [Nat.add] in Hm1. apply wp_bind.
  eapply hm_write_head; [exact Hm1|by apply room_small|exact HH|]. fold (new_head s) (c1 s) (d1 s). intros t2 Hm2.
  assert (forall f x, f x = installed g (c1 s) f 0 x) as Hi0 by done. set (P := bl_pinned (bs s) ∖ {[lstart g]}) in *.
  assert (size P < NBUF)%nat as HszP by (eapply Nat.le_lt_trans; [apply subseteq_size|exact Hsz]; set_solver).
  apply wp_bind. unfold install_trans. apply wp_bind, wp_gets. rewrite (proj1 (proj1 Hm2)).
  eapply (hm_install_loop g (rd_lh _ Hrd) (c1 s) (d1 s) P n 0 (S (n + 1))); [done| |done| |intros i D Hi; apply HI; lia|].
  { left. intros x Hx. apply elem_of_difference. split; [by apply (ready_pinned s)|]. intros ->%elem_of_singleton.
    destruct (ok_home _ (rd_lh _ Hrd) _ Hx). unfold g in *. lia. }
  { replace (P ∖ list_to_set (take 0 (lh g))) with P by set_solver. eapply hm_ext; [exact Hm2|apply Hi0..]. }
  intros t3 Hm3. cbn [Nat.add] in Hm3. apply wp_bind. eapply hm_set_lh; [exact Hm3|]. intros t4 Hm4.
  pose proof (hdr_n_nil _ (proj1 (hm_length _ _ _ _ _ _ _ (lstart g) Hm4))) as Hz.
  eapply hm_write_head; [exact Hm4|apply room_small; [|done]|intros D E; by eapply HE|].
  { eapply Nat.le_lt_trans; [apply subseteq_size|exact HszP]. set_solver. }
  intros t5 Hm5. eapply HQ; [exact Hz|]. replace (∅ : gset Z) with (P ∖ list_to_set (take n (lh g)) ∖ {[lstart (set_lh [] g)]}) at 1; [exact Hm5|].
  unfold P, n. rewrite (rd_pinned _ Hrd), firstn_all. set_solver.
Qed.
End rules.

(** ** What a crash may leave *)

(** The machine starts again on the disk [D]: nothing cached is left. *)
Definition boots (g : log) (D : Z -> block) (r : lst St) : Prop :=
  lstart (lg r) = lstart g /\ lsize (lg r) = lsize g /\ llock r = false /\ bl_ok (bs r) ∅ /\
  (forall x, bl_disk (bs r) x = D x) /\ bl_pinned (bs r) = ∅.

(** The disk after a crash of commit, and then of any number of recoveries; and
    whether commit had written more than its blocks in the log. *)
Inductive crashed (s : lst St) : bool -> (Z -> block) -> Prop :=
| Crash_commit k D : disks commit s !! k = Some D -> crashed s (length (lh (lg s)) <? k)%nat D
| Crash_recovery b D r k D' : crashed s b D -> boots (lg s) D r -> disks recover_from_log r !! k = Some D' -> crashed s b D'.

Section one.
Context (s : lst St) (Hrd : ready s).
Abbreviation g := (lg s).
Abbreviation c := (bl_cur (bs s)).
Abbreviation d := (bl_disk (bs s)).
Abbreviation n := (length (lh (lg s))).

(** An empty log, and home blocks all old or all new; or the log of the transaction
    and home blocks that are new outside it. *)
Definition crash_disk (b : bool) (D : Z -> block) : Prop :=
  (hdr_n (D (lstart g)) = 0 /\ forall x, home g x -> D x = if b then c x else d x) \/
  (b = true /\ hdr_decode (D (lstart g)) = lh g /\ (forall t, (t < n)%nat -> D (log_block g t) = c (lh_at g t)) /\
   forall x, home g x -> x ∉ lh g -> D x = c x).

Lemma crash_filled D j : (j <= n)%nat -> (forall x, D x = filled g c d j x) -> crash_disk false D.
Proof using Hrd.
  intros Hj E. pose proof (ready_size_pos s Hrd) as (Hp & Hn & Hst). left. rewrite E, filled_start. split; [apply Hrd|].
  intros x Hx. rewrite E. apply filled_home; [lia|done].
Qed.

Lemma clean_out x : x ∉ lh g -> c x = d x.
Proof using BW Hrd. intros Hx. apply (clean_home s Hrd). intros t Ht. by apply Hx, (list_elem_of_lookup_2 _ t). Qed.

Lemma crash_installed D j : (j <= n)%nat -> (forall x, D x = installed g (c1 s) (d1 s) j x) -> crash_disk true D.
Proof using BW Hrd.
  intros Hj E. right. split; [done|]. rewrite E. split; [by apply (installed_head s Hrd)|]. split.
  - intros t Ht. rewrite E, (installed_log g (rd_lh _ Hrd)) by done. by apply (c1_log s).
  - intros x Hx Ho. rewrite E. destruct (installed_home s Hrd j x Hj Hx) as [->| ->]; [|done]. symmetry. by apply clean_out.
Qed.

(** The empty header over home blocks that are all old or all new. *)
Lemma crash_empty b f v D : hdr_n v = 0 -> (forall x, home g x -> f x = if b : bool then c x else d x) ->
  (forall x, D x = upd f (lstart g) v x) -> crash_disk b D.
Proof using Hrd.
  intros Hv Hf E. pose proof (ready_size_pos s Hrd) as (Hp & Hn & Hst). left. rewrite E, upd_eq. split; [done|].
  intros x Hx. rewrite E, upd_ne by (by apply (home_not_start g)). by apply Hf.
Qed.

Lemma commit_crash_disks : (0 < n)%nat ->
  wp commit (λ _ t, length (trail (bs t)) = (2 * n + 3)%nat /\ (forall k D, trail (bs t) !! k = Some D -> crash_disk (n <? k)%nat D /\ sized D) /\
    (forall x, home g x -> bl_disk (base (bs t)) x = c x) /\ hdr_n (bl_disk (base (bs t)) (lstart g)) = 0 /\
    lg t = set_lh [] g /\ bl_pinned (base (bs t)) = ∅) (begin_trace s).
Proof using BW Hrd.
  intros Hn. pose proof (ready_size_pos s Hrd) as (Hp & Hnl & Hst). assert (forall k, (k <= n)%nat -> (n <? k)%nat = false) as Hlo by (intros; by apply Nat.ltb_ge).
  assert (forall k, (n < k)%nat -> (n <? k)%nat = true) as Hhi by (intros; by apply Nat.ltb_lt).
  apply (hm_commit (λ k D, crash_disk (n <? k)%nat D) s); [done|done|..].
  - rewrite Hlo by lia. apply (crash_filled _ 0); [lia|]. intros x. unfold filled. by rewrite bool_decide_false by lia.
  - intros i D Hi E. rewrite Hlo by lia. by apply (crash_filled _ (S i)).
  - intros D E. rewrite Hhi by lia. by apply (crash_installed _ 0); [lia|].
  - intros i D Hi E. rewrite Hhi by lia. by apply (crash_installed _ (S i)).
  - intros D v Hv E. rewrite Hhi by lia. eapply (crash_empty true); [exact Hv| |exact E]. intros x. by apply (installed_all s Hrd).
  - intros t c' v Hv ([Hg _] & (_ & _ & Hd & HP) & Hk & Ht). split; [lia|]. split; [exact Ht|]. rewrite Hd, upd_eq. split_and!; try done.
    intros x Hx. rewrite Hd, upd_ne by (by apply (home_not_start g)). by apply (installed_all s Hrd).
Qed.

Definition recovered (b : bool) (r' : lst St) : Prop :=
  (forall x, home g x -> bl_disk (bs r') x = if b then c x else d x) /\
  hdr_n (bl_disk (bs r') (lstart g)) = 0 /\ lh (lg r') = [].

Lemma boots_hm C D r : boots g D r -> C 0%nat (bl_disk (bs r)) -> hm C (lg r) D D ∅ ∅ 1 (begin_trace r).
Proof using BW Hrd.
  intros (_ & _ & Hk & Hok & Hd & HP) HC. split; [done|]. split.
  - split_and!; [done| |done|done]. intros x. cbn. rewrite <-Hd. eapply bl_clean; [exact Hok|rewrite HP; set_solver|rewrite held_empty; set_solver].
  - split; [done|]. cbn. intros j D' [-> <-]%list_lookup_singleton_Some. split; [done|]. intros x. by eapply bl_length.
Qed.

(** The log area of the machine that starts again is the same. *)
Lemma installed_boots D r f h j x : boots g D r -> installed (set_lh (lh g) (lg r)) f h j x = installed g f h j x.
Proof. intros (Hs & _). unfold installed, log_block, home_index. cbn. by rewrite Hs. Qed.

(** Recovery goes on from a disk with the log of the transaction. *)
Lemma crash_again D j : (j <= n)%nat -> hdr_decode (D (lstart g)) = lh g -> (forall t, (t < n)%nat -> D (log_block g t) = c (lh_at g t)) ->
  (forall x, home g x -> x ∉ lh g -> D x = c x) -> forall D', (forall x, D' x = installed g D D j x) -> crash_disk true D'.
Proof using Hrd.
  intros Hj Hh Hl Hx D' E. pose proof (ready_size_pos s Hrd) as (Hp & Hn & Hst). right. split; [done|]. split_and!.
  - rewrite E. unfold installed. destruct (home_index g j (lstart g)) as [t|] eqn:Et; [|done]. apply home_index_Some in Et as [Et _].
    apply list_elem_of_lookup_2 in Et. destruct (ok_home _ (rd_lh _ Hrd) _ Et). lia.
  - intros t Ht. rewrite E, (installed_log g (rd_lh _ Hrd)) by done. by apply Hl.
  - intros x Hhx Ho. rewrite E. unfold installed. destruct (home_index g j x) as [t|] eqn:Et; [|by apply Hx].
    apply home_index_Some in Et as [Et _]. by apply list_elem_of_lookup_2 in Et.
Qed.

Lemma installed_new D x : (forall t, (t < n)%nat -> D (log_block g t) = c (lh_at g t)) -> (forall x, home g x -> x ∉ lh g -> D x = c x) ->
  home g x -> installed g D D n x = c x.
Proof.
  intros Hl Hx Hh. unfold installed. destruct (home_index g n x) as [t|] eqn:E.
  - apply home_index_Some in E as [E Ht]. rewrite (Hl t Ht). by rewrite (lh_at_lookup _ _ _ E).
  - apply Hx; [done|]. intros [t Ht]%list_elem_of_lookup. apply (home_index_None _ _ _ t E); [by eapply lookup_lt_Some|done].
Qed.

Lemma recover_crash b D r : crash_disk b D -> boots g D r ->
  wp recover_from_log (λ _ t, recovered b (untrace t) /\ forall k D', trail (bs t) !! k = Some D' -> crash_disk b D' /\ sized D') (begin_trace r).
Proof using BW Hrd.
  intros Hc Hb. pose proof (ready_size_pos s Hrd) as (Hp & Hn & Hst). pose proof Hb as (Hs & Hz & _ & _ & Hd & _).
  assert (forall f, (forall x, f x = D x) -> crash_disk b f) as Hext.
  { intros f E. unfold crash_disk in *. destruct Hc as [[? ?]|(-> & ? & Hl & Hx)]; [left|right]; rewrite E; split_and!; try done; intros; rewrite E; auto. }
  pose proof (boots_hm (λ _ D, crash_disk b D) D r Hb (Hext _ Hd)) as Hm. rewrite <-Hs in *.
  assert (forall t f v, (forall x, home g x -> f x = if b then c x else d x) -> hdr_n v = 0 -> lh (lg t) = [] ->
    (forall x, bl_disk (base (bs t)) x = upd f (lstart (lg r)) v x) -> recovered b (untrace t)) as Hend.
  { intros t f v Hf Hv Hg E. unfold recovered. cbn. rewrite <-Hs, E, upd_eq. split_and!; try done. intros x Hx. rewrite E, upd_ne by (rewrite Hs; by apply (home_not_start g)). by apply Hf. }
  destruct Hc as [[Hh Hx]|(-> & Hh & Hl & Hx)]; rewrite <-Hs in Hh.
  - eapply (hm_recover (λ _ D, crash_disk b D) (lg r) D []); [exact Hm|unfold hdr_decode; by rewrite Hh|apply (lh_ok_like s Hrd); auto|by intros i D' Hi%Nat.nlt_0_r| |].
    + intros D' v Hv E. eapply crash_empty; [exact Hv|exact Hx|]. intros x. rewrite E. cbn. by rewrite Hs.
    + intros t c' v Hv ([Hg _] & (_ & _ & HD & _) & _ & Ht). split; [|exact Ht]. eapply Hend; [exact Hx|exact Hv|by rewrite Hg|exact HD].
  - eapply (hm_recover (λ _ D, crash_disk true D) (lg r) D (lh g)); [exact Hm|done|apply (lh_ok_like s Hrd); auto|..]; rewrite Hs in Hh.
    + intros i D' Hi E. eapply (crash_again D (S i)); try done. intros x. by rewrite E, (installed_boots D).
    + intros D' v Hv E. eapply crash_empty; [exact Hv| |intros x; rewrite E; cbn; by rewrite Hs]. intros x Hhx. rewrite (installed_boots D) by done. by apply installed_new.
    + intros t c' v Hv ([Hg _] & (_ & _ & HD & _) & _ & Ht). split; [|exact Ht]. eapply Hend; [|exact Hv|by rewrite Hg|exact HD].
      intros x Hhx. rewrite (installed_boots D) by done. by apply installed_new.
Qed.

Lemma disks_wp (m : M (lst traced) unit) r (C : nat -> (Z -> block) -> Prop) k D :
  wp m (λ _ t, forall k D, trail (bs t) !! k = Some D -> C k D) (begin_trace r) -> disks m r !! k = Some D -> C k D.
Proof. unfold wp, disks. destruct (m (begin_trace r)); [|done..]. intros H. apply H. Qed.

Lemma crashed_disk b D : crashed s b D -> crash_disk b D /\ sized D.
Proof using BW Hrd.
  induction 1 as [k D Hk|b D r k D' Hc IH Hb Hk].
  - destruct (decide (0 < n)%nat) as [Hn|Hn].
    + eapply (disks_wp commit s (λ k D, crash_disk (n <? k)%nat D /\ sized D)); [|exact Hk]. eapply wp_mono; [by apply commit_crash_disks|]. by intros [] t (_ & Ht & _).
    + revert Hk. unfold disks, commit, mbind, M_bind, gets. cbn [lg begin_trace]. rewrite (proj2 (Nat.ltb_ge _ _)) by lia. cbn.
      intros [-> <-]%list_lookup_singleton_Some. replace (n <? 0)%nat with false by (symmetry; apply Nat.ltb_ge; lia).
      split; [|intros x; eapply bl_length, Hrd]. apply (crash_filled _ 0); [lia|]. intros x. unfold filled. by rewrite bool_decide_false by lia.
  - eapply (disks_wp recover_from_log r (λ _ D, crash_disk b D /\ sized D)); [|exact Hk]. eapply wp_mono; [apply (recover_crash b D); [apply IH|done]|]. by intros [] t [_ Ht].
Qed.
End one.

(** C2: A crash during commit is atomic.  After any number of the disk writes that
    the code of commit makes, and then of the writes of recoveries that crashed
    themselves, the next recovery returns and leaves every block outside the log as
    it was before the transaction if commit had written no more than the blocks in
    the log, and as the transaction left it if commit had written the header; the
    log is empty again.  A commit of n > 0 blocks makes 2n + 2 writes. *)
Theorem commit_crash_atomic (s r : lst St) (b : bool) (D : Z -> block)
  (Hrd : ready s) (Hc : crashed s b D) (Hb : boots (lg s) D r) :
  wp recover_from_log (λ _ r',
    (forall x, home (lg s) x -> bl_disk (bs r') x = if b then bl_cur (bs s) x else bl_disk (bs s) x) /\
    hdr_n (bl_disk (bs r') (lstart (lg s))) = 0 /\ lh (lg r') = []) r /\
  ((0 < length (lh (lg s)))%nat -> length (disks commit s) = (2 * length (lh (lg s)) + 3)%nat).
Proof.
  split.
  - eapply wp_untraces; [apply recover_untraces|]. eapply wp_mono; [eapply (recover_crash s Hrd b D r); [by apply crashed_disk|done]|]. by intros [] t [H _].
  - intros Hn. pose proof (commit_crash_disks s Hrd Hn) as Hw. unfold wp, disks in *. destruct (commit (begin_trace s)); [|done..]. apply Hw.
Qed.

(** Without a crash commit returns, every home block on the disk is what the
    transaction left, nothing is pinned in the cache and the log is empty. *)
Theorem commit_installs (s : lst St) (Hrd : ready s) (Hn : (0 < length (lh (lg s)))%nat) :
  wp commit (λ _ s', (forall x, home (lg s) x -> bl_disk (bs s') x = bl_cur (bs s) x) /\
    hdr_n (bl_disk (bs s') (lstart (lg s))) = 0 /\ lg s' = set_lh [] (lg s) /\ bl_pinned (bs s') = ∅) s.
Proof.
  eapply wp_untraces; [apply commit_untraces|]. eapply wp_mono; [by apply commit_crash_disks|]. cbn. naive_solver.
Qed.
End crash.

(** ** On the buffer cache: the transaction of one block, crashed after its header
    and again after recovery wrote the home block *)
Section on_bio.
#[local] Instance disk1000 : BlockLayer bcache := bio_layer 1000 1.
#[local] Instance disk1000_laws : BlockLaws bcache := bio_laws 1000 1.

(** The machine starts again with an empty cache. *)
Definition restart (D : Z -> block) : lst bcache := mkLst (log0 0 []) false (binit D).

Lemma boots_restart D : (forall x, length (D x) = BSIZE) -> boots (lg one_block) D (restart D).
Proof.
  intros HD. destruct (binit_sees 1000 1 D HD) as (Hok & _ & _ & HP). by split_and!.
Qed.

Lemma crashed_boots b D : crashed one_block b D -> boots (lg one_block) D (restart D).
Proof. intros H. apply boots_restart. by apply (crashed_disk one_block one_block_ready b). Qed.

Lemma nth_disk (l : list (Z -> block)) k : (k <? length l)%nat = true -> l !! k = Some (nth k l zero_disk).
Proof. intros Hk%Nat.ltb_lt. destruct (nth_lookup_or_length l k zero_disk); [done|lia]. Qed.

(** The disk after the header is written, and after recovery from it has written
    the home block but not the empty header. *)
Definition demo_first : Z -> block := nth 2 (disks commit one_block) zero_disk.
Definition demo_second : Z -> block := nth 1 (disks recover_from_log (restart demo_first)) zero_disk.

Lemma demo_crashed : crashed one_block true demo_second.
Proof.
  assert (crashed one_block true demo_first) as H.
  { apply (Crash_commit one_block 2), nth_disk. vm_compute. reflexivity. }
  apply (Crash_recovery one_block true demo_first (restart demo_first) 1); [done|by apply (crashed_boots true)|].
  apply nth_disk. vm_compute. reflexivity.
Qed.

Lemma commit_crash_atomic_witness :
  wp recover_from_log (λ _ r',
    (forall x, home (lg one_block) x -> bl_disk (bs r') x = bl_cur (bs one_block) x) /\
    hdr_n (bl_disk (bs r') 2) = 0 /\ lh (lg r') = []) (restart demo_second) /\ length (disks commit one_block) = 5%nat.
Proof.
  destruct (commit_crash_atomic one_block (restart demo_second) true demo_second one_block_ready demo_crashed (crashed_boots _ _ demo_crashed)) as [H1 H2].
  split; [exact H1|]. apply H2. cbn. lia.
Defined.

Lemma commit_installs_witness :
  wp commit (λ _ s', (forall x, home (lg one_block) x -> bl_disk (bs s') x = bl_cur (bs one_block) x) /\
    hdr_n (bl_disk (bs s') 2) = 0 /\ lg s' = log0 1 [] /\ bl_pinned (bs s') = ∅) one_block.
Proof. apply (commit_installs one_block one_block_ready). cbn. lia. Defined.
End on_bio.
