(* ===== verification/Syscall.v ===== *)
(** * System call arguments and dispatch (syscall.c, sysproc.c, prac_syscall.c)

    The arguments of a system call come from the user's stack and are not
    trusted: fetchint, fetchstr and the arg functions check them against the
    size of the process before the kernel reads them.  [umem] gives the bytes
    the kernel reads at user addresses. *)

From S2P Require Import Prelude CString Block BlockLayer ProcDefs Trap.

Section args.
Context (umem : Z -> Z) (psz uesp : Z).

(** The int at [a], little-endian. *)
Definition int_at (a : Z) : Z := s32 (le_val (umem <$> [a; a + 1; a + 2; a + 3])).

Definition fetchint (addr : Z) : option Z :=
  if (psz <=? addr) || (psz <? u32 (addr + 4)) then None else Some (int_at addr).

(** The loop from [s] to the end of the process; the result is where it stops. *)
Fixpoint fetchstr_loop (fuel : nat) (s : Z) : option Z :=
  match fuel with
  | O => None
  | S fuel' => if s <? psz then (if umem s =? 0 then Some s else fetchstr_loop fuel' (s + 1)) else None
  end.

(** The pointer and the length. *)
Definition fetchstr (addr : Z) : option (Z * Z) :=
  if psz <=? addr then None
  else match fetchstr_loop (Z.to_nat (psz - addr)) addr with Some s => Some (addr, s - addr) | None => None end.

Definition argint (n : Z) : option Z := fetchint (u32 (uesp + 4 + 4 * n)).

Definition argptr (n size : Z) : option Z :=
  match argint n with
  | None => None
  | Some i => if (size <? 0) || (psz <=? u32 i) || (psz <? u32 (u32 i + size)) then None else Some (u32 i)
  end.

Definition argstr (n : Z) : option (Z * Z) :=
  match argint n with None => None | Some addr => fetchstr (u32 addr) end.

(** The bytes of a fetched string. *)
Definition str_at (p : Z * Z) : list Z := umem <$> seqZ (fst p) (snd p).

(** sysfile.c: sys_exec up to its call of exec, with the arguments found so far. *)
Definition MAXARG : Z := 32.
Fixpoint exec_args_loop (fuel : nat) (uargv i : Z) (argv : list (Z * Z)) : option (list (Z * Z)) :=
  match fuel with
  | O => None
  | S fuel' =>
      if MAXARG <=? i then None
      else match fetchint (u32 (uargv + 4 * i)) with
           | None => None
           | Some uarg =>
               if uarg =? 0 then Some argv
               else match fetchstr (u32 uarg) with
                    | None => None
                    | Some p => exec_args_loop fuel' uargv (i + 1) (argv ++ [p])
                    end
           end
  end.
Definition sys_exec_args : option ((Z * Z) * list (Z * Z)) :=
  match argstr 0, argint 1 with
  | Some path, Some uargv => match exec_args_loop 33 (u32 uargv) 0 [] with Some argv => Some (path, argv) | None => None end
  | _, _ => None
  end.

(** ** Bounds *)

Hypothesis Hsz : 0 <= psz <= 2 ^ 31.

(** A range of the process's memory. *)
Definition inside (a n : Z) : Prop := 0 <= a /\ 0 <= n /\ a + n <= psz.

(** A string in the process's memory: its bytes are not zero and a zero follows. *)
Definition string_ok (p : Z * Z) : Prop :=
  0 <= snd p /\ inside (fst p) (snd p + 1) /\ (forall k, 0 <= k < snd p -> umem (fst p + k) <> 0) /\ umem (fst p + snd p) = 0.

Lemma fetchint_inside addr v : is_u32 addr -> fetchint addr = Some v -> inside addr 4 /\ v = int_at addr.
Proof.
  intros Ha. unfold fetchint, inside, is_u32 in *. destruct (Z.leb_spec psz addr); [done|]. cbn [orb].
  rewrite u32_id by (unfold is_u32; lia). destruct (Z.ltb_spec psz (addr + 4)); [done|]. intros [= <-]. split; [lia|done].
Qed.

Lemma fetchstr_loop_spec fuel : forall s e, fetchstr_loop fuel s = Some e ->
  s <= e < psz /\ (forall k, s <= k < e -> umem k <> 0) /\ umem e = 0.
Proof.
  induction fuel as [|fuel IH]; intros s e; cbn [fetchstr_loop]; [done|]. destruct (Z.ltb_spec s psz); [|done].
  destruct (Z.eqb_spec (umem s) 0) as [E|E]; [intros [= <-]; split_and!; [lia|lia|intros k Hk; lia|done]|].
  intros (H1 & H2 & H3)%IH. split_and!; [lia|lia| |done]. intros k Hk. destruct (decide (k = s)) as [->|]; [done|]. apply H2. lia.
Qed.

Lemma fetchstr_loop_finds fuel : forall s e, s <= e -> e < psz -> umem e = 0 -> (forall k, s <= k < e -> umem k <> 0) -> psz - s <= Z.of_nat fuel ->
  fetchstr_loop fuel s = Some e.
Proof.
  induction fuel as [|fuel IH]; intros s e Hse He Hz Hn Hf; [lia|]. cbn [fetchstr_loop]. rewrite (proj2 (Z.ltb_lt s psz)) by lia.
  destruct (Z.eqb_spec (umem s) 0) as [E|E].
  - destruct (decide (s = e)) as [->|]; [done|]. by destruct (Hn s ltac:(lia)).
  - assert (s <> e) by congruence. apply IH; try done; try lia. intros k Hk. apply Hn. lia.
Qed.

Lemma fetchstr_spec addr p : is_u32 addr -> fetchstr addr = Some p <-> fst p = addr /\ string_ok p.
Proof.
  intros Ha. unfold is_u32 in Ha. unfold fetchstr, string_ok, inside. destruct p as [a n]. cbn [fst snd]. destruct (Z.leb_spec psz addr) as [Hge|Hlt].
  { split; [done|]. intros (-> & ? & (? & ? & ?) & _). lia. }
  split.
  - destruct (fetchstr_loop _ _) as [e|] eqn:E; [|done]. intros [= <- <-]. apply fetchstr_loop_spec in E as (H1 & H2 & H3).
    split_and!; [done|lia|lia|lia|lia|intros k Hk; apply H2; lia|by replace (addr + (e - addr)) with e by lia].
  - intros (-> & H0 & (H1 & H2 & H3) & Hn & Hz). rewrite (fetchstr_loop_finds _ addr (addr + n)); try done; try lia.
    + do 2 f_equal. lia.
    + intros k Hk. replace k with (addr + (k - addr)) by lia. apply Hn. lia.
Qed.

Lemma exec_args_loop_inside fuel : forall uargv i argv r, Forall string_ok argv -> i = Z.of_nat (length argv) -> i <= MAXARG ->
  exec_args_loop fuel uargv i argv = Some r -> Forall string_ok r /\ Z.of_nat (length r) < MAXARG.
Proof.
  induction fuel as [|fuel IH]; intros uargv i argv r Hf Hi Hm; cbn [exec_args_loop]; [done|]. destruct (Z.leb_spec MAXARG i) as [|Hlt]; [done|].
  destruct (fetchint _) as [uarg|]; [|done]. destruct (uarg =? 0); [intros [= <-]; split; [done|lia]|].
  destruct (fetchstr _) as [p|] eqn:E; [|done]. apply fetchstr_spec in E as [_ Hp]; [|apply u32_range].
  apply IH; [by apply Forall_app; split; [|constructor]|rewrite length_app; cbn; lia|lia].
Qed.

(** C20: whatever the user's stack pointer and memory hold, what the argument
    functions hand to the kernel lies inside the process: an int argument is
    read from four bytes of it, a pointer argument of size n has n bytes there,
    a string argument is the whole string up to its first zero byte, and the
    argument vector of exec is a list of such strings of fewer than MAXARG. *)
Theorem user_args_in_bounds n :
  (forall v, argint n = Some v -> exists a, inside a 4 /\ v = int_at a) /\
  (forall size p, is_s32 size -> argptr n size = Some p -> 0 <= size /\ inside p size /\ p < psz) /\
  (forall p, argstr n = Some p -> string_ok p) /\
  (forall path argv, sys_exec_args = Some (path, argv) -> string_ok path /\ Forall string_ok argv /\ Z.of_nat (length argv) < MAXARG).
Proof.
  assert (forall n p, argstr n = Some p -> string_ok p) as Hstr.
  { intros m p. unfold argstr. destruct (argint m) as [i|]; [|done]. intros [_ Hp]%fetchstr_spec; [done|apply u32_range]. }
  split_and!.
  - intros v Hv. eexists. eapply fetchint_inside; [apply u32_range|exact Hv].
  - intros size p Hs. unfold argptr. destruct (argint n) as [i|]; [|done]. unfold inside, is_s32 in *. pose proof (u32_range i) as Hi. unfold is_u32 in Hi.
    destruct (Z.ltb_spec size 0); [done|]. cbn [orb]. destruct (Z.leb_spec psz (u32 i)); [done|]. cbn [orb].
    rewrite (u32_id (u32 i + size)) by (unfold is_u32; lia). destruct (Z.ltb_spec psz (u32 i + size)); [done|]. intros [= <-]. lia.
  - apply Hstr.
  - intros path argv. unfold sys_exec_args. destruct (argstr 0) as [p|] eqn:E0; [|done]. destruct (argint 1) as [uargv|]; [|done].
    destruct (exec_args_loop _ _ _ _) as [r|] eqn:E; [|done]. intros [= <- <-]. split; [by eapply Hstr|].
    eapply exec_args_loop_inside; [constructor|done|done|exact E].
Qed.
End args.

(** The string at 200 of a process of one page, its address on the stack. *)
Definition demo_umem (a : Z) : Z := if a =? 104 then 200 else if a =? 200 then 104 else if a =? 201 then 105 else 0.

Lemma user_args_in_bounds_witness : argstr demo_umem 4096 100 0 = Some (200, 2) /\ string_ok demo_umem 4096 (200, 2).
Proof.
  split; [vm_compute; reflexivity|]. destruct (user_args_in_bounds demo_umem 4096 100 ltac:(lia) 0) as (_ & _ & H & _).
  apply H. vm_compute. reflexivity.
Defined.

(** ** sysproc.c *)

(** A call returns, leaves the CPU to return later or never, or loops. *)
Inductive sys_next := SRet (r : Z) | SSwitched | SNever.

Section sysproc.
Context {W : Type} {SV : Services W} (pol : policy) (forkret_addr null_pid : Z).
(** The user memory as the kernel sees it. *)
Context (um : tst W -> Z -> Z).

(** Read arguments from the stack of the current process. *)
Definition args {A} (f : (Z -> Z) -> Z -> Z -> A) : M (tst W) A :=
  t ← get;
  i ← (onproc myproc : M (tst W) nat);
  p ← (onproc (pread i) : M (tst W) proc);
  mret (f (um t) (sz p) (esp (tf p))).

Definition arg_int (n : Z) : M (tst W) (option Z) := args (λ m z e, argint m z e n).
Definition arg_ptr (n size : Z) : M (tst W) (option Z) := args (λ m z e, argptr m z e n size).
Definition arg_str (n : Z) : M (tst W) (option (list Z)) :=
  args (λ m z e, match argstr m z e n with Some p => Some (str_at m p) | None => None end).

Definition me_read {A} (f : proc -> A) : M (tst W) A :=
  i ← (onproc myproc : M (tst W) nat); p ← (onproc (pread i) : M (tst W) proc); mret (f p).

Definition returns (m : M (tst W) Z) : M (tst W) sys_next := r ← m; mret (SRet r).

Definition sys_fork : M (tst W) sys_next := returns (onproc (fork pol forkret_addr)).
Definition sys_fork2 : M (tst W) sys_next :=
  a ← arg_str 0; match a with None => mret (SRet (-1)) | Some username => returns (onproc (fork2 pol forkret_addr username)) end.
Definition sys_exit : M (tst W) sys_next := onproc exit ;; mret SSwitched.
Definition sys_wait : M (tst W) sys_next :=
  r ← (onproc wait : M (tst W) (option Z)); mret (match r with Some p => SRet p | None => SSwitched end).
Definition sys_kill : M (tst W) sys_next :=
  a ← arg_int 0; match a with None => mret (SRet (-1)) | Some pd => returns (onproc (kill pd)) end.
Definition sys_getpid : M (tst W) sys_next := returns (me_read pid).
Definition sys_getppid : M (tst W) sys_next :=
  l ← (gets (λ t, ptab (tproc t)) : M (tst W) (list proc)); o ← me_read parent; mret (SRet (pid_of null_pid l o)).

Definition sys_sbrk : M (tst W) sys_next :=
  a ← arg_int 0;
  match a with
  | None => mret (SRet (-1))
  | Some n =>
      addr ← me_read sz;
      r ← (onproc (growproc n) : M (tst W) Z);
      mret (SRet (if r <? 0 then -1 else addr))
  end.

(** sleep(&ticks, &tickslock), which gives the lock up. *)
Definition sleep_ticks : M (tst W) unit :=
  modify (λ t, mkTst (ticks t) false (tproc t)) ;;
  if is_mlfq pol then onproc (sleep_ pol CTicks LkOther) ;; mret tt else onproc (sleep CTicks LkOther) ;; mret tt.

(** The test of the loop of sys_sleep with the lock held. *)
Definition sleep_turn (ticks0 n : Z) : M (tst W) sys_next :=
  t ← (gets ticks : M (tst W) Z);
  if u32 (t - ticks0) <? u32 n then
    k ← me_read killed;
    if negb (k =? 0) then release_ticks ;; mret (SRet (-1))
    else sleep_ticks ;; mret SSwitched
  else release_ticks ;; mret (SRet 0).

(** sys_sleep up to its first sleep, and from a wakeup to the next. *)
Definition sys_sleep : M (tst W) sys_next :=
  a ← arg_int 0;
  match a with
  | None => mret (SRet (-1))
  | Some n => acquire_ticks ;; ticks0 ← (gets ticks : M (tst W) Z); sleep_turn ticks0 n
  end.
Definition sys_sleep_again (intena : bool) (ticks0 n : Z) : M (tst W) sys_next :=
  onproc (sleep_exit LkOther intena) ;;
  modify (λ t, mkTst (ticks t) true (tproc t)) ;;
  sleep_turn ticks0 n.

Definition sys_uptime : M (tst W) sys_next :=
  acquire_ticks ;; x ← (gets ticks : M (tst W) Z); release_ticks ;; mret (SRet (s32 x)).
(** Prints for ever. *)
Definition sys_test : M (tst W) sys_next := mret SNever.
Definition sys_yield : M (tst W) sys_next :=
  (if is_mlfq pol then onproc (yield__enter pol) ;; mret tt else onproc yield_enter ;; mret tt) ;; mret SSwitched.
Definition sys_getlev : M (tst W) sys_next := if is_mlfq pol then returns (onproc (getlev pol)) else mret (SRet 0).
Definition sys_setpriority : M (tst W) sys_next :=
  if is_mlfq pol then
    a ← arg_int 0;
    match a with
    | None => mret (SRet (-1))
    | Some pd =>
        b ← arg_int 1;
        match b with
        | None => mret (SRet (-1))
        | Some priority =>
            if (priority <? 0) || (10 <? priority) then mret (SRet (-2)) else returns (onproc (setpriority pol null_pid pd priority))
        end
    end
  else mret (SRet 0).

Definition sys_thread_create : M (tst W) sys_next :=
  a ← arg_ptr 0 4; b ← (match a with None => mret None | Some _ => arg_ptr 1 4 end); c ← (match b with None => mret None | Some _ => arg_ptr 2 4 end);
  match a, b, c with
  | Some thread, Some start_routine, Some arg => returns (onproc (thread_create thread start_routine arg))
  | _, _, _ => mret (SRet (-1))
  end.
Definition sys_thread_exit : M (tst W) sys_next :=
  a ← arg_ptr 0 4; match a with None => mret (SRet (-1)) | Some retval => onproc (thread_exit retval) ;; mret (SRet 0) end.
Definition sys_thread_join : M (tst W) sys_next :=
  a ← arg_int 0; b ← (match a with None => mret None | Some _ => arg_ptr 1 4 end);
  match a, b with Some thread, Some retval => returns (onproc (thread_join thread retval)) | _, _ => mret (SRet (-1)) end.

(** prac_syscall.c; the string is printed. *)
Definition myfunction (str : list Z) : Z := s32 0xABCDABCD.
Definition sys_myfunction : M (tst W) sys_next :=
  a ← arg_str 0; mret (SRet (match a with None => -1 | Some str => myfunction str end)).

(** ** syscall() *)

(** The calls of sysfile.c, by number. *)
Context (sysfile : Z -> M (tst W) sys_next).

Definition syscalls : list (M (tst W) sys_next) :=
  [sys_fork; sys_exit; sys_wait; sysfile 4; sysfile 5; sys_kill; sysfile 7; sysfile 8; sysfile 9; sysfile 10; sys_getpid; sys_sbrk; sys_sleep;
   sys_uptime; sysfile 15; sysfile 16; sysfile 17; sysfile 18; sysfile 19; sysfile 20; sysfile 21; sys_myfunction; sys_getppid; sys_yield; sys_test;
   sys_getlev; sys_setpriority; sys_thread_create; sys_thread_exit; sys_thread_join; sysfile 31; sysfile 32; sys_fork2; sysfile 34; sysfile 35; sysfile 36].

(** The entry for number [num]; the numbers start at 1. *)
Definition syscall_entry (num : Z) : option (M (tst W) sys_next) := if 0 <? num then syscalls !! Z.to_nat (num - 1) else None.

Definition set_result (r : Z) : M (tst W) unit :=
  i ← (onproc myproc : M (tst W) nat); onproc (pupd i (λ p, set_tf (set_eax (u32 r) (tf p)) p)).

Definition syscall : M (tst W) unit :=
  num ← me_read (λ p, s32 (eax (tf p)));
  match syscall_entry num with
  | Some h => r ← h; match r with SRet v => set_result v | _ => mret tt end
  | None => set_result (-1)
  end.
End sysproc.
