(* ===== verification/VmDefs.v ===== *)
(** * Physical pages and page tables (kalloc.c, vm.c)

    Physical memory is a map from page numbers to their 4096 bytes.  The kernel
    reaches it through the direct map at KERNBASE, so a kernel address names a
    byte of it; the free list and the page tables are stored in the pages
    themselves.  [kend] and [kdata] are the linker's symbols end and data, and
    [word0] is what the kernel reads at address 0: that is user memory, the first
    word of the page the running process has there, which is not among the pages
    an operation on another page directory changes. *)

From S2P Require Import Prelude Block BlockLayer.

(** ** mmu.h, memlayout.h *)

Definition PGSIZE : Z := 4096.
Definition EXTMEM : Z := 0x100000.
Definition PHYSTOP : Z := 0xE000000.
Definition DEVSPACE : Z := 0xFE000000.
Definition KERNBASE : Z := 0x80000000.
Definition KERNLINK : Z := KERNBASE + EXTMEM.
Definition NPDENTRIES : nat := 1024.
Definition PTE_P : Z := 1.
Definition PTE_W : Z := 2.
Definition PTE_U : Z := 4.

Definition V2P (a : Z) : Z := u32 (a - KERNBASE).
Definition P2V (a : Z) : Z := u32 (a + KERNBASE).
Definition PGROUNDUP (sz : Z) : Z := Z.land (u32 (sz + PGSIZE - 1)) 0xFFFFF000.
Definition PGROUNDDOWN (a : Z) : Z := Z.land a 0xFFFFF000.
Definition PDX (va : Z) : Z := Z.land (Z.shiftr va 22) 0x3FF.
Definition PTX (va : Z) : Z := Z.land (Z.shiftr va 12) 0x3FF.
Definition PGADDR (d t o : Z) : Z := u32 (Z.lor (Z.lor (Z.shiftl d 22) (Z.shiftl t 12)) o).
Definition PTE_ADDR (pte : Z) : Z := Z.land pte 0xFFFFF000.
Definition PTE_FLAGS (pte : Z) : Z := Z.land pte 0xFFF.
Definition present (pte : Z) : bool := negb (Z.land pte PTE_P =? 0).

(** ** Memory *)

Record pmem := mkPm { pg : Z -> list Z; freelist : Z; use_lock : bool; klk : bool }.

(** The page and the offset of a kernel address. *)
Definition pn (va : Z) : Z := V2P va / PGSIZE.
Definition po (va : Z) : nat := Z.to_nat (V2P va mod PGSIZE).

Definition load32 (va : Z) : M pmem Z := gets (λ s, get32 (pg s (pn va)) (po va)).
Definition set_page (n : Z) (d : list Z) : M pmem unit :=
  modify (λ s, mkPm (upd (pg s) n d) (freelist s) (use_lock s) (klk s)).
Definition store32 (va v : Z) : M pmem unit := s ← get; set_page (pn va) (put32 (pg s (pn va)) (po va) v).
(** memset(va, c, PGSIZE) of a whole page *)
Definition fill (va c : Z) : M pmem unit := set_page (pn va) (replicate 4096 c).
(** memmove to the kernel address [va], inside one page *)
Definition copy_in (va : Z) (bs : list Z) : M pmem unit := s ← get; set_page (pn va) (splice (po va) bs (pg s (pn va))).
Definition set_freelist (v : Z) : M pmem unit := modify (λ s, mkPm (pg s) v (use_lock s) (klk s)).

Definition acquire_km : M pmem unit :=
  s ← get; if use_lock s then (if klk s then panic "acquire" else put (mkPm (pg s) (freelist s) true true)) else mret tt.
Definition release_km : M pmem unit :=
  s ← get; if use_lock s then (if klk s then put (mkPm (pg s) (freelist s) true false) else panic "release") else mret tt.

Section vm.
Context (kend kdata word0 : Z).

(** ** kalloc.c *)

Definition kfree (v : Z) : M pmem unit :=
  if negb (v mod PGSIZE =? 0) || (v <? kend) || (PHYSTOP <=? V2P v) then panic "kfree"
  else
    fill v 1 ;;
    acquire_km ;;
    s ← get;
    store32 v (freelist s) ;;
    set_freelist v ;;
    release_km.

(** [None] is the null pointer. *)
Definition kalloc : M pmem (option Z) :=
  acquire_km ;;
  s ← get;
  let r := freelist s in
  (if r =? 0 then mret tt else n ← load32 r; set_freelist n) ;;
  release_km ;;
  mret (if r =? 0 then None else Some r).

Fixpoint freerange_loop (fuel : nat) (p vend : Z) : M pmem unit :=
  match fuel with
  | O => mret tt
  | S fuel' => if u32 (p + PGSIZE) <=? vend then kfree p ;; freerange_loop fuel' (u32 (p + PGSIZE)) vend else mret tt
  end.
Definition freerange (vstart vend : Z) : M pmem unit :=
  let p := PGROUNDUP vstart in freerange_loop (Z.to_nat ((vend - p) / PGSIZE) + 1) p vend.

Definition kinit1 (vstart vend : Z) : M pmem unit :=
  modify (λ s, mkPm (pg s) (freelist s) false false) ;; freerange vstart vend.
Definition kinit2 (vstart vend : Z) : M pmem unit :=
  freerange vstart vend ;; modify (λ s, mkPm (pg s) (freelist s) true (klk s)).

(** ** vm.c *)

(** The address of the entry, or [None]. *)
Definition walkpgdir (pgdir va : Z) (alloc : bool) : M pmem (option Z) :=
  let pde := pgdir + 4 * PDX va in
  e ← load32 pde;
  if present e then mret (Some (P2V (PTE_ADDR e) + 4 * PTX va))
  else if negb alloc then mret None
  else
    r ← kalloc;
    match r with
    | None => mret None
    | Some pgtab =>
        fill pgtab 0 ;;
        store32 pde (Z.lor (Z.lor (Z.lor (V2P pgtab) PTE_P) PTE_W) PTE_U) ;;
        mret (Some (pgtab + 4 * PTX va))
    end.

Fixpoint mappages_loop (fuel : nat) (pgdir a last pa perm : Z) : M pmem Z :=
  match fuel with
  | O => mret 0
  | S fuel' =>
      r ← walkpgdir pgdir a true;
      match r with
      | None => mret (-1)
      | Some pte =>
          e ← load32 pte;
          if present e then panic "remap"
          else
            store32 pte (Z.lor (Z.lor pa perm) PTE_P) ;;
            if a =? last then mret 0
            else mappages_loop fuel' pgdir (u32 (a + PGSIZE)) last (u32 (pa + PGSIZE)) perm
      end
  end.

(** The loop turns once for each page from [a] to [last], past the top of the
    address space if it must. *)
Definition mappages (pgdir va size pa perm : Z) : M pmem Z :=
  let a := PGROUNDDOWN va in
  let last := PGROUNDDOWN (u32 (va + size - 1)) in
  mappages_loop (Z.to_nat (u32 (last - a) / PGSIZE) + 1) pgdir a last pa perm.

(** struct kmap: virt, phys_start, phys_end, perm *)
Definition kmap : list (Z * Z * Z * Z) :=
  [(KERNBASE, 0, EXTMEM, PTE_W); (KERNLINK, V2P KERNLINK, V2P kdata, 0);
   (kdata, V2P kdata, PHYSTOP, PTE_W); (DEVSPACE, DEVSPACE, 0, PTE_W)].

Fixpoint deallocuvm_loop (fuel : nat) (pgdir a oldsz : Z) : M pmem unit :=
  match fuel with
  | O => mret tt
  | S fuel' =>
      if a <? oldsz then
        r ← walkpgdir pgdir a false;
        match r with
        | None => deallocuvm_loop fuel' pgdir (u32 (u32 (PGADDR (PDX a + 1) 0 0 - PGSIZE) + PGSIZE)) oldsz
        | Some pte =>
            e ← load32 pte;
            (if present e then
               if PTE_ADDR e =? 0 then panic "kfree"
               else kfree (P2V (PTE_ADDR e)) ;; store32 pte 0
             else mret tt) ;;
            deallocuvm_loop fuel' pgdir (u32 (a + PGSIZE)) oldsz
        end
      else mret tt
  end.

Definition deallocuvm (pgdir oldsz newsz : Z) : M pmem Z :=
  if oldsz <=? newsz then mret oldsz
  else deallocuvm_loop (Z.to_nat (oldsz / PGSIZE) + 2) pgdir (PGROUNDUP newsz) oldsz ;; mret newsz.

Definition freevm (pgdir : Z) : M pmem unit :=
  if pgdir =? 0 then panic "freevm: no pgdir"
  else
    deallocuvm pgdir KERNBASE 0 ;;
    for_range 0 NPDENTRIES (λ i,
      e ← load32 (pgdir + 4 * Z.of_nat i); when (present e) (kfree (P2V (PTE_ADDR e)))) ;;
    kfree pgdir.

(** The loop over kmap; [None] after freevm. *)
Fixpoint setupkvm_loop (pgdir : Z) (ks : list (Z * Z * Z * Z)) : M pmem (option Z) :=
  match ks with
  | [] => mret (Some pgdir)
  | (virt, pstart, pend, perm) :: ks' =>
      r ← mappages pgdir virt (u32 (pend - pstart)) pstart perm;
      if r <? 0 then freevm pgdir ;; mret None else setupkvm_loop pgdir ks'
  end.
Definition setupkvm : M pmem (option Z) :=
  r ← kalloc;
  match r with
  | None => mret None
  | Some pgdir =>
      fill pgdir 0 ;;
      if DEVSPACE <? P2V PHYSTOP then panic "PHYSTOP too high" else setupkvm_loop pgdir kmap
  end.

Definition inituvm (pgdir : Z) (init : list Z) (sz : Z) : M pmem unit :=
  if PGSIZE <=? sz then panic "inituvm: more than a page"
  else
    r ← kalloc;
    match r with
    | None => panic "trap"
    | Some mem =>
        fill mem 0 ;;
        mappages pgdir 0 PGSIZE (V2P mem) (Z.lor PTE_W PTE_U) ;;
        copy_in mem (take (Z.to_nat sz) init)
    end.

Fixpoint allocuvm_loop (fuel : nat) (pgdir a oldsz newsz : Z) : M pmem Z :=
  match fuel with
  | O => mret newsz
  | S fuel' =>
      if a <? newsz then
        r ← kalloc;
        match r with
        | None => deallocuvm pgdir newsz oldsz ;; mret 0
        | Some mem =>
            fill mem 0 ;;
            m ← mappages pgdir a PGSIZE (V2P mem) (Z.lor PTE_W PTE_U);
            if m <? 0 then deallocuvm pgdir newsz oldsz ;; kfree mem ;; mret 0
            else allocuvm_loop fuel' pgdir (u32 (a + PGSIZE)) oldsz newsz
        end
      else mret newsz
  end.

(** Zero on error. *)
Definition allocuvm (pgdir oldsz newsz : Z) : M pmem Z :=
  if KERNBASE <=? newsz then mret 0
  else if newsz <? oldsz then mret oldsz
  else allocuvm_loop (Z.to_nat ((newsz - oldsz) / PGSIZE) + 2) pgdir (PGROUNDUP oldsz) oldsz newsz.

Definition clearpteu (pgdir uva : Z) : M pmem unit :=
  r ← walkpgdir pgdir uva false;
  match r with None => panic "clearpteu" | Some pte => e ← load32 pte; store32 pte (Z.ldiff e PTE_U) end.

Fixpoint copyuvm_loop (fuel : nat) (pgdir d i sz : Z) : M pmem (option Z) :=
  match fuel with
  | O => mret (Some d)
  | S fuel' =>
      if i <? sz then
        r ← walkpgdir pgdir i false;
        match r with
        | None => panic "copyuvm: pte should exist"
        | Some pte =>
            e ← load32 pte;
            if negb (present e) then panic "copyuvm: page not present"
            else
              m ← kalloc;
              match m with
              | None => freevm d ;; mret None
              | Some mem =>
                  s ← get;
                  set_page (pn mem) (pg s (pn (P2V (PTE_ADDR e)))) ;;
                  x ← mappages d i PGSIZE (V2P mem) (PTE_FLAGS e);
                  if x <? 0 then kfree mem ;; freevm d ;; mret None
                  else copyuvm_loop fuel' pgdir d (u32 (i + PGSIZE)) sz
              end
        end
      else mret (Some d)
  end.
Definition copyuvm (pgdir sz : Z) : M pmem (option Z) :=
  r ← setupkvm;
  match r with
  | None => mret None
  | Some d => copyuvm_loop (Z.to_nat (sz / PGSIZE) + 2) pgdir d 0 sz
  end.

(** The result of walkpgdir is not tested: without a page table the entry read is
    the word at address 0 of the running process. *)
Definition uva2ka (pgdir uva : Z) : M pmem (option Z) :=
  r ← walkpgdir pgdir uva false;
  e ← (match r with Some pte => load32 pte | None => mret word0 end);
  mret (if negb (present e) then None
        else if Z.land e PTE_U =? 0 then None
        else Some (P2V (PTE_ADDR e))).

Fixpoint copyout_loop (fuel : nat) (pgdir va : Z) (buf : list Z) (len : Z) : M pmem Z :=
  match fuel with
  | O => mret 0
  | S fuel' =>
      if 0 <? len then
        let va0 := PGROUNDDOWN va in
        r ← uva2ka pgdir va0;
        match r with
        | None => mret (-1)
        | Some pa0 =>
            let n := Z.min (PGSIZE - (va - va0)) len in
            copy_in (pa0 + (va - va0)) (take (Z.to_nat n) buf) ;;
            copyout_loop fuel' pgdir (u32 (va0 + PGSIZE)) (drop (Z.to_nat n) buf) (len - n)
        end
      else mret 0
  end.
Definition copyout (pgdir va : Z) (p : list Z) (len : Z) : M pmem Z :=
  copyout_loop (Z.to_nat (len / PGSIZE) + 2) pgdir va p len.
End vm.
