(* ===== verification/Kalloc.v ===== *)
(** * The page allocator (kalloc.c)

    The free pages form a linked list stored in the pages themselves.  It
    behaves as a stack of distinct pages: what kalloc hands out is on no list
    and in nobody else's hands. *)

From S2P Require Import Prelude Block BlockLayer VmDefs.

(** ** Addresses and words *)

(** The kernel address of physical page [n]. *)
Definition va_of (n : Z) : Z := KERNBASE + PGSIZE * n.

Lemma mask_pages x : is_u32 x -> Z.land x 0xFFFFF000 = PGSIZE * (x / PGSIZE).
Proof.
  intros Hx. unfold is_u32, PGSIZE in *. change 0xFFFFF000 with (Z.shiftl (Z.ones 20) 12). change 4096 with (2 ^ 12).
  rewrite Z.mul_comm, <-Z.shiftl_mul_pow2, <-Z.shiftr_div_pow2 by lia. apply Z.bits_inj'. intros n Hn.
  rewrite Z.land_spec, !Z.shiftl_spec by lia. destruct (decide (n < 12)).
  - rewrite !(Z.testbit_neg_r _ (n - 12)) by lia. apply andb_false_r.
  - rewrite Z.shiftr_spec, Z.testbit_ones_nonneg by lia. replace (n - 12 + 12) with n by lia.
    destruct (Z.ltb_spec (n - 12) 20); [apply andb_true_r|]. rewrite andb_false_r. symmetry.
    destruct (decide (x = 0)) as [->|]; [apply Z.bits_0|]. apply Z.bits_above_log2; [lia|].
    assert (Z.log2 x < 32) by (apply Z.log2_lt_pow2; lia). lia.
Qed.

Lemma pn_va n o : 0 <= n < 0xE000 -> 0 <= o < PGSIZE -> pn (va_of n + o) = n /\ po (va_of n + o) = Z.to_nat o.
Proof.
  intros Hn Ho. unfold pn, po, V2P, va_of, PGSIZE, KERNBASE in *. rewrite u32_id by (unfold is_u32; lia).
  replace (2147483648 + 4096 * n + o - 2147483648) with (o + n * 4096) by lia.
  rewrite Z.div_add, Z.mod_add by lia. rewrite Z.div_small, Z.mod_small by lia. done.
Qed.

Lemma pn_page n : 0 <= n < 0xE000 -> pn (va_of n) = n /\ po (va_of n) = 0%nat.
Proof. intros Hn. destruct (pn_va n 0 Hn ltac:(unfold PGSIZE; lia)) as [H1 H2]. by rewrite Z.add_0_r in H1, H2. Qed.

(** ** The free list *)

Section kalloc.
Context (kend : Z).
Hypothesis Hkend : KERNBASE < kend.

Definition valid (n : Z) : Prop := kend <= va_of n /\ n < 0xE000.

Lemma valid_range n : valid n -> 0 < n < 0xE000.
Proof. unfold valid, va_of, PGSIZE. lia. Qed.

Fixpoint fl_rep (m : Z -> list Z) (p : Z) (l : list Z) : Prop :=
  match l with
  | [] => p = 0
  | n :: l' => p = va_of n /\ valid n /\ fl_rep m (get32 (m n) 0) l'
  end.

Lemma fl_rep_frame m m' p l : (forall n, n ∈ l -> m' n = m n) -> fl_rep m p l -> fl_rep m' p l.
Proof.
  revert p. induction l as [|n l IH]; intros p Hm; [done|]. intros (-> & Hv & Hr). split; [done|]. split; [done|].
  rewrite Hm by constructor. apply IH; [|done]. intros x Hx. apply Hm. by constructor.
Qed.

Lemma fl_rep_valid m p l n : fl_rep m p l -> n ∈ l -> valid n.
Proof.
  revert p. induction l as [|x l IH]; intros p Hr Hn; [by apply not_elem_of_nil in Hn|]. destruct Hr as (_ & Hv & Hr).
  apply elem_of_cons in Hn as [->|Hn]; [done|by eapply IH].
Qed.

Record pm_ok (s : pmem) (l : list Z) : Prop := {
  pk_lock : klk s = false;
  pk_list : fl_rep (pg s) (freelist s) l;
  pk_nodup : NoDup l;
  pk_len n : length (pg s n) = 4096%nat
}.

Lemma va_of_nz n : valid n -> va_of n <> 0.
Proof. intros Hv%valid_range. unfold va_of, KERNBASE, PGSIZE. lia. Qed.

Lemma R_acquire_km s (Q : unit -> pmem -> Prop) : klk s = false ->
  Q tt (mkPm (pg s) (freelist s) (use_lock s) (use_lock s)) -> wp acquire_km Q s.
Proof. intros Hl HQ. destruct s as [m f [|] k]; cbn in *; subst; done. Qed.

Lemma R_release_km m f u (Q : unit -> pmem -> Prop) : Q tt (mkPm m f u false) -> wp release_km Q (mkPm m f u u).
Proof. intros HQ. by destruct u. Qed.

Lemma R_kalloc s l Q : pm_ok s l ->
  match l with
  | [] => Q None s
  | n :: l' => forall s', pg s' = pg s -> pm_ok s' l' -> Q (Some (va_of n)) s'
  end -> wp kalloc Q s.
Proof.
  intros [Hl Hr Hnd Hlen] HQ. unfold kalloc. apply wp_bind, R_acquire_km; [done|]. apply wp_bind, wp_get. cbn [freelist].
  destruct l as [|n l'].
  - cbn in Hr. rewrite Hr. cbn [Z.eqb]. apply wp_bind, wp_ret, wp_bind, R_release_km, wp_ret. destruct s. cbn in *. by subst.
  - destruct Hr as (Hf & Hv & Hr). rewrite Hf. rewrite (proj2 (Z.eqb_neq _ _) (va_of_nz n Hv)).
    pose proof (valid_range n Hv) as Hrg. destruct (pn_page n ltac:(lia)) as [E1 E2].
    apply wp_bind. unfold load32. apply wp_bind, wp_gets. rewrite E1, E2. cbn [pg]. apply wp_modify. cbn [pg use_lock klk].
    apply wp_bind, R_release_km, wp_ret. apply HQ; [done|]. apply NoDup_cons in Hnd as [_ Hnd]. by constructor.
Qed.

Lemma R_fill s n c (Q : unit -> pmem -> Prop) : 0 <= n < 0xE000 ->
  Q tt (mkPm (upd (pg s) n (replicate 4096 c)) (freelist s) (use_lock s) (klk s)) -> wp (fill (va_of n) c) Q s.
Proof. intros Hn HQ. unfold fill, set_page. destruct (pn_page n Hn) as [-> _]. by apply wp_modify. Qed.

Lemma R_store32 s n o v (Q : unit -> pmem -> Prop) : 0 <= n < 0xE000 -> 0 <= o < PGSIZE ->
  Q tt (mkPm (upd (pg s) n (put32 (pg s n) (Z.to_nat o) v)) (freelist s) (use_lock s) (klk s)) -> wp (store32 (va_of n + o) v) Q s.
Proof.
  intros Hn Ho HQ. unfold store32, set_page. apply wp_bind, wp_get. destruct (pn_va n o Hn Ho) as [-> ->]. by apply wp_modify.
Qed.

Lemma R_load32 s n o (Q : Z -> pmem -> Prop) : 0 <= n < 0xE000 -> 0 <= o < PGSIZE ->
  Q (get32 (pg s n) (Z.to_nat o)) s -> wp (load32 (va_of n + o)) Q s.
Proof. intros Hn Ho HQ. unfold load32. apply wp_gets. by destruct (pn_va n o Hn Ho) as [-> ->]. Qed.

Lemma kfree_guard n : valid n -> negb (va_of n mod PGSIZE =? 0) || (va_of n <? kend) || (PHYSTOP <=? V2P (va_of n)) = false.
Proof.
  intros Hv. pose proof (valid_range n Hv). destruct Hv as [Hv _]. unfold V2P, va_of, PGSIZE, KERNBASE, PHYSTOP in *.
  rewrite u32_id by (unfold is_u32; lia).
  replace (2147483648 + 4096 * n) with ((524288 + n) * 4096) at 1 by lia. rewrite Z.mod_mul by lia. lia.
Qed.

Lemma R_kfree s l n Q : pm_ok s l -> valid n -> n ∉ l ->
  (forall s', pm_ok s' (n :: l) -> (forall x, x <> n -> pg s' x = pg s x) -> Q tt s') -> wp (kfree kend (va_of n)) Q s.
Proof.
  intros [Hl Hr Hnd Hlen] Hv Hn HQ. pose proof (valid_range n Hv) as Hrg. unfold kfree. rewrite kfree_guard by done.
  apply wp_bind, R_fill; [lia|]. apply wp_bind, R_acquire_km; [done|]. cbn [pg freelist use_lock klk]. apply wp_bind, wp_get. cbn [freelist].
  apply wp_bind. rewrite <-(Z.add_0_r (va_of n)). apply R_store32; [lia|unfold PGSIZE; lia|]. cbn [pg freelist use_lock klk].
  rewrite Z.add_0_r. apply wp_bind. unfold set_freelist. apply wp_modify. cbn [pg freelist use_lock klk]. apply R_release_km.
  set (m := upd _ _ _). apply HQ.
  - constructor; cbn [klk pg freelist]; [done| |by constructor|].
    + split; [done|]. split; [done|]. assert (m n = put32 (replicate 4096 1) 0 (freelist s)) as -> by (unfold m; by rewrite !upd_eq). rewrite get32_put32.
      * eapply fl_rep_frame; [|exact Hr]. intros x Hx. unfold m. rewrite !upd_ne; [done|..]; by intros ->.
      * rewrite length_replicate. lia.
      * destruct l as [|y l']; [cbn in Hr; rewrite Hr; unfold is_u32; lia|]. destruct Hr as (-> & Hvy & _).
        apply valid_range in Hvy. unfold is_u32, va_of, KERNBASE, PGSIZE. lia.
    + intros x. unfold m, upd. repeat case_decide; [by rewrite length_put32, length_replicate|done..|apply Hlen].
  - intros x Hx. cbn [pg]. unfold m. by rewrite !upd_ne.
Qed.

(** C23: kalloc hands out a page that no one holds and takes it off the free list,
    or returns null when the list is empty; kfree of a page in use puts it
    back and touches no other page, and panics on an address that is not the
    start of a page between the kernel and the top of memory. *)
Theorem kmem_exclusive s l owned (Hs : pm_ok s l) (Hd : NoDup (owned ++ l)) :
  wp kalloc (λ r s', match r with
    | Some v => exists n l', v = va_of n /\ valid n /\ l = n :: l' /\ (n ∉ owned) /\ pm_ok s' l' /\ NoDup ((n :: owned) ++ l') /\ pg s' = pg s
    | None => l = [] /\ s' = s
    end) s /\
  (forall n, n ∈ owned -> valid n -> wp (kfree kend (va_of n)) (λ _ s', pm_ok s' (n :: l) /\ forall x, x <> n -> pg s' x = pg s x) s) /\
  (forall v, is_u32 v -> (forall n, valid n -> v <> va_of n) -> kfree kend v s = Panic "kfree").
Proof.
  split_and!.
  - eapply R_kalloc; [exact Hs|]. destruct l as [|n l']; [done|]. intros s' Hm Hs'. exists n, l'.
    rewrite NoDup_app in Hd. destruct Hd as (Hd1 & Hd2 & Hd3). apply NoDup_cons in Hd3 as [Hd3 Hd4].
    assert (n ∉ owned) as Hno by (intros Hin; apply (Hd2 n Hin); constructor).
    split; [done|]. split; [eapply fl_rep_valid; [apply Hs|constructor]|]. split; [done|]. split; [done|]. split; [done|]. split; [|done].
    apply NoDup_app. split; [by constructor|]. split; [|done]. intros x [->|Hx]%elem_of_cons; [done|]. intros Hxl. apply (Hd2 x Hx). by constructor.
  - intros n Hn Hv. eapply R_kfree; [exact Hs|done| |auto]. apply NoDup_app in Hd as (_ & Hd & _). by apply Hd.
  - intros v Hu Hno. unfold kfree. destruct (negb _ || _ || _) eqn:E; [done|exfalso].
    apply orb_false_iff in E as [E E3]. apply orb_false_iff in E as [E1 E2]. apply negb_false_iff, Z.eqb_eq in E1.
    apply Z.ltb_ge in E2. apply Z.leb_gt in E3. unfold V2P, is_u32, KERNBASE, PGSIZE, PHYSTOP in *. rewrite u32_id in E3 by (unfold is_u32; lia).
    pose proof (Z.div_mod v 4096 ltac:(lia)). apply (Hno ((v - 2147483648) / 4096)); unfold valid, va_of, KERNBASE, PGSIZE;
      assert ((v - 2147483648) / 4096 = v / 4096 - 524288) as -> by (replace (v - 2147483648) with (v + (-524288) * 4096) by lia; rewrite Z.div_add by lia; lia); lia.
Qed.

(** freerange puts every whole page of the range on the list. *)
Lemma R_freerange_loop fuel : forall s l a b Q, pm_ok s l -> (forall n, a <= n < b -> valid n /\ n ∉ l) -> a <= b -> 0 <= a -> b <= 0xE000 ->
  (Z.to_nat (b - a) < fuel)%nat ->
  (forall s', pm_ok s' (reverse (seqZ a (b - a)) ++ l) -> Q tt s') -> wp (freerange_loop kend fuel (va_of a) (va_of b)) Q s.
Proof.
  induction fuel as [|fuel IH]; intros s l a b Q Hs Hv Hab Ha Hb Hfuel HQ; [lia|]. cbn [freerange_loop].
  unfold va_of, KERNBASE, PGSIZE. rewrite u32_id by (unfold is_u32; lia).
  destruct (Z.leb_spec (2147483648 + 4096 * a + 4096) (2147483648 + 4096 * b)) as [Hle|Hgt].
  - replace (2147483648 + 4096 * a + 4096) with (va_of (a + 1)) by (unfold va_of, KERNBASE, PGSIZE; lia).
    change (2147483648 + 4096 * a) with (va_of a). change (2147483648 + 4096 * b) with (va_of b).
    destruct (Hv a ltac:(lia)) as [Hva Hna]. apply wp_bind. eapply R_kfree; [exact Hs|done|done|]. intros s1 H1 _.
    apply (IH s1 (a :: l)); [done| |lia|lia|lia|lia|].
    + intros n Hn. destruct (Hv n ltac:(lia)) as [? ?]. split; [done|]. intros [->|?]%elem_of_cons; [lia|done].
    + intros s2 H2. apply HQ. replace (b - a) with (Z.succ (b - (a + 1))) by lia. rewrite seqZ_cons by lia.
      replace (Z.pred (Z.succ (b - (a + 1)))) with (b - (a + 1)) by lia. rewrite reverse_cons, <-app_assoc. replace (Z.succ a) with (a + 1) by lia. exact H2.
  - apply wp_ret, HQ. replace (b - a) with 0 by lia. done.
Qed.
End kalloc.

(** ** Two free pages after the kernel *)
Definition two_pages : pmem := mkPm (upd (λ _, replicate 4096 0) 0x200 (put32 (replicate 4096 0) 0 (va_of 0x201))) (va_of 0x200) true false.

Lemma two_pages_ok : pm_ok (va_of 0x200) two_pages [0x200; 0x201].
Proof.
  constructor; [done| | |].
  - split; [done|]. split; [unfold valid; lia|]. split; [|split; [unfold valid, va_of, PGSIZE; lia|]].
    + vm_compute. reflexivity.
    + vm_compute. reflexivity.
  - apply NoDup_cons. split; [intros [|]%elem_of_cons; [lia|by eapply not_elem_of_nil]|apply NoDup_singleton].
  - intros n. cbn [pg two_pages]. unfold upd. case_decide; [by rewrite length_put32, length_replicate|apply length_replicate].
Qed.

Lemma kmem_exclusive_witness :
  wp kalloc (λ r _, r = Some (va_of 0x200)) two_pages /\ kfree (va_of 0x200) 5 two_pages = Panic "kfree".
Proof.
  destruct (kmem_exclusive (va_of 0x200) ltac:(done) two_pages [0x200; 0x201] [] two_pages_ok) as (H1 & _ & H3).
  - exact (pk_nodup _ _ _ two_pages_ok).
  - split.
    + eapply wp_mono; [exact H1|]. intros [v|] s'; [|by intros [? _]]. intros (n & l' & -> & _ & [= <- <-] & _). done.
    + apply H3; [unfold is_u32; lia|]. intros n Hv. unfold valid, va_of, KERNBASE, PGSIZE in *. lia.
Defined.
