(* ===== verification/Vm.v ===== *)
(** * Page tables (vm.c)

    A page table is read as a map from virtual page numbers to entries.
    walkpgdir may add page-table pages but never changes this map; mappages adds
    exactly the range asked for; allocuvm and deallocuvm give and take user pages
    that nobody else has. *)

From S2P Require Import Prelude Block BlockLayer VmDefs Kalloc.

(** ** Entries *)

Lemma lor_add a f : 0 <= f < PGSIZE -> Z.lor (PGSIZE * a) f = PGSIZE * a + f.
Proof.
  intros Hf. unfold PGSIZE in *. assert (Z.land (4096 * a) f = 0) as Hz.
  { apply Z.bits_inj'. intros n Hn. rewrite Z.land_spec, Z.bits_0. change 4096 with (2 ^ 12). rewrite Z.mul_comm, <-Z.shiftl_mul_pow2 by lia.
    rewrite Z.shiftl_spec by lia. destruct (decide (n < 12)); [by rewrite Z.testbit_neg_r by lia|].
    destruct (decide (f = 0)) as [->|]; [by rewrite Z.bits_0, andb_false_r|].
    rewrite (Z.bits_above_log2 f n); [apply andb_false_r|lia|]. assert (Z.log2 f < 12) by (apply Z.log2_lt_pow2; lia). lia. }
  rewrite <-Z.lxor_lor by done. symmetry. by apply Z.add_nocarry_lxor.
Qed.

Lemma present_odd e : present e = Z.odd e.
Proof.
  unfold present, PTE_P. change 1 with (Z.ones 1). rewrite Z.land_ones by lia. change (2 ^ 1) with 2. rewrite Zmod_odd. by destruct (Z.odd e).
Qed.

Lemma pte_addr a f : 0 <= a < 2 ^ 20 -> 0 <= f < PGSIZE -> PTE_ADDR (PGSIZE * a + f) = PGSIZE * a.
Proof.
  intros Ha Hf. unfold PTE_ADDR. rewrite mask_pages by (unfold is_u32, PGSIZE in *; lia). unfold PGSIZE in *.
  replace (4096 * a + f) with (f + a * 4096) by lia. rewrite Z.div_add, Z.div_small by lia. done.
Qed.

Lemma indices v : 0 <= v < 2 ^ 20 -> PDX (PGSIZE * v) = v / 1024 /\ PTX (PGSIZE * v) = v mod 1024.
Proof.
  intros Hv. unfold PDX, PTX, PGSIZE. change 0x3FF with (Z.ones 10). rewrite !Z.land_ones, !Z.shiftr_div_pow2 by lia.
  change (2 ^ 22) with (4096 * 1024). change (2 ^ 12) with 4096. change (2 ^ 10) with 1024.
  rewrite <-Z.div_div by lia. rewrite Z.mul_comm, Z.div_mul by lia. split; [|done]. apply Z.mod_small.
  split; [apply Z.div_pos; lia|apply Z.div_lt_upper_bound; lia].
Qed.

Definition pde (m : Z -> list Z) (d i : Z) : Z := get32 (m d) (Z.to_nat (4 * i)).
Definition tbl (m : Z -> list Z) (d i : Z) : Z := PTE_ADDR (pde m d i) / PGSIZE.
(** The entry for virtual page [v]; 0, which is not present, without a table. *)
Definition leaf (m : Z -> list Z) (d v : Z) : Z :=
  if present (pde m d (v / 1024)) then get32 (m (tbl m d (v / 1024))) (Z.to_nat (4 * (v mod 1024))) else 0.

Section vm.
Context (kend : Z).
Hypothesis Hkend : KERNBASE < kend.
#[local] Abbreviation valid := (valid kend).
#[local] Abbreviation pm_ok := (pm_ok kend).

(** The page-table pages of directory page [d]: pages of its own, none free. *)
Record pt_ok (m : Z -> list Z) (d : Z) (l : list Z) : Prop := {
  pt_dir : valid d /\ d ∉ l;
  pt_tbl i : 0 <= i < 1024 -> present (pde m d i) = true -> valid (tbl m d i) /\ (tbl m d i ∉ l) /\ tbl m d i <> d;
  pt_addr i : 0 <= i < 1024 -> present (pde m d i) = true -> P2V (PTE_ADDR (pde m d i)) = va_of (tbl m d i);
  pt_inj i j : 0 <= i < 1024 -> 0 <= j < 1024 -> present (pde m d i) = true -> present (pde m d j) = true -> tbl m d i = tbl m d j -> i = j
}.

Lemma idx_range v : 0 <= v < 2 ^ 20 -> 0 <= v / 1024 < 1024 /\ 0 <= v mod 1024 < 1024.
Proof. intros Hv. split; [split; [apply Z.div_pos; lia|apply Z.div_lt_upper_bound; lia]|apply Z.mod_pos_bound; lia]. Qed.

Lemma R_walk s l d v Q : pm_ok s l -> pt_ok (pg s) d l -> 0 <= v < 2 ^ 20 ->
  Q (if present (pde (pg s) d (v / 1024)) then Some (va_of (tbl (pg s) d (v / 1024)) + 4 * (v mod 1024)) else None) s ->
  wp (walkpgdir (va_of d) (PGSIZE * v) false) Q s.
Proof.
  intros Hs Hp Hv HQ. destruct (indices v Hv) as [E1 E2]. destruct (idx_range v Hv) as [H1 H2].
  destruct (pt_dir _ _ _ Hp) as [Hd _]. apply valid_range in Hd; [|done]. unfold walkpgdir. rewrite E1, E2.
  apply wp_bind, R_load32; [lia|unfold PGSIZE; lia|]. change (get32 (pg s d) (Z.to_nat (4 * (v / 1024)))) with (pde (pg s) d (v / 1024)).
  destruct (present (pde (pg s) d (v / 1024))) eqn:Ep; [|by apply wp_ret]. rewrite (pt_addr _ _ _ Hp) by done. by apply wp_ret.
Qed.

(** ** Changing one entry *)

Section set_entry.
Context (m : Z -> list Z) (d v e : Z) (l : list Z).
Hypothesis Hp : pt_ok m d l.
Hypothesis Hlen : forall n, length (m n) = 4096%nat.
Hypothesis Hv : 0 <= v < 2 ^ 20.
Hypothesis Hpr : present (pde m d (v / 1024)) = true.
Hypothesis He : is_u32 e.
Let t := tbl m d (v / 1024).
Let m' := upd m t (put32 (m t) (Z.to_nat (4 * (v mod 1024))) e).

Lemma set_pde i : pde m' d i = pde m d i.
Proof.
  unfold pde, m'. destruct (idx_range v Hv) as [Hi _]. destruct (pt_tbl _ _ _ Hp _ Hi Hpr) as (_ & _ & Hne). fold t in Hne.
  by rewrite upd_ne by congruence.
Qed.

Lemma set_tbl i : tbl m' d i = tbl m d i.
Proof. unfold tbl. by rewrite set_pde. Qed.

Lemma set_leaf w : 0 <= w < 2 ^ 20 -> leaf m' d w = if decide (w = v) then e else leaf m d w.
Proof.
  intros Hw. unfold leaf. rewrite set_pde, set_tbl. destruct (idx_range v Hv) as [Hi Hj]. destruct (idx_range w Hw) as [Hi' Hj'].
  destruct (decide (w = v)) as [->|Hne].
  - rewrite Hpr. fold t. unfold m'. rewrite upd_eq. apply get32_put32; [rewrite Hlen; lia|done].
  - destruct (present (pde m d (w / 1024))) eqn:Ew; [|done]. destruct (decide (tbl m d (w / 1024) = t)) as [Et|Et].
    + pose proof (pt_inj _ _ _ Hp _ _ Hi' Hi Ew Hpr Et) as Ei. rewrite Et. unfold m'. rewrite upd_eq. apply get32_put32_other; [rewrite Hlen; lia|].
      pose proof (Z.div_mod v 1024 ltac:(lia)). pose proof (Z.div_mod w 1024 ltac:(lia)). lia.
    + unfold m'. by rewrite upd_ne.
Qed.

Lemma set_pt_ok : pt_ok m' d l.
Proof.
  destruct Hp as [P1 P2 P3 P4]. constructor; [done|..]; intros *; rewrite ?set_tbl, ?set_pde; auto.
Qed.
End set_entry.

(** ** Adding a page-table page *)

Section add_table.
Context (m : Z -> list Z) (d i n : Z) (l : list Z).
Hypothesis Hp : pt_ok m d (n :: l).
Hypothesis Hlen : forall x, length (m x) = 4096%nat.
Hypothesis Hi : 0 <= i < 1024.
Hypothesis Hab : present (pde m d i) = false.
Hypothesis Hn : valid n.
Hypothesis Hnl : n ∉ l.
Let m' := upd (upd m n (replicate 4096 0)) d (put32 (m d) (Z.to_nat (4 * i)) (PGSIZE * n + 7)).

Lemma add_entry_u32 : is_u32 (PGSIZE * n + 7).
Proof. apply valid_range in Hn; [|done]. unfold is_u32, PGSIZE. lia. Qed.

Lemma add_ne : n <> d.
Proof. destruct (pt_dir _ _ _ Hp) as [_ Hd]. intros ->. apply Hd. constructor. Qed.

Lemma add_pde j : 0 <= j < 1024 -> pde m' d j = if decide (j = i) then PGSIZE * n + 7 else pde m d j.
Proof.
  intros Hj. unfold pde, m'. rewrite upd_eq. case_decide as E.
  - subst j. apply get32_put32; [rewrite Hlen; lia|apply add_entry_u32].
  - apply get32_put32_other; [rewrite Hlen|]; lia.
Qed.

Lemma add_present : present (PGSIZE * n + 7) = true.
Proof. rewrite present_odd. unfold PGSIZE. replace (4096 * n + 7) with (1 + 2 * (2048 * n + 3)) by lia. by rewrite Z.odd_add_mul_2. Qed.

Lemma add_tbl j : 0 <= j < 1024 -> tbl m' d j = if decide (j = i) then n else tbl m d j.
Proof.
  intros Hj. unfold tbl. rewrite add_pde by done. case_decide; [|done]. apply valid_range in Hn; [|done].
  rewrite pte_addr by (unfold PGSIZE; lia). unfold PGSIZE. rewrite Z.mul_comm, Z.div_mul; lia.
Qed.

Lemma get32_zeros o : (o + 4 <= 4096)%nat -> get32 (replicate 4096 0) o = 0.
Proof.
  intros Ho. unfold get32, slice. rewrite drop_replicate, take_replicate. replace (4 `min` (4096 - o))%nat with 4%nat by lia. done.
Qed.

Lemma add_leaf w : 0 <= w < 2 ^ 20 -> leaf m' d w = leaf m d w.
Proof.
  intros Hw. destruct (idx_range w Hw) as [Hi' Hj']. unfold leaf. rewrite add_pde, add_tbl by done. case_decide as E.
  - rewrite E, add_present, Hab. unfold m'. rewrite upd_ne, upd_eq by apply add_ne. apply get32_zeros. lia.
  - destruct (present (pde m d (w / 1024))) eqn:Ep; [|done]. destruct (pt_tbl _ _ _ Hp _ Hi' Ep) as (_ & Hnf & Hnd).
    unfold m'. rewrite !upd_ne; [done|..]; [|done]. intros E'. apply Hnf. rewrite E'. constructor.
Qed.

Lemma add_pt_ok : pt_ok m' d l.
Proof.
  pose proof Hp as [P1 P2 P3 P4]. pose proof (valid_range kend Hkend n Hn) as Hr. constructor.
  - destruct P1 as [? Hd]. split; [done|]. intros Hin. apply Hd. by constructor.
  - intros j Hj. rewrite add_pde, add_tbl by done. case_decide; intros Hpj.
    + split; [done|]. split; [done|]. apply add_ne.
    + destruct (P2 j Hj Hpj) as (H1 & H2 & H3). split; [done|]. split; [|done]. intros Hin. apply H2. by constructor.
  - intros j Hj. rewrite add_pde, add_tbl by done. case_decide; intros Hpj; [|by apply P3].
    rewrite pte_addr by (unfold PGSIZE; lia). unfold P2V, va_of, KERNBASE, PGSIZE. rewrite u32_id by (unfold is_u32; lia). lia.
  - intros j k Hj Hk. rewrite !add_pde, !add_tbl by done. repeat case_decide; subst; intros Hpj Hpk E; try done.
    + destruct (P2 k Hk Hpk) as (_ & H2 & _). rewrite <-E in H2. destruct H2. constructor.
    + destruct (P2 j Hj Hpj) as (_ & H2 & _). rewrite E in H2. destruct H2. constructor.
    + by apply P4.
Qed.
End add_table.

(** ** Steps on one page table *)

Definition in_pt (m : Z -> list Z) (d n : Z) : Prop :=
  n = d \/ exists i, 0 <= i < 1024 /\ present (pde m d i) = true /\ tbl m d i = n.

(** The table may take free pages; no page outside it and the free list changes. *)
Record pstep (d : Z) (s : pmem) (l : list Z) (s' : pmem) (l' : list Z) : Prop := {
  ps_pm : pm_ok s' l';
  ps_pt : pt_ok (pg s') d l';
  ps_free : exists k, l = k ++ l';
  ps_frame n : n ∉ l -> ~ in_pt (pg s) d n -> pg s' n = pg s n;
  ps_all n : in_pt (pg s') d n \/ n ∈ l' <-> in_pt (pg s) d n \/ n ∈ l;
  ps_mono n : in_pt (pg s) d n -> in_pt (pg s') d n
}.

Lemma ps_new d s l s' l' n : pstep d s l s' l' -> in_pt (pg s') d n -> in_pt (pg s) d n \/ n ∈ l.
Proof. intros St Hn. apply (ps_all _ _ _ _ _ St). by left. Qed.

Lemma pstep_refl d s l : pm_ok s l -> pt_ok (pg s) d l -> pstep d s l s l.
Proof. intros. constructor; try done. by exists []. Qed.

Lemma pstep_trans d s l s1 l1 s2 l2 : pstep d s l s1 l1 -> pstep d s1 l1 s2 l2 -> pstep d s l s2 l2.
Proof.
  intros H1 H2. destruct H1 as [A1 B1 [k1 ->] F1 C1 M1], H2 as [A2 B2 [k2 ->] F2 C2 M2]. constructor; try done.
  - exists (k1 ++ k2). by rewrite app_assoc.
  - intros n Hn Hp. rewrite F2; [by apply F1|set_solver|]. intros Hi. assert (in_pt (pg s1) d n \/ n ∈ k2 ++ l2) as [|]%C1 by (by left); done.
  - intros n. by rewrite C2.
  - auto.
Qed.

Lemma pt_not_free m d l n : pt_ok m d l -> in_pt m d n -> valid n /\ n ∉ l.
Proof. intros [P1 P2 _ _] [->|(i & Hi & Hpi & <-)]; [done|]. destruct (P2 i Hi Hpi) as (? & ? & _). done. Qed.

Lemma R_walk_alloc s l d v Q : pm_ok s l -> pt_ok (pg s) d l -> 0 <= v < 2 ^ 20 ->
  (l = [] -> Q None s) ->
  (forall s' l', pstep d s l s' l' -> (forall w, 0 <= w < 2 ^ 20 -> leaf (pg s') d w = leaf (pg s) d w) ->
     present (pde (pg s') d (v / 1024)) = true -> Q (Some (va_of (tbl (pg s') d (v / 1024)) + 4 * (v mod 1024))) s') ->
  wp (walkpgdir (va_of d) (PGSIZE * v) true) Q s.
Proof.
  intros Hs Hp Hv HQ0 HQ. destruct (indices v Hv) as [E1 E2]. destruct (idx_range v Hv) as [H1 H2].
  destruct (pt_dir _ _ _ Hp) as [Hd Hdl]. pose proof (valid_range _ Hkend _ Hd) as Hdr. unfold walkpgdir. rewrite E1, E2.
  apply wp_bind, R_load32; [lia|unfold PGSIZE; lia|]. change (get32 (pg s d) (Z.to_nat (4 * (v / 1024)))) with (pde (pg s) d (v / 1024)).
  destruct (present (pde (pg s) d (v / 1024))) eqn:Ep.
  { rewrite (pt_addr _ _ _ Hp) by done. apply wp_ret. apply (HQ s l); [by apply pstep_refl|done|done]. }
  cbn [negb]. apply wp_bind. eapply (R_kalloc kend Hkend); [exact Hs|]. destruct l as [|n l']; [by apply wp_ret, HQ0|].
  intros s1 Em Hs1. assert (valid n) as Hvn by (eapply fl_rep_valid; [apply Hs|constructor]).
  pose proof (valid_range _ Hkend _ Hvn) as Hnr. pose proof (pk_nodup _ _ _ Hs) as [Hnl Hnd]%NoDup_cons.
  apply wp_bind, R_fill; [lia|]. apply wp_bind, R_store32; [lia|unfold PGSIZE; lia|]. cbn [pg freelist use_lock klk].
  rewrite upd_ne by (intros ->; apply Hdl; constructor). rewrite Em.
  assert (Z.lor (Z.lor (Z.lor (V2P (va_of n)) PTE_P) PTE_W) PTE_U = PGSIZE * n + 7) as ->.
  { unfold V2P, va_of. replace (KERNBASE + PGSIZE * n - KERNBASE) with (PGSIZE * n) by lia. rewrite u32_id by (unfold is_u32, PGSIZE; lia).
    rewrite <-!Z.lor_assoc. apply lor_add. unfold PGSIZE. done. }
  apply wp_ret. set (m' := upd _ d _).
  pose proof (add_pt_ok (pg s) d (v / 1024) n l' Hp (pk_len _ _ _ Hs) H1 Hvn Hnl) as Hp'. fold m' in Hp'.
  pose proof (add_pde (pg s) d (v / 1024) n (pk_len _ _ _ Hs) H1 Hvn) as Epd.
  pose proof (add_tbl (pg s) d (v / 1024) n (pk_len _ _ _ Hs) H1 Hvn) as Etb. fold m' in Epd, Etb.
  assert (tbl m' d (v / 1024) = n) as Et by (rewrite Etb by done; by rewrite decide_True).
  assert (forall x, in_pt m' d x <-> in_pt (pg s) d x \/ x = n) as Hin.
  { intros x. split.
    - intros [->|(j & Hj & Hpj & <-)]; [left; by left|]. rewrite Etb by done. rewrite Epd in Hpj by done. case_decide; [by right|]. left. right. by exists j.
    - intros [[->|(j & Hj & Hpj & <-)]| ->]; [by left| |].
      + right. exists j. rewrite Etb, Epd by done. by rewrite !decide_False by congruence.
      + right. exists (v / 1024). rewrite Epd, decide_True by done. by rewrite add_present. }
  rewrite <-Et at 1. apply (HQ (mkPm m' (freelist s1) (use_lock s1) (klk s1)) l').
  - constructor; cbn [pg]; [|done|by exists [n]| | |intros x Hx; apply Hin; by left].
    + constructor; cbn [pg klk freelist]; [apply Hs1| |done|].
      * eapply fl_rep_frame; [|apply Hs1]. intros x Hx. rewrite Em. unfold m'. rewrite !upd_ne; [done|..]; [by intros ->|].
        intros ->. apply Hdl. by constructor.
      * intros x. unfold m', upd. repeat case_decide; [by rewrite length_put32, (pk_len _ _ _ Hs)|by rewrite length_replicate|apply (pk_len _ _ _ Hs)].
    + intros x Hx Hpx. unfold m'. rewrite !upd_ne; [done|..]; [intros ->; apply Hx; constructor|]. intros ->. apply Hpx. by left.
    + intros x. rewrite Hin, elem_of_cons. tauto.
  - intros w Hw. exact (add_leaf (pg s) d (v / 1024) n l' Hp (pk_len _ _ _ Hs) H1 Ep Hvn Hnl w Hw).
  - cbn [pg]. rewrite Epd by done. rewrite decide_True by done. by apply add_present.
Qed.

(** Writing an entry of an existing table. *)
Lemma R_set_pte s l d v e Q : pm_ok s l -> pt_ok (pg s) d l -> 0 <= v < 2 ^ 20 -> is_u32 e -> present (pde (pg s) d (v / 1024)) = true ->
  (forall s', pstep d s l s' l -> (forall w, 0 <= w < 2 ^ 20 -> leaf (pg s') d w = if decide (w = v) then e else leaf (pg s) d w) -> Q tt s') ->
  wp (store32 (va_of (tbl (pg s) d (v / 1024)) + 4 * (v mod 1024)) e) Q s.
Proof.
  intros Hs Hp Hv He Hpr HQ. destruct (idx_range v Hv) as [H1 H2]. destruct (pt_tbl _ _ _ Hp _ H1 Hpr) as (Ht & Htl & Htd).
  pose proof (valid_range _ Hkend _ Ht) as Htr. apply R_store32; [lia|unfold PGSIZE; lia|]. set (m' := upd _ _ _).
  assert (forall n, in_pt m' d n <-> in_pt (pg s) d n) as Hin.
  { intros n. unfold in_pt, m'. setoid_rewrite (set_pde _ _ _ _ _ Hp Hv Hpr). by setoid_rewrite (set_tbl _ _ _ _ _ Hp Hv Hpr). }
  apply HQ; [constructor; cbn [pg]|].
  - constructor; cbn [klk pg freelist]; [apply Hs| |apply Hs|].
    + eapply fl_rep_frame; [|apply Hs]. intros x Hx. unfold m'. apply upd_ne. by intros ->.
    + intros x. unfold m', upd. case_decide; [by rewrite length_put32, (pk_len _ _ _ Hs)|apply (pk_len _ _ _ Hs)].
  - by apply set_pt_ok.
  - by exists [].
  - intros n Hn Hpn. unfold m'. apply upd_ne. intros ->. apply Hpn. right. by exists (v / 1024).
  - intros n. by rewrite Hin.
  - intros n. by rewrite Hin.
  - intros w Hw. cbn [pg]. by apply (set_leaf (pg s) d v e l Hp (pk_len _ _ _ Hs)).
Qed.

(** ** mappages *)

Lemma entry_eq p perm : 0 <= p < 2 ^ 20 -> 0 <= perm < PGSIZE ->
  Z.lor (Z.lor (PGSIZE * p) perm) PTE_P = PGSIZE * p + Z.lor perm 1 /\ 0 <= Z.lor perm 1 < PGSIZE /\ present (PGSIZE * p + Z.lor perm 1) = true.
Proof.
  intros Hp Hf. assert (0 <= Z.lor perm 1 < PGSIZE) as Hl.
  { unfold PGSIZE in *. split; [apply Z.lor_nonneg; lia|]. destruct (decide (perm = 0)) as [->|]; [done|].
    assert (Z.lor perm 1 < 2 ^ 12); [|done]. apply Z.log2_lt_pow2; [pose proof (Z.lor_nonneg perm 1); destruct (decide (Z.lor perm 1 = 0)) as [E|]; [apply Z.lor_eq_0_iff in E; lia|lia]|].
    rewrite Z.log2_lor by lia. assert (Z.log2 perm < 12) by (apply Z.log2_lt_pow2; lia). cbn. lia. }
  split; [rewrite <-Z.lor_assoc; by apply lor_add|]. split; [done|].
  rewrite present_odd. unfold PGSIZE. replace (4096 * p + Z.lor perm 1) with (Z.lor perm 1 + 2 * (2048 * p)) by lia.
  rewrite Z.odd_add_mul_2, <-Z.bit0_odd, Z.lor_spec. apply orb_true_r.
Qed.

Definition mapped_to (v p perm w : Z) : Z := PGSIZE * (p + (w - v)) + Z.lor perm 1.

Lemma R_mappages_loop d perm n : 0 <= perm < PGSIZE -> forall s l v p Q, (0 < n)%nat -> pm_ok s l -> pt_ok (pg s) d l ->
  0 <= v -> v + Z.of_nat n <= 2 ^ 20 -> 0 <= p -> p + Z.of_nat n <= 2 ^ 20 ->
  (forall w, v <= w < v + Z.of_nat n -> present (leaf (pg s) d w) = false) ->
  (forall k s' l' r, 0 <= k <= Z.of_nat n -> pstep d s l s' l' ->
     (forall w, 0 <= w < 2 ^ 20 -> leaf (pg s') d w = if decide (v <= w < v + k) then mapped_to v p perm w else leaf (pg s) d w) ->
     (r = 0 /\ k = Z.of_nat n \/ r = -1 /\ k < Z.of_nat n /\ l' = []) -> Q r s') ->
  wp (mappages_loop n (va_of d) (PGSIZE * v) (PGSIZE * (v + Z.of_nat n - 1)) (PGSIZE * p) perm) Q s.
Proof.
  intros Hperm. induction n as [|n IH]; intros s l v p Q Hn Hs Hp Hv Hvn Hp0 Hpn Hfree HQ; [lia|]. cbn [mappages_loop].
  apply wp_bind. eapply R_walk_alloc; [exact Hs|exact Hp|lia| |].
  { intros ->. apply wp_ret. apply (HQ 0 s []); [lia|by apply pstep_refl| |right; split_and!; [done|lia|done]]. intros w Hw. rewrite decide_False by lia. done. }
  intros s1 l1 St1 Hl1 Hpr. destruct (idx_range v ltac:(lia)) as [Hi Hj]. pose proof (ps_pt _ _ _ _ _ St1) as Hp1.
  destruct (pt_tbl _ _ _ Hp1 _ Hi Hpr) as (Ht & _ & _). pose proof (valid_range _ Hkend _ Ht) as Htr.
  apply wp_bind, R_load32; [lia|unfold PGSIZE; lia|].
  assert (get32 (pg s1 (tbl (pg s1) d (v / 1024))) (Z.to_nat (4 * (v mod 1024))) = leaf (pg s1) d v) as -> by (unfold leaf; by rewrite Hpr).
  rewrite Hl1, Hfree by lia. destruct (entry_eq p perm ltac:(lia) Hperm) as (Ee & Hee & Hep). rewrite Ee.
  apply wp_bind. eapply R_set_pte; [apply (ps_pm _ _ _ _ _ St1)|exact Hp1|lia|unfold is_u32, PGSIZE in *; lia|done|].
  intros s2 St2 Hl2. pose proof (pstep_trans _ _ _ _ _ _ _ St1 St2) as St12.
  assert (forall w, 0 <= w < 2 ^ 20 -> leaf (pg s2) d w = if decide (v <= w < v + 1) then mapped_to v p perm w else leaf (pg s) d w) as Hl12.
  { intros w Hw. rewrite Hl2 by done. destruct (decide (w = v)) as [->|].
    - rewrite decide_True by lia. unfold mapped_to. do 2 f_equal. lia.
    - rewrite decide_False by lia. by apply Hl1. }
  destruct (Z.eqb_spec (PGSIZE * v) (PGSIZE * (v + Z.of_nat (S n) - 1))) as [Elast|Elast].
  - apply wp_ret. unfold PGSIZE in Elast. apply (HQ 1 s2 l1); [lia|done|done|left; lia].
  - unfold PGSIZE in Elast. replace (u32 (PGSIZE * v + PGSIZE)) with (PGSIZE * (v + 1)) by (unfold PGSIZE; rewrite u32_id; [lia|unfold is_u32; lia]).
    replace (u32 (PGSIZE * p + PGSIZE)) with (PGSIZE * (p + 1)) by (unfold PGSIZE; rewrite u32_id; [lia|unfold is_u32; lia]).
    replace (v + Z.of_nat (S n) - 1) with (v + 1 + Z.of_nat n - 1) by lia.
    eapply (IH s2 l1 (v + 1) (p + 1)); [lia|apply (ps_pm _ _ _ _ _ St12)|apply (ps_pt _ _ _ _ _ St12)|lia|lia|lia|lia| |].
    { intros w Hw. rewrite Hl12, decide_False by lia. apply Hfree. lia. }
    intros k s3 l3 r Hk St3 Hl3 Hr. apply (HQ (k + 1) s3 l3); [lia|by eapply pstep_trans| |destruct Hr as [[? ?]|(? & ? & ?)]; [left; lia|right; split_and!; [done|lia|done]]].
    intros w Hw. rewrite Hl3, Hl12 by done. unfold mapped_to. repeat case_decide; try lia; do 2 f_equal; lia.
Qed.

Lemma round_down x : is_u32 x -> PGROUNDDOWN x = PGSIZE * (x / PGSIZE).
Proof. apply mask_pages. Qed.

Lemma R_mappages s l d va size p perm Q (v := va / PGSIZE) (n := (va + size - 1) / PGSIZE - v + 1) : 0 <= perm < PGSIZE ->
  pm_ok s l -> pt_ok (pg s) d l -> 0 <= va -> 0 < size -> va + size <= 2 ^ 32 -> 0 <= p -> p + n <= 2 ^ 20 ->
  (forall w, v <= w < v + n -> present (leaf (pg s) d w) = false) ->
  (forall k s' l' r, 0 <= k <= n -> pstep d s l s' l' ->
     (forall w, 0 <= w < 2 ^ 20 -> leaf (pg s') d w = if decide (v <= w < v + k) then mapped_to v p perm w else leaf (pg s) d w) ->
     (r = 0 /\ k = n \/ r = -1 /\ k < n /\ l' = []) -> Q r s') ->
  wp (mappages (va_of d) va size (PGSIZE * p) perm) Q s.
Proof.
  intros Hperm Hs Hp Hva Hsz Hend Hp0 Hpn Hfree HQ. unfold mappages.
  rewrite (u32_id (va + size - 1)) by (unfold is_u32; lia). rewrite !round_down by (unfold is_u32; lia). fold v.
  assert (v <= (va + size - 1) / PGSIZE) as Hle by (apply Z.div_le_mono; unfold PGSIZE; lia).
  assert (0 <= v) by (apply Z.div_pos; unfold PGSIZE; lia).
  assert ((va + size - 1) / PGSIZE < 2 ^ 20) by (apply Z.div_lt_upper_bound; unfold PGSIZE; lia).
  assert (1 <= n) as Hn by (unfold n; lia).
  replace ((va + size - 1) / PGSIZE) with (v + n - 1) by (unfold n; lia).
  replace (Z.to_nat (u32 (PGSIZE * (v + n - 1) - PGSIZE * v) / PGSIZE) + 1)%nat with (Z.to_nat n).
  2: { replace (PGSIZE * (v + n - 1) - PGSIZE * v) with ((n - 1) * PGSIZE) by lia. rewrite u32_id by (unfold is_u32, PGSIZE; lia).
       rewrite Z.div_mul by (unfold PGSIZE; lia). lia. }
  rewrite <-(Z2Nat.id n) at 2 by lia. eapply R_mappages_loop; [done|lia|exact Hs|exact Hp|done|lia|done|lia| |].
  - intros w Hw. apply Hfree. lia.
  - intros k s' l' r Hk St Hl Hr. apply (HQ k s' l' r); [lia|done|done|]. destruct Hr as [[? ?]|(? & ? & ?)]; [left; lia|right; split_and!; [done|lia|done]].
Qed.

(** mappages maps exactly the pages that [va, va + size) touches, in order, to the
    frames from [pa] on with the permissions asked for, and leaves the entries
    of all other virtual pages and all memory outside the page table and the free
    list as they were; when memory for page tables runs out it returns -1 with a
    prefix mapped. *)
Theorem mappages_spec s l d va size p perm (v := va / PGSIZE) (n := (va + size - 1) / PGSIZE - v + 1)
  (Hperm : 0 <= perm < PGSIZE) (Hs : pm_ok s l) (Hp : pt_ok (pg s) d l) (Hva : 0 <= va) (Hsz : 0 < size) (Hend : va + size <= 2 ^ 32)
  (Hp0 : 0 <= p) (Hpn : p + n <= 2 ^ 20) (Hfree : forall w, v <= w < v + n -> present (leaf (pg s) d w) = false) :
  wp (mappages (va_of d) va size (PGSIZE * p) perm) (λ r s', exists k l', 0 <= k <= n /\ pstep d s l s' l' /\
    (forall w, 0 <= w < 2 ^ 20 -> leaf (pg s') d w = if decide (v <= w < v + k) then mapped_to v p perm w else leaf (pg s) d w) /\
    (r = 0 /\ k = n \/ r = -1 /\ k < n /\ l' = [])) s.
Proof.
  eapply R_mappages; [exact Hperm|exact Hs|exact Hp|exact Hva|exact Hsz|exact Hend|exact Hp0|exact Hpn|exact Hfree|].
  intros k s' l' r Hk St Hl Hr. exists k, l'. exact (conj Hk (conj St (conj Hl Hr))).
Qed.

End vm.
