(* ===== verification/AddrSpace.v ===== *)
(** * User address spaces (vm.c)

    A user address space is a page table whose user pages are frames of their
    own.  The operations of vm.c move pages between the free list, the hands
    of the running code, the tables and the user pages; no page is lost or
    shared on the way, and nothing else in memory changes. *)

From S2P Require Import Prelude Block BlockLayer VmDefs Kalloc Vm.

(** The virtual pages below [KERNBASE]. *)
Definition USERTOP : Z := 0x80000.
Definition frame (m : Z -> list Z) (d v : Z) : Z := PTE_ADDR (leaf m d v) / PGSIZE.
Definition user (m : Z -> list Z) (d v : Z) : Prop := 0 <= v < USERTOP /\ present (leaf m d v) = true.
Definition owns (m : Z -> list Z) (d n : Z) : Prop := in_pt m d n \/ exists v, user m d v /\ frame m d v = n.

Lemma user_leaf m m' d v : leaf m' d v = leaf m d v -> (user m' d v <-> user m d v) /\ frame m' d v = frame m d v.
Proof. intros E. unfold user, frame. by rewrite E. Qed.

Lemma pt_same m m' d : (forall n, in_pt m d n -> m' n = m n) ->
  (forall i, pde m' d i = pde m d i) /\ (forall w, 0 <= w < 2 ^ 20 -> leaf m' d w = leaf m d w) /\ (forall n, in_pt m' d n <-> in_pt m d n).
Proof.
  intros Hm. assert (forall i, pde m' d i = pde m d i) as Hpd by (intros i; unfold pde; rewrite Hm; [done|by left]).
  assert (forall i, tbl m' d i = tbl m d i) as Ht by (intros i; unfold tbl; by rewrite Hpd). split_and!; [done| |].
  - intros w Hw. unfold leaf. rewrite Hpd, Ht. destruct (present _) eqn:Ep; [|done]. rewrite Hm; [done|]. right.
    exists (w / 1024). split; [by apply idx_range|done].
  - intros n. unfold in_pt. setoid_rewrite Hpd. by setoid_rewrite Ht.
Qed.

Section addr_space.
Context (kend : Z).
Hypothesis Hkend : KERNBASE < kend.
#[local] Abbreviation valid := (valid kend).
#[local] Abbreviation pm_ok := (pm_ok kend).
#[local] Abbreviation pt_ok := (pt_ok kend).
#[local] Abbreviation pstep := (pstep kend).

Lemma pt_ok_same m m' d l l' : pt_ok m d l -> (forall n, in_pt m d n -> m' n = m n) -> (forall n, in_pt m d n -> n ∉ l') -> pt_ok m' d l'.
Proof.
  intros Hp Hm Hl. destruct (pt_same _ _ _ Hm) as (Hpd & _ & _). assert (forall i, tbl m' d i = tbl m d i) as Ht by (intros i; unfold tbl; by rewrite Hpd).
  constructor.
  - split; [apply Hp|]. apply Hl. by left.
  - intros i Hi. rewrite Hpd, Ht. intros Hpi. destruct (pt_tbl _ _ _ _ Hp i Hi Hpi) as (? & _ & ?). split_and!; [done| |done].
    apply Hl. right. by exists i.
  - intros i Hi. rewrite Hpd, Ht. apply Hp; done.
  - intros i j Hi Hj. rewrite !Hpd, !Ht. apply Hp; done.
Qed.

(** The address space of directory [d], the pages [h] in the hands of the
    running code and the free list [l] share no page. *)
Record as_ok (s : pmem) (d : Z) (h l : list Z) : Prop := {
  ao_pm : pm_ok s l;
  ao_pt : pt_ok (pg s) d l;
  ao_frame v : user (pg s) d v -> valid (frame (pg s) d v) /\ (frame (pg s) d v ∉ l) /\ ~ in_pt (pg s) d (frame (pg s) d v) /\
    P2V (PTE_ADDR (leaf (pg s) d v)) = va_of (frame (pg s) d v);
  ao_inj v w : user (pg s) d v -> user (pg s) d w -> frame (pg s) d v = frame (pg s) d w -> v = w;
  ao_held n : n ∈ h -> valid n /\ (n ∉ l) /\ ~ owns (pg s) d n;
  ao_nodup : NoDup h
}.

(** [P] holds of the virtual pages that may change. *)
Record astep (P : Z -> Prop) (d : Z) (s : pmem) (h l : list Z) (s' : pmem) (h' l' : list Z) : Prop := {
  at_ok : as_ok s' d h' l';
  at_frame n : n ∉ l -> n ∉ h -> ~ owns (pg s) d n -> pg s' n = pg s n;
  at_all n : owns (pg s') d n \/ n ∈ h' \/ n ∈ l' <-> owns (pg s) d n \/ n ∈ h \/ n ∈ l;
  at_keep w : 0 <= w < 2 ^ 20 -> ~ P w -> leaf (pg s') d w = leaf (pg s) d w;
  at_data w : user (pg s) d w -> ~ P w -> pg s' (frame (pg s) d w) = pg s (frame (pg s) d w)
}.

Lemma user_range m d v : user m d v -> 0 <= v < 2 ^ 20.
Proof. intros [H _]. unfold USERTOP in H. lia. Qed.

Lemma at_user P d s h l s' h' l' w : astep P d s h l s' h' l' -> 0 <= w < 2 ^ 20 -> ~ P w ->
  (user (pg s') d w <-> user (pg s) d w) /\ frame (pg s') d w = frame (pg s) d w.
Proof. intros St Hw HP. apply user_leaf. by apply (at_keep _ _ _ _ _ _ _ _ St). Qed.

Lemma owns_away s d h l n : as_ok s d h l -> owns (pg s) d n -> valid n /\ (n ∉ l) /\ n ∉ h.
Proof.
  intros Ha Ho. assert (n ∉ h) as Hh by (intros Hin; by apply (ao_held _ _ _ _ Ha n Hin)).
  destruct Ho as [Hi|(v & Hu & <-)]; [|by destruct (ao_frame _ _ _ _ Ha v Hu) as (? & ? & _)].
  by destruct (pt_not_free _ _ _ _ _ (ao_pt _ _ _ _ Ha) Hi).
Qed.

Lemma astep_refl P d s h l : as_ok s d h l -> astep P d s h l s h l.
Proof. intros Ha. by constructor. Qed.

Lemma astep_trans P d s h l s1 h1 l1 s2 h2 l2 : astep P d s h l s1 h1 l1 -> astep P d s1 h1 l1 s2 h2 l2 -> astep P d s h l s2 h2 l2.
Proof.
  intros H1 H2. pose proof (fun w => at_user _ _ _ _ _ _ _ _ w H1) as U1.
  destruct H1 as [A1 F1 C1 K1 D1], H2 as [A2 F2 C2 K2 D2]. constructor; [done|..].
  - intros n Hl Hh Ho. assert (~ (owns (pg s1) d n \/ n ∈ h1 \/ n ∈ l1)) as Hn by (rewrite C1; tauto).
    rewrite F2 by tauto. by apply F1.
  - intros n. by rewrite C2.
  - intros w Hw HP. rewrite K2 by done. by apply K1.
  - intros w Hu HP. destruct (U1 w (user_range _ _ _ Hu) HP) as [Hu1 Ef]. rewrite <-Ef at 1. rewrite D2; [|by apply Hu1|done]. rewrite Ef. by apply D1.
Qed.

Lemma astep_mono (P P' : Z -> Prop) d s h l s' h' l' : (forall w, P w -> P' w) -> astep P d s h l s' h' l' -> astep P' d s h l s' h' l'.
Proof. intros HP [A F C K D]. constructor; auto. Qed.

(** An address space does not depend on pages it does not own. *)
Lemma as_ok_frame s s' d h l h' l' : as_ok s d h l -> pm_ok s' l' -> (forall n, owns (pg s) d n -> pg s' n = pg s n /\ (n ∉ l') /\ n ∉ h') ->
  (forall n, n ∈ h' -> valid n /\ n ∉ l') -> NoDup h' ->
  as_ok s' d h' l' /\ (forall w, 0 <= w < 2 ^ 20 -> leaf (pg s') d w = leaf (pg s) d w) /\ (forall n, owns (pg s') d n <-> owns (pg s) d n).
Proof.
  intros Ha Hs' Hm Hh Hnd. destruct (pt_same (pg s) (pg s') d) as (Hpd & Hlf & Hin); [intros n Hn; apply Hm; by left|].
  assert (forall w, 0 <= w < 2 ^ 20 -> (user (pg s') d w <-> user (pg s) d w) /\ frame (pg s') d w = frame (pg s) d w) as Hu by (intros w Hw; by apply user_leaf, Hlf).
  assert (forall w, user (pg s') d w -> user (pg s) d w /\ frame (pg s') d w = frame (pg s) d w) as Hu'.
  { intros w Hw. destruct (Hu w (user_range _ _ _ Hw)) as [H1 H2]. by rewrite <-H1. }
  assert (forall n, owns (pg s') d n <-> owns (pg s) d n) as Ho.
  { intros n. unfold owns. rewrite Hin. apply or_iff_compat_l. split; intros (v & Hv & <-); exists v; destruct (Hu v (user_range _ _ _ Hv)) as [H1 H2]; (split; [by apply H1|by rewrite H2]). }
  split_and!; [|done|done]. constructor; [done|..].
  - eapply pt_ok_same; [apply Ha|..]; intros n Hn; apply Hm; by left.
  - intros v [Hv Ef]%Hu'. rewrite Ef, Hlf, Hin by (by eapply user_range). destruct (ao_frame _ _ _ _ Ha v Hv) as (? & ? & ? & ?). split_and!; try done.
    apply Hm. right. by exists v.
  - intros v w [Hv ->]%Hu' [Hw ->]%Hu'. by apply Ha.
  - intros n Hn. rewrite Ho. destruct (Hh n Hn) as [? ?]. split_and!; [done|done|]. intros Hc%Hm. tauto.
  - done.
Qed.

(** Steps that leave the address space as it is: moving pages between the
    hands of the code and the free list, and writing to held pages. *)
Lemma astep_hands P d s h l s' h' l' : as_ok s d h l -> pm_ok s' l' -> (forall n, n ∉ l -> n ∉ h -> pg s' n = pg s n) ->
  (forall n, n ∈ h' \/ n ∈ l' <-> n ∈ h \/ n ∈ l) -> (forall n, n ∈ h' -> n ∉ l') -> NoDup h' -> astep P d s h l s' h' l'.
Proof.
  intros Ha Hs' Hm Hmv Hdis Hnd. pose proof (fun n => owns_away _ _ _ _ n Ha) as Hown.
  destruct (as_ok_frame s s' d h l h' l' Ha Hs') as (Ha' & Hlf & Ho).
  - intros n Hn. destruct (Hown n Hn) as (_ & ? & ?). pose proof (Hmv n). split; [by apply Hm|]. tauto.
  - intros n Hn. split; [|by apply Hdis]. assert (n ∈ h \/ n ∈ l) as [Hc|Hc] by (apply Hmv; by left); [by apply (ao_held _ _ _ _ Ha)|].
    eapply fl_rep_valid; [apply (ao_pm _ _ _ _ Ha)|done].
  - done.
  - constructor; [done|intros n ? ? _; by apply Hm|intros n; rewrite Ho, Hmv; done|intros w Hw _; by apply Hlf|].
    intros w Hw _. destruct (Hown (frame (pg s) d w)) as (_ & ? & ?); [right; by exists w|]. by apply Hm.
Qed.

(** Steps of the page table alone. *)
Lemma ps_away d s l s' l' n : pstep d s l s' l' -> n ∉ l -> ~ in_pt (pg s) d n -> (n ∉ l') /\ ~ in_pt (pg s') d n.
Proof. intros St Hl Hi. pose proof (ps_all _ _ _ _ _ _ St n). tauto. Qed.

Lemma astep_pt (P : Z -> Prop) d s h l s' l' : as_ok s d h l -> pstep d s l s' l' ->
  (forall w, 0 <= w < 2 ^ 20 -> ~ P w -> leaf (pg s') d w = leaf (pg s) d w) ->
  (forall w, 0 <= w < USERTOP -> present (leaf (pg s') d w) = present (leaf (pg s) d w) /\ PTE_ADDR (leaf (pg s') d w) = PTE_ADDR (leaf (pg s) d w)) ->
  astep P d s h l s' h l'.
Proof.
  intros Ha St Hlf Hpa. pose proof (fun n => ps_away _ _ _ _ _ n St) as Haw.
  assert (forall w, 0 <= w < USERTOP -> (user (pg s') d w <-> user (pg s) d w) /\ frame (pg s') d w = frame (pg s) d w) as Hul.
  { intros w Hw. destruct (Hpa w Hw) as [E1 E2]. unfold user, frame. by rewrite E1, E2. }
  assert (forall w, user (pg s') d w -> user (pg s) d w /\ frame (pg s') d w = frame (pg s) d w) as Hu.
  { intros w Hw. destruct (Hul w (proj1 Hw)) as [H1 H2]. by rewrite <-H1. }
  assert (forall n, (exists v, user (pg s') d v /\ frame (pg s') d v = n) <-> (exists v, user (pg s) d v /\ frame (pg s) d v = n)) as Hfr.
  { intros n. split; intros (v & Hv & <-); exists v; destruct (Hul v (proj1 Hv)) as [H1 H2]; (split; [by apply H1|by rewrite H2]). }
  constructor.
  - constructor; [apply St|apply St|..].
    + intros v [Hv Ef]%Hu. rewrite Ef, (proj2 (Hpa v (proj1 Hv))). destruct (ao_frame _ _ _ _ Ha v Hv) as (? & H1 & H2 & ?).
      by destruct (Haw _ H1 H2) as [? ?].
    + intros v w [Hv ->]%Hu [Hw ->]%Hu. by apply Ha.
    + intros n Hn. destruct (ao_held _ _ _ _ Ha n Hn) as (? & H1 & H2). unfold owns in *. rewrite Hfr. pose proof (Haw n). tauto.
    + apply Ha.
  - intros n Hl _ Ho. apply (ps_frame _ _ _ _ _ _ St); [done|]. intros Hi. apply Ho. by left.
  - intros n. unfold owns. rewrite Hfr. pose proof (ps_all _ _ _ _ _ _ St n). tauto.
  - done.
  - intros w Hw _. destruct (ao_frame _ _ _ _ Ha w Hw) as (_ & H1 & H2 & _). by apply (ps_frame _ _ _ _ _ _ St).
Qed.

(** A held page becomes the frame of user page [v]. *)
Lemma astep_map (P : Z -> Prop) d s n h l s' l' v e : as_ok s d (n :: h) l -> pstep d s l s' l' -> 0 <= v < USERTOP -> P v ->
  present (leaf (pg s) d v) = false -> present e = true -> PTE_ADDR e = PGSIZE * n ->
  (forall w, 0 <= w < 2 ^ 20 -> leaf (pg s') d w = if decide (w = v) then e else leaf (pg s) d w) -> astep P d s (n :: h) l s' h l'.
Proof.
  intros Ha St Hv HPv Hab He Hn Hlf. pose proof (fun n => ps_away _ _ _ _ _ n St) as Haw.
  destruct (ao_held _ _ _ _ Ha n ltac:(constructor)) as (Hvn & Hnl & Hno). pose proof (ao_nodup _ _ _ _ Ha) as [Hnh Hnd]%NoDup_cons.
  assert (PTE_ADDR e / PGSIZE = n) as Hn' by (rewrite Hn, Z.mul_comm; by apply Z.div_mul).
  assert (forall w, w <> v -> 0 <= w < 2 ^ 20 -> leaf (pg s') d w = leaf (pg s) d w) as Hlo by (intros w Hw Hr; rewrite Hlf by done; by rewrite decide_False).
  assert (leaf (pg s') d v = e) as Hlv by (rewrite Hlf by (unfold USERTOP in Hv; lia); by rewrite decide_True).
  assert (frame (pg s') d v = n) as Hfv by (unfold frame; by rewrite Hlv).
  assert (forall w, user (pg s') d w -> w <> v -> user (pg s) d w /\ frame (pg s') d w = frame (pg s) d w) as Hu.
  { intros w Hw Hne. destruct (user_leaf _ _ _ _ (Hlo w Hne (user_range _ _ _ Hw))) as [H1 H2]. by rewrite <-H1. }
  assert (forall x, (exists w, user (pg s') d w /\ frame (pg s') d w = x) <-> x = n \/ (exists w, user (pg s) d w /\ frame (pg s) d w = x)) as Hfr.
  { intros x. split.
    - intros (w & Hw & <-). destruct (decide (w = v)) as [->|Hne]; [by left|]. right. exists w. by destruct (Hu w Hw Hne).
    - intros [->|(w & Hw & <-)]; [exists v; by rewrite Hfv; unfold user; rewrite Hlv|]. assert (w <> v) as Hne by (intros ->; destruct Hw; congruence).
      exists w. destruct (user_leaf _ _ _ _ (Hlo w Hne (user_range _ _ _ Hw))) as [H1 H2]. by rewrite H1, H2. }
  assert (forall w, user (pg s) d w -> frame (pg s) d w <> n) as Hfn by (intros w Hw <-; apply Hno; right; by exists w).
  constructor.
  - constructor; [apply St|apply St|..].
    + intros w Hw. destruct (decide (w = v)) as [->|Hne].
      * rewrite Hfv, Hlv, Hn. destruct (Haw n) as [? ?]; [done|intros Hi; apply Hno; by left|]. split_and!; [done..|].
        apply (valid_range _ Hkend) in Hvn. unfold P2V, va_of, PGSIZE, KERNBASE in *. rewrite u32_id by (unfold is_u32; lia). lia.
      * destruct (Hu w Hw Hne) as [Hw' ->]. rewrite Hlo by (try done; by eapply user_range). destruct (ao_frame _ _ _ _ Ha w Hw') as (? & H1 & H2 & ?).
        by destruct (Haw _ H1 H2) as [? ?].
    + intros a b Ha' Hb'. destruct (decide (a = v)) as [->|Hna], (decide (b = v)) as [->|Hnb]; [done|..].
      * rewrite Hfv. destruct (Hu b Hb' Hnb) as [? ->]. intros E. by destruct (Hfn b).
      * rewrite Hfv. destruct (Hu a Ha' Hna) as [? ->]. intros E. by destruct (Hfn a).
      * destruct (Hu a Ha' Hna) as [? ->], (Hu b Hb' Hnb) as [? ->]. by apply Ha.
    + intros x Hx. destruct (ao_held _ _ _ _ Ha x) as (? & H1 & H2); [by constructor|]. unfold owns in *. rewrite Hfr. pose proof (Haw x).
      assert (x <> n) by (by intros ->). tauto.
    + done.
  - intros x Hl _ Ho. apply (ps_frame _ _ _ _ _ _ St); [done|]. intros Hi. apply Ho. by left.
  - intros x. unfold owns. rewrite Hfr, elem_of_cons. pose proof (ps_all _ _ _ _ _ _ St x). tauto.
  - intros w Hw HP. apply Hlo; [by intros ->|done].
  - intros w Hw _. destruct (ao_frame _ _ _ _ Ha w Hw) as (_ & H1 & H2 & _). by apply (ps_frame _ _ _ _ _ _ St).
Qed.

(** The frame of user page [v] goes to the free list and the entry is cleared. *)
Lemma astep_drop (P : Z -> Prop) d s h l s1 s2 v (f := frame (pg s) d v) : as_ok s d h l -> user (pg s) d v -> P v ->
  pm_ok s1 (f :: l) -> (forall x, x <> f -> pg s1 x = pg s x) -> pstep d s1 (f :: l) s2 (f :: l) ->
  (forall w, 0 <= w < 2 ^ 20 -> leaf (pg s2) d w = if decide (w = v) then 0 else leaf (pg s1) d w) -> astep P d s h l s2 h (f :: l).
Proof.
  intros Ha Hv HPv Hs1 Hm St Hlf. destruct (ao_frame _ _ _ _ Ha v Hv) as (Hfv & Hfl & Hfi & _). fold f in Hfv, Hfl, Hfi.
  destruct (pt_same (pg s) (pg s1) d) as (_ & Hlf1 & Hin1); [intros n Hn; apply Hm; by intros ->|].
  assert (forall n, in_pt (pg s2) d n <-> in_pt (pg s) d n) as Hin.
  { intros n. rewrite <-Hin1. split; [|by apply (ps_mono _ _ _ _ _ _ St)]. intros Hi.
    destruct (pt_not_free _ _ _ _ _ (ps_pt _ _ _ _ _ _ St) Hi). by destruct (ps_new _ _ _ _ _ _ n St Hi). }
  assert (forall w, w <> v -> 0 <= w < 2 ^ 20 -> leaf (pg s2) d w = leaf (pg s) d w) as Hlo by (intros w Hne Hw; rewrite Hlf by done; rewrite decide_False by done; by apply Hlf1).
  assert (forall w, user (pg s2) d w -> w <> v /\ user (pg s) d w /\ frame (pg s2) d w = frame (pg s) d w) as Hu.
  { intros w Hw. assert (w <> v) as Hne by (intros ->; destruct Hw as [Hr Hp]; rewrite Hlf in Hp by (unfold USERTOP in Hr; lia); by rewrite decide_True in Hp).
    destruct (user_leaf _ _ _ _ (Hlo w Hne (user_range _ _ _ Hw))) as [H1 H2]. by rewrite <-H1. }
  assert (forall x, (exists w, user (pg s2) d w /\ frame (pg s2) d w = x) <-> (exists w, user (pg s) d w /\ frame (pg s) d w = x) /\ x <> f) as Hfr.
  { intros x. split.
    - intros (w & Hw & <-). destruct (Hu w Hw) as (Hne & Hw' & ->). split; [by exists w|]. intros E. by apply Hne, (ao_inj _ _ _ _ Ha).
    - intros [(w & Hw & <-) Hxf]. assert (w <> v) as Hne by (by intros ->). exists w.
      destruct (user_leaf _ _ _ _ (Hlo w Hne (user_range _ _ _ Hw))) as [H1 H2]. by rewrite H1, H2. }
  assert (forall x, x ∉ f :: l -> ~ in_pt (pg s) d x -> pg s2 x = pg s x) as Hkeep.
  { intros x Hx Hi. rewrite (ps_frame _ _ _ _ _ _ St); [apply Hm; intros ->; apply Hx; constructor|done|by rewrite Hin1]. }
  constructor.
  - constructor; [apply St|apply St|..].
    + intros w Hw. destruct (Hu w Hw) as (Hne & Hw' & ->). rewrite Hlo, Hin by (try done; by eapply user_range).
      destruct (ao_frame _ _ _ _ Ha w Hw') as (? & ? & ? & ?). split_and!; try done. intros [E|?]%elem_of_cons; [|done]. by apply Hne, (ao_inj _ _ _ _ Ha).
    + intros a b Ha' Hb'. destruct (Hu a Ha') as (_ & ? & ->), (Hu b Hb') as (_ & ? & ->). by apply Ha.
    + intros x Hx. destruct (ao_held _ _ _ _ Ha x Hx) as (? & ? & Hxo). unfold owns in *. rewrite Hfr, Hin, elem_of_cons.
      split_and!; [done| |tauto]. intros [->|?]; [|done]. apply Hxo. right. by exists v.
    + apply Ha.
  - intros x Hl _ Ho. apply Hkeep; [intros [->|?]%elem_of_cons; [apply Ho; right; by exists v|done]|]. intros Hi. apply Ho. by left.
  - intros x. unfold owns. rewrite Hfr, Hin, elem_of_cons. destruct (decide (x = f)) as [->|]; [|tauto].
    split; [intros _|tauto]. left. right. by exists v.
  - intros w Hw HP. apply Hlo; [by intros ->|done].
  - intros w Hw HP. destruct (ao_frame _ _ _ _ Ha w Hw) as (_ & H1 & H2 & _). apply Hkeep; [|done].
    intros [E|?]%elem_of_cons; [|done]. apply HP. by rewrite (ao_inj _ _ _ _ Ha w v Hw Hv E).
Qed.

(** ** deallocuvm *)

Lemma round_up x : 0 <= x -> x + PGSIZE - 1 < 2 ^ 32 -> PGROUNDUP x = PGSIZE * ((x + PGSIZE - 1) / PGSIZE).
Proof.
  intros H1 H2. unfold PGROUNDUP. rewrite u32_id by (unfold is_u32, PGSIZE in *; lia). apply mask_pages. unfold is_u32, PGSIZE in *. lia.
Qed.

(** The first page at or above address [x]. *)
Definition page_up (x : Z) : Z := (x + PGSIZE - 1) / PGSIZE.

Lemma page_up_lt v x : PGSIZE * v < x <-> v < page_up x.
Proof. unfold page_up, PGSIZE. pose proof (Z.div_mod (x + 4096 - 1) 4096 ltac:(lia)). pose proof (Z.mod_pos_bound (x + 4096 - 1) 4096 ltac:(lia)). lia. Qed.

Lemma R_leaf s d l v (Q : Z -> pmem -> Prop) : pt_ok (pg s) d l -> 0 <= v < 2 ^ 20 -> present (pde (pg s) d (v / 1024)) = true ->
  Q (leaf (pg s) d v) s -> wp (load32 (va_of (tbl (pg s) d (v / 1024)) + 4 * (v mod 1024))) Q s.
Proof.
  intros Ha Hv Hp HQ. destruct (idx_range v Hv) as [Hi Hj]. destruct (pt_tbl _ _ _ _ Ha _ Hi Hp) as (Ht & _).
  apply (valid_range _ Hkend) in Ht. apply R_load32; [lia|unfold PGSIZE; lia|]. unfold leaf in HQ. by rewrite Hp in HQ.
Qed.

Lemma next_page v : 0 <= v < USERTOP -> u32 (PGSIZE * v + PGSIZE) = PGSIZE * (v + 1).
Proof. unfold USERTOP, PGSIZE. intros Hv. rewrite u32_id; [lia|unfold is_u32; lia]. Qed.

Lemma skip_table v : 0 <= v < USERTOP ->
  u32 (u32 (PGADDR (PDX (PGSIZE * v) + 1) 0 0 - PGSIZE) + PGSIZE) = PGSIZE * (1024 * (v / 1024 + 1)) /\ v < 1024 * (v / 1024 + 1) <= USERTOP.
Proof.
  intros Hv. unfold USERTOP in *. destruct (indices v ltac:(lia)) as [-> _].
  assert (0 <= v / 1024 < 512) as Hq by (split; [apply Z.div_pos; lia|apply Z.div_lt_upper_bound; lia]).
  pose proof (Z.div_mod v 1024 ltac:(lia)). pose proof (Z.mod_pos_bound v 1024 ltac:(lia)). split; [|lia].
  unfold PGADDR. rewrite Z.shiftl_0_l, !Z.lor_0_r, Z.shiftl_mul_pow2 by lia. unfold PGSIZE.
  replace ((v / 1024 + 1) * 2 ^ 22) with (4194304 * (v / 1024 + 1)) by lia. set (q := v / 1024 + 1) in *.
  rewrite (u32_id (4194304 * q)), (u32_id (4194304 * q - 4096)) by (unfold is_u32; lia). rewrite u32_id by (unfold is_u32; lia). lia.
Qed.

Lemma R_dealloc_loop d oldsz (b := page_up oldsz) fuel : forall s h l a Q, as_ok s d h l -> 0 <= a <= USERTOP -> b <= USERTOP -> b - a <= Z.of_nat fuel ->
  (forall s' l', astep (λ w, a <= w < b) d s h l s' h l' -> (forall w, a <= w < b -> present (leaf (pg s') d w) = false) -> Q tt s') ->
  wp (deallocuvm_loop kend fuel (va_of d) (PGSIZE * a) oldsz) Q s.
Proof.
  induction fuel as [|fuel IH]; intros s h l a Q Ha Ha0 Hb Hf HQ; cbn [deallocuvm_loop].
  { apply wp_ret. apply (HQ s l); [by apply astep_refl|]. intros w Hw. lia. }
  destruct (Z.ltb_spec (PGSIZE * a) oldsz) as [Hlt|Hge].
  2: { apply wp_ret. apply (HQ s l); [by apply astep_refl|]. intros w Hw. pose proof (page_up_lt a oldsz). unfold b in Hw. lia. }
  apply page_up_lt in Hlt. fold b in Hlt. assert (0 <= a < 2 ^ 20) as Har by (unfold USERTOP in *; lia).
  apply wp_bind. eapply (R_walk kend Hkend); [apply Ha|apply Ha|done|]. destruct (present (pde (pg s) d (a / 1024))) eqn:Epd.
  - apply wp_bind. eapply R_leaf; [apply Ha|done|done|].
    rewrite (next_page a) by lia.
    destruct (present (leaf (pg s) d a)) eqn:Ep.
    + assert (user (pg s) d a) as Hu by (split; [lia|done]). destruct (ao_frame _ _ _ _ Ha a Hu) as (Hv & Hl & Hi & Epv).
      destruct (Z.eqb_spec (PTE_ADDR (leaf (pg s) d a)) 0) as [E0|_].
      { exfalso. unfold frame in Hv. rewrite E0 in Hv. destruct Hv as [Hv _]. change (0 / PGSIZE) with 0 in Hv. unfold va_of in Hv. lia. }
      apply wp_bind. rewrite Epv. apply wp_bind. eapply (R_kfree kend Hkend); [apply Ha|done|done|]. intros s1 Hs1 Hm.
      destruct (pt_same (pg s) (pg s1) d) as (Hpd & _ & _); [intros n Hn; apply Hm; by intros ->|].
      assert (tbl (pg s) d (a / 1024) = tbl (pg s1) d (a / 1024)) as -> by (unfold tbl; by rewrite Hpd).
      assert (pt_ok (pg s1) d (frame (pg s) d a :: l)) as Hp1.
      { eapply pt_ok_same; [apply Ha|intros n Hn; apply Hm; by intros ->|]. intros n Hn [->|Hnl]%elem_of_cons; [done|].
        by destruct (pt_not_free _ _ _ _ _ (ao_pt _ _ _ _ Ha) Hn). }
      eapply (R_set_pte kend Hkend); [exact Hs1|exact Hp1|done|unfold is_u32; lia|by rewrite Hpd|]. intros s2 St Hl2.
      pose proof (astep_drop (λ w, a <= w < b) d s h l s1 s2 a Ha Hu ltac:(cbv beta; lia) Hs1 Hm St Hl2) as St2.
      eapply (IH s2 h _ (a + 1)); [apply St2|lia|done|lia|]. intros s3 l3 St3 Hn3.
      assert (astep (λ w, a <= w < b) d s2 h (frame (pg s) d a :: l) s3 h l3) as St3' by (eapply astep_mono; [|exact St3]; cbv beta; lia).
      apply (HQ s3 l3); [by eapply astep_trans|]. intros w Hw. destruct (decide (w = a)) as [->|]; [|apply Hn3; lia].
      rewrite (at_keep _ _ _ _ _ _ _ _ St3) by lia. rewrite Hl2 by done. by rewrite decide_True.
    + apply wp_bind, wp_ret. eapply (IH s h l (a + 1)); [done|lia|done|lia|]. intros s3 l3 St3 Hn3.
      assert (astep (λ w, a <= w < b) d s h l s3 h l3) as St3' by (eapply astep_mono; [|exact St3]; cbv beta; lia).
      apply (HQ s3 l3); [done|]. intros w Hw. destruct (decide (w = a)) as [->|]; [|apply Hn3; lia].
      by rewrite (at_keep _ _ _ _ _ _ _ _ St3) by lia.
  - destruct (skip_table a ltac:(lia)) as [-> Hsk]. eapply (IH s h l); [done|lia|done|lia|]. intros s3 l3 St3 Hn3.
    assert (astep (λ w, a <= w < b) d s h l s3 h l3) as St3' by (eapply astep_mono; [|exact St3]; cbv beta; lia).
    apply (HQ s3 l3); [done|]. intros w Hw. destruct (decide (w < 1024 * (a / 1024 + 1))) as [Hws|]; [|apply Hn3; lia].
    rewrite (at_keep _ _ _ _ _ _ _ _ St3) by (unfold USERTOP in *; lia). unfold leaf.
    replace (w / 1024) with (a / 1024); [by rewrite Epd|]. pose proof (Z.div_mod a 1024 ltac:(lia)). pose proof (Z.mod_pos_bound a 1024 ltac:(lia)).
    apply (Z.div_unique w 1024 (a / 1024) (w - 1024 * (a / 1024))); lia.
Qed.

Lemma page_up_top x : x <= KERNBASE -> page_up x <= USERTOP.
Proof. intros Hx. unfold page_up, USERTOP. apply Z.lt_succ_r, Z.div_lt_upper_bound; unfold PGSIZE, KERNBASE in *; lia. Qed.

Lemma page_up_pos x : 0 <= x -> 0 <= page_up x.
Proof. intros Hx. apply Z.div_pos; unfold PGSIZE; lia. Qed.

Lemma page_up_mono x y : x <= y -> page_up x <= page_up y <= page_up x + (y - x) / PGSIZE + 1.
Proof.
  intros Hxy. unfold page_up, PGSIZE. split; [apply Z.div_le_mono; lia|].
  pose proof (Z.div_mod (x + 4096 - 1) 4096 ltac:(lia)). pose proof (Z.mod_pos_bound (x + 4096 - 1) 4096 ltac:(lia)).
  pose proof (Z.div_mod (y + 4096 - 1) 4096 ltac:(lia)). pose proof (Z.mod_pos_bound (y + 4096 - 1) 4096 ltac:(lia)).
  pose proof (Z.div_mod (y - x) 4096 ltac:(lia)). pose proof (Z.mod_pos_bound (y - x) 4096 ltac:(lia)). lia.
Qed.

Lemma R_dealloc d s h l oldsz newsz Q (a := page_up newsz) (b := page_up oldsz) : as_ok s d h l -> 0 <= newsz -> oldsz <= KERNBASE ->
  (newsz <= oldsz -> forall s' l', astep (λ w, a <= w < b) d s h l s' h l' -> (forall w, a <= w < b -> present (leaf (pg s') d w) = false) -> Q newsz s') ->
  (oldsz < newsz -> Q oldsz s) -> wp (deallocuvm kend (va_of d) oldsz newsz) Q s.
Proof.
  intros Ha H0 Hk HQ HQ'. unfold deallocuvm. destruct (Z.leb_spec oldsz newsz) as [Hle|Hgt].
  { apply wp_ret. destruct (decide (oldsz = newsz)) as [->|]; [|apply HQ'; lia]. apply (HQ ltac:(lia) s l); [by apply astep_refl|]. unfold a, b. intros w Hw. lia. }
  apply wp_bind. rewrite round_up by (unfold PGSIZE, KERNBASE in *; lia). fold (page_up newsz).
  pose proof (page_up_top _ Hk). pose proof (page_up_mono newsz oldsz ltac:(lia)) as [Hm1 Hm2]. pose proof (page_up_pos newsz H0).
  assert ((oldsz - newsz) / PGSIZE <= oldsz / PGSIZE) by (apply Z.div_le_mono; unfold PGSIZE; lia).
  assert (0 <= oldsz / PGSIZE) by (apply Z.div_pos; unfold PGSIZE; lia).
  eapply (R_dealloc_loop d oldsz); [exact Ha|lia|lia|lia|]. intros s' l' St Hn. apply wp_ret. apply (HQ ltac:(lia) s' l'); done.
Qed.

(** ** allocuvm *)

Lemma v2p_va n : valid n -> V2P (va_of n) = PGSIZE * n.
Proof. intros Hn%(valid_range _ Hkend). unfold V2P, va_of, KERNBASE, PGSIZE. rewrite u32_id by (unfold is_u32; lia). lia. Qed.

Lemma R_map_one (P : Z -> Prop) d s n h l v perm (Q : Z -> pmem -> Prop) : as_ok s d (n :: h) l -> 0 <= v < USERTOP -> P v -> 0 <= perm < PGSIZE ->
  present (leaf (pg s) d v) = false ->
  (forall s' l', astep P d s (n :: h) l s' h l' ->
     (forall w, 0 <= w < 2 ^ 20 -> leaf (pg s') d w = if decide (w = v) then PGSIZE * n + Z.lor perm 1 else leaf (pg s) d w) ->
     frame (pg s') d v = n -> pg s' n = pg s n -> Q 0 s') ->
  (forall s', astep (λ _, False) d s (n :: h) l s' (n :: h) [] -> Q (-1) s') ->
  wp (mappages (va_of d) (PGSIZE * v) PGSIZE (V2P (va_of n)) perm) Q s.
Proof.
  intros Ha Hv HPv Hperm Hab HQ HQ'. destruct (ao_held _ _ _ _ Ha n ltac:(constructor)) as (Hvn & Hnl & Hno).
  pose proof (valid_range _ Hkend _ Hvn) as Hnr. rewrite v2p_va by done. unfold USERTOP in *.
  assert (PGSIZE * v / PGSIZE = v) as E1 by (rewrite Z.mul_comm; apply Z.div_mul; unfold PGSIZE; lia).
  assert ((PGSIZE * v + PGSIZE - 1) / PGSIZE = v) as E2 by (symmetry; apply (Z.div_unique _ _ _ (PGSIZE - 1)); unfold PGSIZE; lia).
  apply (R_mappages kend Hkend) with (l := l); [done|apply Ha|apply Ha|unfold PGSIZE; lia|unfold PGSIZE; lia|unfold PGSIZE; lia|lia|rewrite E1, E2; lia|rewrite E1, E2; intros w Hw; by replace w with v by lia|].
  rewrite E1, E2. intros k s' l' r Hk St Hl Hr. destruct (entry_eq n perm ltac:(lia) Hperm) as (_ & Hlor & Hpe).
  destruct Hr as [[-> Hk1]|(-> & Hk0 & ->)].
  - assert (forall w, 0 <= w < 2 ^ 20 -> leaf (pg s') d w = if decide (w = v) then PGSIZE * n + Z.lor perm 1 else leaf (pg s) d w) as Hl'.
    { intros w Hw. rewrite Hl by done. unfold mapped_to. unfold PGSIZE. repeat case_decide; lia. }
    pose proof (pte_addr n (Z.lor perm 1) ltac:(lia) Hlor) as Ea.
    apply (HQ s' l'); [by eapply astep_map|done| |].
    + unfold frame. rewrite Hl', decide_True, Ea, Z.mul_comm by (done || lia). apply Z.div_mul. unfold PGSIZE; lia.
    + apply (ps_frame _ _ _ _ _ _ St); [done|]. intros Hi. apply Hno. by left.
  - assert (forall w, 0 <= w < 2 ^ 20 -> leaf (pg s') d w = leaf (pg s) d w) as Hsame by (intros w Hw; rewrite Hl, decide_False by (done || lia); done).
    apply HQ'. apply astep_pt; [done|done|intros w Hw _; by apply Hsame|]. intros w Hw. unfold USERTOP in Hw. by rewrite Hsame by lia.
Qed.

(** User page [w] is a fresh zeroed page, writable by the user. *)
Definition zeroed (m : Z -> list Z) (d w : Z) : Prop :=
  user m d w /\ leaf m d w = PGSIZE * frame m d w + 7 /\ m (frame m d w) = replicate 4096 0.

Lemma zeroed_keep P d s h l s' h' l' w : astep P d s h l s' h' l' -> ~ P w -> zeroed (pg s) d w -> zeroed (pg s') d w.
Proof.
  intros St HP (Hu & Hl & Hc). destruct (at_user _ _ _ _ _ _ _ _ w St (user_range _ _ _ Hu) HP) as [Hu' Ef].
  split; [by apply Hu'|]. rewrite Ef, (at_keep _ _ _ _ _ _ _ _ St w (user_range _ _ _ Hu) HP), (at_data _ _ _ _ _ _ _ _ St) by done. done.
Qed.

Lemma astep_kalloc (P : Z -> Prop) d s h n l s' : as_ok s d h (n :: l) -> pg s' = pg s -> pm_ok s' l -> astep P d s h (n :: l) s' (n :: h) l.
Proof.
  intros Ha Em Hs'. assert (n ∉ h) as Hh by (intros Hn; destruct (ao_held _ _ _ _ Ha n Hn) as (_ & Hno & _); apply Hno; constructor).
  pose proof (pk_nodup _ _ _ (ao_pm _ _ _ _ Ha)) as [Hnl _]%NoDup_cons. apply astep_hands; [done|done|by rewrite Em|..].
  - intros x. rewrite !elem_of_cons. tauto.
  - intros x [->|Hx]%elem_of_cons; [done|]. destruct (ao_held _ _ _ _ Ha x Hx) as (_ & Hno & _). intros Hl. apply Hno. by constructor.
  - constructor; [done|apply Ha].
Qed.

Lemma astep_write (P : Z -> Prop) d s h l n c u : as_ok s d h l -> n ∈ h -> length c = 4096%nat ->
  astep P d s h l (mkPm (upd (pg s) n c) (freelist s) u (klk s)) h l.
Proof.
  intros Ha Hn Hc. destruct (ao_held _ _ _ _ Ha n Hn) as (_ & Hnl & _). apply astep_hands; [done| |..]; [| |done| |apply Ha].
  - destruct (ao_pm _ _ _ _ Ha) as [H1 H2 H3 H4]. constructor; cbn [klk pg freelist]; [done| |done|].
    + eapply fl_rep_frame; [|exact H2]. intros x Hx. apply upd_ne. by intros ->.
    + intros x. unfold upd. case_decide; [done|apply H4].
  - intros x _ Hx. cbn [pg]. apply upd_ne. by intros ->.
  - intros x Hx. by apply (ao_held _ _ _ _ Ha).
Qed.

Lemma R_kfree_held (P : Z -> Prop) d s n h l Q : as_ok s d (n :: h) l -> (forall s', astep P d s (n :: h) l s' h (n :: l) -> Q tt s') -> wp (kfree kend (va_of n)) Q s.
Proof.
  intros Ha HQ. destruct (ao_held _ _ _ _ Ha n ltac:(constructor)) as (Hv & Hl & Ho). pose proof (ao_nodup _ _ _ _ Ha) as [Hnh Hnd]%NoDup_cons.
  eapply (R_kfree kend Hkend); [apply Ha|done|done|]. intros s' Hs' Hm. apply HQ, astep_hands; [done|done|..].
  - intros x _ Hx. apply Hm. intros ->. apply Hx. constructor.
  - intros x. rewrite !elem_of_cons. tauto.
  - intros x Hx [->|Hxl]%elem_of_cons; [done|]. destruct (ao_held _ _ _ _ Ha x) as (_ & ? & _); [by constructor|done].
  - done.
Qed.

Lemma R_alloc_loop d oldsz newsz (a0 := page_up oldsz) (b := page_up newsz) fuel : 0 <= oldsz <= newsz -> newsz < KERNBASE ->
  forall s h l a Q, as_ok s d h l -> a0 <= a -> b - a <= Z.of_nat fuel -> (forall w, a <= w < b -> present (leaf (pg s) d w) = false) ->
  (forall s' l', astep (λ w, a <= w < b) d s h l s' h l' -> (forall w, a <= w < b -> zeroed (pg s') d w) -> Q newsz s') ->
  (forall s' l', astep (λ w, a0 <= w < b) d s h l s' h l' -> (forall w, a0 <= w < b -> present (leaf (pg s') d w) = false) -> Q 0 s') ->
  wp (allocuvm_loop kend fuel (va_of d) (PGSIZE * a) oldsz newsz) Q s.
Proof.
  intros Hsz Hk. pose proof (page_up_top newsz ltac:(lia)) as Htop. pose proof (page_up_pos oldsz ltac:(lia)) as Hpos. fold a0 b in Htop, Hpos.
  induction fuel as [|fuel IH]; intros s h l a Q Ha Ha0 Hf Hab HQ HQ'; cbn [allocuvm_loop].
  { apply wp_ret, (HQ s l); [by apply astep_refl|]. intros w Hw. lia. }
  destruct (Z.ltb_spec (PGSIZE * a) newsz) as [Hlt|Hge].
  2: { apply wp_ret, (HQ s l); [by apply astep_refl|]. intros w Hw. pose proof (page_up_lt a newsz). unfold b in Hw. lia. }
  apply page_up_lt in Hlt. fold b in Hlt.
  apply wp_bind. eapply (R_kalloc kend Hkend); [apply Ha|]. destruct l as [|n l].
  { apply wp_bind. eapply R_dealloc; [exact Ha|lia|lia| |lia]. intros _ s' l' St Hn. apply wp_ret. by apply (HQ' s' l'). }
  intros s1 Em Hs1. pose proof (astep_kalloc (λ _, False) d s h n l s1 Ha Em Hs1) as St1.
  destruct (ao_held _ _ _ _ (at_ok _ _ _ _ _ _ _ _ St1) n ltac:(constructor)) as (Hvn & _). pose proof (valid_range _ Hkend _ Hvn) as Hnr.
  apply wp_bind, R_fill; [lia|]. set (s2 := mkPm _ _ _ _). assert (astep (λ _, False) d s h (n :: l) s2 (n :: h) l) as St2.
  { eapply astep_trans; [exact St1|]. apply astep_write; [apply St1|constructor|apply length_replicate]. }
  assert (forall P, astep P d s h (n :: l) s2 (n :: h) l) as St2' by (intros P; by eapply astep_mono; [|exact St2]).
  pose proof (at_keep _ _ _ _ _ _ _ _ St2) as Hl2. apply wp_bind, (R_map_one (λ w, a <= w < b) d s2 n h l a); [apply St2|lia|lia|done| |..].
  { rewrite Hl2; [apply Hab; lia|unfold USERTOP in *; lia|tauto]. }
  - intros s3 l3 St3 Hl3 Ef Hc. pose proof (astep_trans _ _ _ _ _ _ _ _ _ _ _ (St2' _) St3) as St. cbn [Z.ltb Z.compare].
    rewrite next_page by lia. assert (zeroed (pg s3) d a) as Hz.
    { unfold zeroed, user. rewrite Ef, Hl3, decide_True by (done || unfold USERTOP in *; lia). split_and!; [lia|lia| |done|].
      - by apply entry_eq; [lia|].
      - rewrite Hc. unfold s2. cbn [pg]. apply upd_eq. }
    eapply (IH s3 h l3 (a + 1)); [apply St|lia|lia|..].
    + intros w Hw. rewrite Hl3, decide_False, Hl2 by (tauto || unfold USERTOP in *; lia). apply Hab. lia.
    + intros s4 l4 St4 Hz4. apply (HQ s4 l4); [eapply astep_trans; [exact St|eapply astep_mono; [|exact St4]; cbv beta; lia]|].
      intros w Hw. destruct (decide (w = a)) as [->|]; [|apply Hz4; lia]. eapply zeroed_keep; [exact St4|cbv beta; lia|done].
    + intros s4 l4 St4 Hn4. apply (HQ' s4 l4); [|done]. eapply astep_trans; [|exact St4]. eapply astep_mono; [|exact St]. cbv beta; lia.
  - intros s3 St3. cbn [Z.ltb Z.compare]. apply wp_bind. eapply R_dealloc; [apply St3|lia|lia| |lia]. intros _ s4 l4 St4 Hn4.
    apply wp_bind. eapply (R_kfree_held (λ _, False)); [apply St4|]. intros s5 St5. apply wp_ret. apply (HQ' s5 (n :: l4)).
    + eapply astep_trans; [apply St2'|]. eapply astep_trans; [eapply astep_mono; [|exact St3]; tauto|]. eapply astep_trans; [exact St4|].
      eapply astep_mono; [|exact St5]; tauto.
    + intros w Hw. rewrite (at_keep _ _ _ _ _ _ _ _ St5); [by apply Hn4|unfold USERTOP in *; lia|tauto].
Qed.

Lemma R_allocuvm d s h l oldsz newsz Q (a := page_up oldsz) (b := page_up newsz) : as_ok s d h l -> 0 <= oldsz ->
  (newsz < KERNBASE -> forall w, a <= w < b -> present (leaf (pg s) d w) = false) ->
  (KERNBASE <= newsz -> Q 0 s) -> (newsz < KERNBASE -> newsz < oldsz -> Q oldsz s) ->
  (newsz < KERNBASE -> oldsz <= newsz -> forall s' l', astep (λ w, a <= w < b) d s h l s' h l' ->
     (forall w, a <= w < b -> zeroed (pg s') d w) -> Q newsz s') ->
  (newsz < KERNBASE -> oldsz <= newsz -> forall s' l', astep (λ w, a <= w < b) d s h l s' h l' ->
     (forall w, a <= w < b -> present (leaf (pg s') d w) = false) -> Q 0 s') ->
  wp (allocuvm kend (va_of d) oldsz newsz) Q s.
Proof.
  intros Ha Hold Hab Hbig Hsmall HQ HQ'. unfold allocuvm. destruct (Z.leb_spec KERNBASE newsz) as [Hk|Hk]; [apply wp_ret; auto|].
  destruct (Z.ltb_spec newsz oldsz) as [Hlt|Hge]; [apply wp_ret; auto|].
  rewrite round_up by (unfold PGSIZE, KERNBASE in *; lia). fold (page_up oldsz). pose proof (page_up_mono oldsz newsz ltac:(lia)).
  assert (0 <= (newsz - oldsz) / PGSIZE) by (apply Z.div_pos; unfold PGSIZE; lia).
  eapply (R_alloc_loop d oldsz newsz); [lia|lia|exact Ha|lia|lia|by apply Hab|by apply HQ|by apply HQ'].
Qed.

(** allocuvm to a larger size maps a fresh page, zeroed and writable by the user, at
    every page of the new part and leaves the rest of the address space alone; when
    memory runs out it returns 0 and none of the new part is mapped.  In both cases no
    page is lost: the pages of the address space and the free list are the same
    pages as before.  A size reaching the kernel is refused, a smaller size changes nothing. *)
Theorem allocuvm_spec d s l oldsz newsz (a := page_up oldsz) (b := page_up newsz) (Ha : as_ok s d [] l) (Hold : 0 <= oldsz)
  (Hab : forall w, a <= w < b -> present (leaf (pg s) d w) = false) :
  wp (allocuvm kend (va_of d) oldsz newsz) (λ r s', exists l',
    astep (λ w, a <= w < b) d s [] l s' [] l' /\
    (if KERNBASE <=? newsz then r = 0 /\ s' = s
     else if newsz <? oldsz then r = oldsz /\ s' = s
     else r = newsz /\ (forall w, a <= w < b -> zeroed (pg s') d w) \/
          r = 0 /\ forall w, a <= w < b -> present (leaf (pg s') d w) = false)) s.
Proof.
  eapply R_allocuvm; [exact Ha|exact Hold|intros _; exact Hab|..].
  - intros Hk. exists l. split; [by apply astep_refl|]. by rewrite (proj2 (Z.leb_le _ _) Hk).
  - intros Hk Hlt. exists l. split; [by apply astep_refl|]. by rewrite (proj2 (Z.leb_gt _ _) Hk), (proj2 (Z.ltb_lt _ _) Hlt).
  - intros Hk Hge s' l' St Hz. exists l'. split; [done|]. rewrite (proj2 (Z.leb_gt _ _) Hk), (proj2 (Z.ltb_ge _ _) Hge). by left.
  - intros Hk Hge s' l' St Hz. exists l'. split; [done|]. rewrite (proj2 (Z.leb_gt _ _) Hk), (proj2 (Z.ltb_ge _ _) Hge). by right.
Qed.
End addr_space.
