(* ===== verification/CopyVm.v ===== *)
(** * Building and freeing whole address spaces (vm.c)

    freevm gives back every page of an address space, setupkvm builds the
    kernel part of a new one, and copyuvm copies the user part: the child
    gets frames of its own with the parent's contents and permissions. *)

From S2P Require Import Prelude Block BlockLayer VmDefs Kalloc Vm AddrSpace.

Section copyvm.
Context (kend kdata : Z).
Hypothesis Hkend : KERNBASE < kend.
#[local] Abbreviation valid := (valid kend).
#[local] Abbreviation pm_ok := (pm_ok kend).
#[local] Abbreviation pt_ok := (pt_ok kend).
#[local] Abbreviation pstep := (pstep kend).
#[local] Abbreviation as_ok := (as_ok kend).
#[local] Abbreviation astep := (astep kend).

(** ** freevm *)

Definition table_from (m : Z -> list Z) (d : Z) (i : nat) (n : Z) : Prop :=
  exists j, Z.of_nat i <= j < 1024 /\ present (pde m d j) = true /\ tbl m d j = n.

Lemma table_from_S m d i n : (i < 1024)%nat ->
  table_from m d i n <-> (present (pde m d (Z.of_nat i)) = true /\ tbl m d (Z.of_nat i) = n) \/ table_from m d (S i) n.
Proof.
  intros Hi. split.
  - intros (j & Hj & Hp & Ht). destruct (decide (j = Z.of_nat i)) as [->|]; [by left|]. right. exists j. split; [lia|done].
  - intros [[Hp Ht]|(j & Hj & ?)]; [exists (Z.of_nat i); split; [lia|done]|exists j; split; [lia|done]].
Qed.

Lemma R_free_tables m d k : forall i s l Q, (i + k = 1024)%nat -> pm_ok s l -> pg s d = m d -> pt_ok m d [] ->
  (forall n, table_from m d i n -> n ∉ l) ->
  (forall s' l', pm_ok s' l' -> (forall n, n ∈ l' <-> n ∈ l \/ table_from m d i n) ->
     (forall n, ~ table_from m d i n -> pg s' n = pg s n) -> Q tt s') ->
  wp (for_range i k (λ i, e ← load32 (va_of d + 4 * Z.of_nat i); when (present e) (kfree kend (P2V (PTE_ADDR e))))) Q s.
Proof.
  induction k as [|k IH]; intros i s l Q Hik Hs Hd Hp Hl HQ; cbn [for_range].
  { apply wp_ret, (HQ s l); [done| |done]. intros n. split; [by left|]. intros [?|(j & Hj & _)]; [done|lia]. }
  destruct (pt_dir _ _ _ _ Hp) as [Hvd _]. pose proof (valid_range _ Hkend _ Hvd) as Hdr. pose proof (fun n => table_from_S m d i n ltac:(lia)) as HS.
  apply wp_bind, wp_bind, R_load32; [lia|unfold PGSIZE; lia|]. rewrite Hd. fold (pde m d (Z.of_nat i)).
  destruct (present (pde m d (Z.of_nat i))) eqn:Ep; cbn [when].
  - destruct (pt_tbl _ _ _ _ Hp (Z.of_nat i) ltac:(lia) Ep) as (Hvt & _ & Htd). set (t := tbl m d (Z.of_nat i)) in *.
    rewrite (pt_addr _ _ _ _ Hp) by (done || lia). fold t. eapply (R_kfree kend Hkend); [exact Hs|done|apply Hl, HS; by left|]. intros s1 Hs1 Hm1.
    eapply (IH (S i) s1 (t :: l)); [lia|done|by rewrite Hm1|done| |].
    + intros n Hn [->|Hnl]%elem_of_cons; [|by eapply Hl; [apply HS; right|]]. destruct Hn as (j & Hj & Hpj & Htj).
      assert (j = Z.of_nat i) by (apply (pt_inj _ _ _ _ Hp); done || lia). lia.
    + intros s2 l2 Hs2 Hl2 Hm2. apply (HQ s2 l2); [done| |].
      * intros n. rewrite Hl2, HS, elem_of_cons. fold t. naive_solver.
      * intros n Hn. rewrite HS in Hn. rewrite Hm2, Hm1; [done|intros ->|]; tauto.
  - apply wp_ret. eapply (IH (S i) s l); [lia|done|done|done| |].
    + intros n Hn. apply Hl, HS. by right.
    + intros s2 l2 Hs2 Hl2 Hm2. apply (HQ s2 l2); [done| |].
      * intros n. rewrite Hl2, HS. naive_solver.
      * intros n Hn. rewrite HS in Hn. apply Hm2. tauto.
Qed.

Lemma table_pt m d n : in_pt m d n <-> n = d \/ table_from m d 0 n.
Proof. unfold in_pt, table_from. done. Qed.

Lemma pt_ok_nil m d l : pt_ok m d l -> pt_ok m d [].
Proof. intros Hp. eapply pt_ok_same; [exact Hp|done|]. intros n _. apply not_elem_of_nil. Qed.

Lemma R_freevm s d h l Q : as_ok s d h l ->
  (forall s' l', pm_ok s' l' -> (forall n, n ∈ l' <-> n ∈ l \/ owns (pg s) d n) ->
     (forall n, n ∉ l -> n ∉ h -> ~ owns (pg s) d n -> pg s' n = pg s n) -> Q tt s') -> wp (freevm kend (va_of d)) Q s.
Proof.
  intros Ha HQ. unfold freevm. destruct (pt_dir _ _ _ _ (ao_pt _ _ _ _ _ Ha)) as [Hvd _]. rewrite (proj2 (Z.eqb_neq _ _) (va_of_nz _ Hkend _ Hvd)).
  apply wp_bind. eapply (R_dealloc kend Hkend d s h l KERNBASE 0); [exact Ha|lia|lia| |unfold KERNBASE; lia]. intros _ s1 l1 St1 Hn1.
  change (page_up 0) with 0 in *. change (page_up KERNBASE) with USERTOP in *. pose proof (at_ok _ _ _ _ _ _ _ _ _ St1) as Ha1.
  assert (forall n, owns (pg s1) d n <-> n = d \/ table_from (pg s1) d 0 n) as Ho1.
  { intros n. unfold owns. rewrite table_pt. split; [|tauto]. intros [?|(v & [Hv Hp] & _)]; [done|]. rewrite Hn1 in Hp by done. done. }
  assert (forall n, n ∈ l1 \/ n = d \/ table_from (pg s1) d 0 n <-> n ∈ l \/ owns (pg s) d n) as Hall.
  { intros n. rewrite <-Ho1. pose proof (at_all _ _ _ _ _ _ _ _ _ St1 n). pose proof (owns_away _ _ _ _ _ n Ha). pose proof (owns_away _ _ _ _ _ n Ha1).
    assert (n ∈ h -> n ∉ l) by (intros Hn; by apply (ao_held _ _ _ _ _ Ha)). assert (n ∈ h -> n ∉ l1) by (intros Hn; by apply (ao_held _ _ _ _ _ Ha1)).
    clear HQ Ho1 Hn1 St1. destruct (decide (n ∈ h)); tauto. }
  apply wp_bind. eapply (R_free_tables (pg s1) d 1024 0); [done|apply Ha1|done|eapply pt_ok_nil, Ha1| |].
  { intros n Hn. apply (owns_away _ _ _ _ _ n Ha1), Ho1. by right. }
  intros s2 l2 Hs2 Hl2 Hm2. assert (~ table_from (pg s1) d 0 d) as Hdt.
  { intros (j & Hj & Hpj & Htj). by destruct (pt_tbl _ _ _ _ (ao_pt _ _ _ _ _ Ha1) j ltac:(lia) Hpj) as (_ & _ & ?). }
  eapply (R_kfree kend Hkend); [exact Hs2|done| |].
  { rewrite Hl2. intros [?|?]; [|done]. destruct (owns_away _ _ _ _ _ d Ha1) as (_ & ? & _); [|done]. apply Ho1. by left. }
  intros s3 Hs3 Hm3. apply (HQ s3 (d :: l2)); [done| |].
  - intros n. rewrite elem_of_cons, Hl2, <-Hall. tauto.
  - intros n Hn Hh Hno. assert (~ (n ∈ l1 \/ n = d \/ table_from (pg s1) d 0 n)) as Hn' by (rewrite Hall; tauto).
    rewrite Hm3, Hm2 by tauto. by apply (at_frame _ _ _ _ _ _ _ _ _ St1).
Qed.

(** ** setupkvm *)

(** A struct kmap in pages: first page, number of pages, first frame, perm. *)
Definition kent (e : Z * Z * Z * Z) : Z * Z * Z * Z :=
  let '(v, k, p, perm) := e in (PGSIZE * v, PGSIZE * p, u32 (PGSIZE * (p + k)), perm).

Fixpoint ordered (x : Z) (es : list (Z * Z * Z * Z)) : Prop :=
  match es with
  | [] => True
  | (v, k, p, perm) :: es' => x <= v /\ 0 < k < 2 ^ 20 /\ v + k <= 2 ^ 20 /\ 0 <= p /\ p + k <= 2 ^ 20 /\ 0 <= perm < PGSIZE /\ Z.land perm PTE_U = 0 /\ ordered (v + k) es'
  end.

(** Every range of [es] is mapped. *)
Definition kmapped (m : Z -> list Z) (d : Z) (es : list (Z * Z * Z * Z)) : Prop :=
  Forall (λ '(v, k, p, perm), forall w, v <= w < v + k -> leaf m d w = mapped_to v p perm w) es.

Lemma kmapped_keep m m' d x es : 0 <= x -> ordered x es -> (forall w, x <= w < 2 ^ 20 -> leaf m' d w = leaf m d w) -> kmapped m d es -> kmapped m' d es.
Proof.
  revert x. induction es as [|[[[v k] p] perm] es IH]; intros x Hx Hord Hl Hk; [constructor|]. destruct Hord as (Hxv & Hk0 & Hvk & _ & _ & _ & _ & Hord).
  apply Forall_cons in Hk as [Hk1 Hk2]. constructor.
  - intros w Hw. rewrite Hl by lia. by apply Hk1.
  - apply (IH (v + k)); [lia|done| |done]. intros w Hw. apply Hl. lia.
Qed.

(** No page of the kernel part is accessible to the user. *)
Definition kernel_only (m : Z -> list Z) (d : Z) : Prop := forall w, USERTOP <= w < 2 ^ 20 -> Z.land (leaf m d w) PTE_U = 0.

Lemma land_user q f : 0 <= f < PGSIZE -> Z.land (PGSIZE * q + f) PTE_U = Z.land f PTE_U.
Proof using Type.
  intros Hf. rewrite <-lor_add, Z.land_lor_distr_l by done. replace (Z.land (PGSIZE * q) PTE_U) with 0; [done|]. symmetry.
  change PGSIZE with (2 ^ 12). rewrite Z.mul_comm, <-Z.shiftl_mul_pow2 by lia.
  apply Z.bits_inj'. intros n Hn. rewrite Z.land_spec, Z.bits_0. destruct (decide (n < 12)); [rewrite Z.shiftl_spec_low by lia; done|].
  change PTE_U with (2 ^ 2). rewrite Z.pow2_bits_false by lia. apply andb_false_r.
Qed.

Lemma mapped_user v p perm w : 0 <= perm < PGSIZE -> Z.land (mapped_to v p perm w) PTE_U = Z.land perm PTE_U.
Proof using Type.
  intros Hp. destruct (entry_eq 0 perm ltac:(lia) Hp) as (_ & H & _). unfold mapped_to. rewrite land_user, Z.land_lor_distr_l by done. apply Z.lor_0_r.
Qed.

Lemma R_setupkvm_loop d es : forall x s l Q, USERTOP <= x -> ordered x es -> as_ok s d [] l -> kernel_only (pg s) d ->
  (forall w, x <= w < 2 ^ 20 -> present (leaf (pg s) d w) = false) ->
  (forall s' l', astep (λ w, x <= w) d s [] l s' [] l' -> kmapped (pg s') d es -> kernel_only (pg s') d -> Q (Some (va_of d)) s') ->
  (forall s' l', pm_ok s' l' -> (forall n, n ∈ l' <-> n ∈ l \/ owns (pg s) d n) -> (forall n, n ∉ l -> ~ owns (pg s) d n -> pg s' n = pg s n) -> Q None s') ->
  wp (setupkvm_loop kend (va_of d) (kent <$> es)) Q s.
Proof.
  induction es as [|[[[v k] p] perm] es IH]; intros x s l Q Hx Hord Ha Hko Hab HQ HQ'; cbn [fmap list_fmap setupkvm_loop kent].
  { apply wp_ret, (HQ s l); [by apply astep_refl|constructor|done]. }
  destruct Hord as (Hxv & Hk & Hvk & Hp0 & Hpk & Hperm & Hpu & Hord). assert (0 <= x) as Hx0 by (unfold USERTOP in Hx; lia).
  assert (u32 (u32 (PGSIZE * (p + k)) - PGSIZE * p) = PGSIZE * k) as ->.
  { unfold u32. rewrite Zminus_mod_idemp_l. replace (PGSIZE * (p + k) - PGSIZE * p) with (PGSIZE * k) by lia. apply Z.mod_small. unfold PGSIZE. lia. }
  assert (PGSIZE * v / PGSIZE = v) as E1 by (rewrite Z.mul_comm; apply Z.div_mul; unfold PGSIZE; lia).
  assert ((PGSIZE * v + PGSIZE * k - 1) / PGSIZE - v + 1 = k) as E2.
  { assert ((PGSIZE * v + PGSIZE * k - 1) / PGSIZE = v + k - 1) as -> by (symmetry; apply (Z.div_unique _ _ _ (PGSIZE - 1)); unfold PGSIZE; lia). lia. }
  apply wp_bind, (R_mappages kend Hkend) with (l := l); rewrite ?E1, ?E2; [done|apply Ha|apply Ha|unfold PGSIZE; lia..|intros w Hw; apply Hab; lia|].
  intros j s1 l1 r Hj St Hl Hr. assert (astep (λ w, x <= w) d s [] l s1 [] l1) as St1.
  { assert (forall w, 0 <= w < 2 ^ 20 -> w < x -> leaf (pg s1) d w = leaf (pg s) d w) as Hsame by (intros w Hw Hwx; rewrite Hl, decide_False by (done || lia); done).
    apply astep_pt; [done|done|intros w Hw Hc; apply Hsame; lia|]. intros w Hw. rewrite Hsame by (unfold USERTOP in *; lia). done. }
  destruct Hr as [[-> ->]|(-> & _ & _)]; cbn [Z.ltb Z.compare].
  - eapply (IH (v + k) s1 l1); [lia|done|apply St1| | |..].
    + intros w Hw. rewrite Hl by (unfold USERTOP in Hw; lia). case_decide; [by rewrite mapped_user|by apply Hko].
    + intros w Hw. rewrite Hl by lia. rewrite decide_False by lia. apply Hab. lia.
    + intros s2 l2 St2 Hkm Hko2. apply (HQ s2 l2); [eapply astep_trans; [exact St1|eapply astep_mono; [|exact St2]; cbv beta; lia]| |done].
      constructor; [|done]. intros w Hw. rewrite (at_keep _ _ _ _ _ _ _ _ _ St2), Hl by lia. by rewrite decide_True by lia.
    + intros s2 l2 Hs2 Hl2 Hm2. apply (HQ' s2 l2); [done|..].
      * intros n. rewrite Hl2. pose proof (at_all _ _ _ _ _ _ _ _ _ St1 n) as Hall. rewrite !elem_of_nil in Hall. tauto.
      * intros n Hn Ho. pose proof (at_all _ _ _ _ _ _ _ _ _ St1 n) as Hall. rewrite !elem_of_nil in Hall.
        rewrite Hm2 by tauto. apply (at_frame _ _ _ _ _ _ _ _ _ St1); [done|apply not_elem_of_nil|done].
  - apply wp_bind. eapply R_freevm; [apply St1|]. intros s2 l2 Hs2 Hl2 Hm2. apply wp_ret, (HQ' s2 l2); [done|..].
    + intros n. rewrite Hl2. pose proof (at_all _ _ _ _ _ _ _ _ _ St1 n) as Hall. rewrite !elem_of_nil in Hall. tauto.
    + intros n Hn Ho. pose proof (at_all _ _ _ _ _ _ _ _ _ St1 n) as Hall. rewrite !elem_of_nil in Hall.
      rewrite Hm2 by (apply not_elem_of_nil || tauto). apply (at_frame _ _ _ _ _ _ _ _ _ St1); [done|apply not_elem_of_nil|done].
Qed.

(** A zeroed page is an empty directory. *)
Lemma fresh_dir s d l : pm_ok s l -> valid d -> d ∉ l -> pg s d = replicate 4096 0 ->
  as_ok s d [] l /\ (forall n, owns (pg s) d n <-> n = d) /\ forall w, 0 <= w < 2 ^ 20 -> leaf (pg s) d w = 0.
Proof.
  intros Hs Hv Hl Hz. assert (forall i, 0 <= i < 1024 -> present (pde (pg s) d i) = false) as Hab.
  { intros i Hi. unfold pde. rewrite Hz, get32_zeros by lia. done. }
  assert (forall w, 0 <= w < 2 ^ 20 -> leaf (pg s) d w = 0) as Hlf by (intros w Hw; unfold leaf; rewrite Hab; [done|by apply idx_range]).
  assert (forall w, ~ user (pg s) d w) as Hnu by (intros w Hu; pose proof (user_range _ _ _ Hu); destruct Hu as [_ Hp]; by rewrite Hlf in Hp).
  split_and!; [| |done].
  - constructor; [done| |by intros v ?%Hnu|by intros v w ?%Hnu|by intros n ?%elem_of_nil|constructor].
    constructor; [done|..]; intros i Hi; rewrite ?Hab by done; try done. intros Hj. by rewrite Hab.
  - intros n. unfold owns, in_pt. split; [|by left; left]. intros [[->|(i & Hi & Hp & _)]|(v & Hu & _)]; [done| |by apply Hnu in Hu]. by rewrite Hab in Hp.
Qed.

Context (kd : Z).
Hypothesis Hkdata : kdata = PGSIZE * kd.
Hypothesis Hkd : 0x80100 < kd < 0x8E000.

(** kmap in pages: I/O space, kernel text, kernel data and memory, devices. *)
Definition kpages : list (Z * Z * Z * Z) :=
  [(0x80000, 0x100, 0, PTE_W); (0x80100, kd - 0x80100, 0x100, 0); (kd, 0x8E000 - kd, kd - 0x80000, PTE_W); (0xFE000, 0x2000, 0xFE000, PTE_W)].

Lemma kmap_pages : kmap kdata = kent <$> kpages.
Proof.
  unfold kmap, kpages. rewrite Hkdata. cbn [fmap list_fmap kent].
  assert (V2P (PGSIZE * kd) = PGSIZE * (kd - 0x80000)) as -> by (unfold V2P, PGSIZE, KERNBASE; rewrite u32_id by (unfold is_u32; lia); lia).
  replace (0x100 + (kd - 0x80100)) with (kd - 0x80000) by lia. replace (kd - 0x80000 + (0x8E000 - kd)) with 0xE000 by lia.
  rewrite (u32_id (PGSIZE * (kd - 0x80000))) by (unfold is_u32, PGSIZE; lia). reflexivity.
Qed.

Lemma kpages_ordered : ordered USERTOP kpages.
Proof. cbn. unfold USERTOP, PGSIZE, PTE_W. split_and!; done || lia. Qed.

Lemma R_setupkvm s l Q : pm_ok s l ->
  (forall d s' l', as_ok s' d [] l' -> (forall n, owns (pg s') d n \/ n ∈ l' <-> n ∈ l) -> (forall n, n ∉ l -> pg s' n = pg s n) ->
     (forall w, 0 <= w < USERTOP -> present (leaf (pg s') d w) = false) -> kmapped (pg s') d kpages -> kernel_only (pg s') d -> Q (Some (va_of d)) s') ->
  (forall s' l', pm_ok s' l' -> (forall n, n ∈ l' <-> n ∈ l) -> (forall n, n ∉ l -> pg s' n = pg s n) -> Q None s') ->
  wp (setupkvm kend kdata) Q s.
Proof.
  intros Hs HQ HQ'. unfold setupkvm. apply wp_bind. eapply (R_kalloc kend Hkend); [exact Hs|]. destruct l as [|d l]; [by apply wp_ret, (HQ' s [])|].
  intros s1 Em Hs1. assert (valid d) as Hv by (eapply fl_rep_valid; [apply Hs|constructor]). pose proof (valid_range _ Hkend _ Hv) as Hr.
  pose proof (pk_nodup _ _ _ Hs) as [Hdl _]%NoDup_cons. apply wp_bind, R_fill; [lia|]. set (s2 := mkPm _ _ _ _).
  destruct (fresh_dir s2 d l) as (Ha2 & Ho2 & Hl2); [|done|done|apply upd_eq|].
  { destruct Hs1 as [H1 H2 H3 H4]. constructor; cbn [klk pg freelist s2]; [done| |done|].
    - eapply fl_rep_frame; [|exact H2]. intros x Hx. apply upd_ne. by intros ->.
    - intros x. unfold upd. case_decide; [apply length_replicate|apply H4]. }
  assert (forall n, n ∉ d :: l -> pg s2 n = pg s n) as Hm2 by (intros n Hn; cbn [pg s2]; rewrite upd_ne, Em; [done|]; intros ->; apply Hn; constructor).
  change (DEVSPACE <? P2V PHYSTOP) with false. cbn iota. rewrite kmap_pages.
  eapply (R_setupkvm_loop d kpages USERTOP); [lia|apply kpages_ordered|exact Ha2| |..].
  - intros w Hw. rewrite Hl2; [done|unfold USERTOP in Hw; lia].
  - intros w Hw. rewrite Hl2; [done|unfold USERTOP in Hw; lia].
  - intros s3 l3 St Hkm Hko. pose proof (at_all _ _ _ _ _ _ _ _ _ St) as Hall. setoid_rewrite Ho2 in Hall. apply (HQ d s3 l3); [apply St|..].
    + intros n. specialize (Hall n). rewrite !elem_of_nil in Hall. rewrite elem_of_cons. tauto.
    + intros n Hn. rewrite (at_frame _ _ _ _ _ _ _ _ _ St); [by apply Hm2| |apply not_elem_of_nil|]; [intros ?; apply Hn; by constructor|].
      rewrite Ho2. intros ->. apply Hn. constructor.
    + intros w Hw. rewrite (at_keep _ _ _ _ _ _ _ _ _ St), Hl2; [done|unfold USERTOP in *; lia..].
    + done.
    + done.
  - intros s3 l3 Hs3 Hl3 Hm3. apply (HQ' s3 l3); [done|..].
    + intros n. rewrite Hl3, Ho2, elem_of_cons. tauto.
    + intros n Hn. rewrite Hm3; [by apply Hm2|intros ?; apply Hn; by constructor|]. rewrite Ho2. intros ->. apply Hn. constructor.
Qed.

(** ** copyuvm *)

Lemma flags_present e : present e = true -> 0 <= PTE_FLAGS e < PGSIZE /\ Z.lor (PTE_FLAGS e) 1 = PTE_FLAGS e.
Proof.
  intros Hp. unfold PTE_FLAGS. change 0xFFF with (Z.ones 12). split; [rewrite Z.land_ones by lia; unfold PGSIZE; apply Z.mod_pos_bound; lia|].
  rewrite present_odd, <-Z.bit0_odd in Hp. apply Z.bits_inj'. intros n Hn. rewrite Z.lor_spec, Z.land_spec. destruct (decide (n = 0)) as [->|].
  - by rewrite Hp.
  - change 1 with (Z.ones 1). rewrite (Z.testbit_ones_nonneg 1) by lia. rewrite (proj2 (Z.ltb_ge n 1)) by lia. apply orb_false_r.
Qed.

(** Page [w] of [d] in [m'] is a copy of page [w] of [p] in [m]. *)
Definition copied (m m' : Z -> list Z) (p d w : Z) : Prop :=
  user m' d w /\ leaf m' d w = PGSIZE * frame m' d w + PTE_FLAGS (leaf m p w) /\ m' (frame m' d w) = m (frame m p w).

(** The memory of [s0], of which the address space [p] holds no free page, with
    the directory [d] built from its free list [l0]. *)
Record building (s0 : pmem) (l0 : list Z) (d : Z) (s : pmem) (h l : list Z) : Prop := {
  bd_ok : as_ok s d h l;
  bd_all n : owns (pg s) d n \/ n ∈ h \/ n ∈ l <-> n ∈ l0;
  bd_frame n : n ∉ l0 -> pg s n = pg s0 n
}.

Lemma building_step P s0 l0 d s h l s' h' l' : building s0 l0 d s h l -> astep P d s h l s' h' l' -> building s0 l0 d s' h' l'.
Proof using Type.
  clear Hkd Hkdata. intros [Ha Hall Hf] St. constructor; [apply St|intros n; by rewrite (at_all _ _ _ _ _ _ _ _ _ St)|].
  intros n Hn. rewrite <-Hall in Hn. rewrite (at_frame _ _ _ _ _ _ _ _ _ St) by tauto. apply Hf. rewrite <-Hall. tauto.
Qed.

Lemma copied_keep P d s h l s' h' l' m p w : astep P d s h l s' h' l' -> ~ P w -> copied m (pg s) p d w -> copied m (pg s') p d w.
Proof using Type.
  intros St HP (Hu & Hl & Hc). destruct (at_user _ _ _ _ _ _ _ _ _ w St (user_range _ _ _ Hu) HP) as [Hu' Ef].
  split; [by apply Hu'|]. rewrite Ef, (at_keep _ _ _ _ _ _ _ _ _ St w (user_range _ _ _ Hu) HP), (at_data _ _ _ _ _ _ _ _ _ St) by done. done.
Qed.

Section copy_loop.
Context (s0 : pmem) (p : Z) (h0 l0 : list Z) (sz : Z).
Hypothesis Ha0 : as_ok s0 p h0 l0.
Hypothesis Hsz : 0 <= sz <= KERNBASE.
Let b := page_up sz.
Hypothesis Hus : forall w, 0 <= w < b -> user (pg s0) p w.

Lemma parent_kept d s h l : building s0 l0 d s h l ->
  pt_ok (pg s) p l /\ (forall i, pde (pg s) p i = pde (pg s0) p i) /\ (forall w, 0 <= w < 2 ^ 20 -> leaf (pg s) p w = leaf (pg s0) p w) /\
  (forall n, owns (pg s0) p n -> pg s n = pg s0 n).
Proof.
  intros [Ha Hall Hf]. assert (forall n, owns (pg s0) p n -> n ∉ l0) as Hp by (intros n Hn; by destruct (owns_away _ _ _ _ _ n Ha0 Hn) as (_ & ? & _)).
  assert (forall n, owns (pg s0) p n -> pg s n = pg s0 n) as Hm by (intros n Hn; by apply Hf, Hp).
  destruct (pt_same (pg s0) (pg s) p) as (Hpd & Hlf & _); [intros n Hn; apply Hm; by left|]. split_and!; [|done..].
  eapply pt_ok_same; [apply Ha0|intros n Hn; apply Hm; by left|]. intros n Hn Hnl. apply (Hp n); [by left|]. apply Hall. tauto.
Qed.

Lemma R_copy_fail d s l (Q : option Z -> pmem -> Prop) : building s0 l0 d s [] l ->
  (forall s' l', pm_ok s' l' -> (forall n, n ∈ l' <-> n ∈ l0) -> (forall n, n ∉ l0 -> pg s' n = pg s0 n) -> Q None s') ->
  wp (freevm kend (va_of d) ;; mret None) Q s.
Proof.
  intros Hb HQ. apply wp_bind. eapply R_freevm; [apply Hb|]. intros s' l' Hs' Hl' Hm'. pose proof (bd_all _ _ _ _ _ _ Hb) as Hall.
  setoid_rewrite elem_of_nil in Hall. apply wp_ret, (HQ s' l'); [done|..].
  - intros n. rewrite Hl', <-Hall. tauto.
  - intros n Hn. rewrite Hm'; [by apply Hb|..|apply not_elem_of_nil|]; rewrite <-Hall in Hn; tauto.
Qed.

Lemma R_copy_loop d fuel : forall s l a Q, building s0 l0 d s [] l -> 0 <= a -> b - a <= Z.of_nat fuel ->
  (forall w, a <= w < USERTOP -> present (leaf (pg s) d w) = false) ->
  (forall s' l', building s0 l0 d s' [] l' -> astep (λ w, a <= w < b) d s [] l s' [] l' ->
     (forall w, a <= w < b -> copied (pg s0) (pg s') p d w) -> Q (Some (va_of d)) s') ->
  (forall s' l', pm_ok s' l' -> (forall n, n ∈ l' <-> n ∈ l0) -> (forall n, n ∉ l0 -> pg s' n = pg s0 n) -> Q None s') ->
  wp (copyuvm_loop kend fuel (va_of p) (va_of d) (PGSIZE * a) sz) Q s.
Proof.
  pose proof (page_up_top sz ltac:(lia)) as Htop. fold b in Htop.
  induction fuel as [|fuel IH]; intros s l a Q Hb Ha Hf Hab HQ HQ'; cbn [copyuvm_loop].
  { apply wp_ret, (HQ s l); [done|apply astep_refl, Hb|]. intros w Hw. lia. }
  destruct (Z.ltb_spec (PGSIZE * a) sz) as [Hlt|Hge].
  2: { apply wp_ret, (HQ s l); [done|apply astep_refl, Hb|]. intros w Hw. pose proof (page_up_lt a sz). unfold b in Hw. lia. }
  apply page_up_lt in Hlt. fold b in Hlt. assert (0 <= a < 2 ^ 20) as Har by (unfold USERTOP in *; lia).
  destruct (parent_kept d s [] l Hb) as (Hpp & Hpd & Hplf & Hpm). pose proof (Hus a ltac:(lia)) as Hu. destruct (ao_frame _ _ _ _ _ Ha0 a Hu) as (Hvf & Hfl & _ & Efv).
  assert (present (pde (pg s) p (a / 1024)) = true) as Epd by (rewrite Hpd; destruct Hu as [_ Hu]; unfold leaf in Hu; by destruct (present (pde (pg s0) p (a / 1024)))).
  apply wp_bind. eapply (R_walk kend Hkend); [apply Hb|exact Hpp|done|]. rewrite Epd. apply wp_bind. eapply R_leaf; [done|exact Hpp|done|done|].
  rewrite (Hplf a Har), (proj2 Hu). cbn [negb]. apply wp_bind. eapply (R_kalloc kend Hkend); [apply Hb|]. destruct l as [|n l]; [by eapply R_copy_fail|].
  intros s1 Em Hs1. pose proof (astep_kalloc _ (λ _, False) d s [] n l s1 (bd_ok _ _ _ _ _ _ Hb) Em Hs1) as St1.
  destruct (ao_held _ _ _ _ _ (at_ok _ _ _ _ _ _ _ _ _ St1) n ltac:(constructor)) as (Hvn & _). pose proof (valid_range _ Hkend _ Hvn) as Hnr. pose proof (valid_range _ Hkend _ Hvf) as Hfr.
  apply wp_bind, wp_get. rewrite Efv. destruct (pn_page n ltac:(lia)) as [-> _], (pn_page (frame (pg s0) p a) ltac:(lia)) as [-> _].
  apply wp_bind. unfold set_page. apply wp_modify. rewrite Em, (Hpm (frame (pg s0) p a)) by (right; by exists a). rewrite <-Em. set (s2 := mkPm _ _ _ _).
  assert (astep (λ _, False) d s [] (n :: l) s2 [n] l) as St2.
  { eapply astep_trans; [exact St1|]. apply astep_write; [apply St1|constructor|apply (ao_pm _ _ _ _ _ Ha0)]. }
  pose proof (at_keep _ _ _ _ _ _ _ _ _ St2) as Hl2. destruct (flags_present _ (proj2 Hu)) as [Hfg Hlor].
  apply wp_bind, (R_map_one kend Hkend (λ w, a <= w < b) d s2 n [] l a); [apply St2|lia|lia|done| |..].
  { rewrite Hl2; [apply Hab; lia|done|tauto]. }
  - intros s3 l3 St3 Hl3 Ef Hc. cbn [Z.ltb Z.compare]. rewrite next_page by lia. rewrite Hlor in Hl3.
    assert (astep (λ w, a <= w < b) d s [] (n :: l) s3 [] l3) as St by (eapply astep_trans; [eapply astep_mono; [|exact St2]; tauto|exact St3]).
    assert (copied (pg s0) (pg s3) p d a) as Hcp.
    { unfold copied, user. rewrite Ef, Hl3, decide_True by done. split_and!; [lia|lia| |done|].
      - rewrite <-Hlor. by apply entry_eq; [lia|].
      - rewrite Hc. unfold s2. cbn [pg]. apply upd_eq. }
    eapply (IH s3 l3 (a + 1)); [by eapply building_step|lia|lia|..].
    + intros w Hw. rewrite Hl3, decide_False, Hl2 by (tauto || unfold USERTOP in *; lia). apply Hab. lia.
    + intros s4 l4 Hb4 St4 Hz4. apply (HQ s4 l4); [done|eapply astep_trans; [exact St|eapply astep_mono; [|exact St4]; cbv beta; lia]|].
      intros w Hw. destruct (decide (w = a)) as [->|]; [|apply Hz4; lia]. eapply copied_keep; [exact St4|cbv beta; lia|done].
    + done.
  - intros s3 St3. cbn [Z.ltb Z.compare]. apply wp_bind. eapply (R_kfree_held kend Hkend (λ _, False)); [apply St3|]. intros s4 St4.
    eapply R_copy_fail; [|done]. eapply building_step; [eapply building_step; [by eapply building_step|exact St3]|exact St4].
Qed.
End copy_loop.

(** freevm gives back exactly the pages of the address space: afterwards the free
    list holds what it held and every table and user frame, and no other page
    has changed. *)
Theorem freevm_returns_all s d l (Ha : as_ok s d [] l) :
  wp (freevm kend (va_of d)) (λ _ s', exists l', pm_ok s' l' /\ (forall n, n ∈ l' <-> n ∈ l \/ owns (pg s) d n) /\
    forall n, n ∉ l -> ~ owns (pg s) d n -> pg s' n = pg s n) s.
Proof.
  eapply R_freevm; [exact Ha|]. intros s' l' Hs' Hl' Hm'. exists l'. split_and!; [done|done|]. intros n ? ?. apply Hm'; [done|apply not_elem_of_nil|done].
Qed.

Lemma R_copyuvm s p h l sz (Q : option Z -> pmem -> Prop) : as_ok s p h l -> 0 <= sz <= KERNBASE -> (forall w, 0 <= w < page_up sz -> user (pg s) p w) ->
  (forall d s' l', building s l d s' [] l' -> kmapped (pg s') d kpages ->
     (forall w, 0 <= w < USERTOP -> if decide (w < page_up sz) then copied (pg s) (pg s') p d w else present (leaf (pg s') d w) = false) -> Q (Some (va_of d)) s') ->
  (forall s' l', pm_ok s' l' -> (forall n, n ∈ l' <-> n ∈ l) -> (forall n, n ∉ l -> pg s' n = pg s n) -> Q None s') ->
  wp (copyuvm kend kdata (va_of p) sz) Q s.
Proof.
  intros Ha Hsz Hus HQ HQ'. unfold copyuvm. apply wp_bind. eapply R_setupkvm; [apply Ha| |]; cycle 1.
  { intros s1 l1 Hs1 Hl1 Hm1. apply wp_ret. by apply (HQ' s1 l1). }
  intros d s1 l1 Ha1 Hall1 Hm1 Hn1 Hk1 _. assert (building s l d s1 [] l1) as Hb by (constructor; [done| |done]; intros n; rewrite elem_of_nil, <-Hall1; tauto).
  assert (0 <= sz / PGSIZE) by (apply Z.div_pos; unfold PGSIZE; lia). pose proof (page_up_mono 0 sz ltac:(lia)) as [_ Hup]. change (page_up 0) with 0 in Hup. rewrite Z.sub_0_r in Hup.
  eapply (R_copy_loop s p h l sz Ha Hsz Hus d _ s1 l1 0); [exact Hb|lia|lia|exact Hn1|..|done].
  intros s2 l2 Hb2 St Hc. apply (HQ d s2 l2); [done|..].
  - eapply (kmapped_keep (pg s1) _ d USERTOP); [done|apply kpages_ordered| |done]. pose proof (page_up_top sz ltac:(lia)).
    intros w Hw. apply (at_keep _ _ _ _ _ _ _ _ _ St); unfold USERTOP in *; lia.
  - intros w Hw. case_decide; [apply Hc; lia|]. rewrite (at_keep _ _ _ _ _ _ _ _ _ St) by (unfold USERTOP in *; lia). apply Hn1. lia.
Qed.

(** copyuvm either returns a new address space whose user pages below [sz] have the
    parent's contents and permissions in frames of their own, with nothing mapped above
    and the kernel part of kmap, or returns null with every page it took back on
    the free list.  It writes only to pages that were free, so no page of the
    parent changes and the child shares none of them. *)
Theorem copyuvm_isolated s p l sz (Ha : as_ok s p [] l) (Hsz : 0 <= sz <= KERNBASE) (Hus : forall w, 0 <= w < page_up sz -> user (pg s) p w) :
  wp (copyuvm kend kdata (va_of p) sz) (λ r s', (forall n, n ∉ l -> pg s' n = pg s n) /\ exists l', match r with
    | Some v => exists d, v = va_of d /\ as_ok s' d [] l' /\ (forall n, owns (pg s') d n \/ n ∈ l' <-> n ∈ l) /\
        (forall n, owns (pg s) p n -> pg s' n = pg s n /\ ~ owns (pg s') d n) /\ kmapped (pg s') d kpages /\
        forall w, 0 <= w < USERTOP -> if decide (w < page_up sz) then copied (pg s) (pg s') p d w else present (leaf (pg s') d w) = false
    | None => pm_ok s' l' /\ forall n, n ∈ l' <-> n ∈ l
    end) s.
Proof.
  eapply R_copyuvm; [exact Ha|done|done|..].
  - intros d s2 l2 [Ha2 Hall2 Hf2] Hk Hc. split; [done|]. exists l2, d. setoid_rewrite elem_of_nil in Hall2. split_and!; [done|done|..|done|done].
    + intros n. rewrite <-Hall2. tauto.
    + intros n Hn. destruct (owns_away _ _ _ _ _ n Ha Hn) as (_ & Hnl & _). split; [by apply Hf2|]. intros ?. apply Hnl, Hall2. tauto.
  - intros s2 l2 Hs2 Hl2 Hm2. split; [done|]. by exists l2.
Qed.
End copyvm.
