(* ===== verification/UserMem.v ===== *)
(** * User memory: copyout, uva2ka and clearpteu (vm.c)

    The bytes of an address space as the user sees them.  copyout writes
    exactly the given bytes, through pages the user may access. *)

From S2P Require Import Prelude Block BlockLayer VmDefs Kalloc Vm AddrSpace CopyVm.

(** The user may access page [w]. *)
Definition uacc (m : Z -> list Z) (d w : Z) : bool :=
  (0 <=? w) && (w <? USERTOP) && present (leaf m d w) && negb (Z.land (leaf m d w) PTE_U =? 0).

(** The byte at user address [a]. *)
Definition user_byte (m : Z -> list Z) (d a : Z) : Z := nth (Z.to_nat (a mod PGSIZE)) (m (frame m d (a / PGSIZE))) 0.

(** [f] with the bytes [buf] written from [va] on. *)
Definition zput (va : Z) (buf : list Z) (f : Z -> Z) (a : Z) : Z :=
  if decide (va <= a < va + Z.of_nat (length buf)) then nth (Z.to_nat (a - va)) buf 0 else f a.

Lemma zput_nil va f a : zput va [] f a = f a.
Proof. unfold zput. rewrite decide_False; [done|]. cbn. lia. Qed.

Lemma zput_ext va buf f g a : f a = g a -> zput va buf f a = zput va buf g a.
Proof. intros E. unfold zput. by rewrite E. Qed.

Lemma nth_drop_Z (buf : list Z) n k : (k + n < length buf)%nat -> nth k (drop n buf) 0 = nth (n + k) buf 0.
Proof. intros H. rewrite !nth_lookup, lookup_drop. done. Qed.

Lemma zput_split va buf n f a : (n <= length buf)%nat ->
  zput (va + Z.of_nat n) (drop n buf) (zput va (take n buf) f) a = zput va buf f a.
Proof.
  intros Hn. unfold zput. rewrite length_drop, length_take, Nat.min_l by lia. repeat case_decide; try lia.
  - rewrite nth_drop_Z by lia. f_equal. lia.
  - rewrite nth_lookup, lookup_take_lt, <-nth_lookup by lia. done.
Qed.

Lemma nth_splice o bs b i : (o + length bs <= length b)%nat ->
  nth i (splice o bs b) 0 = if decide (o <= i < o + length bs)%nat then nth (i - o) bs 0 else nth i b 0.
Proof.
  intros Hl. rewrite !nth_lookup. rewrite splice_app by done. case_decide as Hd.
  - rewrite lookup_app_r by (rewrite length_take; lia). rewrite length_take, Nat.min_l by lia. by rewrite lookup_app_l by lia.
  - destruct (decide (i < o)%nat).
    + rewrite lookup_app_l by (rewrite length_take; lia). by rewrite lookup_take_lt by lia.
    + rewrite lookup_app_r by (rewrite length_take; lia). rewrite length_take, Nat.min_l by lia. rewrite lookup_app_r by lia.
      rewrite lookup_drop. do 2 f_equal. lia.
Qed.

Section user_mem.
Context (kend word0 : Z).
Hypothesis Hkend : KERNBASE < kend.
#[local] Abbreviation as_ok := (as_ok kend).
#[local] Abbreviation astep := (astep kend).
#[local] Abbreviation pt_ok := (pt_ok kend).

(** Writing a page of the address space through the direct map. *)
Lemma astep_user_write d s h l w c u : as_ok s d h l -> user (pg s) d w -> length c = 4096%nat ->
  let s' := mkPm (upd (pg s) (frame (pg s) d w) c) (freelist s) u (klk s) in
  astep (λ x, x = w) d s h l s' h l /\ (forall x, 0 <= x < 2 ^ 20 -> leaf (pg s') d x = leaf (pg s) d x).
Proof.
  intros Ha Hw Hc s'. destruct (ao_frame _ _ _ _ _ Ha w Hw) as (Hv & Hl & Hi & _). set (f := frame (pg s) d w) in *.
  assert (f ∉ h) as Hh by (destruct (owns_away _ _ _ _ _ f Ha) as (_ & _ & ?); [right; by exists w|done]).
  destruct (pt_same (pg s) (pg s') d) as (Hpd & Hlf & Hin); [intros n Hn; cbn; apply upd_ne; by intros ->|].
  assert (forall x, 0 <= x < 2 ^ 20 -> (user (pg s') d x <-> user (pg s) d x) /\ frame (pg s') d x = frame (pg s) d x) as Hu by (intros x Hx; by apply user_leaf, Hlf).
  assert (forall x, user (pg s') d x -> user (pg s) d x /\ frame (pg s') d x = frame (pg s) d x) as Hu'.
  { intros x Hx. destruct (Hu x (user_range _ _ _ Hx)) as [H1 H2]. by rewrite <-H1. }
  assert (forall n, owns (pg s') d n <-> owns (pg s) d n) as Ho.
  { intros n. unfold owns. rewrite Hin. apply or_iff_compat_l. split; intros (v & Hv' & <-); exists v; destruct (Hu v (user_range _ _ _ Hv')) as [H1 H2]; (split; [by apply H1|by rewrite H2]). }
  split; [|done]. constructor.
  - constructor.
    + destruct (ao_pm _ _ _ _ _ Ha) as [H1 H2 H3 H4]. constructor; cbn [klk pg freelist s']; [done| |done|].
      * eapply fl_rep_frame; [|exact H2]. intros x Hx. apply upd_ne. by intros ->.
      * intros x. unfold upd. case_decide; [done|apply H4].
    + eapply pt_ok_same; [apply Ha|intros n Hn; cbn; apply upd_ne; by intros ->|]. intros n Hn. by destruct (pt_not_free _ _ _ _ _ (ao_pt _ _ _ _ _ Ha) Hn).
    + intros v [Hv' Ef]%Hu'. rewrite Ef, Hlf, Hin by (by eapply user_range). by apply Ha.
    + intros a b [Ha' ->]%Hu' [Hb' ->]%Hu'. by apply Ha.
    + intros n Hn. rewrite Ho. by apply Ha.
    + apply Ha.
  - intros n _ _ Hno. cbn. apply upd_ne. intros ->. apply Hno. right. by exists w.
  - intros n. by rewrite Ho.
  - intros x Hx _. by apply Hlf.
  - intros x Hx Hne. cbn. apply upd_ne. intros E. apply Hne. by apply (ao_inj _ _ _ _ _ Ha).
Qed.

(** ** uva2ka *)

(** C40: uva2ka does not test the result of walkpgdir: when an address has no page
    table it takes the word at address 0, which is the caller's own memory, for
    the entry.  If that word has the bits P and U, copyout to such an address
    returns 0 and writes to the physical page the word names, whoever owns it. *)
Theorem copyout_null_entry d s l v n buf (Ha : as_ok s d [] l) (Hv : 0 <= v < 2 ^ 20) (Hpd : present (pde (pg s) d (v / 1024)) = false)
  (Hp : present word0 = true) (Hu : Z.land word0 PTE_U <> 0) (Hn : 0 <= n < 0xE000) (Hw : PTE_ADDR word0 = PGSIZE * n)
  (Hb : (0 < length buf <= 4096)%nat) :
  wp (copyout word0 (va_of d) (PGSIZE * v) buf (Z.of_nat (length buf))) (λ r s', r = 0 /\ pg s' = upd (pg s) n (splice 0 buf (pg s n))) s.
Proof.
  unfold copyout. rewrite (Nat.add_comm _ 2). cbn [Nat.add copyout_loop]. rewrite (proj2 (Z.ltb_lt 0 (Z.of_nat (length buf)))) by lia.
  rewrite round_down by (unfold is_u32, PGSIZE; lia). rewrite (Z.mul_comm PGSIZE v), Z.div_mul, (Z.mul_comm v PGSIZE) by (unfold PGSIZE; lia).
  apply wp_bind. unfold uva2ka. apply wp_bind. eapply (R_walk kend Hkend); [apply Ha|apply Ha|done|]. rewrite Hpd. apply wp_bind, wp_ret, wp_ret.
  rewrite Hp, (proj2 (Z.eqb_neq _ _) Hu), Hw. cbn [negb].
  assert (P2V (PGSIZE * n) = va_of n) as -> by (unfold P2V, va_of, PGSIZE, KERNBASE; rewrite u32_id by (unfold is_u32; lia); lia).
  rewrite Z.sub_diag, Z.sub_0_r, (Z.min_r PGSIZE) by (unfold PGSIZE; lia). rewrite Nat2Z.id, firstn_all, Z.sub_diag.
  apply wp_bind. unfold copy_in, set_page. apply wp_bind, wp_get. destruct (pn_va n 0 Hn ltac:(unfold PGSIZE; lia)) as [-> ->]. apply wp_modify.
  cbn [Z.ltb Z.compare]. apply wp_ret. done.
Qed.

(** What is at address 0 does not look like an entry the user may access. *)
Hypothesis Hword0 : present word0 = false \/ Z.land word0 PTE_U = 0.

Lemma R_uva2ka d s h l v Q : as_ok s d h l -> kernel_only (pg s) d -> 0 <= v < 2 ^ 20 ->
  Q (if uacc (pg s) d v then Some (va_of (frame (pg s) d v)) else None) s -> wp (uva2ka word0 (va_of d) (PGSIZE * v)) Q s.
Proof.
  intros Ha Hko Hv HQ. unfold uva2ka. apply wp_bind. eapply (R_walk kend Hkend); [apply Ha|apply Ha|done|].
  destruct (present (pde (pg s) d (v / 1024))) eqn:Ep.
  - apply wp_bind. eapply (R_leaf kend Hkend); [apply Ha|done|done|]. apply wp_ret. unfold uacc in HQ.
    destruct (present (leaf (pg s) d v)) eqn:El; cbn [negb]; [|rewrite andb_false_r in HQ; exact HQ].
    destruct (Z.eqb_spec (Z.land (leaf (pg s) d v) PTE_U) 0) as [E0|E0]; cbn [negb] in HQ; [rewrite andb_false_r in HQ; exact HQ|].
    assert (v < USERTOP) as Hlt by (destruct (Z.lt_ge_cases v USERTOP); [done|]; exfalso; apply E0, Hko; lia).
    rewrite (proj2 (Z.leb_le 0 v)), (proj2 (Z.ltb_lt v USERTOP)) in HQ by lia. cbn [andb] in HQ.
    destruct (ao_frame _ _ _ _ _ Ha v) as (_ & _ & _ & ->); [split; [lia|done]|done].
  - apply wp_bind, wp_ret, wp_ret. assert (leaf (pg s) d v = 0) as E0 by (unfold leaf; by rewrite Ep).
    unfold uacc in HQ. rewrite E0 in HQ. change (present 0) with false in HQ. rewrite andb_false_r in HQ.
    destruct Hword0 as [->| ->]; [done|]. cbn [Z.eqb]. by destruct (negb (present word0)).
Qed.

(** ** copyout *)

Definition same_leaf (m m' : Z -> list Z) (d : Z) : Prop := forall w, 0 <= w < 2 ^ 20 -> leaf m' d w = leaf m d w.

Lemma same_leaf_kernel m m' d : same_leaf m m' d -> kernel_only m d -> kernel_only m' d.
Proof. intros Hl Hk w Hw. rewrite Hl by (unfold USERTOP in Hw; lia). by apply Hk. Qed.

Lemma same_leaf_uacc m m' d w : same_leaf m m' d -> 0 <= w < 2 ^ 20 -> uacc m' d w = uacc m d w.
Proof. intros Hl Hw. unfold uacc. by rewrite Hl. Qed.

Lemma uacc_user m d w : uacc m d w = true -> user m d w.
Proof. unfold uacc, user. intros [[[H1 H2]%andb_true_iff H3]%andb_true_iff _]%andb_true_iff. split; [lia|done]. Qed.

Lemma page_split a : a = PGSIZE * (a / PGSIZE) + a mod PGSIZE /\ 0 <= a mod PGSIZE < PGSIZE.
Proof. unfold PGSIZE. split; [apply Z.div_mod; lia|apply Z.mod_pos_bound; lia]. Qed.

(** One page of copyout. *)
Lemma R_copy_page d s h l va data (Q : unit -> pmem -> Prop) (v := va / PGSIZE) (o := va mod PGSIZE) : as_ok s d h l -> user (pg s) d v ->
  o + Z.of_nat (length data) <= PGSIZE ->
  (forall s', astep (λ x, x = v) d s h l s' h l -> same_leaf (pg s) (pg s') d ->
     (forall a, user (pg s) d (a / PGSIZE) -> user_byte (pg s') d a = zput va data (user_byte (pg s) d) a) -> Q tt s') ->
  wp (copy_in (va_of (frame (pg s) d v) + o) data) Q s.
Proof.
  intros Ha Hu Hl HQ. destruct (page_split va) as [Ev Ho]. fold v o in Ev, Ho. destruct (ao_frame _ _ _ _ _ Ha v Hu) as (Hv & _). apply (valid_range _ Hkend) in Hv.
  unfold copy_in, set_page. apply wp_bind, wp_get. destruct (pn_va (frame (pg s) d v) o ltac:(lia) Ho) as [-> ->]. apply wp_modify.
  pose proof (pk_len _ _ _ (ao_pm _ _ _ _ _ Ha) (frame (pg s) d v)) as Hlen.
  destruct (astep_user_write d s h l v (splice (Z.to_nat o) data (pg s (frame (pg s) d v))) (use_lock s) Ha Hu) as [St Hlf]; [by rewrite length_splice|].
  apply HQ; [exact St|exact Hlf|]. intros a Hua. destruct (page_split a) as [Ea Hoa]. unfold user_byte, zput.
  destruct (user_leaf _ _ _ _ (Hlf _ (user_range _ _ _ Hua))) as [_ ->]. cbn [pg]. destruct (decide (a / PGSIZE = v)) as [E|E].
  - rewrite E, upd_eq, nth_splice by (unfold PGSIZE in *; lia). rewrite E in Ea. repeat case_decide; try lia. f_equal. lia.
  - rewrite upd_ne by (intros Ef; apply E; by apply (ao_inj _ _ _ _ _ Ha)). rewrite decide_False; [done|].
    assert (a / PGSIZE <= v - 1 \/ v + 1 <= a / PGSIZE) as [|] by lia; unfold PGSIZE in *; lia.
Qed.

Lemma R_copyout_loop d fuel : forall s h l va buf Q, as_ok s d h l -> kernel_only (pg s) d -> 0 <= va < 2 ^ 32 ->
  va mod PGSIZE + Z.of_nat (length buf) <= PGSIZE * Z.of_nat fuel ->
  (forall s', astep (λ _, True) d s h l s' h l -> same_leaf (pg s) (pg s') d ->
     (forall a, user (pg s) d (a / PGSIZE) -> user_byte (pg s') d a = zput va buf (user_byte (pg s) d) a) ->
     (forall a, va <= a < va + Z.of_nat (length buf) -> uacc (pg s) d (a / PGSIZE) = true) -> Q 0 s') ->
  (forall s', astep (λ _, True) d s h l s' h l -> Q (-1) s') ->
  wp (copyout_loop word0 fuel (va_of d) va buf (Z.of_nat (length buf))) Q s.
Proof.
  induction fuel as [|fuel IH]; intros s h l va buf Q Ha Hko Hva Hf HQ HQ'; cbn [copyout_loop]; destruct (page_split va) as [Ev Ho].
  { apply wp_ret. destruct buf; [|cbn in Hf; lia]. apply (HQ s); [by apply astep_refl|done|intros a _; by rewrite zput_nil|cbn; lia]. }
  destruct (Z.ltb_spec 0 (Z.of_nat (length buf))) as [Hlen|Hlen].
  2: { apply wp_ret. destruct buf; [|cbn in Hlen; lia]. apply (HQ s); [by apply astep_refl|done|intros a _; by rewrite zput_nil|cbn; lia]. }
  rewrite round_down by done. set (v := va / PGSIZE) in *. set (o := va mod PGSIZE) in *. assert (0 <= v < 2 ^ 20) as Hv by (unfold PGSIZE in *; lia).
  apply wp_bind. eapply R_uva2ka; [exact Ha|done|done|]. destruct (uacc (pg s) d v) eqn:Eu; [|apply wp_ret, HQ'; by apply astep_refl].
  pose proof (uacc_user _ _ _ Eu) as Hu. assert (v < USERTOP) as Hvt by apply Hu. replace (va - PGSIZE * v) with o by lia.
  set (n := Z.min (PGSIZE - o) (Z.of_nat (length buf))). assert (0 < n <= PGSIZE - o /\ n <= Z.of_nat (length buf) /\ (n = PGSIZE - o \/ n = Z.of_nat (length buf))) as Hnn by (unfold n; lia).
  clearbody n. assert (length (take (Z.to_nat n) buf) = Z.to_nat n) as Hn by (rewrite length_take; lia).
  apply wp_bind. apply (R_copy_page d s h l va); [done|done|rewrite Hn; fold o; lia|]. intros s1 St1 Hl1 Hb1.
  assert (astep (λ _, True) d s h l s1 h l) as St1' by (by eapply astep_mono; [|exact St1]).
  rewrite next_page by lia. replace (Z.of_nat (length buf) - n) with (Z.of_nat (length (drop (Z.to_nat n) buf))) by (rewrite length_drop; lia).
  assert ((PGSIZE * (v + 1)) mod PGSIZE = 0) as Em by (rewrite Z.mul_comm; apply Z.mod_mul; unfold PGSIZE; lia).
  eapply (IH s1 h l); [apply St1|by eapply same_leaf_kernel|unfold PGSIZE, USERTOP in *; lia|rewrite Em, length_drop; unfold PGSIZE in *; lia|..].
  - intros s2 St2 Hl2 Hb2 Hu2. apply (HQ s2); [by eapply astep_trans|intros w Hw; rewrite Hl2 by done; by apply Hl1|..].
    + intros a Hua. rewrite Hb2 by (by apply (user_leaf _ _ _ _ (Hl1 _ (user_range _ _ _ Hua)))). destruct (decide (n = PGSIZE - o)) as [En|En].
      * replace (PGSIZE * (v + 1)) with (va + Z.of_nat (Z.to_nat n)) by lia. rewrite <-(zput_split va buf (Z.to_nat n)) by lia.
        by apply zput_ext, Hb1.
      * rewrite drop_ge, zput_nil, Hb1, take_ge by (done || lia). done.
    + intros a Ha'. destruct (decide (a < PGSIZE * (v + 1))) as [Hlt|Hge].
      * replace (a / PGSIZE) with v; [done|]. apply (Z.div_unique a PGSIZE v (a - PGSIZE * v)); unfold PGSIZE in *; lia.
      * destruct (page_split a) as [Eaa Hoa]. rewrite <-(same_leaf_uacc _ _ _ _ Hl1); [apply Hu2; rewrite length_drop; lia|].
        assert (uacc (pg s1) d (a / PGSIZE) = true) as Hc by (apply Hu2; rewrite length_drop; lia). apply uacc_user, user_range in Hc. done.
  - intros s2 St2. apply HQ'. by eapply astep_trans.
Qed.

Lemma R_copyout d s h l va buf Q : as_ok s d h l -> kernel_only (pg s) d -> 0 <= va < 2 ^ 32 ->
  (forall s', astep (λ _, True) d s h l s' h l -> same_leaf (pg s) (pg s') d ->
     (forall a, user (pg s) d (a / PGSIZE) -> user_byte (pg s') d a = zput va buf (user_byte (pg s) d) a) ->
     (forall a, va <= a < va + Z.of_nat (length buf) -> uacc (pg s) d (a / PGSIZE) = true) -> Q 0 s') ->
  (forall s', astep (λ _, True) d s h l s' h l -> Q (-1) s') ->
  wp (copyout word0 (va_of d) va buf (Z.of_nat (length buf))) Q s.
Proof.
  intros Ha Hko Hva HQ HQ'. unfold copyout. destruct (page_split va) as [_ Ho]. destruct (page_split (Z.of_nat (length buf))) as [El Hl].
  eapply R_copyout_loop; [exact Ha|done|done| |done|done].
  assert (0 <= Z.of_nat (length buf) / PGSIZE) by (apply Z.div_pos; unfold PGSIZE; lia). rewrite Nat2Z.inj_add, Z2Nat.id by done. unfold PGSIZE in *. lia.
Qed.

(** ** clearpteu *)

Lemma clear_user f : Z.ldiff (Z.lor (PGSIZE * f) 7) PTE_U = Z.lor (PGSIZE * f) 3.
Proof.
  apply Z.bits_inj'. intros n Hn. rewrite Z.ldiff_spec, !Z.lor_spec. destruct (decide (n < 12)).
  - change PGSIZE with (2 ^ 12). rewrite Z.mul_comm, Z.mul_pow2_bits_low by lia.
    assert (n = 0 \/ n = 1 \/ n = 2 \/ 3 <= n) as [->|[->|[->|Hn3]]] by lia; [done..|].
    by rewrite !(Z.bits_above_log2 7), !(Z.bits_above_log2 3) by (done || cbn; lia).
  - rewrite (Z.bits_above_log2 7), (Z.bits_above_log2 3), (Z.bits_above_log2 PTE_U) by (done || cbn; lia). by rewrite !orb_false_r, andb_true_r.
Qed.

Lemma R_clearpteu d s h l v Q (f := frame (pg s) d v) : as_ok s d h l -> 0 <= v < USERTOP -> leaf (pg s) d v = PGSIZE * f + 7 -> valid kend f ->
  (forall s', astep (λ x, x = v) d s h l s' h l ->
     (forall w, 0 <= w < 2 ^ 20 -> leaf (pg s') d w = if decide (w = v) then PGSIZE * f + 3 else leaf (pg s) d w) -> Q tt s') ->
  wp (clearpteu (va_of d) (PGSIZE * v)) Q s.
Proof.
  intros Ha Hv Hl Hf HQ. apply (valid_range _ Hkend) in Hf. assert (0 <= v < 2 ^ 20) as Hvr by (unfold USERTOP in Hv; lia).
  assert (present (PGSIZE * f + 7) = true) as Hp7 by (apply (entry_eq f 6); [lia|done]). assert (present (PGSIZE * f + 3) = true) as Hp3 by (apply (entry_eq f 2); [lia|done]).
  assert (present (pde (pg s) d (v / 1024)) = true) as Epd by (rewrite <-Hl in Hp7; unfold leaf in Hp7; by destruct (present (pde _ _ _))).
  unfold clearpteu. apply wp_bind. eapply (R_walk kend Hkend); [apply Ha|apply Ha|done|]. rewrite Epd. apply wp_bind. eapply (R_leaf kend Hkend); [apply Ha|done|done|].
  assert (Z.ldiff (leaf (pg s) d v) PTE_U = PGSIZE * f + 3) as ->.
  { rewrite Hl. rewrite <-(lor_add f 7), <-(lor_add f 3) by (unfold PGSIZE; lia). apply clear_user. }
  eapply (R_set_pte kend Hkend); [apply Ha|apply Ha|done|unfold is_u32, PGSIZE; lia|done|]. intros s' St Hl'. apply HQ; [|done].
  apply astep_pt; [done|done|intros w Hw Hne; by rewrite Hl', decide_False|]. intros w Hw. rewrite Hl' by (unfold USERTOP in Hw; lia).
  case_decide; [subst|done]. rewrite Hl, Hp3, Hp7, !pte_addr by (unfold PGSIZE; lia). done.
Qed.
End user_mem.
