(* ===== verification/ForkVm.v ===== *)
(** * Processes on real memory (proc.c on vm.c and kalloc.c)

    The services that proc.c asks of the memory system, implemented by the
    definitions of vm.c and kalloc.c; what it asks of the file system stays
    abstract.  On them fork gives the child a copy of the parent's memory. *)

From S2P Require Import Prelude CString Block BlockLayer ProcDefs Proc.
From S2P Require Import VmDefs Kalloc Vm AddrSpace CopyVm.

(** What proc.c asks of the file system. *)
Class FileServices (F : Type) := {
  fv_filedup : nat -> M F nat;
  fv_fileclose : nat -> M F unit;
  fv_idup : nat -> M F nat;
  fv_iput : nat -> M F unit;
  fv_begin_op : M F unit;
  fv_end_op : M F unit;
  fv_namei_root : M F (option nat)
}.

Section fork_vm.
Context {F : Type} {FV : FileServices F} (kend kdata : Z) (initcode : list Z).

Definition on_mem {A} (m : M pmem A) : M (pmem * F) A := zoom fst (λ p w, (p, snd w)) m.
Definition on_files {A} (m : M F A) : M (pmem * F) A := zoom snd (λ f w, (fst w, f)) m.
(** A pointer as a number, null as 0. *)
Definition ptr (o : option Z) : Z := default 0 o.

#[local] Instance vm_services : Services (pmem * F) := {|
  sv_kalloc := r ← on_mem kalloc; mret (ptr r);
  sv_kfree v := on_mem (kfree kend v);
  sv_setupkvm := r ← on_mem (setupkvm kend kdata); mret (ptr r);
  sv_inituvm pgdir := on_mem (inituvm pgdir initcode (Z.of_nat (length initcode)));
  sv_copyuvm pgdir sz := r ← on_mem (copyuvm kend kdata pgdir sz); mret (ptr r);
  sv_freevm pgdir := on_mem (freevm kend pgdir);
  sv_allocuvm pgdir oldsz newsz := on_mem (allocuvm kend pgdir oldsz newsz);
  sv_deallocuvm pgdir oldsz newsz := on_mem (deallocuvm kend pgdir oldsz newsz);
  sv_switchuvm pgdir := if pgdir =? 0 then panic "switchuvm: no pgdir" else mret tt;
  sv_filedup f := on_files (fv_filedup f);
  sv_fileclose f := on_files (fv_fileclose f);
  sv_idup i := on_files (fv_idup i);
  sv_iput i := on_files (fv_iput i);
  sv_begin_op := on_files fv_begin_op;
  sv_end_op := on_files fv_end_op;
  sv_namei_root := on_files fv_namei_root
|}.

(** ** The memory side of the process table *)

Definition vm_of (p : proc) : Z * Z * Z := (pgdir p, kstack p, sz p).
Definition mview (v : pst (pmem * F)) : pmem * list (Z * Z * Z) := (fst (other v), vm_of <$> ptab v).

Lemma pupd_mview i f (v v' : pst (pmem * F)) u : pupd i f v = Ret u v' -> (forall p, vm_of (f p) = vm_of p) -> mview v' = mview v.
Proof.
  intros H Hf. injection H as _ <-. unfold mview. cbn. f_equal. apply list_eq. intros k. rewrite !list_lookup_fmap, list_lookup_alter.
  case_decide; [subst|done]. destruct (ptab v !! _); cbn; [by rewrite Hf|done].
Qed.

Lemma ext_files_mview {A} (m : M F A) (v : pst (pmem * F)) r v' : ext (on_files m) v = Ret r v' -> mview v' = mview v.
Proof. unfold ext, on_files, zoom, mview. destruct (m (snd (other v))); [|done..]. by intros [= _ <-]. Qed.

Lemma ext_mem {A} (m : M pmem A) (g : A -> Z) (v : pst (pmem * F)) r v' : ext (x ← on_mem m; mret (g x)) v = Ret r v' ->
  exists a s, m (fst (other v)) = Ret a s /\ r = g a /\ mview v' = (s, vm_of <$> ptab v) /\ ptab v' = ptab v.
Proof.
  unfold ext, on_mem, zoom, mbind, M_bind, mret, M_ret, mview. destruct (m (fst (other v))) as [a s| |] eqn:E; [|done..].
  intros [= <- <-]. exists a, s. by split_and!.
Qed.

Lemma ext_mem0 {A} (m : M pmem A) (v : pst (pmem * F)) r v' : ext (on_mem m) v = Ret r v' ->
  m (fst (other v)) = Ret r (fst (other v')) /\ ptab v' = ptab v.
Proof. unfold ext, on_mem, zoom. destruct (m (fst (other v))) as [a s| |]; [|done..]. by intros [= <- <-]. Qed.

Lemma acquire_mview (v : pst (pmem * F)) u v' : acquire_ptable v = Ret u v' -> mview v' = mview v.
Proof. unfold acquire_ptable, mbind, M_bind, get. destruct (plock v); [done|]. by intros [= _ <-]. Qed.

Lemma release_mview (v : pst (pmem * F)) u v' : release_ptable v = Ret u v' -> mview v' = mview v.
Proof. unfold release_ptable, mbind, M_bind, get. repeat case_match; try done. by intros [= _ <-]. Qed.

Lemma dup_loop_mview i j lo n (v : pst (pmem * F)) u v' : for_range lo n (dup_fd i j) v = Ret u v' -> mview v' = mview v.
Proof.
  revert lo v. induction n as [|n IH]; intros lo v H; cbn [for_range] in H; [by injection H as _ <-|].
  apply bind_Ret_inv in H as (? & v1 & H1 & H). rewrite (IH _ _ H). unfold dup_fd in H1.
  apply bind_Ret_inv in H1 as (? & ? & E & H1). injection E as <- <-.
  destruct (ofile _ !! lo) as [[f|]|]; [|by injection H1 as _ <-..].
  apply bind_Ret_inv in H1 as (? & ? & E%ext_files_mview & H1). apply pupd_mview in H1; [congruence|]. reflexivity.
Qed.

Lemma alter_vm (f : proc -> proc) (g : Z * Z * Z -> Z * Z * Z) j (l : list proc) : (forall p, vm_of (f p) = g (vm_of p)) ->
  vm_of <$> alter f j l = alter g j (vm_of <$> l).
Proof.
  intros Hf. apply list_eq. intros k. rewrite list_lookup_fmap, !list_lookup_alter, !list_lookup_fmap. case_decide; [|done].
  destruct (l !! j); cbn; [by rewrite Hf|done].
Qed.

(** fork between the allocation of the child and its publication is copyuvm,
    or copyuvm and the release of the kernel stack. *)
Lemma fork_body_mem uname i j (v v' : pst (pmem * F)) ok (p := default proc_zero (ptab v !! i)) :
  fork_body uname i j v = Ret ok v' -> exists a s, copyuvm kend kdata (pgdir p) (sz p) (fst (other v)) = Ret a s /\
  if ptr a =? 0 then ok = false /\ exists s', kfree kend (kstack (default proc_zero (ptab v !! j))) s = Ret tt s' /\ fst (mview v') = s'
  else ok = true /\ mview v' = (s, alter (λ '(_, k, _), (ptr a, k, sz p)) j (vm_of <$> ptab v)).
Proof.
  unfold fork_body. intros H. apply bind_Ret_inv in H as (p' & v1 & E & H). injection E as <- <-. fold p in H.
  apply bind_Ret_inv in H as (pg & v1 & E & H). apply ext_mem in E as (a & s & Ec & -> & Hv1 & Ht1). exists a, s. split; [done|].
  apply bind_Ret_inv in H as (? & v2 & E & H). injection E as _ <-. destruct (ptr a =? 0) eqn:Ea.
  - apply bind_Ret_inv in H as (q & ? & E & H). injection E as <- <-. apply bind_Ret_inv in H as ([] & v3 & E & H).
    apply bind_Ret_inv in H as (? & ? & E2 & H). injection E2 as _ <-. apply bind_Ret_inv in H as (? & ? & E2 & H). injection E2 as _ <-. injection H as <- <-.
    split; [done|]. apply (ext_mem0 (kfree kend _)) in E as [E _]. change (fst (other (with_ptab _ v1))) with (fst (mview v1)) in E. rewrite Hv1 in E.
    exists (fst (other v3)). split; [|done]. cbn [fst] in E. rewrite <-E. f_equal. cbn [ptab with_ptab]. rewrite list_lookup_alter, decide_True, Ht1 by done.
    by destruct (ptab v !! j).
  - apply bind_Ret_inv in H as (? & ? & E & H). injection E as _ <-. set (v2 := with_ptab _ _) in H.
    assert (mview v2 = (s, alter (λ '(_, k, _), (ptr a, k, sz p)) j (vm_of <$> ptab v))) as Hv2.
    { unfold v2, mview. cbn. f_equal; [unfold mview in Hv1; congruence|]. rewrite Ht1, list_alter_alter_eq. by apply alter_vm. }
    clearbody v2. do 4 (apply bind_Ret_inv in H as (? & ? & E & H); apply pupd_mview in E; [|reflexivity]; rewrite <-E in Hv2; clear E).
    apply bind_Ret_inv in H as (? & vd & E%dup_loop_mview & H). rewrite <-E in Hv2; clear E.
    apply bind_Ret_inv in H as (dd & v3 & E & H). assert (mview v3 = mview vd) as E3.
    { destruct (cwd p); [|done]. apply bind_Ret_inv in E as (? & ? & E%ext_files_mview & E2). injection E2 as _ <-. exact E. }
    rewrite <-E3 in Hv2. do 2 (apply bind_Ret_inv in H as (? & ? & E4 & H); apply pupd_mview in E4; [|reflexivity]; rewrite <-E4 in Hv2; clear E4).
    injection H as <- <-. done.
Qed.

Context (pol : policy) (forkret_addr : Z).

Lemma alloc_slot_mem (v v' : pst (pmem * F)) o : alloc_slot pol v = Ret o v' ->
  mview v' = mview v /\ forall j, o = Some j -> (j < length (ptab v))%nat.
Proof.
  unfold alloc_slot. intros H. apply bind_Ret_inv in H as (? & v1 & E1 & H). pose proof (acquire_mview _ _ _ E1) as M1. apply acquire_kv in E1 as [_ P1].
  apply bind_Ret_inv in H as (w & ? & E & H). injection E as <- <-. rewrite P1 in H. destruct (find_slot _ _) as [j|] eqn:Ef.
  - apply bind_Ret_inv in H as (? & v2 & E2 & H). apply pupd_mview in E2; [|intros q; unfold alloc_init, mlfq_reset; by destruct pol].
    apply bind_Ret_inv in H as (? & v3 & E3 & H). injection E3 as _ <-. apply bind_Ret_inv in H as (? & v4 & E4%release_mview & H). injection H as <- <-.
    split; [rewrite E4, <-M1, <-E2; done|]. intros k [= <-]. apply find_slot_Some in Ef as (q & Hq & _). by eapply lookup_lt_Some.
  - apply bind_Ret_inv in H as (? & v4 & E4%release_mview & H). injection H as <- <-. split; [congruence|done].
Qed.

Lemma alloc_kstack_mem j (v v' : pst (pmem * F)) o : alloc_kstack forkret_addr j v = Ret o v' ->
  exists a s, kalloc (fst (other v)) = Ret a s /\
    if ptr a =? 0 then o = None /\ fst (other v') = s
    else o = Some j /\ mview v' = (s, alter (λ '(d, _, z), (d, ptr a, z)) j (vm_of <$> ptab v)).
Proof.
  unfold alloc_kstack. intros H. apply bind_Ret_inv in H as (k & v1 & E & H). apply ext_mem in E as (a & s & Ea & -> & M1 & P1). exists a, s. split; [done|].
  apply bind_Ret_inv in H as (? & ? & E & H). injection E as _ <-. destruct (ptr a =? 0); apply bind_Ret_inv in H as (? & ? & E & H); injection E as _ <-; injection H as <- <-.
  - split; [done|]. unfold mview in M1. cbn. congruence.
  - split; [done|]. unfold mview in *. cbn. rewrite P1, list_alter_alter_eq. f_equal; [congruence|]. by apply alter_vm.
Qed.

Lemma publish_mview j (v v' : pst (pmem * F)) u : publish j v = Ret u v' -> mview v' = mview v.
Proof.
  unfold publish. intros H. apply bind_Ret_inv in H as (? & ? & E1%acquire_mview & H). apply bind_Ret_inv in H as (? & ? & E2 & E3%release_mview).
  apply pupd_mview in E2; [congruence|]. reflexivity.
Qed.

Hypothesis Hkend : KERNBASE < kend.
Context (kd : Z).
Hypothesis Hkdata : kdata = PGSIZE * kd.
Hypothesis Hkd : 0x80100 < kd < 0x8E000.

Lemma ptr_va n : valid kend n -> (ptr (Some (va_of n)) =? 0) = false.
Proof. intros Hv. apply Z.eqb_neq. by apply (va_of_nz kend). Qed.

Lemma fork_held s d k l : as_ok kend s d [] l -> valid kend k -> k ∉ l -> ~ owns (pg s) d k -> as_ok kend s d [k] l.
Proof.
  intros Ha Hv Hl Ho. destruct Ha. constructor; try done; [|apply NoDup_singleton]. intros n ->%list_elem_of_singleton. done.
Qed.

Lemma fork_slots i j k p (v v1 : pst (pmem * F)) : ptab v !! i = Some p -> (j < length (ptab v))%nat ->
  vm_of <$> ptab v1 = alter (λ '(d, _, z), (d, va_of k, z)) j (vm_of <$> ptab v) ->
  exists pi qj, ptab v1 !! i = Some pi /\ ptab v1 !! j = Some qj /\ pgdir pi = pgdir p /\ sz pi = sz p /\ kstack qj = va_of k.
Proof.
  intros Hp Hj P1. assert (forall x, vm_of <$> (ptab v1 !! x) = (alter (λ '(d, _, z), (d, va_of k, z)) j (vm_of <$> ptab v)) !! x) as Hx by (intros x; by rewrite <-P1, list_lookup_fmap).
  destruct (lookup_lt_is_Some_2 _ _ Hj) as [q Hq]. pose proof (Hx i) as Hxi. pose proof (Hx j) as Hxj.
  rewrite list_lookup_alter, !list_lookup_fmap, Hp, ?Hq in Hxi. rewrite list_lookup_alter, decide_True, list_lookup_fmap, Hq in Hxj by done.
  destruct (ptab v1 !! j) as [qj|]; [|done]. destruct (ptab v1 !! i) as [pi|] eqn:Ei; [|by case_decide; simplify_eq/=]. exists pi, qj.
  unfold vm_of in *. case_decide; simplify_eq/=; split_and!; congruence.
Qed.

Lemma fork_kalloc s dp l a s1 : as_ok kend s dp [] l -> kalloc s = Ret a s1 ->
  if ptr a =? 0 then s1 = s else exists k l1, a = Some (va_of k) /\ l = k :: l1 /\ pg s1 = pg s /\ as_ok kend s1 dp [k] l1.
Proof.
  intros Ha E. pattern a, s1. eapply wp_value; [|exact E]. eapply (R_kalloc kend Hkend); [apply Ha|]. destruct l as [|k l]; [done|]. intros s' Em Hs'.
  assert (valid kend k) as Hv by (eapply fl_rep_valid; [apply (ao_pm _ _ _ _ _ Ha)|constructor]). rewrite ptr_va by done.
  exists k, l. split_and!; [done..|]. by apply (astep_kalloc kend (λ _, False) dp s [] k l s' Ha Em Hs').
Qed.

Lemma fork_copy s1 dp k l1 z b s2 : as_ok kend s1 dp [k] l1 -> 0 <= z <= KERNBASE -> (forall w, 0 <= w < page_up z -> user (pg s1) dp w) ->
  copyuvm kend kdata (va_of dp) z s1 = Ret b s2 ->
  (forall n, n ∉ l1 -> pg s2 n = pg s1 n) /\
  if ptr b =? 0 then forall s3, kfree kend (va_of k) s2 = Ret tt s3 -> exists l', pm_ok kend s3 l' /\ (forall n, n ∈ l' <-> n = k \/ n ∈ l1) /\ (forall n, n <> k -> pg s3 n = pg s2 n)
  else exists d l', b = Some (va_of d) /\ as_ok kend s2 d [k] l' /\ (forall n, owns (pg s2) d n \/ n = k \/ n ∈ l' <-> n = k \/ n ∈ l1) /\
    forall w, 0 <= w < page_up z -> copied (pg s1) (pg s2) dp d w.
Proof.
  intros Ha Hz Hus E. destruct (ao_held _ _ _ _ _ Ha k ltac:(constructor)) as (Hvk & Hkl & _). pattern b, s2. eapply wp_value; [|exact E].
  eapply (R_copyuvm kend kdata Hkend kd Hkdata Hkd); [exact Ha|done|done|..].
  - intros d s' l' [Ha' Hall Hf] _ Hc. setoid_rewrite elem_of_nil in Hall. split; [done|].
    rewrite ptr_va by (by destruct (pt_dir _ _ _ _ (ao_pt _ _ _ _ _ Ha'))). exists d, l'. pose proof (Hall k) as Hk.
    split_and!; [done|apply fork_held; tauto|intros n; rewrite <-Hall; tauto|].
    intros w Hw. pose proof (page_up_top z ltac:(lia)). specialize (Hc w ltac:(lia)). by rewrite decide_True in Hc by lia.
  - intros s' l' Hs' Hl' Hm'. split; [done|]. cbn [ptr default Z.eqb]. intros s3 E3. pattern tt, s3. eapply wp_value; [|exact E3].
    eapply (R_kfree kend Hkend); [exact Hs'|done|by rewrite Hl'|]. intros s4 Hs4 Hm4. exists (k :: l'). split_and!; [done| |done].
    intros n. rewrite elem_of_cons, Hl'. done.
Qed.

(** C11: fork on the memory system of vm.c and kalloc.c: when it succeeds, the child
    has a kernel stack and an address space of its own whose user pages hold
    the parent's contents with the parent's permissions, all made of pages that
    were free; when it fails every page is free again.  In neither case does a
    page change that was not free, so the memory of the parent and of every other
    process stays as it was. *)
Theorem fork_isolates uname i p dp l (v v' : pst (pmem * F)) r (Hcur : cur v = Some i) (Hp : ptab v !! i = Some p) (Hpg : pgdir p = va_of dp)
  (Ha : as_ok kend (fst (other v)) dp [] l) (Hsz : 0 <= sz p <= KERNBASE) (Hus : forall w, 0 <= w < page_up (sz p) -> user (pg (fst (other v))) dp w)
  (H : fork_with pol forkret_addr uname v = Ret r v') (m := pg (fst (other v))) (m' := pg (fst (other v'))) :
  (forall n, n ∉ l -> m' n = m n) /\ exists l',
    (r = -1 /\ pm_ok kend (fst (other v')) l' /\ forall n, n ∈ l' <-> n ∈ l) \/
    (exists j d k, (vm_of <$> ptab v') !! j = Some (va_of d, va_of k, sz p) /\ as_ok kend (fst (other v')) d [k] l' /\
       (forall n, owns m' d n \/ n = k \/ n ∈ l' <-> n ∈ l) /\ forall w, 0 <= w < page_up (sz p) -> copied m m' dp d w).
Proof.
  unfold fork_with in H. apply bind_Ret_inv in H as (i' & v0 & [-> Hi]%myproc_inv & H). assert (i' = i) as -> by congruence.
  apply bind_Ret_inv in H as (o & v1 & Hal & H). unfold allocproc in Hal. apply bind_Ret_inv in Hal as (o0 & v2 & [M2 Hj]%alloc_slot_mem & Hal).
  assert (fst (other v2) = fst (other v)) as F2 by (unfold mview in M2; congruence).
  assert (vm_of <$> ptab v2 = vm_of <$> ptab v) as P2 by (unfold mview in M2; congruence).
  destruct o0 as [j|]; cycle 1.
  { injection Hal as <- <-. injection H as <- <-. unfold m'. rewrite F2. split; [done|]. exists l. left. split_and!; [done|apply Ha|done]. }
  specialize (Hj j eq_refl). apply alloc_kstack_mem in Hal as (a & s1 & Ek & Hal). rewrite F2 in Ek. pose proof (fork_kalloc _ _ _ _ _ Ha Ek) as Hk.
  destruct (ptr a =? 0) eqn:Ea.
  { destruct Hal as [-> F1]. injection H as <- <-. unfold m'. rewrite F1, Hk. split; [done|]. exists l. left. split_and!; [done|apply Ha|done]. }
  destruct Hal as [-> M1], Hk as (k & l1 & -> & -> & Em & Ha1). rewrite P2 in M1.
  assert (fst (other v1) = s1) as F1 by (unfold mview in M1; congruence).
  assert (vm_of <$> ptab v1 = alter (λ '(d, _, z), (d, va_of k, z)) j (vm_of <$> ptab v)) as P1 by (unfold mview in M1; cbn in M1; congruence).
  destruct (fork_slots i j k p v v1 Hp Hj P1) as (pi & qj & Hpi & Hqj & Ei & Es & Eq).
  apply bind_Ret_inv in H as (ok & v3 & Hb & H). apply fork_body_mem in Hb as (b & s2 & Ec & Hb). rewrite Hpi in Ec, Hb. rewrite Hqj in Hb.
  change (default proc_zero (Some pi)) with pi in *. change (default proc_zero (Some qj)) with qj in *.
  rewrite F1, Ei, Es, Hpg in Ec. destruct (fork_copy s1 dp k l1 (sz p) b s2 Ha1 Hsz) as [Hf Hc]; [by rewrite Em|done|]. rewrite Em in Hf, Hc.
  destruct (ptr b =? 0) eqn:Eb.
  - destruct Hb as (-> & s3 & E3 & F3). injection H as <- <-. rewrite Eq in E3. destruct (Hc s3 E3) as (l' & Hs3 & Hl' & Hm3).
    change (fst (other v3) = s3) in F3. unfold m'. rewrite F3. split; [intros n [Hn1 Hn2]%not_elem_of_cons; by rewrite Hm3, Hf|].
    exists l'. left. split_and!; [done|done|]. intros n. rewrite Hl', elem_of_cons. done.
  - destruct Hb as (-> & M3), Hc as (d & l' & -> & Ha2 & Hall & Hcp). apply bind_Ret_inv in H as (np & ? & E & H). injection E as <- <-.
    apply bind_Ret_inv in H as (? & v4 & M4%publish_mview & H). injection H as <- <-. rewrite M3 in M4.
    assert (fst (other v4) = s2) as F4 by (unfold mview in M4; congruence). unfold m'. rewrite F4.
    split; [intros n [Hn1 Hn2]%not_elem_of_cons; by apply Hf|]. exists l'. right. exists j, d, k. split_and!; [|done| |done].
    + assert (vm_of <$> ptab v4 = alter (λ '(_, k, _), (va_of d, k, sz pi)) j (vm_of <$> ptab v1)) as -> by (unfold mview in M4; cbn in M4; congruence).
      rewrite list_lookup_alter, decide_True, list_lookup_fmap, Hqj by done. cbn. by rewrite Eq, Es.
    + intros n. rewrite Hall, elem_of_cons. done.
Qed.
End fork_vm.
