(* ===== verification/VmDemo.v ===== *)
(** * A small machine for the virtual-memory theorems

    A few pages after the kernel, an empty directory in one of them and a
    process of one page: states that satisfy the hypotheses of the theorems
    on vm.c. *)

From S2P Require Import Prelude CString Block BlockLayer ProcDefs.
From S2P Require Import VmDefs Kalloc Vm AddrSpace CopyVm UserMem ForkVm.

(** ** A small machine *)

Definition run_state {A} (m : M pmem A) (s : pmem) : pmem := match m s with Ret _ s' => s' | _ => s end.

Lemma wp_run {A} (m : M pmem A) (Q : A -> pmem -> Prop) s : wp m Q s -> exists a, m s = Ret a (run_state m s) /\ Q a (run_state m s).
Proof. unfold wp, run_state. destruct (m s) as [a s'| |]; [|done..]. by exists a. Qed.

Definition kend0 : Z := va_of 0x200.
Definition blank : pmem := mkPm (λ _, replicate 4096 0) 0 false false.
(** [n] pages after the kernel, the last of them taken for a directory [dir n]. *)
Definition dir (n : nat) : Z := 0x200 + Z.of_nat n - 1.
Definition boot (n : nat) : pmem := run_state (freerange_loop kend0 (S n) (va_of 0x200) (va_of (0x200 + Z.of_nat n))) blank.
Definition pages (n : nat) : list Z := reverse (seqZ 0x200 (Z.of_nat n - 1)).
Definition dir_mem (n : nat) : pmem := run_state (kalloc ;; fill (va_of (dir n)) 0) (boot n).
Definition one_page (n : nat) : pmem := run_state (allocuvm kend0 (va_of (dir n)) 0 4096) (dir_mem n).

Lemma boot_ok n : (0 < n <= 16)%nat -> pm_ok kend0 (boot n) (dir n :: pages n).
Proof.
  intros Hn. edestruct (wp_run (freerange_loop kend0 (S n) (va_of 0x200) (va_of (0x200 + Z.of_nat n)))
    (λ _ s, pm_ok kend0 s (reverse (seqZ 0x200 (0x200 + Z.of_nat n - 0x200)) ++ [])) blank) as (a & _ & H).
  - eapply (R_freerange_loop kend0 ltac:(done) (S n) blank []); [|..|lia|lia|lia|lia|done].
    + constructor; [done|done|constructor|]. intros x. apply length_replicate.
    + intros x Hx. split; [unfold valid, kend0, va_of, PGSIZE; lia|apply not_elem_of_nil].
  - replace (dir n :: pages n) with (reverse (seqZ 0x200 (0x200 + Z.of_nat n - 0x200)) ++ []); [exact H|]. unfold pages, dir. rewrite app_nil_r.
    replace (0x200 + Z.of_nat n - 0x200) with (Z.of_nat n - 1 + 1) by lia. rewrite (seqZ_app 512 (Z.of_nat n - 1) 1), reverse_app by lia.
    change (reverse (seqZ (512 + (Z.of_nat n - 1)) 1)) with [512 + (Z.of_nat n - 1)]. cbn [app]. f_equal. lia.
Qed.

Lemma dir_valid n : (0 < n <= 16)%nat -> valid kend0 (dir n).
Proof. intros Hn. unfold valid, kend0, va_of, dir, PGSIZE. lia. Qed.

Lemma dir_mem_ok n : (0 < n <= 16)%nat -> as_ok kend0 (dir_mem n) (dir n) [] (pages n) /\ forall w, 0 <= w < 2 ^ 20 -> leaf (pg (dir_mem n)) (dir n) w = 0.
Proof.
  intros Hn. edestruct (wp_run (kalloc ;; fill (va_of (dir n)) 0)
    (λ _ s, as_ok kend0 s (dir n) [] (pages n) /\ forall w, 0 <= w < 2 ^ 20 -> leaf (pg s) (dir n) w = 0) (boot n)) as (a & _ & H); [|exact H].
  apply wp_bind. eapply (R_kalloc kend0 ltac:(done)); [by apply boot_ok|]. intros s1 Em Hs1. pose proof (pk_nodup _ _ _ (boot_ok n Hn)) as [Hd _]%NoDup_cons.
  apply R_fill; [unfold dir; lia|]. set (s2 := mkPm _ _ _ _). destruct (fresh_dir kend0 s2 (dir n) (pages n)) as (H1 & _ & H2); [| |exact Hd|apply upd_eq|exact (conj H1 H2)].
  - destruct Hs1 as [H1 H2 H3 H4]. constructor; cbn [klk pg freelist s2]; [exact H1| |exact H3|].
    + eapply fl_rep_frame; [|exact H2]. intros x Hx. apply upd_ne. intros ->. exact (Hd Hx).
    + intros x. unfold upd. case_decide; [apply length_replicate|apply H4].
  - by apply dir_valid.
Qed.

Lemma one_page_ok n : (0 < n <= 16)%nat ->
  match allocuvm kend0 (va_of (dir n)) 0 4096 (dir_mem n) with Ret r _ => r =? 4096 | _ => false end = true ->
  exists l, as_ok kend0 (one_page n) (dir n) [] l /\ user (pg (one_page n)) (dir n) 0.
Proof.
  intros Hn Hrun. destruct (dir_mem_ok n Hn) as [Ha Hl]. edestruct (wp_run (allocuvm kend0 (va_of (dir n)) 0 4096)
    (λ r s, r = 4096 -> exists l, as_ok kend0 s (dir n) [] l /\ user (pg s) (dir n) 0) (dir_mem n)) as (r & Er & H).
  - unfold allocuvm. cbn [Z.leb Z.ltb Z.compare KERNBASE]. change (PGROUNDUP 0) with (PGSIZE * 0).
    eapply (R_alloc_loop kend0 ltac:(done) (dir n) 0 4096); [lia|unfold KERNBASE; lia|exact Ha|done|done|..|].
    + intros w Hw. rewrite Hl; [done|]. change (page_up 4096) with 1 in Hw. lia.
    + intros s' l' St Hz _. exists l'. split; [apply St|apply Hz]. done.
    + intros s' l' _ _ [=].
  - apply H. rewrite Er in Hrun. by apply Z.eqb_eq.
Qed.

Lemma one_page_16 : exists l, as_ok kend0 (one_page 16) (dir 16) [] l /\ user (pg (one_page 16)) (dir 16) 0.
Proof. apply one_page_ok; [lia|]. vm_compute. reflexivity. Qed.

Lemma one_page_5 : exists l, as_ok kend0 (one_page 5) (dir 5) [] l /\ user (pg (one_page 5)) (dir 5) 0.
Proof. apply one_page_ok; [lia|]. vm_compute. reflexivity. Qed.

Lemma mappages_spec_witness : exists n, wp (mappages (va_of (dir 16)) 5000 8192 (PGSIZE * 7) 6) (λ r s', r = 0 -> leaf (pg s') (dir 16) 3 = PGSIZE * 9 + n) (dir_mem 16).
Proof.
  exists 7. destruct (dir_mem_ok 16 ltac:(lia)) as [Ha Hl]. eapply wp_mono.
  - apply (mappages_spec kend0 ltac:(done) (dir_mem 16) (pages 16) (dir 16) 5000 8192 7 6); [done|apply Ha|apply Ha|lia|lia|lia|lia|done|].
    intros w Hw. change (5000 / PGSIZE) with 1 in Hw. change ((5000 + 8192 - 1) / PGSIZE) with 3 in Hw. rewrite Hl by lia. done.
  - intros r s' (k & l' & _ & _ & Hlf & [[_ Hk]|[-> _]]); [|done]. intros _. change (k = 3) in Hk. subst k. rewrite Hlf by lia. reflexivity.
Defined.

Lemma allocuvm_spec_witness : wp (allocuvm kend0 (va_of (dir 16)) 0 8192) (λ r s', r = 8192 -> zeroed (pg s') (dir 16) 1) (dir_mem 16).
Proof.
  destruct (dir_mem_ok 16 ltac:(lia)) as [Ha Hl]. eapply wp_mono.
  - apply (allocuvm_spec kend0 ltac:(done) (dir 16) (dir_mem 16) (pages 16) 0 8192); [exact Ha|lia|]. change (page_up 8192) with 2. change (page_up 0) with 0.
    intros w Hw. rewrite Hl by lia. done.
  - intros r s' (l' & _ & [[_ Hz]|[-> _]]); [|done]. intros _. apply Hz. done.
Defined.

Lemma freevm_returns_all_witness : wp (freevm kend0 (va_of (dir 16))) (λ _ s', exists l', pm_ok kend0 s' l' /\ frame (pg (one_page 16)) (dir 16) 0 ∈ l') (one_page 16).
Proof.
  destruct one_page_16 as (l & Ha & Hu). eapply wp_mono; [exact (freevm_returns_all kend0 ltac:(done) (one_page 16) (dir 16) l Ha)|].
  intros _ s' (l' & Hs' & Hl' & _). exists l'. split; [exact Hs'|]. apply Hl'. right. right. exists 0. split; [exact Hu|reflexivity].
Defined.

Lemma copyuvm_isolated_witness : wp (copyuvm kend0 (PGSIZE * 0x80108) (va_of (dir 16)) 4096) (λ r s', match r with
    | Some v => exists d, v = va_of d /\ copied (pg (one_page 16)) (pg s') (dir 16) d 0
    | None => pg s' (frame (pg (one_page 16)) (dir 16) 0) = pg (one_page 16) (frame (pg (one_page 16)) (dir 16) 0)
    end) (one_page 16).
Proof.
  destruct one_page_16 as (l & Ha & Hu). eapply wp_mono.
  - apply (copyuvm_isolated kend0 (PGSIZE * 0x80108) ltac:(done) 0x80108 eq_refl ltac:(lia) (one_page 16) (dir 16) l 4096); [exact Ha|unfold KERNBASE; lia|].
    change (page_up 4096) with 1. intros w Hw. replace w with 0 by lia. exact Hu.
  - intros [v|] s' [Hm (l' & H)].
    + destruct H as (d & Hv & _ & _ & _ & _ & Hc). exists d. split; [exact Hv|]. exact (Hc 0 ltac:(unfold USERTOP; lia)).
    + apply Hm. apply (ao_frame _ _ _ _ _ Ha 0 Hu).
Defined.

Lemma copyout_null_entry_witness : wp (copyout (PGSIZE * 0x100 + 7) (va_of (dir 16)) (PGSIZE * 0x90000) [1; 2] 2)
  (λ r s', r = 0 /\ pg s' 0x100 = splice 0 [1; 2] (pg (dir_mem 16) 0x100)) (dir_mem 16).
Proof.
  destruct (dir_mem_ok 16 ltac:(lia)) as [Ha _]. eapply wp_mono.
  - apply (copyout_null_entry kend0 (PGSIZE * 0x100 + 7) ltac:(done) (dir 16) (dir_mem 16) (pages 16) 0x90000 0x100 [1; 2] Ha);
      [lia|vm_compute; reflexivity|reflexivity|discriminate|lia|reflexivity|cbn; lia].
  - intros r s' [-> ->]. split; [reflexivity|]. apply upd_eq.
Defined.

(** ** fork when memory for the page tables of the child is missing *)

#[local] Instance no_files : FileServices unit := {|
  fv_filedup f := mret f; fv_fileclose _ := mret tt; fv_idup i := mret i; fv_iput _ := mret tt;
  fv_begin_op := mret tt; fv_end_op := mret tt; fv_namei_root := mret (Some 0%nat)
|}.

Definition parent_proc : proc := set_cwd (Some 0%nat) (set_sz 4096 (set_pgdir (va_of (dir 5)) (set_pid 1 (set_state RUNNING proc_zero)))).
Definition fork_start : pst (pmem * unit) := mkPst [parent_proc; proc_zero] false (Some 0%nat) 2 (Some 0%nat) true 0 true (one_page 5, tt).
#[local] Abbreviation do_fork := (fork_with (SV := vm_services kend0 (PGSIZE * 0x80108) []) RoundRobin 100 id).

Lemma fork_runs : match do_fork fork_start with Ret r _ => r =? -1 | _ => false end = true.
Proof. vm_compute. reflexivity. Qed.

#[local] Opaque one_page run_state.

Lemma fork_isolates_witness : exists r v', do_fork fork_start = Ret r v' /\
  pg (fst (other v')) (frame (pg (one_page 5)) (dir 5) 0) = pg (one_page 5) (frame (pg (one_page 5)) (dir 5) 0).
Proof.
  pose proof fork_runs as Hr. destruct (do_fork fork_start) as [r v'| |] eqn:E; [|discriminate Hr..]. exists r, v'. split; [reflexivity|].
  destruct one_page_5 as (l & Ha & Hu).
  destruct (fork_isolates kend0 (PGSIZE * 0x80108) [] RoundRobin 100 ltac:(done) 0x80108 eq_refl ltac:(lia) id 0%nat parent_proc (dir 5) l fork_start v' r eq_refl eq_refl eq_refl Ha) as [Hm _];
    [cbn; unfold KERNBASE; lia| |exact E|].
  - change (page_up (sz parent_proc)) with 1. intros w Hw. replace w with 0 by lia. exact Hu.
  - change (fst (other fork_start)) with (one_page 5) in Hm. exact (Hm _ (proj1 (proj2 (ao_frame _ _ _ _ _ Ha 0 Hu)))).
Defined.
