(* ===== verification/FsDefs.v ===== *)
(** * The file system (fs.c): blocks, inodes, directories and paths

    The operations run on the log ([Log.v]), the in-memory superblock and the
    inode cache; an inode pointer is the index of its entry in the cache.  The
    running process is given by its pid, its user name and its current
    directory.  Loops carry fuel that their bounds make sufficient. *)

From S2P Require Import Prelude CString Sleeplock Block BlockLayer Log.

Definition ROOTDEV : Z := 1.
Definition ROOTINO : Z := 1.
Definition NINODE : nat := 50.
Definition NDEV : Z := 10.
Definition NDIRECT : nat := 7.
Definition NINDIRECT : nat := 128.
Definition MAXFILE : Z := 135.
Definition DIRSIZ : nat := 14.
Definition IPB : Z := 8.
Definition BPB : Z := 4096.
Definition BSZ : Z := 512.
Definition T_DIR : Z := 1.
Definition T_FILE : Z := 2.
Definition T_DEV : Z := 3.
Definition MODE_RUSR : Z := 32.
Definition MODE_WUSR : Z := 16.
Definition MODE_XUSR : Z := 8.
Definition MODE_ROTH : Z := 4.
Definition MODE_WOTH : Z := 2.
Definition MODE_XOTH : Z := 1.

Definition s16 (x : Z) : Z := let y := x mod 2 ^ 16 in if y <? 2 ^ 15 then y else y - 2 ^ 16.
Definition root_name : list Z := bytes_of "root".

(** struct inode *)
Record inode := mkInode {
  i_dev : Z; i_inum : Z; i_ref : Z; i_lock : sleeplock; i_valid : bool;
  i_type : Z; i_major : Z; i_minor : Z; i_nlink : Z; i_size : Z;
  i_addrs : list Z; i_user : list Z; i_mode : Z
}.
Definition inode0 : inode :=
  mkInode 0 0 0 initsleeplock false 0 0 0 0 0 (replicate 8 0) (replicate 16 0) 0.

Definition set_i_ref (r : Z) (i : inode) := mkInode (i_dev i) (i_inum i) r (i_lock i) (i_valid i) (i_type i) (i_major i) (i_minor i) (i_nlink i) (i_size i) (i_addrs i) (i_user i) (i_mode i).
Definition set_i_lock (l : sleeplock) (i : inode) := mkInode (i_dev i) (i_inum i) (i_ref i) l (i_valid i) (i_type i) (i_major i) (i_minor i) (i_nlink i) (i_size i) (i_addrs i) (i_user i) (i_mode i).
Definition set_i_valid (v : bool) (i : inode) := mkInode (i_dev i) (i_inum i) (i_ref i) (i_lock i) v (i_type i) (i_major i) (i_minor i) (i_nlink i) (i_size i) (i_addrs i) (i_user i) (i_mode i).
Definition set_i_type (t : Z) (i : inode) := mkInode (i_dev i) (i_inum i) (i_ref i) (i_lock i) (i_valid i) t (i_major i) (i_minor i) (i_nlink i) (i_size i) (i_addrs i) (i_user i) (i_mode i).
Definition set_i_nlink (n : Z) (i : inode) := mkInode (i_dev i) (i_inum i) (i_ref i) (i_lock i) (i_valid i) (i_type i) (i_major i) (i_minor i) n (i_size i) (i_addrs i) (i_user i) (i_mode i).
Definition set_i_size (n : Z) (i : inode) := mkInode (i_dev i) (i_inum i) (i_ref i) (i_lock i) (i_valid i) (i_type i) (i_major i) (i_minor i) (i_nlink i) n (i_addrs i) (i_user i) (i_mode i).
Definition set_i_addrs (a : list Z) (i : inode) := mkInode (i_dev i) (i_inum i) (i_ref i) (i_lock i) (i_valid i) (i_type i) (i_major i) (i_minor i) (i_nlink i) (i_size i) a (i_user i) (i_mode i).
Definition set_i_major_minor (a b : Z) (i : inode) := mkInode (i_dev i) (i_inum i) (i_ref i) (i_lock i) (i_valid i) (i_type i) a b (i_nlink i) (i_size i) (i_addrs i) (i_user i) (i_mode i).
Definition set_i_user (u : list Z) (i : inode) := mkInode (i_dev i) (i_inum i) (i_ref i) (i_lock i) (i_valid i) (i_type i) (i_major i) (i_minor i) (i_nlink i) (i_size i) (i_addrs i) u (i_mode i).
Definition set_i_mode (m : Z) (i : inode) := mkInode (i_dev i) (i_inum i) (i_ref i) (i_lock i) (i_valid i) (i_type i) (i_major i) (i_minor i) (i_nlink i) (i_size i) (i_addrs i) (i_user i) m.

(** ** struct dinode: 64 bytes, type 0, major 2, minor 4, nlink 6, size 8,
    addrs 12, id 44, mode 60 *)

Definition dip_off (inum : Z) : nat := Z.to_nat (64 * (inum mod IPB)).

Fixpoint le_words (l : list Z) : list Z := match l with [] => [] | x :: l' => le_bytes 4 x ++ le_words l' end.
Definition put_words (o : nat) (l : list Z) (b : block) : block := splice o (le_words l) b.
Definition get_words (o n : nat) (b : block) : list Z := (λ k, get32 b (o + 4 * k)) <$> seq 0 n.

(** The stores of iupdate. *)
Definition dip_store (o : nat) (i : inode) (b : block) : block :=
  let b := put16 b o (i_type i) in
  let b := put16 b (o + 2) (i_major i) in
  let b := put16 b (o + 4) (i_minor i) in
  let b := put16 b (o + 6) (i_nlink i) in
  let b := put32 b (o + 8) (i_size i) in
  let b := splice (o + 44) (strncpy (slice (o + 44) 16 b) (i_user i) 16) b in
  let b := put32 b (o + 60) (i_mode i) in
  put_words (o + 12) (i_addrs i) b.

(** The loads of ilock. *)
Definition dip_load (o : nat) (b : block) (i : inode) : inode :=
  mkInode (i_dev i) (i_inum i) (i_ref i) (i_lock i) (i_valid i)
    (s16 (get16 b o)) (s16 (get16 b (o + 2))) (s16 (get16 b (o + 4))) (s16 (get16 b (o + 6)))
    (get32 b (o + 8)) (get_words (o + 12) 8 b)
    (strncpy (i_user i) (slice (o + 44) 16 b) 16) (get32 b (o + 60)).

(** ialloc's stores: the mode a new inode of each type gets, and its owner. *)
Definition mode_of_type (t : Z) : Z :=
  if t =? T_FILE then Z.lor (Z.lor MODE_RUSR MODE_WUSR) MODE_ROTH
  else if t =? T_DIR then Z.lor (Z.lor (Z.lor (Z.lor MODE_RUSR MODE_WUSR) MODE_XUSR) MODE_ROTH) MODE_XOTH
  else if t =? T_DEV then Z.lor (Z.lor (Z.lor (Z.lor (Z.lor MODE_RUSR MODE_WUSR) MODE_XUSR) MODE_ROTH) MODE_WOTH) MODE_XOTH
  else 0.
Definition dip_new (o : nat) (type : Z) (b : block) : block :=
  let b := splice o (replicate 64 0) b in
  let b := put16 b o type in
  let b := put32 b (o + 60) (mode_of_type (s16 type)) in
  splice (o + 44) (safestrcpy (slice (o + 44) 16 b) root_name 16) b.

Section fs.
Context {St : Type} `{BL : BlockLayer St}.

Record fsst := mkFs { fl : lst St; sb : superblock; ic : list inode; iclk : bool }.

(** The read and write functions of devsw, and the pid of the running process. *)
Context (dev_read : Z -> option (nat -> Z -> M fsst (Z * list Z))).
Context (dev_write : Z -> option (nat -> list Z -> Z -> M fsst Z)).
Context (mypid : Z).

Definition on_log {A} (m : M (lst St) A) : M fsst A := zoom fl (λ l s, mkFs l (sb s) (ic s) (iclk s)) m.

(** Only device 1 is a disk: iderw panics on any other. *)
Definition fs_bread (dev b : Z) : M fsst nat :=
  if dev =? 1 then on_log (on_blocks (bl_bread b)) else panic "iderw: request not for disk 1".
Definition fs_data (bp : nat) : M fsst block := on_log (on_blocks (bl_data bp)).
Definition fs_set (bp : nat) (d : block) : M fsst unit := on_log (on_blocks (bl_set bp d)).
Definition fs_brelse (bp : nat) : M fsst unit := on_log (on_blocks (bl_brelse bp)).
Definition fs_log_write (bp : nat) : M fsst unit := on_log (log_write bp).

Definition acquire_ic : M fsst unit :=
  s ← get; if iclk s then panic "acquire" else put (mkFs (fl s) (sb s) (ic s) true).
Definition release_ic : M fsst unit :=
  s ← get; if negb (iclk s) then panic "release" else put (mkFs (fl s) (sb s) (ic s) false).

Definition ip_get (ip : nat) : M fsst inode := gets (λ s, default inode0 (ic s !! ip)).
Definition ip_upd (ip : nat) (f : inode -> inode) : M fsst unit :=
  modify (λ s, mkFs (fl s) (sb s) (alter f ip (ic s)) (iclk s)).
Definition ip_on_lock {A} (ip : nat) (m : M sleeplock A) : M fsst A :=
  zoom (λ s, i_lock (default inode0 (ic s !! ip)))
    (λ l s, mkFs (fl s) (sb s) (alter (set_i_lock l) ip (ic s)) (iclk s)) m.
Definition ip_acquiresleep (ip : nat) : M fsst unit := ip_on_lock ip (acquiresleep (Z.of_nat (NBUF + ip)) mypid).
Definition ip_releasesleep (ip : nat) : M fsst unit := ip_on_lock ip releasesleep.
Definition ip_holdingsleep (ip : nat) : M fsst bool := ip_on_lock ip (holdingsleep mypid).

(** ** Blocks *)

Definition fs_readsb : M fsst unit :=
  sbk ← on_log readsb; modify (λ s, mkFs (fl s) sbk (ic s) (iclk s)).
Definition iinit : M fsst unit :=
  modify (λ s, mkFs (fl s) (sb s) (set_i_lock initsleeplock <$> ic s) false) ;; fs_readsb.

Definition bzero (dev bno : Z) : M fsst unit :=
  bp ← fs_bread dev bno;
  fs_set bp (replicate BSIZE 0) ;; fs_log_write bp ;; fs_brelse bp.

Definition BBLOCK (b : Z) (sb : superblock) : Z := u32 (b / BPB + sb_bmapstart sb).
Definition IBLOCK (i : Z) (sb : superblock) : Z := u32 (i / IPB + sb_inodestart sb).

(** Bit [bi] of a bitmap block. *)
Definition bit_byte (d : list Z) (bi : Z) : Z := default 0 (d !! Z.to_nat (bi / 8)).
Definition bit_mask (bi : Z) : Z := Z.shiftl 1 (bi mod 8).
Definition bit_clear (d : block) (bi : Z) : bool := Z.land (bit_byte d bi) (bit_mask bi) =? 0.
Definition bit_mark (d : list Z) (bi : Z) : list Z :=
  <[Z.to_nat (bi / 8) := Z.lor (bit_byte d bi) (bit_mask bi)]> d.
Definition bit_unmark (d : list Z) (bi : Z) : list Z :=
  <[Z.to_nat (bi / 8) := Z.land (bit_byte d bi) (u8 (Z.lnot (bit_mask bi)))]> d.

(** The inner loop of balloc: the first clear bit from [bi] on. *)
Fixpoint free_bit (n : nat) (bi b size : Z) (d : block) : option Z :=
  match n with
  | O => None
  | S n' =>
      if (bi <? BPB) && (b + bi <? size) then
        if bit_clear d bi then Some bi else free_bit n' (bi + 1) b size d
      else None
  end.

Fixpoint balloc_from (n : nat) (dev b : Z) : M fsst Z :=
  match n with
  | O => panic "balloc: out of blocks"
  | S n' =>
      s ← get;
      if b <? sb_size (sb s) then
        bp ← fs_bread dev (BBLOCK b (sb s));
        d ← fs_data bp;
        match free_bit (Z.to_nat BPB) 0 b (sb_size (sb s)) d with
        | Some bi =>
            fs_set bp (bit_mark d bi) ;;
            fs_log_write bp ;;
            fs_brelse bp ;;
            bzero dev (b + bi) ;;
            mret (b + bi)
        | None => fs_brelse bp ;; balloc_from n' dev (b + BPB)
        end
      else panic "balloc: out of blocks"
  end.
Definition balloc (dev : Z) : M fsst Z :=
  s ← get; balloc_from (Z.to_nat (sb_size (sb s) / BPB) + 2) dev 0.

Definition bfree (dev b : Z) : M fsst unit :=
  s ← get;
  bp ← fs_bread dev (BBLOCK b (sb s));
  d ← fs_data bp;
  let bi := b mod BPB in
  if bit_clear d bi then panic "freeing free block"
  else fs_set bp (bit_unmark d bi) ;; fs_log_write bp ;; fs_brelse bp.

(** ** The inode cache *)

Definition is_cached (dev inum : Z) (i : inode) : bool := (0 <? i_ref i) && (i_dev i =? dev) && (i_inum i =? inum).
Definition find_inode (f : inode -> bool) (l : list inode) : option nat := fst <$> list_find (λ i, f i = true) l.

Definition iget (dev inum : Z) : M fsst nat :=
  acquire_ic ;;
  s ← get;
  match find_inode (is_cached dev inum) (ic s) with
  | Some ip => ip_upd ip (λ i, set_i_ref (s32 (i_ref i + 1)) i) ;; release_ic ;; mret ip
  | None =>
      match find_inode (λ i, i_ref i =? 0) (ic s) with
      | None => panic "iget: no inodes"
      | Some ip =>
          ip_upd ip (λ i, mkInode dev inum 1 (i_lock i) false (i_type i) (i_major i) (i_minor i) (i_nlink i)
            (i_size i) (i_addrs i) (i_user i) (i_mode i)) ;;
          release_ic ;; mret ip
      end
  end.

Definition idup (ip : nat) : M fsst nat :=
  acquire_ic ;; ip_upd ip (λ i, set_i_ref (s32 (i_ref i + 1)) i) ;; release_ic ;; mret ip.

Fixpoint ialloc_from (n : nat) (dev type inum : Z) : M fsst nat :=
  match n with
  | O => panic "ialloc: no inodes"
  | S n' =>
      s ← get;
      if inum <? sb_ninodes (sb s) then
        bp ← fs_bread dev (IBLOCK inum (sb s));
        d ← fs_data bp;
        if s16 (get16 d (dip_off inum)) =? 0 then
          fs_set bp (dip_new (dip_off inum) type d) ;;
          fs_log_write bp ;;
          fs_brelse bp ;;
          iget dev inum
        else fs_brelse bp ;; ialloc_from n' dev type (inum + 1)
      else panic "ialloc: no inodes"
  end.
Definition ialloc (dev type : Z) : M fsst nat :=
  s ← get; ialloc_from (Z.to_nat (sb_ninodes (sb s)) + 1) dev type 1.

Definition iupdate (ip : nat) : M fsst unit :=
  s ← get;
  i ← ip_get ip;
  bp ← fs_bread (i_dev i) (IBLOCK (i_inum i) (sb s));
  d ← fs_data bp;
  fs_set bp (dip_store (dip_off (i_inum i)) i d) ;;
  fs_log_write bp ;;
  fs_brelse bp.

Definition ilock (ip : nat) : M fsst unit :=
  i ← ip_get ip;
  if i_ref i <? 1 then panic "ilock"
  else
    ip_acquiresleep ip ;;
    i ← ip_get ip;
    if negb (i_valid i) then
      s ← get;
      bp ← fs_bread (i_dev i) (IBLOCK (i_inum i) (sb s));
      d ← fs_data bp;
      ip_upd ip (dip_load (dip_off (i_inum i)) d) ;;
      fs_brelse bp ;;
      ip_upd ip (set_i_valid true) ;;
      i ← ip_get ip;
      if i_type i =? 0 then panic "ilock: no type" else mret tt
    else mret tt.

Definition iunlock (ip : nat) : M fsst unit :=
  h ← ip_holdingsleep ip;
  i ← ip_get ip;
  if negb h || (i_ref i <? 1) then panic "iunlock" else ip_releasesleep ip.

(** ** Inode content *)

Definition addr_at (i : inode) (k : nat) : Z := default 0 (i_addrs i !! k).
Definition set_addr (k : nat) (a : Z) (i : inode) : inode := set_i_addrs (<[k := a]> (i_addrs i)) i.

Definition bmap (ip : nat) (bn : Z) : M fsst Z :=
  i ← ip_get ip;
  if bn <? Z.of_nat NDIRECT then
    if addr_at i (Z.to_nat bn) =? 0 then
      addr ← balloc (i_dev i);
      ip_upd ip (set_addr (Z.to_nat bn) addr) ;;
      mret addr
    else mret (addr_at i (Z.to_nat bn))
  else
    let bn := bn - Z.of_nat NDIRECT in
    if bn <? Z.of_nat NINDIRECT then
      addr ← (if addr_at i NDIRECT =? 0 then
                addr ← balloc (i_dev i); ip_upd ip (set_addr NDIRECT addr) ;; mret addr
              else mret (addr_at i NDIRECT));
      bp ← fs_bread (i_dev i) addr;
      d ← fs_data bp;
      let a := get32 d (4 * Z.to_nat bn) in
      addr ← (if a =? 0 then
                addr ← balloc (i_dev i);
                d ← fs_data bp;
                fs_set bp (put32 d (4 * Z.to_nat bn) addr) ;;
                fs_log_write bp ;;
                mret addr
              else mret a);
      fs_brelse bp ;;
      mret addr
    else panic "bmap: out of range".

(** The bodies of the two loops of itrunc. *)
Definition itrunc_direct (ip : nat) (k : nat) : M fsst unit :=
  i ← ip_get ip;
  when (negb (addr_at i k =? 0)) (bfree (i_dev i) (addr_at i k) ;; ip_upd ip (set_addr k 0)).
Definition itrunc_indirect (ip bp : nat) (j : nat) : M fsst unit :=
  i ← ip_get ip;
  d ← fs_data bp;
  when (negb (get32 d (4 * j) =? 0)) (bfree (i_dev i) (get32 d (4 * j))).

Definition itrunc (ip : nat) : M fsst unit :=
  for_range 0 NDIRECT (itrunc_direct ip) ;;
  i ← ip_get ip;
  when (negb (addr_at i NDIRECT =? 0)) (
    bp ← fs_bread (i_dev i) (addr_at i NDIRECT);
    for_range 0 NINDIRECT (itrunc_indirect ip bp) ;;
    fs_brelse bp ;;
    bfree (i_dev i) (addr_at i NDIRECT) ;;
    ip_upd ip (set_addr NDIRECT 0)) ;;
  ip_upd ip (set_i_size 0) ;;
  iupdate ip.

Definition iput (ip : nat) : M fsst unit :=
  ip_acquiresleep ip ;;
  i ← ip_get ip;
  when (i_valid i && (i_nlink i =? 0)) (
    acquire_ic ;;
    i ← ip_get ip;
    release_ic ;;
    when (i_ref i =? 1) (
      itrunc ip ;; ip_upd ip (set_i_type 0) ;; iupdate ip ;; ip_upd ip (set_i_valid false))) ;;
  ip_releasesleep ip ;;
  acquire_ic ;;
  ip_upd ip (λ i, set_i_ref (s32 (i_ref i - 1)) i) ;;
  release_ic.

Definition iunlockput (ip : nat) : M fsst unit := iunlock ip ;; iput ip.

(** struct stat *)
Record stat := mkStat { st_type : Z; st_dev : Z; st_ino : Z; st_nlink : Z; st_size : Z; st_id : list Z; st_mode : Z }.

(** The old [st->id] is the destination of strncpy. *)
Definition stati (ip : nat) (id0 : list Z) : M fsst stat :=
  i ← ip_get ip;
  mret (mkStat (i_type i) (i_dev i) (i_inum i) (i_nlink i) (i_size i) (strncpy id0 (i_user i) 16) (i_mode i)).

(** The chunk of a transfer at [off] with [n - tot] bytes to go. *)
Definition chunk (off n tot : Z) : Z := Z.min (n - tot) (BSZ - off mod BSZ).

Fixpoint readi_loop (fuel : nat) (ip : nat) (off n tot : Z) (dst : list Z) : M fsst (list Z) :=
  match fuel with
  | O => mret dst
  | S fuel' =>
      if tot <? n then
        i ← ip_get ip;
        addr ← bmap ip (off / BSZ);
        bp ← fs_bread (i_dev i) addr;
        let m := chunk off n tot in
        d ← fs_data bp;
        fs_brelse bp ;;
        readi_loop fuel' ip (off + m) n (tot + m) (dst ++ slice (Z.to_nat (off mod BSZ)) (Z.to_nat m) d)
      else mret dst
  end.

Definition xfer_fuel (n : Z) : nat := (Z.to_nat (n / BSZ) + 2)%nat.

(** The result and the bytes put at [dst]. *)
Definition readi (ip : nat) (off n : Z) : M fsst (Z * list Z) :=
  i ← ip_get ip;
  if i_type i =? T_DEV then
    if (i_major i <? 0) || (NDEV <=? i_major i) then mret (-1, [])
    else match dev_read (i_major i) with None => mret (-1, []) | Some rd => rd ip n end
  else if (i_size i <? off) || (u32 (off + n) <? off) then mret (-1, [])
  else
    let n := if i_size i <? u32 (off + n) then i_size i - off else n in
    dst ← readi_loop (xfer_fuel n) ip off n 0 [];
    mret (s32 n, dst).

(** Returns the final [off]. *)
Fixpoint writei_loop (fuel : nat) (ip : nat) (src : list Z) (off n tot : Z) : M fsst Z :=
  match fuel with
  | O => mret off
  | S fuel' =>
      if tot <? n then
        i ← ip_get ip;
        addr ← bmap ip (off / BSZ);
        bp ← fs_bread (i_dev i) addr;
        let m := chunk off n tot in
        d ← fs_data bp;
        fs_set bp (splice (Z.to_nat (off mod BSZ)) (take (Z.to_nat m) src) d) ;;
        fs_log_write bp ;;
        fs_brelse bp ;;
        writei_loop fuel' ip (drop (Z.to_nat m) src) (off + m) n (tot + m)
      else mret off
  end.

Definition writei (ip : nat) (src : list Z) (off n : Z) : M fsst Z :=
  i ← ip_get ip;
  if i_type i =? T_DEV then
    if (i_major i <? 0) || (NDEV <=? i_major i) then mret (-1)
    else match dev_write (i_major i) with None => mret (-1) | Some wr => wr ip src n end
  else if (i_size i <? off) || (u32 (off + n) <? off) then mret (-1)
  else if MAXFILE * BSZ <? u32 (off + n) then mret (-1)
  else
    off ← writei_loop (xfer_fuel n) ip src off n 0;
    i ← ip_get ip;
    when ((0 <? n) && (i_size i <? off)) (ip_upd ip (set_i_size off) ;; iupdate ip) ;;
    mret (s32 n).

(** ** Directories *)

Definition namecmp (s t : list Z) : Z := strncmp s t DIRSIZ.

(** struct dirent: a 16-bit inode number and 14 bytes of name. *)
Definition de_inum (de : list Z) : Z := le_val (take 2 de).
Definition de_name (de : list Z) : list Z := drop 2 de.
Definition mk_dirent (inum : Z) (name : list Z) : list Z := le_bytes 2 inum ++ strncpy (replicate DIRSIZ 0) name DIRSIZ.

Fixpoint dirlookup_from (fuel : nat) (dp : nat) (name : list Z) (off : Z) : M fsst (option (nat * Z)) :=
  match fuel with
  | O => mret None
  | S fuel' =>
      i ← ip_get dp;
      if off <? i_size i then
        r ← readi dp off 16;
        if negb (r.1 =? 16) then panic "dirlookup read"
        else if de_inum r.2 =? 0 then dirlookup_from fuel' dp name (off + 16)
        else if namecmp name (de_name r.2) =? 0 then
          ip ← iget (i_dev i) (de_inum r.2); mret (Some (ip, off))
        else dirlookup_from fuel' dp name (off + 16)
      else mret None
  end.

(** The inode and the offset of the entry, or [None]. *)
Definition dirlookup (dp : nat) (name : list Z) : M fsst (option (nat * Z)) :=
  i ← ip_get dp;
  if negb (i_type i =? T_DIR) then panic "dirlookup not DIR"
  else dirlookup_from (Z.to_nat (i_size i / 16) + 2) dp name 0.

(** The first offset with an empty entry, or the size. *)
Fixpoint dir_free_from (fuel : nat) (dp : nat) (off : Z) : M fsst Z :=
  match fuel with
  | O => mret off
  | S fuel' =>
      i ← ip_get dp;
      if off <? i_size i then
        r ← readi dp off 16;
        if negb (r.1 =? 16) then panic "dirlink read"
        else if de_inum r.2 =? 0 then mret off
        else dir_free_from fuel' dp (off + 16)
      else mret off
  end.

Definition dirlink (dp : nat) (name : list Z) (inum : Z) : M fsst Z :=
  r ← dirlookup dp name;
  match r with
  | Some (ip, _) => iput ip ;; mret (-1)
  | None =>
      i ← ip_get dp;
      off ← dir_free_from (Z.to_nat (i_size i / 16) + 2) dp 0;
      w ← writei dp (mk_dirent inum name) off 16;
      if negb (w =? 16) then panic "dirlink" else mret 0
  end.

(** ** Paths *)

Definition SLASH : Z := 47.

Fixpoint skip_slashes (path : list Z) : list Z :=
  match path with c :: path' => if c =? SLASH then skip_slashes path' else path | [] => [] end.

(** The loop over the bytes up to a slash or the end: the element and what follows. *)
Fixpoint take_elem (path : list Z) : list Z * list Z :=
  match path with
  | c :: path' =>
      if (c =? SLASH) || (c =? 0) then ([], path)
      else let '(e, r) := take_elem path' in (c :: e, r)
  | [] => ([], [])
  end.

(** The old contents of [name] stay behind the terminating NUL. *)
Definition copy_elem (e name : list Z) : list Z :=
  if (DIRSIZ <=? length e)%nat then take DIRSIZ e ++ drop DIRSIZ name
  else e ++ 0 :: drop (length e + 1) name.

(** [None] for the null pointer, else the rest of the path and [name]. *)
Definition skipelem (path name : list Z) : option (list Z * list Z) :=
  let path := skip_slashes path in
  if hd0 path =? 0 then None
  else let '(e, r) := take_elem path in Some (skip_slashes r, copy_elem e name).

(** The user name and the current directory of the running process. *)
Section namex.
Context (myid : list Z) (cwd : nat).

Definition is_owner_or_root (i : inode) : bool := (strncmp myid root_name 16 =? 0) || (strncmp myid (i_user i) 16 =? 0).

(** [!ip->mode & MODE_XOTH], which C reads as [(!ip->mode) & MODE_XOTH]. *)
Definition not_and (x m : Z) : Z := Z.land (if x =? 0 then 1 else 0) m.

(** Whether the permission test of namex refuses the directory [i]. *)
Definition namex_denies (i : inode) : bool :=
  if i_type i =? T_DEV then false
  else if is_owner_or_root i then Z.land (i_mode i) MODE_XUSR =? 0
  else negb (not_and (i_mode i) MODE_XOTH =? 0).

Fixpoint namex_loop (fuel : nat) (ip : nat) (path : list Z) (parent : bool) (name : list Z) : M fsst (option nat * list Z) :=
  match fuel with
  | O => mret (None, name)
  | S fuel' =>
      match skipelem path name with
      | None =>
          if parent then iput ip ;; mret (None, name) else mret (Some ip, name)
      | Some (path, name) =>
          ilock ip ;;
          i ← ip_get ip;
          if namex_denies i then iunlockput ip ;; mret (None, name)
          else if negb (i_type i =? T_DIR) then iunlockput ip ;; mret (None, name)
          else if parent && (hd0 path =? 0) then iunlock ip ;; mret (Some ip, name)
          else
            next ← dirlookup ip name;
            match next with
            | None => iunlockput ip ;; mret (None, name)
            | Some (next, _) => iunlockput ip ;; namex_loop fuel' next path parent name
            end
      end
  end.

Definition namex (path : list Z) (parent : bool) (name : list Z) : M fsst (option nat * list Z) :=
  ip ← (if hd0 path =? SLASH then iget ROOTDEV ROOTINO else idup cwd);
  namex_loop (length path + 1) ip path parent name.

Definition namei (path : list Z) : M fsst (option nat) :=
  r ← namex path false (replicate DIRSIZ 0); mret r.1.
Definition nameiparent (path name : list Z) : M fsst (option nat * list Z) := namex path true name.
End namex.
End fs.
Arguments fsst : clear implicits.
