(* ===== verification/InodeProps.v ===== *)
(** * Inodes on disk and in the inode cache

    The 64-byte layout of struct dinode round-trips and does not touch its
    neighbours; the inode cache holds each inode once. *)

From S2P Require Import Prelude CString Sleeplock Block BlockLayer Log FsDefs.

(** ** Fields of a block *)

Lemma le_val_bytes_mod n v : le_val (le_bytes n v) = v mod 256 ^ Z.of_nat n.
Proof.
  revert v. induction n as [|n IH]; intros v; cbn [le_bytes le_val].
  - change (256 ^ Z.of_nat 0) with 1. by rewrite Z.mod_1_r.
  - rewrite IH, Nat2Z.inj_succ, Z.pow_succ_r by lia. rewrite Z.rem_mul_r by lia. done.
Qed.

Definition is_s16 (x : Z) : Prop := - 2 ^ 15 <= x < 2 ^ 15.

Lemma s16_le x : is_s16 x -> s16 (le_val (le_bytes 2 x)) = x.
Proof.
  unfold is_s16, s16. intros Hx. rewrite le_val_bytes_mod. change (256 ^ Z.of_nat 2) with (2 ^ 16).
  rewrite Z.mod_mod by lia. destruct (decide (0 <= x)).
  - rewrite Z.mod_small by lia. by rewrite (proj2 (Z.ltb_lt _ _)) by lia.
  - rewrite <-(Z.mod_add x 1) by lia. rewrite Z.mod_small by lia. rewrite (proj2 (Z.ltb_ge _ _)) by lia. lia.
Qed.

Lemma length_le_words l : length (le_words l) = (4 * length l)%nat.
Proof. induction l as [|x l IH]; [done|]. cbn [le_words]. rewrite length_app, IH, length_le_bytes. cbn. lia. Qed.

Lemma slice_le_words l k x : l !! k = Some x -> slice (4 * k) 4 (le_words l) = le_bytes 4 x.
Proof.
  revert k. induction l as [|y l IH]; intros k Hk; [done|]. destruct k as [|k]; cbn in Hk.
  - injection Hk as ->. unfold slice. cbn [le_words]. rewrite Nat.mul_0_r, drop_0.
    apply (take_app_length' (le_bytes 4 x)). by rewrite length_le_bytes.
  - unfold slice. cbn [le_words].
    rewrite drop_app_ge by (rewrite length_le_bytes; lia). rewrite length_le_bytes.
    replace (4 * S k - 4)%nat with (4 * k)%nat by lia. apply (IH k Hk).
Qed.

Lemma slice_slice o n i m b : (i + m <= n)%nat -> slice i m (slice o n b) = slice (o + i) m b.
Proof.
  intros Hi. unfold slice. rewrite skipn_firstn_comm, drop_drop, take_take. f_equal. lia.
Qed.

Lemma get_put_words o l b : (o + 4 * length l <= length b)%nat -> Forall is_u32 l ->
  get_words o (length l) (put_words o l b) = l.
Proof.
  intros Hb Hu. unfold get_words, put_words. apply list_eq. intros k. rewrite list_lookup_fmap.
  destruct (l !! k) as [x|] eqn:Hk.
  - pose proof (lookup_lt_Some _ _ _ Hk). rewrite lookup_seq_lt by done. cbn [fmap option_fmap option_map]. f_equal. unfold get32. rewrite Nat.add_0_l.
    rewrite <-(slice_slice o (4 * length l)) by lia. rewrite <-length_le_words, slice_splice_same by (rewrite length_le_words; done).
    rewrite (slice_le_words l k x Hk). apply le_val_bytes. rewrite Forall_lookup in Hu. apply (Hu k x Hk).
  - apply lookup_ge_None in Hk. by rewrite lookup_seq_ge by done.
Qed.

(** ** struct dinode *)

(** The fields of an inode that live on disk have the width they have there. *)
Record inode_wf (i : inode) : Prop := {
  wf_shorts : is_s16 (i_type i) /\ is_s16 (i_major i) /\ is_s16 (i_minor i) /\ is_s16 (i_nlink i);
  wf_words : is_u32 (i_size i) /\ is_u32 (i_mode i);
  wf_addrs : length (i_addrs i) = 8%nat /\ Forall is_u32 (i_addrs i);
  wf_user : length (i_user i) = 16%nat
}.

Lemma strncpy_strncpy d e u : length d = 16%nat -> length e = 16%nat -> strncpy d (strncpy e u 16) 16 = strncpy d u 16.
Proof.
  intros Hd He. rewrite (strncpy_spec d), (strncpy_spec d u) by lia. by rewrite cstrn_strncpy by lia.
Qed.

Lemma slice_splice_same' o n bs b : length bs = n -> (o + n <= length b)%nat -> slice o n (splice o bs b) = bs.
Proof. intros <-. apply slice_splice_same. Qed.

(** Solve the side conditions of reading one field of a block after writing another. *)
Ltac field_len :=
  unfold slice; rewrite ?length_strncpy, ?length_take, ?length_drop, ?length_splice, ?length_le_bytes, ?length_le_words; lia.
Ltac field_other := repeat (rewrite slice_splice_other; [|field_len|field_len]).
Ltac field_same n := rewrite (slice_splice_same' _ n) by field_len.

Section dinode.
Context (o : nat) (b : block) (i : inode).
Hypothesis Ho : (o + 64 <= length b)%nat.
Hypothesis Hi : inode_wf i.

(** iupdate writes only the 64 bytes of its inode. *)
Lemma dip_store_frame p n : (p + n <= o)%nat \/ (o + 64 <= p)%nat -> slice p n (dip_store o i b) = slice p n b.
Proof.
  destruct Hi as [_ _ [Ha _] _]. intros Hp. unfold dip_store, put_words, put16, put32. by field_other.
Qed.

Lemma length_dip_store : length (dip_store o i b) = length b.
Proof. unfold dip_store, put_words, put16, put32. by rewrite !length_splice. Qed.

Lemma dip_store_load j : length (i_user j) = 16%nat ->
  dip_load o (dip_store o i b) j =
  mkInode (i_dev j) (i_inum j) (i_ref j) (i_lock j) (i_valid j) (i_type i) (i_major i) (i_minor i) (i_nlink i)
    (i_size i) (i_addrs i) (strncpy (i_user j) (i_user i) 16) (i_mode i).
Proof.
  destruct Hi as [(H1 & H2 & H3 & H4) [H5 H6] [Ha Hu] Hus]. intros Hj.
  unfold dip_load. f_equal.
  - unfold dip_store, put_words, put16, put32, get16. field_other. field_same 2%nat. by apply s16_le.
  - unfold dip_store, put_words, put16, put32, get16. field_other. field_same 2%nat. by apply s16_le.
  - unfold dip_store, put_words, put16, put32, get16. field_other. field_same 2%nat. by apply s16_le.
  - unfold dip_store, put_words, put16, put32, get16. field_other. field_same 2%nat. by apply s16_le.
  - unfold dip_store, put_words, put16, put32, get32. field_other. field_same 4%nat. by apply le_val_bytes.
  - unfold dip_store. match goal with |- context [put_words _ _ ?x] => pose proof (get_put_words (o + 12) (i_addrs i) x) as E end.
    rewrite Ha in E. apply E; [|done]. unfold put16, put32. rewrite !length_splice. lia.
  - unfold dip_store, put_words, put16, put32. field_other. field_same 16%nat.
    apply strncpy_strncpy; [done|]. unfold slice. rewrite length_take, length_drop, !length_splice. lia.
  - unfold dip_store, put_words, put16, put32, get32. field_other. field_same 4%nat. by apply le_val_bytes.
Qed.
End dinode.

Lemma dip_load_ext o b b' j : (forall p n, (o <= p)%nat -> (p + n <= o + 64)%nat -> slice p n b = slice p n b') ->
  dip_load o b j = dip_load o b' j.
Proof.
  intros Hs. unfold dip_load, get_words, get16, get32. rewrite !Hs by lia. f_equal.
  apply list_fmap_ext. intros k x [-> Hk]%lookup_seq. rewrite Hs; [done|lia..].
Qed.

Lemma dip_off_bound n : (dip_off n + 64 <= BSIZE)%nat.
Proof. unfold dip_off, IPB, BSIZE. pose proof (Z.mod_pos_bound n 8 ltac:(lia)). lia. Qed.

Lemma dip_load_other b i j n n' : length b = BSIZE -> inode_wf i -> n mod IPB <> n' mod IPB ->
  dip_load (dip_off n') (dip_store (dip_off n) i b) j = dip_load (dip_off n') b j.
Proof.
  intros Hb Hi Hne. pose proof (dip_off_bound n). pose proof (dip_off_bound n').
  apply dip_load_ext. intros p m Hp Hm. apply dip_store_frame; [lia|done|]. unfold dip_off, IPB, BSIZE in *.
  pose proof (Z.mod_pos_bound n 8 ltac:(lia)). pose proof (Z.mod_pos_bound n' 8 ltac:(lia)). lia.
Qed.

(** An inode written to its block by iupdate and read back by ilock has the
    same type, device numbers, link count, size, block addresses, mode and
    owner name; the other inodes of the block are read as before. *)
Theorem dinode_roundtrip b i j inum inum' (Hb : length b = BSIZE) (Hi : inode_wf i) (Hj : length (i_user j) = 16%nat) :
  dip_load (dip_off inum) (dip_store (dip_off inum) i b) j =
    mkInode (i_dev j) (i_inum j) (i_ref j) (i_lock j) (i_valid j) (i_type i) (i_major i) (i_minor i) (i_nlink i)
      (i_size i) (i_addrs i) (strncpy (i_user j) (i_user i) 16) (i_mode i) /\
  (inum mod IPB <> inum' mod IPB ->
   dip_load (dip_off inum') (dip_store (dip_off inum) i b) j = dip_load (dip_off inum') b j).
Proof.
  split; [|by apply dip_load_other]. apply dip_store_load; [|done..]. rewrite Hb. apply dip_off_bound.
Qed.

Definition sample_inode : inode :=
  mkInode 1 9 1 initsleeplock true 2 0 0 1 700 [40; 41; 0; 0; 0; 0; 0; 0] (root_name ++ replicate 12 0) 52.

Lemma sample_inode_wf : inode_wf sample_inode.
Proof.
  constructor; cbn; unfold is_s16, is_u32; [lia|lia| |done]. split; [done|]. repeat constructor; lia.
Qed.

Lemma dinode_roundtrip_witness :
  let b := dip_store (dip_off 9) sample_inode zero_block in
  i_size (dip_load (dip_off 9) b inode0) = 700 /\ dip_load (dip_off 10) b inode0 = dip_load (dip_off 10) zero_block inode0.
Proof.
  destruct (dinode_roundtrip zero_block sample_inode inode0 9 10 eq_refl sample_inode_wf eq_refl) as [E1 E2].
  split; [by rewrite E1|]. apply E2. unfold IPB. vm_compute. discriminate.
Defined.

(** ** The inode cache *)

(** Each inode in use has one entry, and its entry can be locked. *)
Record ic_inv (l : list inode) : Prop := {
  ic_len : length l = NINODE;
  ic_uniq a b x y : l !! a = Some x -> l !! b = Some y -> 0 < i_ref x -> 0 < i_ref y ->
    i_dev x = i_dev y -> i_inum x = i_inum y -> a = b;
  ic_ref a x : l !! a = Some x -> 0 <= i_ref x < 2 ^ 31
}.

Lemma find_inode_Some f l a : find_inode f l = Some a -> exists x, l !! a = Some x /\ f x = true.
Proof.
  unfold find_inode. intros ([a' x] & Hf & ->)%fmap_Some. apply list_find_Some in Hf as (Ha & Hx & _). eauto.
Qed.

Lemma find_inode_None f l a x : find_inode f l = None -> l !! a = Some x -> f x = false.
Proof.
  unfold find_inode. intros Hf%fmap_None Ha. apply list_find_None in Hf. rewrite Forall_lookup in Hf.
  apply not_true_iff_false. by eapply Hf.
Qed.

Lemma is_cached_spec d n x : is_cached d n x = true <-> 0 < i_ref x /\ i_dev x = d /\ i_inum x = n.
Proof. unfold is_cached. rewrite !andb_true_iff, Z.ltb_lt, !Z.eqb_eq. tauto. Qed.

(** What the cache stands for: the number of references to each inode. *)
Definition refs_of (l : list inode) (d n : Z) : Z :=
  match find_inode (is_cached d n) l with Some a => i_ref (default inode0 (l !! a)) | None => 0 end.

Lemma refs_of_in l a x d n : ic_inv l -> l !! a = Some x -> is_cached d n x = true -> refs_of l d n = i_ref x.
Proof.
  intros Hl Ha Hc. unfold refs_of. destruct (find_inode _ l) as [b|] eqn:E.
  - apply find_inode_Some in E as (y & Hb & Hy). rewrite Hb. cbn.
    apply is_cached_spec in Hc as (? & ? & ?), Hy as (? & ? & ?).
    assert (a = b) as -> by (eapply (ic_uniq l Hl a b x y); eauto; congruence). congruence.
  - pose proof (find_inode_None _ _ _ _ E Ha). congruence.
Qed.

Lemma refs_of_out l d n : (forall a x, l !! a = Some x -> is_cached d n x = false) -> refs_of l d n = 0.
Proof.
  intros Hno. unfold refs_of. destruct (find_inode _ l) as [b|] eqn:E; [|done].
  apply find_inode_Some in E as (y & Hb & Hy). by rewrite (Hno b y Hb) in Hy.
Qed.

(** Replacing entry [a] by one for the same inode, or a free entry by one for an
    inode that has none. *)
Lemma ic_insert l a x y : ic_inv l -> l !! a = Some x -> 0 <= i_ref y < 2 ^ 31 ->
  (forall b z, b <> a -> l !! b = Some z -> is_cached (i_dev y) (i_inum y) z = false) ->
  ic_inv (<[a := y]> l) /\
  (i_ref x = 0 \/ i_dev x = i_dev y /\ i_inum x = i_inum y ->
   forall d n, refs_of (<[a := y]> l) d n = if decide (d = i_dev y /\ n = i_inum y) then i_ref y else refs_of l d n).
Proof.
  intros Hl Ha Hr Hno. pose proof (lookup_lt_Some _ _ _ Ha) as Hlt.
  assert (forall b z, <[a := y]> l !! b = Some z -> b = a /\ z = y \/ b <> a /\ l !! b = Some z) as Hlk.
  { intros b z. destruct (decide (a = b)) as [<-|Hne].
    - rewrite list_lookup_insert_eq by done. naive_solver.
    - rewrite list_lookup_insert_ne by done. naive_solver. }
  assert (ic_inv (<[a := y]> l)) as Hl'.
  { constructor.
    - rewrite length_insert. apply (ic_len l Hl).
    - intros b c z w [[-> ->]|[Hb Hz]]%Hlk [[-> ->]|[Hc Hw]]%Hlk Hrz Hrw Hd Hn; [done|..].
      + pose proof (Hno c w Hc Hw) as Hf. by rewrite (proj2 (is_cached_spec _ _ w)) in Hf.
      + pose proof (Hno b z Hb Hz) as Hf. by rewrite (proj2 (is_cached_spec _ _ z)) in Hf.
      + by eapply (ic_uniq l Hl b c).
    - intros b z [[-> ->]|[Hb Hz]]%Hlk; [done|by eapply (ic_ref l Hl)]. }
  split; [done|]. intros Hx d n. case_decide as Hdn.
  - destruct Hdn as [-> ->]. destruct (decide (i_ref y = 0)) as [E|E].
    + rewrite E. apply refs_of_out. intros b z [[-> ->]|[Hb Hz]]%Hlk; [|by eapply Hno].
      apply not_true_iff_false. rewrite is_cached_spec. lia.
    + apply (refs_of_in _ a); [done|by apply list_lookup_insert_eq|]. apply is_cached_spec. split; [lia|done].
  - destruct (find_inode (is_cached d n) l) as [b|] eqn:E.
    + apply find_inode_Some in E as (z & Hb & Hz). rewrite (refs_of_in l b z d n Hl Hb Hz).
      assert (b <> a) as Hba.
      { intros ->. rewrite Ha in Hb. injection Hb as ->. apply is_cached_spec in Hz. destruct Hx as [?|[? ?]]; [lia|]. naive_solver. }
      apply (refs_of_in _ b); [done|by rewrite list_lookup_insert_ne|done].
    + rewrite !refs_of_out; [done|intros b z Hz; by eapply find_inode_None|].
      intros b z [[-> ->]|[Hb Hz]]%Hlk; [|by eapply find_inode_None]. apply not_true_iff_false. rewrite is_cached_spec.
      naive_solver.
Qed.

Section icache.
Context {St : Type} `{BL : BlockLayer St}.

Lemma alter_lookup {A} (f : A -> A) a x (l : list A) : l !! a = Some x -> alter f a l = <[a := f x]> l.
Proof.
  intros Ha. apply list_eq. intros b. destruct (decide (a = b)) as [<-|Hne].
  - rewrite list_lookup_alter_eq, Ha. by rewrite list_lookup_insert_eq by (by eapply lookup_lt_Some).
  - by rewrite list_lookup_alter_ne, list_lookup_insert_ne.
Qed.

Lemma others_uncached l a x : ic_inv l -> l !! a = Some x -> 0 < i_ref x ->
  forall b z, b <> a -> l !! b = Some z -> is_cached (i_dev x) (i_inum x) z = false.
Proof.
  intros Hl Ha Hr b z Hne Hb. apply not_true_iff_false. rewrite is_cached_spec. intros (? & ? & ?).
  apply Hne. by eapply (ic_uniq l Hl b a z x).
Qed.

Lemma iget_run (s : fsst St) dev inum
  (Hi : ic_inv (ic s)) (Hl : iclk s = false) (Hm : refs_of (ic s) dev inum < 2 ^ 31 - 1) :
  match iget dev inum s with
  | Ret ip s' =>
      ic_inv (ic s') /\ iclk s' = false /\ fl s' = fl s /\ sb s' = sb s /\
      (exists x, ic s' !! ip = Some x /\ is_cached dev inum x = true) /\
      forall d n, refs_of (ic s') d n = refs_of (ic s) d n + (if decide (d = dev /\ n = inum) then 1 else 0)
  | Panic _ => forall a x, ic s !! a = Some x -> i_ref x <> 0 /\ is_cached dev inum x = false
  | Sleep _ _ => False
  end.
Proof.
  unfold iget, acquire_ic, release_ic, ip_upd, mbind, M_bind, get, put, modify, mret, M_ret. rewrite Hl. cbn [iclk ic fl sb negb].
  destruct (find_inode (is_cached dev inum) (ic s)) as [a|] eqn:E; cbn [iclk ic fl sb negb].
  - apply find_inode_Some in E as (x & Ha & Hx). rewrite (alter_lookup _ _ _ _ Ha).
    pose proof (refs_of_in _ _ _ _ _ Hi Ha Hx) as Hrx. apply is_cached_spec in Hx as (Hr & <- & <-).
    assert (s32 (i_ref x + 1) = i_ref x + 1) as E32 by (apply s32_id; unfold is_s32; lia). rewrite E32.
    destruct (ic_insert (ic s) a x (set_i_ref (i_ref x + 1) x)) as [Hinv Hrefs]; [done|done|cbn; lia|exact (others_uncached _ _ _ Hi Ha Hr)|].
    split_and!; [done..| |].
    + eexists. split; [by apply list_lookup_insert_eq; eapply lookup_lt_Some|]. apply is_cached_spec. cbn. lia.
    + intros d n. rewrite Hrefs by auto. cbn. case_decide as Hdn; [|lia]. destruct Hdn as [-> ->]. by rewrite Hrx.
  - destruct (find_inode (λ i, i_ref i =? 0) (ic s)) as [a|] eqn:Ef; cbn [iclk ic fl sb negb].
    + apply find_inode_Some in Ef as (x & Ha & Hx%Z.eqb_eq). rewrite (alter_lookup _ _ _ _ Ha).
      match goal with |- context [<[a := ?y]> _] => destruct (ic_insert (ic s) a x y) as [Hinv Hrefs] end;
        [done|done|cbn; lia|intros b z _ Hz; cbn; by eapply find_inode_None|].
      split_and!; [done..| |].
      * eexists. split; [by apply list_lookup_insert_eq; eapply lookup_lt_Some|]. by apply is_cached_spec.
      * intros d n. rewrite Hrefs by auto. cbn. case_decide as Hdn; [|lia]. destruct Hdn as [-> ->].
        rewrite (refs_of_out _ dev inum); [done|]. intros b z Hz. by eapply find_inode_None.
    + intros a x Ha. split; [|by eapply find_inode_None]. pose proof (find_inode_None _ _ _ _ Ef Ha) as Hz.
      cbn in Hz. by apply Z.eqb_neq.
Qed.

(** The inode cache counts references: iget returns the one entry of the
    inode, with one more reference to it and the same number to every other
    inode, and recycles only an entry nobody refers to; it panics only if every
    entry is in use and none is the inode's. *)
Theorem iget_counts (s : fsst St) dev inum
  (Hi : ic_inv (ic s)) (Hl : iclk s = false) (Hm : refs_of (ic s) dev inum < 2 ^ 31 - 1) :
  match iget dev inum s with
  | Ret ip s' =>
      ic_inv (ic s') /\ iclk s' = false /\ fl s' = fl s /\ sb s' = sb s /\
      (exists x, ic s' !! ip = Some x /\ is_cached dev inum x = true) /\
      forall d n, refs_of (ic s') d n = refs_of (ic s) d n + (if decide (d = dev /\ n = inum) then 1 else 0)
  | Panic _ => forall a x, ic s !! a = Some x -> i_ref x <> 0 /\ is_cached dev inum x = false
  | Sleep _ _ => False
  end.
Proof. exact (iget_run s dev inum Hi Hl Hm). Qed.
End icache.

(** The cache at boot. *)
Definition boot_fs : fsst unit :=
  mkFs (mkLst (mkLog 2 30 0 false []) false tt) (mkSb 1000 941 200 30 2 32 58) (replicate NINODE inode0) false.

Lemma ic_inv_boot : ic_inv (replicate NINODE inode0).
Proof.
  constructor; [done| |].
  - intros a b x y [-> _]%lookup_replicate _ Hx. by destruct (Z.lt_irrefl 0).
  - intros a x [-> _]%lookup_replicate. cbn. lia.
Qed.

Lemma iget_counts_witness :
  match iget 1 5 boot_fs with
  | Ret ip s' => ip = 0%nat /\ refs_of (ic s') 1 5 = 1 /\ refs_of (ic s') 1 6 = 0
  | _ => False
  end.
Proof.
  pose proof (iget_counts boot_fs 1 5 ic_inv_boot eq_refl eq_refl) as H.
  destruct (iget 1 5 boot_fs) as [ip s'|m|c s'] eqn:E; [|discriminate E|done].
  destruct H as (_ & _ & _ & _ & _ & Hr). split; [|by rewrite !Hr].
  injection E. by intros _ <-.
Defined.
