(* ===== verification/FsRules.v ===== *)
(** * Reasoning about file-system code inside a transaction

    [fsees B I c k H s]: the superblock is [B], the inode cache [I], the blocks
    read as [c], the transaction may still log [k] blocks (no transaction need be
    open to log none), and the process holds the buffers of [H].  Each rule executes one operation of fs.c on the layers
    below. *)

From S2P Require Import Prelude Sleeplock Block BlockLayer Bio Log LogProps FsDefs.

Section rules.
Context {St : Type} `{BLi : BlockLayer St} `{BW : !BlockLaws St}.

(** Outside the log area. *)
Definition home_b (B : superblock) (b : Z) : Prop := b < sb_logstart B \/ sb_logstart B + sb_nlog B <= b.

Record fsees (B : superblock) (I : list inode) (c : Z -> block) (k : nat) (H : gmap nat Z) (s : fsst St) : Prop := mkFsees {
  fs_sb : sb s = B; fs_ic : ic s = I; fs_lk : iclk s = false;
  fs_log : exists g d P,
    memh g c d P H (fl s) /\ (forall b, b ∈ P \/ c b = d b) /\ P = list_to_set (lh g) /\ lh_ok g /\
    (k = 0%nat \/ 1 <= outstanding g) /\ (length (lh g) + k <= 27)%nat /\ Z.of_nat (length (lh g) + k) < lsize g /\
    lstart g = sb_logstart B /\ lsize g = sb_nlog B
}.

Lemma fsees_ext B I c c' k H s : (forall b, c b = c' b) -> fsees B I c k H s -> fsees B I c' k H s.
Proof.
  intros E [? ? ? (g & d & P & [Hg Hs] & Hcl & Hrest)]. constructor; try done. exists g, d, P.
  split_and!; try apply Hrest; [|intros b; rewrite <-E; apply Hcl]. split; [done|]. by eapply sees_ext.
Qed.

Lemma fsees_weaken B I c k k' H s : (k' <= k)%nat -> fsees B I c k H s -> fsees B I c k' H s.
Proof.
  intros Hk [? ? ? (g & d & P & Hm & Hcl & HP & Hlh & Ho & H1 & H2 & Hls)]. constructor; try done.
  exists g, d, P. split_and!; try done; try lia; apply Hls.
Qed.

Lemma fsees_length B I c k H s b : fsees B I c k H s -> length (c b) = BSIZE.
Proof. intros [_ _ _ (g & d & P & [_ Hs] & _)]. apply (sees_length _ _ _ _ _ b Hs). Qed.

Lemma wp_zoom {T S' A} (pr : T -> S') (inj : S' -> T -> T) (m : M S' A) Q t :
  wp m (λ a x, Q a (inj x t)) (pr t) -> wp (zoom pr inj m) Q t.
Proof. unfold wp, zoom. by destruct (m (pr t)). Qed.

Lemma wp_on_log {A} (m : M (lst St) A) Q (s : fsst St) :
  wp m (λ a l, Q a (mkFs l (sb s) (ic s) (iclk s))) (fl s) -> wp (on_log m) Q s.
Proof. intros H. unfold on_log. by apply wp_zoom. Qed.

Lemma size_held_blocks (H : gmap nat Z) : (size (held_blocks H) <= size H)%nat.
Proof.
  induction H as [|i x m Hi IH] using map_ind.
  - rewrite held_empty, size_empty. lia.
  - rewrite held_insert by done. rewrite size_union_alt, size_singleton, map_size_insert_None by done.
    pose proof (subseteq_size (held_blocks m ∖ {[x]}) (held_blocks m) ltac:(set_solver)). lia.
Qed.

Lemma room_lh (g : log) H b : lh_ok g -> (length (lh g) <= 27)%nat -> 0 <= b < bl_size -> b ∉ held_blocks H ->
  (size H <= 2)%nat -> room bl_size (list_to_set (lh g)) H b.
Proof.
  intros Hlh Hk Hb Hnh Hsz. split_and!; [lia..|done|]. rewrite !size_union_alt, size_singleton.
  assert (size (list_to_set (lh g) ∖ {[b]} : gset Z) <= length (lh g))%nat.
  { etransitivity; [apply (subseteq_size _ (list_to_set (lh g))); set_solver|]. rewrite size_list_to_set; [done|apply Hlh]. }
  pose proof (size_held_blocks H).
  pose proof (subseteq_size (held_blocks H ∖ ({[b]} ∪ list_to_set (lh g))) (held_blocks H) ltac:(set_solver)).
  unfold NBUF. lia.
Qed.

Lemma fsees_step B I c k H s c' k' H' (l : lst St) : fsees B I c k H s ->
  (exists g d P, memh g c' d P H' l /\ (forall b, b ∈ P \/ c' b = d b) /\ P = list_to_set (lh g) /\ lh_ok g /\
    (k' = 0%nat \/ 1 <= outstanding g) /\ (length (lh g) + k' <= 27)%nat /\ Z.of_nat (length (lh g) + k') < lsize g /\
    lstart g = sb_logstart B /\ lsize g = sb_nlog B) ->
  fsees B I c' k' H' (mkFs l (sb s) (ic s) (iclk s)).
Proof. by intros [? ? ? _] ?. Qed.

Lemma R_bread B I c k H s b Q : fsees B I c k H s -> 0 <= b < bl_size -> b ∉ held_blocks H -> (size H <= 2)%nat ->
  (forall i s', H !! i = None -> fsees B I c k (<[i:=b]> H) s' -> Q i s') -> wp (fs_bread 1 b) Q s.
Proof.
  intros Hf Hb Hnh Hsz HQ. pose proof Hf as [Hsb Hic Hlk (g & d & P & Hm & Hcl & HP & Hrest)].
  unfold fs_bread. cbn. apply wp_on_log. eapply wpb_bread; [exact Hm| |].
  { subst P. destruct Hrest as (Hlh & _ & Hk & _). apply room_lh; try done. lia. }
  intros i l Hi Hl. apply HQ; [done|]. eapply fsees_step; [exact Hf|]. exists g, d, P. by split_and!; try apply Hrest.
Qed.

Lemma R_data B I c k H s i b Q : fsees B I c k H s -> H !! i = Some b -> Q (c b) s -> wp (fs_data i) Q s.
Proof.
  intros [Hsb Hic Hlk (g & d & P & Hm & _)] Hi HQ. unfold fs_data. apply wp_on_log.
  eapply wpb_data; [exact Hm|exact Hi|]. by destruct s.
Qed.

Lemma R_brelse B I c k H s i b Q : fsees B I c k H s -> H !! i = Some b ->
  (forall s', fsees B I c k (delete i H) s' -> Q tt s') -> wp (fs_brelse i) Q s.
Proof.
  intros Hf Hi HQ. pose proof Hf as [Hsb Hic Hlk (g & d & P & Hm & Hcl & HP & Hrest)]. unfold fs_brelse. apply wp_on_log.
  eapply wpb_brelse; [exact Hm|exact Hi|apply Hcl|]. intros l Hl. apply HQ.
  eapply fsees_step; [exact Hf|]. exists g, d, P. by split_and!; try apply Hrest.
Qed.

(** Changing a held block and logging it, as the code always does at once. *)
Lemma R_put {A} B I c k H s i b v (K : M (fsst St) A) Q : fsees B I c (S k) H s -> H !! i = Some b -> length v = BSIZE ->
  0 <= b < bl_size -> home_b B b ->
  (forall s', fsees B I (upd c b v) k H s' -> wp K Q s') -> wp (fs_set i v ;; fs_log_write i ;; K) Q s.
Proof.
  intros Hf Hi Hv Hb Hhome HQ. pose proof Hf as [Hsb Hic Hlk (g & d & P & Hm & Hcl & HP & Hlh & Ho & Hk & Hsz & Hst & Hn)].
  apply wp_bind. unfold fs_set. apply wp_on_log. eapply wpb_set; [exact Hm|exact Hi|done|]. intros l1 H1.
  apply wp_bind. unfold fs_log_write. apply wp_on_log. cbn [fl].
  assert (can_log g) as Hcan by (unfold can_log, NBUF; lia).
  eapply wp_log_write; [exact H1|exact Hi|done|]. intros l2 H2. apply HQ. cbn [sb ic iclk].
  eapply fsees_step; [exact Hf|]. exists (absorb b g), d, ({[b]} ∪ P).
  destruct (absorb_same b g) as (E1 & E2 & E3 & E4). rewrite E1, E2, E4.
  assert (lh_ok (absorb b g)) as Hlh'.
  { apply lh_ok_absorb; [done|done|unfold NBUF; lia|done|]. unfold home, home_b in *. by rewrite Hst, Hn. }
  assert (length (lh (absorb b g)) <= S (length (lh g)))%nat as Hlen.
  { rewrite absorb_lh. case_bool_decide; rewrite ?length_app; cbn; lia. }
  split_and!; try done; try lia.
  - intros x. unfold upd. case_decide as E; [subst; left; set_solver|]. destruct (Hcl x); [left; set_solver|by right].
  - rewrite absorb_lh, HP. case_bool_decide as Hin; [|set_solver].
    assert (b ∈ (list_to_set (lh g) : gset Z)) by (by apply elem_of_list_to_set). set_solver.
Qed.

Lemma R_get B I c k H s Q : fsees B I c k H s -> (sb s = B -> ic s = I -> Q s s) -> wp get Q s.
Proof. intros [? ? ? _] HQ. by apply wp_get, HQ. Qed.

Lemma R_ip_get B I c k H s ip i Q : fsees B I c k H s -> I !! ip = Some i -> Q i s -> wp (ip_get ip) Q s.
Proof. intros [_ <- _ _] Hi HQ. unfold ip_get. apply wp_gets. by rewrite Hi. Qed.

Lemma R_ip_upd B I c k H s ip i f Q : fsees B I c k H s -> I !! ip = Some i ->
  (forall s', fsees B (<[ip := f i]> I) c k H s' -> Q tt s') -> wp (ip_upd ip f) Q s.
Proof.
  intros [? Hic ? ?] Hi HQ. unfold ip_upd. apply wp_modify, HQ. constructor; try done. cbn. rewrite Hic.
  apply list_eq. intros j. destruct (decide (ip = j)) as [<-|Hne].
  - rewrite list_lookup_alter_eq, Hi. by rewrite list_lookup_insert_eq by (by eapply lookup_lt_Some).
  - by rewrite list_lookup_alter_ne, list_lookup_insert_ne.
Qed.
End rules.

(** ** A state to start from: an empty transaction on a fresh cache *)
Section boot.
#[local] Instance rules_disk : BlockLayer bcache := bio_layer 1000 1.
#[local] Instance rules_disk_laws : BlockLaws bcache := bio_laws 1000 1.

Definition boot_state (d : Z -> block) (B : superblock) (I : list inode) : fsst bcache :=
  mkFs (mkLst (mkLog (sb_logstart B) (sb_nlog B) 1 false []) false (binit d)) B I false.

Lemma boot_fsees_n n d B I k : (forall b, length (d b) = BSIZE) -> 0 < sb_logstart B ->
  sb_logstart B + sb_nlog B <= n -> n < 2 ^ 32 -> Z.of_nat k < sb_nlog B -> (k <= 27)%nat ->
  fsees (BLi := bio_layer n 1) B I d k ∅ (boot_state d B I).
Proof.
  intros Hd H1 H2 Hn H3 H4. constructor; try done. exists (mkLog (sb_logstart B) (sb_nlog B) 1 false []), d, ∅.
  split_and!; cbn; try done; try lia.
  - split; [done|]. by apply (binit_sees n 1).
  - intros b. by right.
  - constructor; cbn; try lia; [apply NoDup_nil_2|unfold NBUF; lia|]. intros b Hb. by apply not_elem_of_nil in Hb.
Qed.

Lemma boot_fsees d B I k : (forall b, length (d b) = BSIZE) -> 0 < sb_logstart B ->
  sb_logstart B + sb_nlog B <= 1000 -> Z.of_nat k < sb_nlog B -> (k <= 27)%nat ->
  fsees B I d k ∅ (boot_state d B I).
Proof. intros. by apply (boot_fsees_n 1000). Qed.
End boot.
