(* ===== verification/Path.v ===== *)
(** * Path names (skipelem and the loop of namex)

    The elements of a path are the non-empty pieces between slashes; skipelem
    takes them one by one, and so namex's loop ends. *)

From S2P Require Import Prelude CString Sleeplock Block BlockLayer Bio Log FsDefs FsRules.

(** ** What a path means *)

Fixpoint split_on (c : Z) (l : list Z) : list (list Z) :=
  match l with
  | [] => [[]]
  | x :: l' =>
      if x =? c then [] :: split_on c l'
      else match split_on c l' with [] => [[x]] | e :: r => (x :: e) :: r end
  end.

Definition elements (path : list Z) : list (list Z) := filter (λ e, e ≠ []) (split_on SLASH (cstr path)).

(** ** Lemmas *)

Lemma split_on_ne c l : split_on c l <> [].
Proof. destruct l as [|x l]; cbn; [done|]. by repeat case_match. Qed.

Lemma cstr_cons x l : cstr (x :: l) = if x =? 0 then [] else x :: cstr l.
Proof. done. Qed.

Lemma elements_slash l : elements (SLASH :: l) = elements l.
Proof.
  unfold elements. change (cstr (SLASH :: l)) with (SLASH :: cstr l). cbn [split_on]. rewrite Z.eqb_refl.
  rewrite filter_cons_False; [done|]. by intros [].
Qed.

Lemma elements_skip l : elements (skip_slashes l) = elements l.
Proof.
  induction l as [|x l IH]; [done|]. cbn [skip_slashes]. destruct (Z.eqb_spec x SLASH) as [->|Hne]; [|done].
  by rewrite elements_slash.
Qed.

Lemma skip_slashes_length l : (length (skip_slashes l) <= length l)%nat.
Proof. induction l as [|x l IH]; cbn; [done|]. case_match; cbn; lia. Qed.

Lemma skip_slashes_hd l : hd0 (skip_slashes l) <> SLASH.
Proof. induction l as [|x l IH]; cbn; [done|]. destruct (Z.eqb_spec x SLASH); done. Qed.

(** The element taken and what is left of a path that does not start with a slash. *)
Lemma take_elem_spec l : let '(e, r) := take_elem l in
  l = e ++ r /\ Forall (λ c, c ≠ 0) e /\ (SLASH ∉ e) /\ (hd0 r = 0 \/ hd0 r = SLASH) /\
  split_on SLASH (cstr l) = match split_on SLASH (cstr r) with [] => [] | x :: t => (e ++ x) :: t end.
Proof.
  induction l as [|x l IH]; cbn [take_elem].
  - split; [done|]. split; [by constructor|]. split; [set_solver|]. split; [by left|done].
  - destruct (Z.eqb_spec x SLASH) as [->|Hs]; [|destruct (Z.eqb_spec x 0) as [->|Hz]]; cbn [orb].
    + split; [done|]. split; [by constructor|]. split; [set_solver|]. split; [by right|]. by destruct (split_on SLASH _).
    + split; [done|]. split; [by constructor|]. split; [set_solver|]. split; [by left|done].
    + destruct (take_elem l) as [e r]. destruct IH as (-> & Hnz & Hns & Hr & Hsp). split_and!; try done.
      * by constructor.
      * set_solver.
      * cbn [app]. rewrite cstr_cons, (proj2 (Z.eqb_neq x 0) Hz). cbn [split_on]. rewrite (proj2 (Z.eqb_neq x SLASH) Hs), Hsp.
        destruct (split_on SLASH (cstr r)) eqn:E; [by apply split_on_ne in E|done].
Qed.

Lemma hd0_end r : hd0 r = 0 -> cstr r = [].
Proof. destruct r as [|x r]; [done|]. cbn. by intros ->. Qed.

Lemma take_elem_elements l : hd0 l <> 0 -> hd0 l <> SLASH ->
  let '(e, r) := take_elem l in elements l = e :: elements r /\ Forall (λ c, c ≠ 0) e /\ e <> [] /\ length l = (length e + length r)%nat.
Proof.
  intros Hz Hs. pose proof (take_elem_spec l) as H. destruct (take_elem l) as [e r] eqn:E.
  destruct H as (-> & Hnz & Hns & Hr & Hsp).
  assert (e <> []) as Hne.
  { intros ->. cbn in Hz, Hs. destruct Hr; congruence. }
  split_and!; [|done|done|apply length_app]. unfold elements. rewrite Hsp.
  destruct Hr as [Hr|Hr].
  - rewrite (hd0_end r Hr). cbn [split_on]. rewrite app_nil_r, filter_cons_True by done.
    by rewrite filter_cons_False by (by intros []).
  - destruct r as [|x r]; [done|]. cbn in Hr. subst x. change (cstr (SLASH :: r)) with (SLASH :: cstr r). cbn [split_on]. rewrite Z.eqb_refl.
    rewrite app_nil_r. rewrite filter_cons_True by done. rewrite filter_cons_False by (by intros []). done.
Qed.

Lemma elements_nil l : hd0 l <> SLASH -> elements l = [] <-> hd0 l = 0.
Proof.
  intros Hs. split.
  - intros He. destruct (decide (hd0 l = 0)) as [|Hz]; [done|]. pose proof (take_elem_elements l Hz Hs) as H.
    destruct (take_elem l). destruct H as [H _]. congruence.
  - intros Hz. unfold elements. by rewrite hd0_end.
Qed.

Lemma cstrn_copy_elem e name : length name = DIRSIZ -> Forall (λ c, c ≠ 0) e -> cstrn DIRSIZ (copy_elem e name) = take DIRSIZ e.
Proof.
  intros Hn He. unfold cstrn, copy_elem. destruct (Nat.leb_spec DIRSIZ (length e)).
  - rewrite take_app_le by (rewrite length_take; lia). rewrite take_take, Nat.min_id.
    rewrite <-(app_nil_r (take DIRSIZ e)) at 1. rewrite cstr_nz_app by (by apply Forall_take). by rewrite app_nil_r.
  - rewrite (take_ge e) by lia. rewrite take_app_ge by lia. rewrite cstr_nz_app by done.
    destruct (DIRSIZ - length e)%nat eqn:E; [lia|]. cbn. by rewrite app_nil_r.
Qed.

Lemma length_copy_elem e name : length name = DIRSIZ -> length (copy_elem e name) = DIRSIZ.
Proof.
  intros Hn. unfold copy_elem. destruct (Nat.leb_spec DIRSIZ (length e)); rewrite length_app; cbn [length];
    rewrite ?length_take, length_drop; lia.
Qed.

Lemma skipelem_Some path name rest name' : skipelem path name = Some (rest, name') -> (length rest < length path)%nat.
Proof.
  unfold skipelem. set (p := skip_slashes path). destruct (Z.eqb_spec (hd0 p) 0) as [|Hz]; [done|].
  pose proof (take_elem_elements p Hz (skip_slashes_hd path)) as H. destruct (take_elem p) as [e r] eqn:E.
  destruct H as (_ & _ & Hne & Hl). intros [= <- <-]. pose proof (skip_slashes_length r). pose proof (skip_slashes_length path).
  fold p in H0. destruct e; [done|]. cbn in Hl. lia.
Qed.

(** ** The theorems *)

(** skipelem returns null exactly for a path without elements; otherwise it
    puts the first element, cut to 14 bytes, into name and returns the path of
    the remaining elements, shorter than before, without leading slashes, so that
    its first byte is NUL exactly when no element remains. *)
Theorem skipelem_spec path name (Hn : length name = DIRSIZ) :
  match skipelem path name with
  | None => elements path = []
  | Some (rest, name') =>
      exists e, elements path = e :: elements rest /\ cstrn DIRSIZ name' = take DIRSIZ e /\ length name' = DIRSIZ /\
        (length rest < length path)%nat /\ hd0 rest <> SLASH /\ (hd0 rest = 0 <-> elements rest = [])
  end.
Proof.
  destruct (skipelem path name) as [[rest name']|] eqn:Es.
  - pose proof (skipelem_Some _ _ _ _ Es) as Hlen. unfold skipelem in Es. rewrite <-(elements_skip path).
    destruct (Z.eqb_spec (hd0 (skip_slashes path)) 0) as [|Hz]; [done|].
    pose proof (take_elem_elements _ Hz (skip_slashes_hd path)) as H. destruct (take_elem _) as [e r]. injection Es as <- <-.
    destruct H as (He & Hnz & Hne & _). exists e. rewrite (elements_skip r). split_and!; try done.
    + by apply cstrn_copy_elem.
    + by apply length_copy_elem.
    + apply skip_slashes_hd.
    + rewrite <-(elements_skip r). symmetry. apply elements_nil, skip_slashes_hd.
  - unfold skipelem in Es. rewrite <-(elements_skip path). apply elements_nil; [apply skip_slashes_hd|].
    destruct (Z.eqb_spec (hd0 (skip_slashes path)) 0); [done|]. by destruct (take_elem _).
Qed.

Lemma skipelem_spec_witness :
  exists rest name', skipelem (bytes_of "///a//bb") (replicate DIRSIZ 0) = Some (rest, name') /\ rest = bytes_of "bb" /\ cstrn DIRSIZ name' = bytes_of "a".
Proof.
  pose proof (skipelem_spec (bytes_of "///a//bb") (replicate DIRSIZ 0) eq_refl) as H.
  destruct (skipelem (bytes_of "///a//bb") (replicate DIRSIZ 0)) as [[rest name']|] eqn:E; [|exfalso; by vm_compute in E].
  exists rest, name'. split; [done|]. destruct H as (e & He & Hc & _). vm_compute in E. injection E as <- <-. split; [done|].
  rewrite Hc. vm_compute in He. by injection He as <-.
Defined.

Section namex_ends.
Context {St : Type} `{BLi : BlockLayer St}.


End namex_ends.

