(* ===== verification/FsAlloc.v ===== *)
(** * The block allocator (balloc, bfree)

    The free map on disk, and what balloc and bfree do to it: balloc returns the
    first free block, marks it and zeroes it; bfree undoes the mark. *)

From S2P Require Import Prelude Sleeplock Block BlockLayer Bio Log LogProps FsDefs FsRules.

(** ** Bits of a bitmap block *)

Lemma land_shiftl_eqb x k : 0 <= k -> (Z.land x (Z.shiftl 1 k) =? 0) = negb (Z.testbit x k).
Proof.
  intros Hk. rewrite Z.shiftl_1_l. destruct (Z.testbit x k) eqn:E; cbn.
  - apply Z.eqb_neq. intros Hz. apply (f_equal (λ z, Z.testbit z k)) in Hz.
    rewrite Z.land_spec, Z.pow2_bits_true, E, Z.bits_0 in Hz by done. done.
  - apply Z.eqb_eq. apply Z.bits_inj'. intros n Hn. rewrite Z.land_spec, Z.bits_0.
    destruct (decide (n = k)) as [->|Hne]; [by rewrite E|]. rewrite Z.pow2_bits_false by done. apply andb_false_r.
Qed.

Lemma bit_clear_testbit d bi : bit_clear d bi = negb (Z.testbit (bit_byte d bi) (bi mod 8)).
Proof. unfold bit_clear, bit_mask. apply land_shiftl_eqb. apply Z.mod_pos_bound. lia. Qed.

Lemma bit_byte_insert (d : list Z) v bi bj : 0 <= bi < BPB -> 0 <= bj < BPB -> length d = BSIZE ->
  bit_byte (<[Z.to_nat (bi / 8) := v]> d) bj = if decide (bi / 8 = bj / 8) then v else bit_byte d bj.
Proof.
  unfold BPB, BSIZE, bit_byte. intros Hi Hj Hl. assert (0 <= bi / 8 < 512) by (split; [apply Z.div_pos|apply Z.div_lt_upper_bound]; lia).
  assert (0 <= bj / 8) by (apply Z.div_pos; lia). case_decide as E.
  - rewrite <-E, list_lookup_insert_eq by lia. done.
  - by rewrite list_lookup_insert_ne by lia.
Qed.

Lemma div8_mod8_inj bi bj : bi / 8 = bj / 8 -> bi mod 8 = bj mod 8 -> bi = bj.
Proof. intros. rewrite (Z.div_mod bi 8), (Z.div_mod bj 8) by lia. congruence. Qed.

Lemma bit_mark_spec d bi bj : 0 <= bi < BPB -> 0 <= bj < BPB -> length d = BSIZE ->
  bit_clear (bit_mark d bi) bj = if decide (bi = bj) then false else bit_clear d bj.
Proof.
  intros Hi Hj Hl. rewrite !bit_clear_testbit. unfold bit_mark. rewrite bit_byte_insert by done.
  assert (0 <= bj mod 8) by (apply Z.mod_pos_bound; lia). assert (0 <= bi mod 8) by (apply Z.mod_pos_bound; lia).
  destruct (decide (bi / 8 = bj / 8)) as [E|E].
  - unfold bit_mask. rewrite Z.shiftl_1_l, Z.lor_spec. replace (bit_byte d bi) with (bit_byte d bj) by (unfold bit_byte; by rewrite E).
    destruct (decide (bi = bj)) as [->|Hne]; [by rewrite Z.pow2_bits_true, orb_true_r|].
    rewrite Z.pow2_bits_false, orb_false_r; [done|]. intros Hm. by apply Hne, div8_mod8_inj.
  - rewrite decide_False; [done|]. by intros ->.
Qed.

Lemma bit_unmark_spec d bi bj : 0 <= bi < BPB -> 0 <= bj < BPB -> length d = BSIZE ->
  bit_clear (bit_unmark d bi) bj = if decide (bi = bj) then true else bit_clear d bj.
Proof.
  intros Hi Hj Hl. rewrite !bit_clear_testbit. unfold bit_unmark. rewrite bit_byte_insert by done.
  pose proof (Z.mod_pos_bound bj 8 ltac:(lia)). pose proof (Z.mod_pos_bound bi 8 ltac:(lia)).
  destruct (decide (bi / 8 = bj / 8)) as [E|E].
  - unfold bit_mask, u8. rewrite Z.shiftl_1_l, Z.land_spec. replace (bit_byte d bi) with (bit_byte d bj) by (unfold bit_byte; by rewrite E).
    rewrite Z.mod_pow2_bits_low, Z.lnot_spec by lia.
    destruct (decide (bi = bj)) as [->|Hne]; [rewrite Z.pow2_bits_true by lia; by rewrite andb_false_r|].
    rewrite Z.pow2_bits_false; [by rewrite andb_true_r|]. intros Hm. by apply Hne, div8_mod8_inj.
  - rewrite decide_False; [done|]. by intros ->.
Qed.

Lemma length_bit_mark d bi : length (bit_mark d bi) = length d.
Proof. apply length_insert. Qed.
Lemma length_bit_unmark d bi : length (bit_unmark d bi) = length d.
Proof. apply length_insert. Qed.

Lemma free_bit_Some n bi b size d x : free_bit n bi b size d = Some x ->
  bi <= x < BPB /\ b + x < size /\ bit_clear d x = true /\ forall y, bi <= y < x -> bit_clear d y = false.
Proof.
  revert bi. induction n as [|n IH]; intros bi; cbn; [done|].
  destruct ((bi <? BPB) && (b + bi <? size)) eqn:E; [|done]. apply andb_true_iff in E as [E1%Z.ltb_lt E2%Z.ltb_lt].
  destruct (bit_clear d bi) eqn:Ec.
  - intros [= <-]. split_and!; try done; lia.
  - intros (? & ? & ? & Hy)%IH. split_and!; try done; try lia. intros y Hby.
    destruct (decide (y = bi)) as [->|]; [done|]. apply Hy. lia.
Qed.

Lemma free_bit_None n bi b size d : free_bit n bi b size d = None -> BPB - bi <= Z.of_nat n ->
  forall y, bi <= y < BPB -> b + y < size -> bit_clear d y = false.
Proof.
  revert bi. induction n as [|n IH]; intros bi; cbn; [intros; lia|].
  destruct ((bi <? BPB) && (b + bi <? size)) eqn:E.
  - destruct (bit_clear d bi) eqn:Ec; [done|]. intros Hn Hle y Hy Hsz.
    destruct (decide (y = bi)) as [->|]; [done|]. apply (IH _ Hn); lia.
  - intros _ _ y Hy Hsz. apply andb_false_iff in E as [E%Z.ltb_ge|E%Z.ltb_ge]; lia.
Qed.

(** ** The free map *)

Definition is_free (c : Z -> block) (B : superblock) (b : Z) : bool := bit_clear (c (BBLOCK b B)) (b mod BPB).

(** Where the areas are: the log, the inodes and the free map lie before the data
    blocks, which start at [ds]. *)
Record fs_layout (n : Z) (B : superblock) (ds : Z) : Prop := {
  ly_size : 0 <= ds < sb_size B /\ sb_size B <= n /\ n < 2 ^ 31;
  ly_log : 0 < sb_logstart B /\ 0 <= sb_nlog B /\ sb_logstart B + sb_nlog B <= ds;
  ly_bmap b : 0 <= b < sb_size B -> 0 <= sb_bmapstart B + b / BPB < ds /\ home_b B (sb_bmapstart B + b / BPB);
  ly_inode i : 0 <= i < sb_ninodes B -> 0 <= sb_inodestart B + i / IPB < sb_bmapstart B /\ home_b B (sb_inodestart B + i / IPB)
}.

Section alloc.
Context {St : Type} `{BLi : BlockLayer St} `{BW : !BlockLaws St}.
Context (B : superblock) (ds : Z) (Hly : fs_layout bl_size B ds).

Lemma bblock b : 0 <= b < sb_size B -> BBLOCK b B = sb_bmapstart B + b / BPB.
Proof.
  intros Hb. destruct (ly_size _ _ _ Hly). destruct (ly_bmap _ _ _ Hly b Hb). unfold BBLOCK. rewrite u32_id; [lia|].
  unfold is_u32. lia.
Qed.

Lemma bblock_range b : 0 <= b < sb_size B -> 0 <= BBLOCK b B < ds /\ home_b B (BBLOCK b B).
Proof. intros Hb. rewrite (bblock b Hb). by apply (ly_bmap _ _ _ Hly). Qed.

Lemma data_home b : ds <= b -> home_b B b.
Proof. intros Hb. destruct (ly_log _ _ _ Hly) as (_ & _ & ?). right. lia. Qed.

(** The blocks before the data area are in use, and so are the held ones. *)
Definition meta_used (c : Z -> block) : Prop := forall b, 0 <= b < ds -> is_free c B b = false.
Definition held_used (c : Z -> block) (H : gmap nat Z) : Prop :=
  forall x, x ∈ held_blocks H -> ds <= x < sb_size B /\ is_free c B x = false.

(** The contents once block [b] is marked, and once it is also zeroed. *)
Definition c_mark (c : Z -> block) (b : Z) : Z -> block := upd c (BBLOCK b B) (bit_mark (c (BBLOCK b B)) (b mod BPB)).
Definition c_alloc (c : Z -> block) (b : Z) : Z -> block := upd (c_mark c b) b (replicate BSIZE 0).

Lemma R_bzero I c k H s b Q : fsees B I c (S k) H s -> ds <= b < sb_size B -> b ∉ held_blocks H -> (size H <= 2)%nat ->
  (forall s', fsees B I (upd c b (replicate BSIZE 0)) k H s' -> Q tt s') -> wp (bzero 1 b) Q s.
Proof.
  intros Hf Hb Hnh Hsz HQ. destruct (ly_size _ _ _ Hly) as (Hds & Hn & _). unfold bzero. apply wp_bind.
  eapply R_bread; [exact Hf|lia|done|done|]. intros i s1 Hi H1.
  eapply R_put; [exact H1|apply lookup_insert_eq|apply length_replicate|lia|apply data_home; lia|].
  intros s2 H2. eapply R_brelse; [exact H2|apply lookup_insert_eq|]. intros s3 H3. apply HQ.
  by rewrite delete_insert_id in H3.
Qed.

Lemma meta_not_data b x : 0 <= b < sb_size B -> ds <= x -> BBLOCK b B <> x.
Proof. intros Hb Hx. destruct (bblock_range b Hb). lia. Qed.

Lemma held_not_bmap c H b : held_used c H -> 0 <= b < sb_size B -> BBLOCK b B ∉ held_blocks H.
Proof. intros Hh Hb Hin. destruct (Hh _ Hin) as [? _]. destruct (bblock_range b Hb). lia. Qed.

(** The block that the search from [b0] on returns. *)
Definition first_free (c : Z -> block) (b : Z) : Prop :=
  ds <= b < sb_size B /\ is_free c B b = true /\ forall x, 0 <= x < b -> is_free c B x = false.

Lemma bpb_split b0 y : 0 <= b0 -> b0 mod BPB = 0 -> 0 <= y < BPB -> (b0 + y) mod BPB = y /\ (b0 + y) / BPB = b0 / BPB.
Proof.
  intros Hb Hm Hy. unfold BPB in *. rewrite (Z.div_mod b0 4096), Hm, Z.add_0_r by lia.
  replace (4096 * (b0 / 4096) + y) with (y + b0 / 4096 * 4096) by lia.
  rewrite Z.mod_add, Z.div_add, Z.mod_small, Z.div_small by lia.
  replace (4096 * (b0 / 4096)) with (b0 / 4096 * 4096) by lia. rewrite Z.div_mul by lia. lia.
Qed.

Lemma is_free_at c b0 y : 0 <= b0 -> b0 mod BPB = 0 -> 0 <= y < BPB ->
  is_free c B (b0 + y) = bit_clear (c (BBLOCK b0 B)) y.
Proof.
  intros Hb Hm Hy. unfold is_free, BBLOCK. by destruct (bpb_split b0 y Hb Hm Hy) as [-> ->].
Qed.

Lemma meta_used_free c b : meta_used c -> 0 <= b -> is_free c B b = true -> ds <= b.
Proof. intros Hm Hb Hf. destruct (decide (b < ds)); [|lia]. rewrite Hm in Hf; [done|lia]. Qed.

Lemma c_mark_length c b x : (forall y, length (c y) = BSIZE) -> length (c_mark c b x) = BSIZE.
Proof. intros Hl. unfold c_mark, upd. case_decide; [by rewrite length_bit_mark|done]. Qed.

(** The mark changes one bit of the map. *)
Lemma c_mark_free c b x : (forall y, length (c y) = BSIZE) -> 0 <= b < sb_size B -> 0 <= x < sb_size B ->
  is_free (c_mark c b) B x = if decide (x = b) then false else is_free c B x.
Proof.
  intros Hl Hb Hx. unfold is_free, c_mark. pose proof (Z.mod_pos_bound b BPB ltac:(unfold BPB; lia)).
  pose proof (Z.mod_pos_bound x BPB ltac:(unfold BPB; lia)). unfold upd. case_decide as E.
  - rewrite bit_mark_spec by done. rewrite !bblock in E by done.
    assert (x / BPB = b / BPB) as Ed by lia. destruct (decide (x = b)) as [->|Hne]; [by rewrite decide_True|].
    rewrite decide_False; [unfold BBLOCK; by rewrite Ed|]. intros Em. apply Hne.
    rewrite (Z.div_mod x BPB), (Z.div_mod b BPB) by (unfold BPB; lia). congruence.
  - rewrite decide_False; [done|]. by intros ->.
Qed.

Lemma c_alloc_free c b x : (forall y, length (c y) = BSIZE) -> ds <= b < sb_size B -> 0 <= x < sb_size B ->
  is_free (c_alloc c b) B x = if decide (x = b) then false else is_free c B x.
Proof.
  intros Hl Hb Hx. destruct (ly_size _ _ _ Hly). rewrite <-(c_mark_free c b x) by (done || lia).
  unfold is_free, c_alloc. rewrite upd_ne; [done|]. apply meta_not_data; [done|lia].
Qed.

Lemma R_balloc_found {A} I c k H s b0 y i (K : Z -> M (fsst St) A) Q :
  fsees B I c (S (S k)) (<[i := BBLOCK b0 B]> H) s -> H !! i = None -> (size H <= 2)%nat ->
  0 <= b0 < sb_size B -> b0 mod BPB = 0 -> 0 <= y < BPB -> ds <= b0 + y < sb_size B ->
  held_used c H -> is_free c B (b0 + y) = true ->
  (forall s', fsees B I (c_alloc c (b0 + y)) k H s' -> wp (K (b0 + y)) Q s') ->
  wp (fs_set i (bit_mark (c (BBLOCK b0 B)) y) ;; fs_log_write i ;; fs_brelse i ;; bzero 1 (b0 + y) ;; K (b0 + y)) Q s.
Proof.
  intros Hf Hi Hsz Hb0 Hm Hy Hb Hh Hfree HQ. destruct (ly_size _ _ _ Hly) as (Hds & Hn & _).
  destruct (bblock_range b0 Hb0) as [Hr Hhome]. destruct (bpb_split b0 y ltac:(lia) Hm Hy) as [Em Ed].
  eapply R_put; [exact Hf|apply lookup_insert_eq|rewrite length_bit_mark; by eapply fsees_length|lia|done|].
  intros s1 H1. apply wp_bind. eapply R_brelse; [exact H1|apply lookup_insert_eq|]. intros s2 H2.
  rewrite delete_insert_id in H2 by done. apply wp_bind.
  eapply R_bzero; [exact H2|done| |done|].
  { intros Hin. destruct (Hh _ Hin) as [_ E]. congruence. }
  intros s3 H3. apply HQ. eapply fsees_ext; [|exact H3]. intros x. unfold c_alloc, c_mark. unfold BBLOCK. by rewrite Em, Ed.
Qed.

Lemma R_balloc_from I c k H s n : forall b0 Q,
  fsees B I c (S (S k)) H s -> (size H <= 2)%nat -> meta_used c -> held_used c H ->
  0 <= b0 -> b0 mod BPB = 0 -> (forall x, 0 <= x < b0 -> x < sb_size B -> is_free c B x = false) ->
  (exists x, 0 <= x < sb_size B /\ is_free c B x = true) -> sb_size B - b0 < Z.of_nat n * BPB ->
  (forall b s', first_free c b -> fsees B I (c_alloc c b) k H s' -> Q b s') -> wp (balloc_from n 1 b0) Q s.
Proof.
  revert s. induction n as [|n IH]; intros s b0 Q Hf Hsz Hmu Hh Hb0 Hm Hall Hex Hfuel HQ; cbn [balloc_from].
  { destruct Hex as (x & Hx & Hfx). rewrite Hall in Hfx by lia. done. }
  apply wp_bind. eapply R_get; [exact Hf|]. intros -> _.
  destruct (Z.ltb_spec b0 (sb_size B)) as [Hlt|Hge].
  2: { destruct Hex as (x & Hx & Hfx). rewrite Hall in Hfx by lia. done. }
  destruct (bblock_range b0 ltac:(lia)) as [Hr _]. destruct (ly_size _ _ _ Hly) as (Hds & Hn & _).
  apply wp_bind. eapply R_bread; [exact Hf|lia|eapply held_not_bmap; [done|lia]|done|]. intros i s1 Hi H1.
  apply wp_bind. eapply R_data; [exact H1|apply lookup_insert_eq|].
  destruct (free_bit _ _ _ _ _) as [y|] eqn:Ey.
  - apply free_bit_Some in Ey as (Hy & Hsz' & Hcl & Hbefore).
    assert (is_free c B (b0 + y) = true) as Hfree by (rewrite is_free_at by lia; done).
    assert (first_free c (b0 + y)) as Hff.
    { split; [split; [apply (meta_used_free c); [done|lia|done]|lia]|]. split; [done|]. intros x Hx.
      destruct (decide (x < b0)); [apply Hall; lia|]. replace x with (b0 + (x - b0)) by lia.
      rewrite is_free_at by lia. apply Hbefore. lia. }
    eapply (R_balloc_found I c k H s1 b0 y i mret); try done; [apply Hff|].
    intros s2 H2. apply wp_ret. by apply HQ.
  - apply wp_bind. eapply R_brelse; [exact H1|apply lookup_insert_eq|]. intros s2 H2.
    rewrite delete_insert_id in H2 by done.
    apply IH; try done; unfold BPB in *; [lia| | |lia].
    + rewrite <-(Z.mul_1_l 4096) at 1. by rewrite Z.mod_add by lia.
    + intros x Hx Hxs. destruct (decide (x < b0)); [apply Hall; lia|].
      replace x with (b0 + (x - b0)) by lia. rewrite is_free_at by (unfold BPB; lia).
      eapply (free_bit_None _ _ _ _ _ Ey); unfold BPB; lia.
Qed.

Lemma R_balloc I c k H s Q :
  fsees B I c (S (S k)) H s -> (size H <= 2)%nat -> meta_used c -> held_used c H ->
  (exists x, 0 <= x < sb_size B /\ is_free c B x = true) ->
  (forall b s', first_free c b -> fsees B I (c_alloc c b) k H s' -> Q b s') -> wp (balloc 1) Q s.
Proof.
  intros Hf Hsz Hmu Hh Hex HQ. unfold balloc. apply wp_bind. eapply R_get; [exact Hf|]. intros -> _.
  destruct (ly_size _ _ _ Hly). eapply R_balloc_from; try done; [lia..|].
  pose proof (Z.div_mod (sb_size B) BPB ltac:(unfold BPB; lia)).
  pose proof (Z.mod_pos_bound (sb_size B) BPB ltac:(unfold BPB; lia)).
  assert (0 <= sb_size B / BPB) by (apply Z.div_pos; unfold BPB; lia). unfold BPB in *. lia.
Qed.

Definition c_free (c : Z -> block) (b : Z) : Z -> block := upd c (BBLOCK b B) (bit_unmark (c (BBLOCK b B)) (b mod BPB)).

Lemma c_free_free c b x : (forall y, length (c y) = BSIZE) -> 0 <= b < sb_size B -> 0 <= x < sb_size B ->
  is_free (c_free c b) B x = if decide (x = b) then true else is_free c B x.
Proof.
  intros Hl Hb Hx. unfold is_free, c_free. pose proof (Z.mod_pos_bound b BPB ltac:(unfold BPB; lia)).
  pose proof (Z.mod_pos_bound x BPB ltac:(unfold BPB; lia)). unfold upd. case_decide as E.
  - rewrite bit_unmark_spec by done. rewrite !bblock in E by done.
    assert (x / BPB = b / BPB) as Ed by lia. destruct (decide (x = b)) as [->|Hne]; [by rewrite decide_True|].
    rewrite decide_False; [unfold BBLOCK; by rewrite Ed|]. intros Em. apply Hne.
    rewrite (Z.div_mod x BPB), (Z.div_mod b BPB) by (unfold BPB; lia). congruence.
  - rewrite decide_False; [done|]. by intros ->.
Qed.

Lemma R_bfree I c k H s b Q : fsees B I c (S k) H s -> (size H <= 2)%nat -> held_used c H ->
  0 <= b < sb_size B -> is_free c B b = false ->
  (forall s', fsees B I (c_free c b) k H s' -> Q tt s') -> wp (bfree 1 b) Q s.
Proof.
  intros Hf Hsz Hh Hb Hfree HQ. destruct (bblock_range b Hb) as [Hr Hhome]. destruct (ly_size _ _ _ Hly) as (? & ? & ?).
  unfold bfree. apply wp_bind. eapply R_get; [exact Hf|]. intros -> _. apply wp_bind.
  eapply R_bread; [exact Hf|lia|by eapply held_not_bmap|done|]. intros i s1 Hi Hs1.
  apply wp_bind. eapply R_data; [exact Hs1|apply lookup_insert_eq|]. unfold is_free in Hfree. rewrite Hfree.
  eapply R_put; [exact Hs1|apply lookup_insert_eq|rewrite length_bit_unmark; by eapply fsees_length|lia|done|].
  intros s2 Hs2. eapply R_brelse; [exact Hs2|apply lookup_insert_eq|]. intros s3 Hs3. apply HQ.
  by rewrite delete_insert_id in Hs3.
Qed.

(** balloc returns the first free block, which is a data block that no buffer
    in hand holds, marks it in the free map, fills it with zeros and changes
    nothing else; it does not panic while a block is free. *)
Theorem balloc_first_free I c k H s
  (Hf : fsees B I c (S (S k)) H s) (Hsz : (size H <= 2)%nat) (Hmu : meta_used c) (Hh : held_used c H)
  (Hex : exists x, 0 <= x < sb_size B /\ is_free c B x = true) :
  wp (balloc 1) (λ b s', exists c', fsees B I c' k H s' /\
    ds <= b < sb_size B /\ is_free c B b = true /\ (forall x, 0 <= x < b -> is_free c B x = false) /\
    (b ∉ held_blocks H) /\ c' b = replicate BSIZE 0 /\
    (forall x, 0 <= x < sb_size B -> is_free c' B x = if decide (x = b) then false else is_free c B x) /\
    (forall x, x <> b -> x <> BBLOCK b B -> c' x = c x)) s.
Proof.
  eapply R_balloc; [exact Hf|done..|]. intros b s' (Hb & Hfr & Hbefore) Hs'. exists (c_alloc c b).
  split_and!; try done; try lia.
  - intros Hin. destruct (Hh _ Hin) as [_ E]. congruence.
  - apply upd_eq.
  - intros x Hx. apply c_alloc_free; try done. intros y. by eapply fsees_length.
  - intros x H1 H2. unfold c_alloc, c_mark. by rewrite !upd_ne.
Qed.

(** bfree of a block in use clears its bit in the free map and changes nothing
    else, so that balloc then free restores the map; bfree of a free block panics. *)
Theorem bfree_inverts_balloc I c k H s b
  (Hf : fsees B I c (S k) H s) (Hsz : (size H <= 2)%nat) (Hh : held_used c H) (Hb : 0 <= b < sb_size B) :
  (is_free c B b = true -> bfree 1 b s = Panic "freeing free block") /\
  (is_free c B b = false -> wp (bfree 1 b) (λ _ s', exists c', fsees B I c' k H s' /\
    (forall x, 0 <= x < sb_size B -> is_free c' B x = if decide (x = b) then true else is_free c B x) /\
    (forall x, x <> BBLOCK b B -> c' x = c x)) s).
Proof.
  assert (forall y, length (c y) = BSIZE) as Hl by (intros; by eapply fsees_length). split; intros Hfr.
  - destruct (bblock_range b Hb) as [Hr _]. destruct (ly_size _ _ _ Hly) as (? & ? & ?).
    assert (wp (fs_bread 1 (BBLOCK b B)) (λ i s1, H !! i = None /\ fsees B I c (S k) (<[i := BBLOCK b B]> H) s1) s) as Hrd
      by (eapply R_bread; [exact Hf|lia|by eapply held_not_bmap|done|auto]).
    apply wp_inv in Hrd as (i & s1 & Hrun & Hi & Hs1).
    assert (wp (fs_data i) (λ d s2, d = c (BBLOCK b B)) s1) as Hd by (eapply R_data; [exact Hs1|apply lookup_insert_eq|done]).
    apply wp_inv in Hd as (d & s2 & Hrun2 & ->).
    unfold bfree. erewrite bind_Ret by done. rewrite (fs_sb _ _ _ _ _ _ Hf).
    erewrite bind_Ret by exact Hrun. erewrite bind_Ret by exact Hrun2. unfold is_free in Hfr. by rewrite Hfr.
  - eapply R_bfree; [exact Hf|done..|]. intros s' Hs'. exists (c_free c b). split_and!; [done| |].
    + intros x Hx. by apply c_free_free.
    + intros x Hx. unfold c_free. by rewrite upd_ne.
Qed.
End alloc.

(** ** On a disk of 1000 blocks with 59 blocks of metadata *)
Definition sample_sb : superblock := mkSb 1000 941 200 30 2 32 58.
(** The free map with the first 59 blocks in use. *)
Definition sample_map : block := replicate 7 255 ++ [7] ++ replicate 504 0.
Definition sample_disk : Z -> block := upd (λ _, zero_block) 58 sample_map.

Lemma sample_layout : fs_layout 1000 sample_sb 59.
Proof.
  constructor; cbn; try lia.
  - intros b Hb. assert (b / BPB = 0) as -> by (apply Z.div_small; unfold BPB; lia). unfold home_b. cbn. lia.
  - intros i Hi. assert (0 <= i / IPB < 25).
    { unfold IPB. split; [apply Z.div_pos; lia|apply Z.div_lt_upper_bound; lia]. }
    unfold home_b. cbn. lia.
Qed.

Lemma sample_free b : 0 <= b < 1000 -> is_free sample_disk sample_sb b = (59 <=? b).
Proof.
  intros Hb. assert (forallb (λ b, Bool.eqb (is_free sample_disk sample_sb b) (59 <=? b)) (seqZ 0 1000) = true) as H
    by (vm_compute; reflexivity).
  rewrite forallb_forall in H. apply Bool.eqb_prop, H. apply list_elem_of_In, elem_of_seqZ. lia.
Qed.

Lemma sample_meta_used : meta_used sample_sb 59 sample_disk.
Proof. intros b Hb. rewrite sample_free by lia. apply Z.leb_gt. lia. Qed.

Section on_bio.
#[local] Instance disk1000 : BlockLayer bcache := bio_layer 1000 1.
#[local] Instance disk1000_laws : BlockLaws bcache := bio_laws 1000 1.

Lemma balloc_first_free_witness :
  wp (balloc 1) (λ b _, b = 59) (boot_state sample_disk sample_sb []).
Proof.
  eapply wp_mono.
  - apply (balloc_first_free (BLi := bio_layer 1000 1) (BW := bio_laws 1000 1) sample_sb 59 sample_layout [] sample_disk 0 ∅ (boot_state sample_disk sample_sb [])).
    + apply (boot_fsees sample_disk sample_sb []); cbn; try lia. intros b. unfold sample_disk, upd. by case_decide.
    + rewrite map_size_empty. lia.
    + exact sample_meta_used.
    + intros x Hx. rewrite held_empty in Hx. by apply not_elem_of_empty in Hx.
    + exists 59. split; [cbn; lia|]. by rewrite sample_free by lia.
  - cbn. intros b s' (c' & _ & Hb & _ & Hlt & _). destruct (decide (b = 59)); [done|].
    pose proof (Hlt 59 ltac:(lia)) as Hx. by rewrite sample_free in Hx by lia.
Defined.

Lemma bfree_inverts_balloc_witness :
  bfree 1 60 (boot_state sample_disk sample_sb []) = Panic "freeing free block".
Proof.
  refine (proj1 (bfree_inverts_balloc (BLi := bio_layer 1000 1) (BW := bio_laws 1000 1) sample_sb 59 sample_layout [] sample_disk 0 ∅
    (boot_state sample_disk sample_sb []) 60 _ _ _ _) _).
  - apply (boot_fsees sample_disk sample_sb []); cbn; try lia. intros b. unfold sample_disk, upd. by case_decide.
  - rewrite map_size_empty. lia.
  - intros x Hx. rewrite held_empty in Hx. by apply not_elem_of_empty in Hx.
  - cbn. lia.
  - by rewrite sample_free by lia.
Defined.
End on_bio.
