(* ===== verification/FsFile.v ===== *)
(** * File contents (bmap, readi, writei)

    A file is a function from offsets to bytes: the byte in the block that the
    direct addresses or the indirect block name, and 0 in a hole.  bmap may
    allocate blocks but never changes this function; readi returns it and writei
    updates it exactly on the range written. *)

From S2P Require Import Prelude Sleeplock Block BlockLayer Bio Log LogProps FsDefs FsRules FsAlloc.

Definition MAXBN : nat := 135.

(** ** The block map *)

Definition faddr (c : Z -> block) (i : inode) (bn : nat) : Z :=
  if (bn <? 7)%nat then addr_at i bn
  else if addr_at i 7 =? 0 then 0 else get32 (c (addr_at i 7)) (4 * (bn - 7)).

Definition fbyte (c : Z -> block) (i : inode) (p : nat) : Z :=
  let a := faddr c i (p / 512) in if a =? 0 then 0 else default 0 ((c a : list Z) !! (p mod 512)%nat).

Section file.
Context {St : Type} `{BLi : BlockLayer St} `{BW : !BlockLaws St}.
Context (B : superblock) (ds : Z) (Hly : fs_layout bl_size B ds).

Definition used_data (c : Z -> block) (x : Z) : Prop := ds <= x < sb_size B /\ is_free c B x = false.

(** The blocks of a file are data blocks in use, all different. *)
Record file_ok (c : Z -> block) (i : inode) : Prop := {
  fo_addrs : length (i_addrs i) = 8%nat;
  fo_dev : i_dev i = 1;
  fo_used bn : (bn < MAXBN)%nat -> faddr c i bn <> 0 -> used_data c (faddr c i bn);
  fo_ind : addr_at i 7 <> 0 -> used_data c (addr_at i 7);
  fo_inj a b : (a < MAXBN)%nat -> (b < MAXBN)%nat -> faddr c i a <> 0 -> faddr c i a = faddr c i b -> a = b;
  fo_ind_ne bn : (bn < MAXBN)%nat -> faddr c i bn <> 0 -> faddr c i bn <> addr_at i 7
}.

Definition owned (c : Z -> block) (i : inode) (x : Z) : Prop :=
  (exists bn, (bn < MAXBN)%nat /\ faddr c i bn = x) \/ addr_at i 7 = x.

(** The file now reads as [f]; it may have got blocks that were free, and
    nothing in use that is not the file's changed. *)
Record evolves (c : Z -> block) (i : inode) (f : nat -> Z) (c' : Z -> block) (i' : inode) : Prop := {
  ev_ok : file_ok c' i';
  ev_meta : meta_used B ds c';
  ev_inode : i' = set_i_addrs (i_addrs i') i;
  ev_bytes p : (p < MAXBN * 512)%nat -> fbyte c' i' p = f p;
  ev_used x : used_data c x -> used_data c' x;
  ev_frame x : used_data c x -> ~ owned c i x -> c' x = c x;
  ev_fresh x : owned c' i' x -> owned c i x \/ ~ used_data c x;
  ev_map bn : (bn < MAXBN)%nat -> faddr c i bn <> 0 -> faddr c' i' bn = faddr c i bn;
  ev_low x : x < sb_bmapstart B -> c' x = c x;
  ev_len x : length (c' x) = BSIZE
}.
Definition grows (c : Z -> block) (i : inode) : (Z -> block) -> inode -> Prop := evolves c i (fbyte c i).

Lemma set_i_addrs_id i : set_i_addrs (i_addrs i) i = i.
Proof. by destruct i. Qed.

Lemma grows_refl c i : file_ok c i -> meta_used B ds c -> (forall x, length (c x) = BSIZE) -> grows c i c i.
Proof. intros. constructor; try done; [by rewrite set_i_addrs_id|by left]. Qed.

(** ** Allocation keeps what is in use *)

Section alloc_step.
Context (c : Z -> block) (b : Z).
Hypothesis Hlen : forall x, length (c x) = BSIZE.
Hypothesis Hff : first_free B ds c b.

Lemma alloc_keep x : used_data c x -> c_alloc B c b x = c x.
Proof.
  intros [Hx Hu]. destruct Hff as (Hb & Hfr & _). unfold c_alloc, c_mark.
  rewrite !upd_ne; [done|..]; [|intros ->; congruence]. intros E. destruct (bblock_range B ds Hly b); [|lia].
  destruct (ly_size _ _ _ Hly). lia.
Qed.

Lemma alloc_used x : used_data (c_alloc B c b) x <-> x = b \/ used_data c x.
Proof.
  destruct Hff as (Hb & Hfr & _). unfold used_data. destruct (ly_size _ _ _ Hly).
  destruct (decide (ds <= x < sb_size B)) as [Hx|Hx]; [|naive_solver].
  rewrite (c_alloc_free B ds Hly c b x Hlen Hb) by lia. case_decide; naive_solver.
Qed.

Lemma alloc_meta : meta_used B ds c -> meta_used B ds (c_alloc B c b).
Proof.
  intros Hm x Hx. destruct Hff as (Hb & _ & _). destruct (ly_size _ _ _ Hly).
  rewrite (c_alloc_free B ds Hly c b x Hlen Hb) by lia. case_decide; [done|by apply Hm].
Qed.

Lemma alloc_low x : x < sb_bmapstart B -> c_alloc B c b x = c x.
Proof.
  intros Hx. destruct Hff as (Hb & _). destruct (ly_size _ _ _ Hly). unfold c_alloc, c_mark.
  rewrite (bblock B ds Hly) by lia. assert (0 <= b / BPB) by (apply Z.div_pos; unfold BPB; lia).
  destruct (ly_bmap _ _ _ Hly b ltac:(lia)) as [? _]. rewrite !upd_ne by lia. done.
Qed.

Lemma alloc_new : c_alloc B c b b = replicate BSIZE 0.
Proof. apply upd_eq. Qed.

Lemma alloc_len x : length (c_alloc B c b x) = BSIZE.
Proof.
  unfold c_alloc, upd at 1. case_decide; [apply length_replicate|]. by apply c_mark_length.
Qed.

Lemma alloc_not_used : ~ used_data c b.
Proof. intros [_ Hu]. destruct Hff as (_ & Hfr & _). congruence. Qed.

Lemma alloc_pos : 0 < b.
Proof. destruct Hff as (Hb & _). destruct (ly_log _ _ _ Hly). destruct (ly_size _ _ _ Hly). lia. Qed.
End alloc_step.

Lemma bn_of p : (p < MAXBN * 512)%nat -> (p / 512 < MAXBN)%nat.
Proof. intros. apply Nat.Div0.div_lt_upper_bound. lia. Qed.

(** The block map got [b], free before and now zeroed, for block [bn]. *)
Lemma grows_block c i c' i' bn b : file_ok c i -> (bn < MAXBN)%nat -> faddr c i bn = 0 -> 0 < b -> ~ used_data c b ->
  length (i_addrs i') = 8%nat -> i' = set_i_addrs (i_addrs i') i -> addr_at i' 7 = addr_at i 7 ->
  (forall n, (n < MAXBN)%nat -> faddr c' i' n = if decide (n = bn) then b else faddr c i n) ->
  (forall x, used_data c' x <-> x = b \/ used_data c x) -> (forall x, used_data c x -> x <> addr_at i 7 -> c' x = c x) ->
  (forall x, x < sb_bmapstart B -> c' x = c x) -> c' b = replicate BSIZE 0 -> meta_used B ds c' -> (forall x, length (c' x) = BSIZE) -> grows c i c' i'.
Proof.
  intros Hok Hbn Hz Hb Hnu Hlen Hi' Hind Hfa Hu Hfr Hlow Hzero Hmeta Hl.
  assert (addr_at i 7 <> b) as Hib.
  { intros E. apply Hnu. rewrite <-E. apply (fo_ind _ _ Hok). lia. }
  constructor; try done.
  - constructor; [done| | | | |].
    + rewrite Hi'. apply (fo_dev _ _ Hok).
    + intros n Hn. rewrite Hfa by done. case_decide; intros; apply Hu; [by left|right]. by apply (fo_used _ _ Hok).
    + rewrite Hind. intros. apply Hu. right. by apply (fo_ind _ _ Hok).
    + intros n m Hn Hm. rewrite !Hfa by done. repeat case_decide; subst; intros Hne E; try done.
      * destruct Hnu. rewrite E. apply (fo_used _ _ Hok); [done|lia].
      * destruct Hnu. rewrite <-E. by apply (fo_used _ _ Hok).
      * by apply (fo_inj _ _ Hok).
    + intros n Hn. rewrite Hfa, Hind by done. case_decide; [congruence|]. by apply (fo_ind_ne _ _ Hok).
  - intros p Hp. unfold fbyte. pose proof (bn_of p Hp) as Hpn. rewrite Hfa by done. case_decide as E.
    + rewrite E, Hz, Z.eqb_refl. rewrite (proj2 (Z.eqb_neq b 0)) by lia. rewrite Hzero.
      by rewrite lookup_replicate_2 by (apply (Nat.mod_upper_bound p 512); lia).
    + destruct (Z.eqb_spec (faddr c i (p / 512)) 0) as [|Hne]; [done|].
      rewrite Hfr; [done|by apply (fo_used _ _ Hok)|by apply (fo_ind_ne _ _ Hok)].
  - intros x Hx. apply Hu. by right.
  - intros x Hx Ho. apply Hfr; [done|]. intros ->. apply Ho. by right.
  - intros x [(n & Hn & <-)|<-].
    + rewrite Hfa by done. case_decide; [by right|]. left. left. eauto.
    + left. right. by rewrite Hind.
  - intros n Hn Hne. rewrite Hfa by done. case_decide; [congruence|done].
Qed.

Lemma addr_at_set k b i : (k < length (i_addrs i))%nat -> addr_at (set_addr k b i) k = b.
Proof. intros. unfold addr_at, set_addr. cbn. by rewrite list_lookup_insert_eq by lia. Qed.

Lemma addr_at_set_ne k n b i : k <> n -> addr_at (set_addr k b i) n = addr_at i n.
Proof. intros. unfold addr_at, set_addr. cbn. by rewrite list_lookup_insert_ne by lia. Qed.

(** ** The block map after each kind of allocation *)

(** A new indirect block has no entries. *)
Lemma faddr_newind c i b n : file_ok c i -> (n < MAXBN)%nat -> addr_at i 7 = 0 -> first_free B ds c b ->
  faddr (c_alloc B c b) (set_addr 7 b i) n = faddr c i n.
Proof.
  intros Hok Hn Hz Hff. pose proof (fo_addrs _ _ Hok) as Hlen. pose proof (alloc_pos c b Hff) as Hb. unfold faddr. destruct (Nat.ltb_spec n 7).
  - by apply addr_at_set_ne; lia.
  - rewrite addr_at_set by lia. rewrite Hz, Z.eqb_refl. rewrite (proj2 (Z.eqb_neq b 0)) by lia. rewrite alloc_new. unfold get32, slice.
    rewrite drop_replicate, take_replicate. unfold BSIZE, MAXBN in *.
    replace (4 `min` (512 - 4 * (n - 7)))%nat with 4%nat by lia. done.
Qed.

Lemma faddr_direct c i bn b n : file_ok c i -> (bn < 7)%nat -> first_free B ds c b ->
  faddr (c_alloc B c b) (set_addr bn b i) n = if decide (n = bn) then b else faddr c i n.
Proof.
  intros Hok Hbn Hff. pose proof (fo_addrs _ _ Hok) as Hlen. unfold faddr. rewrite (addr_at_set_ne bn 7) by lia. destruct (Nat.ltb_spec n 7).
  - case_decide as E; [subst; apply addr_at_set; lia|]. by apply addr_at_set_ne; lia.
  - rewrite decide_False by lia. case_match eqn:E; [done|]. apply Z.eqb_neq in E.
    rewrite alloc_keep; [done|done|by apply (fo_ind _ _ Hok)].
Qed.

Lemma faddr_newentry c i bn b n : file_ok c i -> (forall x, length (c x) = BSIZE) -> (7 <= bn < MAXBN)%nat -> (n < MAXBN)%nat ->
  addr_at i 7 <> 0 -> first_free B ds c b ->
  faddr (upd (c_alloc B c b) (addr_at i 7) (put32 (c_alloc B c b (addr_at i 7)) (4 * (bn - 7)) b)) i n =
  if decide (n = bn) then b else faddr c i n.
Proof.
  intros Hok Hl Hbn Hn Hi7 Hff. set (ind := addr_at i 7) in *.
  pose proof (fo_ind _ _ Hok Hi7) as Hind. fold ind in Hind. rewrite (alloc_keep c b Hff ind Hind).
  unfold faddr. destruct (Nat.ltb_spec n 7); [by rewrite decide_False by lia|].
  fold ind. rewrite (proj2 (Z.eqb_neq ind 0)) by done. rewrite upd_eq. unfold MAXBN in *.
  destruct (ly_size _ _ _ Hly) as (? & ? & ?). destruct Hff as (? & _). case_decide as E.
  - subst n. apply get32_put32; [rewrite Hl; unfold BSIZE; lia|unfold is_u32; lia].
  - apply get32_put32_other; [rewrite Hl; unfold BSIZE; lia|lia].
Qed.

(** The file got an indirect block. *)
Lemma grows_ind c i b : file_ok c i -> (forall x, length (c x) = BSIZE) -> meta_used B ds c ->
  addr_at i 7 = 0 -> first_free B ds c b -> grows c i (c_alloc B c b) (set_addr 7 b i).
Proof.
  intros Hok Hl Hmeta Hz Hff. pose proof (fo_addrs _ _ Hok) as Hlen.
  pose proof (alloc_pos c b Hff) as Hb. pose proof (alloc_not_used c b Hff) as Hnu.
  pose proof (addr_at_set 7 b i ltac:(lia)) as E7.
  assert (forall n, (n < MAXBN)%nat -> faddr (c_alloc B c b) (set_addr 7 b i) n = faddr c i n) as Hfa by (intros; by apply faddr_newind).
  pose proof (alloc_used c b Hl Hff) as Hu. constructor.
  - constructor.
    + cbn. by rewrite length_insert.
    + apply (fo_dev _ _ Hok).
    + intros n Hn. rewrite Hfa by done. intros. apply Hu. right. by apply (fo_used _ _ Hok).
    + intros _. rewrite E7. apply Hu. by left.
    + intros n m Hn Hm. rewrite !Hfa by done. by apply (fo_inj _ _ Hok).
    + intros n Hn. rewrite Hfa, E7 by done. intros Hne E. apply Hnu. rewrite <-E. by apply (fo_used _ _ Hok).
  - by apply alloc_meta.
  - done.
  - intros p Hp. unfold fbyte. rewrite Hfa by (by apply bn_of). case_match eqn:E; [done|]. apply Z.eqb_neq in E.
    rewrite alloc_keep; [done|done|]. apply (fo_used _ _ Hok); [by apply bn_of|done].
  - intros x Hx. apply Hu. by right.
  - intros x Hx _. by apply alloc_keep.
  - intros x [(n & Hn & <-)|<-].
    + rewrite Hfa by done. left. left. eauto.
    + rewrite E7. by right.
  - intros n Hn _. by apply Hfa.
  - intros x. by apply alloc_low.
  - intros x. by apply alloc_len.
Qed.

Lemma evolves_trans c i f c1 i1 g c2 i2 : evolves c i f c1 i1 -> evolves c1 i1 g c2 i2 -> evolves c i g c2 i2.
Proof.
  intros [K1 M1 I1 B1 U1 F1 O1 P1 W1 L1] [K2 M2 I2 B2 U2 F2 O2 P2 W2 L2]. constructor; try done; auto.
  - rewrite I2 at 1. rewrite I1. done.
  - intros x Hx Ho. rewrite F2; auto. intros Ho1. destruct (O1 x Ho1); done.
  - intros x Hx. destruct (O2 x Hx) as [Hx1|Hnu]; auto.
  - intros bn Hbn Hne. rewrite P2; rewrite ?P1; done.
  - intros x Hx. rewrite W2; auto.
Qed.

Lemma grows_trans c i c1 i1 c2 i2 : grows c i c1 i1 -> grows c1 i1 c2 i2 -> grows c i c2 i2.
Proof.
  intros G1 G2. pose proof (evolves_trans _ _ _ _ _ _ _ _ G1 G2) as [K M I E U F O P W L]. constructor; try done.
  intros p Hp. rewrite E by done. by apply (ev_bytes _ _ _ _ _ G1).
Qed.

(** ** Counting the free blocks *)

Definition nfree (c : Z -> block) : nat := length (filter (λ b, is_free c B b = true) (seqZ 0 (sb_size B))).

Lemma nfree_ext c c' : (forall x, 0 <= x < sb_size B -> is_free c' B x = is_free c B x) -> nfree c' = nfree c.
Proof.
  intros E. unfold nfree. apply length_filter_ext. intros x Hx%elem_of_seqZ. rewrite E by lia. done.
Qed.

Lemma nfree_ex c : (0 < nfree c)%nat -> exists x, 0 <= x < sb_size B /\ is_free c B x = true.
Proof.
  unfold nfree. intros Hn. destruct (filter _ _) as [|x l] eqn:E; [cbn in Hn; lia|].
  assert (x ∈ filter (λ b, is_free c B b = true) (seqZ 0 (sb_size B))) as Hx by (rewrite E; constructor).
  apply list_elem_of_filter in Hx as [Hf Hx%elem_of_seqZ]. exists x. split; [lia|done].
Qed.

Lemma nfree_alloc c b : (forall x, length (c x) = BSIZE) -> first_free B ds c b -> nfree c = S (nfree (c_alloc B c b)).
Proof.
  intros Hl Hff. pose proof Hff as (Hb & Hfr & _). destruct (ly_size _ _ _ Hly). unfold nfree.
  rewrite (length_filter_ne b); [|apply NoDup_filter, NoDup_seqZ|].
  - f_equal. rewrite list_filter_filter. apply length_filter_ext. intros x Hx%elem_of_seqZ.
    rewrite (c_alloc_free B ds Hly c b x Hl Hb) by lia. case_decide; naive_solver.
  - apply list_elem_of_filter. split; [done|]. apply elem_of_seqZ. lia.
Qed.

Lemma free_upd c a v x : ds <= a -> 0 <= x < sb_size B -> is_free (upd c a v) B x = is_free c B x.
Proof. intros Ha Hx. unfold is_free. rewrite upd_ne; [done|]. by eapply (meta_not_data B ds Hly). Qed.

(** ** The three ways bmap allocates *)

Lemma grows_direct c i bn b : file_ok c i -> (forall x, length (c x) = BSIZE) -> meta_used B ds c ->
  (bn < 7)%nat -> addr_at i bn = 0 -> first_free B ds c b -> grows c i (c_alloc B c b) (set_addr bn b i).
Proof.
  intros Hok Hl Hmeta Hbn Hz Hff. pose proof (fo_addrs _ _ Hok) as Hlen.
  pose proof (addr_at_set_ne bn 7 b i ltac:(lia)) as E7.
  apply (grows_block c i _ _ bn b); try done.
  - unfold MAXBN. lia.
  - unfold faddr. by rewrite (proj2 (Nat.ltb_lt _ _)).
  - by apply (alloc_pos c).
  - by apply alloc_not_used.
  - cbn. by rewrite length_insert.
  - intros n Hn. by apply faddr_direct.
  - by apply alloc_used.
  - intros x Hx _. by apply alloc_keep.
  - intros x. by apply alloc_low.
  - apply alloc_new.
  - by apply alloc_meta.
  - intros x. by apply alloc_len.
Qed.

Lemma grows_entry c i bn b : file_ok c i -> (forall x, length (c x) = BSIZE) -> meta_used B ds c ->
  (7 <= bn < MAXBN)%nat -> addr_at i 7 <> 0 -> faddr c i bn = 0 -> first_free B ds c b ->
  grows c i (upd (c_alloc B c b) (addr_at i 7) (put32 (c_alloc B c b (addr_at i 7)) (4 * (bn - 7)) b)) i.
Proof.
  intros Hok Hl Hmeta Hbn Hi7 Hz Hff. set (ind := addr_at i 7) in *.
  pose proof (fo_ind _ _ Hok Hi7) as Hind. fold ind in Hind. pose proof (alloc_keep c b Hff ind Hind) as Ek. rewrite Ek.
  pose proof (alloc_not_used c b Hff) as Hnu. pose proof (alloc_pos c b Hff).
  assert (ind <> b) as Hne by (intros ->; done).
  assert (length (put32 (c ind) (4 * (bn - 7)) b) = BSIZE) as Hpl by (by rewrite length_put32).
  apply (grows_block c i _ _ bn b); try done.
  - lia.
  - apply (fo_addrs _ _ Hok).
  - by rewrite set_i_addrs_id.
  - intros n Hn. rewrite <-Ek. by apply faddr_newentry.
  - intros x. unfold used_data. rewrite <-(alloc_used c b Hl Hff x). unfold used_data.
    destruct (decide (ds <= x < sb_size B)); [|naive_solver]. destruct Hind. destruct (ly_size _ _ _ Hly).
    by rewrite free_upd by lia.
  - intros x Hx Hxi. rewrite upd_ne by done. by apply alloc_keep.
  - intros x Hx. destruct (ly_bmap _ _ _ Hly 0 ltac:(destruct (ly_size _ _ _ Hly); lia)) as [Hr0 _].
    change (0 / BPB) with 0 in Hr0. destruct Hind. rewrite upd_ne by lia. by apply alloc_low.
  - rewrite upd_ne by done. apply alloc_new.
  - intros x Hx. destruct Hind. destruct (ly_size _ _ _ Hly). rewrite free_upd by lia. by apply alloc_meta.
  - intros x. unfold upd. case_decide; [done|]. by apply alloc_len.
Qed.

(** ** bmap *)

Lemma len_of I c k H s : fsees B I c k H s -> forall x, length (c x) = BSIZE.
Proof. intros Hf x. by eapply fsees_length. Qed.

Lemma insert_same (I : list inode) ip (i : inode) : I !! ip = Some i -> <[ip := i]> I = I.
Proof. apply list_insert_id. Qed.

Lemma held_used_empty c : held_used B ds c ∅.
Proof. intros x Hx. rewrite held_empty in Hx. set_solver. Qed.

(** The block of the inode's slot [n], allocated when there is none. *)
Lemma R_slot I c i k s ip n Q : fsees B I c (S (S k)) ∅ s -> I !! ip = Some i -> file_ok c i -> meta_used B ds c ->
  (1 <= nfree c)%nat -> (n < 8)%nat ->
  (forall c' i' s', fsees B (<[ip := i']> I) c' k ∅ s' -> grows c i c' i' -> addr_at i' n <> 0 ->
     (nfree c <= nfree c' + 1)%nat -> (addr_at i n <> 0 -> i' = i) -> Q (addr_at i' n) s') ->
  wp (if addr_at i n =? 0 then addr ← balloc (i_dev i); ip_upd ip (set_addr n addr) ;; mret addr
      else mret (addr_at i n)) Q s.
Proof.
  intros Hf Hi Hok Hmu Hn Hlt HQ. pose proof (len_of _ _ _ _ _ Hf) as Hl. destruct (Z.eqb_spec (addr_at i n) 0) as [E|E].
  - rewrite (fo_dev _ _ Hok). apply wp_bind.
    eapply (R_balloc B ds Hly); [exact Hf|rewrite map_size_empty; lia|done|apply held_used_empty|by apply nfree_ex|].
    intros b s' Hff Hs'. apply wp_bind. eapply R_ip_upd; [exact Hs'|exact Hi|]. intros s2 Hs2. apply wp_ret.
    assert (addr_at (set_addr n b i) n = b) as Eb.
    { unfold addr_at, set_addr. cbn. rewrite list_lookup_insert_eq; [done|]. by rewrite (fo_addrs _ _ Hok). }
    rewrite <-Eb at 1. eapply HQ; [exact Hs2| | | |done].
    + destruct (decide (n = 7%nat)) as [->|Hne]; [by apply grows_ind|]. apply grows_direct; try done. lia.
    + rewrite Eb. pose proof (alloc_pos c b Hff). lia.
    + rewrite (nfree_alloc c b Hl Hff). lia.
  - apply wp_ret. eapply HQ; [|by apply grows_refl|done|lia|done]. rewrite insert_same by done.
    eapply fsees_weaken; [|exact Hf]. lia.
Qed.

Lemma faddr_ind c i bn : (7 <= bn)%nat -> addr_at i 7 <> 0 -> faddr c i bn = get32 (c (addr_at i 7)) (4 * (bn - 7)).
Proof. intros Hbn H7. unfold faddr. rewrite (proj2 (Nat.ltb_ge bn 7) Hbn). by rewrite (proj2 (Z.eqb_neq _ _) H7). Qed.

(** The entry of the indirect block, allocated when there is none. *)
Lemma R_entry I c i k s ip bn Q : fsees B I c (S (S (S k))) ∅ s -> I !! ip = Some i -> file_ok c i -> meta_used B ds c ->
  (1 <= nfree c)%nat -> (7 <= bn < MAXBN)%nat -> addr_at i 7 <> 0 ->
  (forall c' s', fsees B I c' k ∅ s' -> grows c i c' i -> faddr c' i bn <> 0 ->
     (nfree c <= nfree c' + 1)%nat -> Q (faddr c' i bn) s') ->
  wp (bp ← fs_bread (i_dev i) (addr_at i 7);
      d ← fs_data bp;
      let a := get32 d (4 * (bn - 7)) in
      addr ← (if a =? 0 then
                addr ← balloc (i_dev i);
                d ← fs_data bp;
                fs_set bp (put32 d (4 * (bn - 7)) addr) ;;
                fs_log_write bp ;;
                mret addr
              else mret a);
      fs_brelse bp ;;
      mret addr) Q s.
Proof.
  intros Hf Hi Hok Hmu Hn Hbn H7 HQ. pose proof (len_of _ _ _ _ _ Hf) as Hl. rewrite (fo_dev _ _ Hok).
  pose proof (fo_ind _ _ Hok H7) as [Hr Hu]. destruct (ly_size _ _ _ Hly) as (Hds & Hsz & ?).
  apply wp_bind. eapply R_bread; [exact Hf|lia|rewrite held_empty; set_solver|rewrite map_size_empty; lia|].
  intros j s1 Hj H1. apply wp_bind. eapply R_data; [exact H1|apply lookup_insert_eq|]. cbn zeta.
  assert (faddr c i bn = get32 (c (addr_at i 7)) (4 * (bn - 7))) as Ea.
  { apply faddr_ind; [lia|done]. }
  rewrite <-Ea. apply wp_bind. destruct (Z.eqb_spec (faddr c i bn) 0) as [E|E].
  - apply wp_bind. eapply (R_balloc B ds Hly); [exact H1| |done| |by apply nfree_ex|].
    { rewrite map_size_insert_None, map_size_empty by done. lia. }
    { intros x. rewrite held_insert, held_empty by done. intros Hx. assert (x = addr_at i 7) as -> by set_solver. done. }
    intros b s2 Hff H2. apply wp_bind. eapply R_data; [exact H2|apply lookup_insert_eq|].
    pose proof (grows_entry c i bn b Hok Hl Hmu Hbn H7 E Hff) as G.
    eapply R_put; [exact H2|apply lookup_insert_eq| |lia|apply (data_home B ds Hly); lia|].
    { rewrite length_put32. by apply alloc_len. }
    intros s3 H3. apply wp_ret, wp_bind. eapply R_brelse; [exact H3|apply lookup_insert_eq|].
    intros s4 H4. rewrite delete_insert_id in H4 by done. apply wp_ret.
    assert (faddr (upd (c_alloc B c b) (addr_at i 7) (put32 (c_alloc B c b (addr_at i 7)) (4 * (bn - 7)) b)) i bn = b) as Eb.
    { rewrite faddr_ind, upd_eq by (done || lia).
      apply get32_put32; [rewrite (alloc_len c b Hl); unfold BSIZE, MAXBN in *; lia|]. destruct Hff as (? & _). unfold is_u32. lia. }
    rewrite <-Eb at 1. eapply HQ; [exact H4|exact G|rewrite Eb; pose proof (alloc_pos c b Hff); lia|].
    rewrite (nfree_alloc c b Hl Hff). rewrite (nfree_ext (c_alloc B c b) (upd _ _ _)); [lia|]. intros x Hx. apply free_upd; lia.
  - apply wp_ret, wp_bind. eapply R_brelse; [exact H1|apply lookup_insert_eq|]. intros s2 H2.
    rewrite delete_insert_id in H2 by done. apply wp_ret. eapply HQ; [|by apply grows_refl|done|lia].
    eapply fsees_weaken; [|exact H2]. lia.
Qed.

Lemma R_bmap I c i k s ip bn Q : fsees B I c (5 + k) ∅ s -> I !! ip = Some i -> file_ok c i -> meta_used B ds c ->
  (2 <= nfree c)%nat -> (bn < MAXBN)%nat ->
  (forall c' i' s', fsees B (<[ip := i']> I) c' k ∅ s' -> grows c i c' i' -> faddr c' i' bn <> 0 ->
     (nfree c <= nfree c' + 2)%nat -> (faddr c i bn <> 0 -> i' = i) -> Q (faddr c' i' bn) s') -> wp (bmap ip (Z.of_nat bn)) Q s.
Proof.
  intros Hf Hi Hok Hmu Hn Hbn HQ. unfold bmap. apply wp_bind. eapply R_ip_get; [exact Hf|exact Hi|].
  destruct (Z.ltb_spec (Z.of_nat bn) (Z.of_nat NDIRECT)) as [Hd|Hd]; unfold NDIRECT in *.
  - rewrite Nat2Z.id. eapply (R_slot I c i k); [eapply fsees_weaken; [|exact Hf]; lia|done|done|done|lia|lia|].
    intros c' i' s' Hs' G Hne Hnf Hsame. assert (addr_at i' bn = faddr c' i' bn) as E.
    { unfold faddr. by rewrite (proj2 (Nat.ltb_lt bn 7)) by lia. }
    rewrite E in *. eapply HQ; [exact Hs'|exact G|done|lia|]. intros Hne'. apply Hsame. revert Hne'.
    unfold faddr. by rewrite (proj2 (Nat.ltb_lt bn 7)) by lia.
  - unfold MAXBN, NINDIRECT in *. rewrite (proj2 (Z.ltb_lt (Z.of_nat bn - Z.of_nat 7) (Z.of_nat 128))) by lia.
    replace (Z.to_nat (Z.of_nat bn - Z.of_nat 7)) with (bn - 7)%nat by lia.
    apply wp_bind. eapply (R_slot I c i (3 + k)); [eapply fsees_weaken; [|exact Hf]; lia|done|done|done|lia|lia|].
    intros c1 i1 s1 H1 G1 H7 Hn1 Hsame. rewrite (fo_dev _ _ Hok), <-(fo_dev _ _ (ev_ok _ _ _ _ _ G1)).
    eapply R_entry; [exact H1|by apply list_lookup_insert_eq; eapply lookup_lt_Some|apply (ev_ok _ _ _ _ _ G1)
      |apply (ev_meta _ _ _ _ _ G1)|lia|unfold MAXBN; lia|done|].
    intros c2 s2 H2 G2 Hne Hn2. eapply HQ; [exact H2|by eapply grows_trans|done|lia|]. intros Hne'. apply Hsame. intros E7. apply Hne'.
    unfold faddr. rewrite (proj2 (Nat.ltb_ge bn 7)) by lia. by rewrite E7.
Qed.
End file.
