(* ===== verification/FsRW.v ===== *)
(** * Reading and writing files (readi, writei, iupdate)

    readi returns the bytes of the file and changes nothing; writei stores the
    bytes at their place, grows the file as needed, keeps the inode on disk in
    step with the one in memory and leaves every other file alone. *)

From S2P Require Import Prelude CString Sleeplock Block BlockLayer Bio Log LogProps FsDefs InodeProps FsRules FsAlloc FsFile.

(** Kept folded: the offsets of a file are compared to [MAXBN * 512] as naturals. *)
Lemma MAXBN_eq : MAXBN = 135%nat.
Proof. done. Qed.
#[local] Opaque MAXBN.

(** The file [f] after [data] is stored at [off]. *)
Definition put_bytes (off : nat) (data : list Z) (f : nat -> Z) (p : nat) : Z :=
  if decide (off <= p < off + length data)%nat then default 0 (data !! (p - off)%nat) else f p.

Lemma put_bytes_nil off f p : put_bytes off [] f p = f p.
Proof. unfold put_bytes. rewrite decide_False; [done|]. cbn. lia. Qed.

Lemma put_bytes_ext off data f g p : f p = g p -> put_bytes off data f p = put_bytes off data g p.
Proof. intros E. unfold put_bytes. by rewrite E. Qed.

Lemma put_bytes_split off data m f p : (m <= length data)%nat ->
  put_bytes (off + m) (drop m data) (put_bytes off (take m data) f) p = put_bytes off data f p.
Proof.
  intros Hm. unfold put_bytes. rewrite length_take, length_drop.
  destruct (decide (off + m <= p < off + m + (length data - m))%nat).
  - rewrite (decide_True (P := (off <= p < off + length data)%nat)) by lia. rewrite lookup_drop. do 2 f_equal. lia.
  - destruct (decide (off <= p < off + m `min` length data)%nat).
    + rewrite decide_True by lia. by rewrite lookup_take_lt by lia.
    + by rewrite decide_False by lia.
Qed.

Lemma lookup_splice (b : list Z) o bs j : (o + length bs <= length b)%nat -> (j < length b)%nat ->
  (splice o bs b : list Z) !! j = if decide (o <= j < o + length bs)%nat then bs !! (j - o)%nat else b !! j.
Proof.
  intros Hl Hj. rewrite splice_app by done. destruct (decide (j < o)%nat).
  - rewrite decide_False by lia. rewrite lookup_app_l by (rewrite length_take; lia). by rewrite lookup_take_lt.
  - rewrite lookup_app_r by (rewrite length_take; lia). rewrite length_take, Nat.min_l by lia. case_decide.
    + by rewrite lookup_app_l by lia.
    + rewrite lookup_app_r by lia. rewrite lookup_drop. f_equal. lia.
Qed.

Section rw.
Context {St : Type} `{BLi : BlockLayer St} `{BW : !BlockLaws St}.
Context (B : superblock) (ds : Z) (Hly : fs_layout bl_size B ds).
#[local] Abbreviation used_data := (used_data B ds).
#[local] Abbreviation file_ok := (file_ok B ds).
#[local] Abbreviation evolves := (evolves B ds).
#[local] Abbreviation grows := (grows B ds).
#[local] Abbreviation nfree := (nfree B).

Lemma evolves_ext c i f g c' i' : (forall p, (p < MAXBN * 512)%nat -> f p = g p) -> evolves c i f c' i' -> evolves c i g c' i'.
Proof. intros E [K M I F U Fr O P W L]. constructor; try done. intros p Hp. by rewrite F, E. Qed.

(** Storing into one block of the file. *)
Lemma evolves_write c i bn o data : file_ok c i -> meta_used B ds c -> (forall x, length (c x) = BSIZE) ->
  (bn < MAXBN)%nat -> faddr c i bn <> 0 -> (o + length data <= 512)%nat ->
  evolves c i (put_bytes (512 * bn + o) data (fbyte c i)) (upd c (faddr c i bn) (splice o data (c (faddr c i bn)))) i.
Proof.
  intros Hok Hmu Hl Hbn Hne Ho. set (a := faddr c i bn) in *. pose proof (fo_used _ _ _ _ Hok bn Hbn Hne) as [Ha Hua].
  fold a in Ha, Hua. pose proof (fo_ind_ne _ _ _ _ Hok bn Hbn Hne) as Ha7. fold a in Ha7. set (v := splice _ _ _).
  destruct (ly_size _ _ _ Hly).
  assert (forall n, (n < MAXBN)%nat -> faddr (upd c a v) i n = faddr c i n) as Hfa.
  { intros n Hn. unfold faddr. by rewrite upd_ne by congruence. }
  assert (forall x, used_data (upd c a v) x <-> used_data c x) as Hud.
  { intros x. unfold FsFile.used_data. destruct (decide (ds <= x < sb_size B)); [|naive_solver].
    by rewrite (free_upd B ds Hly) by lia. }
  constructor; try done.
  - destruct Hok as [O1 O2 O3 O4 O5 O6]. constructor; try done.
    + intros n Hn. rewrite Hfa by done. intros. apply Hud. auto.
    + intros. apply Hud. auto.
    + intros n m Hn Hm. rewrite !Hfa by done. auto.
    + intros n Hn. rewrite Hfa by done. auto.
  - intros x Hx. rewrite (free_upd B ds Hly) by lia. by apply Hmu.
  - by rewrite set_i_addrs_id.
  - intros p Hp. unfold fbyte, put_bytes. pose proof (bn_of p Hp) as Hpn. rewrite Hfa by done.
    pose proof (Nat.div_mod p 512 ltac:(lia)) as Ep. pose proof (Nat.mod_upper_bound p 512 ltac:(lia)) as Hpm.
    destruct (decide (p / 512 = bn)%nat) as [E|E].
    + rewrite E. fold a. rewrite (proj2 (Z.eqb_neq a 0)) by done. rewrite upd_eq. unfold v.
      rewrite lookup_splice by (rewrite Hl; unfold BSIZE; lia). rewrite E in Ep. repeat case_decide; try lia; try done.
      do 2 f_equal. lia.
    + rewrite decide_False by nia. destruct (Z.eqb_spec (faddr c i (p / 512)) 0); [done|]. rewrite upd_ne; [done|].
      intros Ea. apply E. by apply (fo_inj _ _ _ _ Hok).
  - intros x Hx. by apply Hud.
  - intros x Hx Hno. apply upd_ne. intros ->. apply Hno. left. eauto.
  - intros x [(n & Hn & <-)|<-]; left; [left; exists n; by rewrite Hfa|by right].
  - intros n Hn _. by apply Hfa.
  - intros x Hx. apply upd_ne. destruct (ly_bmap _ _ _ Hly 0 ltac:(lia)) as [Hr0 _]. change (0 / BPB) with 0 in Hr0. lia.
  - intros x. unfold upd. case_decide; [|done]. unfold v. rewrite length_splice. apply Hl.
Qed.

Lemma nfree_write c i bn v : file_ok c i -> (bn < MAXBN)%nat -> faddr c i bn <> 0 -> nfree (upd c (faddr c i bn) v) = nfree c.
Proof.
  intros Hok Hbn Hne. pose proof (fo_used _ _ _ _ Hok bn Hbn Hne) as [Ha _]. apply nfree_ext. intros x Hx.
  apply (free_upd B ds Hly); lia.
Qed.

(** ** The loops *)

Lemma none_held b : b ∉ held_blocks ∅.
Proof. rewrite held_empty. apply not_elem_of_empty. Qed.
Lemma none_size : (size (∅ : gmap nat Z) <= 2)%nat.
Proof. rewrite map_size_empty. lia. Qed.

(** One round: map the block, store the bytes, log the block. *)
Lemma R_write_chunk {A} I c i k s ip off data (K : M (fsst St) A) Q :
  fsees B I c (6 + k) ∅ s -> I !! ip = Some i -> file_ok c i -> meta_used B ds c -> (2 <= nfree c)%nat ->
  (off mod 512 + length data <= 512)%nat -> (off < MAXBN * 512)%nat ->
  (forall c' i' s', fsees B (<[ip := i']> I) c' k ∅ s' -> evolves c i (put_bytes off data (fbyte c i)) c' i' ->
     faddr c' i' (off / 512) <> 0 -> (nfree c <= nfree c' + 2)%nat -> (faddr c i (off / 512) <> 0 -> i' = i) -> wp K Q s') ->
  wp (addr ← bmap ip (Z.of_nat (off / 512));
      bp ← fs_bread (i_dev i) addr;
      d ← fs_data bp;
      fs_set bp (splice (off mod 512) data d) ;; fs_log_write bp ;; fs_brelse bp ;; K) Q s.
Proof.
  intros Hf Hi Hok Hmu Hn Hfit Hoff HQ. pose proof (bn_of off Hoff) as Hbn. destruct (ly_size _ _ _ Hly) as (Hds & Hsz & _).
  apply wp_bind. eapply (R_bmap B ds Hly I c i (S k)); [exact Hf|exact Hi|exact Hok|exact Hmu|exact Hn|exact Hbn|]. intros c1 i1 s1 H1 G Hne Hn1 Hsame.
  pose proof (ev_ok _ _ _ _ _ _ _ G) as Hok1. pose proof (fo_used _ _ _ _ Hok1 _ Hbn Hne) as [Ha Hua].
  apply wp_bind. rewrite (fo_dev _ _ _ _ Hok).
  eapply R_bread; [exact H1|lia|apply none_held|apply none_size|]. intros j s2 Hj H2.
  apply wp_bind. eapply R_data; [exact H2|apply lookup_insert_eq|].
  eapply R_put; [exact H2|apply lookup_insert_eq|rewrite length_splice; apply (ev_len _ _ _ _ _ _ _ G)|lia
    |apply (data_home B ds Hly); lia|].
  intros s3 H3. apply wp_bind. eapply R_brelse; [exact H3|apply lookup_insert_eq|]. intros s4 H4.
  rewrite delete_insert_id in H4 by done.
  pose proof (evolves_write c1 i1 _ (off mod 512) data Hok1 (ev_meta _ _ _ _ _ _ _ G) (ev_len _ _ _ _ _ _ _ G) Hbn Hne Hfit) as E.
  eapply HQ; [exact H4| | | |done].
  - eapply evolves_ext; [|eapply evolves_trans; [exact G|exact E]].
    intros p Hp. rewrite <-(Nat.div_mod off 512) by lia. apply put_bytes_ext. by apply (ev_bytes _ _ _ _ _ _ _ G).
  - by rewrite (ev_map _ _ _ _ _ _ _ E).
  - by rewrite nfree_write.
Qed.

Lemma chunk_nat off n tot : 0 <= off -> 0 <= tot <= n ->
  Z.to_nat (chunk off n tot) = Nat.min (Z.to_nat (n - tot)) (512 - Z.to_nat off mod 512) /\ 0 <= chunk off n tot <= n - tot.
Proof.
  intros. unfold chunk, BSZ. pose proof (Z.mod_pos_bound off 512 ltac:(lia)).
  assert (Z.to_nat off mod 512 = Z.to_nat (off mod 512))%nat as -> by (rewrite Z2Nat.inj_mod by lia; done). lia.
Qed.

(** After one round, what is left starts a block or is nothing. *)
Lemma chunk_left (off len m nb : nat) : m = Nat.min len (512 - off mod 512) -> (0 < len)%nat ->
  (off mod 512 + len <= 512 * S nb)%nat ->
  (0 < m)%nat /\ (m <= len)%nat /\ (off mod 512 + m <= 512)%nat /\
  (len - m = 0 \/ (off + m) mod 512 + (len - m) <= 512 * nb)%nat.
Proof.
  intros -> Hl Hnb. pose proof (Nat.mod_upper_bound off 512 ltac:(lia)). split_and!; try lia.
  destruct (decide (len <= 512 - off mod 512)%nat); [left; lia|right]. rewrite Nat.min_r by lia.
  pose proof (Nat.div_mod off 512 ltac:(lia)) as E.
  replace (off + (512 - off mod 512))%nat with ((off / 512 + 1) * 512)%nat by lia. rewrite Nat.Div0.mod_mul. lia.
Qed.

Lemma R_writei_loop ip fuel : forall nb I c i k s src (off tot : nat) (n : Z) Q,
  fsees B I c (6 * nb + k) ∅ s -> I !! ip = Some i -> file_ok c i -> meta_used B ds c -> (2 * nb <= nfree c)%nat ->
  n = Z.of_nat tot + Z.of_nat (length src) -> (off + length src <= MAXBN * 512)%nat -> (nb <= fuel)%nat ->
  src = [] \/ (off mod 512 + length src <= 512 * nb)%nat ->
  (forall c' i' s', fsees B (<[ip := i']> I) c' k ∅ s' -> evolves c i (put_bytes off src (fbyte c i)) c' i' ->
     (forall p, (off <= p < off + length src)%nat -> faddr c' i' (p / 512) <> 0) ->
     ((forall p, (off <= p < off + length src)%nat -> faddr c i (p / 512) <> 0) -> i' = i) ->
     Q (Z.of_nat (off + length src)) s') ->
  wp (writei_loop fuel ip src (Z.of_nat off) n (Z.of_nat tot)) Q s.
Proof.
  induction fuel as [|fuel IH]; intros nb I c i k s src off tot n Q Hf Hi Hok Hmu Hn Hnn Hend Hfuel Hnb HQ.
  all: destruct (decide (src = [])) as [->|Hne].
  1, 3: assert (wp (mret (Z.of_nat off)) Q s) as Hret by
    (apply wp_ret; replace (Z.of_nat off) with (Z.of_nat (off + length (@nil Z))) by (cbn; lia); apply (HQ c i);
     [rewrite insert_same by done; eapply fsees_weaken; [|exact Hf]; lia
     |eapply evolves_ext; [intros; symmetry; apply put_bytes_nil|apply grows_refl; [done|done|by eapply len_of]]
     |cbn; lia|done]).
  - exact Hret.
  - cbn [writei_loop]. rewrite (proj2 (Z.ltb_ge (Z.of_nat tot) n)) by (cbn in *; lia). exact Hret.
  - destruct Hnb as [|Hnb]; [done|]. destruct src; [done|]. cbn in Hnb. lia.
  - destruct Hnb as [|Hnb]; [done|]. assert (0 < length src)%nat as Hlen by (destruct src; [done|cbn; lia]).
    destruct nb as [|nb]; [lia|]. cbn [writei_loop]. rewrite (proj2 (Z.ltb_lt (Z.of_nat tot) n)) by lia.
    apply wp_bind. eapply R_ip_get; [exact Hf|exact Hi|].
    destruct (chunk_nat (Z.of_nat off) n (Z.of_nat tot)) as [Em Hm]; [lia..|]. set (m := chunk _ _ _) in *.
    rewrite Nat2Z.id in Em. replace (Z.to_nat (n - Z.of_nat tot)) with (length src) in Em by lia.
    destruct (chunk_left off (length src) (Z.to_nat m) nb Em Hlen Hnb) as (Hm0 & Hml & Hfit & Hleft).
    change BSZ with (Z.of_nat 512). rewrite <-Nat2Z.inj_div, <-Nat2Z.inj_mod, Nat2Z.id.
    replace (Z.of_nat off + m) with (Z.of_nat (off + Z.to_nat m)) by lia.
    replace (Z.of_nat tot + m) with (Z.of_nat (tot + Z.to_nat m)) by lia. set (mn := Z.to_nat m) in *. clearbody mn. clear Em Hm.
    eapply (R_write_chunk I c i (6 * nb + k)); [eapply fsees_weaken; [|exact Hf]; lia|exact Hi|exact Hok|exact Hmu|lia
      |rewrite length_take; lia|lia|].
    intros c1 i1 s1 H1 E1 Hfa Hn1 Hsame.
    eapply (IH nb _ c1 i1 k); [exact H1|by apply list_lookup_insert_eq; eapply lookup_lt_Some|apply (ev_ok _ _ _ _ _ _ _ E1)
      |apply (ev_meta _ _ _ _ _ _ _ E1)|lia|rewrite length_drop; lia|rewrite length_drop; lia|lia| |].
    { rewrite length_drop. destruct Hleft; [left|by right]. apply length_zero_iff_nil. rewrite length_drop. lia. }
    rewrite length_drop. intros c2 i2 s2 H2 E2 Hfa2 Hsame2. rewrite list_insert_insert_eq in H2.
    replace (off + mn + (length src - mn))%nat with (off + length src)%nat in * by lia.
    assert (forall p, (off <= p < off + mn)%nat -> (p / 512 = off / 512)%nat) as Hblk.
    { intros p Hp. symmetry. apply (Nat.div_unique p 512 (off / 512) (off mod 512 + (p - off))); [lia|].
      pose proof (Nat.div_mod off 512 ltac:(lia)). lia. }
    assert (forall p, (p < MAXBN * 512)%nat -> (p / 512 < MAXBN)%nat) as Hbn by (intros; by apply bn_of).
    apply (HQ c2 i2); [done| | |].
    + eapply evolves_ext; [|eapply evolves_trans; [exact E1|exact E2]]. intros p Hp. cbn beta.
      rewrite <-(put_bytes_split off src mn) by done. apply put_bytes_ext.
      by apply (ev_bytes _ _ _ _ _ _ _ E1).
    + intros p Hp. destruct (decide (p < off + mn)%nat); [|apply Hfa2; lia].
      rewrite (ev_map _ _ _ _ _ _ _ E2); [rewrite Hblk by lia; done|apply Hbn; lia|rewrite Hblk by lia; done].
    + intros Hall. assert (i1 = i) as -> by (apply Hsame, Hall; lia). apply Hsame2. intros p Hp.
      rewrite (ev_map _ _ _ _ _ _ _ E1); [apply Hall; lia|apply Hbn; lia|apply Hall; lia].
Qed.

(** ** The inode on disk *)

Lemma iblock n : 0 <= n < sb_ninodes B -> 0 <= IBLOCK n B < sb_bmapstart B /\ home_b B (IBLOCK n B).
Proof.
  intros Hn. destruct (ly_inode _ _ _ Hly n Hn) as [Hr Hh]. destruct (ly_size _ _ _ Hly).
  destruct (ly_bmap _ _ _ Hly 0 ltac:(lia)) as [Hr0 _]. change (0 / BPB) with 0 in Hr0.
  unfold IBLOCK. rewrite u32_id by (unfold is_u32; lia). by rewrite Z.add_comm.
Qed.

Lemma bmap_low : sb_bmapstart B < ds.
Proof.
  destruct (ly_size _ _ _ Hly). destruct (ly_bmap _ _ _ Hly 0 ltac:(lia)) as [Hr0 _]. change (0 / BPB) with 0 in Hr0. lia.
Qed.

Lemma R_iupdate I c i k s ip Q : fsees B I c (S k) ∅ s -> I !! ip = Some i -> i_dev i = 1 -> 0 <= i_inum i < sb_ninodes B ->
  (forall s', fsees B I (upd c (IBLOCK (i_inum i) B) (dip_store (dip_off (i_inum i)) i (c (IBLOCK (i_inum i) B)))) k ∅ s' -> Q tt s') ->
  wp (iupdate ip) Q s.
Proof.
  intros Hf Hi Hdev Hn HQ. destruct (iblock _ Hn) as [Hr Hhome]. pose proof bmap_low as Hbl. destruct (ly_size _ _ _ Hly) as (Hds & Hsz & _).
  unfold iupdate. apply wp_bind. eapply R_get; [exact Hf|]. intros -> _. apply wp_bind. eapply R_ip_get; [exact Hf|exact Hi|].
  rewrite Hdev. apply wp_bind. eapply R_bread; [exact Hf|lia|apply none_held|apply none_size|]. intros j s1 Hj H1.
  apply wp_bind. eapply R_data; [exact H1|apply lookup_insert_eq|].
  eapply R_put; [exact H1|apply lookup_insert_eq|rewrite length_dip_store; by eapply len_of|lia|done|].
  intros s2 H2. eapply R_brelse; [exact H2|apply lookup_insert_eq|]. intros s3 H3. apply HQ.
  by rewrite delete_insert_id in H3.
Qed.

(** Changing an inode block touches no file and no part of the free map. *)
Section low.
Context (c : Z -> block) (a : Z) (v : block).
Hypothesis Ha : a < sb_bmapstart B.

Lemma free_low x : 0 <= x < sb_size B -> is_free (upd c a v) B x = is_free c B x.
Proof.
  intros Hx. unfold is_free. rewrite upd_ne; [done|]. rewrite (bblock B ds Hly) by done.
  assert (0 <= x / BPB) by (apply Z.div_pos; unfold BPB; lia). lia.
Qed.

Lemma used_low x : used_data (upd c a v) x <-> used_data c x.
Proof.
  unfold FsFile.used_data. destruct (ly_size _ _ _ Hly). destruct (decide (ds <= x < sb_size B)); [|naive_solver].
  by rewrite free_low by lia.
Qed.

Lemma faddr_low i n : file_ok c i -> faddr (upd c a v) i n = faddr c i n.
Proof.
  intros Hok. unfold faddr. destruct (n <? 7)%nat; [done|]. destruct (Z.eqb_spec (addr_at i 7) 0); [done|].
  destruct (fo_ind _ _ _ _ Hok) as [? _]; [done|]. pose proof bmap_low. by rewrite upd_ne by lia.
Qed.

Lemma file_ok_low i : file_ok c i -> file_ok (upd c a v) i.
Proof.
  intros Hok. pose proof Hok as [O1 O2 O3 O4 O5 O6]. constructor; try done.
  - intros n Hn. rewrite faddr_low by done. intros. apply used_low. auto.
  - intros. apply used_low. auto.
  - intros n m Hn Hm. rewrite !faddr_low by done. auto.
  - intros n Hn. rewrite faddr_low by done. auto.
Qed.

Lemma fbyte_low i p : file_ok c i -> (p < MAXBN * 512)%nat -> fbyte (upd c a v) i p = fbyte c i p.
Proof.
  intros Hok Hp. unfold fbyte. rewrite faddr_low by done. destruct (Z.eqb_spec (faddr c i (p / 512)) 0); [done|].
  destruct (fo_used _ _ _ _ Hok (p / 512)) as [? _]; [by apply bn_of|done|]. pose proof bmap_low. by rewrite upd_ne by lia.
Qed.
End low.

(** What iupdate writes and ilock reads back. *)
Definition dinode_of (i : inode) : inode :=
  mkInode (i_dev inode0) (i_inum inode0) (i_ref inode0) (i_lock inode0) (i_valid inode0) (i_type i) (i_major i) (i_minor i)
    (i_nlink i) (i_size i) (i_addrs i) (strncpy (i_user inode0) (i_user i) 16) (i_mode i).
Definition disk_inode (c : Z -> block) (n : Z) : inode := dip_load (dip_off n) (c (IBLOCK n B)) inode0.

(** A file between two operations: its blocks are its own, every byte below the
    size has a block, and the inode block has what the memory has. *)
Record file_inv (c : Z -> block) (i : inode) : Prop := {
  fi_ok : file_ok c i;
  fi_meta : meta_used B ds c;
  fi_wf : inode_wf i;
  fi_inum : 0 <= i_inum i < sb_ninodes B;
  fi_size : 0 <= i_size i <= 69120;
  fi_map p : Z.of_nat p < i_size i -> faddr c i (p / 512) <> 0;
  fi_disk : disk_inode c (i_inum i) = dinode_of i
}.

Lemma iblock_eq n : 0 <= n < sb_ninodes B -> IBLOCK n B = sb_inodestart B + n / IPB.
Proof.
  intros Hn. destruct (ly_inode _ _ _ Hly n Hn) as [Hr _]. pose proof bmap_low. destruct (ly_size _ _ _ Hly).
  unfold IBLOCK. rewrite u32_id by (unfold is_u32; lia). lia.
Qed.

Lemma disk_inode_store c i n : (forall x, length (c x) = BSIZE) -> inode_wf i -> 0 <= i_inum i < sb_ninodes B ->
  0 <= n < sb_ninodes B ->
  disk_inode (upd c (IBLOCK (i_inum i) B) (dip_store (dip_off (i_inum i)) i (c (IBLOCK (i_inum i) B)))) n =
  if decide (n = i_inum i) then dinode_of i else disk_inode c n.
Proof.
  intros Hl Hwf Hi Hn. unfold disk_inode. case_decide as E.
  - subst n. rewrite upd_eq. apply dip_store_load; [rewrite Hl; apply dip_off_bound|done|done].
  - destruct (decide (IBLOCK n B = IBLOCK (i_inum i) B)) as [Eb|Eb]; [|by rewrite upd_ne]. rewrite Eb, upd_eq.
    apply dip_load_other; [done|done|]. rewrite !iblock_eq in Eb by done. intros Em. apply E.
    rewrite (Z.div_mod n IPB), (Z.div_mod (i_inum i) IPB) by (unfold IPB; lia). rewrite Em. nia.
Qed.

Lemma addrs_u32 c i : file_ok c i -> Forall is_u32 (i_addrs i).
Proof.
  intros Hok. apply Forall_lookup. intros n x Hx. pose proof (lookup_lt_Some _ _ _ Hx) as Hn. rewrite (fo_addrs _ _ _ _ Hok) in Hn.
  assert (addr_at i n = x) as E by (unfold addr_at; by rewrite Hx). destruct (decide (x = 0)) as [->|Hne]; [unfold is_u32; lia|].
  destruct (ly_size _ _ _ Hly). assert (used_data c x) as [? _]; [|unfold is_u32; lia].
  destruct (decide (n = 7%nat)) as [->|Hn7]; [rewrite <-E in *; by apply (fo_ind _ _ _ _ Hok)|].
  assert (faddr c i n = x) as Ef by (unfold faddr; by rewrite (proj2 (Nat.ltb_lt n 7)) by lia).
  rewrite <-Ef in *. apply (fo_used _ _ _ _ Hok); [rewrite MAXBN_eq; lia|done].
Qed.

(** A write inside the file keeps the invariant without touching the inode. *)
Lemma inv_inside c i f c' : file_inv c i -> evolves c i f c' i -> file_inv c' i.
Proof.
  intros [O M W N S P D] E. constructor; try done; try apply E.
  - intros p Hp. rewrite (ev_map _ _ _ _ _ _ _ E); [by apply P|apply bn_of; rewrite MAXBN_eq; lia|by apply P].
  - rewrite <-D. unfold disk_inode. rewrite (ev_low _ _ _ _ _ _ _ E); [done|]. by apply iblock.
Qed.

(** One past the end, followed by the iupdate of the grown inode. *)
Lemma inv_grown c i f c1 i1 z : file_inv c i -> evolves c i f c1 i1 -> i_size i < z <= 69120 ->
  (forall p, Z.of_nat p < z -> faddr c1 i1 (p / 512) <> 0) ->
  let i' := set_i_size z i1 in
  file_inv (upd c1 (IBLOCK (i_inum i') B) (dip_store (dip_off (i_inum i')) i' (c1 (IBLOCK (i_inum i') B)))) i'.
Proof.
  intros [O M W N S P D] E Hz Hmap i'. pose proof (ev_inode _ _ _ _ _ _ _ E) as Ei.
  assert (i_inum i' = i_inum i) as En by (unfold i'; rewrite Ei; done). destruct (iblock (i_inum i') ltac:(rewrite En; done)) as [Hib _].
  pose proof (ev_ok _ _ _ _ _ _ _ E) as O1. pose proof (addrs_u32 _ _ O1) as Ha.
  assert (file_ok c1 i') as O' by (destruct O1; by constructor).
  assert (inode_wf i') as W'.
  { destruct W as [[W1 [W2 [W3 W4]]] [W5 W6] W7 W8]. unfold i'. rewrite Ei. constructor; cbn; try done.
    - split; [unfold is_u32; lia|done].
    - split; [apply (fo_addrs _ _ _ _ O1)|done]. }
  constructor; try done.
  - apply file_ok_low; [lia|done].
  - intros x Hx. destruct (ly_size _ _ _ Hly). rewrite free_low by lia. by apply (ev_meta _ _ _ _ _ _ _ E).
  - by rewrite En.
  - cbn. lia.
  - intros p Hp. rewrite faddr_low by (lia || done). by apply Hmap.
  - rewrite disk_inode_store; [by rewrite decide_True|apply (ev_len _ _ _ _ _ _ _ E)|done|by rewrite En..].
Qed.

Definition blocks_of (off len : nat) : nat := ((off mod 512 + len + 511) / 512)%nat.

Lemma blocks_of_spec off len : (off mod 512 + len <= 512 * blocks_of off len)%nat /\ (blocks_of off len <= len / 512 + 2)%nat.
Proof.
  unfold blocks_of. pose proof (Nat.mod_upper_bound off 512 ltac:(lia)). set (r := (off mod 512)%nat) in *. clearbody r.
  pose proof (Nat.div_mod (r + len + 511) 512 ltac:(lia)). pose proof (Nat.mod_upper_bound (r + len + 511) 512 ltac:(lia)).
  pose proof (Nat.div_mod len 512 ltac:(lia)). pose proof (Nat.mod_upper_bound len 512 ltac:(lia)). lia.
Qed.

Lemma R_writei dev_write I c i k s ip src (off : nat) Q : fsees B I c (6 * blocks_of off (length src) + 1 + k) ∅ s -> I !! ip = Some i ->
  file_inv c i -> i_type i <> T_DEV -> Z.of_nat off <= i_size i -> (off + length src <= MAXBN * 512)%nat ->
  (2 * blocks_of off (length src) <= nfree c)%nat ->
  (forall c' i' s', fsees B (<[ip := i']> I) c' k ∅ s' -> file_inv c' i' ->
     i_size i' = Z.max (i_size i) (Z.of_nat (off + length src)) -> i' = set_i_size (i_size i') (set_i_addrs (i_addrs i') i) ->
     (forall p, (p < MAXBN * 512)%nat -> fbyte c' i' p = put_bytes off src (fbyte c i) p) ->
     (forall x, used_data c x -> ~ owned c i x -> c' x = c x) ->
     (forall n, 0 <= n < sb_ninodes B -> n <> i_inum i -> disk_inode c' n = disk_inode c n) ->
     Q (Z.of_nat (length src)) s') ->
  wp (writei dev_write ip src (Z.of_nat off) (Z.of_nat (length src))) Q s.
Proof.
  intros Hf Hi Hinv Hty Hoff Hend Hfree HQ. pose proof Hinv as [O M W N S P D]. rewrite MAXBN_eq in Hend.
  unfold writei. apply wp_bind. eapply R_ip_get; [exact Hf|exact Hi|]. rewrite (proj2 (Z.eqb_neq _ _) Hty).
  rewrite u32_id by (unfold is_u32; lia). rewrite !(proj2 (Z.ltb_ge _ _)) by (unfold MAXFILE, BSZ; cbn; lia). cbn [orb].
  destruct (blocks_of_spec off (length src)) as [Hb1 Hb2].
  apply wp_bind. eapply (R_writei_loop ip _ (blocks_of off (length src)) I c i (1 + k) s src off 0);
    [eapply fsees_weaken; [|exact Hf]; lia|exact Hi|done|done|done|lia|rewrite MAXBN_eq; lia| |by right|].
  { unfold xfer_fuel, BSZ. change 512 with (Z.of_nat 512). rewrite <-Nat2Z.inj_div, Nat2Z.id. lia. }
  intros c1 i1 s1 H1 E Hmap Hsame. apply wp_bind.
  assert (<[ip := i1]> I !! ip = Some i1) as Hi1 by (by apply list_lookup_insert_eq; eapply lookup_lt_Some).
  eapply R_ip_get; [exact H1|exact Hi1|].
  assert (i_size i1 = i_size i) as Esz by (by rewrite (ev_inode _ _ _ _ _ _ _ E)). rewrite Esz.
  apply wp_bind. destruct (Z.ltb_spec (i_size i) (Z.of_nat (off + length src))) as [Hgt|Hle].
  - rewrite (proj2 (Z.ltb_lt 0 _)) by lia. cbn [andb]. unfold when. set (z := Z.of_nat (off + length src)) in *.
    apply wp_bind. eapply R_ip_upd; [exact H1|exact Hi1|]. intros s2 H2. rewrite list_insert_insert_eq in H2.
    assert (i_inum (set_i_size z i1) = i_inum i) as En by (by rewrite (ev_inode _ _ _ _ _ _ _ E)).
    pose proof (ev_ok _ _ _ _ _ _ _ E) as O1.
    assert (file_inv (upd c1 (IBLOCK (i_inum (set_i_size z i1)) B) (dip_store (dip_off (i_inum (set_i_size z i1))) (set_i_size z i1)
      (c1 (IBLOCK (i_inum (set_i_size z i1)) B)))) (set_i_size z i1)) as Hinv'.
    { eapply inv_grown; [exact Hinv|exact E|lia|]. intros p Hp. destruct (decide (off <= p)%nat); [apply Hmap; lia|].
      rewrite (ev_map _ _ _ _ _ _ _ E); [apply P; lia|apply bn_of; rewrite MAXBN_eq; lia|apply P; lia]. }
    eapply (R_iupdate _ c1 (set_i_size z i1)); [exact H2|by apply list_lookup_insert_eq; eapply lookup_lt_Some
      |apply (fo_dev _ _ _ _ O1)|by rewrite En|]. intros s3 H3.
    apply wp_ret. rewrite s32_id by (unfold is_s32; lia). pose proof (iblock _ (fi_inum _ _ Hinv')) as [Hib _].
    eapply HQ; [exact H3|exact Hinv'|cbn [i_size set_i_size]; lia| | | |].
    + rewrite (ev_inode _ _ _ _ _ _ _ E) at 1. done.
    + intros p Hp. assert (file_ok c1 (set_i_size z i1)) by (destruct O1; by constructor).
      rewrite fbyte_low by (lia || done). by apply (ev_bytes _ _ _ _ _ _ _ E).
    + intros x Hx Ho. destruct Hx as [Hx1 Hx2]. pose proof bmap_low. rewrite upd_ne by lia. by apply (ev_frame _ _ _ _ _ _ _ E).
    + intros n Hn Hne. rewrite disk_inode_store; [|apply (ev_len _ _ _ _ _ _ _ E)|apply (fi_wf _ _ Hinv')|by rewrite En|done].
      rewrite En, decide_False by done. unfold disk_inode. rewrite (ev_low _ _ _ _ _ _ _ E); [done|]. by apply iblock.
  - rewrite andb_false_r. apply wp_ret, wp_ret. rewrite s32_id by (unfold is_s32; lia).
    assert (i1 = i) as -> by (apply Hsame; intros p Hp; apply P; lia).
    eapply HQ; [eapply fsees_weaken; [|exact H1]; lia|by eapply inv_inside|lia| | | |].
    + by destruct i.
    + intros p Hp. by apply (ev_bytes _ _ _ _ _ _ _ E).
    + intros x Hx Ho. by apply (ev_frame _ _ _ _ _ _ _ E).
    + intros n Hn Hne. unfold disk_inode. rewrite (ev_low _ _ _ _ _ _ _ E); [done|]. by apply iblock.
Qed.

(** ** Reading *)

Lemma R_bmap_ro I c i k s ip bn Q : fsees B I c k ∅ s -> I !! ip = Some i -> file_ok c i -> (bn < MAXBN)%nat ->
  faddr c i bn <> 0 -> (forall s', fsees B I c k ∅ s' -> Q (faddr c i bn) s') -> wp (bmap ip (Z.of_nat bn)) Q s.
Proof.
  intros Hf Hi Hok Hbn Hne HQ. unfold bmap. apply wp_bind. eapply R_ip_get; [exact Hf|exact Hi|]. rewrite MAXBN_eq in Hbn.
  destruct (Z.ltb_spec (Z.of_nat bn) (Z.of_nat NDIRECT)) as [Hd|Hd]; unfold NDIRECT in *.
  - rewrite Nat2Z.id. unfold faddr in *. rewrite (proj2 (Nat.ltb_lt bn 7)) in * by lia.
    rewrite (proj2 (Z.eqb_neq _ _) Hne). apply wp_ret. by apply HQ.
  - unfold NINDIRECT. rewrite (proj2 (Z.ltb_lt (Z.of_nat bn - Z.of_nat 7) (Z.of_nat 128))) by lia.
    replace (Z.to_nat (Z.of_nat bn - Z.of_nat 7)) with (bn - 7)%nat by lia.
    assert (addr_at i 7 <> 0) as H7.
    { intros E. apply Hne. unfold faddr. rewrite (proj2 (Nat.ltb_ge bn 7)) by lia. by rewrite E. }
    rewrite (proj2 (Z.eqb_neq _ _) H7). apply wp_bind, wp_ret. destruct (fo_ind _ _ _ _ Hok H7) as [Hr _].
    destruct (ly_size _ _ _ Hly) as (Hds & Hsz & _). rewrite (fo_dev _ _ _ _ Hok).
    apply wp_bind. eapply R_bread; [exact Hf|lia|apply none_held|apply none_size|]. intros j s1 Hj H1.
    apply wp_bind. eapply R_data; [exact H1|apply lookup_insert_eq|]. cbn zeta.
    rewrite <-(faddr_ind c i bn) by (done || lia). rewrite (proj2 (Z.eqb_neq _ _) Hne). apply wp_bind, wp_ret, wp_bind.
    eapply R_brelse; [exact H1|apply lookup_insert_eq|]. intros s2 H2. rewrite delete_insert_id in H2 by done.
    apply wp_ret. by apply HQ.
Qed.

Lemma slice_fbyte c i (off m : nat) : faddr c i (off / 512) <> 0 -> length (c (faddr c i (off / 512))) = BSIZE ->
  (off mod 512 + m <= 512)%nat -> slice (off mod 512) m (c (faddr c i (off / 512))) = fbyte c i <$> seq off m.
Proof.
  intros Hne Hl Hm. apply list_eq. intros j. unfold slice. rewrite list_lookup_fmap. destruct (decide (j < m)%nat) as [Hj|Hj].
  - rewrite lookup_take_lt, lookup_drop by done. rewrite lookup_seq_lt by done. cbn.
    assert (((off + j) / 512 = off / 512) /\ ((off + j) mod 512 = off mod 512 + j))%nat as [E1 E2].
    { pose proof (Nat.div_mod off 512 ltac:(lia)). split; symmetry.
      - apply (Nat.div_unique _ 512 _ (off mod 512 + j)); lia.
      - apply (Nat.mod_unique _ 512 (off / 512)); lia. }
    unfold fbyte. rewrite E1, E2, (proj2 (Z.eqb_neq _ _) Hne).
    destruct (lookup_lt_is_Some_2 (c (faddr c i (off / 512)) : list Z) (off mod 512 + j)) as [x Hx]; [unfold BSIZE in Hl; lia|].
    by rewrite Hx.
  - rewrite lookup_take_ge by lia. by rewrite lookup_seq_ge by lia.
Qed.

Lemma R_readi_loop ip fuel : forall nb I c i k s (off tot len : nat) (n : Z) dst Q,
  fsees B I c k ∅ s -> I !! ip = Some i -> file_ok c i ->
  n = Z.of_nat tot + Z.of_nat len -> (off + len <= MAXBN * 512)%nat -> (nb <= fuel)%nat ->
  len = 0%nat \/ (off mod 512 + len <= 512 * nb)%nat -> (forall p, (off <= p < off + len)%nat -> faddr c i (p / 512) <> 0) ->
  (forall s', fsees B I c k ∅ s' -> Q (dst ++ (fbyte c i <$> seq off len)) s') ->
  wp (readi_loop fuel ip (Z.of_nat off) n (Z.of_nat tot) dst) Q s.
Proof.
  induction fuel as [|fuel IH]; intros nb I c i k s off tot len n dst Q Hf Hi Hok Hnn Hend Hfuel Hnb Hmap HQ.
  all: destruct (decide (len = 0%nat)) as [->|Hne].
  1, 3: assert (wp (mret dst) Q s) as Hret by (apply wp_ret; rewrite <-(app_nil_r dst); by apply HQ).
  - exact Hret.
  - cbn [readi_loop]. rewrite (proj2 (Z.ltb_ge (Z.of_nat tot) n)) by lia. exact Hret.
  - lia.
  - destruct nb as [|nb]; [lia|]. destruct Hnb as [|Hnb]; [lia|]. cbn [readi_loop]. rewrite (proj2 (Z.ltb_lt (Z.of_nat tot) n)) by lia.
    apply wp_bind. eapply R_ip_get; [exact Hf|exact Hi|].
    destruct (chunk_nat (Z.of_nat off) n (Z.of_nat tot)) as [Em Hm]; [lia..|]. set (m := chunk _ _ _) in *.
    rewrite Nat2Z.id in Em. replace (Z.to_nat (n - Z.of_nat tot)) with len in Em by lia.
    destruct (chunk_left off len (Z.to_nat m) nb Em ltac:(lia) Hnb) as (Hm0 & Hml & Hfit & Hleft).
    change BSZ with (Z.of_nat 512). rewrite <-Nat2Z.inj_div, <-Nat2Z.inj_mod, Nat2Z.id.
    replace (Z.of_nat off + m) with (Z.of_nat (off + Z.to_nat m)) by lia.
    replace (Z.of_nat tot + m) with (Z.of_nat (tot + Z.to_nat m)) by lia. set (mn := Z.to_nat m) in *. clearbody mn. clear Em Hm.
    pose proof (bn_of off ltac:(lia)) as Hbn. pose proof (Hmap off ltac:(lia)) as Hfa.
    apply wp_bind. eapply R_bmap_ro; [exact Hf|exact Hi|exact Hok|exact Hbn|exact Hfa|]. intros s1 H1.
    destruct (fo_used _ _ _ _ Hok _ Hbn Hfa) as [Hr _]. destruct (ly_size _ _ _ Hly) as (Hds & Hsz & _).
    apply wp_bind. rewrite (fo_dev _ _ _ _ Hok). eapply R_bread; [exact H1|lia|apply none_held|apply none_size|].
    intros j s2 Hj H2. apply wp_bind. eapply R_data; [exact H2|apply lookup_insert_eq|]. apply wp_bind.
    eapply R_brelse; [exact H2|apply lookup_insert_eq|]. intros s3 H3. rewrite delete_insert_id in H3 by done.
    rewrite (slice_fbyte c i off mn) by (done || by eapply len_of).
    eapply (IH nb I c i k s3 (off + mn)%nat (tot + mn)%nat (len - mn)%nat); [exact H3|done|done|lia|lia|lia|lia| |].
    { intros p Hp. apply Hmap. lia. }
    intros s4 H4. rewrite <-app_assoc, <-fmap_app, <-seq_app. replace (mn + (len - mn))%nat with len by lia. by apply HQ.
Qed.

(** The bytes of the file from [off], at most [n] and not past the end. *)
Definition file_bytes (c : Z -> block) (i : inode) (off n : nat) : list Z :=
  fbyte c i <$> seq off (Nat.min n (Z.to_nat (i_size i) - off)).

Lemma R_readi dev_read I c i k s ip (off n : nat) Q : fsees B I c k ∅ s -> I !! ip = Some i -> file_inv c i -> i_type i <> T_DEV ->
  Z.of_nat off <= i_size i -> Z.of_nat n < 2 ^ 31 ->
  (forall s', fsees B I c k ∅ s' -> Q (Z.of_nat (length (file_bytes c i off n)), file_bytes c i off n) s') ->
  wp (readi dev_read ip (Z.of_nat off) (Z.of_nat n)) Q s.
Proof.
  intros Hf Hi Hinv Hty Hoff Hn HQ. pose proof Hinv as [O M W N S P D].
  unfold readi. apply wp_bind. eapply R_ip_get; [exact Hf|exact Hi|]. rewrite (proj2 (Z.eqb_neq _ _) Hty).
  rewrite u32_id by (unfold is_u32; lia). rewrite (proj2 (Z.ltb_ge (i_size i) _)), (proj2 (Z.ltb_ge _ (Z.of_nat off))) by lia. cbn [orb].
  set (len := Nat.min n (Z.to_nat (i_size i) - off)).
  assert ((if i_size i <? Z.of_nat off + Z.of_nat n then i_size i - Z.of_nat off else Z.of_nat n) = Z.of_nat len) as ->.
  { destruct (Z.ltb_spec (i_size i) (Z.of_nat off + Z.of_nat n)); unfold len; lia. }
  destruct (blocks_of_spec off len) as [Hb1 Hb2]. cbn zeta.
  apply wp_bind. eapply (R_readi_loop ip _ (blocks_of off len) I c i k s off 0 len);
    [exact Hf|exact Hi|done|lia|rewrite MAXBN_eq; unfold len; lia| |by right| |].
  { unfold xfer_fuel, BSZ. change 512 with (Z.of_nat 512). rewrite <-Nat2Z.inj_div, Nat2Z.id. lia. }
  { intros p Hp. apply P. unfold len in Hp. lia. }
  intros s1 H1. apply wp_ret. rewrite s32_id by (unfold is_s32, len; lia). cbn [app].
  specialize (HQ s1 H1). unfold file_bytes in HQ. rewrite length_fmap, length_seq in HQ. exact HQ.
Qed.

(** ** The theorems *)

(** C13: A write of a regular file or directory that fits stores exactly the given
    bytes at the offset, returns their number and makes the file end at the later
    of the old end and the end of the write; the blocks stay disjoint and the inode
    on disk equal to the one in memory, no block in use outside the file and no
    other inode on the disk changes, and at most six blocks for each block written
    and one for the inode are logged. *)
Theorem writei_content dev_write I c i k s ip src (off : nat)
  (Hf : fsees B I c (6 * blocks_of off (length src) + 1 + k) ∅ s) (Hi : I !! ip = Some i)
  (Hinv : file_inv c i) (Hty : i_type i <> T_DEV) (Hoff : Z.of_nat off <= i_size i)
  (Hend : (off + length src <= MAXBN * 512)%nat) (Hfree : (2 * blocks_of off (length src) <= nfree c)%nat) :
  wp (writei dev_write ip src (Z.of_nat off) (Z.of_nat (length src)))
    (λ r s', r = Z.of_nat (length src) /\ exists c' i', fsees B (<[ip := i']> I) c' k ∅ s' /\ file_inv c' i' /\
      i_size i' = Z.max (i_size i) (Z.of_nat (off + length src)) /\
      i' = set_i_size (i_size i') (set_i_addrs (i_addrs i') i) /\
      (forall p, (p < MAXBN * 512)%nat -> fbyte c' i' p = put_bytes off src (fbyte c i) p) /\
      (forall x, used_data c x -> ~ owned c i x -> c' x = c x) /\
      (forall n, 0 <= n < sb_ninodes B -> n <> i_inum i -> disk_inode c' n = disk_inode c n)) s.
Proof.
  eapply R_writei; [exact Hf|exact Hi|done|done|done|exact Hend|done|].
  intros c' i' s' H1 H2 H3 H4 H5 H6 H7. split; [done|]. exists c', i'.
  split; [done|]. split; [done|]. split; [done|]. split; [done|]. split; [exact H5|]. by split.
Qed.

(** C14: A read of a regular file or directory returns the bytes from the offset to
    the end of the file, as many as asked for and there are, and changes no block,
    inode or log reservation. *)
Theorem readi_content dev_read I c i k s ip (off n : nat)
  (Hf : fsees B I c k ∅ s) (Hi : I !! ip = Some i) (Hinv : file_inv c i) (Hty : i_type i <> T_DEV)
  (Hoff : Z.of_nat off <= i_size i) (Hn : Z.of_nat n < 2 ^ 31) :
  wp (readi dev_read ip (Z.of_nat off) (Z.of_nat n))
    (λ r s', r = (Z.of_nat (length (file_bytes c i off n)), file_bytes c i off n) /\ fsees B I c k ∅ s') s.
Proof. eapply R_readi; [exact Hf|exact Hi|done|done|done|done|]. intros s' Hs'. by split. Qed.

Lemma file_bytes_put c c' i i' off src : (off + length src <= MAXBN * 512)%nat -> i_size i' = Z.max (i_size i) (Z.of_nat (off + length src)) ->
  (forall p, (p < MAXBN * 512)%nat -> fbyte c' i' p = put_bytes off src (fbyte c i) p) -> file_bytes c' i' off (length src) = src.
Proof.
  intros Hend Hsz Hby. unfold file_bytes. replace (Nat.min _ _) with (length src) by lia. apply list_eq. intros j.
  rewrite list_lookup_fmap. destruct (decide (j < length src)%nat) as [Hj|Hj].
  - rewrite lookup_seq_lt by done. cbn. rewrite Hby by lia. unfold put_bytes. rewrite decide_True by lia.
    replace (off + j - off)%nat with j by lia. destruct (lookup_lt_is_Some_2 src j Hj) as [x Hx]. by rewrite Hx.
  - rewrite lookup_seq_ge by lia. cbn. symmetry. apply lookup_ge_None. lia.
Qed.

(** Reading back the range just written gives the bytes written. *)
Theorem write_read_roundtrip dev_read dev_write I c i k s ip src (off : nat)
  (Hf : fsees B I c (6 * blocks_of off (length src) + 1 + k) ∅ s) (Hi : I !! ip = Some i)
  (Hinv : file_inv c i) (Hty : i_type i <> T_DEV) (Hoff : Z.of_nat off <= i_size i)
  (Hend : (off + length src <= MAXBN * 512)%nat) (Hfree : (2 * blocks_of off (length src) <= nfree c)%nat) :
  wp (writei dev_write ip src (Z.of_nat off) (Z.of_nat (length src)) ;; readi dev_read ip (Z.of_nat off) (Z.of_nat (length src)))
    (λ r _, r = (Z.of_nat (length src), src)) s.
Proof.
  apply wp_bind. eapply R_writei; [exact Hf|exact Hi|done|done|done|exact Hend|done|].
  intros c' i' s' H1 H2 H3 H4 H5 H6 H7.
  eapply R_readi; [exact H1|by apply list_lookup_insert_eq; eapply lookup_lt_Some|done|by rewrite H4|lia|rewrite MAXBN_eq in Hend; lia|].
  intros s2 _. by rewrite (file_bytes_put c c' i i').
Qed.
End rw.

(** writei and readi of a regular file refuse, with -1 and without touching
    anything, every offset past the end and every range whose end overflows 32
    bits; writei also refuses to grow a file past its 135 blocks. *)
Theorem file_range_checks {St} `{BLi : BlockLayer St} dev_read dev_write ip src off n i (s : fsst St)
  (Hi : ic s !! ip = Some i) (Hty : i_type i <> T_DEV) (Hoff : is_u32 off) (Hn : is_u32 n) :
  (i_size i < off \/ 69120 < off + n -> writei dev_write ip src off n s = Ret (-1) s) /\
  (i_size i < off \/ 2 ^ 32 <= off + n -> readi dev_read ip off n s = Ret (-1, []) s).
Proof.
  unfold is_u32 in *. unfold writei, readi, ip_get. rewrite !(bind_Ret _ _ s i s) by (unfold gets; by rewrite Hi).
  rewrite (proj2 (Z.eqb_neq _ _) Hty). unfold u32.
  assert (2 ^ 32 <= off + n -> (off + n) mod 2 ^ 32 = off + n - 2 ^ 32) as Hw.
  { intros. symmetry. apply (Z.mod_unique _ _ 1); lia. }
  split; intros [H|H].
  - by rewrite (proj2 (Z.ltb_lt _ _) H).
  - destruct (decide (2 ^ 32 <= off + n)) as [Hge|Hlt].
    + rewrite Hw by done. rewrite (proj2 (Z.ltb_lt (off + n - 2 ^ 32) off)) by lia. by rewrite orb_true_r.
    + rewrite Z.mod_small by lia. case_match; [done|]. change (MAXFILE * BSZ) with 69120.
      by rewrite (proj2 (Z.ltb_lt 69120 (off + n))) by lia.
  - by rewrite (proj2 (Z.ltb_lt _ _) H).
  - rewrite Hw by done. rewrite (proj2 (Z.ltb_lt (off + n - 2 ^ 32) off)) by lia. by rewrite orb_true_r.
Qed.

(** ** On the sample disk: an empty file with inode 9 *)
Definition empty_file : inode :=
  mkInode 1 9 1 initsleeplock true T_FILE 0 0 1 0 (replicate 8 0) (root_name ++ replicate 12 0) 52.
Definition file_disk : Z -> block := upd sample_disk 33 (dip_store (dip_off 9) empty_file zero_block).

Lemma file_disk_len b : length (file_disk b) = BSIZE.
Proof. unfold file_disk, sample_disk, upd. by repeat case_decide. Qed.

Lemma file_disk_free b : 0 <= b < 1000 -> is_free file_disk sample_sb b = (59 <=? b).
Proof. intros Hb. rewrite <-sample_free by done. unfold file_disk. by apply (free_low (BLi := bio_layer 1000 1) sample_sb 59 sample_layout). Qed.

Lemma empty_faddr c bn : faddr c empty_file bn = 0.
Proof. unfold faddr. by do 8 (destruct bn as [|bn]; [done|]). Qed.

Lemma empty_file_inv : file_inv sample_sb 59 file_disk empty_file.
Proof.
  constructor.
  - constructor; try done; intros; by rewrite empty_faddr in *.
  - intros b Hb. rewrite file_disk_free by (cbn in *; lia). apply Z.leb_gt. lia.
  - constructor; cbn; unfold is_s16, is_u32, T_FILE; [lia|lia| |done]. split; [done|]. repeat constructor; lia.
  - cbn. lia.
  - cbn. lia.
  - cbn. lia.
  - vm_compute. reflexivity.
Qed.

Lemma file_disk_nfree : nfree sample_sb file_disk = 941%nat.
Proof. vm_compute. reflexivity. Qed.

#[local] Abbreviation file_state := (boot_state file_disk sample_sb [empty_file]).

Lemma file_state_sees k : (k <= 27)%nat ->
  fsees (BLi := bio_layer 1000 1) sample_sb [empty_file] file_disk k ∅ file_state.
Proof. intros Hk. apply boot_fsees; cbn; try lia. exact file_disk_len. Qed.

Lemma writei_content_witness :
  wp (writei (BL := bio_layer 1000 1) (λ _, None) 0 (replicate 600 65) 0 600) (λ r _, r = 600) file_state.
Proof.
  eapply wp_mono.
  - apply (writei_content (BLi := bio_layer 1000 1) (BW := bio_laws 1000 1) sample_sb 59 sample_layout (λ _, None) [empty_file] file_disk
      empty_file 0 file_state 0 (replicate 600 65) 0);
      [apply file_state_sees; vm_compute; lia|done|exact empty_file_inv|done|done|by rewrite length_replicate, MAXBN_eq; lia|].
    rewrite file_disk_nfree. vm_compute. lia.
  - cbn beta. by intros r s' [-> _].
Defined.

Lemma readi_content_witness :
  wp (readi (BL := bio_layer 1000 1) (λ _, None) 0 0 600) (λ r _, r = (0, [])) file_state.
Proof.
  eapply wp_mono.
  - apply (readi_content (BLi := bio_layer 1000 1) (BW := bio_laws 1000 1) sample_sb 59 sample_layout (λ _, None) [empty_file] file_disk
      empty_file 0 file_state 0 0 600); [apply file_state_sees; lia|done|exact empty_file_inv|done|done|lia].
  - cbn beta. by intros r s' [-> _].
Defined.

Lemma write_read_roundtrip_witness :
  wp (writei (BL := bio_layer 1000 1) (λ _, None) 0 (replicate 600 65) 0 600 ;; readi (BL := bio_layer 1000 1) (λ _, None) 0 0 600)
    (λ r _, r = (600, replicate 600 65)) file_state.
Proof.
  apply (write_read_roundtrip (BLi := bio_layer 1000 1) (BW := bio_laws 1000 1) sample_sb 59 sample_layout (λ _, None) (λ _, None)
    [empty_file] file_disk empty_file 0 file_state 0 (replicate 600 65) 0);
    [apply file_state_sees; vm_compute; lia|done|exact empty_file_inv|done|done|by rewrite length_replicate, MAXBN_eq; lia|].
  rewrite file_disk_nfree. vm_compute. lia.
Defined.

Lemma file_range_checks_witness :
  writei (BL := bio_layer 1000 1) (λ _, None) 0 [] 0 (2 ^ 32 - 1) file_state = Ret (-1) file_state /\
  readi (BL := bio_layer 1000 1) (λ _, None) 0 1 1 file_state = Ret (-1, []) file_state.
Proof.
  split.
  - refine (proj1 (file_range_checks (BLi := bio_layer 1000 1) (λ _, None) (λ _, None) 0 [] 0 (2 ^ 32 - 1) empty_file file_state _ _ _ _) _);
      [done|done|unfold is_u32; lia|unfold is_u32; lia|right; lia].
  - refine (proj2 (file_range_checks (BLi := bio_layer 1000 1) (λ _, None) (λ _, None) 0 [] 1 1 empty_file file_state _ _ _ _) _);
      [done|done|unfold is_u32; lia|unfold is_u32; lia|left; cbn; lia].
Defined.
