(* ===== verification/Dir.v ===== *)
(** * Directories (dirlookup, dirlink)

    A directory is a file of 16-byte entries.  dirlookup finds the first entry in
    use with the name, and dirlink adds one in the first free place. *)

From S2P Require Import Prelude CString Sleeplock Block BlockLayer Bio Log LogProps FsDefs InodeProps FsRules FsAlloc FsFile FsRW.

(** ** What a directory means *)

Definition ndir (i : inode) : nat := Z.to_nat (i_size i / 16).
Definition dirent_at (c : Z -> block) (i : inode) (k : nat) : list Z := fbyte c i <$> seq (16 * k) 16.
Definition dirents (c : Z -> block) (i : inode) : list (list Z) := dirent_at c i <$> seq 0 (ndir i).

Definition entry_for (name de : list Z) : Prop := de_inum de <> 0 /\ cstrn DIRSIZ (de_name de) = cstrn DIRSIZ name.
#[global] Instance entry_for_dec name de : Decision (entry_for name de) := _.

(** The first entry for [name]: its index and its bytes. *)
Definition dir_find (c : Z -> block) (i : inode) (name : list Z) : option (nat * list Z) :=
  list_find (entry_for name) (dirents c i).

(** ** Lemmas on entries *)

Lemma length_dirent_at c i k : length (dirent_at c i k) = 16%nat.
Proof. unfold dirent_at. by rewrite length_fmap, length_seq. Qed.

Lemma length_mk_dirent inum name : length (mk_dirent inum name) = 16%nat.
Proof. unfold mk_dirent. by rewrite length_app, length_le_bytes, length_strncpy, length_replicate. Qed.

Lemma de_inum_mk inum name : 0 <= inum < 2 ^ 16 -> de_inum (mk_dirent inum name) = inum.
Proof.
  intros Hi. unfold de_inum, mk_dirent. rewrite take_app_length' by done. by apply le_val_bytes.
Qed.

Lemma de_name_mk inum name : cstrn DIRSIZ (de_name (mk_dirent inum name)) = cstrn DIRSIZ name.
Proof.
  unfold de_name, mk_dirent. rewrite drop_app_length' by done. apply cstrn_strncpy.
  by rewrite length_replicate.
Qed.

Lemma dirents_lookup c i k : dirents c i !! k = if decide (k < ndir i)%nat then Some (dirent_at c i k) else None.
Proof.
  unfold dirents. rewrite list_lookup_fmap. case_decide; [by rewrite lookup_seq_lt|]. by rewrite lookup_seq_ge by lia.
Qed.

Lemma is_bytes_le_bytes n v : is_bytes (le_bytes n v).
Proof. revert v. induction n as [|n IH]; intros v; [constructor|]. constructor; [apply Z.mod_pos_bound; lia|apply IH]. Qed.

(** An entry never straddles two blocks. *)
Lemma blocks_of_dirent j : blocks_of (16 * j) 16 = 1%nat.
Proof.
  unfold blocks_of. assert ((16 * j) mod 512 = 16 * (j mod 32))%nat as ->.
  { change 512%nat with (16 * 32)%nat. by rewrite Nat.Div0.mul_mod_distr_l. }
  pose proof (Nat.mod_upper_bound j 32 ltac:(lia)). symmetry. apply (Nat.div_unique _ 512 1 (16 * (j mod 32) + 15)); lia.
Qed.

(** The first match from entry [j] on. *)
Definition find_from (c : Z -> block) (i : inode) (name : list Z) (j : nat) : option (nat * list Z) :=
  prod_map (Nat.add j) id <$> list_find (entry_for name) (dirent_at c i <$> seq j (ndir i - j)).

Lemma find_from_end c i name : find_from c i name (ndir i) = None.
Proof. unfold find_from. by rewrite Nat.sub_diag. Qed.

Lemma find_from_step c i name j : (j < ndir i)%nat -> find_from c i name j =
  if decide (entry_for name (dirent_at c i j)) then Some (j, dirent_at c i j) else find_from c i name (S j).
Proof.
  intros Hj. unfold find_from. replace (ndir i - j)%nat with (S (ndir i - S j)) by lia. cbn [seq fmap list_fmap list_find].
  case_decide; cbn; [by rewrite Nat.add_0_r|]. rewrite <-!option_fmap_compose. apply option_fmap_ext. intros [a b]. cbn.
  f_equal. lia.
Qed.

Lemma find_from_0 c i name : find_from c i name 0 = dir_find c i name.
Proof.
  unfold find_from, dir_find, dirents. rewrite Nat.sub_0_r. destruct (list_find _ _) as [[a b]|]; done.
Qed.

Section dir.
Context {St : Type} `{BLi : BlockLayer St} `{BW : !BlockLaws St}.
Context (B : superblock) (ds : Z) (Hly : fs_layout bl_size B ds).
Context (dev_read : Z -> option (nat -> Z -> M (fsst St) (Z * list Z))) (dev_write : Z -> option (nat -> list Z -> Z -> M (fsst St) Z)).

Record dir_inv (c : Z -> block) (i : inode) : Prop := {
  di_file : file_inv B ds c i;
  di_type : i_type i = T_DIR;
  di_size : i_size i mod 16 = 0;
  di_bytes p : Z.of_nat p < i_size i -> 0 <= fbyte c i p < 256
}.

Lemma ndir_size c i : dir_inv c i -> i_size i = Z.of_nat (16 * ndir i).
Proof.
  intros [F _ Hm _]. destruct (fi_size _ _ _ _ F). unfold ndir. pose proof (Z.div_mod (i_size i) 16 ltac:(lia)).
  assert (0 <= i_size i / 16) by (apply Z.div_pos; lia). lia.
Qed.

Lemma dirent_bytes c i k : dir_inv c i -> (k < ndir i)%nat -> is_bytes (dirent_at c i k).
Proof.
  intros Hd Hk. pose proof (ndir_size c i Hd). apply Forall_forall. intros x (p & -> & [Hp1 Hp2]%elem_of_seq)%list_elem_of_fmap.
  apply (di_bytes c i Hd). lia.
Qed.

Lemma not_dev : T_DIR <> T_DEV.
Proof. done. Qed.

Lemma R_read_dirent I c i k s dp j Q : fsees B I c k ∅ s -> I !! dp = Some i -> dir_inv c i -> (j < ndir i)%nat ->
  (forall s', fsees B I c k ∅ s' -> Q (16, dirent_at c i j) s') -> wp (readi dev_read dp (Z.of_nat (16 * j)) 16) Q s.
Proof.
  intros Hf Hi Hd Hj HQ. pose proof (ndir_size c i Hd) as Hsz. pose proof (di_file c i Hd) as F.
  assert (file_bytes c i (16 * j) 16 = dirent_at c i j) as E.
  { unfold file_bytes, dirent_at. replace (Nat.min _ _) with 16%nat by lia. done. }
  change 16 with (Z.of_nat 16). eapply (R_readi B ds Hly); [exact Hf|exact Hi|done|rewrite (di_type c i Hd); done|lia|lia|].
  intros s' Hs'. rewrite E. rewrite length_dirent_at. by apply HQ.
Qed.

(** ** dirlookup *)

Lemma namecmp_entry c i name j : dir_inv c i -> is_bytes name -> (j < ndir i)%nat ->
  de_inum (dirent_at c i j) <> 0 -> namecmp name (de_name (dirent_at c i j)) = 0 <-> entry_for name (dirent_at c i j).
Proof.
  intros Hd Hn Hj Hz. unfold namecmp, entry_for. rewrite strncmp_zero_iff; [naive_solver|done|].
  apply Forall_drop. by apply (dirent_bytes c i j Hd).
Qed.

Lemma R_dirlookup_from I c i k dp name fuel : I !! dp = Some i -> dir_inv c i -> is_bytes name -> forall j s Q,
  fsees B I c k ∅ s -> (j <= ndir i)%nat -> (ndir i - j < fuel)%nat ->
  (forall s', fsees B I c k ∅ s' ->
     match find_from c i name j with
     | None => Q None s'
     | Some (m, de) => wp (ip ← iget 1 (de_inum de); mret (Some (ip, Z.of_nat (16 * m)))) Q s'
     end) ->
  wp (dirlookup_from dev_read fuel dp name (Z.of_nat (16 * j))) Q s.
Proof.
  intros Hi Hd Hn. pose proof (ndir_size c i Hd) as Hsz. pose proof (fi_ok _ _ _ _ (di_file c i Hd)) as Hok.
  induction fuel as [|fuel IH]; intros j s Q Hf Hj Hfuel HQ; [lia|]. cbn [dirlookup_from].
  apply wp_bind. eapply R_ip_get; [exact Hf|exact Hi|]. destruct (Z.ltb_spec (Z.of_nat (16 * j)) (i_size i)) as [Hlt|Hge].
  - assert (j < ndir i)%nat as Hj' by lia. apply wp_bind. eapply R_read_dirent; [exact Hf|exact Hi|done|done|]. intros s1 H1. cbn [fst snd Z.eqb Pos.eqb negb].
    pose proof (find_from_step c i name j Hj') as Estep. replace (Z.of_nat (16 * j) + 16) with (Z.of_nat (16 * S j)) by lia.
    destruct (Z.eqb_spec (de_inum (dirent_at c i j)) 0) as [Ez|Ez]; [|destruct (Z.eqb_spec (namecmp name (de_name (dirent_at c i j))) 0) as [En|En]].
    + apply IH; [done|lia|lia|]. intros s2 H2. specialize (HQ s2 H2). rewrite Estep, decide_False in HQ; [done|]. by intros [? _].
    + specialize (HQ s1 H1). rewrite Estep, decide_True in HQ by (by apply namecmp_entry). by rewrite (fo_dev _ _ _ _ Hok).
    + apply IH; [done|lia|lia|]. intros s2 H2. specialize (HQ s2 H2). rewrite Estep, decide_False in HQ; [done|].
      intros He. apply En. by apply namecmp_entry.
  - apply wp_ret. specialize (HQ s Hf). replace j with (ndir i) in HQ by lia. by rewrite find_from_end in HQ.
Qed.

Lemma R_dirlookup I c i k dp name s Q : fsees B I c k ∅ s -> I !! dp = Some i -> dir_inv c i -> is_bytes name ->
  (forall s', fsees B I c k ∅ s' ->
     match dir_find c i name with
     | None => Q None s'
     | Some (m, de) => wp (ip ← iget 1 (de_inum de); mret (Some (ip, Z.of_nat (16 * m)))) Q s'
     end) -> wp (dirlookup dev_read dp name) Q s.
Proof.
  intros Hf Hi Hd Hn HQ. unfold dirlookup. apply wp_bind. eapply R_ip_get; [exact Hf|exact Hi|]. rewrite (di_type c i Hd). cbn [negb Z.eqb].
  change 0 with (Z.of_nat (16 * 0)). eapply R_dirlookup_from; [exact Hi|done|done|exact Hf|lia|unfold ndir; lia|].
  intros s' Hs'. rewrite find_from_0. by apply HQ.
Qed.

Lemma R_iget I c k s inum Q : fsees B I c k ∅ s -> ic_inv I -> refs_of I 1 inum < 2 ^ 31 - 1 ->
  (exists a x, I !! a = Some x /\ (i_ref x = 0 \/ is_cached 1 inum x = true)) ->
  (forall ip I' x s', fsees B I' c k ∅ s' -> ic_inv I' -> I' !! ip = Some x -> is_cached 1 inum x = true ->
     (forall d n, refs_of I' d n = refs_of I d n + (if decide (d = 1 /\ n = inum) then 1 else 0)) -> Q ip s') ->
  wp (iget 1 inum) Q s.
Proof.
  intros [Hsb Hic Hlk Hlog] Hinv Hm Hroom HQ. rewrite <-Hic in *. pose proof (iget_run s 1 inum Hinv Hlk Hm) as H. unfold wp.
  destruct (iget 1 inum s) as [ip s'|msg|ch s']; [| |done].
  - destruct H as (H1 & H2 & H3 & H4 & (x & H5 & H6) & H7). eapply (HQ ip (ic s') x); try done.
    constructor; [by rewrite H4|done|done|by rewrite H3].
  - destruct Hroom as (a & x & Hx & Hor). destruct (H a x Hx) as [? ?]. destruct Hor; congruence.
Qed.

(** dirlookup returns nothing when no entry in use has the name; otherwise it
    returns the offset of the first one and a counted reference to its inode.
    Names are compared up to their end or 14 bytes.  Nothing else changes. *)
Theorem dirlookup_first I c i k dp name s
  (Hf : fsees B I c k ∅ s) (Hi : I !! dp = Some i) (Hd : dir_inv c i) (Hn : is_bytes name) (Hic : ic_inv I)
  (Hroom : forall m de, dir_find c i name = Some (m, de) -> refs_of I 1 (de_inum de) < 2 ^ 31 - 1 /\
     exists a x, I !! a = Some x /\ (i_ref x = 0 \/ is_cached 1 (de_inum de) x = true)) :
  wp (dirlookup dev_read dp name) (λ r s',
    match dir_find c i name with
    | None => r = None /\ fsees B I c k ∅ s'
    | Some (m, de) => exists ip I' x, r = Some (ip, Z.of_nat (16 * m)) /\ fsees B I' c k ∅ s' /\ ic_inv I' /\
        I' !! ip = Some x /\ is_cached 1 (de_inum de) x = true /\
        (forall d n, refs_of I' d n = refs_of I d n + (if decide (d = 1 /\ n = de_inum de) then 1 else 0))
    end) s.
Proof.
  eapply R_dirlookup; [exact Hf|exact Hi|done|done|]. intros s' Hs'. destruct (dir_find c i name) as [[m de]|]; [|done].
  destruct (Hroom m de eq_refl) as [H1 H2]. apply wp_bind. eapply R_iget; [exact Hs'|done|done|done|].
  intros ip I' x s2 E1 E2 E3 E4 E5. apply wp_ret. exists ip, I', x. by split_and!.
Qed.

(** ** dirlink *)

(** Where dirlink puts a new entry: the first free one, or the end. *)
Definition free_at (c : Z -> block) (i : inode) (j : nat) : Prop :=
  (j <= ndir i)%nat /\ (forall m, (m < j)%nat -> de_inum (dirent_at c i m) <> 0) /\
  ((j < ndir i)%nat -> de_inum (dirent_at c i j) = 0).

Lemma R_dir_free_from I c i k dp fuel : I !! dp = Some i -> dir_inv c i -> forall j s Q,
  fsees B I c k ∅ s -> (j <= ndir i)%nat -> (ndir i - j < fuel)%nat ->
  (forall m, (m < j)%nat -> de_inum (dirent_at c i m) <> 0) ->
  (forall j' s', fsees B I c k ∅ s' -> free_at c i j' -> Q (Z.of_nat (16 * j')) s') ->
  wp (dir_free_from dev_read fuel dp (Z.of_nat (16 * j))) Q s.
Proof.
  intros Hi Hd. pose proof (ndir_size c i Hd) as Hsz.
  induction fuel as [|fuel IH]; intros j s Q Hf Hj Hfuel Hbefore HQ; [lia|]. cbn [dir_free_from].
  apply wp_bind. eapply R_ip_get; [exact Hf|exact Hi|]. destruct (Z.ltb_spec (Z.of_nat (16 * j)) (i_size i)) as [Hlt|Hge].
  - assert (j < ndir i)%nat as Hj' by lia. apply wp_bind. eapply R_read_dirent; [exact Hf|exact Hi|done|done|]. intros s1 H1.
    cbn [fst snd Z.eqb Pos.eqb negb]. destruct (Z.eqb_spec (de_inum (dirent_at c i j)) 0) as [Ez|Ez].
    + apply wp_ret. apply HQ; [done|]. by split_and!.
    + replace (Z.of_nat (16 * j) + 16) with (Z.of_nat (16 * S j)) by lia. apply IH; [done|lia|lia| |done].
      intros m Hm. destruct (decide (m = j)) as [->|]; [done|]. apply Hbefore. lia.
  - apply wp_ret. apply HQ; [done|]. split; [lia|]. split; [done|lia].
Qed.

(** One entry changed or added. *)
Lemma dirents_put c i c' i' j de : dir_inv c i -> (j <= ndir i)%nat -> length de = 16%nat -> i_size i <= 69104 ->
  i_size i' = Z.max (i_size i) (Z.of_nat (16 * j + 16)) ->
  (forall p, (p < MAXBN * 512)%nat -> fbyte c' i' p = put_bytes (16 * j) de (fbyte c i) p) ->
  (ndir i' = Nat.max (ndir i) (S j)) /\
  (forall m, (m < ndir i')%nat -> dirent_at c' i' m = if decide (m = j) then de else dirent_at c i m).
Proof.
  intros Hd Hj Hl Hmax Hsz' Hby. pose proof (ndir_size c i Hd) as Hsz.
  assert (ndir i' = Nat.max (ndir i) (S j)) as En.
  { unfold ndir at 1. rewrite Hsz', Hsz. replace (Z.max _ _) with (Z.of_nat (Nat.max (ndir i) (S j)) * 16) by lia.
    rewrite Z.div_mul by lia. lia. }
  split; [done|]. intros m Hm. rewrite MAXBN_eq in Hby. apply list_eq. intros q. unfold dirent_at at 1. rewrite list_lookup_fmap.
  destruct (decide (q < 16)%nat) as [Hq|Hq].
  - rewrite lookup_seq_lt by done. cbn [fmap option_fmap option_map]. rewrite Hby by lia. unfold put_bytes. rewrite Hl. case_decide as E1.
    + rewrite decide_True by lia. replace (16 * m + q - 16 * j)%nat with q by lia.
      destruct (lookup_lt_is_Some_2 de q) as [x Hx]; [lia|]. by rewrite Hx.
    + rewrite decide_False by lia. unfold dirent_at. by rewrite list_lookup_fmap, lookup_seq_lt.
  - rewrite lookup_seq_ge by lia. symmetry. apply lookup_ge_None_2. case_decide; rewrite ?length_dirent_at; lia.
Qed.

(** A free entry filled for [name] is found for that name, and only for it. *)
Lemma dir_find_put c i c' i' j name inum : free_at c i j -> dir_find c i name = None -> 0 < inum < 2 ^ 16 ->
  ndir i' = Nat.max (ndir i) (S j) ->
  (forall m, (m < ndir i')%nat -> dirent_at c' i' m = if decide (m = j) then mk_dirent inum name else dirent_at c i m) ->
  forall name', dir_find c' i' name' =
    if decide (cstrn DIRSIZ name' = cstrn DIRSIZ name) then Some (j, mk_dirent inum name) else dir_find c i name'.
Proof.
  intros (Hj & Hbefore & Hfree) Hnone Hin Hnd Hat name'. unfold dir_find in *.
  assert (forall m, dirents c' i' !! m = if decide (m = j) then Some (mk_dirent inum name) else dirents c i !! m) as Hl.
  { intros m. rewrite !dirents_lookup. destruct (decide (m < ndir i')%nat) as [Hm|Hm].
    - rewrite Hat by done. case_decide; [done|]. by rewrite decide_True by lia.
    - rewrite !decide_False by lia. done. }
  assert (entry_for name' (mk_dirent inum name) <-> cstrn DIRSIZ name' = cstrn DIRSIZ name) as Hmk.
  { unfold entry_for. rewrite de_inum_mk, de_name_mk by lia. split; [intros [_ ?]; congruence|]. intros ->. split; [lia|done]. }
  assert (forall m de, m <> j -> dirents c i !! m = Some de -> dirents c' i' !! m = Some de) as Hkeep.
  { intros m de Hne Hm. by rewrite Hl, decide_False. }
  case_decide as E.
  - apply list_find_Some. split; [by rewrite Hl, decide_True|]. split; [by apply Hmk|]. intros m de Hm Hlt He.
    rewrite Hl, decide_False in Hm by lia. apply list_find_None in Hnone. rewrite Forall_lookup in Hnone. apply (Hnone m de Hm).
    unfold entry_for in *. by rewrite <-E.
  - destruct (list_find (entry_for name') (dirents c i)) as [[m de]|] eqn:Ef.
    + apply list_find_Some in Ef as (Hm & He & Hfirst). apply list_find_Some.
      assert (m <> j) as Hmj.
      { intros ->. rewrite dirents_lookup in Hm. case_decide; [|done]. injection Hm as <-. destruct He as [He _]. by apply He, Hfree. }
      split; [by apply Hkeep|]. split; [done|]. intros m' de' Hm' Hlt He'. rewrite Hl in Hm'. case_decide.
      * injection Hm' as <-. by apply E, Hmk.
      * by eapply Hfirst.
    + apply list_find_None in Ef. rewrite Forall_lookup in Ef. apply list_find_None, Forall_lookup. intros m de Hm He.
      rewrite Hl in Hm. case_decide; [injection Hm as <-; by apply E, Hmk|]. by eapply Ef.
Qed.

Lemma dir_inv_put c i c' i' j name inum : dir_inv c i -> file_inv B ds c' i' -> is_bytes name -> (j <= ndir i)%nat -> i_size i <= 69104 ->
  i_size i' = Z.max (i_size i) (Z.of_nat (16 * j + 16)) -> i_type i' = i_type i ->
  (forall p, (p < MAXBN * 512)%nat -> fbyte c' i' p = put_bytes (16 * j) (mk_dirent inum name) (fbyte c i) p) -> dir_inv c' i'.
Proof.
  intros Hd F Hn Hj Hmax Hsz' Hty Hby. pose proof (ndir_size c i Hd) as Hsz. constructor; [done|by rewrite Hty, (di_type c i Hd)| |].
  - rewrite Hsz', Hsz. replace (Z.max _ _) with (Z.of_nat (Nat.max (ndir i) (S j)) * 16) by lia. apply Z.mod_mul. lia.
  - intros p Hp. rewrite MAXBN_eq in Hby. rewrite Hby by lia. unfold put_bytes. rewrite length_mk_dirent.
    assert (is_bytes (mk_dirent inum name)) as Hb.
    { unfold mk_dirent. apply Forall_app. split; [apply is_bytes_le_bytes|]. apply is_bytes_strncpy; [|done].
      apply Forall_replicate. lia. }
    case_decide.
    + destruct (lookup_lt_is_Some_2 (mk_dirent inum name) (p - 16 * j)) as [x Hx]; [rewrite length_mk_dirent; lia|].
      rewrite Hx. cbn. by apply (Forall_lookup_1 _ _ _ _ Hb Hx).
    + apply (di_bytes c i Hd). lia.
Qed.

(** C17: dirlink of a name the directory does not have stores the entry in the first
    free place or at the end and returns 0; afterwards the name, cut to 14 bytes,
    is found with that inode number, every other name is found as before, and the
    directory is still well formed. *)
Theorem dirlink_adds mypid I c i k dp name inum s
  (Hf : fsees B I c (7 + k) ∅ s) (Hi : I !! dp = Some i) (Hd : dir_inv c i) (Hn : is_bytes name) (Hin : 0 < inum < 2 ^ 16)
  (Hnew : dir_find c i name = None) (Hmax : i_size i <= 69104) (Hfree : (2 <= nfree B c)%nat) :
  wp (dirlink dev_read dev_write mypid dp name inum) (λ r s', r = 0 /\ exists c' i' j, fsees B (<[dp := i']> I) c' k ∅ s' /\
    dir_inv c' i' /\ free_at c i j /\
    (forall name', dir_find c' i' name' =
       if decide (cstrn DIRSIZ name' = cstrn DIRSIZ name) then Some (j, mk_dirent inum name) else dir_find c i name')) s.
Proof.
  unfold dirlink. pose proof (ndir_size c i Hd) as Hsz. apply wp_bind. eapply R_dirlookup; [exact Hf|exact Hi|done|done|].
  intros s1 H1. rewrite Hnew. apply wp_bind. eapply R_ip_get; [exact H1|exact Hi|]. apply wp_bind.
  change 0 with (Z.of_nat (16 * 0)) at 1. eapply R_dir_free_from; [exact Hi|done|exact H1|lia|unfold ndir; lia|lia|].
  intros j s2 H2 Hj. apply wp_bind. pose proof Hj as (Hj1 & _).
  replace (writei dev_write dp (mk_dirent inum name) (Z.of_nat (16 * j)) 16) with
    (writei dev_write dp (mk_dirent inum name) (Z.of_nat (16 * j)) (Z.of_nat (length (mk_dirent inum name)))) by (by rewrite length_mk_dirent).
  assert (blocks_of (16 * j) (length (mk_dirent inum name)) = 1%nat) as Eb by (rewrite length_mk_dirent; apply blocks_of_dirent).
  eapply (R_writei B ds Hly dev_write I c i k); [rewrite Eb; exact H2|exact Hi|apply Hd|by rewrite (di_type c i Hd)|lia
    |rewrite length_mk_dirent, MAXBN_eq; lia|rewrite Eb; lia|].
  intros c' i' s3 H3 F' Hsz' Hi' Hby _ _. rewrite length_mk_dirent in *. cbn [negb Z.of_nat Z.eqb]. apply wp_ret. split; [done|].
  destruct (dirents_put c i c' i' j (mk_dirent inum name)) as [En Hat]; try done; [apply length_mk_dirent|].
  exists c', i', j. split; [done|]. split; [eapply dir_inv_put; try done; by rewrite Hi'|]. split; [done|]. by apply dir_find_put.
Qed.
End dir.

(** ** On the sample disk: a directory with one entry, "ab" for inode 9 *)
Definition one_dir : inode :=
  mkInode 1 8 1 initsleeplock true T_DIR 0 0 1 16 (59 :: replicate 7 0) (root_name ++ replicate 12 0) 61.
Definition dir_disk : Z -> block :=
  upd (upd (upd (λ _, zero_block) 58 (bit_mark sample_map 59)) 33 (dip_store (dip_off 8) one_dir zero_block))
    59 (mk_dirent 9 (bytes_of "ab") ++ replicate 496 0).

Lemma dir_disk_len b : length (dir_disk b) = BSIZE.
Proof. unfold dir_disk, upd. by repeat case_decide. Qed.

Lemma dir_disk_free b : 0 <= b < 1000 -> is_free dir_disk sample_sb b = (60 <=? b).
Proof.
  intros Hb. assert (forallb (λ b, Bool.eqb (is_free dir_disk sample_sb b) (60 <=? b)) (seqZ 0 1000) = true) as H
    by (vm_compute; reflexivity).
  rewrite forallb_forall in H. apply Bool.eqb_prop, H. apply list_elem_of_In, elem_of_seqZ. lia.
Qed.

Lemma one_dir_faddr c bn : faddr c one_dir bn = if decide (bn = 0%nat) then 59 else 0.
Proof. unfold faddr. by do 8 (destruct bn as [|bn]; [done|]). Qed.

Lemma one_dir_inv : dir_inv sample_sb 59 dir_disk one_dir.
Proof.
  constructor; [|done|done|].
  - constructor.
    + constructor; [done|done| |done| |].
      * intros bn _. rewrite one_dir_faddr. case_decide; [intros _|done]. split; [cbn; lia|]. by rewrite dir_disk_free by lia.
      * intros a b _ _. rewrite !one_dir_faddr. repeat case_decide; congruence.
      * intros bn _. rewrite one_dir_faddr. by case_decide.
    + intros b Hb. rewrite dir_disk_free by (cbn in *; lia). apply Z.leb_gt. lia.
    + constructor; cbn; unfold is_s16, is_u32, T_DIR; [lia|lia| |done]. split; [done|]. repeat constructor; lia.
    + cbn. lia.
    + cbn. lia.
    + intros p Hp. cbn in Hp. rewrite one_dir_faddr, Nat.div_small by lia. done.
    + vm_compute. reflexivity.
  - intros p Hp. cbn [i_size one_dir] in Hp. assert (p < 16)%nat as Hp' by lia. clear Hp. do 16 (destruct p as [|p]; [vm_compute; split; congruence|]). lia.
Qed.

Definition dir_cache : list inode := one_dir :: replicate 49 inode0.
#[local] Abbreviation dir_state := (boot_state dir_disk sample_sb dir_cache).

Lemma dir_cache_lookup a x : dir_cache !! a = Some x -> a = 0%nat /\ x = one_dir \/ x = inode0.
Proof.
  destruct a as [|a]; [intros [= <-]; by left|]. change (dir_cache !! S a) with (replicate 49 inode0 !! a).
  intros [-> _]%lookup_replicate. by right.
Qed.

Lemma dir_cache_inv : ic_inv dir_cache.
Proof.
  constructor; [done| |].
  - intros a b x y [[-> ->]| ->]%dir_cache_lookup [[-> ->]| ->]%dir_cache_lookup Hx Hy; cbn in Hx, Hy; done || lia.
  - intros a x [[-> ->]| ->]%dir_cache_lookup; cbn; lia.
Qed.

Lemma dir_state_sees k : (k <= 27)%nat -> fsees (BLi := bio_layer 1000 1) sample_sb dir_cache dir_disk k ∅ dir_state.
Proof. intros Hk. apply boot_fsees; cbn; try lia. exact dir_disk_len. Qed.

Lemma dirlookup_first_witness :
  wp (dirlookup (BL := bio_layer 1000 1) (λ _, None) 0 (bytes_of "ab")) (λ r _, exists ip, r = Some (ip, 0)) dir_state.
Proof.
  assert (dir_find dir_disk one_dir (bytes_of "ab") = Some (0%nat, mk_dirent 9 (bytes_of "ab"))) as E by (vm_compute; reflexivity).
  eapply wp_mono.
  - apply (dirlookup_first (BLi := bio_layer 1000 1) (BW := bio_laws 1000 1) sample_sb 59 sample_layout (λ _, None) (λ _, None) dir_cache
      dir_disk one_dir 0 0 (bytes_of "ab") dir_state);
      [apply dir_state_sees; lia|done|exact one_dir_inv|repeat constructor; lia|exact dir_cache_inv|].
    intros m de Hf. rewrite E in Hf. injection Hf as <- <-. split; [by vm_compute|]. exists 1%nat, inode0. split; [done|by left].
  - cbn beta. rewrite E. intros r s' (ip & I' & x & -> & _). by exists ip.
Defined.

Lemma dirlink_adds_witness :
  wp (dirlink (BL := bio_layer 1000 1) (λ _, None) (λ _, None) 1 0 (bytes_of "new") 7) (λ r _, r = 0) dir_state.
Proof.
  eapply wp_mono.
  - apply (dirlink_adds (BLi := bio_layer 1000 1) (BW := bio_laws 1000 1) sample_sb 59 sample_layout (λ _, None) (λ _, None) 1 dir_cache
      dir_disk one_dir 0 0 (bytes_of "new") 7 dir_state);
      [apply dir_state_sees; lia|done|exact one_dir_inv|repeat constructor; lia|lia|vm_compute; reflexivity|cbn; lia|].
    assert (nfree sample_sb dir_disk = 940%nat) as -> by (vm_compute; reflexivity). lia.
  - cbn beta. by intros r s' [-> _].
Defined.
