(* ===== verification/FileDefs.v ===== *)
(** * Open files (file.c) and the making of pipes (pipe.c)

    The file table, the pipes and the running process's descriptors on top of
    the file system.  A file pointer is the index of its entry in the table.
    What kalloc returns to pipealloc is an argument. *)

From S2P Require Import Prelude CString Sleeplock Block BlockLayer Log FsDefs Pipe.

Inductive ftype := FD_NONE | FD_PIPE | FD_INODE.
#[global] Instance ftype_eq_dec : EqDecision ftype.
Proof. solve_decision. Defined.

(** struct file *)
Record file := mkFile {
  f_type : ftype; f_ref : Z; f_readable : bool; f_writable : bool;
  f_pipe : Z; f_ip : nat; f_off : Z
}.
Definition file0 : file := mkFile FD_NONE 0 false false 0 0 0.
Definition NFILE : nat := 100.
Definition NOFILE : nat := 16.

Definition set_f_ref (r : Z) (f : file) := mkFile (f_type f) r (f_readable f) (f_writable f) (f_pipe f) (f_ip f) (f_off f).
Definition set_f_type (t : ftype) (f : file) := mkFile t (f_ref f) (f_readable f) (f_writable f) (f_pipe f) (f_ip f) (f_off f).
Definition set_f_off (o : Z) (f : file) := mkFile (f_type f) (f_ref f) (f_readable f) (f_writable f) (f_pipe f) (f_ip f) o.

(** The accounts of sysfile.c: ten pairs of 16-byte strings, and the flags. *)
Record utable := mkUt { u_ip : option nat; u_user : list Z; u_online : list Z }.

(** What the calls use of struct proc. *)
Record me := mkMe { ofile : list (option nat); me_cwd : nat; me_id : list Z; me_killed : bool }.

Section file.
Context {St : Type} `{BL : BlockLayer St}.
Context (dev_read : Z -> option (nat -> Z -> M (fsst St) (Z * list Z))).
Context (dev_write : Z -> option (nat -> list Z -> Z -> M (fsst St) Z)).
Context (mypid : Z).

Record kst := mkK {
  kfs : fsst St; ftab : list file; ftlk : bool; pipes : gmap Z pipe;
  ut : utable; utlk : bool; cur : me
}.

Definition on_fs {A} (m : M (fsst St) A) : M kst A :=
  zoom kfs (λ x s, mkK x (ftab s) (ftlk s) (pipes s) (ut s) (utlk s) (cur s)) m.
Definition k_begin_op : M kst unit := on_fs (on_log begin_op).
Definition k_end_op : M kst unit := on_fs (on_log end_op).

Definition set_ftab (t : list file) (l : bool) (s : kst) : kst := mkK (kfs s) t l (pipes s) (ut s) (utlk s) (cur s).
Definition set_pipes (p : gmap Z pipe) (s : kst) : kst := mkK (kfs s) (ftab s) (ftlk s) p (ut s) (utlk s) (cur s).
Definition set_ut (u : utable) (s : kst) : kst := mkK (kfs s) (ftab s) (ftlk s) (pipes s) u (utlk s) (cur s).
Definition set_cur (c : me) (s : kst) : kst := mkK (kfs s) (ftab s) (ftlk s) (pipes s) (ut s) (utlk s) c.

Definition acquire_ft : M kst unit := s ← get; if ftlk s then panic "acquire" else put (set_ftab (ftab s) true s).
Definition release_ft : M kst unit := s ← get; if negb (ftlk s) then panic "release" else put (set_ftab (ftab s) false s).
Definition f_get (f : nat) : M kst file := gets (λ s, default file0 (ftab s !! f)).
Definition f_upd (f : nat) (g : file -> file) : M kst unit := modify (λ s, set_ftab (alter g f (ftab s)) (ftlk s) s).

(** ** file.c *)

Definition find_file (l : list file) : option nat := fst <$> list_find (λ f, f_ref f = 0) l.

Definition filealloc : M kst (option nat) :=
  acquire_ft ;;
  s ← get;
  match find_file (ftab s) with
  | Some f => f_upd f (set_f_ref 1) ;; release_ft ;; mret (Some f)
  | None => release_ft ;; mret None
  end.

Definition filedup (f : nat) : M kst nat :=
  acquire_ft ;;
  x ← f_get f;
  if f_ref x <? 1 then panic "filedup"
  else f_upd f (λ x, set_f_ref (s32 (f_ref x + 1)) x) ;; release_ft ;; mret f.

(** pipeclose(p, writable); kfree takes the page away. *)
Definition k_pipeclose (p : Z) (writable : bool) : M kst unit :=
  s ← get;
  match pipes s !! p with
  | None => panic "no pipe"
  | Some x =>
      let '(x', freed) := pipeclose writable x in
      put (set_pipes (if freed then delete p (pipes s) else <[p := x']> (pipes s)) s)
  end.

Definition fileclose (f : nat) : M kst unit :=
  acquire_ft ;;
  x ← f_get f;
  if f_ref x <? 1 then panic "fileclose"
  else
    f_upd f (λ x, set_f_ref (f_ref x - 1) x) ;;
    x ← f_get f;
    if 0 <? f_ref x then release_ft
    else
      f_upd f (λ x, set_f_type FD_NONE (set_f_ref 0 x)) ;;
      release_ft ;;
      match f_type x with
      | FD_PIPE => k_pipeclose (f_pipe x) (f_writable x)
      | FD_INODE => k_begin_op ;; on_fs (iput mypid (f_ip x)) ;; k_end_op
      | FD_NONE => mret tt
      end.

(** -1 is [None]. *)
Definition filestat (f : nat) (id0 : list Z) : M kst (option stat) :=
  x ← f_get f;
  match f_type x with
  | FD_INODE =>
      on_fs (ilock mypid (f_ip x)) ;;
      st ← on_fs (stati (f_ip x) id0);
      on_fs (iunlock mypid (f_ip x)) ;;
      mret (Some st)
  | _ => mret None
  end.

Definition k_piperead (p n : Z) : M kst (Z * list Z) :=
  s ← get;
  match pipes s !! p with
  | None => panic "no pipe"
  | Some x =>
      let '(x', e) := piperead (me_killed (cur s)) (Z.to_nat n) x in
      put (set_pipes (<[p := x']> (pipes s)) s) ;;
      match e with
      | RDone bs => mret (Z.of_nat (length bs), bs)
      | RFail => mret (-1, [])
      | RSleep => sleep_on (CPipeRead p)
      end
  end.

Definition k_pipewrite (p : Z) (addr : list Z) (n : Z) : M kst Z :=
  s ← get;
  match pipes s !! p with
  | None => panic "no pipe"
  | Some x =>
      let '(x', e) := pipewrite (me_killed (cur s)) (take (Z.to_nat n) addr) x in
      put (set_pipes (<[p := x']> (pipes s)) s) ;;
      match e with
      | WDone => mret n
      | WFail _ => mret (-1)
      | WSleep _ => sleep_on (CPipeWrite p)
      end
  end.

Definition fileread (f : nat) (n : Z) : M kst (Z * list Z) :=
  x ← f_get f;
  if negb (f_readable x) then mret (-1, [])
  else match f_type x with
  | FD_PIPE => k_piperead (f_pipe x) n
  | FD_INODE =>
      k_begin_op ;;
      on_fs (ilock mypid (f_ip x)) ;;
      r ← on_fs (readi dev_read (f_ip x) (f_off x) (u32 n));
      when (0 <? r.1) (f_upd f (λ x, set_f_off (u32 (f_off x + r.1)) x)) ;;
      on_fs (iunlock mypid (f_ip x)) ;;
      k_end_op ;;
      mret r
  | FD_NONE => panic "fileread"
  end.

Definition fw_max : Z := ((MAXOPBLOCKS - 1 - 1 - 2) / 2) * 512.

(** The loop of filewrite; returns the final [i]. *)
Fixpoint filewrite_loop (fuel : nat) (f : nat) (addr : list Z) (i n : Z) : M kst Z :=
  match fuel with
  | O => mret i
  | S fuel' =>
      if i <? n then
        let n1 := if fw_max <? n - i then fw_max else n - i in
        k_begin_op ;;
        x ← f_get f;
        on_fs (ilock mypid (f_ip x)) ;;
        r ← on_fs (writei dev_write (f_ip x) (drop (Z.to_nat i) addr) (f_off x) n1);
        when (0 <? r) (f_upd f (λ x, set_f_off (u32 (f_off x + r)) x)) ;;
        on_fs (iunlock mypid (f_ip x)) ;;
        k_end_op ;;
        if r <? 0 then mret i
        else if negb (r =? n1) then panic "short filewrite"
        else filewrite_loop fuel' f addr (i + r) n
      else mret i
  end.

Definition filewrite (f : nat) (addr : list Z) (n : Z) : M kst Z :=
  x ← f_get f;
  if negb (f_writable x) then mret (-1)
  else match f_type x with
  | FD_PIPE => k_pipewrite (f_pipe x) addr n
  | FD_INODE =>
      i ← filewrite_loop (Z.to_nat (n / fw_max) + 2) f addr 0 n;
      mret (if i =? n then n else -1)
  | FD_NONE => panic "filewrite"
  end.

(** ** pipealloc: [page] is what kalloc returns, an address and its contents. *)
Definition pipealloc (page : option (Z * list Z)) : M kst (option (nat * nat)) :=
  f0 ← filealloc;
  match f0 with
  | None => mret None
  | Some f0 =>
      f1 ← filealloc;
      match f1, page with
      | Some f1, Some (p, d) =>
          modify (λ s, set_pipes (<[p := pipe_new (take 512 d)]> (pipes s)) s) ;;
          f_upd f0 (λ x, mkFile FD_PIPE (f_ref x) true false p (f_ip x) (f_off x)) ;;
          f_upd f1 (λ x, mkFile FD_PIPE (f_ref x) false true p (f_ip x) (f_off x)) ;;
          mret (Some (f0, f1))
      | Some f1, None => fileclose f0 ;; fileclose f1 ;; mret None
      | None, _ => fileclose f0 ;; mret None
      end
  end.
End file.
Arguments kst : clear implicits.
