(* ===== verification/SysfileDefs.v ===== *)
(** * The file-system calls (sysfile.c), with accounts and permissions

    An argument fetched by argstr, argint or argptr is an [option]: [None] is
    the -1 of the fetch.  The calls return what the code returns. *)

From S2P Require Import Prelude CString Sleeplock Block BlockLayer Log FsDefs Pipe FileDefs.

Definition NUM_USER : nat := 10.
Definition O_RDONLY : Z := 0.
Definition O_WRONLY : Z := 1.
Definition O_RDWR : Z := 2.
Definition O_CREATE : Z := 512.

(** utable.user[i][0] and utable.user[i][1] *)
Definition user_off (i k : nat) : nat := (32 * i + 16 * k)%nat.
Definition user_field (u : utable) (i k : nat) : list Z := slice (user_off i k) 16 (u_user u).
Definition set_field (i k : nat) (s : list Z) (u : utable) : utable :=
  mkUt (u_ip u) (splice (user_off i k) s (u_user u)) (u_online u).
(** strncpy(utable.user[i][k], s, 16) *)
Definition cpy_field (i k : nat) (s : list Z) (u : utable) : utable := set_field i k (strncpy (user_field u i k) s 16) u.
Definition set_online (i : nat) (v : Z) (u : utable) : utable := mkUt (u_ip u) (u_user u) (<[i := v]> (u_online u)).

Section sysfile.
Context {St : Type} `{BL : BlockLayer St}.
Context (dev_read : Z -> option (nat -> Z -> M (fsst St) (Z * list Z))).
Context (dev_write : Z -> option (nat -> list Z -> Z -> M (fsst St) Z)).
Context (mypid : Z).

Abbreviation K := (M (kst St)).

Definition acquire_ut : K unit := s ← get; if utlk s then panic "acquire" else put (mkK (kfs s) (ftab s) (ftlk s) (pipes s) (ut s) true (cur s)).
Definition release_ut : K unit := s ← get; if negb (utlk s) then panic "release" else put (mkK (kfs s) (ftab s) (ftlk s) (pipes s) (ut s) false (cur s)).
Definition upd_ut (f : utable -> utable) : K unit := modify (λ s, set_ut (f (ut s)) s).
Definition my : K me := gets cur.

Definition k_namei (path : list Z) : K (option nat) :=
  c ← my; on_fs (namei dev_read mypid (me_id c) (me_cwd c) path).
Definition k_nameiparent (path : list Z) : K (option nat * list Z) :=
  c ← my; on_fs (nameiparent dev_read mypid (me_id c) (me_cwd c) path (replicate DIRSIZ 0)).
Definition k_ilock (ip : nat) : K unit := on_fs (ilock mypid ip).
Definition k_iunlock (ip : nat) : K unit := on_fs (iunlock mypid ip).
Definition k_iunlockput (ip : nat) : K unit := on_fs (iunlockput mypid ip).
Definition k_iput (ip : nat) : K unit := on_fs (iput mypid ip).
Definition k_ip (ip : nat) : K inode := on_fs (ip_get ip).
Definition k_ip_upd (ip : nat) (f : inode -> inode) : K unit := on_fs (ip_upd ip f).
Definition k_iupdate (ip : nat) : K unit := on_fs (iupdate ip).
Definition k_dirlookup (dp : nat) (name : list Z) : K (option (nat * Z)) := on_fs (dirlookup dev_read dp name).
Definition k_dirlink (dp : nat) (name : list Z) (inum : Z) : K Z := on_fs (dirlink dev_read dev_write mypid dp name inum).
Definition k_writei (ip : nat) (src : list Z) (off n : Z) : K Z := on_fs (writei dev_write ip src off n).
Definition k_ialloc (dev type : Z) : K nat := on_fs (ialloc dev type).

(** ** Accounts *)

Definition account_matches (u : utable) (id pw : list Z) (i : nat) : bool :=
  (strncmp (user_field u i 0) id 16 =? 0) && (strncmp (user_field u i 1) pw 16 =? 0).
Definition first_slot (f : nat -> bool) : option nat := snd <$> list_find (λ i, f i = true) (seq 0 NUM_USER).

Definition accountcheck (id pw : list Z) : K Z :=
  acquire_ut ;;
  s ← get;
  match first_slot (account_matches (ut s) id pw) with
  | Some i => upd_ut (set_online i 1) ;; release_ut ;; mret 0
  | None => release_ut ;; mret (-1)
  end.

Definition user_path : list Z := bytes_of "./useraccount".
Definition root_pw : list Z := bytes_of "0000".

(** The branch that creates the account file in [dp]. *)
Definition usysinit_create (dp : nat) (name : list Z) : K (option nat) :=
  acquire_ut ;;
  upd_ut (λ u, set_online 0 1 (cpy_field 0 1 root_pw (cpy_field 0 0 root_name u))) ;;
  release_ut ;;
  d ← k_ip dp;
  ip ← k_ialloc (i_dev d) T_FILE;
  k_ilock ip ;;
  k_ip_upd ip (λ i, set_i_user (strncpy (i_user i) root_name 16) (set_i_nlink 1 (set_i_major_minor 0 0 i))) ;;
  k_iupdate ip ;;
  i ← k_ip ip;
  r ← k_dirlink dp name (i_inum i);
  if r <? 0 then panic "create: dirlink"
  else
    s ← get;
    w ← k_writei ip (u_user (ut s)) 0 320;
    if w <? 0 then k_iunlock ip ;; k_end_op ;; mret None
    else
      k_iupdate dp ;; k_iupdate ip ;; k_iunlockput dp ;; k_iunlock ip ;; mret (Some ip).

(** The branch that reads the account file found as [ip0].  The bytes read go
    over the table.  On failure of namei the code unlocks the null pointer. *)
Definition usysinit_load (dp ip0 : nat) : K (option nat) :=
  k_iunlockput dp ;;
  k_ilock ip0 ;;
  r ← k_namei user_path;
  match r with
  | None => panic "iunlock"
  | Some ip =>
      rd ← on_fs (readi dev_read ip 0 320);
      upd_ut (λ u, mkUt (u_ip u) (splice 0 rd.2 (u_user u)) (u_online u)) ;;
      if rd.1 <? 0 then k_iunlock ip ;; k_end_op ;; mret None
      else
        k_iunlockput ip ;;
        acquire_ut ;;
        upd_ut (λ u, cpy_field 0 1 root_pw (cpy_field 0 0 root_name u)) ;;
        release_ut ;;
        mret (Some ip)
  end.

Definition usysinit : K Z :=
  acquire_ut ;;
  upd_ut (λ u, mkUt (u_ip u) (replicate 320 0) (replicate NUM_USER 0)) ;;
  release_ut ;;
  k_begin_op ;;
  r ← k_nameiparent user_path;
  match r.1 with
  | None => mret (-1)
  | Some dp =>
      k_ilock dp ;;
      l ← k_dirlookup dp r.2;
      ip ← (match l with None => usysinit_create dp r.2 | Some (ip, _) => usysinit_load dp ip end);
      match ip with
      | None => mret (-1)
      | Some ip =>
          acquire_ut ;; upd_ut (λ u, mkUt (Some ip) (u_user u) (u_online u)) ;; release_ut ;;
          k_end_op ;; mret 0
      end
  end.

(** ilock(utable.ip) *)
Definition ilock_users : K nat :=
  s ← get; match u_ip (ut s) with None => panic "ilock" | Some ip => k_ilock ip ;; mret ip end.

(** The directory addUser makes for the new user in the root. *)
Definition adduser_dir (dp : nat) (username : list Z) : K unit :=
  d ← k_ip dp;
  ip ← k_ialloc (i_dev d) T_DIR;
  k_ilock dp ;;
  k_ilock ip ;;
  k_ip_upd ip (λ i, set_i_user (strncpy (i_user i) username 16) (set_i_nlink 1 (set_i_major_minor 0 0 i))) ;;
  k_iupdate ip ;;
  k_ip_upd dp (λ d, set_i_nlink (s16 (i_nlink d + 1)) d) ;;
  k_iupdate dp ;;
  i ← k_ip ip;
  d ← k_ip dp;
  r1 ← k_dirlink ip (bytes_of ".") (i_inum i);
  r2 ← (if r1 <? 0 then mret (-1) else k_dirlink ip (bytes_of "..") (i_inum d));
  if r2 <? 0 then panic "create dots"
  else
    r3 ← k_dirlink dp username (i_inum i);
    if r3 <? 0 then panic "create: dirlink"
    else k_iupdate ip ;; k_iupdate dp ;; k_iunlockput ip ;; k_iunlockput dp.

Definition addUser (username password : list Z) : K Z :=
  c ← my;
  if negb (strncmp (me_id c) root_name 16 =? 0) then mret (-1)
  else
    acquire_ut ;;
    s ← get;
    match first_slot (λ i, strncmp (user_field (ut s) i 0) username 16 =? 0) with
    | Some _ => release_ut ;; mret (-1)
    | None =>
        match first_slot (λ i, default 0 (u_online (ut s) !! i) =? 0) with
        | None => release_ut ;; mret (-1)
        | Some i =>
            upd_ut (λ u, set_online i 1 (cpy_field i 1 password (cpy_field i 0 username u))) ;;
            release_ut ;;
            k_begin_op ;;
            ip ← ilock_users;
            s ← get;
            w ← k_writei ip (u_user (ut s)) 0 320;
            k_iunlock ip ;;
            r ← k_namei [SLASH];
            match r with
            | None => k_end_op ;; mret (-1)
            | Some dp =>
                l ← k_dirlookup dp username;
                (match l with None => adduser_dir dp username | Some _ => mret tt end) ;;
                k_end_op ;; mret 0
            end
        end
    end.

Definition deleteUser (username : list Z) : K Z :=
  c ← my;
  if negb (strncmp (me_id c) root_name 16 =? 0) then mret (-1)
  else if strncmp username root_name 16 =? 0 then mret (-1)
  else
    acquire_ut ;;
    s ← get;
    match first_slot (λ i, strncmp (user_field (ut s) i 0) username 16 =? 0) with
    | None => release_ut ;; mret (-1)
    | Some i =>
        upd_ut (λ u, set_online i 0 (set_field i 1 (replicate 16 0) (set_field i 0 (replicate 16 0) u))) ;;
        release_ut ;;
        k_begin_op ;;
        ip ← ilock_users;
        s ← get;
        w ← k_writei ip (u_user (ut s)) 0 320;
        if w <? 0 then k_end_op ;; mret (-1)
        else k_iunlock ip ;; k_end_op ;; mret 0
    end.

(** !strncmp(myproc()->id, "root", 16) || !strncmp(myproc()->id, ip->user, 16) *)
Definition owner_or_root (c : me) (i : inode) : bool :=
  (strncmp (me_id c) root_name 16 =? 0) || (strncmp (me_id c) (i_user i) 16 =? 0).

Definition chmod (path : list Z) (mode : Z) : K Z :=
  k_begin_op ;;
  r ← k_namei path;
  match r with
  | None => k_end_op ;; mret (-1)
  | Some ip =>
      k_ilock ip ;;
      i ← k_ip ip;
      c ← my;
      if negb (i_type i =? T_DEV) && negb (owner_or_root c i) then k_iunlock ip ;; k_end_op ;; mret (-1)
      else if i_type i =? T_DEV then k_iunlock ip ;; k_end_op ;; mret (-1)
      else k_ip_upd ip (set_i_mode (u32 mode)) ;; k_iupdate ip ;; k_iunlock ip ;; k_end_op ;; mret 0
  end.

(** The calls around them: -1 unless the arguments were fetched. *)
Definition sys_addUser (id pw : option (list Z)) : K Z :=
  match id, pw with Some id, Some pw => addUser id pw | _, _ => mret (-1) end.
Definition sys_deleteUser (id : option (list Z)) : K Z :=
  match id with Some id => deleteUser id | None => mret (-1) end.
Definition sys_accountcheck (id pw : option (list Z)) : K Z :=
  match id, pw with Some id, Some pw => accountcheck id pw | _, _ => mret (-1) end.
Definition sys_chmod (path : option (list Z)) (mode : option Z) : K Z :=
  match path, mode with Some path, Some mode => chmod path mode | _, _ => mret (-1) end.

(** ** Descriptors *)

Definition argfd (fd : option Z) : K (option (Z * nat)) :=
  c ← my;
  mret (match fd with
        | None => None
        | Some fd =>
            if (fd <? 0) || (Z.of_nat NOFILE <=? fd) then None
            else match ofile c !! Z.to_nat fd with Some (Some f) => Some (fd, f) | _ => None end
        end).

Definition set_ofile (fd : nat) (f : option nat) : K unit :=
  modify (λ s, set_cur (mkMe (<[fd := f]> (ofile (cur s))) (me_cwd (cur s)) (me_id (cur s)) (me_killed (cur s))) s).

Definition free_fd (l : list (option nat)) : option nat := fst <$> list_find (λ f, f = None) l.

Definition fdalloc (f : nat) : K Z :=
  c ← my;
  match free_fd (take NOFILE (ofile c)) with
  | Some fd => set_ofile fd (Some f) ;; mret (Z.of_nat fd)
  | None => mret (-1)
  end.

Definition sys_dup (fd : option Z) : K Z :=
  a ← argfd fd;
  match a with
  | None => mret (-1)
  | Some (_, f) =>
      r ← fdalloc f;
      if r <? 0 then mret (-1) else filedup f ;; mret r
  end.

(** [p] tells whether argptr accepted the buffer. *)
Definition sys_read (fd n : option Z) (p : bool) : K (Z * list Z) :=
  a ← argfd fd;
  match a, n with
  | Some (_, f), Some n => if p then fileread dev_read mypid f n else mret (-1, [])
  | _, _ => mret (-1, [])
  end.
Definition sys_write (fd n : option Z) (p : option (list Z)) : K Z :=
  a ← argfd fd;
  match a, n, p with
  | Some (_, f), Some n, Some addr => filewrite dev_write mypid f addr n
  | _, _, _ => mret (-1)
  end.
Definition sys_close (fd : option Z) : K Z :=
  a ← argfd fd;
  match a with
  | None => mret (-1)
  | Some (fd, f) => set_ofile (Z.to_nat fd) None ;; fileclose mypid f ;; mret 0
  end.
(** [id0] is what the buffer holds where st->id goes. *)
Definition sys_fstat (fd : option Z) (id0 : option (list Z)) : K (option stat) :=
  a ← argfd fd;
  match a, id0 with Some (_, f), Some id0 => filestat mypid f id0 | _, _ => mret None end.

(** ** Links *)

Definition link_bad (ip : nat) : K Z :=
  k_ilock ip ;;
  k_ip_upd ip (λ i, set_i_nlink (s16 (i_nlink i - 1)) i) ;;
  k_iupdate ip ;;
  k_iunlockput ip ;;
  k_end_op ;;
  mret (-1).

Definition sys_link (old new : option (list Z)) : K Z :=
  match old, new with
  | Some old, Some new =>
      k_begin_op ;;
      r ← k_namei old;
      match r with
      | None => k_end_op ;; mret (-1)
      | Some ip =>
          k_ilock ip ;;
          i ← k_ip ip;
          if i_type i =? T_DIR then k_iunlockput ip ;; k_end_op ;; mret (-1)
          else
            k_ip_upd ip (λ i, set_i_nlink (s16 (i_nlink i + 1)) i) ;;
            k_iupdate ip ;;
            k_iunlock ip ;;
            d ← k_nameiparent new;
            match d.1 with
            | None => link_bad ip
            | Some dp =>
                k_ilock dp ;;
                di ← k_ip dp;
                i ← k_ip ip;
                l ← (if negb (i_dev di =? i_dev i) then mret (-1) else k_dirlink dp d.2 (i_inum i));
                if l <? 0 then k_iunlockput dp ;; link_bad ip
                else k_iunlockput dp ;; k_iput ip ;; k_end_op ;; mret 0
            end
      end
  | _, _ => mret (-1)
  end.

Fixpoint isdirempty_from (fuel : nat) (dp : nat) (off : Z) : K bool :=
  match fuel with
  | O => mret true
  | S fuel' =>
      i ← k_ip dp;
      if off <? i_size i then
        r ← on_fs (readi dev_read dp off 16);
        if negb (r.1 =? 16) then panic "isdirempty: readi"
        else if negb (de_inum r.2 =? 0) then mret false
        else isdirempty_from fuel' dp (off + 16)
      else mret true
  end.
Definition isdirempty (dp : nat) : K bool :=
  i ← k_ip dp; isdirempty_from (Z.to_nat (i_size i / 16) + 1) dp 32.

(** The permission tests: [um] for the owner and root, [om] for the others;
    devices are not tested. *)
Definition lacks (c : me) (i : inode) (um om : Z) : bool :=
  if owner_or_root c i then Z.land (i_mode i) um =? 0 else Z.land (i_mode i) om =? 0.
Definition denied (c : me) (i : inode) (um om : Z) : bool := negb (i_type i =? T_DEV) && lacks c i um om.

Definition unlink_bad (dp : nat) : K Z := k_iunlockput dp ;; k_end_op ;; mret (-1).

(** From the lookup of the entry on. *)
Definition unlink_entry (dp : nat) (name : list Z) : K Z :=
  l ← k_dirlookup dp name;
  match l with
  | None => unlink_bad dp
  | Some (ip, off) =>
      k_ilock ip ;;
      i ← k_ip ip;
      if i_nlink i <? 1 then panic "unlink: nlink < 1"
      else
        e ← (if i_type i =? T_DIR then isdirempty ip else mret true);
        if negb e then k_iunlockput ip ;; unlink_bad dp
        else
          w ← k_writei dp (replicate 16 0) off 16;
          if negb (w =? 16) then panic "unlink: writei"
          else
            when (i_type i =? T_DIR) (k_ip_upd dp (λ d, set_i_nlink (s16 (i_nlink d - 1)) d) ;; k_iupdate dp) ;;
            k_iunlockput dp ;;
            k_ip_upd ip (λ i, set_i_nlink (s16 (i_nlink i - 1)) i) ;;
            k_iupdate ip ;;
            k_iunlockput ip ;;
            k_end_op ;;
            mret 0
  end.

Definition sys_unlink (path : option (list Z)) : K Z :=
  match path with
  | None => mret (-1)
  | Some path =>
      k_begin_op ;;
      r ← k_nameiparent path;
      match r.1 with
      | None => k_end_op ;; mret (-1)
      | Some dp =>
          k_ilock dp ;;
          d ← k_ip dp;
          c ← my;
          if denied c d MODE_WUSR MODE_WOTH then unlink_bad dp
          else if (namecmp r.2 (bytes_of ".") =? 0) || (namecmp r.2 (bytes_of "..") =? 0) then unlink_bad dp
          else unlink_entry dp r.2
      end
  end.

(** ** Creating and opening *)

(** create when the name exists as [ip]. *)
Definition create_found (dp ip : nat) (type : Z) : K (option nat) :=
  k_iunlockput dp ;;
  k_ilock ip ;;
  i ← k_ip ip;
  c ← my;
  if denied c i MODE_WUSR MODE_WOTH then k_iunlockput ip ;; mret None
  else if (type =? T_FILE) && (i_type i =? T_FILE) then mret (Some ip)
  else k_iunlockput ip ;; mret None.

(** create when it does not. *)
Definition create_new (dp : nat) (name : list Z) (type major minor : Z) : K (option nat) :=
  d ← k_ip dp;
  c ← my;
  if denied c d MODE_WUSR MODE_WOTH then k_iunlockput dp ;; mret None
  else
    ip ← k_ialloc (i_dev d) type;
    k_ilock ip ;;
    k_ip_upd ip (λ i, set_i_user (strncpy (i_user i) (me_id c) 16) (set_i_nlink 1 (set_i_major_minor major minor i))) ;;
    k_iupdate ip ;;
    i ← k_ip ip;
    dots ← (if type =? T_DIR then
              k_ip_upd dp (λ d, set_i_nlink (s16 (i_nlink d + 1)) d) ;;
              k_iupdate dp ;;
              r1 ← k_dirlink ip (bytes_of ".") (i_inum i);
              if r1 <? 0 then mret (-1) else k_dirlink ip (bytes_of "..") (i_inum d)
            else mret 0);
    if dots <? 0 then panic "create dots"
    else
      r ← k_dirlink dp name (i_inum i);
      if r <? 0 then panic "create: dirlink"
      else k_iunlockput dp ;; mret (Some ip).

Definition create (path : list Z) (type major minor : Z) : K (option nat) :=
  r ← k_nameiparent path;
  match r.1 with
  | None => mret None
  | Some dp =>
      k_ilock dp ;;
      l ← k_dirlookup dp r.2;
      match l with
      | Some (ip, _) => create_found dp ip type
      | None => create_new dp r.2 type major minor
      end
  end.

(** The test of sys_open on an existing file, by the mode it is opened in. *)
Definition open_denied (c : me) (i : inode) (omode : Z) : bool :=
  if i_type i =? T_DEV then false
  else if omode =? O_RDONLY then lacks c i MODE_RUSR MODE_ROTH
  else if omode =? O_WRONLY then lacks c i MODE_WUSR MODE_WOTH
  else if omode =? O_RDWR then lacks c i MODE_WUSR MODE_WOTH || lacks c i MODE_RUSR MODE_ROTH
  else false.

Definition open_readable (omode : Z) : bool := Z.land omode O_WRONLY =? 0.
Definition open_writable (omode : Z) : bool := negb (Z.land omode O_WRONLY =? 0) || negb (Z.land omode O_RDWR =? 0).

(** The inode to open, locked, or [None] after end_op. *)
Definition open_inode (path : list Z) (omode : Z) : K (option nat) :=
  if negb (Z.land omode O_CREATE =? 0) then
    ip ← create path T_FILE 0 0;
    match ip with None => k_end_op ;; mret None | Some ip => mret (Some ip) end
  else
    r ← k_namei path;
    match r with
    | None => k_end_op ;; mret None
    | Some ip =>
        k_ilock ip ;;
        i ← k_ip ip;
        c ← my;
        if open_denied c i omode then k_iunlockput ip ;; k_end_op ;; mret None
        else if (i_type i =? T_DIR) && negb (omode =? O_RDONLY) then k_iunlockput ip ;; k_end_op ;; mret None
        else mret (Some ip)
    end.

Definition open_fail (ip : nat) (f : option nat) : K Z :=
  (match f with Some f => fileclose mypid f | None => mret tt end) ;;
  k_iunlockput ip ;; k_end_op ;; mret (-1).

Definition sys_open (path : option (list Z)) (omode : option Z) : K Z :=
  match path, omode with
  | Some path, Some omode =>
      k_begin_op ;;
      o ← open_inode path omode;
      match o with
      | None => mret (-1)
      | Some ip =>
          f ← filealloc;
          match f with
          | None => open_fail ip None
          | Some f =>
              fd ← fdalloc f;
              if fd <? 0 then open_fail ip (Some f)
              else
                k_iunlock ip ;;
                k_end_op ;;
                f_upd f (λ x, mkFile FD_INODE (f_ref x) (open_readable omode) (open_writable omode) (f_pipe x) ip 0) ;;
                mret fd
          end
      end
  | _, _ => mret (-1)
  end.

Definition sys_mkdir (path : option (list Z)) : K Z :=
  k_begin_op ;;
  r ← (match path with Some path => create path T_DIR 0 0 | None => mret None end);
  match r with None => k_end_op ;; mret (-1) | Some ip => k_iunlockput ip ;; k_end_op ;; mret 0 end.

Definition sys_mknod (path : option (list Z)) (major minor : option Z) : K Z :=
  k_begin_op ;;
  r ← (match path, major, minor with
       | Some path, Some major, Some minor => create path T_DEV (s16 major) (s16 minor)
       | _, _, _ => mret None
       end);
  match r with None => k_end_op ;; mret (-1) | Some ip => k_iunlockput ip ;; k_end_op ;; mret 0 end.

Definition set_cwd (ip : nat) : K unit :=
  modify (λ s, set_cur (mkMe (ofile (cur s)) ip (me_id (cur s)) (me_killed (cur s))) s).

Definition sys_chdir (path : option (list Z)) : K Z :=
  k_begin_op ;;
  r ← (match path with Some path => k_namei path | None => mret None end);
  match r with
  | None => k_end_op ;; mret (-1)
  | Some ip =>
      k_ilock ip ;;
      i ← k_ip ip;
      c ← my;
      if denied c i MODE_XUSR MODE_XOTH then k_iunlockput ip ;; k_end_op ;; mret (-1)
      else if negb (i_type i =? T_DIR) then k_iunlockput ip ;; k_end_op ;; mret (-1)
      else
        k_iunlock ip ;;
        k_iput (me_cwd c) ;;
        k_end_op ;;
        set_cwd ip ;;
        mret 0
  end.

(** The two descriptors, or -1; [ok] tells whether argptr accepted the array. *)
Definition sys_pipe (ok : bool) (page : option (Z * list Z)) : K (option (Z * Z)) :=
  if negb ok then mret None
  else
    p ← pipealloc mypid page;
    match p with
    | None => mret None
    | Some (rf, wf) =>
        fd0 ← fdalloc rf;
        fd1 ← (if fd0 <? 0 then mret (-1) else fdalloc wf);
        if (fd0 <? 0) || (fd1 <? 0) then
          when (0 <=? fd0) (set_ofile (Z.to_nat fd0) None) ;;
          fileclose mypid rf ;;
          fileclose mypid wf ;;
          mret None
        else mret (Some (fd0, fd1))
    end.
End sysfile.
