(* ===== verification/ExecDefs.v ===== *)
(** * exec (exec.c, elf.h, and loaduvm of vm.c)

    exec reads a program through the file system and builds its memory with
    vm.c, so its state is the file side of the kernel, the memory, and the
    fields of struct proc it replaces.  The argument strings are passed by
    value; switchuvm only loads processor registers. *)

From S2P Require Import Prelude CString Block BlockLayer Log FsDefs FileDefs SysfileDefs Syscall.
From S2P Require Import VmDefs.

(** ** elf.h *)

Definition ELF_MAGIC : Z := 0x464C457F.
Definition ELF_PROG_LOAD : Z := 1.
Record elfhdr := mkElf { e_magic : Z; e_entry : Z; e_phoff : Z; e_phnum : Z }.
Definition sizeof_elfhdr : Z := 52.
Definition elf_load (b : list Z) : elfhdr := mkElf (u32 (get32 b 0)) (u32 (get32 b 24)) (u32 (get32 b 28)) (get16 b 44 mod 2 ^ 16).
Record proghdr := mkPh { ph_type : Z; ph_off : Z; ph_vaddr : Z; ph_filesz : Z; ph_memsz : Z }.
Definition sizeof_proghdr : Z := 32.
Definition ph_load (b : list Z) : proghdr := mkPh (u32 (get32 b 0)) (u32 (get32 b 4)) (u32 (get32 b 8)) (u32 (get32 b 16)) (u32 (get32 b 20)).

(** What exec replaces of the process. *)
Record image := mkImg { im_pgdir : Z; im_sz : Z; im_name : list Z; im_eip : Z; im_esp : Z }.

Section exec.
Context {St : Type} `{BL : BlockLayer St}.
Context (dev_read : Z -> option (nat -> Z -> M (fsst St) (Z * list Z))).
Context (mypid kend kdata word0 : Z).

Record est := mkE { e_k : kst St; e_m : pmem; e_img : image }.

Definition on_k {A} (m : M (kst St) A) : M est A := zoom e_k (λ k s, mkE k (e_m s) (e_img s)) m.
Definition on_vm {A} (m : M pmem A) : M est A := zoom e_m (λ p s, mkE (e_k s) p (e_img s)) m.
Definition set_img (i : image) : M est unit := modify (λ s, mkE (e_k s) (e_m s) i).
Definition e_readi (ip : nat) (off n : Z) : M est (Z * list Z) := on_k (on_fs (readi dev_read ip off n)).

(** vm.c: loaduvm *)
Fixpoint loaduvm_loop (fuel : nat) (pgdir addr : Z) (ip : nat) (offset sz i : Z) : M est Z :=
  match fuel with
  | O => mret 0
  | S fuel' =>
      if i <? sz then
        r ← on_vm (walkpgdir pgdir (u32 (addr + i)) false);
        match r with
        | None => panic "loaduvm: address should exist"
        | Some pte =>
            e ← on_vm (load32 pte);
            let n := if u32 (sz - i) <? PGSIZE then u32 (sz - i) else PGSIZE in
            r ← e_readi ip (u32 (offset + i)) n;
            on_vm (copy_in (P2V (PTE_ADDR e)) r.2) ;;
            if negb (u32 r.1 =? n) then mret (-1) else loaduvm_loop fuel' pgdir addr ip offset sz (u32 (i + PGSIZE))
        end
      else mret 0
  end.
Definition loaduvm (pgdir addr : Z) (ip : nat) (offset sz : Z) : M est Z :=
  if negb (addr mod PGSIZE =? 0) then panic "loaduvm: addr must be page aligned"
  else loaduvm_loop (Z.to_nat (sz / PGSIZE) + 2) pgdir addr ip offset sz 0.

(** One program header; [None] is goto bad. *)
Definition load_segment (pgdir : Z) (ip : nat) (sz off : Z) : M est (option Z) :=
  r ← e_readi ip off sizeof_proghdr;
  if negb (r.1 =? sizeof_proghdr) then mret None
  else
    let ph := ph_load r.2 in
    if negb (ph_type ph =? ELF_PROG_LOAD) then mret (Some sz)
    else if ph_memsz ph <? ph_filesz ph then mret None
    else if u32 (ph_vaddr ph + ph_memsz ph) <? ph_vaddr ph then mret None
    else
      sz' ← on_vm (allocuvm kend pgdir sz (u32 (ph_vaddr ph + ph_memsz ph)));
      if sz' =? 0 then mret None
      else if negb (ph_vaddr ph mod PGSIZE =? 0) then mret None
      else
        l ← loaduvm pgdir (ph_vaddr ph) ip (ph_off ph) (ph_filesz ph);
        mret (if l <? 0 then None else Some sz').

Fixpoint load_segments (n : nat) (pgdir : Z) (ip : nat) (sz off : Z) : M est (option Z) :=
  match n with
  | O => mret (Some sz)
  | S n' =>
      r ← load_segment pgdir ip sz off;
      match r with None => mret None | Some sz' => load_segments n' pgdir ip sz' (u32 (off + sizeof_proghdr)) end
  end.

(** The argument strings; the result is sp and the pointers. *)
Fixpoint push_args (pgdir sp : Z) (argv : list (list Z)) (argc : Z) (ptrs : list Z) : M est (option (Z * list Z)) :=
  match argv with
  | [] => mret (Some (sp, ptrs))
  | s :: argv' =>
      if MAXARG <=? argc then mret None
      else
        let len := Z.of_nat (length s) + 1 in
        let sp := Z.land (u32 (sp - len)) 0xFFFFFFFC in
        r ← on_vm (copyout word0 pgdir sp (s ++ [0]) len);
        if r <? 0 then mret None else push_args pgdir sp argv' (argc + 1) (ptrs ++ [sp])
  end.

(** The words of ustack: fake return PC, argc, argv, the pointers and a null. *)
Definition ustack (sp : Z) (ptrs : list Z) : list Z :=
  let argc := Z.of_nat (length ptrs) in
  le_bytes 4 0xffffffff ++ le_bytes 4 argc ++ le_bytes 4 (u32 (sp - (argc + 1) * 4)) ++ concat (le_bytes 4 <$> ptrs) ++ le_bytes 4 0.

(** The part of the path after the last slash. *)
Fixpoint last_elem (last s : list Z) : list Z :=
  match s with [] => last | c :: s' => last_elem (if c =? 47 then s' else last) s' end.

(** goto bad: with the inode locked inside the transaction, and after it. *)
Definition bad_ip (pgdir : option Z) (ip : nat) : M est Z :=
  (match pgdir with Some d => on_vm (freevm kend d) | None => mret tt end) ;;
  on_k (k_iunlockput mypid ip) ;; on_k k_end_op ;; mret (-1).
Definition bad_mem (pgdir : Z) : M est Z := on_vm (freevm kend pgdir) ;; mret (-1).

(** The words of the stack and the commit to the new image. *)
Definition exec_commit (path : list Z) (entry pgdir sz sp : Z) (ptrs : list Z) : M est Z :=
  let n := (3 + Z.of_nat (length ptrs) + 1) * 4 in
  let sp' := u32 (sp - n) in
  c ← on_vm (copyout word0 pgdir sp' (ustack sp ptrs) n);
  if c <? 0 then bad_mem pgdir
  else
    old ← gets e_img;
    set_img (mkImg pgdir sz (safestrcpy (im_name old) (last_elem path path) 16) entry sp') ;;
    on_vm (freevm kend (im_pgdir old)) ;;
    mret 0.

(** From the user stack on, with the program in memory. *)
Definition exec_stack (path : list Z) (argv : list (list Z)) (entry pgdir sz : Z) : M est Z :=
  let sz0 := PGROUNDUP sz in
  sz ← on_vm (allocuvm kend pgdir sz0 (u32 (sz0 + 2 * PGSIZE)));
  if sz =? 0 then bad_mem pgdir
  else
    on_vm (clearpteu pgdir (u32 (sz - 2 * PGSIZE))) ;;
    r ← push_args pgdir sz argv 0 [];
    match r with
    | None => bad_mem pgdir
    | Some (sp, ptrs) => exec_commit path entry pgdir sz sp ptrs
    end.

Definition exec (path : list Z) (argv : list (list Z)) : M est Z :=
  on_k k_begin_op ;;
  o ← on_k (k_namei dev_read mypid path);
  match o with
  | None => on_k k_end_op ;; mret (-1)
  | Some ip =>
      on_k (k_ilock mypid ip) ;;
      i ← on_k (k_ip ip);
      c ← on_k my;
      if lacks c i MODE_XUSR MODE_XOTH then bad_ip None ip
      else
        r ← e_readi ip 0 sizeof_elfhdr;
        let elf := elf_load r.2 in
        if negb (r.1 =? sizeof_elfhdr) then bad_ip None ip
        else if negb (e_magic elf =? ELF_MAGIC) then bad_ip None ip
        else
          d ← on_vm (setupkvm kend kdata);
          match d with
          | None => bad_ip None ip
          | Some pgdir =>
              z ← load_segments (Z.to_nat (e_phnum elf)) pgdir ip 0 (e_phoff elf);
              match z with
              | None => bad_ip (Some pgdir) ip
              | Some sz =>
                  on_k (k_iunlockput mypid ip) ;; on_k k_end_op ;;
                  exec_stack path argv (e_entry elf) pgdir sz
              end
          end
  end.

(** sysfile.c: sys_exec, on the arguments of the current process. *)
Definition sys_exec (umem : Z -> Z) (psz uesp : Z) : M est Z :=
  match sys_exec_args umem psz uesp with
  | None => mret (-1)
  | Some (path, argv) => exec (str_at umem path) (str_at umem <$> argv)
  end.
End exec.
