(* ===== verification/SysfileProps.v ===== *)
(** * Descriptors, permissions and accounts

    What sys_open grants, how the reference counts of open files follow the
    descriptors, and when accountcheck lets a user in. *)

From S2P Require Import Prelude CString Sleeplock Block BlockLayer Bio Log LogProps FsDefs InodeProps FsRules Pipe FileDefs SysfileDefs.

Section props.
Context {St : Type}.
#[local] Abbreviation K := (M (kst St)).

(** ** Frames *)

(** Everything but the file system. *)
Definition outside (s s' : kst St) : Prop :=
  ftab s' = ftab s /\ ftlk s' = ftlk s /\ pipes s' = pipes s /\ ut s' = ut s /\ utlk s' = utlk s /\ cur s' = cur s.

Lemma on_fs_outside {A} (m : M (fsst St) A) s a s' : on_fs m s = Ret a s' -> outside s s' /\ m (kfs s) = Ret a (kfs s').
Proof. unfold on_fs, zoom. destruct (m (kfs s)); intros [= <- <-]; done. Qed.

Lemma outside_trans s1 s2 s3 : outside s1 s2 -> outside s2 s3 -> outside s1 s3.
Proof. unfold outside. intuition congruence. Qed.

(** A computation that only touches the file system. *)
Definition fs_only {A} (m : K A) : Prop := forall s a s', m s = Ret a s' -> outside s s'.

Lemma fs_only_on_fs {A} (m : M (fsst St) A) : fs_only (on_fs m).
Proof. intros s a s' H. by apply on_fs_outside in H as [? _]. Qed.

Lemma fs_only_bind {A B} (m : K A) (k : A -> K B) : fs_only m -> (forall a, fs_only (k a)) -> fs_only (m ≫= k).
Proof.
  intros Hm Hk s b s' (a & s1 & H1 & H2)%bind_Ret_inv. eapply outside_trans; [by eapply Hm|by eapply Hk].
Qed.

Lemma fs_only_ret {A} (a : A) : fs_only (mret a).
Proof. by intros s b s' [= <- <-]. Qed.

Lemma fs_only_gets {A} (f : kst St -> A) : fs_only (gets f).
Proof. by intros s b s' [= <- <-]. Qed.

Lemma fs_only_panic {A} msg : fs_only (panic msg : K A).
Proof. by intros s b s' [=]. Qed.

Lemma fs_only_when b (m : K unit) : fs_only m -> fs_only (when b m).
Proof. intros Hm. destruct b; [done|apply fs_only_ret]. Qed.
End props.

Create HintDb fsonly.
#[export] Hint Resolve fs_only_on_fs fs_only_ret fs_only_gets fs_only_panic fs_only_when : fsonly.

(** Prove that a call touches only the file system, following its structure. *)
Ltac fs_only :=
  repeat first
    [ progress auto with fsonly
    | apply fs_only_bind; [|intros ?]
    | match goal with |- fs_only (match ?x with _ => _ end) => destruct x end
    | match goal with |- fs_only (if ?x then _ else _) => destruct x end
    | apply fs_only_when ].

Section opens.
Context {St : Type} `{BLi : BlockLayer St}.
Context (dev_read : Z -> option (nat -> Z -> M (fsst St) (Z * list Z))) (dev_write : Z -> option (nat -> list Z -> Z -> M (fsst St) Z)).
Context (mypid : Z).
#[local] Abbreviation K := (M (kst St)).

Lemma k_fs_only :
  fs_only (k_begin_op (St := St)) /\ fs_only (k_end_op (St := St)) /\
  (forall p, fs_only (k_namei dev_read mypid p)) /\ (forall p, fs_only (k_nameiparent dev_read mypid p)).
Proof. split_and!; intros; unfold k_begin_op, k_end_op, k_namei, k_nameiparent, my; fs_only. Qed.

Lemma create_fs_only path type major minor : fs_only (create dev_read dev_write mypid path type major minor).
Proof.
  unfold create, create_found, create_new, k_nameiparent, k_ilock, k_dirlookup, k_iunlockput, k_ip, my, k_ialloc, k_ip_upd, k_iupdate, k_dirlink.
  fs_only.
Qed.

Lemma open_inode_fs_only path omode : fs_only (open_inode dev_read dev_write mypid path omode).
Proof.
  unfold open_inode, k_end_op, k_namei, k_ilock, k_ip, my, k_iunlockput. pose proof (create_fs_only path T_FILE 0 0). fs_only.
Qed.

(** ** What sys_open grants *)

Definition the_inode (s : kst St) (ip : nat) : inode := default inode0 (ic (kfs s) !! ip).
(** What the permission tests look at. *)
Definition perm (i : inode) : Z * Z * list Z := (i_type i, i_mode i, i_user i).

Lemma lacks_perm c c' i i' um om : me_id c = me_id c' -> perm i = perm i' -> lacks c i um om = lacks c' i' um om.
Proof. unfold perm, lacks, owner_or_root. intros -> [= _ -> ->]. done. Qed.

Lemma on_lock_perm {A} ip (m : M sleeplock A) (s : fsst St) a s' : ip_on_lock ip m s = Ret a s' ->
  forall j, perm (default inode0 (ic s' !! j)) = perm (default inode0 (ic s !! j)).
Proof.
  unfold ip_on_lock, zoom. destruct (m _) as [b l|msg|ch l]; intros [= <- <-]. intros j. cbn [ic].
  destruct (decide (ip = j)) as [<-|Hne]; [|by rewrite list_lookup_alter_ne].
  rewrite list_lookup_alter_eq. by destruct (ic s !! ip).
Qed.

Lemma iunlock_perm ip (s : fsst St) a s' : iunlock mypid ip s = Ret a s' ->
  forall j, perm (default inode0 (ic s' !! j)) = perm (default inode0 (ic s !! j)).
Proof.
  intros H j. unfold iunlock in H. apply bind_Ret_inv in H as (h & s1 & H1 & H). apply bind_Ret_inv in H as (i & s2 & H2 & H).
  injection H2 as <- <-. destruct (_ || _); [done|].
  rewrite (on_lock_perm _ _ _ _ _ H), (on_lock_perm _ _ _ _ _ H1). done.
Qed.

Lemma open_inode_allowed path omode s ip s' : Z.land omode O_CREATE = 0 ->
  open_inode dev_read dev_write mypid path omode s = Ret (Some ip) s' -> open_denied (cur s') (the_inode s' ip) omode = false.
Proof.
  intros Hc. unfold open_inode. rewrite Hc. cbn [negb Z.eqb]. intros (r & s1 & _ & H)%bind_Ret_inv.
  destruct r as [ip'|]; [|by apply bind_Ret_inv in H as (? & ? & _ & [=])].
  apply bind_Ret_inv in H as ([] & s2 & _ & H). apply bind_Ret_inv in H as (i & s3 & Hi & H).
  apply bind_Ret_inv in H as (c & s4 & [= <- <-] & H). destruct (open_denied (cur s3) i omode) eqn:Ed.
  { apply bind_Ret_inv in H as ([] & s5 & _ & H). by apply bind_Ret_inv in H as ([] & s6 & _ & [=]). }
  destruct (_ && _).
  { apply bind_Ret_inv in H as ([] & s5 & _ & H). by apply bind_Ret_inv in H as ([] & s6 & _ & [=]). }
  injection H as <- <-. unfold k_ip in Hi. apply on_fs_outside in Hi as [_ Hi]. unfold ip_get, gets in Hi. injection Hi as <- E.
  unfold the_inode. by rewrite <-E.
Qed.

Lemma filealloc_found (s : kst St) f s' : filealloc s = Ret (Some f) s' ->
  kfs s' = kfs s /\ cur s' = cur s /\ pipes s' = pipes s /\ ftlk s' = false /\ ftlk s = false /\
  exists x, ftab s !! f = Some x /\ f_ref x = 0 /\ ftab s' = <[f := set_f_ref 1 x]> (ftab s).
Proof.
  unfold filealloc, acquire_ft, release_ft, f_upd, mbind, M_bind, get, put, modify, mret, M_ret.
  destruct (ftlk s) eqn:El; [done|]. cbn [ftab set_ftab]. destruct (find_file (ftab s)) as [g|] eqn:Ef; cbn; intros H; [|discriminate H]. injection H as <- <-. cbn.
  unfold find_file in Ef. apply fmap_Some in Ef as ([g' x] & Hf & ->). apply list_find_Some in Hf as (Hx & Hr & _).
  split_and!; try done. exists x. split_and!; try done. by apply alter_lookup.
Qed.

Lemma fdalloc_found f (s : kst St) fd s' : fdalloc f s = Ret fd s' -> 0 <= fd ->
  kfs s' = kfs s /\ ftab s' = ftab s /\ ftlk s' = ftlk s /\ pipes s' = pipes s /\ me_id (cur s') = me_id (cur s) /\
  ofile (cur s) !! Z.to_nat fd = Some None /\ (Z.to_nat fd < NOFILE)%nat /\ ofile (cur s') = <[Z.to_nat fd := Some f]> (ofile (cur s)).
Proof.
  unfold fdalloc, my, gets, mbind, M_bind. destruct (free_fd _) as [n|] eqn:E; cbn; intros H Hfd; injection H as <- <-; [|lia]. cbn.
  rewrite Nat2Z.id. unfold free_fd in E. apply fmap_Some in E as ([n' x] & Hf & ->). apply list_find_Some in Hf as (Hx & -> & _).
  apply lookup_take_Some in Hx as [Hx Hlt]. by split_and!.
Qed.

(** The caller is root or the owner of the file. *)
Definition owner (c : me) (i : inode) : Prop := strncmp (me_id c) root_name 16 = 0 \/ strncmp (me_id c) (i_user i) 16 = 0.
(** The mode r w x r w x, from bit 5 down, first for the owner: what it grants. *)
Definition may_read (c : me) (i : inode) : Prop :=
  (owner c i -> Z.testbit (i_mode i) 5 = true) /\ (~ owner c i -> Z.testbit (i_mode i) 2 = true).
Definition may_write (c : me) (i : inode) : Prop :=
  (owner c i -> Z.testbit (i_mode i) 4 = true) /\ (~ owner c i -> Z.testbit (i_mode i) 1 = true).

Lemma mode_bit m b : 0 <= b -> Z.land m (2 ^ b) <> 0 -> Z.testbit m b = true.
Proof.
  intros Hb Hn. apply not_false_iff_true. intros E. apply Hn. apply Z.bits_inj'. intros k Hk. rewrite Z.land_spec, Z.bits_0.
  destruct (decide (k = b)) as [->|]; [by rewrite E|]. by rewrite Z.pow2_bits_false, andb_false_r by lia.
Qed.

Lemma lacks_bit c i ub ob : 0 <= ub -> 0 <= ob -> lacks c i (2 ^ ub) (2 ^ ob) = false ->
  (owner c i -> Z.testbit (i_mode i) ub = true) /\ (~ owner c i -> Z.testbit (i_mode i) ob = true).
Proof.
  intros Hu Ho. unfold lacks, owner_or_root, owner. destruct (Z.eqb_spec (strncmp (me_id c) root_name 16) 0) as [E1|E1],
    (Z.eqb_spec (strncmp (me_id c) (i_user i) 16) 0) as [E2|E2]; cbn [orb]; intros E%Z.eqb_neq; (split; intros Hn); try tauto; by apply mode_bit.
Qed.

(** C18: When sys_open, with one of the modes O_RDONLY, O_WRONLY and O_RDWR alone and
    so without O_CREATE, returns a descriptor, that descriptor is readable or
    writable only if the bits of the file's mode let the caller read or write: the
    owner's bits for root and the owner, the others' bits otherwise.  Devices are
    open to all.  (For other modes it is false: see the examples below.) *)
Theorem open_grants_permitted path omode s fd s'
  (Hrun : sys_open dev_read dev_write mypid (Some path) (Some omode) s = Ret fd s') (Hfd : 0 <= fd)
  (Hm : omode = O_RDONLY \/ omode = O_WRONLY \/ omode = O_RDWR) :
  exists f x, ofile (cur s') !! Z.to_nat fd = Some (Some f) /\ ftab s' !! f = Some x /\ f_type x = FD_INODE /\ f_off x = 0 /\
    (i_type (the_inode s' (f_ip x)) <> T_DEV ->
     (f_readable x = true -> may_read (cur s') (the_inode s' (f_ip x))) /\
     (f_writable x = true -> may_write (cur s') (the_inode s' (f_ip x)))).
Proof.
  unfold sys_open in Hrun. apply bind_Ret_inv in Hrun as ([] & s1 & _ & H). apply bind_Ret_inv in H as (o & s2 & Ho & H).
  destruct o as [ip|]; [|injection H as <- _; lia].
  assert (Z.land omode O_CREATE = 0) as Hc by (by destruct Hm as [->|[->| ->]]).
  pose proof (open_inode_allowed _ _ _ _ _ Hc Ho) as Hok. apply bind_Ret_inv in H as (f & s3 & Hf & H).
  destruct f as [f|]; [|unfold open_fail in H; repeat (apply bind_Ret_inv in H as (? & ? & _ & H)); injection H as <- _; lia].
  apply filealloc_found in Hf as (E1 & E2 & _ & _ & _ & x & Hx & _ & Et).
  apply bind_Ret_inv in H as (fd' & s4 & Hfd' & H). destruct (Z.ltb_spec fd' 0) as [|Hpos].
  { unfold open_fail in H. repeat (apply bind_Ret_inv in H as (? & ? & _ & H)). injection H as <- _. lia. }
  apply bind_Ret_inv in H as ([] & s5 & H5 & H). apply bind_Ret_inv in H as ([] & s6 & H6 & H).
  apply bind_Ret_inv in H as ([] & s7 & [= <-] & [= <- <-]).
  apply fdalloc_found in Hfd' as (F1 & F2 & _ & _ & F3 & F4 & _ & F5); [|done].
  apply on_fs_outside in H5 as [(G1 & _ & _ & _ & _ & G2) H5], H6 as [(G3 & _ & _ & _ & _ & G4) H6].
  assert (ic (kfs s6) = ic (kfs s5)) as Ei.
  { unfold on_log, zoom in H6. destruct (end_op _); [|done..]. injection H6 as _ E. by rewrite <-E. }
  set (g := λ x : file, mkFile FD_INODE (f_ref x) (open_readable omode) (open_writable omode) (f_pipe x) ip 0).
  exists f, (g (set_f_ref 1 x)). cbn [cur ftab set_ftab f_type f_off f_ip f_readable f_writable g].
  assert (perm (the_inode (set_ftab (alter g f (ftab s6)) (ftlk s6) s6) ip) = perm (the_inode s2 ip)) as Ep.
  { unfold the_inode. cbn [kfs set_ftab]. rewrite Ei, (iunlock_perm _ _ _ _ H5), F1, E1. done. }
  assert (me_id (cur s6) = me_id (cur s2)) as Em by congruence.
  split_and!; try done.
  - rewrite G4, G2, F5. apply list_lookup_insert_eq. by eapply lookup_lt_Some.
  - rewrite G3, G1, F2, Et, list_lookup_alter_eq, list_lookup_insert_eq by (by eapply lookup_lt_Some). done.
  - intros Hty. unfold open_denied in Hok.
    assert (forall u o, lacks (cur s2) (the_inode s2 ip) u o = false -> lacks (cur s6) (the_inode (set_ftab (alter g f (ftab s6)) (ftlk s6) s6) ip) u o = false) as Hl
      by (intros u o; by rewrite (lacks_perm (cur s6) (cur s2) _ _ _ _ Em Ep)).
    cut ((open_readable omode = true -> lacks (cur s2) (the_inode s2 ip) MODE_RUSR MODE_ROTH = false) /\
         (open_writable omode = true -> lacks (cur s2) (the_inode s2 ip) MODE_WUSR MODE_WOTH = false)).
    { intros [H1 H2]. split; intros E; [apply (lacks_bit _ _ 5 2)|apply (lacks_bit _ _ 4 1)]; [done|done|by apply Hl, H1|done|done|by apply Hl, H2]. }
    assert (i_type (the_inode s2 ip) <> T_DEV) as Hty2 by (injection Ep as E _ _; by rewrite <-E).
    rewrite (proj2 (Z.eqb_neq _ _) Hty2) in Hok.
    destruct Hm as [->|[->| ->]]; cbn in Hok; [done|done|]. apply orb_false_iff in Hok. split; intros _; apply Hok.
Qed.
End opens.

(** ** A small disk: "/f" belongs to root and is closed to everybody *)
Definition perm_sb : superblock := mkSb 1000 941 200 30 2 32 58.
Definition root_dir : inode :=
  mkInode 1 1 0 initsleeplock false T_DIR 0 0 1 16 (59 :: replicate 7 0) (root_name ++ replicate 12 0) 61.
Definition secret (mode : Z) : inode :=
  mkInode 1 2 0 initsleeplock false T_FILE 0 0 1 0 (replicate 8 0) (root_name ++ replicate 12 0) mode.
Definition perm_disk (mode : Z) : Z -> block :=
  upd (upd (λ _, zero_block) 32 (dip_store (dip_off 2) (secret mode) (dip_store (dip_off 1) root_dir zero_block)))
    59 (mk_dirent 2 (bytes_of "f") ++ replicate 496 0).
Definition perm_state (mode : Z) (id : list Z) : kst bcache :=
  mkK (mkFs (mkLst (mkLog 2 30 0 false []) false (binit (perm_disk mode))) perm_sb (replicate NINODE inode0) false)
    (replicate NFILE file0) false ∅ (mkUt None (replicate 320 0) (replicate NUM_USER 0)) false
    (mkMe (replicate NOFILE None) 0 id false).
Definition guest : list Z := bytes_of "guest" ++ replicate 11 0.

#[local] Abbreviation open_f mode id omode :=
  (sys_open (BL := bio_layer 1000 1) (λ _, None) (λ _, None) 1 (Some (bytes_of "/f")) (Some omode) (perm_state mode id)).

(** The descriptor returned and what it allows: readable, writable, and whether the
    caller lacks the right to read and to write. *)
Definition opened (r : outcome (kst bcache) Z) : option (Z * (bool * bool) * (bool * bool)) :=
  match r with
  | Ret fd s =>
      match ofile (cur s) !! Z.to_nat fd with
      | Some (Some f) =>
          let x := default file0 (ftab s !! f) in
          let i := the_inode s (f_ip x) in
          Some (fd, (f_readable x, f_writable x), (lacks (cur s) i MODE_RUSR MODE_ROTH, lacks (cur s) i MODE_WUSR MODE_WOTH))
      | _ => None
      end
  | _ => None
  end.

Lemma open_grants_permitted_witness :
  exists s', open_f 4 guest O_RDONLY = Ret 0 s' /\ exists f x, ofile (cur s') !! 0%nat = Some (Some f) /\ ftab s' !! f = Some x /\
    (f_readable x = true -> i_type (the_inode s' (f_ip x)) <> T_DEV -> may_read (cur s') (the_inode s' (f_ip x))).
Proof.
  assert (match open_f 4 guest O_RDONLY with Ret fd _ => fd =? 0 | _ => false end = true) as H by (vm_compute; reflexivity).
  destruct (open_f 4 guest O_RDONLY) as [fd s'|m|c s'] eqn:E; [|discriminate H|discriminate H].
  apply Z.eqb_eq in H. subst fd. exists s'. split; [done|].
  destruct (open_grants_permitted (BLi := bio_layer 1000 1) (λ _, None) (λ _, None) 1 (bytes_of "/f") O_RDONLY (perm_state 4 guest) 0 s' E
    ltac:(lia) (or_introl eq_refl)) as (f & x & H1 & H2 & _ & _ & H3).
  exists f, x. split; [done|]. split; [done|]. intros Hr Hty. by apply H3.
Defined.

(** The open mode 3 is tested by none of the branches of sys_open: a file of
    root with mode 0 is refused to another user in each of the modes 0, 1 and 2,
    and opened for writing in mode 3. *)
Theorem open_mode_3_unchecked :
  (forall omode, omode = O_RDONLY \/ omode = O_WRONLY \/ omode = O_RDWR ->
     match open_f 0 guest omode with Ret fd _ => fd = -1 | _ => False end) /\
  opened (open_f 0 guest 3) = Some (0, (false, true), (true, true)).
Proof. split; [intros omode [->|[->| ->]]|]; vm_compute; reflexivity. Qed.

(** With O_CREATE only the right to write is tested: a file of root that others may
    write but not read is refused to another user with O_RDWR, and opened for
    reading with O_CREATE and O_RDWR. *)
Theorem open_create_reads :
  match open_f 2 guest O_RDWR with Ret fd _ => fd = -1 | _ => False end /\
  opened (open_f 2 guest (Z.lor O_CREATE O_RDWR)) = Some (0, (true, true), (true, false)).
Proof. split; vm_compute; reflexivity. Qed.
