(* ===== verification/ExecProps.v ===== *)
(** * The image exec builds (exec.c)

    exec either fails and leaves the process and every page as they were, or
    replaces the address space: the old one goes back to the free list, the
    new one has a guard page below its stack page, and the stack holds the
    arguments as main expects them. *)

From S2P Require Import Prelude CString Block BlockLayer Log FsDefs FileDefs SysfileDefs Syscall ExecDefs.
From S2P Require Import VmDefs Kalloc Vm AddrSpace CopyVm UserMem.

Section exec_props.
Context {St : Type} `{BL : BlockLayer St}.
Context (dev_read : Z -> option (nat -> Z -> M (fsst St) (Z * list Z))).
Context (mypid kend kdata word0 kd : Z).
Hypothesis Hkend : KERNBASE < kend.
Hypothesis Hkdata : kdata = PGSIZE * kd.
Hypothesis Hkd : 0x80100 < kd < 0x8E000.
(** What the process has at address 0 does not look like an entry the user may access. *)
Hypothesis Hword0 : present word0 = false \/ Z.land word0 PTE_U = 0.
#[local] Abbreviation as_ok := (as_ok kend).
#[local] Abbreviation astep := (astep kend).
#[local] Abbreviation building := (building kend).
#[local] Abbreviation est := (est (St := St)).

Lemma on_k_run {A} (m : M (kst St) A) (s : est) a s' : on_k m s = Ret a s' -> e_m s' = e_m s /\ e_img s' = e_img s.
Proof. unfold on_k, zoom. destruct (m (e_k s)); [|done..]. by intros [= _ <-]. Qed.

Lemma on_vm_run {A} (m : M pmem A) (s : est) a s' : on_vm m s = Ret a s' -> m (e_m s) = Ret a (e_m s') /\ e_img s' = e_img s.
Proof. unfold on_vm, zoom. destruct (m (e_m s)) as [x p| |]; [|done..]. by intros [= <- <-]. Qed.

(** ** The program *)

(** The directory [d] built from the free list [l0] of [s0], with the user pages
    below [sz] mapped, and nothing above. *)
Record loaded (s0 : pmem) (l0 : list Z) (d : Z) (s : pmem) (l : list Z) (sz : Z) : Prop := {
  ld_b : building s0 l0 d s [] l;
  ld_k : kernel_only (pg s) d;
  ld_sz : 0 <= sz <= KERNBASE;
  ld_in w : 0 <= w < page_up sz -> user (pg s) d w /\ leaf (pg s) d w = PGSIZE * frame (pg s) d w + 7;
  ld_out w : page_up sz <= w < USERTOP -> present (leaf (pg s) d w) = false
}.

Lemma kernel_keep P d s h l s' h' l' : astep P d s h l s' h' l' -> (forall w, P w -> w < USERTOP) -> kernel_only (pg s) d -> kernel_only (pg s') d.
Proof.
  intros St' HP Hk w Hw. rewrite (at_keep _ _ _ _ _ _ _ _ _ St'); [by apply Hk|unfold USERTOP in Hw; lia|]. intros ?%HP. lia.
Qed.

Lemma loaded_alloc s0 l0 d s l sz newsz r s' : loaded s0 l0 d s l sz -> 0 <= newsz -> allocuvm kend (va_of d) sz newsz s = Ret r s' ->
  exists l', building s0 l0 d s' [] l' /\ (r <> 0 -> r = Z.max sz newsz /\ loaded s0 l0 d s' l' r).
Proof.
  intros [Hb Hk Hsz Hin Hout] Hnew E. pattern r, s'. eapply wp_value; [|exact E]. pose proof (page_up_top sz ltac:(lia)) as Ht.
  assert (newsz < KERNBASE -> page_up newsz <= USERTOP) as Ht' by (intros; apply page_up_top; lia).
  eapply (R_allocuvm kend Hkend); [apply Hb|lia|..].
  - intros Hkb w Hw. specialize (Ht' Hkb). apply Hout. lia.
  - intros _. by exists l.
  - intros _ Hlt. exists l. split; [done|]. intros _. split; [lia|]. by constructor.
  - intros Hkb Hge s1 l1 St1 Hz. exists l1. assert (building s0 l0 d s1 [] l1) as Hb1 by (eapply building_step; [exact Hb|exact St1]). split; [done|]. intros _. split; [lia|].
    specialize (Ht' Hkb). pose proof (page_up_pos sz ltac:(lia)) as Hp0. constructor; [done|eapply kernel_keep; [exact St1|cbv beta; lia|done]|lia|..].
    + intros w Hw. destruct (decide (w < page_up sz)) as [Hlt|Hge'].
      * destruct (Hin w ltac:(lia)) as [Hu Hl]. pose proof (user_range _ _ _ Hu) as Hr. destruct (at_user _ _ _ _ _ _ _ _ _ w St1 Hr ltac:(cbv beta; lia)) as [Hu' Ef].
        split; [by apply Hu'|]. rewrite Ef, (at_keep _ _ _ _ _ _ _ _ _ St1) by lia. done.
      * destruct (Hz w ltac:(lia)) as (Hu & Hl & _). done.
    + intros w Hw. pose proof (page_up_mono sz newsz ltac:(lia)). rewrite (at_keep _ _ _ _ _ _ _ _ _ St1) by (unfold USERTOP in *; lia). apply Hout. lia.
  - intros Hkb Hge s1 l1 St1 Hz. exists l1. split; [by eapply building_step|]. done.
Qed.

(** Writing a mapped page keeps the image. *)
Lemma loaded_leaf s0 l0 d s l sz s' P : loaded s0 l0 d s l sz -> astep P d s [] l s' [] l -> same_leaf (pg s) (pg s') d -> loaded s0 l0 d s' l sz.
Proof.
  intros [Hb Hk Hsz Hin Hout] St1 Hl. pose proof (page_up_top sz ltac:(lia)). constructor; [eapply building_step; [exact Hb|exact St1]|by eapply same_leaf_kernel|done|..].
  - intros w Hw. destruct (Hin w Hw) as [Hu El]. pose proof (user_range _ _ _ Hu) as Hr. destruct (user_leaf _ _ _ _ (Hl w Hr)) as [Hu' Ef].
    split; [by apply Hu'|]. by rewrite Ef, Hl.
  - intros w Hw. pose proof (page_up_pos sz ltac:(lia)). rewrite Hl by (unfold USERTOP in *; lia). by apply Hout.
Qed.

Lemma loaded_copy s0 l0 d s l sz w bs s' u : loaded s0 l0 d s l sz -> 0 <= w < page_up sz ->
  copy_in (P2V (PTE_ADDR (leaf (pg s) d w))) bs s = Ret u s' -> loaded s0 l0 d s' l sz.
Proof.
  intros Hld Hw E. pose proof (bd_ok _ _ _ _ _ _ _ (ld_b _ _ _ _ _ _ Hld)) as Ha. destruct (ld_in _ _ _ _ _ _ Hld w Hw) as [Hu _].
  destruct (ao_frame _ _ _ _ _ Ha w Hu) as (Hv & _ & _ & Ep). apply (valid_range _ Hkend) in Hv. rewrite Ep in E.
  unfold copy_in, set_page in E. apply bind_Ret_inv in E as (? & ? & E1 & E). injection E1 as <- <-. destruct (pn_page (frame (pg s) d w) ltac:(lia)) as [E1 E2].
  rewrite E1, E2 in E. injection E as _ <-.
  destruct (astep_user_write kend d s [] l w (splice 0 bs (pg s (frame (pg s) d w))) (use_lock s) Ha Hu) as [St1 Hl].
  { rewrite length_splice. apply (pk_len _ _ _ (ao_pm _ _ _ _ _ Ha)). }
  eapply loaded_leaf; [exact Hld|exact St1|exact Hl].
Qed.

(** Looking up a mapped page changes nothing. *)
Lemma loaded_walk s0 l0 d s l sz w o s' : loaded s0 l0 d s l sz -> 0 <= w < page_up sz -> walkpgdir (va_of d) (PGSIZE * w) false s = Ret o s' ->
  s' = s /\ exists pte, o = Some pte /\ load32 pte s = Ret (leaf (pg s) d w) s.
Proof.
  intros Hld Hw E. destruct (ld_in _ _ _ _ _ _ Hld w Hw) as [Hu _]. pose proof (user_range _ _ _ Hu) as Hr.
  pose proof (bd_ok _ _ _ _ _ _ _ (ld_b _ _ _ _ _ _ Hld)) as Ha.
  assert (present (pde (pg s) d (w / 1024)) = true) as Epd by (destruct Hu as [_ Hu]; unfold leaf in Hu; by destruct (present (pde _ _ _))).
  pattern o, s'. eapply wp_value; [|exact E]. eapply (R_walk kend Hkend); [apply Ha|apply Ha|done|]. rewrite Epd. split; [done|]. eexists. split; [done|].
  assert (wp (load32 (va_of (tbl (pg s) d (w / 1024)) + 4 * (w mod 1024))) (λ e s', e = leaf (pg s) d w /\ s' = s) s) as Hwp by (eapply (R_leaf kend Hkend); [apply Ha|done|done|done]).
  unfold wp in Hwp. destruct (load32 _ s); [|done..]. by destruct Hwp as [-> ->].
Qed.

Lemma loaded_loaduvm s0 l0 d l sz fuel : forall addr ip off fsz i (s s' : est) r, loaded s0 l0 d (e_m s) l sz -> 0 <= addr -> addr mod PGSIZE = 0 -> 0 <= i -> i mod PGSIZE = 0 ->
  addr + fsz <= sz -> loaduvm_loop dev_read fuel (va_of d) addr ip off fsz i s = Ret r s' -> loaded s0 l0 d (e_m s') l sz /\ e_img s' = e_img s.
Proof.
  induction fuel as [|fuel IH]; intros addr ip off fsz i s s' r Hld Ha0 Ham Hi0 Him Hsz; cbn [loaduvm_loop]; [by intros [= _ <-]|].
  destruct (Z.ltb_spec i fsz) as [Hlt|Hge]; [|by intros [= _ <-]]. pose proof (ld_sz _ _ _ _ _ _ Hld) as Hszr. unfold KERNBASE in Hszr.
  rewrite (u32_id (addr + i)), (u32_id (i + PGSIZE)) by (unfold is_u32, PGSIZE; lia). set (w := (addr + i) / PGSIZE).
  assert (addr + i = PGSIZE * w) as Ew.
  { destruct (page_split (addr + i)) as [E _]. rewrite Z.add_mod, Ham, Him in E by (unfold PGSIZE; lia). change ((0 + 0) mod PGSIZE) with 0 in E. lia. }
  assert (0 <= w < page_up sz) as Hw by (split; [apply Z.div_pos; unfold PGSIZE; lia|apply page_up_lt; lia]). rewrite Ew.
  intros H. apply bind_Ret_inv in H as (o & s1 & [E1 I1]%on_vm_run & H). destruct (loaded_walk _ _ _ _ _ _ _ _ _ Hld Hw E1) as (Em1 & pte & -> & El).
  apply bind_Ret_inv in H as (e & s2 & [E2 I2]%on_vm_run & H). rewrite Em1, El in E2. injection E2 as <- Em2.
  apply bind_Ret_inv in H as (x & s3 & [Em3 I3]%on_k_run & H). apply bind_Ret_inv in H as (? & s4 & [E4 I4]%on_vm_run & H). rewrite Em3, <-Em2 in E4.
  eapply loaded_copy in E4; [|exact Hld|exact Hw]. destruct (negb _).
  - injection H as _ <-. split; [done|congruence].
  - apply IH in H as [Hld5 I5]; [split; [done|congruence]|done|done|done|unfold PGSIZE; lia| |done].
    rewrite Z.add_mod, Him by (unfold PGSIZE; lia). done.
Qed.

Lemma loaded_segment s0 l0 d l sz ip off (s s' : est) z : loaded s0 l0 d (e_m s) l sz -> load_segment dev_read kend (va_of d) ip sz off s = Ret z s' ->
  e_img s' = e_img s /\ exists l', building s0 l0 d (e_m s') [] l' /\ forall sz', z = Some sz' -> loaded s0 l0 d (e_m s') l' sz'.
Proof.
  unfold load_segment. intros Hld H. pose proof (ld_b _ _ _ _ _ _ Hld) as Hb. apply bind_Ret_inv in H as (x & s1 & [Em1 I1]%on_k_run & H).
  rewrite <-Em1 in Hld, Hb. rewrite <-I1. clear Em1 I1. set (ph := ph_load x.2) in H.
  assert (is_u32 (ph_vaddr ph) /\ is_u32 (ph_memsz ph)) as [Hv Hm] by (split; apply u32_range). unfold is_u32 in Hv, Hm.
  destruct (negb _); [injection H as <- <-; split; [done|]; by exists l|].
  destruct (negb _); [injection H as <- <-; split; [done|]; exists l; split; [done|]; by intros sz' [= <-]|].
  destruct (Z.ltb_spec (ph_memsz ph) (ph_filesz ph)) as [|Hfm]; [injection H as <- <-; split; [done|]; by exists l|].
  destruct (Z.ltb_spec (u32 (ph_vaddr ph + ph_memsz ph)) (ph_vaddr ph)) as [|Hov]; [injection H as <- <-; split; [done|]; by exists l|].
  assert (u32 (ph_vaddr ph + ph_memsz ph) = ph_vaddr ph + ph_memsz ph) as Eu.
  { destruct (Z.lt_ge_cases (ph_vaddr ph + ph_memsz ph) (2 ^ 32)); [apply u32_id; unfold is_u32; lia|]. exfalso. unfold u32 in Hov.
    rewrite <-(Z.mod_unique (ph_vaddr ph + ph_memsz ph) (2 ^ 32) 1 (ph_vaddr ph + ph_memsz ph - 2 ^ 32)) in Hov by lia. lia. }
  rewrite Eu in H. apply bind_Ret_inv in H as (r & s2 & [E2 I2]%on_vm_run & H). rewrite <-I2.
  assert (0 <= ph_vaddr ph + ph_memsz ph) as Hge0 by lia. destruct (loaded_alloc _ _ _ _ _ _ _ _ _ Hld Hge0 E2) as (l2 & Hb2 & Hld2). destruct (Z.eqb_spec r 0) as [|Hr]; [injection H as <- <-; split; [done|]; by exists l2|].
  destruct (Hld2 Hr) as [Er Hld3]. destruct (Z.eqb_spec (ph_vaddr ph mod PGSIZE) 0) as [Evm|]; cbn [negb] in H; [|injection H as <- <-; split; [done|]; by exists l2].
  apply bind_Ret_inv in H as (y & s3 & E3 & H). injection H as <- <-. unfold loaduvm in E3. rewrite Evm in E3. cbn [Z.eqb negb] in E3.
  eapply (loaded_loaduvm _ _ _ _ r) in E3 as [Hld4 I4]; [|exact Hld3|lia|done|lia|done|lia]. split; [done|]. exists l2. split; [apply Hld4|].
  intros sz'. destruct (y <? 0); [done|]. by intros [= <-].
Qed.

Lemma loaded_segments s0 l0 d ip n : forall l sz off (s s' : est) z, loaded s0 l0 d (e_m s) l sz -> load_segments dev_read kend n (va_of d) ip sz off s = Ret z s' ->
  e_img s' = e_img s /\ exists l', building s0 l0 d (e_m s') [] l' /\ forall sz', z = Some sz' -> loaded s0 l0 d (e_m s') l' sz'.
Proof.
  induction n as [|n IH]; intros l sz off s s' z Hld H; cbn [load_segments] in H.
  { injection H as <- <-. split; [done|]. exists l. split; [apply Hld|]. by intros sz' [= <-]. }
  apply bind_Ret_inv in H as (y & s1 & E1 & H). eapply loaded_segment in E1 as (I1 & l1 & Hb1 & Hld1); [|exact Hld].
  destruct y as [sz1|]; [|injection H as <- <-; split; [done|]; by exists l1].
  eapply IH in H as (I2 & H); [|by apply Hld1]. split; [congruence|done].
Qed.

(** ** The stack *)

(** Above page [t], the guard, lies the one page of the stack. *)
Record stacked (s0 : pmem) (l0 : list Z) (d : Z) (s : pmem) (l : list Z) (t : Z) : Prop := {
  sk_b : building s0 l0 d s [] l;
  sk_k : kernel_only (pg s) d;
  sk_t : 0 <= t /\ t + 2 <= USERTOP;
  sk_user w : 0 <= w < USERTOP -> user (pg s) d w <-> w < t + 2;
  sk_guard : uacc (pg s) d t = false
}.

Lemma stacked_leaf s0 l0 d s l t s' P : stacked s0 l0 d s l t -> astep P d s [] l s' [] l -> same_leaf (pg s) (pg s') d -> stacked s0 l0 d s' l t.
Proof.
  intros [Hb Hk Ht Hu Hg] St1 Hl. constructor; [eapply building_step; [exact Hb|exact St1]|by eapply same_leaf_kernel|done|..].
  - intros w Hw. rewrite <-(Hu w Hw). apply user_leaf, Hl. unfold USERTOP in Hw. lia.
  - rewrite <-Hg. apply same_leaf_uacc; [done|]. unfold USERTOP in Ht. lia.
Qed.

Lemma mask_words x : is_u32 x -> Z.land x 0xFFFFFFFC = 4 * (x / 4).
Proof.
  intros Hx. unfold is_u32 in *. change 0xFFFFFFFC with (Z.shiftl (Z.ones 30) 2). change 4 with (2 ^ 2).
  rewrite Z.mul_comm, <-Z.shiftl_mul_pow2, <-Z.shiftr_div_pow2 by lia. apply Z.bits_inj'. intros n Hn.
  rewrite Z.land_spec, !Z.shiftl_spec by lia. destruct (decide (n < 2)).
  - rewrite !(Z.testbit_neg_r _ (n - 2)) by lia. apply andb_false_r.
  - rewrite Z.shiftr_spec, Z.testbit_ones_nonneg by lia. replace (n - 2 + 2) with n by lia.
    destruct (Z.ltb_spec (n - 2) 30); [apply andb_true_r|]. rewrite andb_false_r. symmetry.
    destruct (decide (x = 0)) as [->|]; [apply Z.bits_0|]. apply Z.bits_above_log2; [lia|].
    assert (Z.log2 x < 32) by (apply Z.log2_lt_pow2; lia). lia.
Qed.

Lemma no_access_above m d a : KERNBASE <= a -> uacc m d (a / PGSIZE) = false.
Proof.
  intros Ha. assert (USERTOP <= a / PGSIZE) by (apply Z.div_le_lower_bound; unfold USERTOP, PGSIZE, KERNBASE in *; lia).
  unfold uacc. by rewrite (proj2 (Z.ltb_ge _ _)), andb_false_r by lia.
Qed.

(** What copyout wrote below the stack page would have hit the guard. *)
Lemma above_guard s0 l0 d s l t sp len va : stacked s0 l0 d s l t -> PGSIZE * (t + 1) <= sp <= PGSIZE * (t + 2) -> 0 < len ->
  u32 (sp - len) - 3 <= va <= u32 (sp - len) -> 0 <= va ->
  (forall a, va <= a < va + len -> uacc (pg s) d (a / PGSIZE) = true) -> PGSIZE * (t + 1) <= va /\ va + len <= sp.
Proof.
  intros Hsk Hsp Hlen Hva Hva0 Hacc. destruct (sk_t _ _ _ _ _ _ Hsk) as [Ht0 Ht]. unfold USERTOP in Ht.
  assert (forall a, va <= a < va + len -> KERNBASE <= a -> False) as Hup by (intros a Ha1 Ha2; specialize (Hacc a Ha1); by rewrite no_access_above in Hacc).
  assert (0 < sp <= 2 ^ 31) as Hsp' by (unfold PGSIZE in *; lia). destruct (Z.le_gt_cases len sp) as [Hle|Hgt].
  - rewrite u32_id in Hva by (unfold is_u32; lia). destruct (Z.le_gt_cases (PGSIZE * (t + 1)) va); [lia|exfalso].
    assert (uacc (pg s) d (Z.max va (PGSIZE * t) / PGSIZE) = true) as Hc by (apply Hacc; unfold PGSIZE in *; lia).
    replace (Z.max va (PGSIZE * t) / PGSIZE) with t in Hc by (apply (Z.div_unique _ _ _ (Z.max va (PGSIZE * t) - PGSIZE * t)); unfold PGSIZE in *; lia).
    by rewrite (sk_guard _ _ _ _ _ _ Hsk) in Hc.
  - exfalso. apply (Hup (Z.max va KERNBASE)); [|lia]. unfold KERNBASE. destruct (Z.le_gt_cases len (2 ^ 31)) as [Hl|Hl]; [|lia].
    unfold u32 in Hva. rewrite <-(Z.mod_unique (sp - len) (2 ^ 32) (-1) (2 ^ 32 + sp - len)) in Hva by lia. unfold PGSIZE in *. lia.
Qed.

(** The strings at the pointers [ps], between [lo] and the top of the stack. *)
Definition strings_at (m : Z -> list Z) (d lo hi : Z) (ps : list Z) (argv : list (list Z)) : Prop :=
  Forall2 (λ p a, lo <= p /\ p + Z.of_nat (length a) + 1 <= hi /\ forall k, (k <= length a)%nat -> user_byte m d (p + Z.of_nat k) = nth k (a ++ [0]) 0) ps argv.

(** Writing below [lo] leaves them. *)
Lemma strings_below m m' d lo hi ps argv va buf t lo' : strings_at m d lo hi ps argv -> lo' <= lo ->
  (forall a, user m d (a / PGSIZE) -> user_byte m' d a = zput va buf (user_byte m d) a) -> va + Z.of_nat (length buf) <= lo ->
  (forall w, 0 <= w < USERTOP -> user m d w <-> w < t) -> 0 <= lo -> hi = PGSIZE * t -> t <= USERTOP -> strings_at m' d lo' hi ps argv.
Proof.
  intros Hs Hlo Hw Hb Hu Hlo0 Hhi Ht. eapply Forall2_impl; [exact Hs|]. intros p a (H1 & H2 & H3). split_and!; [lia|lia|]. intros k Hk.
  assert (0 <= (p + Z.of_nat k) / PGSIZE < t) as Hp by (split; [apply Z.div_pos|apply Z.div_lt_upper_bound]; unfold PGSIZE in *; lia).
  rewrite Hw, <-H3 by (done || apply Hu; lia).
  unfold zput. rewrite decide_False by lia. done.
Qed.

Lemma stacked_copyout s0 l0 d s l t sp len va buf r s' : stacked s0 l0 d s l t -> PGSIZE * (t + 1) <= sp <= PGSIZE * (t + 2) -> len = Z.of_nat (length buf) -> 0 < len ->
  u32 (sp - len) - 3 <= va <= u32 (sp - len) -> 0 <= va -> copyout word0 (va_of d) va buf len s = Ret r s' ->
  building s0 l0 d s' [] l /\ (r = 0 \/ r = -1) /\
  (r = 0 -> stacked s0 l0 d s' l t /\ PGSIZE * (t + 1) <= va /\ va + len <= sp /\
     forall a, user (pg s) d (a / PGSIZE) -> user_byte (pg s') d a = zput va buf (user_byte (pg s) d) a).
Proof.
  intros Hsk Hsp -> Hlen Hva Hva0 E. pose proof (sk_b _ _ _ _ _ _ Hsk) as Hb. pattern r, s'. eapply wp_value; [|exact E].
  eapply (R_copyout kend word0 Hkend Hword0); [apply Hb|apply Hsk|pose proof (u32_range (sp - Z.of_nat (length buf))); unfold is_u32 in *; lia|..].
  - intros s1 St1 Hl Hw Hacc. split; [eapply building_step; [exact Hb|exact St1]|]. split; [by left|]. intros _.
    split; [eapply stacked_leaf; [exact Hsk|exact St1|exact Hl]|].
    destruct (above_guard _ _ _ _ _ _ _ _ _ Hsk Hsp Hlen Hva Hva0 Hacc) as [H1 H2]. done.
  - intros s1 St1. split; [eapply building_step; [exact Hb|exact St1]|]. split; [by right|done].
Qed.

Lemma pushed s0 l0 d l t argv : forall sp argc ps done (s s' : est) z, stacked s0 l0 d (e_m s) l t -> PGSIZE * (t + 1) <= sp <= PGSIZE * (t + 2) -> sp mod 4 = 0 ->
  strings_at (pg (e_m s)) d sp (PGSIZE * (t + 2)) ps done -> push_args word0 (va_of d) sp argv argc ps s = Ret z s' ->
  e_img s' = e_img s /\ building s0 l0 d (e_m s') [] l /\
  forall sp' ps', z = Some (sp', ps') -> stacked s0 l0 d (e_m s') l t /\ PGSIZE * (t + 1) <= sp' <= PGSIZE * (t + 2) /\ sp' mod 4 = 0 /\
    strings_at (pg (e_m s')) d sp' (PGSIZE * (t + 2)) ps' (done ++ argv).
Proof.
  induction argv as [|a argv IH]; intros sp argc ps done s s' z Hsk Hsp Hal Hst H; cbn [push_args] in H.
  { injection H as <- <-. split; [done|]. split; [apply Hsk|]. intros sp' ps' [= <- <-]. by rewrite app_nil_r. }
  pose proof (sk_b _ _ _ _ _ _ Hsk) as Hb. pose proof (sk_t _ _ _ _ _ _ Hsk) as Ht.
  destruct (MAXARG <=? argc); [injection H as <- <-; split; [done|]; split; [done|]; done|].
  set (len := Z.of_nat (length a) + 1) in H. assert (len = Z.of_nat (length a) + 1) as Elen by done. clearbody len. pose proof (mask_words (u32 (sp - len)) (u32_range _)) as Em. pose proof (u32_range (sp - len)) as Hr. unfold is_u32 in Hr.
  set (va := Z.land (u32 (sp - len)) 0xFFFFFFFC) in *. pose proof (Z.div_mod (u32 (sp - len)) 4 ltac:(lia)) as Hd. pose proof (Z.mod_pos_bound (u32 (sp - len)) 4 ltac:(lia)) as Hmb.
  apply bind_Ret_inv in H as (r & s1 & [E1 I1]%on_vm_run & H). assert (len = Z.of_nat (length (a ++ [0]))) as Hlen by (rewrite length_app; cbn; lia).
  destruct (stacked_copyout s0 l0 d _ l t sp len va (a ++ [0]) r _ Hsk Hsp Hlen ltac:(lia) ltac:(lia) ltac:(lia) E1) as (Hb1 & [->| ->] & Hok); cbn [Z.ltb Z.compare] in H.
  2: { injection H as <- <-. split; [done|]. done. }
  destruct (Hok eq_refl) as (Hsk1 & Hlo & Hhi & Hw). rewrite <-I1. replace (done ++ a :: argv) with ((done ++ [a]) ++ argv) by (by rewrite <-app_assoc).
  assert (0 <= PGSIZE * (t + 1)) as Hpos by (unfold PGSIZE; lia).
  eapply (IH va); [exact Hsk1|lia|rewrite Em, Z.mul_comm; by apply Z.mod_mul| |exact H].
  apply Forall2_app.
  - eapply (strings_below _ _ _ sp _ _ _ va (a ++ [0]) (t + 2)); [exact Hst|lia|exact Hw|lia|apply Hsk|lia|done|lia].
  - constructor; [|constructor]. split_and!; [lia|lia|]. intros k Hk.
    assert (0 <= (va + Z.of_nat k) / PGSIZE < t + 2) as Hp by (split; [apply Z.div_pos|apply Z.div_lt_upper_bound]; unfold PGSIZE in *; lia).
    rewrite Hw by (apply (sk_user _ _ _ _ _ _ Hsk); lia). unfold zput. rewrite decide_True by lia. f_equal. lia.
Qed.

(** ** Failing and committing *)

(** The memory as it was: the same pages free, no other page changed. *)
Definition unchanged (s0 : pmem) (l0 : list Z) (s : pmem) : Prop :=
  (exists l, pm_ok kend s l /\ forall n, n ∈ l <-> n ∈ l0) /\ forall n, n ∉ l0 -> pg s n = pg s0 n.

Lemma built_fail s0 l0 d s l u s' : building s0 l0 d s [] l -> freevm kend (va_of d) s = Ret u s' -> unchanged s0 l0 s'.
Proof.
  intros Hb E. pattern u, s'. eapply wp_value; [|exact E]. eapply (R_freevm kend Hkend); [apply Hb|]. intros s1 l1 Hs1 Hl1 Hm1.
  pose proof (bd_all _ _ _ _ _ _ _ Hb) as Hall. setoid_rewrite elem_of_nil in Hall. split.
  - exists l1. split; [done|]. intros n. rewrite Hl1, <-Hall. tauto.
  - intros n Hn. pose proof Hn as Hn'. rewrite <-Hall in Hn'. rewrite Hm1; [by apply Hb|tauto|apply not_elem_of_nil|tauto].
Qed.

Lemma guarded s0 l0 d s l sz s' u (t := page_up sz) : loaded s0 l0 d s l sz -> 2 <= t -> sz = PGSIZE * t -> clearpteu (va_of d) (PGSIZE * (t - 2)) s = Ret u s' ->
  stacked s0 l0 d s' l (t - 2).
Proof.
  intros Hld Ht Esz E. pose proof (bd_ok _ _ _ _ _ _ _ (ld_b _ _ _ _ _ _ Hld)) as Ha. pose proof (page_up_top sz (proj2 (ld_sz _ _ _ _ _ _ Hld))) as Htop. fold t in Htop.
  destruct (ld_in _ _ _ _ _ _ Hld (t - 2) ltac:(fold t; lia)) as [Hu Hl]. destruct (ao_frame _ _ _ _ _ Ha _ Hu) as (Hv & _).
  pattern u, s'. eapply wp_value; [|exact E]. eapply (R_clearpteu kend Hkend); [exact Ha|lia|exact Hl|exact Hv|]. intros s1 St1 Hl1.
  apply (valid_range _ Hkend) in Hv. assert (present (PGSIZE * frame (pg s) d (t - 2) + 3) = true) as Hp3 by (apply (entry_eq _ 2); [lia|done]).
  constructor; [eapply building_step; [apply Hld|exact St1]|eapply kernel_keep; [exact St1|cbv beta; lia|apply Hld]|lia|..].
  - intros w Hw. unfold user. rewrite Hl1 by (unfold USERTOP in *; lia). case_decide; [rewrite Hp3; split; [lia|done]|].
    destruct (Z.lt_ge_cases w t); [destruct (ld_in _ _ _ _ _ _ Hld w ltac:(fold t; lia)) as [[_ Hu'] _]; rewrite Hu'; split; [lia|done]|].
    rewrite (ld_out _ _ _ _ _ _ Hld) by (fold t; lia). split; [by intros [_ ?]|lia].
  - unfold uacc. rewrite Hl1, decide_True by (done || unfold USERTOP in *; lia). rewrite land_user by (unfold PGSIZE; lia).
    change (Z.land 3 PTE_U =? 0) with true. cbn [negb]. apply andb_false_r.
Qed.

(** Freeing the old address space leaves the new one alone. *)
Lemma old_freed s0 l0 d s l t dp u s' : stacked s0 l0 d s l t -> as_ok s0 dp [] l0 -> freevm kend (va_of dp) s = Ret u s' ->
  exists l', as_ok s' d [] l' /\ same_leaf (pg s) (pg s') d /\ (forall w, user (pg s) d w -> pg s' (frame (pg s) d w) = pg s (frame (pg s) d w)) /\
    (forall n, owns (pg s') d n \/ n ∈ l' <-> n ∈ l0 \/ owns (pg s0) dp n) /\ (forall n, n ∉ l0 -> ~ owns (pg s0) dp n -> pg s' n = pg s0 n).
Proof.
  intros Hsk Ha0 E. pose proof (sk_b _ _ _ _ _ _ Hsk) as [Ha Hall Hf]. setoid_rewrite elem_of_nil in Hall.
  assert (forall n, owns (pg s0) dp n -> n ∉ l0) as Hold by (intros n Hn; by destruct (owns_away _ _ _ _ _ n Ha0 Hn) as (_ & ? & _)).
  destruct (as_ok_frame kend s0 s dp [] l0 [] l Ha0 (ao_pm _ _ _ _ _ Ha)) as (Hap & _ & Hop).
  { intros n Hn. pose proof (Hold n Hn). pose proof (Hall n). split_and!; [by apply Hf|tauto|apply not_elem_of_nil]. }
  { by intros n ?%elem_of_nil. }
  { constructor. }
  pattern u, s'. eapply wp_value; [|exact E]. eapply (R_freevm kend Hkend); [exact Hap|]. intros s1 l1 Hs1 Hl1 Hm1.
  assert (forall n, owns (pg s) d n -> (n ∉ l) /\ ~ owns (pg s) dp n) as Hd.
  { intros n Hn. destruct (owns_away _ _ _ _ _ n Ha Hn) as (_ & ? & _). split; [done|]. rewrite Hop. intros Hn'%Hold. apply Hn'. apply Hall. tauto. }
  destruct (as_ok_frame kend s s1 d [] l [] l1 Ha Hs1) as (Ha1 & Hlf & Ho).
  { intros n Hn. destruct (Hd n Hn) as [? ?]. split_and!; [apply Hm1; [done|apply not_elem_of_nil|done]|rewrite Hl1; tauto|apply not_elem_of_nil]. }
  { by intros n ?%elem_of_nil. }
  { constructor. }
  exists l1. split_and!; [done|done|..].
  - intros w Hw. destruct (Hd (frame (pg s) d w)) as [? ?]; [right; by exists w|]. apply Hm1; [done|apply not_elem_of_nil|done].
  - intros n. rewrite Ho, Hl1, Hop, <-Hall. tauto.
  - intros n Hn Hno. pose proof (Hall n). rewrite Hm1; [by apply Hf|tauto|apply not_elem_of_nil|by rewrite Hop].
Qed.

(** The process after exec: a fresh address space [d] with everything below its
    size mapped, the guard page [t] closed to the user, and a stack that starts
    with the words of ustack and holds the argument strings. *)
Record new_image (s0 : pmem) (dp : Z) (l0 : list Z) (argv : list (list Z)) (i : image) (s' : pmem) (d : Z) (l' : list Z) (t : Z) (ptrs : list Z) : Prop := {
  ni_dir : im_pgdir i = va_of d;
  ni_ok : as_ok s' d [] l';
  ni_all n : owns (pg s') d n \/ n ∈ l' <-> n ∈ l0 \/ owns (pg s0) dp n;
  ni_frame n : n ∉ l0 -> ~ owns (pg s0) dp n -> pg s' n = pg s0 n;
  ni_sz : im_sz i = PGSIZE * (t + 2);
  ni_user w : 0 <= w < USERTOP -> user (pg s') d w <-> w < t + 2;
  ni_guard : uacc (pg s') d t = false;
  ni_kernel : kernel_only (pg s') d;
  ni_esp : PGSIZE * (t + 1) <= im_esp i /\ im_esp i mod 4 = 0;
  ni_args : strings_at (pg s') d (im_esp i) (im_sz i) ptrs argv;
  ni_words k : (k < 4 * (4 + length argv))%nat ->
    user_byte (pg s') d (im_esp i + Z.of_nat k) = nth k (ustack (im_esp i + 4 * (4 + Z.of_nat (length argv))) ptrs) 0
}.

Lemma length_ustack sp ps : length (ustack sp ps) = (4 * (4 + length ps))%nat.
Proof.
  unfold ustack. rewrite !length_app, !length_le_bytes. assert (length (concat (le_bytes 4 <$> ps)) = 4 * length ps)%nat as ->; [|lia].
  induction ps as [|p ps IH]; [done|]. rewrite fmap_cons, concat_cons, length_app, IH, length_le_bytes. cbn. lia.
Qed.

(** The pages of the new image are read as before the old one was freed. *)
Lemma user_byte_keep s s' d a : same_leaf (pg s) (pg s') d -> user (pg s) d (a / PGSIZE) -> pg s' (frame (pg s) d (a / PGSIZE)) = pg s (frame (pg s) d (a / PGSIZE)) ->
  user_byte (pg s') d a = user_byte (pg s) d a.
Proof. intros Hl Hu Hp. unfold user_byte. destruct (user_leaf _ _ _ _ (Hl _ (user_range _ _ _ Hu))) as [_ ->]. by rewrite Hp. Qed.

Lemma stack_page t a : 0 <= t -> PGSIZE * (t + 1) <= a < PGSIZE * (t + 2) -> 0 <= a / PGSIZE < t + 2.
Proof. intros Ht Ha. split; [apply Z.div_pos|apply Z.div_lt_upper_bound]; unfold PGSIZE in *; lia. Qed.

Lemma exec_commit_spec s0 l0 dp d l t sp ps path argv entry (s s' : est) r : stacked s0 l0 d (e_m s) l t -> as_ok s0 dp [] l0 -> im_pgdir (e_img s) = va_of dp ->
  PGSIZE * (t + 1) <= sp <= PGSIZE * (t + 2) -> sp mod 4 = 0 -> strings_at (pg (e_m s)) d sp (PGSIZE * (t + 2)) ps argv ->
  exec_commit kend word0 path entry (va_of d) (PGSIZE * (t + 2)) sp ps s = Ret r s' ->
  (r = -1 /\ e_img s' = e_img s /\ unchanged s0 l0 (e_m s')) \/
  (r = 0 /\ im_eip (e_img s') = entry /\ exists l', new_image s0 dp l0 argv (e_img s') (e_m s') d l' t ps).
Proof.
  intros Hsk Ha0 Hpg Hsp Hal Hst H. unfold exec_commit in H. set (n := (3 + Z.of_nat (length ps) + 1) * 4) in H.
  assert (n = Z.of_nat (length (ustack sp ps))) as Hn by (rewrite length_ustack; unfold n; lia). pose proof (Forall2_length _ _ _ Hst) as Hlen.
  assert (n = 4 * (4 + Z.of_nat (length argv))) as Hn4 by (unfold n; lia). clearbody n. pose proof (sk_t _ _ _ _ _ _ Hsk) as [Ht0 Ht].
  apply bind_Ret_inv in H as (c & s1 & [E1 I1]%on_vm_run & H). pose proof (u32_range (sp - n)) as Hur. unfold is_u32 in Hur.
  destruct (stacked_copyout s0 l0 d _ l t sp n (u32 (sp - n)) (ustack sp ps) c _ Hsk Hsp Hn ltac:(lia) ltac:(lia) ltac:(lia) E1) as (Hb1 & [->| ->] & Hok); cbn [Z.ltb Z.compare] in H.
  2: { left. unfold bad_mem in H. apply bind_Ret_inv in H as (? & s2 & [E2 I2]%on_vm_run & H). injection H as <- <-. split; [done|]. split; [congruence|]. by eapply built_fail. }
  destruct (Hok eq_refl) as (Hsk1 & Hlo & Hhi & Hw). right. apply bind_Ret_inv in H as (old & ? & E & H). injection E as <- <-.
  apply bind_Ret_inv in H as (? & s2 & E & H). injection E as _ <-. apply bind_Ret_inv in H as (? & s3 & [E3 I3]%on_vm_run & H). injection H as <- <-.
  cbn [e_m e_img] in E3, I3. rewrite I1, Hpg in E3. destruct (old_freed _ _ _ _ _ _ _ _ _ Hsk1 Ha0 E3) as (l' & Ha' & Hl' & Hp' & Hall' & Hf').
  split; [done|]. rewrite I3. cbn [im_eip]. split; [done|]. exists l'. unfold USERTOP in Ht. assert (sp - n = u32 (sp - n)) as Hva by (rewrite u32_id; [done|unfold is_u32, PGSIZE in *; lia]).
  assert (forall a, u32 (sp - n) <= a < PGSIZE * (t + 2) -> user (pg (e_m s)) d (a / PGSIZE) /\ user (pg (e_m s1)) d (a / PGSIZE)) as Hup.
  { intros a Haa. destruct (stack_page t a Ht0 ltac:(lia)). split; apply (sk_user s0 l0 d _ l t); try done; unfold USERTOP; lia. }
  assert (forall a, u32 (sp - n) <= a < PGSIZE * (t + 2) -> user_byte (pg (e_m s3)) d a = zput (u32 (sp - n)) (ustack sp ps) (user_byte (pg (e_m s)) d) a) as Hby.
  { intros a Haa. destruct (Hup a Haa) as [Hu Hu1]. rewrite (user_byte_keep _ _ _ _ Hl' Hu1 (Hp' _ Hu1)). by apply Hw. }
  constructor; cbn [im_pgdir im_sz im_esp]; [done|done|done|done|done|..].
  - intros w Hw'. rewrite <-(sk_user _ _ _ _ _ _ Hsk1 w Hw'). apply user_leaf, Hl'. unfold USERTOP in Hw'. lia.
  - rewrite <-(sk_guard _ _ _ _ _ _ Hsk1). apply same_leaf_uacc; [done|lia].
  - eapply same_leaf_kernel; [exact Hl'|apply Hsk1].
  - split; [done|]. rewrite <-Hva, Zminus_mod, Hal, Hn4, Z.mul_comm, Z.mod_mul by lia. done.
  - eapply Forall2_impl; [exact Hst|]. intros p a (H1 & H2 & H3). split_and!; [lia|lia|]. intros k Hk. rewrite Hby by lia.
    unfold zput. rewrite decide_False by lia. by apply H3.
  - intros k Hk. rewrite Hby by lia. unfold zput. rewrite decide_True by lia.
    replace (Z.to_nat (u32 (sp - n) + Z.of_nat k - u32 (sp - n))) with k by lia. f_equal. f_equal. lia.
Qed.

Lemma exec_stack_spec s0 l0 dp d l sz path argv entry (s s' : est) r : loaded s0 l0 d (e_m s) l sz -> as_ok s0 dp [] l0 -> im_pgdir (e_img s) = va_of dp ->
  exec_stack kend word0 path argv entry (va_of d) sz s = Ret r s' ->
  (r = -1 /\ e_img s' = e_img s /\ unchanged s0 l0 (e_m s')) \/
  (r = 0 /\ im_eip (e_img s') = entry /\ exists l' t ptrs, new_image s0 dp l0 argv (e_img s') (e_m s') d l' t ptrs).
Proof.
  intros Hld Ha0 Hpg H. pose proof (ld_sz _ _ _ _ _ _ Hld) as Hszr. set (t := page_up sz). pose proof (page_up_top sz (proj2 Hszr)) as Htop. pose proof (page_up_pos sz (proj1 Hszr)) as Ht0.
  fold t in Htop, Ht0. assert (forall k, page_up (PGSIZE * k) = k) as Hpu by (intros k; unfold page_up; symmetry; apply (Z.div_unique _ _ _ (PGSIZE - 1)); unfold PGSIZE; lia).
  unfold exec_stack in H. rewrite round_up in H by (unfold PGSIZE, KERNBASE in *; lia). fold (page_up sz) in H. fold t in H. unfold USERTOP in Htop.
  rewrite (u32_id (PGSIZE * t + 2 * PGSIZE)) in H by (unfold is_u32, PGSIZE; lia).
  assert (loaded s0 l0 d (e_m s) l (PGSIZE * t)) as Hld0.
  { destruct Hld as [H1 H2 H3 H4 H5]. constructor; [done|done|unfold PGSIZE, KERNBASE; lia|..]; rewrite Hpu; done. }
  apply bind_Ret_inv in H as (r1 & s1 & [E1 I1]%on_vm_run & H). assert (0 <= PGSIZE * t + 2 * PGSIZE) as Hn0 by (unfold PGSIZE; lia).
  destruct (loaded_alloc _ _ _ _ _ _ _ _ _ Hld0 Hn0 E1) as (l1 & Hb1 & Hld1). rewrite <-I1 in *. clear I1.
  assert (forall (s : est) l u s'', building s0 l0 d (e_m s) [] l -> e_img s = e_img s1 -> bad_mem kend (va_of d) s = Ret u s'' -> u = -1 /\ e_img s'' = e_img s1 /\ unchanged s0 l0 (e_m s'')) as Hbad.
  { intros s2 l2 u s'' Hb Ei Hbm. unfold bad_mem in Hbm. apply bind_Ret_inv in Hbm as (? & s3 & [E3 I3]%on_vm_run & Hbm). injection Hbm as <- <-.
    split; [done|]. split; [congruence|]. by eapply built_fail. }
  destruct (Z.eqb_spec r1 0) as [|Hr1]; [left; eapply (Hbad s1 l1); done|]. destruct (Hld1 Hr1) as [Er Hld2].
  assert (r1 = PGSIZE * (t + 2)) as -> by lia. clear Er Hld1. pose proof (ld_sz _ _ _ _ _ _ Hld2) as Hszt.
  apply bind_Ret_inv in H as (? & s2 & [E2 I2]%on_vm_run & H). rewrite (u32_id (PGSIZE * (t + 2) - 2 * PGSIZE)) in E2 by (unfold is_u32, PGSIZE, KERNBASE in *; lia).
  replace (PGSIZE * (t + 2) - 2 * PGSIZE) with (PGSIZE * (page_up (PGSIZE * (t + 2)) - 2)) in E2 by (rewrite Hpu; lia).
  eapply guarded in E2; [|exact Hld2|rewrite Hpu; lia|by rewrite Hpu]. rewrite Hpu in E2. replace (t + 2 - 2) with t in E2 by lia.
  apply bind_Ret_inv in H as (z & s3 & E3 & H).
  eapply (pushed s0 l0 d l1 t argv _ 0 [] []) in E3 as (I3 & Hb3 & Hok); [|exact E2|unfold PGSIZE; lia|unfold PGSIZE; replace (4096 * (t + 2)) with (1024 * (t + 2) * 4) by lia; apply Z.mod_mul; lia|constructor].
  destruct z as [[sp ps]|]; [|left; eapply (Hbad s3 l1); [done|congruence|done]]. destruct (Hok sp ps eq_refl) as (Hsk & Hsp & Hal & Hst). clear Hok. cbn [app] in Hst.
  eapply exec_commit_spec in H; [|exact Hsk|exact Ha0|by rewrite I3, I2|done|done|exact Hst]. rewrite I3, I2 in H. destruct H as [H|H]; [by left|right].
  destruct H as (Hr & He & l' & Hni). split; [done|]. split; [done|]. by exists l', t, ps.
Qed.

Lemma setup_loaded s0 dp l0 o s : as_ok s0 dp [] l0 -> setupkvm kend kdata s0 = Ret o s ->
  match o with Some v => exists d l, v = va_of d /\ loaded s0 l0 d s l 0 | None => unchanged s0 l0 s end.
Proof.
  intros Ha0 E. pattern o, s. eapply wp_value; [|exact E]. eapply (R_setupkvm kend kdata Hkend kd Hkdata Hkd); [apply Ha0|..].
  - intros d s1 l1 Ha1 Hall1 Hm1 Hn1 _ Hk1. exists d, l1. split; [done|]. constructor; [|done|unfold KERNBASE; lia|..].
    + constructor; [done| |done]. intros n. rewrite elem_of_nil, <-Hall1. tauto.
    + change (page_up 0) with 0. lia.
    + change (page_up 0) with 0. done.
  - intros s1 l1 Hs1 Hl1 Hm1. split; [by exists l1|done].
Qed.

Lemma bad_ip_none ip (s s' : est) r : bad_ip mypid kend None ip s = Ret r s' -> r = -1 /\ e_img s' = e_img s /\ e_m s' = e_m s.
Proof.
  unfold bad_ip. intros H. apply bind_Ret_inv in H as (? & ? & E & H). injection E as _ <-. apply bind_Ret_inv in H as (? & ? & [K1 J1]%on_k_run & H).
  apply bind_Ret_inv in H as (? & ? & [K2 J2]%on_k_run & H). injection H as <- <-. split_and!; congruence.
Qed.

Lemma bad_ip_some s0 l0 d l ip (s s' : est) r : building s0 l0 d (e_m s) [] l -> bad_ip mypid kend (Some (va_of d)) ip s = Ret r s' ->
  r = -1 /\ e_img s' = e_img s /\ unchanged s0 l0 (e_m s').
Proof.
  unfold bad_ip. intros Hb H. apply bind_Ret_inv in H as (? & s1 & [E I]%on_vm_run & H). eapply built_fail in E; [|exact Hb].
  apply bind_Ret_inv in H as (? & ? & [K1 J1]%on_k_run & H). apply bind_Ret_inv in H as (? & s3 & [K2 J2]%on_k_run & H). injection H as <- <-.
  split_and!; [done|congruence|]. by replace (e_m s3) with (e_m s1) by congruence.
Qed.

(** C12: exec, when it returns, has either failed or installed a new image; provided
    that the word at address 0, which is the running process's own memory and which
    uva2ka takes for the entry of an address without a page table, does not look
    like the entry of a present user page ([Hword0]: without it a copy of arguments
    too long for the stack goes to the page the word names, see
    [copyout_null_entry]).  On failure
    it returns -1, the process keeps its address space, size, name and registers,
    every page it took is free again and no other page has changed.  On success
    the pages of the old address space and the free pages are exactly the pages of
    the new one and the free pages; everything below the new size is mapped,
    the page under the stack page is closed to the user, and from the stack
    pointer on lie the fake return address, argc, argv and the pointers to the
    argument strings, each of which is in memory with its terminating zero. *)
Theorem exec_image path argv (s s' : est) r dp l (Ha : as_ok (e_m s) dp [] l) (Hpg : im_pgdir (e_img s) = va_of dp)
  (H : exec dev_read mypid kend kdata word0 path argv s = Ret r s') :
  (r = -1 /\ e_img s' = e_img s /\ unchanged (e_m s) l (e_m s')) \/
  (r = 0 /\ exists d l' t ptrs, new_image (e_m s) dp l argv (e_img s') (e_m s') d l' t ptrs).
Proof.
  assert (unchanged (e_m s) l (e_m s)) as Hsame by (split; [exists l; split; [apply Ha|done]|done]).
  unfold exec in H. apply bind_Ret_inv in H as (? & s1 & [Em1 I1]%on_k_run & H). apply bind_Ret_inv in H as (o & s2 & [Em2 I2]%on_k_run & H).
  destruct o as [ip|]; [|apply bind_Ret_inv in H as (? & s3 & [Em3 I3]%on_k_run & H); injection H as <- <-; left; split_and!; [done|congruence|by replace (e_m s3) with (e_m s) by congruence]].
  apply bind_Ret_inv in H as (? & ? & [K1 J1]%on_k_run & H). apply bind_Ret_inv in H as (? & ? & [K2 J2]%on_k_run & H). apply bind_Ret_inv in H as (? & ? & [K3 J3]%on_k_run & H).
  assert (forall s3 : est, e_m s3 = e_m s -> e_img s3 = e_img s -> bad_ip mypid kend None ip s3 = Ret r s' -> r = -1 /\ e_img s' = e_img s /\ unchanged (e_m s) l (e_m s')) as Hbad.
  { intros s3 Em I (-> & I' & Em')%bad_ip_none. split_and!; [done|congruence|by replace (e_m s') with (e_m s) by congruence]. }
  destruct (lacks _ _ _ _); [left; eapply Hbad; [..|exact H]; congruence|].
  apply bind_Ret_inv in H as (hd & s4 & [Em4 I4]%on_k_run & H). set (elf := elf_load hd.2) in H.
  assert (e_m s4 = e_m s) as Em by congruence. assert (e_img s4 = e_img s) as Ei by congruence.
  destruct (negb _); [left; by eapply Hbad|]. destruct (negb _); [left; by eapply Hbad|].
  apply bind_Ret_inv in H as (dv & s5 & [E5 I5]%on_vm_run & H). rewrite Em in E5. pose proof (setup_loaded _ _ _ _ _ Ha E5) as Hset.
  destruct dv as [v|]; [|apply bad_ip_none in H as (-> & I' & Em'); left; split_and!; [done|congruence|by rewrite Em']].
  destruct Hset as (d & l5 & -> & Hld). apply bind_Ret_inv in H as (z & s6 & E6 & H). eapply loaded_segments in E6 as (I6 & l6 & Hb6 & Hld6); [|exact Hld].
  destruct z as [sz|]; [|eapply bad_ip_some in H as (-> & I' & Hun); [|exact Hb6]; left; split_and!; [done|congruence|done]].
  apply bind_Ret_inv in H as (? & s7 & [Em7 I7]%on_k_run & H). apply bind_Ret_inv in H as (? & s8 & [Em8 I8]%on_k_run & H).
  eapply exec_stack_spec in H; [|rewrite Em8, Em7; by apply Hld6|exact Ha|congruence]. destruct H as [(-> & I' & Hun)|(-> & _ & l' & t & ps & Hni)].
  - left. split_and!; [done|congruence|done].
  - right. split; [done|]. by exists d, l', t, ps.
Qed.
End exec_props.
