(* ===== verification/ExecDemo.v ===== *)
(** * A call of exec on a small machine

    The file /f of the sample disk is executable by everybody but holds no
    program: exec refuses it. *)

From S2P Require Import Prelude CString Block BlockLayer Bio Log FsDefs FileDefs SysfileDefs SysfileProps ExecDefs.
From S2P Require Import VmDefs Kalloc Vm AddrSpace CopyVm UserMem VmDemo ExecProps.

Definition exec_start : est (St := _) := mkE (perm_state 63 guest) (one_page 5) (mkImg (va_of (dir 5)) 4096 [] 0 0).
#[local] Abbreviation exec_f := (exec (BL := bio_layer 1000 1) (λ _, None) 1 kend0 (PGSIZE * 0x80108) 0 (bytes_of "/f") [bytes_of "a"] exec_start).

Lemma exec_f_runs : match exec_f with Ret r _ => r =? -1 | _ => false end = true.
Proof. vm_compute. reflexivity. Qed.

#[local] Opaque one_page run_state.

Lemma exec_image_witness : exists r s', exec_f = Ret r s' /\ (r = -1 -> e_img s' = e_img exec_start).
Proof.
  pose proof exec_f_runs as Hr. destruct exec_f as [r s'| |] eqn:E; [|discriminate Hr..]. exists r, s'. split; [reflexivity|].
  destruct one_page_5 as (l & Ha & _).
  destruct (exec_image (BL := bio_layer 1000 1) (λ _, None) 1 kend0 (PGSIZE * 0x80108) 0 0x80108 ltac:(done) eq_refl ltac:(lia) (or_introl eq_refl)
    (bytes_of "/f") [bytes_of "a"] exec_start s' r (dir 5) l Ha eq_refl E) as [(-> & Hi & _)|(-> & _)]; [intros _; exact Hi|discriminate].
Defined.
