(* ===== verification/FdProps.v ===== *)
(** * Descriptors and reference counts

    The reference count of an entry of the file table is the number of
    descriptors that name it, in the running process and in the others; every
    call keeps this, on its error paths too. *)

From S2P Require Import Prelude CString Sleeplock Block BlockLayer Bio Log LogProps FsDefs InodeProps FsRules Pipe FileDefs SysfileDefs SysfileProps.

(** ** Counting *)

Definition nrefs (l : list (option nat)) (f : nat) : Z := Z.of_nat (length (filter (λ o, o = Some f) l)).
Definition hit (o : option nat) (f : nat) : Z := if decide (o = Some f) then 1 else 0.

Lemma nrefs_nonneg l f : 0 <= nrefs l f.
Proof. unfold nrefs. lia. Qed.

Lemma nrefs_cons o l f : nrefs (o :: l) f = hit o f + nrefs l f.
Proof.
  unfold nrefs, hit. case_decide; [rewrite filter_cons_True by done; cbn [length]; lia|by rewrite filter_cons_False].
Qed.

Lemma nrefs_insert l k o o' f : l !! k = Some o -> nrefs (<[k := o']> l) f = nrefs l f - hit o f + hit o' f.
Proof.
  revert k. induction l as [|x l IH]; intros [|k] Hk; [done|done| |].
  - injection Hk as ->. change (<[0%nat := o']> (o :: l)) with (o' :: l). rewrite !nrefs_cons. lia.
  - change (<[S k := o']> (x :: l)) with (x :: <[k := o']> l). rewrite !nrefs_cons, (IH k) by done. lia.
Qed.

Lemma nrefs_hit l k f : l !! k = Some (Some f) -> 1 <= nrefs l f.
Proof.
  intros Hk. pose proof (nrefs_insert l k (Some f) None f Hk) as E. unfold hit in E. rewrite decide_True, decide_False in E by done.
  pose proof (nrefs_nonneg (<[k := None]> l) f). lia.
Qed.

Lemma nrefs_length l f : nrefs l f <= Z.of_nat (length l).
Proof. unfold nrefs. pose proof (length_filter (λ o, o = Some f) l). lia. Qed.

Section fds.
Context {St : Type} `{BLi : BlockLayer St} (mypid : Z).

Definition refs (s : kst St) : list Z := f_ref <$> ftab s.

(** [m] changes the counts by [u] and leaves the process and the free lock alone. *)
Definition counts {A} (m : M (kst St) A) (u : A -> list Z -> list Z -> Prop) : Prop :=
  forall s a s', ftlk s = false -> m s = Ret a s' -> ftlk s' = false /\ ofile (cur s') = ofile (cur s) /\ u a (refs s) (refs s').

Lemma outside_counts {A} (m : M (kst St) A) : fs_only m -> counts m (λ _ r r', r' = r).
Proof. intros Hm s a s' Hl H. destruct (Hm s a s' H) as (E1 & E2 & _ & _ & _ & E3). unfold refs. by rewrite E1, E2, E3. Qed.

Lemma counts_bind {A B} (m : M (kst St) A) (k : A -> M (kst St) B) u v w : counts m u -> (forall a, counts (k a) (v a)) ->
  (forall a b r r1 r2, u a r r1 -> v a b r1 r2 -> w b r r2) -> counts (m ≫= k) w.
Proof.
  intros Hm Hk Huv s b s' Hl (a & s1 & H1 & H2)%bind_Ret_inv. destruct (Hm _ _ _ Hl H1) as (L1 & C1 & U1).
  destruct (Hk a _ _ _ L1 H2) as (L2 & C2 & V2). split; [done|]. split; [congruence|]. by eapply Huv.
Qed.

Lemma counts_mono {A} (m : M (kst St) A) (u v : A -> list Z -> list Z -> Prop) : counts m u -> (forall a r r', u a r r' -> v a r r') -> counts m v.
Proof. intros Hm Huv s a s' Hl H. destruct (Hm _ _ _ Hl H) as (? & ? & ?). auto. Qed.

Lemma refs_alter g f (s : kst St) x : ftab s !! f = Some x -> f_ref <$> alter g f (ftab s) = <[f := f_ref (g x)]> (refs s).
Proof. intros Hx. unfold refs. by rewrite (alter_lookup _ _ _ _ Hx), list_fmap_insert. Qed.

Lemma refs_lookup f (s : kst St) x : ftab s !! f = Some x -> refs s !! f = Some (f_ref x).
Proof. intros Hx. unfold refs. by rewrite list_lookup_fmap, Hx. Qed.

Lemma filealloc_counts : counts (filealloc (St := St)) (λ o r r',
  match o with Some f => r !! f = Some 0 /\ r' = <[f := 1]> r | None => r' = r end).
Proof.
  intros s [f|] s' Hl H.
  - apply filealloc_found in H as (_ & E2 & _ & E4 & _ & x & Hx & Hr & Et). split; [done|]. split; [by rewrite E2|].
    split; [rewrite (refs_lookup _ _ _ Hx); by rewrite Hr|]. unfold refs. by rewrite Et, list_fmap_insert.
  - unfold filealloc, acquire_ft, release_ft, f_upd, mbind, M_bind, get, put, modify, mret, M_ret in H. rewrite Hl in H.
    cbn [ftab set_ftab] in H. destruct (find_file (ftab s)); cbn in H; by simplify_eq.
Qed.

Lemma filedup_counts f : counts (filedup f) (λ _ r r', exists n, r !! f = Some n /\ 1 <= n /\ r' = <[f := s32 (n + 1)]> r).
Proof.
  intros s a s' Hl H. unfold filedup, acquire_ft, release_ft, f_get, f_upd, mbind, M_bind, get, put, modify, gets, mret, M_ret in H.
  rewrite Hl in H. cbn [ftab ftlk set_ftab] in H. destruct (ftab s !! f) as [x|] eqn:Ex; [|discriminate H]. cbn [default from_option id] in H.
  destruct (Z.ltb_spec (f_ref x) 1) as [|Hr]; [discriminate H|]. injection H as _ <-. split; [done|]. split; [done|].
  exists (f_ref x). split; [by apply refs_lookup|]. split; [done|]. unfold refs at 1. cbn [ftab set_ftab]. by rewrite (refs_alter _ _ _ _ Ex).
Qed.

Lemma k_pipeclose_counts p w : counts (k_pipeclose p w) (λ _ r r', r' = r).
Proof.
  intros s a s' Hl H. unfold k_pipeclose, mbind, M_bind, get, put in H. destruct (pipes s !! p); [|discriminate H].
  destruct (pipeclose w p0) as [x' freed]. injection H as _ <-. done.
Qed.

Lemma fileclose_counts f : counts (fileclose mypid f) (λ _ r r', exists n, r !! f = Some n /\ 1 <= n /\ r' = <[f := n - 1]> r).
Proof.
  intros s a s' Hl H. unfold fileclose in H. apply bind_Ret_inv in H as ([] & s1 & H1 & H).
  unfold acquire_ft, mbind, M_bind, get, put in H1. rewrite Hl in H1. injection H1 as <-.
  apply bind_Ret_inv in H as (x & s2 & H2 & H). injection H2 as <- <-. cbn [ftab set_ftab] in H.
  destruct (ftab s !! f) as [x|] eqn:Ex; [|discriminate H]. cbn [default from_option id] in H.
  destruct (Z.ltb_spec (f_ref x) 1) as [|Hr]; [discriminate H|].
  apply bind_Ret_inv in H as ([] & s3 & H3 & H). injection H3 as <-. apply bind_Ret_inv in H as (y & s4 & H4 & H). injection H4 as <- <-.
  cbn [ftab set_ftab ftlk] in H. rewrite list_lookup_alter_eq, Ex in H. cbn [fmap option_fmap option_map default from_option id] in H.
  assert (f_ref <$> alter (λ x, set_f_ref (f_ref x - 1) x) f (ftab s) = <[f := f_ref x - 1]> (refs s)) as Ed by (by rewrite (refs_alter _ _ _ _ Ex)).
  destruct (Z.ltb_spec 0 (f_ref (set_f_ref (f_ref x - 1) x))) as [Hp|Hz].
  - unfold release_ft, mbind, M_bind, get, put in H. cbn in H. injection H as _ <-. split; [done|]. split; [done|].
    exists (f_ref x). split; [by apply refs_lookup|]. split; [done|]. exact Ed.
  - apply bind_Ret_inv in H as ([] & s5 & H5 & H). injection H5 as <-. apply bind_Ret_inv in H as ([] & s6 & H6 & H).
    unfold release_ft, mbind, M_bind, get, put in H6. cbn in H6. injection H6 as <-. cbn in Hz.
    assert (counts (match f_type (set_f_ref (f_ref x - 1) x) with
                    | FD_PIPE => k_pipeclose (f_pipe x) (f_writable x)
                    | FD_INODE => k_begin_op ;; on_fs (iput mypid (f_ip x)) ;; k_end_op
                    | FD_NONE => mret tt end) (λ _ r r', r' = r)) as Hrest.
    { destruct (f_type _); [apply outside_counts; fs_only|apply k_pipeclose_counts|]. apply outside_counts. unfold k_begin_op, k_end_op. fs_only. }
    apply Hrest in H as (L & C & E); [|done]. split; [done|]. split; [done|]. exists (f_ref x). split; [by apply refs_lookup|].
    split; [done|]. rewrite E. unfold refs at 1. cbn [ftab set_ftab]. rewrite (alter_lookup _ _ (set_f_ref (f_ref x - 1) x)) by (by rewrite list_lookup_alter_eq, Ex).
    rewrite list_fmap_insert, Ed, list_insert_insert_eq. f_equal. cbn. lia.
Qed.

(** ** Calls that leave the counts alone *)

Definition keeps {A} (m : M (kst St) A) : Prop := counts m (λ _ r r', r' = r).

Lemma keeps_fs {A} (m : M (kst St) A) : fs_only m -> keeps m.
Proof. apply outside_counts. Qed.

Lemma keeps_bind {A B} (m : M (kst St) A) (k : A -> M (kst St) B) : keeps m -> (forall a, keeps (k a)) -> keeps (m ≫= k).
Proof.
  intros Hm Hk. apply (counts_bind m k (λ _ r r', r' = r) (λ _ _ r r', r' = r)); [exact Hm|exact Hk|]. by intros a b r r1 r2 -> ->.
Qed.

Lemma keeps_f_upd f g : (forall x, f_ref (g x) = f_ref x) -> keeps (f_upd f g).
Proof.
  intros Hg s a s' Hl [= _ <-]. split; [done|]. split; [done|]. unfold refs. cbn. by apply fmap_alter_id.
Qed.

Lemma keeps_piperead p n : keeps (k_piperead p n).
Proof.
  intros s a s' Hl H. unfold k_piperead, mbind, M_bind, get, put in H. destruct (pipes s !! p); [|discriminate H].
  destruct (piperead _ _ _) as [x' e]. destruct e; [| |discriminate H]; injection H as _ <-; done.
Qed.

Lemma keeps_pipewrite p b n : keeps (k_pipewrite p b n).
Proof.
  intros s a s' Hl H. unfold k_pipewrite, mbind, M_bind, get, put in H. destruct (pipes s !! p); [|discriminate H].
  destruct (pipewrite _ _ _) as [x' e]. destruct e; [| |discriminate H]; injection H as _ <-; done.
Qed.

Lemma keeps_when b (m : M (kst St) unit) : keeps m -> keeps (when b m).
Proof. destruct b; [done|]. intros _. apply keeps_fs, fs_only_ret. Qed.

Lemma keeps_panic {A} msg : keeps (panic msg : M (kst St) A).
Proof. by intros s a s' _ [=]. Qed.
End fds.

Create HintDb keeps.
#[export] Hint Resolve keeps_piperead keeps_pipewrite keeps_when keeps_panic : keeps.

Ltac keeps :=
  repeat first
    [ progress auto with keeps
    | apply keeps_fs; solve [fs_only]
    | apply keeps_f_upd; done
    | apply keeps_bind; [|intros ?]
    | match goal with |- keeps (match ?x with _ => _ end) => destruct x end
    | match goal with |- keeps (if ?x then _ else _) => destruct x end
    | apply keeps_when ].

Section calls.
Context {St : Type} `{BLi : BlockLayer St}.
Context (dev_read : Z -> option (nat -> Z -> M (fsst St) (Z * list Z))) (dev_write : Z -> option (nat -> list Z -> Z -> M (fsst St) Z)).
Context (mypid : Z).

Lemma fileread_keeps f n : keeps (fileread dev_read mypid f n).
Proof. unfold fileread, f_get, k_begin_op, k_end_op. keeps. Qed.

Lemma filewrite_loop_keeps fuel f b : forall i n, keeps (filewrite_loop dev_write mypid fuel f b i n).
Proof. induction fuel as [|fuel IH]; intros i n; cbn [filewrite_loop]; unfold f_get, k_begin_op, k_end_op; keeps. Qed.

Lemma filewrite_keeps f b n : keeps (filewrite dev_write mypid f b n).
Proof. unfold filewrite, f_get. pose proof filewrite_loop_keeps. keeps. Qed.

Lemma argfd_fs_only fd : fs_only (argfd (St := St) fd).
Proof. unfold argfd, my. fs_only. Qed.

(** ** The calls *)

Inductive fcall :=
| CDup (fd : option Z)
| CClose (fd : option Z)
| COpen (path : option (list Z)) (omode : option Z)
| CPipe (ok : bool) (page : option (Z * list Z))
| CRead (fd n : option Z) (p : bool)
| CWrite (fd n : option Z) (p : option (list Z))
| CFstat (fd : option Z) (id0 : option (list Z))
| CLink (old new : option (list Z))
| CUnlink (path : option (list Z))
| CMkdir (path : option (list Z))
| CMknod (path : option (list Z)) (major minor : option Z)
| CChdir (path : option (list Z)).

Definition run (k : fcall) : M (kst St) unit :=
  match k with
  | CDup fd => sys_dup fd ;; mret tt
  | CClose fd => sys_close mypid fd ;; mret tt
  | COpen path omode => sys_open dev_read dev_write mypid path omode ;; mret tt
  | CPipe ok page => sys_pipe mypid ok page ;; mret tt
  | CRead fd n p => sys_read dev_read mypid fd n p ;; mret tt
  | CWrite fd n p => sys_write dev_write mypid fd n p ;; mret tt
  | CFstat fd id0 => sys_fstat mypid fd id0 ;; mret tt
  | CLink old new => sys_link dev_read dev_write mypid old new ;; mret tt
  | CUnlink path => sys_unlink dev_read dev_write mypid path ;; mret tt
  | CMkdir path => sys_mkdir dev_read dev_write mypid path ;; mret tt
  | CMknod path major minor => sys_mknod dev_read dev_write mypid path major minor ;; mret tt
  | CChdir path => sys_chdir dev_read mypid path ;; mret tt
  end.

(** [others f] descriptors of other processes name entry [f]. *)
Record balanced (others : nat -> Z) (r : list Z) (o : list (option nat)) : Prop := {
  ba_len : length o = NOFILE;
  ba_refs f n : r !! f = Some n -> n = others f + nrefs o f;
  ba_open k f : o !! k = Some (Some f) -> is_Some (r !! f)
}.
Definition fd_inv (others : nat -> Z) (s : kst St) : Prop := ftlk s = false /\ balanced others (refs s) (ofile (cur s)).

Lemma balanced_move others r o f n k a b : balanced others r o -> r !! f = Some n -> o !! k = Some a ->
  (a = None \/ a = Some f) -> (b = None \/ b = Some f) ->
  balanced others (<[f := n - hit a f + hit b f]> r) (<[k := b]> o).
Proof.
  intros [L R O] Hr Ho Ha Hb. constructor.
  - by rewrite length_insert.
  - intros g m. rewrite (nrefs_insert _ _ _ _ _ Ho). destruct (decide (f = g)) as [<-|Hne].
    + rewrite list_lookup_insert_eq by (by eapply lookup_lt_Some). intros [= <-]. rewrite (R f n Hr). lia.
    + rewrite list_lookup_insert_ne by done. intros Hm. rewrite (R g m Hm).
      assert (hit a g = 0 /\ hit b g = 0) as [-> ->]; [|lia]. unfold hit. destruct Ha as [->| ->], Hb as [->| ->]; by rewrite !decide_False by congruence.
  - intros j g Hj. destruct (decide (k = j)) as [<-|Hne].
    + rewrite list_lookup_insert_eq in Hj by (by eapply lookup_lt_Some). injection Hj as ->. destruct Hb as [|[= ->]]; [done|].
      rewrite list_lookup_insert_eq by (by eapply lookup_lt_Some). done.
    + rewrite list_lookup_insert_ne in Hj by done. destruct (decide (f = g)) as [<-|Hfg].
      * rewrite list_lookup_insert_eq by (by eapply lookup_lt_Some). done.
      * rewrite list_lookup_insert_ne by done. by eapply O.
Qed.

Lemma keeps_inv {A} others (m : M (kst St) A) s a s' : keeps m -> fd_inv others s -> m s = Ret a s' -> fd_inv others s'.
Proof. intros Hm [Hl Hb] H. destruct (Hm _ _ _ Hl H) as (L & C & E). split; [done|]. by rewrite E, C. Qed.

Lemma fdalloc_fail f (s : kst St) fd s' : fdalloc f s = Ret fd s' -> fd < 0 -> s' = s.
Proof.
  unfold fdalloc, my, gets, mbind, M_bind. destruct (free_fd _) as [n|]; cbn; intros H Hfd; injection H as <- <-; [lia|done].
Qed.

Lemma argfd_spec fd (s : kst St) r s' : argfd fd s = Ret r s' -> s' = s /\
  match r with Some (k, f) => ofile (cur s) !! Z.to_nat k = Some (Some f) | None => True end.
Proof.
  unfold argfd, my, gets, mbind, M_bind. intros [= <- <-]. split; [done|]. destruct fd as [fd|]; [|done].
  destruct (_ || _); [done|]. destruct (ofile (cur s) !! Z.to_nat fd) as [[f|]|] eqn:E; [|done|done]. exact E.
Qed.

Section inv.
Context (others : nat -> Z).
Hypothesis Hoth : forall f, 0 <= others f < 2 ^ 31 - 17.

Lemma hit_same f : hit (Some f) f = 1 /\ hit None f = 0.
Proof. unfold hit. by rewrite decide_True, decide_False. Qed.

Lemma dup_inv fd s r s' : fd_inv others s -> sys_dup fd s = Ret r s' -> fd_inv others s'.
Proof.
  intros [Hl Hb] H. unfold sys_dup in H. apply bind_Ret_inv in H as (a & s1 & Ha & H). apply argfd_spec in Ha as [-> Hf].
  destruct a as [[k f]|]; [|by injection H as _ <-]. apply bind_Ret_inv in H as (n & s1 & Hn & H).
  destruct (Z.ltb_spec n 0) as [Hneg|Hpos].
  { apply fdalloc_fail in Hn; [|done]. subst s1. by injection H as _ <-. }
  apply fdalloc_found in Hn as (_ & F2 & F3 & _ & _ & F4 & F5 & F6); [|done]. apply bind_Ret_inv in H as (g & s2 & Hg & H).
  injection H as _ <-. apply filedup_counts in Hg as (L & C & m & Hm & Hm1 & E); [|by rewrite F3]. split; [done|].
  assert (refs s1 = refs s) as Er by (unfold refs; by rewrite F2). rewrite Er in *. rewrite C, F6, E.
  pose proof (ba_refs _ _ _ Hb f m Hm). pose proof (nrefs_length (ofile (cur s)) f) as Hle. rewrite (ba_len _ _ _ Hb) in Hle.
  pose proof (Hoth f). unfold NOFILE in Hle. rewrite s32_id by (unfold is_s32; lia).
  destruct (hit_same f) as [H1 H2]. replace (m + 1) with (m - hit None f + hit (Some f) f) by lia.
  apply balanced_move; try done; [by left|by right].
Qed.

Lemma close_inv fd s r s' : fd_inv others s -> sys_close mypid fd s = Ret r s' -> fd_inv others s'.
Proof.
  intros [Hl Hb] H. unfold sys_close in H. apply bind_Ret_inv in H as (a & s1 & Ha & H). apply argfd_spec in Ha as [-> Hf].
  destruct a as [[k f]|]; [|by injection H as _ <-]. apply bind_Ret_inv in H as ([] & s1 & [= <-] & H).
  apply bind_Ret_inv in H as ([] & s2 & Hc & H). injection H as _ <-.
  apply fileclose_counts in Hc as (L & C & m & Hm & Hm1 & E); [|done]. split; [done|]. rewrite C, E. cbn [cur set_cur ofile refs].
  destruct (hit_same f) as [H1 H2]. replace (m - 1) with (m - hit (Some f) f + hit None f) by lia.
  apply balanced_move; try done; [by right|by left].
Qed.

(** A new entry that gets a descriptor, or is closed again. *)
Lemma balanced_new r o f k : balanced others r o -> r !! f = Some 0 -> o !! k = Some None ->
  balanced others (<[f := 1]> r) (<[k := Some f]> o).
Proof.
  intros Hb Hr Ho. destruct (hit_same f) as [H1 H2]. replace 1 with (0 - hit None f + hit (Some f) f) by lia.
  apply balanced_move; try done; [by left|by right].
Qed.

Lemma insert_back (r : list Z) f (n : Z) : r !! f = Some 0 -> n = 1 -> <[f := n - 1]> (<[f := 1]> r) = r.
Proof. intros Hr ->. rewrite list_insert_insert_eq. by apply list_insert_id. Qed.

Lemma insert_back2 (r : list Z) f g : f <> g -> r !! f = Some 0 -> r !! g = Some 0 ->
  <[f := 1 - 1]> (<[g := 1 - 1]> (<[f := 1]> (<[g := 1]> r))) = r.
Proof.
  intros Hne Hf Hg. pose proof (lookup_lt_Some _ _ _ Hf). pose proof (lookup_lt_Some _ _ _ Hg). apply list_eq. intros j.
  destruct (decide (f = j)) as [<-|Hfj]; [rewrite list_lookup_insert_eq by (rewrite !length_insert; lia); by rewrite Hf|].
  rewrite list_lookup_insert_ne by done.
  destruct (decide (g = j)) as [<-|Hgj]; [rewrite list_lookup_insert_eq by (rewrite !length_insert; lia); by rewrite Hg|].
  by rewrite !list_lookup_insert_ne by done.
Qed.

Lemma open_fail_counts ip f : counts (open_fail mypid ip f) (λ _ r r',
  match f with Some f => exists n, r !! f = Some n /\ r' = <[f := n - 1]> r | None => r' = r end).
Proof.
  unfold open_fail, k_iunlockput, k_end_op.
  apply (counts_bind _ _ (λ _ r r', match f with Some f => exists n, r !! f = Some n /\ r' = <[f := n - 1]> r | None => r' = r end) (λ _ _ r r', r' = r)).
  - destruct f as [f|]; [|apply keeps_fs, fs_only_ret]. eapply counts_mono; [apply fileclose_counts|]. intros a r r' (n & ? & _ & ?). eauto.
  - intros []. apply keeps_fs. fs_only.
  - intros [] b r r1 r2 Hu ->. exact Hu.
Qed.

Lemma open_inv path omode s r s' : fd_inv others s -> sys_open dev_read dev_write mypid path omode s = Ret r s' -> fd_inv others s'.
Proof.
  intros Hinv H. unfold sys_open in H. destruct path as [path|]; [|by injection H as _ <-]. destruct omode as [omode|]; [|by injection H as _ <-].
  apply bind_Ret_inv in H as ([] & s1 & H1 & H). apply (keeps_inv others) in H1; [|apply keeps_fs, (k_fs_only dev_read mypid)|done].
  apply bind_Ret_inv in H as (o & s2 & H2 & H). apply (keeps_inv others) in H2 as [Hl Hb]; [|apply keeps_fs, open_inode_fs_only|done].
  destruct o as [ip|]; [|by injection H as _ <-]. apply bind_Ret_inv in H as (f & s3 & H3 & H).
  apply filealloc_counts in H3 as (L3 & C3 & E3); [|done]. destruct f as [f|].
  2: { apply open_fail_counts in H as (L & C & E); [|done]. split; [done|]. by rewrite E, C, E3, C3. }
  destruct E3 as [Hf0 E3]. pose proof (lookup_lt_Some _ _ _ Hf0) as Hlt.
  apply bind_Ret_inv in H as (fd & s4 & H4 & H). destruct (Z.ltb_spec fd 0) as [Hneg|Hpos].
  - apply fdalloc_fail in H4; [|done]. subst s4. apply open_fail_counts in H as (L & C & n & Hn & E); [|done]. split; [done|].
    rewrite E, E3, C, C3, insert_back; [done|done|]. rewrite E3, list_lookup_insert_eq in Hn by done. by injection Hn.
  - apply fdalloc_found in H4 as (_ & F2 & F3 & _ & _ & F4 & F5 & F6); [|done].
    assert (fd_inv others s4) as Hinv4.
    { split; [by rewrite F3|]. unfold refs in *. rewrite F2, E3, F6, C3. apply balanced_new; [done|done|by rewrite <-C3]. }
    apply (keeps_inv others) in H; [done| |done]. unfold k_iunlock, k_end_op. keeps.
Qed.

Lemma pipealloc_counts page : counts (pipealloc mypid page) (λ o r r',
  match o with
  | Some (f0, f1) => r !! f0 = Some 0 /\ f1 <> f0 /\ r !! f1 = Some 0 /\ r' = <[f1 := 1]> (<[f0 := 1]> r)
  | None => r' = r
  end).
Proof.
  intros s a s' Hl H. unfold pipealloc in H. apply bind_Ret_inv in H as (f0 & s1 & H0 & H).
  apply filealloc_counts in H0 as (L0 & C0 & E0); [|done]. destruct f0 as [f0|]; [|by injection H as <- <-]. destruct E0 as [Hz0 E0].
  pose proof (lookup_lt_Some _ _ _ Hz0) as Hlt0.
  apply bind_Ret_inv in H as (f1 & s2 & H1 & H). apply filealloc_counts in H1 as (L1 & C1 & E1); [|done]. destruct f1 as [f1|].
  - destruct E1 as [Hz1 E1]. rewrite E0 in Hz1, E1. pose proof (lookup_lt_Some _ _ _ Hz1) as Hlt1.
    assert (f1 <> f0) as Hne by (intros ->; by rewrite list_lookup_insert_eq in Hz1).
    rewrite list_lookup_insert_ne in Hz1 by done. destruct page as [[p d]|].
    + apply bind_Ret_inv in H as ([] & s3 & [= <-] & H).
      assert (keeps (f_upd f0 (λ x, mkFile FD_PIPE (f_ref x) true false p (f_ip x) (f_off x)) ;;
        f_upd f1 (λ x, mkFile FD_PIPE (f_ref x) false true p (f_ip x) (f_off x)) ;; mret (Some (f0, f1)) : M (kst St) _)) as Hk by keeps.
      assert (a = Some (f0, f1)) as -> by (repeat (apply bind_Ret_inv in H as (? & ? & _ & H)); by injection H as <- _).
      apply Hk in H as (L & C & E); [|done]. split; [done|]. split; [by rewrite C, <-C0, <-C1|]. rewrite E. by split_and!.
    + apply bind_Ret_inv in H as ([] & s3 & H3 & H). apply bind_Ret_inv in H as ([] & s4 & H4 & H). injection H as <- <-.
      apply fileclose_counts in H3 as (L3 & C3 & n & Hn & _ & E3); [|done]. apply fileclose_counts in H4 as (L4 & C4 & m & Hm & _ & E4); [|done].
      split; [done|]. split; [by rewrite C4, C3, C1, C0|]. rewrite E3, E1 in *.
      rewrite list_lookup_insert_ne, list_lookup_insert_eq in Hn by done. injection Hn as <-.
      rewrite list_lookup_insert_ne, list_lookup_insert_eq in Hm by (done || by rewrite length_insert). injection Hm as <-.
      rewrite E4. by apply insert_back2.
  - apply bind_Ret_inv in H as ([] & s3 & H3 & H). injection H as <- <-.
    apply fileclose_counts in H3 as (L3 & C3 & n & Hn & _ & E3); [|done]. split; [done|]. split; [by rewrite C3, C1, C0|].
    rewrite E1, E0, list_lookup_insert_eq in Hn by done. injection Hn as <-. by rewrite E3, E1, E0, insert_back.
Qed.

Lemma refs_set_cur c (s : kst St) : refs (set_cur c s) = refs s.
Proof. done. Qed.

Lemma pipe_inv ok page s r s' : fd_inv others s -> sys_pipe mypid ok page s = Ret r s' -> fd_inv others s'.
Proof.
  intros [Hl Hb] H. unfold sys_pipe in H. destruct ok; cbn [negb] in H; [|by injection H as _ <-].
  apply bind_Ret_inv in H as (p & s1 & H1 & H). apply pipealloc_counts in H1 as (L1 & C1 & E1); [|done].
  destruct p as [[rf wf]|]; [|injection H as _ <-; split; [done|]; by rewrite E1, C1]. destruct E1 as (Z0 & Hne & Z1 & E1).
  pose proof (lookup_lt_Some _ _ _ Z0) as Hlt0. pose proof (lookup_lt_Some _ _ _ Z1) as Hlt1.
  apply bind_Ret_inv in H as (fd0 & s2 & H2 & H). apply bind_Ret_inv in H as (fd1 & s3 & H3 & H).
  assert (forall s, ftlk s = false -> balanced others (refs s) (ofile (cur s)) -> fd_inv others s) as Hmk by done.
  destruct (Z.ltb_spec fd0 0) as [Hneg|Hpos].
  - apply fdalloc_fail in H2; [|done]. subst s2. injection H3 as <- <-. cbn [orb] in H. rewrite (proj2 (Z.leb_gt 0 fd0)) in H by done.
    apply bind_Ret_inv in H as ([] & s4 & [= <-] & H). apply bind_Ret_inv in H as ([] & s5 & H5 & H). apply bind_Ret_inv in H as ([] & s6 & H6 & H).
    injection H as _ <-. apply fileclose_counts in H5 as (L5 & C5 & n & Hn & _ & E5); [|done].
    apply fileclose_counts in H6 as (L6 & C6 & m & Hm & _ & E6); [|done]. split; [done|]. rewrite C6, C5, C1, E6, E5, E1. rewrite E5, E1 in Hm. rewrite E1 in Hn.
    rewrite list_lookup_insert_ne, list_lookup_insert_eq in Hn by done. injection Hn as <-.
    rewrite list_lookup_insert_ne, list_lookup_insert_eq in Hm by (done || by rewrite length_insert). injection Hm as <-. by rewrite insert_back2.
  - apply fdalloc_found in H2 as (_ & F2 & F3 & _ & _ & F4 & F5 & F6); [|done]. rewrite C1 in *.
    assert (refs s2 = refs s1) as Er by (unfold refs; by rewrite F2).
    assert (balanced others (<[rf := 1]> (refs s)) (<[Z.to_nat fd0 := Some rf]> (ofile (cur s)))) as Hb2 by (by apply balanced_new).
    destruct (Z.ltb_spec fd1 0) as [Hneg|Hpos1]; cbn [orb] in H.
    + apply fdalloc_fail in H3; [|done]. subst s3. rewrite (proj2 (Z.leb_le 0 fd0)) in H by done. cbn [when] in H.
      apply bind_Ret_inv in H as ([] & s4 & [= <-] & H). apply bind_Ret_inv in H as ([] & s5 & H5 & H). apply bind_Ret_inv in H as ([] & s6 & H6 & H).
      injection H as _ <-. apply fileclose_counts in H5 as (L5 & C5 & n & Hn & _ & E5); [|cbn; by rewrite F3].
      apply fileclose_counts in H6 as (L6 & C6 & m & Hm & _ & E6); [|done]. split; [done|]. cbn [cur set_cur ofile] in *.
      rewrite refs_set_cur in E5, Hn. rewrite Er in E5, Hn. rewrite C6, C5, F6, list_insert_insert_eq, list_insert_id by done. rewrite E6, E5, E1.
      rewrite E5, E1 in Hm. rewrite E1 in Hn.
      rewrite list_lookup_insert_ne, list_lookup_insert_eq in Hn by done. injection Hn as <-.
      rewrite list_lookup_insert_ne, list_lookup_insert_eq in Hm by (done || by rewrite length_insert). injection Hm as <-. by rewrite insert_back2.
    + injection H as _ <-. apply fdalloc_found in H3 as (_ & G2 & G3 & _ & _ & G4 & G5 & G6); [|done]. rewrite F6 in G4, G6.
      apply Hmk; [by rewrite G3, F3|]. replace (refs s3) with (refs s2) by (unfold refs; by rewrite G2). rewrite Er, E1, G6. apply balanced_new; [done| |done].
      by rewrite list_lookup_insert_ne.
Qed.

Lemma chdir_keeps path : keeps (sys_chdir dev_read mypid path).
Proof.
  unfold sys_chdir, k_begin_op, k_namei, k_ilock, k_ip, my, k_iunlockput, k_end_op, k_iunlock, k_iput.
  assert (forall ip, keeps (set_cwd (St := St) ip)) as Hcwd by (by intros ip s a s' Hl [= _ <-]). keeps.
Qed.

Lemma isdirempty_from_fs_only fuel dp : forall off, fs_only (isdirempty_from (St := St) dev_read fuel dp off).
Proof. induction fuel as [|fuel IH]; intros off; cbn [isdirempty_from]; unfold k_ip; fs_only. Qed.

Lemma link_fs_only old new : fs_only (sys_link dev_read dev_write mypid old new).
Proof.
  unfold sys_link, link_bad, k_begin_op, k_namei, k_nameiparent, k_ilock, k_ip, k_ip_upd, k_iupdate, k_dirlink, k_iput, my, k_iunlockput, k_end_op, k_iunlock.
  fs_only.
Qed.

Lemma unlink_fs_only path : fs_only (sys_unlink dev_read dev_write mypid path).
Proof.
  unfold sys_unlink, unlink_entry, unlink_bad, isdirempty, k_begin_op, k_nameiparent, k_dirlookup, k_ilock, k_ip, k_ip_upd, k_iupdate, k_writei, my, k_iunlockput, k_end_op.
  pose proof isdirempty_from_fs_only. fs_only.
Qed.

Lemma mk_fs_only path major minor : fs_only (sys_mkdir dev_read dev_write mypid path) /\
  fs_only (sys_mknod dev_read dev_write mypid path major minor).
Proof.
  unfold sys_mkdir, sys_mknod, k_begin_op, k_end_op, k_iunlockput. pose proof (create_fs_only dev_read dev_write mypid). split; fs_only.
Qed.

(** C19: The reference count of every entry of the file table is the number of
    descriptors that name it: dup, close, open, pipe and every other file-system
    call keep it so whatever they return, on the paths where the table, the
    descriptors or the pages run out too, so that no open file is recycled and
    none is leaked. *)
Theorem fd_refs_exact k s s' (Hinv : fd_inv others s) (Hrun : run k s = Ret tt s') : fd_inv others s'.
Proof.
  destruct k; cbn [run] in Hrun; apply bind_Ret_inv in Hrun as (r & s1 & H1 & [= <-]).
  - by eapply dup_inv.
  - by eapply close_inv.
  - by eapply open_inv.
  - by eapply pipe_inv.
  - eapply keeps_inv; [|exact Hinv|exact H1]. unfold sys_read. pose proof fileread_keeps. pose proof argfd_fs_only. keeps.
  - eapply keeps_inv; [|exact Hinv|exact H1]. unfold sys_write. pose proof filewrite_keeps. pose proof argfd_fs_only. keeps.
  - eapply keeps_inv; [|exact Hinv|exact H1]. unfold sys_fstat, filestat, f_get. pose proof argfd_fs_only. keeps.
  - eapply keeps_inv; [apply keeps_fs, link_fs_only|exact Hinv|exact H1].
  - eapply keeps_inv; [apply keeps_fs, unlink_fs_only|exact Hinv|exact H1].
  - eapply keeps_inv; [apply keeps_fs; exact (proj1 (mk_fs_only path None None))|exact Hinv|exact H1].
  - eapply keeps_inv; [apply keeps_fs; exact (proj2 (mk_fs_only path major minor))|exact Hinv|exact H1].
  - eapply keeps_inv; [apply chdir_keeps|exact Hinv|exact H1].
Qed.
End inv.
End calls.

Lemma perm_state_inv mode id : fd_inv (λ _, 0) (perm_state mode id).
Proof.
  split; [done|]. constructor; [done| |].
  - intros f n Hn. unfold refs in Hn. cbn [ftab perm_state] in Hn. rewrite fmap_replicate in Hn. apply lookup_replicate in Hn as [-> _]. reflexivity.
  - intros k f Hk. cbn [cur perm_state ofile] in Hk. apply lookup_replicate in Hk as [? _]. done.
Qed.

#[local] Abbreviation demo_run :=
  (run (BLi := bio_layer 1000 1) (λ _, None) (λ _, None) 1 (COpen (Some (bytes_of "/f")) (Some 0)) (perm_state 4 guest)).

Lemma fd_refs_exact_witness :
  exists s', demo_run = Ret tt s' /\ nrefs (ofile (cur s')) 0 = 1 /\ (forall n, refs s' !! 0%nat = Some n -> n = 1).
Proof.
  assert (match demo_run with Ret _ s' => nrefs (ofile (cur s')) 0 =? 1 | _ => false end = true) as H by (vm_compute; reflexivity).
  destruct demo_run as [[] s'|m|c s'] eqn:E; try discriminate H. apply Z.eqb_eq in H.
  exists s'. split; [reflexivity|]. split; [exact H|]. intros n Hn.
  destruct (fd_refs_exact (BLi := bio_layer 1000 1) (λ _, None) (λ _, None) 1 (λ _, 0) ltac:(lia) (COpen (Some (bytes_of "/f")) (Some 0))
    (perm_state 4 guest) s' (perm_state_inv 4 guest) E) as [_ [_ Hr _]].
  rewrite (Hr 0%nat n Hn). lia.
Defined.
