(* ===== verification/Accounts.v ===== *)
(** * User accounts (addUser, accountcheck)

    The table of ten names and passwords: who may log in after addUser, and
    whose account it takes. *)

From S2P Require Import Prelude CString Sleeplock Block BlockLayer Bio Log LogProps FsDefs InodeProps FsRules Pipe FileDefs SysfileDefs SysfileProps.

(** ** Fields of the table *)

Record ut_wf (u : utable) : Prop := {
  uw_len : length (u_user u) = 320%nat;
  uw_bytes : is_bytes (u_user u);
  uw_online : length (u_online u) = NUM_USER
}.

Definition name_of (u : utable) (i : nat) : list Z := cstrn 16 (user_field u i 0).
Definition pw_of (u : utable) (i : nat) : list Z := cstrn 16 (user_field u i 1).

Lemma field_bytes u i k : ut_wf u -> is_bytes (user_field u i k).
Proof. intros [_ Hb _]. unfold user_field, slice. by apply Forall_take, Forall_drop. Qed.

Lemma field_length u i k : ut_wf u -> (i < NUM_USER)%nat -> (k < 2)%nat -> length (user_field u i k) = 16%nat.
Proof. intros [Hl _ _] Hi Hk. unfold user_field, slice, user_off, NUM_USER in *. rewrite length_take, length_drop. lia. Qed.

Lemma account_matches_spec u id pw i : ut_wf u -> is_bytes id -> is_bytes pw ->
  account_matches u id pw i = true <-> name_of u i = cstrn 16 id /\ pw_of u i = cstrn 16 pw.
Proof.
  intros Hu Hid Hpw. unfold account_matches, name_of, pw_of. rewrite andb_true_iff, !Z.eqb_eq, !strncmp_zero_iff by (try done; by apply field_bytes). done.
Qed.

Lemma set_field_same u i k v : ut_wf u -> (i < NUM_USER)%nat -> (k < 2)%nat -> length v = 16%nat -> user_field (set_field i k v u) i k = v.
Proof.
  intros [Hl _ _] Hi Hk Hv. unfold user_field, set_field. cbn [u_user]. apply slice_splice_same'; [done|].
  unfold user_off, NUM_USER in *. lia.
Qed.

Lemma set_field_other u i k v j m : ut_wf u -> (i < NUM_USER)%nat -> (k < 2)%nat -> (m < 2)%nat -> length v = 16%nat -> (i <> j \/ k <> m) ->
  user_field (set_field i k v u) j m = user_field u j m.
Proof.
  intros [Hl _ _] Hi Hk Hm Hv Hne. unfold user_field, set_field. cbn [u_user].
  apply slice_splice_other; rewrite Hv; unfold user_off, NUM_USER in *; lia.
Qed.

Lemma set_field_wf u i k v : ut_wf u -> (i < NUM_USER)%nat -> (k < 2)%nat -> length v = 16%nat -> is_bytes v -> ut_wf (set_field i k v u).
Proof.
  intros [Hl Hb Ho] Hi Hk Hv Hbv. constructor; cbn; [by rewrite length_splice| |done].
  rewrite splice_app by (rewrite Hl, Hv; unfold user_off, NUM_USER in *; lia).
  apply Forall_app. split; [by apply Forall_take|]. apply Forall_app. split; [done|by apply Forall_drop].
Qed.

(** ** What addUser does to the table *)

Definition add_account (i : nat) (name pw : list Z) (u : utable) : utable := set_online i 1 (cpy_field i 1 pw (cpy_field i 0 name u)).

Lemma cpy_field_spec u i k v : ut_wf u -> (i < NUM_USER)%nat -> (k < 2)%nat -> is_bytes v ->
  ut_wf (cpy_field i k v u) /\ cstrn 16 (user_field (cpy_field i k v u) i k) = cstrn 16 v /\
  (forall j m, (m < 2)%nat -> i <> j \/ k <> m -> user_field (cpy_field i k v u) j m = user_field u j m).
Proof.
  intros Hu Hi Hk Hv. pose proof (field_length u i k Hu Hi Hk) as Hl.
  assert (length (strncpy (user_field u i k) v 16) = 16%nat) as Hl' by (by rewrite length_strncpy).
  unfold cpy_field. split; [|split].
  - apply set_field_wf; try done. apply is_bytes_strncpy; [by apply field_bytes|done].
  - rewrite set_field_same by done. apply cstrn_strncpy. lia.
  - intros j m Hm Hne. by apply set_field_other.
Qed.

Lemma add_account_spec u i name pw : ut_wf u -> (i < NUM_USER)%nat -> is_bytes name -> is_bytes pw ->
  ut_wf (add_account i name pw u) /\ name_of (add_account i name pw u) i = cstrn 16 name /\ pw_of (add_account i name pw u) i = cstrn 16 pw /\
  (forall j, j <> i -> name_of (add_account i name pw u) j = name_of u j /\ pw_of (add_account i name pw u) j = pw_of u j).
Proof.
  intros Hu Hi Hn Hp. destruct (cpy_field_spec u i 0 name Hu Hi ltac:(lia) Hn) as (W1 & N1 & F1).
  destruct (cpy_field_spec (cpy_field i 0 name u) i 1 pw W1 Hi ltac:(lia) Hp) as (W2 & N2 & F2).
  unfold add_account, name_of, pw_of. change (user_field (set_online i 1 ?x)) with (user_field x).
  split_and!.
  - destruct W2 as [A B C]. constructor; [done|done|]. cbn. by rewrite length_insert.
  - rewrite F2 by lia. done.
  - done.
  - intros j Hj. rewrite !F2, !F1 by lia. done.
Qed.

Section accounts.
Context {St : Type} `{BLi : BlockLayer St}.
Context (dev_read : Z -> option (nat -> Z -> M (fsst St) (Z * list Z))) (dev_write : Z -> option (nat -> list Z -> Z -> M (fsst St) Z)).
Context (mypid : Z).

Lemma first_slot_Some f i : first_slot f = Some i -> (i < NUM_USER)%nat /\ f i = true /\ forall j, (j < i)%nat -> f j = false.
Proof.
  unfold first_slot. intros ([a b] & Hf & ->)%fmap_Some. apply list_find_Some in Hf as (Ha & Hb & Hbefore). cbn [snd].
  apply lookup_seq in Ha as [-> Hlt]. split_and!; [done|done|]. intros j Hj. apply not_true_iff_false.
  apply (Hbefore j j); [|done]. rewrite lookup_seq_lt by lia. done.
Qed.

Lemma first_slot_None f : first_slot f = None <-> forall i, (i < NUM_USER)%nat -> f i = false.
Proof.
  unfold first_slot. rewrite fmap_None, list_find_None, Forall_forall. split; intros H i Hi.
  - apply not_true_iff_false, H, elem_of_seq. lia.
  - apply elem_of_seq in Hi. rewrite H by lia. done.
Qed.

(** The whole of addUser, as far as the table is concerned. *)
Lemma addUser_table name pw s s' : addUser dev_read dev_write mypid name pw s = Ret 0 s' ->
  utlk s = false /\ utlk s' = false /\ strncmp (me_id (cur s)) root_name 16 = 0 /\
  (forall j, (j < NUM_USER)%nat -> strncmp (user_field (ut s) j 0) name 16 <> 0) /\
  exists i, first_slot (λ i, default 0 (u_online (ut s) !! i) =? 0) = Some i /\ ut s' = add_account i name pw (ut s).
Proof.
  unfold addUser. intros H. apply bind_Ret_inv in H as (c & s1 & H1 & H). injection H1 as <- <-.
  destruct (Z.eqb_spec (strncmp (me_id (cur s)) root_name 16) 0) as [Hroot|]; cbn [negb] in H; [|discriminate H].
  apply bind_Ret_inv in H as ([] & s1 & H1 & H). unfold acquire_ut, mbind, M_bind, get, put in H1. destruct (utlk s) eqn:El; [discriminate H1|].
  injection H1 as <-. apply bind_Ret_inv in H as (s1 & s2 & H2 & H). injection H2 as <- <-. cbn [ut] in H.
  destruct (first_slot (λ i, strncmp _ _ _ =? 0)) as [j|] eqn:Ej; [by apply bind_Ret_inv in H as (? & ? & _ & [=])|].
  destruct (first_slot (λ i, default 0 _ =? 0)) as [i|] eqn:Ei; [|by apply bind_Ret_inv in H as (? & ? & _ & [=])].
  apply bind_Ret_inv in H as ([] & s3 & H3 & H). injection H3 as <-. apply bind_Ret_inv in H as ([] & s4 & H4 & H).
  unfold release_ut, mbind, M_bind, get, put in H4. cbn in H4. injection H4 as <-.
  match type of H with ?m ?t = _ => assert (fs_only m) as Hm end.
  { unfold k_begin_op, ilock_users, k_ilock, k_writei, k_iunlock, k_namei, my, k_end_op, k_dirlookup, adduser_dir, k_ip, k_ialloc, k_ip_upd, k_iupdate, k_dirlink, k_iunlockput, k_ilock.
    assert (fs_only (get (S := kst St))) as Hget by (by intros t a t' [= <- <-]). fs_only. }
  destruct (Hm _ _ _ H) as (_ & _ & _ & U1 & U2 & _). cbn in U1, U2. split_and!; try done.
  - intros j Hj. apply first_slot_None with (i := j) in Ej; [|done]. by apply Z.eqb_neq in Ej.
  - exists i. done.
Qed.

Lemma accountcheck_run id pw (s : kst St) : utlk s = false -> ut_wf (ut s) -> is_bytes id -> is_bytes pw ->
  (exists s', accountcheck id pw s = Ret 0 s' /\ exists i, (i < NUM_USER)%nat /\ name_of (ut s) i = cstrn 16 id /\ pw_of (ut s) i = cstrn 16 pw) \/
  (exists s', accountcheck id pw s = Ret (-1) s' /\ forall i, (i < NUM_USER)%nat -> name_of (ut s) i = cstrn 16 id -> pw_of (ut s) i <> cstrn 16 pw).
Proof.
  intros Hl Hw Hid Hpw. unfold accountcheck, acquire_ut, release_ut, upd_ut, mbind, M_bind, get, put, modify, mret, M_ret. rewrite Hl. cbn [ut].
  destruct (first_slot _) as [i|] eqn:E; cbn.
  - left. eexists. split; [done|]. apply first_slot_Some in E as (Hi & Hm & _). apply account_matches_spec in Hm as [? ?]; [|done..]. by exists i.
  - right. eexists. split; [done|]. intros i Hi Hn Hp. pose proof (proj1 (first_slot_None _) E i Hi) as Hf.
    by rewrite (proj2 (account_matches_spec _ id pw i Hw Hid Hpw)) in Hf.
Qed.

(** What addUser leaves in the table: one slot with the name, which was not in use. *)
Lemma adduser_account name pw s s' : addUser dev_read dev_write mypid name pw s = Ret 0 s' -> ut_wf (ut s) -> is_bytes name -> is_bytes pw ->
  utlk s' = false /\ ut_wf (ut s') /\ exists i, (i < NUM_USER)%nat /\ default 0 (u_online (ut s) !! i) = 0 /\
    name_of (ut s') i = cstrn 16 name /\ pw_of (ut s') i = cstrn 16 pw /\ (forall j, (j < NUM_USER)%nat -> name_of (ut s') j = cstrn 16 name -> j = i) /\
    forall j, j <> i -> name_of (ut s') j = name_of (ut s) j /\ pw_of (ut s') j = pw_of (ut s) j.
Proof.
  intros Hrun Hw Hn Hp. apply addUser_table in Hrun as (_ & Hl & _ & Hno & i & Hi & Hu). apply first_slot_Some in Hi as (Hi & Hz%Z.eqb_eq & _).
  destruct (add_account_spec (ut s) i name pw Hw Hi Hn Hp) as (W & N & P & F). rewrite <-Hu in *. split; [done|]. split; [done|]. exists i. split_and!; try done.
  intros j Hj Hnj. destruct (decide (j = i)) as [|Hne]; [done|]. destruct (F j Hne) as [E _]. rewrite E in Hnj.
  destruct (Hno j Hj). apply strncmp_zero_iff; [by apply field_bytes|done|exact Hnj].
Qed.

(** After root added a user, accountcheck lets that name in with the given
    password, compared up to 16 bytes, and with no other; the accounts in the
    other slots keep their names and passwords. *)
Theorem adduser_login name pw s s' (Hrun : addUser dev_read dev_write mypid name pw s = Ret 0 s')
  (Hw : ut_wf (ut s)) (Hn : is_bytes name) (Hp : is_bytes pw) :
  (forall pw', is_bytes pw' -> exists s'', accountcheck name pw' s' = Ret (if decide (cstrn 16 pw' = cstrn 16 pw) then 0 else -1) s'') /\
  exists i, (i < NUM_USER)%nat /\ default 0 (u_online (ut s) !! i) = 0 /\
    forall j, j <> i -> name_of (ut s') j = name_of (ut s) j /\ pw_of (ut s') j = pw_of (ut s) j.
Proof.
  destruct (adduser_account name pw s s' Hrun Hw Hn Hp) as (Hl & W & i & Hi & Hz & N & P & Huniq & F).
  split; [|by exists i]. intros pw' Hp'. destruct (accountcheck_run name pw' s' Hl W Hn Hp') as [(s'' & Hr & j & Hj & H1 & H2)|(s'' & Hr & Hbad)].
  - exists s''. rewrite Hr. rewrite (Huniq j Hj H1), P in H2. by rewrite decide_True.
  - exists s''. rewrite Hr. rewrite decide_False; [done|]. intros E. apply (Hbad i Hi N). by rewrite P.
Qed.

(** addUser takes the first slot whose user has not logged in since boot, even if
    it holds an account: the old account is gone, and its user is refused
    whatever the password. *)
Theorem adduser_overwrites_offline name pw s s' i old (Hrun : addUser dev_read dev_write mypid name pw s = Ret 0 s')
  (Hw : ut_wf (ut s)) (Hn : is_bytes name) (Hp : is_bytes pw) (Hold : is_bytes old)
  (Hi : first_slot (λ i, default 0 (u_online (ut s) !! i) =? 0) = Some i)
  (Hacc : forall j, name_of (ut s) j = cstrn 16 old -> j = i) (Hne : cstrn 16 old <> cstrn 16 name) :
  forall pw', is_bytes pw' -> exists s'', accountcheck old pw' s' = Ret (-1) s''.
Proof.
  apply addUser_table in Hrun as (_ & Hl & _ & _ & i' & Hi' & Hu). rewrite Hi in Hi'. injection Hi' as <-.
  apply first_slot_Some in Hi as (Hi & _ & _). destruct (add_account_spec (ut s) i name pw Hw Hi Hn Hp) as (W & N & P & F). rewrite <-Hu in *.
  intros pw' Hp'. destruct (accountcheck_run old pw' s' Hl W Hold Hp') as [(s'' & Hr & j & Hj & H1 & H2)|(s'' & Hr & _)]; [|by exists s''].
  destruct (decide (j = i)) as [->|Hji]; [congruence|]. destruct (F j Hji) as [E _]. rewrite E in H1. by apply Hacc in H1.
Qed.
End accounts.

(** ** A disk with the root directory and the account file; two accounts, root's
    and another, of which only root is logged in *)
Definition users_file : inode :=
  mkInode 1 2 0 initsleeplock false T_FILE 0 0 1 320 (60 :: replicate 7 0) (root_name ++ replicate 12 0) 52.
Definition acc_users : list Z :=
  bytes_of "root" ++ replicate 12 0 ++ bytes_of "0000" ++ replicate 12 0 ++ bytes_of "ann" ++ replicate 13 0 ++ bytes_of "pw" ++ replicate 14 0 ++ replicate 256 0.
Definition acc_disk : Z -> block :=
  upd (upd (upd (upd (λ _, zero_block) 32 (dip_store (dip_off 2) users_file (dip_store (dip_off 1) root_dir zero_block)))
    59 (mk_dirent 2 (bytes_of "useraccount") ++ replicate 496 0)) 60 (acc_users ++ replicate 192 0))
    58 (replicate 7 255 ++ [31] ++ replicate 504 0).
Definition acc_state : kst bcache :=
  mkK (mkFs (mkLst (mkLog 2 30 0 false []) false (binit acc_disk)) perm_sb
      (set_i_ref 1 users_file :: set_i_valid true (set_i_ref 1 root_dir) :: replicate 48 inode0) false)
    (replicate NFILE file0) false ∅ (mkUt (Some 0%nat) acc_users (1 :: replicate 9 0)) false
    (mkMe (replicate NOFILE None) 0 (root_name ++ replicate 12 0) false).

#[local] Abbreviation add_bob := (addUser (BL := bio_layer 1000 1) (λ _, None) (λ _, None) 1 (bytes_of "bob") (bytes_of "x") acc_state).

Lemma add_bob_ok : match add_bob with Ret r _ => r =? 0 | _ => false end = true.
Proof. vm_compute. reflexivity. Qed.

Lemma acc_state_wf : ut_wf (ut acc_state).
Proof.
  constructor; [done| |done]. unfold is_bytes. apply Forall_forall. intros x Hx.
  assert (forallb (λ c, (0 <=? c) && (c <? 256)) acc_users = true) as H by (vm_compute; reflexivity).
  rewrite forallb_forall in H. apply list_elem_of_In in Hx. specialize (H x Hx). lia.
Qed.

Lemma adduser_login_witness :
  exists s', add_bob = Ret 0 s' /\ (exists s'', accountcheck (bytes_of "bob") (bytes_of "x") s' = Ret 0 s'') /\
    exists s'', accountcheck (bytes_of "bob") (bytes_of "y") s' = Ret (-1) s''.
Proof.
  pose proof add_bob_ok as H. destruct add_bob as [r s'|m|c s'] eqn:E; [|discriminate H|discriminate H]. apply Z.eqb_eq in H. subst r.
  exists s'. split; [reflexivity|].
  destruct (adduser_login (BLi := bio_layer 1000 1) (λ _, None) (λ _, None) 1 (bytes_of "bob") (bytes_of "x") acc_state s' E acc_state_wf
    ltac:(repeat constructor; lia) ltac:(repeat constructor; lia)) as [H _].
  split; [exact (H (bytes_of "x") ltac:(repeat constructor; lia))|exact (H (bytes_of "y") ltac:(repeat constructor; lia))].
Defined.

Lemma acc_state_ann j : name_of (ut acc_state) j = cstrn 16 (bytes_of "ann") -> j = 1%nat.
Proof.
  destruct (decide (j < 10)%nat) as [Hj|Hj].
  - do 10 (destruct j as [|j]; [vm_compute; congruence|]). lia.
  - intros H. unfold name_of, user_field, slice in H. rewrite drop_ge in H; [by vm_compute in H|]. unfold user_off. change (length (u_user (ut acc_state))) with 320%nat. lia.
Qed.

Lemma adduser_overwrites_offline_witness :
  exists s', add_bob = Ret 0 s' /\ exists s'', accountcheck (bytes_of "ann") (bytes_of "pw") s' = Ret (-1) s''.
Proof.
  pose proof add_bob_ok as H. destruct add_bob as [r s'|m|c s'] eqn:E; [|discriminate H|discriminate H]. apply Z.eqb_eq in H. subst r.
  exists s'. split; [reflexivity|].
  apply (adduser_overwrites_offline (BLi := bio_layer 1000 1) (λ _, None) (λ _, None) 1 (bytes_of "bob") (bytes_of "x") acc_state s' 1
    (bytes_of "ann") E acc_state_wf);
    [repeat constructor; lia|repeat constructor; lia|repeat constructor; lia|vm_compute; reflexivity|exact acc_state_ann|vm_compute; congruence
    |repeat constructor; lia].
Defined.
