(* ===== verification/Grep.v ===== *)
(** * grep: the regular expression matcher and the line loop (grep.c)

    A pattern is read as a list of items; the matcher accepts a text exactly
    when some part of it, at the start for a pattern that begins with ^, is
    made of pieces that fit the items. *)

From S2P Require Import Prelude CString.

Definition STAR : Z := 42.
Definition DOT : Z := 46.
Definition DOLLAR : Z := 36.
Definition CARET : Z := 94.
Definition NEWLINE : Z := 10.

(** ** The matcher; strings without their terminating zero *)

(** matchstar, given what matches the rest. *)
Fixpoint matchstar (here : list Z -> bool) (c : Z) (text : list Z) : bool :=
  if here text then true
  else match text with
       | [] => false
       | x :: text' => if (x =? c) || (c =? DOT) then matchstar here c text' else false
       end.

Fixpoint matchhere (re text : list Z) : bool :=
  match re with
  | [] => true
  | c :: re1 =>
      match re1 with
      | d :: re2 =>
          if d =? STAR then matchstar (matchhere re2) c text
          else match text with
               | x :: text' => if (c =? DOT) || (c =? x) then matchhere re1 text' else false
               | [] => false
               end
      | [] =>
          if c =? DOLLAR then match text with [] => true | _ => false end
          else match text with
               | x :: text' => if (c =? DOT) || (c =? x) then matchhere re1 text' else false
               | [] => false
               end
      end
  end.

Fixpoint match_from (re text : list Z) : bool :=
  if matchhere re text then true else match text with [] => false | _ :: text' => match_from re text' end.

Definition grep_match (re text : list Z) : bool :=
  match re with
  | c :: re' => if c =? CARET then matchhere re' text else match_from re text
  | [] => match_from re text
  end.

(** ** What patterns mean *)

Inductive item := One (c : Z) | Many (c : Z) | AtEnd.

Fixpoint items (re : list Z) : list item :=
  match re with
  | [] => []
  | c :: re1 =>
      match re1 with
      | d :: re2 => if d =? STAR then Many c :: items re2 else One c :: items re1
      | [] => if c =? DOLLAR then [AtEnd] else [One c]
      end
  end.

Definition fits (c x : Z) : Prop := c = DOT \/ x = c.

(** [mid] is made of pieces for the items, and [post] follows it. *)
Inductive fit : list item -> list Z -> list Z -> Prop :=
| fit_nil post : fit [] [] post
| fit_one c x its mid post : fits c x -> fit its mid post -> fit (One c :: its) (x :: mid) post
| fit_many c run its mid post : Forall (fits c) run -> fit its mid post -> fit (Many c :: its) (run ++ mid) post
| fit_end : fit [AtEnd] [] [].

Lemma fits_spec c x : (c =? DOT) || (c =? x) = true <-> fits c x.
Proof. unfold fits. rewrite orb_true_iff, !Z.eqb_eq. naive_solver. Qed.

(** The start of [text] fits [its]. *)
Definition starts (its : list item) (text : list Z) : Prop := exists mid post, text = mid ++ post /\ fit its mid post.

Lemma starts_one c its text : starts (One c :: its) text <-> exists x text', text = x :: text' /\ fits c x /\ starts its text'.
Proof.
  split.
  - intros (mid & post & -> & Hf). inversion Hf; subst. eexists _, _. split; [done|]. split; [done|]. by eexists _, _.
  - intros (x & text' & -> & Hx & mid & post & -> & Hf). exists (x :: mid), post. split; [done|]. by constructor.
Qed.

Lemma starts_many c its text : starts (Many c :: its) text <-> exists run rest, text = run ++ rest /\ Forall (fits c) run /\ starts its rest.
Proof.
  split.
  - intros (mid & post & -> & Hf). inversion Hf; subst. eexists _, _. rewrite <-app_assoc. split; [done|]. split; [done|]. by eexists _, _.
  - intros (run & rest & -> & Hr & mid & post & -> & Hf). exists (run ++ mid), post. rewrite app_assoc. split; [done|]. by constructor.
Qed.

Lemma matchstar_spec here c text : matchstar here c text = true <-> exists run rest, (text = run ++ rest) /\ Forall (fits c) run /\ here rest = true.
Proof.
  induction text as [|x text IH]; cbn [matchstar].
  - destruct (here []) eqn:E; (split; [intros Ht|]); [by exists [], []|done|done|].
    intros (run & rest & [-> ->]%eq_sym%app_nil & _ & H). congruence.
  - destruct (here (x :: text)) eqn:E; [split; [intros _; by exists [], (x :: text)|done]|].
    rewrite (orb_comm (x =? c)), (Z.eqb_sym x c). destruct ((c =? DOT) || (c =? x)) eqn:Ex.
    + apply fits_spec in Ex. rewrite IH. split.
      * intros (run & rest & -> & Hr & H). exists (x :: run), rest. split; [done|]. split; [by constructor|done].
      * intros ([|y run] & rest & Et & Hr & H); [cbn in Et; congruence|]. injection Et as -> ->. apply Forall_cons in Hr as [_ Hr]. by exists run, rest.
    + split; [done|]. intros ([|y run] & rest & Et & Hr & H); [cbn in Et; congruence|]. injection Et as -> ->.
      apply Forall_cons in Hr as [Hy _]. apply fits_spec in Hy. congruence.
Qed.

Lemma starts_nil its : starts its [] -> forall c its', its <> One c :: its'.
Proof. intros (mid & post & [-> ->]%eq_sym%app_nil & Hf) c its' ->. inversion Hf. Qed.

Lemma one_step c its text (k : list Z -> bool) : (forall t, k t = true <-> starts its t) -> match text with x :: text' => if (c =? DOT) || (c =? x) then k text' else false | [] => false end = true <-> starts (One c :: its) text.
Proof.
  intros Hk. destruct text as [|x text]; [split; [done|]; intros H; by destruct (starts_nil _ H c its)|].
  rewrite starts_one. destruct ((c =? DOT) || (c =? x)) eqn:E.
  - apply fits_spec in E. rewrite Hk. naive_solver.
  - split; [done|]. intros (y & t & [= <- <-] & Hy & _). apply fits_spec in Hy. congruence.
Qed.

Lemma starts_end text : starts [AtEnd] text <-> text = [].
Proof.
  split; [intros (mid & post & -> & Hf); by inversion Hf|]. intros ->. exists [], []. split; [done|constructor].
Qed.

Lemma starts_empty text : starts [] text.
Proof. exists [], text. split; [done|constructor]. Qed.

Lemma matchhere_spec re text : matchhere re text = true <-> starts (items re) text.
Proof.
  revert text. induction re as [re IH] using (induction_ltof1 _ (@length Z)). unfold ltof in IH. intros text.
  destruct re as [|c [|d re]].
  - split; [intros _; apply starts_empty|done].
  - cbn [matchhere items]. destruct (c =? DOLLAR); [rewrite starts_end; by destruct text|].
    apply (one_step c [] text (fun _ => true)). intros t. split; [intros _; apply starts_empty|done].
  - change (items (c :: d :: re)) with (if d =? STAR then Many c :: items re else One c :: items (d :: re)).
    change (matchhere (c :: d :: re) text) with (if d =? STAR then matchstar (matchhere re) c text
      else match text with x :: text' => if (c =? DOT) || (c =? x) then matchhere (d :: re) text' else false | [] => false end).
    destruct (d =? STAR).
    + rewrite matchstar_spec, starts_many. assert (IH' : forall t, matchhere re t = true <-> starts (items re) t) by (intros t; apply IH; cbn; lia).
      setoid_rewrite IH'. done.
    + apply one_step. intros t. apply IH. cbn. lia.
Qed.

Lemma match_from_spec re text : match_from re text = true <-> exists pre mid post, text = pre ++ mid ++ post /\ fit (items re) mid post.
Proof.
  transitivity (exists pre rest, text = pre ++ rest /\ starts (items re) rest); [|unfold starts; naive_solver].
  induction text as [|x text IH]; cbn [match_from]; destruct (matchhere re _) eqn:E.
  - apply matchhere_spec in E. split; [intros _; by exists [], []|done].
  - split; [done|]. intros (pre & rest & [-> ->]%eq_sym%app_nil & H). apply matchhere_spec in H. congruence.
  - apply matchhere_spec in E. split; [intros _; by exists [], (x :: text)|done].
  - rewrite IH. split; [intros (pre & rest & -> & H); by exists (x :: pre), rest|].
    intros ([|y pre] & rest & Et & H); [cbn in Et; subst rest; apply matchhere_spec in H; congruence|]. injection Et as -> ->. by exists pre, rest.
Qed.

(** C35: grep's backtracking matcher decides its pattern language: it accepts a
    text exactly when the text has a part that splits into pieces fitting the
    pattern's items (a character, the dot, a starred character, a closing
    dollar), and that part is the text's beginning when the pattern starts
    with a caret. *)
Theorem grep_match_exact re text : grep_match re text = true <->
  exists pre mid post, text = pre ++ mid ++ post /\
    match re with
    | c :: re' => if c =? CARET then pre = [] /\ fit (items re') mid post else fit (items re) mid post
    | [] => True
    end.
Proof.
  destruct re as [|c re]; cbn [grep_match].
  - rewrite match_from_spec. split; [naive_solver|]. intros _. exists [], [], text. split; [done|constructor].
  - destruct (c =? CARET); [|apply match_from_spec]. rewrite matchhere_spec. split; [intros (mid & post & -> & H); by exists [], mid, post|].
    intros (pre & mid & post & -> & -> & H). by exists mid, post.
Qed.

(** ** The line loop *)

Definition BUFSZ : nat := 1024.

(** read(fd, _, k) of a file or pipe whose data come as the given chunks. *)
Definition read_chunk (k : nat) (cs : list (list Z)) : list Z * list (list Z) :=
  match cs with
  | [] => ([], [])
  | c :: cs' => (take k c, match drop k c with [] => cs' | r => r :: cs' end)
  end.

(** The inner loop from [p]: what it writes and where it leaves p. *)
Fixpoint grep_lines (fuel : nat) (pattern p : list Z) : list Z * list Z :=
  match fuel with
  | O => ([], p)
  | S f =>
      match strchr p NEWLINE with
      | None => ([], p)
      | Some q =>
          let line := take q p in
          let '(out, p') := grep_lines f pattern (drop (S q) p) in
          ((if grep_match pattern line then line ++ [NEWLINE] else []) ++ out, p')
      end
  end.

(** The outer loop; [kept] is buf[0..m). *)
Fixpoint grep_loop (fuel : nat) (pattern kept : list Z) (cs : list (list Z)) : list Z :=
  match fuel with
  | O => []
  | S f =>
      let '(c, cs') := read_chunk (BUFSZ - length kept - 1) cs in
      match c with
      | [] => []
      | _ =>
          let buf := kept ++ c in
          let '(out, p) := grep_lines (length buf) pattern buf in
          let kept' := if (length p =? length buf)%nat then [] else p in
          out ++ grep_loop f pattern kept' cs'
      end
  end.

(** grep; every turn but the last reads at least one byte. *)
Definition grep (pattern : list Z) (cs : list (list Z)) : list Z := grep_loop (S (length (concat cs))) pattern [] cs.

(** ** The lines of a text *)

(** The terminated lines of [acc ++ text], where [acc] holds no newline. *)
Fixpoint lines (acc text : list Z) : list (list Z) :=
  match text with
  | [] => []
  | x :: t => if x =? NEWLINE then acc :: lines [] t else lines (acc ++ [x]) t
  end.

(** The matching lines, each with its newline. *)
Definition selected (pattern text : list Z) : list Z :=
  concat (map (fun l => l ++ [NEWLINE]) (filter (fun l => grep_match pattern l = true) (lines [] text))).

Lemma lines_app acc a b : NEWLINE ∉ a -> lines acc (a ++ b) = lines (acc ++ a) b.
Proof.
  revert acc. induction a as [|x a IH]; intros acc Ha; [by rewrite app_nil_r|]. apply not_elem_of_cons in Ha as [Hx Ha].
  cbn [app lines]. destruct (Z.eqb_spec x NEWLINE); [congruence|]. rewrite IH by done. by rewrite <-app_assoc.
Qed.

Lemma lines_none a : NEWLINE ∉ a -> lines [] a = [].
Proof. intros Ha. rewrite <-(app_nil_r a), lines_app by done. done. Qed.

Lemma selected_cons pattern line t : NEWLINE ∉ line -> selected pattern (line ++ NEWLINE :: t) = (if grep_match pattern line then line ++ [NEWLINE] else []) ++ selected pattern t.
Proof.
  intros Hl. unfold selected. rewrite lines_app by done. cbn [lines app]. rewrite Z.eqb_refl.
  destruct (grep_match pattern line) eqn:E; [rewrite filter_cons_True by done|rewrite filter_cons_False by congruence]; done.
Qed.

Lemma selected_none pattern a : NEWLINE ∉ a -> selected pattern a = [].
Proof. intros Ha. unfold selected. by rewrite lines_none. Qed.

Lemma strchr_split p c q : strchr p c = Some q -> p = take q p ++ c :: drop (S q) p /\ (c ∉ take q p).
Proof.
  revert q. induction p as [|x p IH]; intros q; [done|]. cbn [strchr]. destruct (x =? 0); [done|].
  destruct (Z.eqb_spec x c) as [->|Hx]; [intros [= <-]; split; [done|apply not_elem_of_nil]|].
  intros (q' & E & ->)%fmap_Some. destruct (IH q' E) as [Ep Hc]. cbn [take drop app]. split; [by rewrite Ep at 1|]. apply not_elem_of_cons. done.
Qed.

Lemma strchr_absent p c : 0 ∉ p -> strchr p c = None -> c ∉ p.
Proof.
  induction p as [|x p IH]; intros H0; [intros _; apply not_elem_of_nil|]. apply not_elem_of_cons in H0 as [Hx H0]. cbn [strchr].
  destruct (Z.eqb_spec x 0); [congruence|]. destruct (Z.eqb_spec x c) as [|Hc]; [done|].
  intros E%fmap_None. apply not_elem_of_cons. split; [congruence|by apply IH].
Qed.

Lemma grep_lines_spec fuel pattern p : (length p <= fuel)%nat -> 0 ∉ p ->
  exists x rest, p = x ++ rest /\ (NEWLINE ∉ rest) /\ grep_lines fuel pattern p = (selected pattern p, rest) /\
    forall r, selected pattern (p ++ r) = selected pattern p ++ selected pattern (rest ++ r).
Proof.
  revert p. induction fuel as [|f IH]; intros p Hf H0.
  { destruct p; [|cbn in Hf; lia]. exists [], []. repeat split; [apply not_elem_of_nil]. }
  cbn [grep_lines]. destruct (strchr p NEWLINE) as [q|] eqn:E.
  - destruct (strchr_split _ _ _ E) as [Ep0 Hl]. clear E. set (line := take q p) in *. set (p' := drop (S q) p) in *. clearbody line p'. subst p. rewrite length_app in Hf. cbn in Hf. apply not_elem_of_app in H0 as [_ [_ H0]%not_elem_of_cons].
    destruct (IH p' ltac:(lia) H0) as (x & rest & Ep & Hr & Eg & Hs). exists (line ++ NEWLINE :: x), rest.
    split; [rewrite Ep at 1; by rewrite <-app_assoc|]. split; [done|]. rewrite Eg, selected_cons by done. split; [done|].
    intros r. rewrite <-app_assoc. cbn [app]. rewrite selected_cons, Hs by done. by rewrite app_assoc.
  - pose proof (strchr_absent _ _ H0 E) as Hn. exists [], p. rewrite (selected_none _ p Hn). done.
Qed.

(** No stretch without newlines fills the buffer. *)
Definition short_lines (text : list Z) : Prop := forall a b c, text = a ++ b ++ c -> NEWLINE ∉ b -> (length b < BUFSZ - 1)%nat.

Lemma short_tail a b : short_lines (a ++ b) -> short_lines b.
Proof. intros H x y z ->. apply (H (a ++ x) y z). by rewrite app_assoc. Qed.

Lemma grep_loop_file fuel pattern kept r : (length r < fuel)%nat -> (0 ∉ kept ++ r) -> NEWLINE ∉ kept -> short_lines (kept ++ r) ->
  grep_loop fuel pattern kept (match r with [] => [] | _ => [r] end) = selected pattern (kept ++ r).
Proof.
  revert kept r. induction fuel as [|f IH]; intros kept r Hf H0 Hk Hs; [lia|]. cbn [grep_loop].
  destruct r as [|y r0]; [cbn; by rewrite app_nil_r, selected_none|]. set (r := y :: r0) in *.
  pose proof (Hs [] kept r eq_refl Hk) as Hkl. set (k := (BUFSZ - length kept - 1)%nat). assert (Hkk : (0 < k)%nat) by lia.
  cbn [read_chunk]. assert (Ec : exists c0, take k r = y :: c0) by (destruct k; [lia|]; by eexists). destruct Ec as [c0 Ec].
  rewrite Ec. cbv iota. rewrite <-Ec. pose proof (take_drop k r) as Er. set (c := take k r) in *. set (r' := drop k r) in *.
  assert (Hr' : (length r' < f)%nat). { unfold r', r. rewrite length_drop. unfold r in Hf. cbn [length] in *. lia. }
  rewrite <-Er, app_assoc in H0, Hs |- *. apply not_elem_of_app in H0 as [H0 H0'].
  destruct (grep_lines_spec (length (kept ++ c)) pattern (kept ++ c) ltac:(done) H0) as (x & rest & Ex & Hr & -> & Hsel).
  rewrite Hsel. f_equal. rewrite Ex, <-app_assoc in Hs. rewrite Ex in H0. apply not_elem_of_app in H0 as [_ H0].
  destruct (Nat.eqb_spec (length rest) (length (kept ++ c))) as [El|El].
  - assert (Hlt := Hs x rest r' eq_refl Hr). rewrite El, length_app in Hlt. unfold c in Hlt. rewrite length_take in Hlt.
    assert (r' = []) as ->. { apply length_zero_iff_nil. unfold r'. rewrite length_drop. lia. }
    rewrite (IH [] [] Hr' ltac:(apply not_elem_of_nil) ltac:(apply not_elem_of_nil)); [|apply (short_tail (x ++ rest)); by rewrite <-app_assoc].
    by rewrite (app_nil_r rest), (selected_none pattern rest).
  - rewrite <-(IH rest r' Hr'); [by destruct r'|apply not_elem_of_app; done|done|by apply (short_tail x)].
Qed.

(** On a file without null bytes in which no line is longer than the
    buffer takes, grep writes exactly the terminated lines that match, in
    order, each with its newline, however the file falls into buffers. *)
Theorem grep_file pattern text (Hz : 0 ∉ text) (Hs : short_lines text) : grep pattern [text] = selected pattern text.
Proof.
  unfold grep. cbn [concat]. rewrite app_nil_r. pose proof (grep_loop_file (S (length text)) pattern [] text ltac:(lia) Hz ltac:(apply not_elem_of_nil) Hs) as H.
  destruct text; [done|exact H].
Qed.

Lemma read_chunk_concat k cs c cs' : read_chunk k cs = (c, cs') -> concat cs = c ++ concat cs'.
Proof.
  destruct cs as [|d cs]; cbn [read_chunk]; intros [= <- <-]; [done|]. rewrite <-(take_drop k d) at 1. cbn [concat]. rewrite <-app_assoc. f_equal.
  by destruct (drop k d).
Qed.

(** Fuel above the input's length is enough. *)
Lemma grep_loop_enough f1 f2 pattern kept cs : (length (concat cs) < f1)%nat -> (length (concat cs) < f2)%nat -> grep_loop f1 pattern kept cs = grep_loop f2 pattern kept cs.
Proof.
  revert f2 kept cs. induction f1 as [|f1 IH]; intros [|f2] kept cs H1 H2; [lia..|]. cbn [grep_loop].
  destruct (read_chunk _ cs) as [[|y c] cs'] eqn:E; [done|]. apply read_chunk_concat in E. rewrite E, length_app in H1, H2. cbn [length] in H1, H2.
  destruct (grep_lines _ _ _) as [out p]. f_equal. apply IH; lia.
Qed.

Lemma grep_lines_none fuel pattern p : NEWLINE ∉ p -> grep_lines fuel pattern p = ([], p).
Proof.
  intros Hn. destruct fuel; [done|]. cbn [grep_lines]. destruct (strchr p NEWLINE) as [q|] eqn:E; [|done].
  apply strchr_split in E as [E _]. destruct Hn. rewrite E. set_solver.
Qed.

(** Input that arrives in pieces is treated differently: when a read
    returns the beginning of a line without its newline, as it does when a
    writer fills a pipe in several writes, grep discards those bytes and
    matches only what follows them. *)
Theorem grep_forgets_partial pattern a cs (Hl : (0 < length a < BUFSZ)%nat) (Hn : NEWLINE ∉ a) :
  grep pattern (a :: cs) = grep pattern cs.
Proof.
  unfold grep. rewrite (grep_loop_enough (S (length (concat cs))) (S (S (length (concat cs)))) _ _ cs) by lia. set (f := S (S (length (concat cs)))).
  cbn [grep_loop read_chunk]. change (BUFSZ - length [] - 1)%nat with 1023%nat. unfold BUFSZ in Hl. rewrite take_ge, drop_ge by lia.
  destruct a as [|y a0] eqn:Ea; [cbn in Hl; lia|]. rewrite <-Ea in *. cbn [app].
  rewrite grep_lines_none, Nat.eqb_refl by done. cbn [concat app]. apply grep_loop_enough; rewrite ?length_app; subst f; lia.
Qed.

(** ** The hypotheses at concrete inputs *)

(** "ab\n", "b\n", "xab\n" and the pattern "^ab*$". *)
Definition demo_text : list Z := [97; 98; 10; 98; 10; 120; 97; 98; 10].
Definition demo_pattern : list Z := [94; 97; 98; 42; 36].

Lemma short_by_length text : (length text < BUFSZ - 1)%nat -> short_lines text.
Proof. intros Hl a b c -> _. rewrite !length_app in Hl. lia. Qed.

(** A number is not in a list written out. *)
#[local] Ltac absent := unfold demo_text, NEWLINE; rewrite ?not_elem_of_cons; split_and!; try lia; apply not_elem_of_nil.

Lemma demo_clean : 0 ∉ demo_text.
Proof. absent. Qed.

Lemma grep_file_witness : grep demo_pattern [demo_text] = [97; 98; 10].
Proof.
  rewrite (grep_file demo_pattern demo_text demo_clean (short_by_length demo_text ltac:(cbn; unfold BUFSZ; lia))). reflexivity.
Defined.

(** "he" and "llo\n" for the pattern "hello": nothing is printed. *)
Lemma grep_forgets_partial_witness : grep [104; 101; 108; 108; 111] [[104; 101]; [108; 108; 111; 10]] = [].
Proof.
  rewrite (grep_forgets_partial _ [104; 101] _ ltac:(unfold BUFSZ; cbn; lia) ltac:(absent)). reflexivity.
Defined.
