(* ===== verification/Printf.v ===== *)
(** * Formatted output (printf.c of the user library, cprintf of console.c)

    Both copies of the number printer and of the format loop, as functions to
    the bytes they put; [None] is a write past the 16 bytes of printint's
    buffer. *)

From S2P Require Import Prelude CString.

(** "0123456789ABCDEF" and "0123456789abcdef". *)
Definition digits_upper : list Z := [48; 49; 50; 51; 52; 53; 54; 55; 56; 57; 65; 66; 67; 68; 69; 70].
Definition digits_lower : list Z := [48; 49; 50; 51; 52; 53; 54; 55; 56; 57; 97; 98; 99; 100; 101; 102].

Definition digit (digits : list Z) (v : Z) : Z := default 0 (digits !! Z.to_nat v).

(** The do-while loop: [buf] holds buf[0..i), the last byte first, and [room]
    is 16 - i. *)
Fixpoint put_digits (room : nat) (digits : list Z) (base x : Z) (buf : list Z) : option (list Z) :=
  match room with
  | O => None
  | S r =>
      let buf := digit digits (x mod base) :: buf in
      if x / base =? 0 then Some buf else put_digits r digits base (x / base) buf
  end.

(** What the final loop puts: the buffer from its end. *)
Definition printint_with (digits : list Z) (xx base : Z) (sgn : bool) : option (list Z) :=
  let neg := sgn && (xx <? 0) in
  let x := if neg then u32 (- xx) else u32 xx in
  buf ← put_digits 16 digits base x [];
  if neg then if (length buf <? 16)%nat then Some (45 :: buf) else None else Some buf.

(** printint of printf.c. *)
Definition printint (xx base : Z) (sgn : bool) : option (list Z) := printint_with digits_upper xx base sgn.
(** printint of console.c. *)
Definition printint_console (xx base : Z) (sgn : bool) : option (list Z) := printint_with digits_lower xx base sgn.

Section Format.
(** The words on the stack after fmt, and the strings of the memory. *)
Context (ap : nat -> Z) (str : Z -> list Z).

(** "(null)" for the null pointer, the string otherwise. *)
Definition string_arg (p : Z) : list Z := if p =? 0 then [40; 110; 117; 108; 108; 41] else cstr (str p).

(** One conversion of printf: what it puts and how many arguments it takes. *)
Definition printf_conv (c : Z) (k : nat) : option (list Z * nat) :=
  if c =? 100 then out ← printint (s32 (ap k)) 10 true; Some (out, S k)
  else if (c =? 120) || (c =? 112) then out ← printint (s32 (ap k)) 16 false; Some (out, S k)
  else if c =? 115 then Some (string_arg (ap k), S k)
  else if c =? 99 then Some ([u8 (ap k)], S k)
  else if c =? 37 then Some ([c], k)
  else Some ([37; c], k).

(** printf's loop: [state] is state == '%'. *)
Fixpoint printf_loop (fmt : list Z) (state : bool) (k : nat) : option (list Z) :=
  match fmt with
  | [] => Some []
  | c :: fmt' =>
      if c =? 0 then Some []
      else if negb state then
        if c =? 37 then printf_loop fmt' true k
        else out ← printf_loop fmt' false k; Some (c :: out)
      else
        '(o, k') ← printf_conv c k;
        out ← printf_loop fmt' false k'; Some (o ++ out)
  end.
Definition printf (fmt : list Z) : option (list Z) := printf_loop fmt false 0.

(** One conversion of cprintf. *)
Definition cprintf_conv (c : Z) (k : nat) : option (list Z * nat) :=
  if c =? 100 then out ← printint_console (s32 (ap k)) 10 true; Some (out, S k)
  else if (c =? 120) || (c =? 112) then out ← printint_console (s32 (ap k)) 16 false; Some (out, S k)
  else if c =? 115 then Some (string_arg (ap k), S k)
  else if c =? 37 then Some ([37], k)
  else Some ([37; c], k).

(** cprintf's loop, without the lock. *)
Fixpoint cprintf_loop (fmt : list Z) (k : nat) : option (list Z) :=
  match fmt with
  | [] => Some []
  | c :: fmt' =>
      if c =? 0 then Some []
      else if negb (c =? 37) then out ← cprintf_loop fmt' k; Some (c :: out)
      else match fmt' with
           | [] => Some []
           | d :: fmt'' =>
               if d =? 0 then Some []
               else '(o, k') ← cprintf_conv d k; out ← cprintf_loop fmt'' k'; Some (o ++ out)
           end
  end.
Definition cprintf (fmt : list Z) : option (list Z) := cprintf_loop fmt 0.

End Format.

(** ** Numbers *)

Definition horner (base : Z) (vs : list Z) : Z := foldl (fun n v => n * base + v) 0 vs.

Lemma put_digits_spec room digits base x buf : 1 < base -> 0 <= x < base ^ Z.of_nat room -> (0 < room)%nat ->
  exists vs, put_digits room digits base x buf = Some (map (digit digits) vs ++ buf) /\ horner base vs = x /\
    Forall (fun v => 0 <= v < base) vs /\ (0 < length vs <= room)%nat /\ (hd 0 vs = 0 -> vs = [0]).
Proof.
  intros Hb. revert x buf. induction room as [|r IH]; intros x buf Hx Hr; [lia|]. cbn [put_digits].
  pose proof (Z.div_mod x base ltac:(lia)) as Hdm. pose proof (Z.mod_pos_bound x base ltac:(lia)) as Hm.
  assert (Hq : 0 <= x / base < base ^ Z.of_nat r).
  { rewrite Nat2Z.inj_succ, Z.pow_succ_r in Hx by lia. split; [apply Z.div_pos; lia|apply Z.div_lt_upper_bound; lia]. }
  destruct (Z.eqb_spec (x / base) 0) as [E|E].
  { exists [x mod base]. split; [done|]. rewrite E in Hdm. split; [cbn; lia|]. split; [by constructor|]. split; [cbn; lia|]. cbn. by intros ->. }
  destruct r as [|r']; [change (base ^ Z.of_nat 0) with 1 in Hq; lia|].
  destruct (IH (x / base) (digit digits (x mod base) :: buf) Hq ltac:(lia)) as (vs & -> & Hh & Hf & Hl & Hz). exists (vs ++ [x mod base]).
  split; [rewrite map_app, <-app_assoc; done|]. split; [unfold horner in *; rewrite foldl_app, Hh; cbn; lia|].
  split; [apply Forall_app; split; [done|by constructor]|]. rewrite length_app. split; [cbn; lia|].
  destruct vs as [|v vs]; [cbn in Hl; lia|]. cbn. intros ->. specialize (Hz eq_refl). rewrite Hz in Hh. cbn in Hh. lia.
Qed.

Lemma put_digits_room r1 r2 digits base x buf out : (r1 <= r2)%nat -> put_digits r1 digits base x buf = Some out -> put_digits r2 digits base x buf = Some out.
Proof.
  revert r2 x buf. induction r1 as [|r1 IH]; intros [|r2] x buf Hr; [done|done|lia|]. cbn [put_digits].
  destruct (x / base =? 0); [done|]. apply IH. lia.
Qed.

Lemma digit_decimal digits v : digits = digits_upper \/ digits = digits_lower -> 0 <= v < 10 -> digit digits v = 48 + v.
Proof.
  intros Hd Hv. assert (Hc : v = 0 \/ v = 1 \/ v = 2 \/ v = 3 \/ v = 4 \/ v = 5 \/ v = 6 \/ v = 7 \/ v = 8 \/ v = 9) by lia.
  destruct Hd as [-> | ->]; by repeat destruct Hc as [->|Hc]; [..|subst v].
Qed.

Lemma put_digits_decimal room x buf : put_digits room digits_lower 10 x buf = put_digits room digits_upper 10 x buf.
Proof.
  revert x buf. induction room as [|r IH]; intros x buf; [done|]. cbn [put_digits]. pose proof (Z.mod_pos_bound x 10 ltac:(lia)).
  rewrite !digit_decimal by auto. by destruct (_ =? 0).
Qed.

Lemma atoi_digits digits vs n : digits = digits_upper \/ digits = digits_lower -> Forall (fun v => 0 <= v < 10) vs ->
  atoi_loop n (map (digit digits) vs) = foldl (fun n v => n * 10 + v) n vs.
Proof.
  intros Hd Hf. revert n. induction Hf as [|v vs Hv _ IH]; intros n; [done|]. cbn [map atoi_loop foldl].
  rewrite digit_decimal by done.
  rewrite (proj2 (Z.leb_le 48 _)), (proj2 (Z.leb_le _ 57)) by lia. cbn [andb]. rewrite <-IH. f_equal. lia.
Qed.

Lemma printint_form digits xx base sgn : 10 <= base <= 16 ->
  let neg := sgn && (xx <? 0) in
  exists vs, printint_with digits xx base sgn = Some ((if neg then [45] else []) ++ map (digit digits) vs) /\
    horner base vs = (if neg then u32 (- xx) else u32 xx) /\ Forall (fun v => 0 <= v < base) vs /\ (0 < length vs <= 10)%nat /\ (hd 0 vs = 0 -> vs = [0]).
Proof.
  intros Hb neg. unfold printint_with. fold neg. set (x := if neg then _ else _).
  assert (Hx : 0 <= x < 2 ^ 32) by (unfold x, u32; destruct neg; apply Z.mod_pos_bound; lia).
  assert (Hp : 2 ^ 32 <= base ^ Z.of_nat 10). { transitivity (10 ^ Z.of_nat 10); [done|apply Z.pow_le_mono_l; lia]. }
  destruct (put_digits_spec 10 digits base x [] ltac:(lia) ltac:(lia) ltac:(lia)) as (vs & E & Hh & Hf & Hl & Hz).
  rewrite app_nil_r in E. exists vs. split; [|done]. rewrite (put_digits_room 10 16 digits base x [] _ ltac:(lia) E).
  cbv beta iota delta [mbind option_bind]. destruct neg; [|done]. rewrite length_map, (proj2 (Nat.ltb_lt (length vs) 16)) by lia. done.
Qed.

(** Printing a number and reading it back gives the number: the decimal
    form of any int is a minus sign for a negative one, then at most ten
    digits without leading zeros, which atoi reads as its absolute value; the
    buffer of 16 bytes is never overrun, and the kernel's copy of the function
    puts the same bytes. *)
Theorem printint_roundtrip xx (Hx : - 2 ^ 31 <= xx < 2 ^ 31) :
  exists ds, printint xx 10 true = Some ((if xx <? 0 then [45] else []) ++ ds) /\
    printint_console xx 10 true = printint xx 10 true /\
    atoi ds = Z.abs xx /\ (length ds <= 10)%nat /\ (hd 0 ds = 48 -> ds = [48]).
Proof.
  destruct (printint_form digits_upper xx 10 true ltac:(lia)) as (vs & E & Hh & Hf & Hl & Hz). cbn [andb] in E, Hh.
  exists (map (digit digits_upper) vs). split; [exact E|]. split; [unfold printint_console, printint, printint_with; by rewrite put_digits_decimal|].
  split; [unfold atoi; rewrite atoi_digits by auto; fold (horner 10 vs); rewrite Hh; unfold u32; destruct (Z.ltb_spec xx 0); rewrite Z.mod_small by lia; lia|].
  rewrite length_map. split; [lia|]. destruct vs as [|v vs]; [done|]. cbn [map hd]. apply Forall_cons in Hf as [Hv _]. rewrite digit_decimal by auto.
  intros Ev. assert (v = 0) as -> by lia. injection (Hz eq_refl) as ->. done.
Qed.

Lemma printint_roundtrip_witness : exists ds, printint (-2147483648) 10 true = Some (45 :: ds) /\ atoi ds = 2147483648.
Proof. destruct (printint_roundtrip (-2147483648) ltac:(lia)) as (ds & E & _ & Ha & _). exists ds. split; [exact E|exact Ha]. Defined.

(** ** Formats *)

(** Neither format loop overruns a buffer, whatever the format and the words
    on the stack. *)
Lemma printint_some digits xx base sgn : 10 <= base <= 16 -> exists out, printint_with digits xx base sgn = Some out.
Proof. intros Hb. destruct (printint_form digits xx base sgn Hb) as (vs & -> & _). by eexists. Qed.

Lemma printf_total ap str fmt : exists out, printf ap str fmt = Some out.
Proof.
  unfold printf. generalize false at 1, 0%nat. induction fmt as [|c fmt IH]; intros st k; [by eexists|]. cbn [printf_loop].
  destruct (c =? 0); [by eexists|]. destruct st; cbn [negb].
  - assert (exists o k', printf_conv ap str c k = Some (o, k')) as (o & k' & ->).
    { unfold printf_conv, printint. destruct (printint_some digits_upper (s32 (ap k)) 10 true) as [? ->]; [lia|].
      destruct (printint_some digits_upper (s32 (ap k)) 16 false) as [? ->]; [lia|]. repeat case_match; by eexists _, _. }
    cbn. destruct (IH false k') as [? ->]. by eexists.
  - destruct (c =? 37); [apply IH|]. destruct (IH false k) as [? ->]. by eexists.
Qed.
