(* ===== verification/Umalloc.v ===== *)
(** * The user memory allocator (umalloc.c)

    Headers stored in the memory itself, in a circular list of free blocks
    ordered by address.  Pointers are byte addresses; a header, the unit sizes
    are counted in, has 8 bytes. *)

From S2P Require Import Prelude.

(** The headers in the user's memory (pointer and size), the free pointer and
    the end of the heap. *)
Record heap := Heap { hdrs : gmap Z (Z * Z); freep : Z; brk : Z }.

Definition ptr (h : heap) (a : Z) : Z := default 0 (fst <$> hdrs h !! a).
Definition size (h : heap) (a : Z) : Z := default 0 (snd <$> hdrs h !! a).
Definition set_ptr (h : heap) (a v : Z) : heap := Heap (<[a := (v, size h a)]> (hdrs h)) (freep h) (brk h).
Definition set_size (h : heap) (a v : Z) : heap := Heap (<[a := (ptr h a, v)]> (hdrs h)) (freep h) (brk h).
Definition set_freep (h : heap) (p : Z) : heap := Heap (hdrs h) p (brk h).

(** p + n on Header pointers. *)
Definition hadd (p n : Z) : Z := u32 (p + 8 * n).

(** free's search for the place of [bp]. *)
Fixpoint free_find (fuel : nat) (h : heap) (bp p : Z) : option Z :=
  match fuel with
  | O => None
  | S f =>
      if (p <? bp) && (bp <? ptr h p) then Some p
      else if (ptr h p <=? p) && ((p <? bp) || (bp <? ptr h p)) then Some p
      else free_find f h bp (ptr h p)
  end.

(** The two joins of free. *)
Definition join_next (h : heap) (bp p : Z) : heap :=
  if hadd bp (size h bp) =? ptr h p then
    let h := set_size h bp (u32 (size h bp + size h (ptr h p))) in
    set_ptr h bp (ptr h (ptr h p))
  else set_ptr h bp (ptr h p).
Definition join_prev (h : heap) (bp p : Z) : heap :=
  if hadd p (size h p) =? bp then
    let h := set_size h p (u32 (size h p + size h bp)) in
    set_ptr h p (ptr h bp)
  else set_ptr h p bp.

Definition free (fuel : nat) (h : heap) (ap : Z) : option heap :=
  let bp := hadd ap (-1) in
  p ← free_find fuel h bp (freep h);
  Some (set_freep (join_prev (join_next h bp p) bp p) p).

(** What malloc does with a block [p] that is large enough. *)
Definition take_block (h : heap) (nunits prevp p : Z) : heap * Z :=
  if size h p =? nunits then (set_freep (set_ptr h prevp (ptr h p)) prevp, hadd p 1)
  else
    let h := set_size h p (u32 (size h p - nunits)) in
    let q := hadd p (size h p) in
    let h := set_size h q nunits in
    (set_freep h prevp, hadd q 1).

Section Malloc.
(** The address of the static header, and the kernel's answer to sbrk: the
    new end of the heap, from the old one and the int asked for. *)
Context (base : Z) (sbrk : Z -> Z -> option Z).

Definition morecore (fuel : nat) (h : heap) (nu : Z) : option (heap * Z) :=
  let nu := if nu <? 4096 then 4096 else nu in
  match sbrk (brk h) (s32 (nu * 8)) with
  | None => Some (h, 0)
  | Some brk' =>
      let hp := brk h in
      let h := set_size (Heap (hdrs h) (freep h) brk') hp nu in
      h ← free fuel h (hadd hp 1);
      Some (h, freep h)
  end.

Fixpoint malloc_loop (fuel : nat) (h : heap) (nunits prevp p : Z) : option (heap * Z) :=
  match fuel with
  | O => None
  | S f =>
      if nunits <=? size h p then Some (take_block h nunits prevp p)
      else if p =? freep h then
        '(h, p) ← morecore f h nunits;
        if p =? 0 then Some (h, 0) else malloc_loop f h nunits p (ptr h p)
      else malloc_loop f h nunits p (ptr h p)
  end.

Definition nunits (nbytes : Z) : Z := u32 (nbytes + 8 - 1) / 8 + 1.

Definition malloc_init (h : heap) : heap :=
  if freep h =? 0 then set_size (set_freep (set_ptr h base base) base) base 0 else h.

Definition malloc (fuel : nat) (h : heap) (nbytes : Z) : option (heap * Z) :=
  let h := malloc_init h in
  malloc_loop fuel h (nunits nbytes) (freep h) (ptr h (freep h)).

End Malloc.

(** ** Segments of the list *)

(** Where a list of blocks starts, or [b] for none. *)
Definition head (l : list (Z * Z)) (b : Z) : Z := match l with [] => b | (a, _) :: _ => a end.
(** Where it ends, or [y] for none. *)
Definition final (y : Z) (l : list (Z * Z)) : Z := default y (fst <$> last l).

(** The blocks [l] are linked in order and the last points to [b]. *)
Fixpoint seg (m : gmap Z (Z * Z)) (l : list (Z * Z)) (b : Z) : Prop :=
  match l with
  | [] => True
  | (a, s) :: l' => m !! a = Some (head l' b, s) /\ seg m l' b
  end.

Lemma head_app l l' b : head (l ++ l') b = head l (head l' b).
Proof. by destruct l as [|[]]. Qed.

Lemma seg_app m l l' b : seg m (l ++ l') b <-> seg m l (head l' b) /\ seg m l' b.
Proof. induction l as [|[a s] l IH]; cbn; [tauto|]. rewrite head_app, IH. tauto. Qed.

(** Changing the header of no block of the segment. *)
Lemma seg_ext m m' l b : seg m l b -> (forall a, a ∈ l.*1 -> m' !! a = m !! a) -> seg m' l b.
Proof.
  induction l as [|[a s] l IH]; cbn; [done|]. intros [Ha Hl] Hm. rewrite Hm by set_solver. split; [done|]. apply IH; [done|]. intros; apply Hm; set_solver.
Qed.

Lemma seg_insert m l b a v : seg m l b -> a ∉ l.*1 -> seg (<[a := v]> m) l b.
Proof. intros Hs Ha. apply (seg_ext m); [done|]. intros x Hx. apply lookup_insert_ne. set_solver. Qed.

Lemma final_snoc y l x : final y (l ++ [x]) = x.1.
Proof. unfold final. by rewrite last_snoc. Qed.

(** ** Blocks *)

Definition bend (x : Z * Z) : Z := x.1 + 8 * x.2.
Definition apart (x y : Z * Z) : Prop := bend x <= y.1 \/ bend y <= x.1.
(** One block ends before the other starts, with something between. *)
Definition before (x y : Z * Z) : Prop := bend x < y.1.

(** Blocks of at least one unit inside [lo, hi), apart from each other. *)
Definition blocks (lo hi : Z) (X : list (Z * Z)) : Prop := Forall (fun x => lo <= x.1 /\ 0 < x.2 /\ bend x <= hi) X /\ ForallOrdPairs apart X.

(** The invariant: [H] are the free blocks in the order of their addresses,
    never two adjacent, linked in a circle with the static header; they and
    the blocks [A] handed out are apart from each other and inside the heap,
    and the header of each block tells its size. *)
Record heap_ok (base : Z) (H : list (Z * Z)) (h : heap) (A : list (Z * Z)) : Prop := {
  ok_base : 0 < base;
  ok_brk : base + 8 <= brk h <= 2 ^ 31;
  ok_ring : seg (hdrs h) ((base, 0) :: H) base;
  ok_freep : freep h ∈ base :: H.*1;
  ok_sorted : StronglySorted before ((base, 0) :: H);
  ok_blocks : blocks (base + 8) (brk h) (H ++ A);
  ok_sizes : forall a s, (a, s) ∈ A -> size h a = s
}.

Lemma apart_sym x y : apart x y -> apart y x.
Proof. unfold apart. tauto. Qed.

Lemma fop_app {T} (R : T -> T -> Prop) l l' : ForallOrdPairs R (l ++ l') <-> ForallOrdPairs R l /\ ForallOrdPairs R l' /\ (forall x y, x ∈ l -> y ∈ l' -> R x y).
Proof.
  induction l as [|z l IH]; cbn [app].
  - split; [intros; repeat split; [constructor|done|set_solver]|tauto].
  - split.
    + inversion 1 as [|? ? Hz Hl]; subst. apply IH in Hl as (H1 & H2 & H3). rewrite Forall_app, !Forall_forall in Hz. destruct Hz as [Hz1 Hz2].
      split; [constructor; [by apply Forall_forall|done]|]. split; [done|]. intros x y [->|Hx]%elem_of_cons Hy; auto.
    + intros (H1 & H2 & H3). inversion H1 as [|? ? Hz Hl]; subst. constructor; [|apply IH; repeat split; [done|done|intros; apply H3; set_solver]].
      apply Forall_app. split; [done|]. apply Forall_forall. intros y Hy. apply H3; set_solver.
Qed.

Lemma fop_cons {T} (R : T -> T -> Prop) x l : ForallOrdPairs R (x :: l) <-> (forall y, y ∈ l -> R x y) /\ ForallOrdPairs R l.
Proof. rewrite <-Forall_forall. split; [by inversion 1|]. intros [? ?]. by constructor. Qed.

Lemma fop_perm l l' : l ≡ₚ l' -> ForallOrdPairs apart l -> ForallOrdPairs apart l'.
Proof.
  induction 1 as [|x l l' Hp IH|x y l|l1 l2 l3 _ IH1 _ IH2]; [done| | |by auto].
  - rewrite !fop_cons. intros [Hx Hl]. split; [intros y Hy; apply Hx; by rewrite Hp|by apply IH].
  - rewrite !fop_cons. intros (Hx & Hy & Hl). repeat split; [|intros z Hz; apply Hx; set_solver|done].
    intros z [->|Hz]%elem_of_cons; [apply apart_sym, Hx; set_solver|by apply Hy].
Qed.

Lemma heap_ok_perm base H h A A' : A ≡ₚ A' -> heap_ok base H h A -> heap_ok base H h A'.
Proof.
  intros HA [H1 H2 H3 H4 H5 [H6 H7] H8]. constructor; try done.
  - split; [by rewrite <-HA|]. eapply fop_perm; [|exact H7]. by rewrite HA.
  - intros a s Ha. apply H8. by rewrite HA.
Qed.

(** ** free finds the place *)

Definition rising (l : list (Z * Z)) : Prop := StronglySorted Z.lt l.*1.

Lemma rising_cons a s l : rising ((a, s) :: l) <-> rising l /\ (forall x, x ∈ l.*1 -> a < x).
Proof.
  unfold rising. cbn. split; [inversion 1 as [|? ? H1 H2]; subst; split; [done|by apply Forall_forall]|].
  intros [H1 H2]. constructor; [done|by apply Forall_forall].
Qed.

Lemma ptr_lookup h a v s : hdrs h !! a = Some (v, s) -> ptr h a = v /\ size h a = s.
Proof. unfold ptr, size. by intros ->. Qed.

Lemma head_in l b : l <> [] -> head l b ∈ l.*1.
Proof. destruct l as [|[]]; [done|]. intros _. cbn. set_solver. Qed.

Lemma rising_head C p sp D b : rising (C ++ (p, sp) :: D) -> head (C ++ (p, sp) :: D) b <= p.
Proof.
  destruct C as [|[c s] C]; cbn [app head]; [lia|]. intros [_ Hr]%rising_cons. apply Z.lt_le_incl, Hr. rewrite fmap_app. set_solver.
Qed.

Lemma find_forward fuel h bp C p sp D b : seg (hdrs h) (C ++ (p, sp) :: D) b -> rising (C ++ (p, sp) :: D) -> p < bp -> (forall x, x ∈ D.*1 -> bp < x) -> b <= p -> (length C < fuel)%nat ->
  free_find fuel h bp (head (C ++ (p, sp) :: D) b) = Some p.
Proof.
  revert fuel. induction C as [|[c sc] C IH]; intros [|f] Hs Hr Hp HD Hb Hf; [cbn in Hf; lia| |cbn in Hf; lia|]; cbn [app head free_find].
  - destruct Hs as [Ep%ptr_lookup _]. destruct Ep as [-> _]. destruct D as [|[nx sn] D]; cbn [head].
    + rewrite (proj2 (Z.ltb_lt p bp)), (proj2 (Z.ltb_ge bp b)), (proj2 (Z.leb_le b p)) by lia. done.
    + assert (bp < nx) by (apply HD; set_solver). rewrite (proj2 (Z.ltb_lt p bp)), (proj2 (Z.ltb_lt bp nx)) by lia. done.
  - destruct Hs as [Ec%ptr_lookup Hs]. destruct Ec as [-> _]. apply rising_cons in Hr as [Hr Hc].
    set (n := head (C ++ (p, sp) :: D) b) in *. assert (Hn : c < n) by (apply Hc, head_in; by destruct C).
    pose proof (rising_head _ _ _ _ b Hr : n <= p).
    rewrite (proj2 (Z.ltb_ge bp n)), (proj2 (Z.leb_gt n c)), andb_false_r by lia. cbn [andb]. apply IH; try done. cbn in Hf. lia.
Qed.

Lemma find_wrap fuel h bp D b : seg (hdrs h) D b -> rising D -> (forall x, x ∈ D.*1 -> bp < x) -> b < bp -> (length D <= fuel)%nat ->
  free_find fuel h bp (head D b) = free_find (fuel - length D) h bp b.
Proof.
  revert fuel. induction D as [|[d s] D IH]; intros [|f] Hs Hr HD Hb Hf; [done|done|cbn in Hf; lia|]; cbn [head free_find length] in *.
  destruct Hs as [Ed%ptr_lookup Hs]. destruct Ed as [-> _]. apply rising_cons in Hr as [Hr Hd]. assert (bp < d) by (apply HD; set_solver).
  rewrite (proj2 (Z.ltb_ge d bp)) by lia. cbn [andb orb].
  assert ((head D b <=? d) && (bp <? head D b) = false) as ->.
  { destruct D as [|[d' s'] D]; cbn [head]; [rewrite (proj2 (Z.ltb_ge bp b)) by lia; apply andb_false_r|].
    assert (d < d') by (apply Hd; set_solver). by rewrite (proj2 (Z.leb_gt d' d)) by lia. }
  rewrite Nat.sub_succ. apply IH; [done|done| |done|lia]. intros x Hx. apply HD. set_solver.
Qed.

Lemma find_place fuel h bp base0 L1 p sp D : seg (hdrs h) (L1 ++ (p, sp) :: D) base0 -> head (L1 ++ (p, sp) :: D) base0 = base0 -> rising (L1 ++ (p, sp) :: D) ->
  p < bp -> (forall x, x ∈ D.*1 -> bp < x) -> freep h ∈ (L1 ++ (p, sp) :: D).*1 -> (length (L1 ++ (p, sp) :: D) < fuel)%nat ->
  free_find fuel h bp (freep h) = Some p.
Proof.
  intros Hs Hh Hr Hp HD Hf Hl. rewrite length_app in Hl. cbn [length] in Hl.
  assert (Hbp : base0 <= p) by (rewrite <-Hh; by apply rising_head).
  assert (Hrun : forall C L0 f', L1 ++ [(p, sp)] = L0 ++ C -> C <> [] -> (length L1 < f')%nat -> free_find f' h bp (head C base0) = Some p).
  { intros C L0 f' E HC Hf'. destruct (exists_last HC) as (C' & z & ->). rewrite app_assoc in E. apply app_inj_tail in E as [-> <-].
    rewrite <-app_assoc in Hs, Hr. unfold rising in Hr. rewrite fmap_app in Hr. apply StronglySorted_app in Hr as (_ & _ & Hr). apply seg_app in Hs as [_ Hs].
    replace (head (C' ++ [(p, sp)]) base0) with (head (C' ++ (p, sp) :: D) base0) by (by rewrite !head_app).
    apply find_forward; try done. rewrite length_app in Hf'. lia. }
  rewrite (cons_middle (p, sp)), app_assoc, fmap_app in Hf. apply elem_of_app in Hf as [Hf|Hf]; apply list_elem_of_fmap in Hf as ([f sf] & Ef & (X & Y & E)%list_elem_of_split); cbn in Ef; rewrite Ef.
  - apply (Hrun ((f, sf) :: Y) X); [done|done|lia].
  - subst D. rewrite app_comm_cons, app_assoc in Hs, Hr. apply seg_app in Hs as [_ Hs]. unfold rising in Hr. rewrite fmap_app in Hr. apply StronglySorted_app in Hr as (_ & _ & Hr).
    change f with (head ((f, sf) :: Y) base0). rewrite length_app in Hl. cbn [length] in Hl. rewrite find_wrap; [|done|done| | |cbn; lia].
    + assert (E0 : base0 = head (L1 ++ [(p, sp)]) base0) by (by destruct L1 as [|[]]). rewrite E0. apply (Hrun _ []); [done|by destruct L1|cbn; lia].
    + intros x Hx. apply HD. rewrite fmap_app. set_solver.
    + lia.
Qed.

(** ** free joins neighbours *)

Definition ins_next (bp sb : Z) (D : list (Z * Z)) : list (Z * Z) :=
  match D with
  | (nx, sn) :: D' => if bp + 8 * sb =? nx then (bp, sb + sn) :: D' else (bp, sb) :: D
  | [] => [(bp, sb)]
  end.
Definition ins_prev (p sp : Z) (N : list (Z * Z)) : list (Z * Z) :=
  match N with
  | (b, s) :: N' => if p + 8 * sp =? b then (p, sp + s) :: N' else (p, sp) :: N
  | [] => [(p, sp)]
  end.

Lemma hadd_id p n : 0 <= p + 8 * n < 2 ^ 32 -> hadd p n = p + 8 * n.
Proof. intros. by apply Z.mod_small. Qed.

(** The sizes do not overflow: the blocks of a list lie below 2^31. *)
Definition low (x : Z * Z) : Prop := 0 <= x.1 /\ 0 <= x.2 /\ bend x <= 2 ^ 31.

Lemma join_next_seg h bp sb p sp D b : hdrs h !! p = Some (head D b, sp) -> seg (hdrs h) D b -> size h bp = sb -> bp <> p -> bp ∉ D.*1 -> NoDup D.*1 ->
  b < bp -> Forall low ((bp, sb) :: D) ->
  seg (hdrs (join_next h bp p)) (ins_next bp sb D) b /\ (forall a, a <> bp -> hdrs (join_next h bp p) !! a = hdrs h !! a) /\ brk (join_next h bp p) = brk h.
Proof.
  intros Ep HD Eb Hbp HbD Hnd Hb [Hlb HlD]%Forall_cons. destruct (ptr_lookup _ _ _ _ Ep) as [Ep' _]. unfold low, bend in Hlb. cbn in Hlb.
  unfold join_next. rewrite Eb, hadd_id, Ep' by lia. destruct D as [|[nx sn] D]; cbn [head ins_next].
  - rewrite (proj2 (Z.eqb_neq _ _)) by lia. cbn. rewrite Eb. repeat split; [by simplify_map_eq|intros; by rewrite lookup_insert_ne].
  - destruct HD as [En HD]. destruct (ptr_lookup _ _ _ _ En) as [En1 En2]. apply Forall_cons in HlD as [Hln _]. unfold low, bend in Hln. cbn in Hln.
    apply not_elem_of_cons in HbD as [Hbn HbD].
    destruct (Z.eqb_spec (bp + 8 * sb) nx) as [E|E].
    + rewrite En2. unfold u32. rewrite Z.mod_small by lia. set (h1 := set_size h bp (sb + sn)).
      assert (Ep1 : ptr h1 p = nx) by (unfold h1, ptr; cbn; by rewrite lookup_insert_ne by done).
      assert (En3 : ptr h1 nx = head D b) by (unfold h1, ptr; cbn; rewrite lookup_insert_ne by done; by rewrite En).
      rewrite Ep1, En3. cbn. unfold size. cbn. split_and!; [|by apply seg_insert; [apply seg_insert|]| |done].
      * rewrite !lookup_insert_eq. cbn. done.
      * intros a Ha. by rewrite !lookup_insert_ne by done.
    + cbn. rewrite Eb. split_and!; [by rewrite lookup_insert_eq|by rewrite lookup_insert_ne|by apply seg_insert| |done]. intros; by rewrite lookup_insert_ne.
Qed.

Lemma join_prev_seg h bp s p sp v N b : hdrs h !! p = Some (v, sp) -> seg (hdrs h) ((bp, s) :: N) b -> p <> bp -> p ∉ N.*1 -> Forall low [(p, sp); (bp, s)] ->
  seg (hdrs (join_prev h bp p)) (ins_prev p sp ((bp, s) :: N)) b /\ (forall a, a <> p -> hdrs (join_prev h bp p) !! a = hdrs h !! a) /\ brk (join_prev h bp p) = brk h.
Proof.
  intros Ep [Eb HN] Hp HpN [Hlp [Hlb _]%Forall_cons]%Forall_cons. destruct (ptr_lookup _ _ _ _ Ep) as [_ Ep'], (ptr_lookup _ _ _ _ Eb) as [Eb1 Eb2].
  unfold low, bend in *. cbn in Hlp, Hlb. unfold join_prev. rewrite Ep', hadd_id by lia. cbn [ins_prev].
  destruct (Z.eqb_spec (p + 8 * sp) bp) as [E|E].
  - rewrite Eb2. unfold u32. rewrite Z.mod_small by lia. set (h1 := set_size h p (sp + s)).
    assert (Eb3 : ptr h1 bp = head N b) by (unfold h1, ptr; cbn; rewrite lookup_insert_ne by done; by rewrite Eb).
    rewrite Eb3. cbn. unfold size. cbn. split_and!; [by rewrite !lookup_insert_eq|by apply seg_insert; [apply seg_insert|]| |done].
    intros a Ha. by rewrite !lookup_insert_ne by done.
  - cbn. rewrite Ep'. split_and!; [by rewrite lookup_insert_eq|by rewrite lookup_insert_ne|by apply seg_insert| |done]. intros; by rewrite lookup_insert_ne.
Qed.

(** ** Blocks joined and split *)

#[export] Instance blocks_proper lo hi : Proper ((≡ₚ) ==> iff) (blocks lo hi).
Proof.
  intros X Y HXY. unfold blocks. split; intros [Hf Ha]; (split; [|by eapply fop_perm]).
  - by rewrite <-HXY.
  - by rewrite HXY.
Qed.

Lemma blocks_join lo hi a s t X : blocks lo hi ((a, s) :: (a + 8 * s, t) :: X) -> blocks lo hi ((a, s + t) :: X).
Proof.
  intros [Hf Ha]. apply Forall_cons in Hf as [H1 [H2 HX]%Forall_cons]. apply fop_cons in Ha as [A1 [A2 AX]%fop_cons]. unfold bend in *. cbn in *.
  split; [constructor; [unfold bend; cbn; lia|done]|]. apply fop_cons. split; [|done]. intros y Hy. rewrite Forall_forall in HX. specialize (HX y Hy). cbn in HX.
  specialize (A2 y Hy). specialize (A1 y ltac:(set_solver)). unfold apart, bend in *. cbn in *. lia.
Qed.

Lemma blocks_cut lo hi a s t X : 0 < t < s -> blocks lo hi ((a, s) :: X) -> blocks lo hi ((a, s - t) :: (a + 8 * (s - t), t) :: X).
Proof.
  intros Ht [[H1 HX]%Forall_cons [A1 AX]%fop_cons]. unfold bend in H1. cbn in H1. split; [repeat constructor; unfold bend; cbn; try lia; done|].
  apply fop_cons. split; [|apply fop_cons; split; [|done]]; intros y Hy.
  - apply elem_of_cons in Hy as [->|Hy]; [left; unfold bend; cbn; lia|]. specialize (A1 y Hy). unfold apart, bend in *. cbn in *. lia.
  - specialize (A1 y Hy). unfold apart, bend in *. cbn in *. lia.
Qed.

Fixpoint units (X : list (Z * Z)) : Z := match X with [] => 0 | x :: X' => x.2 + units X' end.

Lemma units_app X Y : units (X ++ Y) = units X + units Y.
Proof. induction X as [|x X IH]; cbn; [done|]. lia. Qed.

Lemma split_place L bp : rising L -> L <> [] -> head L 0 < bp -> bp ∉ L.*1 -> exists L1 p sp D, L = L1 ++ (p, sp) :: D /\ p < bp /\ (forall x, x ∈ D.*1 -> bp < x).
Proof.
  induction L as [|[a s] L IH]; intros Hr HL Hh Hb; [done|]. apply rising_cons in Hr as [Hr Ha]. apply not_elem_of_cons in Hb as [_ Hb]. cbn in Hh.
  destruct L as [|[c t] L]; [exists [], a, s, []; split_and!; [done|done|set_solver]|].
  destruct (decide (c < bp)) as [Hc|Hc].
  - destruct (IH Hr ltac:(done) Hc Hb) as (L1 & p & sp & D & -> & Hp & HD). by exists ((a, s) :: L1), p, sp, D.
  - exists [], a, s, ((c, t) :: L). split_and!; [done|done|]. apply rising_cons in Hr as [_ Hr]. apply not_elem_of_cons in Hb as [Hbc _]. cbn in Hbc.
    intros x [->|Hx]%elem_of_cons; [cbn; lia|]. specialize (Hr x Hx). lia.
Qed.

Lemma ins_next_blocks lo hi bp sb D R : blocks lo hi ((bp, sb) :: D ++ R) -> blocks lo hi (ins_next bp sb D ++ R).
Proof. destruct D as [|[nx sn] D]; cbn; [done|]. destruct (Z.eqb_spec (bp + 8 * sb) nx) as [<-|E]; [apply blocks_join|done]. Qed.

Lemma ins_prev_blocks lo hi p sp N R : blocks lo hi ((p, sp) :: N ++ R) -> blocks lo hi (ins_prev p sp N ++ R).
Proof. destruct N as [|[b s] N]; cbn; [done|]. destruct (Z.eqb_spec (p + 8 * sp) b) as [<-|E]; [apply blocks_join|done]. Qed.

Lemma sorted_cons x l : StronglySorted before (x :: l) <-> StronglySorted before l /\ (forall y, y ∈ l -> before x y).
Proof. rewrite <-Forall_forall. split; [by inversion 1|]. intros [? ?]. by constructor. Qed.

(** A block put in front of those above it. *)
Lemma ins_next_sorted bp sb D : StronglySorted before D -> 0 < sb -> (forall x, x ∈ D -> bp < x.1 /\ 0 < x.2 /\ apart (bp, sb) x) ->
  exists s N, ins_next bp sb D = (bp, s) :: N /\ StronglySorted before ((bp, s) :: N) /\ sb <= s /\ s + units N = sb + units D /\ (length N <= length D)%nat /\ (forall x, x ∈ N -> x ∈ D).
Proof.
  intros HD Hsb Hab. destruct D as [|[nx sn] D]; cbn [ins_next].
  { exists sb, []. split_and!; [done|repeat constructor|lia|done|done|set_solver]. }
  apply sorted_cons in HD as [HD Hn]. destruct (Hab (nx, sn) ltac:(set_solver)) as (Hb & Hs & Ha). unfold apart, before, bend in *. cbn in *.
  destruct (Z.eqb_spec (bp + 8 * sb) nx) as [E|E].
  - exists (sb + sn), D. split_and!; [done| |lia|lia|lia|set_solver]. apply sorted_cons. split; [done|]. intros y Hy. specialize (Hn y Hy). unfold before, bend. cbn. lia.
  - exists sb, ((nx, sn) :: D). split_and!; [done| |lia|done|done|done]. apply sorted_cons. split; [apply sorted_cons; done|]. intros y Hy. unfold before, bend. cbn.
    apply elem_of_cons in Hy as [->|Hy]; [cbn; lia|]. specialize (Hn y Hy). lia.
Qed.

Lemma ins_prev_sorted p sp b s N : StronglySorted before ((b, s) :: N) -> p + 8 * sp <= b -> 0 <= sp -> 0 < s ->
  let P := ins_prev p sp ((b, s) :: N) in
  StronglySorted before P /\ (forall x, x ∈ P -> p <= x.1) /\ units P = sp + s + units N /\ (length P <= S (S (length N)))%nat /\ (exists x, x ∈ P /\ s <= x.2).
Proof.
  intros HN Hp Hsp Hs P. unfold P. cbn [ins_prev]. pose proof HN as [HN' Hb]%sorted_cons. unfold before, bend in Hb. cbn in Hb.
  destruct (Z.eqb_spec (p + 8 * sp) b) as [E|E].
  - split_and!; [|intros x [->|Hx]%elem_of_cons; [cbn; lia|specialize (Hb x Hx); lia]|cbn; lia|cbn; lia|eexists; split; [by left|cbn; lia]].
    apply sorted_cons. split; [done|]. intros y Hy. specialize (Hb y Hy). unfold before, bend. cbn. lia.
  - assert (Hlt : forall x, x ∈ (b, s) :: N -> b <= x.1) by (intros x [->|Hx]%elem_of_cons; [cbn; lia|specialize (Hb x Hx); lia]).
    split_and!; [|intros x [->|Hx]%elem_of_cons; [cbn; lia|specialize (Hlt x Hx); lia]|cbn; lia|cbn; lia|exists (b, s); split; [set_solver|done]].
    apply sorted_cons. split; [done|]. intros y Hy. specialize (Hlt y Hy). unfold before, bend. cbn. lia.
Qed.

Lemma ins_next_form bp sb D : Forall low ((bp, sb) :: D) -> exists s N, ins_next bp sb D = (bp, s) :: N /\ low (bp, s) /\ (forall x, x ∈ N -> x ∈ D).
Proof.
  intros [Hb HD]%Forall_cons. destruct D as [|[nx sn] D]; cbn [ins_next]; [by exists sb, []|].
  apply Forall_cons in HD as [Hn _]. destruct (Z.eqb_spec (bp + 8 * sb) nx) as [E|E]; [|by exists sb, ((nx, sn) :: D)].
  exists (sb + sn), D. split_and!; [done| |set_solver]. unfold low, bend in *. cbn in *. lia.
Qed.

Lemma head_ins_prev p sp N b : head (ins_prev p sp N) b = p.
Proof. destruct N as [|[c s] N]; [done|]. cbn. by destruct (_ =? _). Qed.

(** The ring after free, at the place found. *)
Lemma free_ring h bp sb L1 p sp D b : seg (hdrs h) (L1 ++ (p, sp) :: D) b -> NoDup (L1 ++ (p, sp) :: D).*1 -> bp ∉ (L1 ++ (p, sp) :: D).*1 -> size h bp = sb -> b < bp ->
  Forall low ((bp, sb) :: (p, sp) :: D) ->
  let h' := join_prev (join_next h bp p) bp p in
  seg (hdrs h') (L1 ++ ins_prev p sp (ins_next bp sb D)) b /\ (forall a, a <> bp -> a <> p -> hdrs h' !! a = hdrs h !! a) /\ brk h' = brk h.
Proof.
  intros Hs Hnd Hb Esb Hbb Hlow. rewrite fmap_app in Hnd, Hb. cbn in Hnd, Hb.
  apply NoDup_app in Hnd as (_ & HL1 & [HpD HD]%NoDup_cons). apply not_elem_of_app in Hb as [HbL [Hbp HbD]%not_elem_of_cons]. cbn in Hbp.
  apply Forall_cons in Hlow as [Hlb [Hlp HlD]%Forall_cons]. apply seg_app in Hs as [Hs1 [Ep Hs2]]. cbn [head] in Hs1.
  destruct (ins_next_form bp sb D ltac:(by constructor)) as (s & N & EN & Hls & HN).
  destruct (join_next_seg h bp sb p sp D b Ep Hs2 Esb Hbp HbD HD Hbb ltac:(by constructor)) as (Hn1 & Hn2 & Hn3). rewrite EN in *.
  assert (HNp : p ∉ N.*1). { intros (x & Ex & Hx)%list_elem_of_fmap. apply HpD, list_elem_of_fmap. eauto. }
  destruct (join_prev_seg (join_next h bp p) bp s p sp (head D b) N b) as (Hp1 & Hp2 & Hp3); [by rewrite Hn2|done|done|done|by rewrite !Forall_cons, Forall_nil|].
  split_and!; [|intros a Ha Ha'; by rewrite Hp2, Hn2|congruence]. apply seg_app. split; [|done].
  rewrite head_ins_prev.
  apply (seg_ext (hdrs h)); [done|]. intros a Ha. rewrite Hp2, Hn2; [done| |]; intros ->; [done|]. apply (HL1 p Ha). set_solver.
Qed.

Lemma sorted_rising L : StronglySorted before L -> Forall (fun x => 0 <= x.2) L -> rising L.
Proof.
  induction L as [|[a s] L IH]; intros Hs Hf; [constructor|]. apply sorted_cons in Hs as [Hs Ha]. apply Forall_cons in Hf as [H0 Hf]. cbn in H0.
  apply rising_cons. split; [by apply IH|]. intros x (y & -> & Hy)%list_elem_of_fmap. specialize (Ha y Hy). unfold before, bend in Ha. cbn in Ha. lia.
Qed.

Lemma rising_NoDup L : rising L -> NoDup L.*1.
Proof.
  induction L as [|[a s] L IH]; [constructor|]. intros [Hr Ha]%rising_cons. constructor; [|by apply IH]. intros Hin. specialize (Ha a Hin). lia.
Qed.

(** What lies in a block handed out is as it was. *)
Definition untouched (A : list (Z * Z)) (h h' : heap) : Prop := forall x a, x ∈ A -> x.1 <= a < bend x -> hdrs h' !! a = hdrs h !! a.

Lemma untouched_sizes A h h' : untouched A h h' -> Forall (fun x => 0 < x.2) A -> (forall a s, (a, s) ∈ A -> size h a = s) -> forall a s, (a, s) ∈ A -> size h' a = s.
Proof.
  intros Hu Hp Hs a s Ha. rewrite Forall_forall in Hp. specialize (Hp _ Ha). cbn in Hp. rewrite <-(Hs a s Ha). unfold size.
  rewrite (Hu (a, s) a Ha); [done|]. unfold bend. cbn. lia.
Qed.

(** What the pairs of the invariant say of one free and one handed-out block. *)
Lemma blocks_in lo hi X x : blocks lo hi X -> x ∈ X -> lo <= x.1 /\ 0 < x.2 /\ bend x <= hi.
Proof. intros [Hf _] Hx. rewrite Forall_forall in Hf. by apply Hf. Qed.
Lemma blocks_apart lo hi X Y x y : blocks lo hi (X ++ Y) -> x ∈ X -> y ∈ Y -> apart x y.
Proof. intros [_ (_ & _ & H)%fop_app]. apply H. Qed.

(** Where a free block starts, no block handed out lies. *)
Lemma free_not_used base H h A a : heap_ok base H h A -> a ∈ base :: H.*1 -> forall x, x ∈ A -> ~ x.1 <= a < bend x.
Proof.
  intros Hok Ha x Hx. destruct (blocks_in _ _ _ _ (ok_blocks _ _ _ _ Hok) (proj2 (elem_of_app H A x) (or_intror Hx))) as (H1 & H2 & H3).
  apply elem_of_cons in Ha as [->|(y & -> & Hy)%list_elem_of_fmap]; [lia|].
  pose proof (blocks_apart _ _ _ _ _ _ (ok_blocks _ _ _ _ Hok) Hy Hx) as Hap.
  destruct (blocks_in _ _ _ _ (ok_blocks _ _ _ _ Hok) (proj2 (elem_of_app H A y) (or_introl Hy))) as (H4 & H5 & H6).
  unfold apart, bend in *. lia.
Qed.

Lemma ok_rising base H h A : heap_ok base H h A -> rising ((base, 0) :: H).
Proof.
  intros Hok. apply sorted_rising; [apply Hok|]. constructor; [done|]. destruct (ok_blocks _ _ _ _ Hok) as [[Hf _]%Forall_app _].
  eapply Forall_impl; [exact Hf|]. cbn. lia.
Qed.

(** The list of free blocks once [bp] is inserted, after the static header. *)
Lemma insert_free base H hi A bp sb L1 p sp D : StronglySorted before ((base, 0) :: H) -> blocks (base + 8) hi (H ++ (bp, sb) :: A) ->
  (base, 0) :: H = L1 ++ (p, sp) :: D -> p < bp -> (forall x, x ∈ D.*1 -> bp < x) ->
  exists H', (base, 0) :: H' = L1 ++ ins_prev p sp (ins_next bp sb D) /\ StronglySorted before ((base, 0) :: H') /\ blocks (base + 8) hi (H' ++ A) /\
    units H' = units H + sb /\ (length H' <= S (length H))%nat /\ (exists x, x ∈ H' /\ sb <= x.2).
Proof.
  intros Hs Hb E Hp HD. rewrite E in Hs. apply StronglySorted_app in Hs as (Hcross & Hs1 & [HsD HpD]%sorted_cons).
  destruct (blocks_in _ _ _ (bp, sb) Hb ltac:(set_solver)) as (Hlo & Hsb & _). cbn in Hlo, Hsb.
  assert (HDH : forall x, x ∈ D -> x ∈ H). { intros x Hx. destruct L1; injection E; intros; subst; set_solver. }
  assert (HD' : forall x, x ∈ D -> bp < x.1 /\ 0 < x.2 /\ apart (bp, sb) x).
  { intros x Hx. split; [apply HD, list_elem_of_fmap; eauto|]. destruct (blocks_in _ _ _ x Hb ltac:(set_solver)) as (_ & H2 & _). split; [done|].
    apply apart_sym, (blocks_apart _ _ _ _ _ _ Hb); set_solver. }
  destruct (ins_next_sorted bp sb D HsD Hsb HD') as (s & N & EN & HsN & Hss & Hun & Hlen & HND).
  destruct L1 as [|x0 H1]; cbn [app] in E.
  - injection E as <- <- <-. exists ((bp, s) :: N). rewrite EN. destruct (ins_prev_sorted base 0 bp s N HsN ltac:(lia) ltac:(lia) ltac:(lia)) as (P1 & _ & _ & _ & _).
    cbn [ins_prev app] in *. rewrite (proj2 (Z.eqb_neq _ _)) in * by lia. split_and!; [done|done| |cbn; lia|cbn; lia|exists (bp, s); split; [set_solver|cbn; lia]].
    replace ((bp, s) :: N ++ A) with (ins_next bp sb H ++ A) by (by rewrite EN). apply ins_next_blocks. by rewrite Permutation_middle.
  - injection E as <- ->. assert (Hpb : apart (p, sp) (bp, sb)) by (apply (blocks_apart _ _ _ _ _ _ Hb); set_solver).
    destruct (blocks_in _ _ _ (p, sp) Hb ltac:(set_solver)) as (Hplo & Hsp & _). unfold apart, bend in Hpb. cbn in Hpb, Hplo, Hsp.
    destruct (ins_prev_sorted p sp bp s N HsN ltac:(lia) ltac:(lia) ltac:(lia)) as (P1 & P2 & P3 & P4 & x & Px & Pxs). rewrite <-EN in P1, P2, P3, P4, Px.
    exists (H1 ++ ins_prev p sp (ins_next bp sb D)). split_and!; [done| | | | |exists x; split; [set_solver|lia]].
    + change ((base, 0) :: H1 ++ ?X) with (((base, 0) :: H1) ++ X). apply StronglySorted_app. split_and!; [|done|done].
      intros y z Hy Hz. specialize (P2 z Hz). pose proof (Hcross y (p, sp) Hy ltac:(set_solver)) as Hyp. unfold before in *. cbn in Hyp. lia.
    + assert (Hperm : (H1 ++ ins_prev p sp (ins_next bp sb D)) ++ A ≡ₚ ins_prev p sp (ins_next bp sb D) ++ (H1 ++ A)) by solve_Permutation.
      rewrite Hperm. apply ins_prev_blocks. rewrite Permutation_middle. apply ins_next_blocks.
      eapply blocks_proper; [|exact Hb]. solve_Permutation.
    + rewrite !units_app, P3. cbn. lia.
    + rewrite !length_app. cbn. lia.
Qed.

Lemma R_free base H h A bp sb fuel : heap_ok base H h ((bp, sb) :: A) -> (length H + 1 < fuel)%nat ->
  exists H' h', free fuel h (bp + 8) = Some h' /\ heap_ok base H' h' A /\ units H' = units H + sb /\ (length H' <= S (length H))%nat /\
    (exists x, x ∈ H' /\ sb <= x.2) /\ brk h' = brk h /\ untouched A h h'.
Proof.
  intros Hok Hf. pose proof (ok_rising _ _ _ _ Hok) as Hr. pose proof (ok_base _ _ _ _ Hok) as Hb0. pose proof (ok_brk _ _ _ _ Hok) as Hbrk.
  pose proof (ok_blocks _ _ _ _ Hok) as Hbl. destruct (blocks_in _ _ _ (bp, sb) Hbl ltac:(set_solver)) as (Hlo & Hsb & Hhi). unfold bend in Hhi. cbn in Hlo, Hsb, Hhi.
  assert (Hbp : bp ∉ ((base, 0) :: H).*1). { intros Hin. apply (free_not_used _ _ _ _ bp Hok Hin (bp, sb)); [set_solver|]. unfold bend. cbn. lia. }
  destruct (split_place ((base, 0) :: H) bp Hr ltac:(done) ltac:(cbn; lia) Hbp) as (L1 & p & sp & D & EL & Hp & HD).
  pose proof (ok_ring _ _ _ _ Hok) as Hseg. assert (HpL : p ∈ base :: H.*1) by (change (base :: H.*1) with ((base, 0) :: H).*1; rewrite EL, fmap_app; set_solver).
  destruct (insert_free base H (brk h) A bp sb L1 p sp D (ok_sorted _ _ _ _ Hok) Hbl EL Hp HD) as (H' & EH' & Hs' & Hb' & Hu' & Hl' & Hx').
  assert (Hlow : forall x, x ∈ (base, 0) :: H -> low x).
  { intros x [->|Hx]%elem_of_cons; [unfold low, bend; cbn; lia|]. destruct (blocks_in _ _ _ x Hbl ltac:(set_solver)) as (? & ? & ?). unfold low. lia. }
  destruct (free_ring h bp sb L1 p sp D base) as (Hring & Hun & Hbrk').
  - by rewrite <-EL.
  - rewrite <-EL. by apply rising_NoDup.
  - by rewrite <-EL.
  - apply (ok_sizes _ _ _ _ Hok). set_solver.
  - lia.
  - constructor; [unfold low, bend; cbn; lia|]. apply Forall_forall. intros x Hx. apply Hlow. rewrite EL. set_solver.
  - exists H', (set_freep (join_prev (join_next h bp p) bp p) p). unfold free. replace (hadd (bp + 8) (-1)) with bp by (rewrite hadd_id by lia; lia).
    rewrite (find_place fuel h bp base L1 p sp D); try (rewrite <-EL); [|done|done|done|done|done|apply Hok|cbn; lia].
    assert (Hunt : untouched A h (set_freep (join_prev (join_next h bp p) bp p) p)).
    { intros x a Hx Ha. cbn. apply Hun; intros ->.
      - pose proof Hbl as [_ (_ & [Hap _]%fop_cons & _)%fop_app]. specialize (Hap x Hx). unfold apart, bend in *. cbn in Hap. lia.
      - apply (free_not_used _ _ _ _ p Hok HpL x); [set_solver|done]. }
    split_and!; try done. constructor; cbn [brk hdrs freep set_freep]; rewrite ?Hbrk'; try done.
    + by rewrite EH'.
    + change (base :: H'.*1) with ((base, 0) :: H').*1. rewrite EH', fmap_app. apply elem_of_app. right.
      rewrite <-(head_ins_prev p sp (ins_next bp sb D) 0) at 1. apply head_in. destruct (ins_next bp sb D) as [|[]]; cbn; [done|]. by destruct (_ =? _).
    + apply (untouched_sizes A h); [done| |intros; apply (ok_sizes _ _ _ _ Hok); set_solver].
      apply Forall_forall. intros x Hx. by destruct (blocks_in _ _ _ x Hbl ltac:(set_solver)) as (_ & ? & _).
Qed.

(** ** malloc's scan *)

Section Scan.
Context (base : Z) (sbrk : Z -> Z -> option Z).

Lemma final_cons y x l : final y (x :: l) = final x.1 l.
Proof. unfold final. destruct l as [|z l]; [done|]. change (last (x :: z :: l)) with (last (z :: l)). destruct (last (z :: l)) eqn:E; [done|]. by apply last_None in E. Qed.

Lemma final_app y l x l' : final y (l ++ x :: l') = final x.1 l'.
Proof. revert y. induction l as [|z l IH]; intros y; cbn [app]; [apply final_cons|]. by rewrite final_cons, IH. Qed.

Lemma scan h n l fuel y b : seg (hdrs h) l b -> freep h ∉ l.*1 -> (length l <= fuel)%nat ->
  (exists l1 x s l2, l = l1 ++ (x, s) :: l2 /\ n <= s /\ malloc_loop sbrk fuel h n y (head l b) = Some (take_block h n (final y l1) x)) \/
  (Forall (fun x => x.2 < n) l /\ malloc_loop sbrk fuel h n y (head l b) = malloc_loop sbrk (fuel - length l) h n (final y l) b).
Proof.
  revert fuel y. induction l as [|[a s] l IH]; intros fuel y Hs Hf Hl; [right; split; [constructor|by rewrite Nat.sub_0_r]|].
  destruct fuel as [|fuel]; [cbn in Hl; lia|]. destruct Hs as [Ea%ptr_lookup Hs]. destruct Ea as [Ep Es]. apply not_elem_of_cons in Hf as [Hfa Hf]. cbn [head malloc_loop].
  rewrite Es, Ep. destruct (Z.leb_spec n s) as [Hn|Hn]; [left; exists [], a, s, l; done|].
  rewrite (proj2 (Z.eqb_neq _ _)) by done. destruct (IH fuel a Hs Hf ltac:(cbn in Hl; lia)) as [(l1 & x & s' & l2 & -> & Hn' & E)|[Hall E]]; rewrite E.
  - left. exists ((a, s) :: l1), x, s', l2. by rewrite final_cons.
  - right. split; [by constructor|]. by rewrite final_cons.
Qed.

(** What the loop does once it is back at freep. *)
Definition refill (f : nat) (h : heap) (n : Z) : option (heap * Z) :=
  '(h, p) ← morecore sbrk f h n; if p =? 0 then Some (h, 0) else malloc_loop sbrk f h n p (ptr h p).

Lemma full_scan H h A n fuel : heap_ok base H h A -> 0 < n -> (length H + 1 < fuel)%nat ->
  (exists K x s M, (base, 0) :: H = K ++ (x, s) :: M /\ K <> [] /\ n <= s /\ malloc_loop sbrk fuel h n (freep h) (ptr h (freep h)) = Some (take_block h n (final 0 K) x)) \/
  (Forall (fun x => x.2 < n) H /\ malloc_loop sbrk fuel h n (freep h) (ptr h (freep h)) = refill (fuel - (length H + 1)) h n).
Proof.
  intros Hok Hn Hf. pose proof (rising_NoDup _ (ok_rising _ _ _ _ Hok)) as Hnd. pose proof (ok_freep _ _ _ _ Hok) as Hin. change (base :: H.*1) with ((base, 0) :: H).*1 in Hin.
  pose proof (ok_ring _ _ _ _ Hok) as Hs. apply list_elem_of_fmap in Hin as ([f sf] & Ef & (L1 & L2 & EL)%list_elem_of_split). cbn in Ef. rewrite Ef.
  assert (Hlen : (length H + 1 = length L1 + S (length L2))%nat) by (apply (f_equal length) in EL; rewrite length_app in EL; cbn in EL; lia).
  rewrite EL in Hs, Hnd. apply seg_app in Hs as [Hs1 [E1%ptr_lookup Hs2]]. destruct E1 as [-> Esf]. cbn [head] in Hs1. rewrite fmap_app in Hnd. cbn in Hnd.
  apply NoDup_app in Hnd as (_ & HL1 & [HfL2 _]%NoDup_cons).
  destruct (scan h n L2 fuel f base Hs2 ltac:(by rewrite Ef) ltac:(lia)) as [(l1 & x & s & l2 & -> & Hns & E)|[Hall2 E]].
  { left. exists (L1 ++ (f, sf) :: l1), x, s, l2. rewrite EL, <-app_assoc. split_and!; [done|by destruct L1|done|]. by rewrite E, final_app. }
  assert (Ebase : head L1 f = base) by (destruct L1 as [|[a s] L1]; injection EL; cbn; congruence). rewrite E.
  destruct (scan h n L1 (fuel - length L2) (final f L2) f Hs1) as [(l1 & x & s & l2 & -> & Hns & E')|[Hall1 E']]; [rewrite Ef; intros Hin; apply (HL1 f Hin); set_solver|lia| |].
  { left. exists l1, x, s, (l2 ++ (f, sf) :: L2). rewrite <-app_assoc in EL. destruct l1 as [|z l1]; [injection EL; intros; subst; lia|]. split_and!; [exact EL|done|done|].
    rewrite Ebase in E'. rewrite E'. by rewrite !final_cons. }
  rewrite Ebase in E'. rewrite E'. destruct (fuel - length L2 - length L1)%nat as [|f'] eqn:Ef'; [lia|]. cbn [malloc_loop]. rewrite Esf. destruct (Z.leb_spec n sf) as [Hns|Hns].
  - left. exists L1, f, sf, L2. destruct L1 as [|z L1]; [injection EL; intros; subst; lia|]. split_and!; [done|done|done|]. by rewrite !final_cons.
  - right. assert (Hall : Forall (fun x => x.2 < n) ((base, 0) :: H)) by (rewrite EL; apply Forall_app; split; [done|by constructor]). apply Forall_cons in Hall as [_ Hall].
    split; [done|]. rewrite Ef, Z.eqb_refl. replace (fuel - (length H + 1))%nat with f' by lia. done.
Qed.

End Scan.

(** ** malloc takes a block *)

Lemma sorted_middle L x x' M : StronglySorted before (L ++ x :: M) -> x'.1 = x.1 -> bend x' <= bend x -> StronglySorted before (L ++ x' :: M).
Proof.
  intros (Hc & H1 & [H2 Hx]%sorted_cons)%StronglySorted_app E1 E2. apply StronglySorted_app. split_and!; [|done|].
  - intros y z Hy [->|Hz]%elem_of_cons; [|apply Hc; set_solver]. specialize (Hc y x Hy ltac:(set_solver)). unfold before in *. lia.
  - apply sorted_cons. split; [done|]. intros y Hy. specialize (Hx y Hy). unfold before in *. lia.
Qed.

Lemma sorted_drop L x M : StronglySorted before (L ++ x :: M) -> StronglySorted before (L ++ M).
Proof.
  intros (Hc & H1 & [H2 Hx]%sorted_cons)%StronglySorted_app. apply StronglySorted_app. split_and!; [|done|done]. intros y z Hy Hz. apply Hc; set_solver.
Qed.

(** Changing the link of the block before [x] takes [x] out of the ring. *)
Lemma seg_unlink m K y sy x s M b : seg m (K ++ (y, sy) :: (x, s) :: M) b -> NoDup (K ++ (y, sy) :: (x, s) :: M).*1 -> seg (<[y := (head M b, sy)]> m) (K ++ (y, sy) :: M) b.
Proof.
  rewrite fmap_app. intros [Hs1 [_ [_ Hs2]]]%seg_app (_ & HK & [Hy _]%NoDup_cons)%NoDup_app. apply seg_app. cbn in HK, Hy. split; [apply seg_insert; [done|]|].
  - intros Hin. apply (HK y Hin). set_solver.
  - split; [by rewrite lookup_insert_eq|]. apply seg_insert; [done|]. set_solver.
Qed.

Lemma seg_resize m K x s s' M b v : seg m (K ++ (x, s) :: M) b -> NoDup (K ++ (x, s) :: M).*1 -> v = head M b -> seg (<[x := (v, s')]> m) (K ++ (x, s') :: M) b.
Proof.
  rewrite fmap_app. intros [Hs1 [_ Hs2]]%seg_app (_ & HK & [Hx _]%NoDup_cons)%NoDup_app ->. apply seg_app. cbn in HK, Hx. split; [apply seg_insert; [done|]|].
  - intros Hin. apply (HK x Hin). set_solver.
  - split; [by rewrite lookup_insert_eq|]. by apply seg_insert.
Qed.

Lemma used_pos base H h A : heap_ok base H h A -> Forall (fun x => 0 < x.2) A.
Proof. intros Hok. destruct (ok_blocks _ _ _ _ Hok) as [[_ Hf]%Forall_app _]. eapply Forall_impl; [exact Hf|]. cbn. tauto. Qed.

Definition taken (base n : Z) (H : list (Z * Z)) (h : heap) (A : list (Z * Z)) (r : heap * Z) : Prop :=
  exists H', heap_ok base H' r.1 ((r.2 - 8, n) :: A) /\ units H' = units H - n /\ (length H' <= length H)%nat /\ brk r.1 = brk h /\ untouched A h r.1 /\ 0 < r.2.

Lemma take_exact base H h A n K y sy x M : heap_ok base H h A -> (base, 0) :: H = (K ++ [(y, sy)]) ++ (x, n) :: M -> taken base n H h A (take_block h n y x).
Proof.
  intros Hok EL. pose proof (rising_NoDup _ (ok_rising _ _ _ _ Hok)) as Hnd. pose proof (ok_ring _ _ _ _ Hok) as Hs. pose proof (ok_blocks _ _ _ _ Hok) as Hbl.
  pose proof (ok_brk _ _ _ _ Hok) as Hbrk. pose proof (ok_base _ _ _ _ Hok) as Hb0. pose proof (ok_sorted _ _ _ _ Hok) as Hso. rewrite EL in Hs, Hnd, Hso.
  assert (EH : exists K', K ++ [(y, sy)] = (base, 0) :: K' /\ H = K' ++ (x, n) :: M) by (destruct K as [|z K]; injection EL; intros; subst; eauto). destruct EH as (K' & EK & ->).
  destruct (blocks_in _ _ _ (x, n) Hbl ltac:(set_solver)) as (Hx1 & Hx2 & Hx3). unfold bend in Hx3. cbn in Hx1, Hx2, Hx3.
  pose proof Hs as [_ [Ex _]]%seg_app. apply ptr_lookup in Ex as [Ex1 Ex2].
  rewrite <-app_assoc in Hs, Hnd. cbn [app] in Hs, Hnd. pose proof Hs as [_ [Ey _]]%seg_app. apply ptr_lookup in Ey as [_ Ey2].
  unfold take_block. rewrite Ex1, Ex2, Z.eqb_refl, hadd_id by lia. unfold taken. cbn [fst snd]. replace (x + 8 * 1 - 8) with x by lia.
  exists (K' ++ M). rewrite !units_app, !length_app. cbn [units length snd set_freep set_ptr brk].
  assert (Hy : y ∈ base :: (K' ++ (x, n) :: M).*1).
  { change (y ∈ ((base, 0) :: K' ++ (x, n) :: M).*1). rewrite app_comm_cons, <-EK, !fmap_app. set_solver. }
  assert (Hunt : untouched A h (set_freep (set_ptr h y (head M base)) y)).
  { intros z a Hz Ha. cbn. apply lookup_insert_ne. intros <-. by apply (free_not_used _ _ _ _ y Hok Hy z). }
  split_and!; [|lia|lia|done|done|lia]. constructor; cbn [hdrs freep brk set_freep set_ptr]; try done.
  - rewrite app_comm_cons, <-EK, <-app_assoc. rewrite Ey2. by apply seg_unlink with x n.
  - change (y ∈ ((base, 0) :: K' ++ M).*1). rewrite app_comm_cons, <-EK, !fmap_app. set_solver.
  - rewrite app_comm_cons, <-EK. by apply sorted_drop with (x, n).
  - eapply blocks_proper; [|exact Hbl]. solve_Permutation.
  - intros a s [[= -> ->]|Ha]%elem_of_cons.
    + unfold size. cbn. rewrite lookup_insert_ne; [exact Ex2|]. intros ->. rewrite fmap_app in Hnd. apply NoDup_app in Hnd as (_ & _ & [Hnd _]%NoDup_cons). cbn in Hnd. set_solver.
    + by apply (untouched_sizes A h _ Hunt (used_pos _ _ _ _ Hok) (ok_sizes _ _ _ _ Hok)).
Qed.

Lemma take_cut base H h A n K y sy x s M : heap_ok base H h A -> (base, 0) :: H = (K ++ [(y, sy)]) ++ (x, s) :: M -> 0 < n < s -> taken base n H h A (take_block h n y x).
Proof.
  intros Hok EL Hn. pose proof (rising_NoDup _ (ok_rising _ _ _ _ Hok)) as Hnd. pose proof (ok_ring _ _ _ _ Hok) as Hs. pose proof (ok_blocks _ _ _ _ Hok) as Hbl.
  pose proof (ok_brk _ _ _ _ Hok) as Hbrk. pose proof (ok_base _ _ _ _ Hok) as Hb0. pose proof (ok_sorted _ _ _ _ Hok) as Hso. rewrite EL in Hs, Hnd, Hso.
  assert (EH : exists K', K ++ [(y, sy)] = (base, 0) :: K' /\ H = K' ++ (x, s) :: M) by (destruct K as [|z K]; injection EL; intros; subst; eauto). destruct EH as (K' & EK & ->).
  destruct (blocks_in _ _ _ (x, s) Hbl ltac:(set_solver)) as (Hx1 & Hx2 & Hx3). unfold bend in Hx3. cbn in Hx1, Hx2, Hx3.
  pose proof Hs as [_ [Ex _]]%seg_app. apply ptr_lookup in Ex as [Ex1 Ex2].
  set (q := x + 8 * (s - n)). unfold take_block. rewrite Ex2, (proj2 (Z.eqb_neq s n)) by lia. unfold u32. rewrite Z.mod_small by lia.
  set (h1 := set_size h x (s - n)). assert (size h1 x = s - n) as -> by (unfold size, h1; cbn; by rewrite lookup_insert_eq). rewrite !hadd_id by lia. fold q.
  set (h2 := set_freep (set_size h1 q n) y). unfold taken. cbn [fst snd]. replace (q + 8 * 1 - 8) with q by lia.
  assert (Hap : forall z, z ∈ K' ++ M ++ A -> apart (x, s) z).
  { assert (Hbl' : blocks (base + 8) (brk h) ((x, s) :: K' ++ M ++ A)) by (eapply blocks_proper; [|exact Hbl]; solve_Permutation). destruct Hbl' as [_ [Hap _]%fop_cons]. done. }
  assert (Hq : q ∉ ((K ++ [(y, sy)]) ++ (x, s - n) :: M).*1).
  { rewrite EK, fmap_app. cbn. intros [Hq|[Hq|[Hq|Hq]%elem_of_cons]%elem_of_app]%elem_of_cons; [lia| |lia|];
      apply list_elem_of_fmap in Hq as (z & Eq & Hz); specialize (Hap z ltac:(set_solver)); destruct (blocks_in _ _ _ z Hbl ltac:(set_solver)) as (? & ? & ?);
      unfold apart, bend in *; cbn in Hap; lia. }
  assert (Hunt : untouched A h h2).
  { intros z a Hz Ha. specialize (Hap z ltac:(set_solver)). unfold apart, bend in *. cbn in Hap. cbn. rewrite !lookup_insert_ne; [done|lia|lia]. }
  exists (K' ++ (x, s - n) :: M). rewrite !units_app, !length_app. cbn [units length snd]. split_and!; [|lia|lia|done|done|lia].
  constructor; cbn [hdrs freep brk h2 h1 set_freep set_size]; try done.
  - rewrite app_comm_cons, <-EK. apply seg_insert; [|done]. by apply seg_resize with s.
  - change (y ∈ ((base, 0) :: K' ++ (x, s - n) :: M).*1). rewrite app_comm_cons, <-EK, !fmap_app. set_solver.
  - rewrite app_comm_cons, <-EK. apply sorted_middle with (x, s); [done|done|]. unfold bend. cbn. lia.
  - assert (Hbl' : blocks (base + 8) (brk h) ((x, s) :: K' ++ M ++ A)) by (eapply blocks_proper; [|exact Hbl]; solve_Permutation).
    apply (blocks_cut _ _ x s n) in Hbl'; [|done]. eapply blocks_proper; [|exact Hbl']. unfold q. solve_Permutation.
  - intros a t [[= -> ->]|Ha]%elem_of_cons.
    + unfold size. cbn. by rewrite lookup_insert_eq.
    + by apply (untouched_sizes A h _ Hunt (used_pos _ _ _ _ Hok) (ok_sizes _ _ _ _ Hok)).
Qed.

Lemma R_take base H h A n K x s M : heap_ok base H h A -> (base, 0) :: H = K ++ (x, s) :: M -> K <> [] -> 0 < n <= s -> taken base n H h A (take_block h n (final 0 K) x).
Proof.
  intros Hok EL HK Hn. destruct (exists_last HK) as (K0 & [y sy] & ->). rewrite final_snoc. cbn [fst].
  destruct (decide (s = n)) as [->|]; [by eapply take_exact|]. eapply take_cut; [done|done|lia].
Qed.

(** ** malloc *)

Section Main.
Context (base : Z) (sbrk : Z -> Z -> option Z).
(** sbrk (growproc) moves the end of the heap up by what is asked for, and
    never past the kernel's part of the address space. *)
Context (Hsbrk : forall b n b', 0 < n -> sbrk b n = Some b' -> b' = b + n /\ b' <= 2 ^ 31).

(** The new core as a block in use. *)
Lemma grow_ok H h A nu : heap_ok base H h A -> 0 < nu -> brk h + 8 * nu <= 2 ^ 31 ->
  heap_ok base H (set_size (Heap (hdrs h) (freep h) (brk h + 8 * nu)) (brk h) nu) ((brk h, nu) :: A).
Proof.
  clear Hsbrk. intros Hok Hnu Hhi. pose proof (ok_brk _ _ _ _ Hok) as Hbrk. pose proof (ok_base _ _ _ _ Hok) as Hb0. pose proof (ok_blocks _ _ _ _ Hok) as Hbl.
  assert (Hbelow : forall x, x ∈ H ++ A -> x.1 < brk h) by (intros x Hx; destruct (blocks_in _ _ _ x Hbl Hx) as (? & ? & ?); unfold bend in *; lia).
  constructor; cbn [brk hdrs freep set_size]; try apply Hok; [lia| | |].
  - apply seg_insert; [apply Hok|]. intros [E|(x & E & Hx)%list_elem_of_fmap]%elem_of_cons; [cbn in E; lia|]. specialize (Hbelow x ltac:(set_solver)). lia.
  - rewrite <-Permutation_middle. destruct Hbl as [Hf Hap]. split.
    + constructor; [unfold bend; cbn; lia|]. eapply Forall_impl; [exact Hf|]. cbn. lia.
    + apply fop_cons. split; [|done]. intros x Hx. right. cbn. rewrite Forall_forall in Hf. by destruct (Hf x Hx) as (_ & _ & ?).
  - intros a t [[= -> ->]|Ha]%elem_of_cons; unfold size; cbn; [by rewrite lookup_insert_eq|].
    rewrite lookup_insert_ne; [by apply (ok_sizes _ _ _ _ Hok)|]. specialize (Hbelow (a, t) ltac:(set_solver)). cbn in Hbelow. lia.
Qed.

Lemma R_refill H h A n f : heap_ok base H h A -> 0 < n < 2 ^ 28 -> (length H + 2 < f)%nat ->
  exists r, refill sbrk f h n = Some r /\
    (r = (h, 0) \/ exists H1 h1, heap_ok base H1 h1 A /\ units H1 = units H + Z.max n 4096 /\ untouched A h h1 /\ taken base n H1 h1 A r).
Proof using Hsbrk.
  intros Hok Hn Hf. unfold refill, morecore. set (nu := if n <? 4096 then 4096 else n).
  assert (Hnu : nu = Z.max n 4096) by (unfold nu; destruct (Z.ltb_spec n 4096); lia).
  assert (Es : s32 (nu * 8) = nu * 8) by (apply s32_id; unfold is_s32; lia). rewrite Es. destruct (sbrk (brk h) (nu * 8)) as [brk'|] eqn:Eb; [|exists (h, 0); split; [done|by left]].
  destruct (Hsbrk (brk h) (nu * 8) brk' ltac:(lia) Eb) as [-> Hb]. pose proof (ok_brk _ _ _ _ Hok) as Hbrk. pose proof (ok_base _ _ _ _ Hok) as Hb0.
  replace (brk h + nu * 8) with (brk h + 8 * nu) in * by lia. pose proof (grow_ok H h A nu Hok ltac:(lia) Hb) as Hok1. set (h1 := set_size _ _ _) in *.
  rewrite hadd_id by lia. replace (brk h + 8 * 1) with (brk h + 8) by lia.
  destruct (R_free base H h1 A (brk h) nu f Hok1 ltac:(lia)) as (H2 & h2 & -> & Hok2 & Hu2 & Hl2 & (x & Hx & Hxs) & _ & Hunt). cbn [mbind option_bind].
  assert (Hfp : freep h2 <> 0).
  { pose proof (ok_freep _ _ _ _ Hok2) as [->|(z & -> & Hz)%list_elem_of_fmap]%elem_of_cons; [lia|].
    destruct (blocks_in _ _ _ z (ok_blocks _ _ _ _ Hok2) ltac:(set_solver)) as (? & _). lia. }
  rewrite (proj2 (Z.eqb_neq _ _)) by done.
  assert (Hunt' : untouched A h h2).
  { intros z a Hz Ha. rewrite (Hunt z a Hz Ha). cbn. apply lookup_insert_ne.
    destruct (blocks_in _ _ _ z (ok_blocks _ _ _ _ Hok) ltac:(set_solver)) as (_ & _ & ?). lia. }
  destruct (full_scan base sbrk H2 h2 A n f Hok2 ltac:(lia) ltac:(lia)) as [(K & y & s & M & EL & HK & Hns & ->)|[Hall _]].
  - eexists. split; [done|]. right. exists H2, h2. split_and!; [done|lia|done|]. eapply R_take; [done|done|done|lia].
  - rewrite Forall_forall in Hall. specialize (Hall x Hx). cbn in Hall. lia.
Qed.

Lemma nunits_bounds nbytes : 0 <= nbytes <= 2 ^ 31 - 24 -> 0 < nunits nbytes < 2 ^ 28 /\ nbytes <= 8 * (nunits nbytes - 1) < nbytes + 8.
Proof.
  clear Hsbrk. intros Hn. unfold nunits, u32. rewrite Z.mod_small by lia. pose proof (Z.div_mod (nbytes + 8 - 1) 8 ltac:(lia)). pose proof (Z.mod_pos_bound (nbytes + 8 - 1) 8 ltac:(lia)). lia.
Qed.

Lemma malloc_init_id H h A : heap_ok base H h A -> malloc_init base h = h.
Proof.
  clear Hsbrk. intros Hok. unfold malloc_init. rewrite (proj2 (Z.eqb_neq _ _)); [done|]. pose proof (ok_base _ _ _ _ Hok).
  pose proof (ok_freep _ _ _ _ Hok) as [->|(z & -> & Hz)%list_elem_of_fmap]%elem_of_cons; [lia|].
  destruct (blocks_in _ _ _ z (ok_blocks _ _ _ _ Hok) ltac:(set_solver)) as (? & _). lia.
Qed.

Lemma R_malloc H h A fuel nbytes : heap_ok base H h A -> (2 * length H + 5 <= fuel)%nat -> 0 <= nbytes <= 2 ^ 31 - 24 ->
  exists r, malloc base sbrk fuel h nbytes = Some r /\
    (r = (h, 0) \/ exists H1 h1 more, taken base (nunits nbytes) H1 h1 A r /\ units H1 = units H + more /\ (more = 0 \/ more = Z.max (nunits nbytes) 4096) /\ untouched A h h1).
Proof using Hsbrk.
  intros Hok Hf Hn. destruct (nunits_bounds nbytes Hn) as [Hnu _]. unfold malloc. rewrite (malloc_init_id H h A Hok).
  destruct (full_scan base sbrk H h A (nunits nbytes) fuel Hok ltac:(lia) ltac:(lia)) as [(K & y & s & M & EL & HK & Hns & ->)|[_ ->]].
  - eexists. split; [done|]. right. exists H, h, 0. split_and!; [|lia|by left|done]. eapply R_take; [done|done|done|lia].
  - destruct (R_refill H h A (nunits nbytes) (fuel - (length H + 1)) Hok Hnu ltac:(lia)) as (r & -> & [->|(H1 & h1 & Hok1 & Hu1 & Hunt & Ht)]); eexists; (split; [done|]); [by left|].
    right. exists H1, h1, (Z.max (nunits nbytes) 4096). split_and!; [done|done|by right|done].
Qed.
End Main.

Lemma malloc_init_twice base h : malloc_init base (malloc_init base h) = malloc_init base h \/ base = 0.
Proof. unfold malloc_init. destruct (Z.eqb_spec (freep h) 0) as [E|E]; cbn; [|left; by rewrite (proj2 (Z.eqb_neq _ _))]. destruct (Z.eqb_spec base 0); [by right|by left]. Qed.

(** The heap of a program that has not called malloc yet. *)
Lemma heap_start base h : freep h = 0 -> 0 < base -> base + 8 <= brk h <= 2 ^ 31 -> heap_ok base [] (malloc_init base h) [].
Proof.
  intros Ef Hb Hk. unfold malloc_init. rewrite Ef. cbn. constructor; cbn; try done.
  - split; [|done]. unfold ptr. cbn. by rewrite lookup_insert_eq, lookup_insert_eq.
  - set_solver.
  - repeat constructor.
  - split; constructor.
  - intros a s Ha. by apply not_elem_of_nil in Ha.
Qed.

(** C34: malloc and free keep a sound heap.  From any heap that satisfies the
    invariant (also the one before the first call), with sbrk answering as
    growproc does, malloc returns for every request up to 2 GB: either 0, the
    heap unchanged, or a block of its own inside the heap with room for the
    request and less than 8 bytes more, taken from the free units and what sbrk
    gave.  free of any block in use returns too, gives exactly its units back
    and joins neighbours, so that free blocks are never adjacent.  No byte of
    the other blocks in use changes. *)
Theorem umalloc_safe base sbrk H h A fuel
  (Hsbrk : forall b n b', 0 < n -> sbrk b n = Some b' -> b' = b + n /\ b' <= 2 ^ 31)
  (Hok : heap_ok base H (malloc_init base h) A) (Hf : (2 * length H + 5 <= fuel)%nat) :
  (forall nbytes, 0 <= nbytes <= 2 ^ 31 - 24 -> exists h' p, malloc base sbrk fuel h nbytes = Some (h', p) /\
     (p = 0 /\ h' = malloc_init base h \/
      exists H' n more, 0 < p /\ heap_ok base H' h' ((p - 8, n) :: A) /\ nbytes <= 8 * (n - 1) < nbytes + 8 /\
        units H' + n = units H + more /\ (more = 0 \/ more = Z.max n 4096) /\ untouched A (malloc_init base h) h')) /\
  (freep h <> 0 -> forall p n A', A ≡ₚ (p - 8, n) :: A' -> exists H' h', free fuel h p = Some h' /\
     heap_ok base H' h' A' /\ units H' = units H + n /\ untouched A' h h').
Proof.
  split.
  - intros nbytes Hn. destruct (R_malloc base sbrk Hsbrk H _ A fuel nbytes Hok Hf Hn) as ([h' p] & E & Hr). exists h', p.
    split; [unfold malloc in *; destruct (malloc_init_twice base h) as [<-|E0]; [exact E|pose proof (ok_base _ _ _ _ Hok); lia]|].
    destruct Hr as [[= -> ->]|(H1 & h1 & more & (H' & T1 & T2 & _ & _ & T3 & T4) & Hu & Hm & Hunt)]; [by left|]. right. exists H', (nunits nbytes), more.
    destruct (nunits_bounds nbytes Hn) as [_ Hb]. split_and!; [done|done|lia|lia|lia|done|]. intros x a Hx Ha. cbn in T3. by rewrite (T3 x a Hx Ha), (Hunt x a Hx Ha).
  - intros Hfp p n A' HA. unfold malloc_init in Hok. rewrite (proj2 (Z.eqb_neq _ _)) in Hok by done.
    destruct (R_free base H h A' (p - 8) n fuel) as (H' & h' & E & Hok' & Hu & _ & _ & _ & Hunt); [by eapply heap_ok_perm|lia|].
    exists H', h'. replace (p - 8 + 8) with p in E by lia. done.
Qed.

(** A program at address 0 with its static header at 0x1000 and its heap at
    0x4000, in a machine that grants memory up to 0x100000. *)
Definition demo_heap : heap := Heap ∅ 0 0x4000.
Definition demo_sbrk (b n : Z) : option Z := if b + n <=? 0x100000 then Some (b + n) else None.

Lemma demo_sbrk_ok b n b' : 0 < n -> demo_sbrk b n = Some b' -> b' = b + n /\ b' <= 2 ^ 31.
Proof. unfold demo_sbrk. intros Hn. destruct (Z.leb_spec (b + n) 0x100000); [|done]. intros [= <-]. lia. Qed.

Lemma umalloc_safe_witness : exists h' p, malloc 0x1000 demo_sbrk 10 demo_heap 100 = Some (h', p) /\ p <> 0 /\ exists H' n, heap_ok 0x1000 H' h' [(p - 8, n)] /\ 100 <= 8 * (n - 1).
Proof.
  assert (Ho : heap_ok 0x1000 [] (malloc_init 0x1000 demo_heap) []) by (apply heap_start; [reflexivity|reflexivity|cbn; lia]).
  destruct (proj1 (umalloc_safe 0x1000 demo_sbrk [] demo_heap [] 10 demo_sbrk_ok Ho ltac:(cbn; lia)) 100 ltac:(lia)) as (h' & p & E & [[-> ->]|(H' & n & more & Hp & Hh & Hn & _)]).
  - exfalso. assert (X : snd <$> malloc 0x1000 demo_sbrk 10 demo_heap 100 = Some 0xbf98) by (vm_compute; reflexivity). rewrite E in X. discriminate X.
  - exists h', p. split; [exact E|]. split; [lia|]. exists H', n. split; [exact Hh|lia].
Defined.

(** The size computation wraps: the largest requests get the block of a request
    for no bytes. *)
Lemma malloc_huge_wraps base sbrk fuel h nbytes : 2 ^ 32 - 7 <= nbytes < 2 ^ 32 -> malloc base sbrk fuel h nbytes = malloc base sbrk fuel h 0.
Proof.
  intros Hn. unfold malloc. assert (nunits nbytes = nunits 0) as ->; [|done]. unfold nunits, u32.
  replace ((nbytes + 8 - 1) mod 2 ^ 32) with (nbytes + 8 - 1 - 2 ^ 32); [|apply (Z.mod_unique _ _ 1); lia].
  rewrite (Z.div_small (nbytes + 8 - 1 - 2 ^ 32)) by lia. done.
Qed.
