(* ===== verification/Shell.v ===== *)
(** * The shell's command parser (sh.c)

    A command line is parsed in place: pointers into the line are offsets, and
    the words of the resulting tree are pairs of offsets, whose ends are turned
    into string terminators at last.  The nodes are values: malloc always
    succeeds here, and the one node the parser changes after linking it, the
    execcmd that collects the arguments, is kept beside its redirections until
    it is complete. *)

From S2P Require Import Prelude CString.

(** ** Commands *)

Definition MAXARGS : nat := 10.
Definition O_RDONLY : Z := 0.
Definition O_WRONLY : Z := 1.
Definition O_CREATE : Z := 0x200.

(** struct cmd and its five kinds; [W] is what stands for a word. *)
Inductive cmd (W : Type) :=
| EXEC (argv : list W)
| REDIR (c : cmd W) (file : W) (mode fd : Z)
| PIPE (left right : cmd W)
| LIST (left right : cmd W)
| BACK (c : cmd W).
Arguments EXEC {W}.
Arguments REDIR {W}.
Arguments PIPE {W}.
Arguments LIST {W}.
Arguments BACK {W}.

(** A word: its start and its end. *)
Definition span : Type := nat * nat.

(** ** Tokens *)

(** " \t\r\n\v" and "<|>&;()". *)
Definition whitespace : list Z := [32; 9; 13; 10; 11].
Definition symbols : list Z := [60; 124; 62; 38; 59; 40; 41].

Definition isin (set : list Z) (c : Z) : bool := bool_decide (is_Some (strchr set c)).

Section Parser.
(** The line and the offset of its terminator. *)
Context (buf : list Z) (es : nat).

Definition ch (s : nat) : Z := default 0 (buf !! s).

(** while(s < es && strchr(whitespace, *s)) s++; *)
Fixpoint skip (n : nat) (s : nat) : nat :=
  match n with
  | O => s
  | S n' => if isin whitespace (ch s) then skip n' (S s) else s
  end.
Definition skipws (s : nat) : nat := skip (es - s) s.

(** while(s < es && !strchr(whitespace, *s) && !strchr(symbols, *s)) s++; *)
Fixpoint word_end (n : nat) (s : nat) : nat :=
  match n with
  | O => s
  | S n' => if negb (isin whitespace (ch s)) && negb (isin symbols (ch s)) then word_end n' (S s) else s
  end.

(** gettoken: what it returns, *q and *eq; the state is *ps. *)
Definition gettoken : M nat (Z * span) := λ ps,
  let q := skipws ps in
  let c := ch q in
  let '(ret, s) :=
    if c =? 0 then (c, q)
    else if bool_decide (c ∈ [124; 40; 41; 59; 38; 60]) then (c, S q)
    else if c =? 62 then if ch (S q) =? 62 then (43, S (S q)) else (c, S q)
    else (97, word_end (es - q) q) in
  Ret (ret, (q, s)) (skipws s).

Definition peek (toks : list Z) : M nat bool := λ ps,
  let s := skipws ps in
  Ret (negb (ch s =? 0) && isin toks (ch s)) s.

(** ** The recursive-descent parser *)

(** A redirection read and not yet wrapped around its command. *)
Definition redirs := list (span * Z * Z).
Definition redircmds {W} (c : cmd W) (rs : list (W * Z * Z)) : cmd W :=
  foldl (fun c '(file, mode, fd) => REDIR c file mode fd) c rs.

(** parseredirs, as the redirections it wraps around its argument in order. *)
Fixpoint parseredirs (n : nat) : M nat redirs :=
  match n with
  | O => panic "fuel"
  | S n' =>
      p ← peek [60; 62];
      if negb p then mret []
      else
        t ← gettoken;
        f ← gettoken;
        if negb (f.1 =? 97) then panic "missing file for redirection"
        else
          rs ← parseredirs n';
          mret (if t.1 =? 60 then (f.2, O_RDONLY, 0) :: rs
                else if t.1 =? 62 then (f.2, Z.lor O_WRONLY O_CREATE, 1) :: rs
                else if t.1 =? 43 then (f.2, Z.lor O_WRONLY O_CREATE, 1) :: rs
                else rs)
  end.

(** The argument loop of parseexec: the arguments and the redirections. *)
Fixpoint parseargs (n : nat) (argv : list span) (rs : redirs) : M nat (list span * redirs) :=
  match n with
  | O => panic "fuel"
  | S n' =>
      p ← peek [124; 41; 38; 59];
      if p : bool then mret (argv, rs)
      else
        t ← gettoken;
        if t.1 =? 0 then mret (argv, rs)
        else if negb (t.1 =? 97) then panic "syntax"
        else
          let argv := argv ++ [t.2] in
          if (MAXARGS <=? length argv)%nat then panic "too many args"
          else
            rs' ← parseredirs (S es);
            parseargs n' argv (rs ++ rs')
  end.

(** while(peek(ps, es, "&")){ ... cmd = backcmd(cmd); } *)
Fixpoint parseback (n : nat) (c : cmd span) : M nat (cmd span) :=
  match n with
  | O => panic "fuel"
  | S n' =>
      p ← peek [38];
      if negb p then mret c else gettoken ;; parseback n' (BACK c)
  end.

Fixpoint parseline (n : nat) : M nat (cmd span) :=
  match n with
  | O => panic "fuel"
  | S n' =>
      c ← parsepipe n';
      c ← parseback (S es) c;
      p ← peek [59];
      if negb p then mret c
      else gettoken ;; r ← parseline n'; mret (LIST c r)
  end
with parsepipe (n : nat) : M nat (cmd span) :=
  match n with
  | O => panic "fuel"
  | S n' =>
      c ← parseexec n';
      p ← peek [124];
      if negb p then mret c
      else gettoken ;; r ← parsepipe n'; mret (PIPE c r)
  end
with parseexec (n : nat) : M nat (cmd span) :=
  match n with
  | O => panic "fuel"
  | S n' =>
      p ← peek [40];
      if p : bool then parseblock n'
      else
        rs ← parseredirs (S es);
        r ← parseargs (S es) [] rs;
        mret (redircmds (EXEC r.1) r.2)
  end
with parseblock (n : nat) : M nat (cmd span) :=
  match n with
  | O => panic "fuel"
  | S n' =>
      p ← peek [40];
      if negb p then panic "parseblock"
      else
        gettoken ;;
        c ← parseline n';
        p ← peek [41];
        if negb p then panic "syntax - missing )"
        else
          gettoken ;;
          rs ← parseredirs (S es);
          mret (redircmds c rs)
  end.

End Parser.

(** nulterminate: a terminator at the end of every word. *)
Fixpoint nulterminate (c : cmd span) (buf : list Z) : list Z :=
  match c with
  | EXEC argv => foldl (fun b w => <[w.2 := 0]> b) buf argv
  | REDIR c file _ _ => <[file.2 := 0]> (nulterminate c buf)
  | PIPE l r => nulterminate r (nulterminate l buf)
  | LIST l r => nulterminate r (nulterminate l buf)
  | BACK c => nulterminate c buf
  end.

(** Every descent of the four functions reads a token or goes down to
    parseexec, so that four rounds for each byte are enough. *)
Definition parse_fuel (es : nat) : nat := 4 * S es.

(** parsecmd: the tree, and the line as the terminators leave it. *)
Definition parsecmd (buf : list Z) : outcome (list Z) (cmd span) :=
  let es := Z.to_nat (strlen buf) in
  match (c ← parseline buf es (parse_fuel es); peek buf es [];; mret c) 0%nat with
  | Ret c s => if (s =? es)%nat then Ret c (nulterminate c buf) else Panic "syntax"
  | Panic msg => Panic msg
  | Sleep ch s => Panic "fuel"
  end.
