(* ===== verification/ShellProps.v ===== *)
(** * The shell's grammar

    The parser of [Shell.v] accepts exactly the lines whose tokens derive from
    a grammar, and returns the tree of the derivation. *)

From S2P Require Import Prelude CString Shell.

(** ** Tokens of a line *)

Inductive tok (W : Type) := Sym (c : Z) | Word (w : W).
Arguments Sym {W}.
Arguments Word {W}.

Definition mktok (t : Z * span) : tok span := if t.1 =? 97 then Word t.2 else Sym t.1.

Section Lexer.
Context (buf : list Z) (es : nat).

Fixpoint toks_from (n s : nat) : list (tok span) :=
  match n with
  | O => []
  | S n' =>
      match gettoken buf es s with
      | Ret t s' => if t.1 =? 0 then [] else mktok t :: toks_from n' s'
      | _ => []
      end
  end.
Definition toks (s : nat) : list (tok span) := toks_from (S (es - s)) s.

(** The line ends at [es]. *)
Context (Hend : ch buf es = 0) (Hin : forall s, (s < es)%nat -> ch buf s <> 0).

Lemma isin_spec set c : Forall (fun x => x <> 0) set -> isin set c = true <-> c ∈ set.
Proof using Type.
  intros Hs. unfold isin. rewrite bool_decide_eq_true. induction Hs as [|x set Hx _ IH]; cbn [strchr]; [rewrite is_Some_alt, elem_of_nil; done|].
  rewrite (proj2 (Z.eqb_neq x 0)) by done. rewrite elem_of_cons, <-IH. destruct (Z.eqb_spec x c) as [->|Hne]; [naive_solver|]. rewrite fmap_is_Some. naive_solver.
Qed.

Lemma skip_spec n s : (s <= skip buf n s <= s + n)%nat /\ (skip buf n s = s + n \/ isin whitespace (ch buf (skip buf n s)) = false)%nat.
Proof using Type.
  revert s. induction n as [|n IH]; intros s; cbn [skip]; [lia|]. destruct (isin whitespace (ch buf s)) eqn:E; [|rewrite E; split; [lia|by right]].
  destruct (IH (S s)) as [? [?|?]]; (split; [lia|]); [left; lia|by right].
Qed.

Lemma skipws_spec s : (s <= es)%nat -> (s <= skipws buf es s <= es)%nat /\ (skipws buf es s = es \/ isin whitespace (ch buf (skipws buf es s)) = false).
Proof using Type. intros Hs. unfold skipws. destruct (skip_spec (es - s) s) as [? [?|?]]; (split; [lia|]); [left; lia|by right]. Qed.

Lemma skipws_fix s : (s <= es)%nat -> (s = es \/ isin whitespace (ch buf s) = false) -> skipws buf es s = s.
Proof using Type. intros Hs [->|E]; unfold skipws; [by rewrite Nat.sub_diag|]. destruct (es - s)%nat; cbn [skip]; [done|]. by rewrite E. Qed.

Lemma skipws_idem s : (s <= es)%nat -> skipws buf es (skipws buf es s) = skipws buf es s.
Proof using Type. intros Hs. destruct (skipws_spec s Hs). apply skipws_fix; [lia|done]. Qed.

(** The characters of a word. *)
Definition wordch (c : Z) : bool := negb (isin whitespace c) && negb (isin symbols c).

Lemma word_end_spec n s : (s <= word_end buf n s <= s + n)%nat /\ (forall i, (s <= i < word_end buf n s)%nat -> wordch (ch buf i) = true) /\
  (word_end buf n s = s + n \/ wordch (ch buf (word_end buf n s)) = false)%nat.
Proof using Type.
  revert s. induction n as [|n IH]; intros s; cbn [word_end]; [split_and!; [lia|lia|intros; lia|left; lia]|].
  fold (wordch (ch buf s)). destruct (wordch (ch buf s)) eqn:E; [|split_and!; [lia|lia|intros; lia|by right]].
  destruct (IH (S s)) as (H1 & H2 & H3). split_and!; [lia|lia| |destruct H3; [left; lia|by right]].
  intros i Hi. destruct (decide (i = s)) as [->|]; [done|]. apply H2. lia.
Qed.

(** What gettoken does at a place in the line. *)
Lemma gettoken_spec s : (s <= es)%nat ->
  exists r q e s', gettoken buf es s = Ret (r, (q, e)) s' /\ q = skipws buf es s /\ (e <= es)%nat /\ s' = skipws buf es e /\
    (q = es /\ r = 0 /\ e = es \/
     (q < e)%nat /\ ((r = 97 /\ (forall i, (q <= i < e)%nat -> wordch (ch buf i) = true) /\ (e = es \/ wordch (ch buf e) = false)) \/
                     (r <> 97 /\ r <> 0 /\ ch buf q ∈ symbols /\ ch buf q = if r =? 43 then 62 else r))).
Proof using Hend Hin.
  intros Hs. destruct (skipws_spec s Hs) as [Hq Hqw]. unfold gettoken. set (q := skipws buf es s) in *.
  destruct (Z.eqb_spec (ch buf q) 0) as [E0|E0].
  { assert (q = es) as Eq by (destruct (decide (q < es)%nat); [by destruct (Hin q)|lia]).
    eexists _, _, _, _. split; [done|]. split; [done|]. split; [lia|]. split; [done|]. left. auto. }
  assert (Hlt : (q < es)%nat) by (destruct (decide (q = es)) as [E|]; [by rewrite E in E0|lia]).
  destruct Hqw as [?|Hqw]; [lia|].
  case_bool_decide as Es.
  { eexists _, _, _, _. split; [done|]. split; [done|]. split; [lia|]. split; [done|]. right. split; [lia|]. right.
    rewrite !elem_of_cons, elem_of_nil in Es. rewrite (proj2 (Z.eqb_neq (ch buf q) 43)) by lia.
    split_and!; [lia|done|unfold symbols; rewrite !elem_of_cons, elem_of_nil; lia|done]. }
  destruct (Z.eqb_spec (ch buf q) 62) as [E1|E1].
  { destruct (Z.eqb_spec (ch buf (S q)) 62) as [E2|E2].
    - assert (S q < es)%nat by (destruct (decide (S q = es)) as [E|]; [by rewrite E, Hend in E2|lia]).
      eexists _, _, _, _. split; [done|]. split; [done|]. split; [lia|]. split; [done|]. right. split; [lia|]. right. rewrite E1. split_and!; [done|done|unfold symbols; rewrite !elem_of_cons, elem_of_nil; lia|done].
    - eexists _, _, _, _. split; [done|]. split; [done|]. split; [lia|]. split; [done|]. right. split; [lia|]. right. rewrite E1. split_and!; [done|done|unfold symbols; rewrite !elem_of_cons, elem_of_nil; lia|done]. }
  destruct (word_end_spec (es - q) q) as (W1 & W2 & W3).
  eexists _, _, _, _. split; [done|]. split; [done|]. split; [lia|]. split; [done|]. right.
  assert (Hw : wordch (ch buf q) = true).
  { unfold wordch. rewrite Hqw. destruct (isin symbols (ch buf q)) eqn:E; [|done]. apply isin_spec in E; [|by repeat constructor]. exfalso. apply Es. unfold symbols in E. rewrite !elem_of_cons, elem_of_nil in E. rewrite !elem_of_cons. tauto. }
  assert (q < word_end buf (es - q) q)%nat.
  { destruct (decide (word_end buf (es - q) q = q)) as [E|]; [|lia]. rewrite E in W3. destruct W3; [lia|congruence]. }
  split; [lia|]. left. split_and!; [done|done|]. destruct W3; [left; lia|by right].
Qed.

Lemma toks_from_enough n m s : (s <= es)%nat -> (es - s < n)%nat -> (es - s < m)%nat -> toks_from n s = toks_from m s.
Proof using Hend Hin.
  revert m s. induction n as [|n IH]; intros [|m] s Hs Hn Hm; [lia..|]. cbn [toks_from].
  destruct (gettoken_spec s Hs) as (r & q & e & s' & -> & Eq & He & Es' & Hr). cbn [fst]. destruct (Z.eqb_spec r 0); [done|]. f_equal.
  destruct (skipws_spec s Hs), (skipws_spec e He). apply IH; [lia|..]; destruct Hr as [(? & ? & ?)|[? _]]; lia.
Qed.

(** The place [s] stands before the tokens [ts]. *)
Definition at_ (s : nat) (ts : list (tok span)) : Prop := (s <= es)%nat /\ toks s = ts.

Lemma at_gettoken s ts : at_ s ts -> exists r w s', gettoken buf es s = Ret (r, w) s' /\
  match ts with [] => r = 0 /\ at_ s' [] | t :: ts' => r <> 0 /\ t = mktok (r, w) /\ at_ s' ts' end.
Proof using Hend Hin.
  intros [Hs <-]. destruct (gettoken_spec s Hs) as (r & q & e & s' & E & Eq & He & Es' & Hr). exists r, (q, e), s'. split; [done|].
  destruct (skipws_spec s Hs), (skipws_spec e He). unfold toks at 1. cbn [toks_from]. rewrite E. cbn [fst]. destruct (Z.eqb_spec r 0) as [->|Hr0].
  - split; [done|]. split; [lia|]. destruct Hr as [(-> & _ & ->)|[Hlt [[? _]|(? & ? & _)]]]; [|done..]. rewrite skipws_fix in Es' by auto. subst s'.
    unfold toks. rewrite Nat.sub_diag. cbn [toks_from]. destruct (gettoken_spec es ltac:(lia)) as (r & q' & e' & s' & -> & Eq' & He' & Es' & Hr). rewrite skipws_fix in Eq' by auto.
    destruct Hr as [(_ & -> & _)|[? _]]; [done|lia].
  - split; [done|]. split; [done|]. split; [lia|]. apply toks_from_enough; [lia|lia|]. destruct Hr as [(? & ? & ?)|[? _]]; [done|lia].
Qed.

(** The first token is one of the symbols that start with [set]. *)
Definition leads (set : list Z) {W} (ts : list (tok W)) : bool :=
  match ts with Sym c :: _ => isin set (if c =? 43 then 62 else c) | _ => false end.

Lemma at_skipws s ts : at_ s ts -> at_ (skipws buf es s) ts.
Proof using Hend Hin.
  intros [Hs <-]. destruct (skipws_spec s Hs) as [H1 _]. split; [lia|]. unfold toks. rewrite (toks_from_enough _ (S (es - s)) (skipws buf es s)) by lia. cbn [toks_from].
  assert (gettoken buf es (skipws buf es s) = gettoken buf es s) as -> by (unfold gettoken; by rewrite skipws_idem). done.
Qed.

Lemma symbols_nz : Forall (fun x => x <> 0) symbols.
Proof using Type. by repeat constructor. Qed.

Lemma at_peek set s ts : Forall (fun x => x ∈ symbols) set -> at_ s ts -> exists s', peek buf es set s = Ret (leads set ts) s' /\ at_ s' ts.
Proof using Hend Hin.
  intros Hset Hat. exists (skipws buf es s). split; [|by apply at_skipws]. destruct Hat as [Hs <-]. unfold peek. f_equal. unfold toks. cbn [toks_from].
  assert (Hnz : Forall (fun x => x <> 0) set). { eapply Forall_impl; [exact Hset|]. intros x Hx. pose proof symbols_nz as Hz. rewrite Forall_forall in Hz. by apply Hz. }
  destruct (gettoken_spec s Hs) as (r & q & e & s' & -> & Eq & He & Es' & Hr). rewrite <-Eq. cbn [fst].
  destruct Hr as [(Eq' & -> & _)|[Hqe [(-> & Hw & _)|(Hr97 & Hr0 & Hsy & Ec)]]].
  - by rewrite Eq', Hend.
  - cbn [Z.eqb leads mktok]. rewrite andb_false_iff. right. specialize (Hw q ltac:(lia)). unfold wordch in Hw. apply andb_true_iff in Hw as [_ Hw%negb_true_iff].
    destruct (isin set (ch buf q)) eqn:E; [|done]. apply isin_spec in E; [|done]. rewrite Forall_forall in Hset. apply Hset in E. apply isin_spec in E; [congruence|apply symbols_nz].
  - rewrite (proj2 (Z.eqb_neq r 0)) by done. unfold mktok. cbn [fst snd]. rewrite (proj2 (Z.eqb_neq r 97)) by done. cbn [leads]. rewrite <-Ec.
    pose proof symbols_nz as Hz. rewrite Forall_forall in Hz. by rewrite (proj2 (Z.eqb_neq (ch buf q) 0)) by (by apply Hz).
Qed.

Lemma at_end s : at_ s [] -> skipws buf es s = es.
Proof using Hend Hin.
  intros [Hs E]. unfold toks in E. cbn [toks_from] in E. destruct (gettoken_spec s Hs) as (r & q & e & s' & E' & Eq & He & Es' & Hr). rewrite E' in E. cbn [fst] in E.
  destruct (Z.eqb_spec r 0) as [->|]; [|done]. destruct Hr as [(<- & _)|[_ [(? & _)|(_ & ? & _)]]]; done.
Qed.

Lemma at_es : at_ es [].
Proof using Hend Hin.
  split; [lia|]. unfold toks. rewrite Nat.sub_diag. cbn [toks_from]. destruct (gettoken_spec es ltac:(lia)) as (r & q & e & s' & -> & Eq & He & Es' & Hr).
  rewrite skipws_fix in Eq by auto. destruct Hr as [(_ & -> & _)|[? _]]; [done|lia].
Qed.

Lemma length_toks s ts : at_ s ts -> (length ts <= es - s)%nat.
Proof using Hend Hin.
  intros [Hs <-]. unfold toks. assert (Hg : forall n s, (s <= es)%nat -> (length (toks_from n s) <= es - s)%nat); [|by apply Hg].
  induction n as [|n IH]; intros s0 Hs0; cbn [toks_from]; [cbn; lia|].
  destruct (gettoken_spec s0 Hs0) as (r & q & e & s' & -> & Eq & He & Es' & Hr). cbn [fst]. destruct (Z.eqb_spec r 0); [cbn; lia|]. cbn [length].
  destruct (skipws_spec s0 Hs0), (skipws_spec e He). specialize (IH s' ltac:(lia)). destruct Hr as [(? & ? & ?)|[? _]]; [done|lia].
Qed.
End Lexer.

(** ** The grammar *)

Inductive rop := RIn | ROut | RApp.

Inductive elem (W : Type) := Arg (w : W) | Red (o : rop) (w : W).
Arguments Arg {W}.
Arguments Red {W}.

(** A line is a pipeline, perhaps in the background, and what follows a
    semicolon; a pipeline is made of blocks and simple commands. *)
Inductive line (W : Type) :=
| LEnd (p : pipe W) (bg : nat)
| LSeq (p : pipe W) (bg : nat) (l : line W)
with pipe (W : Type) :=
| POne (e : command W)
| PPipe (e : command W) (p : pipe W)
with command (W : Type) :=
| CBlock (l : line W) (rs : list (rop * W))
| CSimple (els : list (elem W)).
Arguments LEnd {W}.
Arguments LSeq {W}.
Arguments POne {W}.
Arguments PPipe {W}.
Arguments CBlock {W}.
Arguments CSimple {W}.

Scheme line_mut := Induction for line Sort Prop
  with pipe_mut := Induction for pipe Sort Prop
  with command_mut := Induction for command Sort Prop.
Combined Scheme grammar_ind from line_mut, pipe_mut, command_mut.

Section Grammar.
Context {W : Type}.

Definition red_sym (o : rop) : Z := match o with RIn => 60 | ROut => 62 | RApp => 43 end.
Definition red_toks (r : rop * W) : list (tok W) := [Sym (red_sym r.1); Word r.2].
Definition elem_toks (e : elem W) : list (tok W) := match e with Arg w => [Word w] | Red o w => red_toks (o, w) end.

(** The tokens of a tree. *)
Fixpoint line_toks (l : line W) : list (tok W) :=
  match l with
  | LEnd p n => pipe_toks p ++ replicate n (Sym 38)
  | LSeq p n l => pipe_toks p ++ replicate n (Sym 38) ++ Sym 59 :: line_toks l
  end
with pipe_toks (p : pipe W) : list (tok W) :=
  match p with
  | POne e => command_toks e
  | PPipe e p => command_toks e ++ Sym 124 :: pipe_toks p
  end
with command_toks (e : command W) : list (tok W) :=
  match e with
  | CBlock l rs => Sym 40 :: line_toks l ++ Sym 41 :: concat (map red_toks rs)
  | CSimple els => concat (map elem_toks els)
  end.

Definition args (els : list (elem W)) : list W := omap (fun e => match e with Arg w => Some w | _ => None end) els.
Definition reds (els : list (elem W)) : list (rop * W) := omap (fun e => match e with Red o w => Some (o, w) | _ => None end) els.

Definition red_mode (r : rop * W) : W * Z * Z :=
  match r.1 with RIn => (r.2, O_RDONLY, 0) | ROut | RApp => (r.2, Z.lor O_WRONLY O_CREATE, 1) end.

(** The command a tree stands for. *)
Fixpoint line_cmd (l : line W) : cmd W :=
  match l with
  | LEnd p n => Nat.iter n BACK (pipe_cmd p)
  | LSeq p n l => LIST (Nat.iter n BACK (pipe_cmd p)) (line_cmd l)
  end
with pipe_cmd (p : pipe W) : cmd W :=
  match p with
  | POne e => command_cmd e
  | PPipe e p => PIPE (command_cmd e) (pipe_cmd p)
  end
with command_cmd (e : command W) : cmd W :=
  match e with
  | CBlock l rs => redircmds (line_cmd l) (map red_mode rs)
  | CSimple els => redircmds (EXEC (args els)) (map red_mode (reds els))
  end.

(** Every simple command has fewer than MAXARGS arguments. *)
Fixpoint line_fits (l : line W) : bool :=
  match l with LEnd p _ => pipe_fits p | LSeq p _ l => pipe_fits p && line_fits l end
with pipe_fits (p : pipe W) : bool :=
  match p with POne e => command_fits e | PPipe e p => command_fits e && pipe_fits p end
with command_fits (e : command W) : bool :=
  match e with CBlock l _ => line_fits l | CSimple els => (length (args els) <? MAXARGS)%nat end.

End Grammar.
