(* ===== verification/ShellParse.v ===== *)
(** * The parser implements the grammar

    Both directions: the parser returns the command of every tree of the
    grammar whose tokens are those of the line, and whatever it returns is the
    command of such a tree; and it never runs out of rounds. *)

From S2P Require Import Prelude CString Shell ShellProps.

Lemma mktok_sym r w c : mktok (r, w) = Sym c -> r = c /\ r <> 97.
Proof. unfold mktok. cbn. destruct (Z.eqb_spec r 97); [done|]. by intros [= ->]. Qed.
Lemma mktok_word r w w' : mktok (r, w) = Word w' -> r = 97 /\ w = w'.
Proof. unfold mktok. cbn. destruct (Z.eqb_spec r 97); [|done]. by intros [= ->]. Qed.

Section Parse.
Context (buf : list Z) (es : nat).
Context (Hend : ch buf es = 0) (Hin : forall s, (s < es)%nat -> ch buf s <> 0).

(** One step of a run at a known place. *)
#[local] Ltac look Hat :=
  let E := fresh "E" in let s' := fresh "s" in let Hat' := fresh "Hat" in
  match goal with |- context [(peek buf es ?set ≫= _) ?s] =>
    destruct (at_peek buf es Hend Hin set s _ ltac:(repeat constructor; set_solver) Hat) as (s' & E & Hat');
    rewrite (bind_Ret _ _ _ _ _ E); clear E Hat; rename Hat' into Hat; cbn [leads negb] end.
#[local] Ltac take Hat :=
  let E := fresh "E" in let s' := fresh "s" in let Hat' := fresh "Hat" in let r := fresh "r" in let w := fresh "w" in let Hr := fresh "Hr" in let Ht := fresh "Ht" in
  destruct (at_gettoken buf es Hend Hin _ _ Hat) as (r & w & s' & E & Hr & Ht & Hat');
  rewrite (bind_Ret _ _ _ _ _ E); clear E Hat; rename Hat' into Hat.

Lemma C_redirs rs : forall n s rest, at_ buf es s (concat (map red_toks rs) ++ rest) -> leads [60; 62] rest = false -> (length rs < n)%nat ->
  exists s', parseredirs buf es n s = Ret (map red_mode rs) s' /\ at_ buf es s' rest.
Proof using Hend Hin.
  induction rs as [|[o w] rs IH]; intros [|n] s rest Hat Hrest Hn; [cbn in Hn; lia| |cbn in Hn; lia|]; cbn [parseredirs map concat app red_toks fst snd] in *.
  - look Hat. rewrite Hrest. by eexists.
  - look Hat. assert (isin [60; 62] (if red_sym o =? 43 then 62 else red_sym o) = true) as -> by (by destruct o). cbn [negb].
    take Hat. symmetry in Ht. apply mktok_sym in Ht as [-> _]. take Hat. symmetry in Ht. apply mktok_word in Ht as [-> ->]. cbn [fst snd]. rewrite Z.eqb_refl. cbn [negb].
    destruct (IH n _ rest Hat Hrest ltac:(cbn in Hn; lia)) as (s' & E & Hat'). rewrite (bind_Ret _ _ _ _ _ E). exists s'. split; [|done].
    by destruct o.
Qed.

(** Redirections that lead a list of elements. *)
Fixpoint lead_reds {W} (els : list (elem W)) : list (rop * W) * list (elem W) :=
  match els with
  | Red o w :: els' => let '(rs, r) := lead_reds els' in ((o, w) :: rs, r)
  | _ => ([], els)
  end.

Lemma lead_reds_spec {W} (els : list (elem W)) rs r : lead_reds els = (rs, r) ->
  concat (map elem_toks els) = concat (map red_toks rs) ++ concat (map elem_toks r) /\ args els = args r /\ reds els = rs ++ reds r /\
  (r = [] \/ exists w r', r = Arg w :: r') /\ (length rs + length r = length els)%nat.
Proof using Type.
  revert rs r. induction els as [|[w|o w] els IH]; intros rs r; cbn [lead_reds].
  - intros [= <- <-]. split_and!; try done. by left.
  - intros [= <- <-]. split_and!; try done. right. eauto.
  - destruct (lead_reds els) as [rs' r'] eqn:E. intros [= <- <-]. destruct (IH _ _ eq_refl) as (E1 & E2 & E3 & E4 & E5).
    split_and!; [cbn; rewrite E1; done|done|unfold reds in *; cbn; by rewrite E3|done|cbn; lia].
Qed.

Definition stops {W} (ts : list (tok W)) : bool := match ts with [] => true | _ => leads [124; 41; 38; 59] ts end.

Lemma follow_leads {W} set set' (ts : list (tok W)) : Forall (fun x => x <> 0) set -> Forall (fun x => x <> 0) set' -> (forall c, c ∈ set' -> c ∉ set) ->
  match ts with [] => true | _ => leads set ts end = true -> leads set' ts = false.
Proof using Type.
  intros Hz Hz' Hd Hs. destruct ts as [|[c|w] ts]; [done| |done]. cbn in *. apply isin_spec in Hs; [|done].
  destruct (isin set' _) eqn:E; [|done]. apply isin_spec in E; [|done]. by apply Hd in E.
Qed.

(** Follow sets written out. *)
#[local] Ltac disjoint := intros ?; rewrite !elem_of_cons, !elem_of_nil; lia.
#[local] Ltac follow set := eapply (follow_leads set); [by repeat constructor|by repeat constructor|disjoint|eassumption].

Lemma no_red {W} (rest : list (tok W)) : stops rest = true -> leads [60; 62] rest = false.
Proof using Type. intros Hr. follow [124; 41; 38; 59]. Qed.

Lemma C_args n : forall els argv rs s rest, (els = [] \/ exists w els', els = Arg w :: els') -> at_ buf es s (concat (map elem_toks els) ++ rest) -> stops rest = true ->
  (length els < n)%nat -> (length els <= es)%nat -> (length argv + length (args els) < MAXARGS)%nat ->
  exists s', parseargs buf es n argv rs s = Ret (argv ++ args els, rs ++ map red_mode (reds els)) s' /\ at_ buf es s' rest.
Proof using Hend Hin.
  induction n as [|n IH]; intros els argv rs s rest Hels Hat Hrest Hn Hes Hargs; [lia|]. cbn [parseargs]. destruct Hels as [->|(w & els' & ->)].
  - cbn [map concat app args reds omap list_omap] in *. rewrite !app_nil_r. look Hat. destruct rest as [|t rest]; cbn [stops] in Hrest.
    + cbn [leads]. destruct (at_gettoken buf es Hend Hin _ _ Hat) as (r & w & s' & E & -> & Hat'). rewrite (bind_Ret _ _ _ _ _ E). by eexists.
    + rewrite Hrest. by eexists.
  - cbn [map concat elem_toks app] in *. look Hat. take Hat. symmetry in Ht. apply mktok_word in Ht as [-> ->]. cbn [fst snd]. rewrite Z.eqb_refl. cbn [negb].
    change (97 =? 0) with false. change (args (Arg w :: els')) with (w :: args els') in *. cbn [length] in *.
    rewrite (proj2 (Nat.leb_gt MAXARGS (length (argv ++ [w])))) by (rewrite length_app; cbn [length]; lia).
    destruct (lead_reds els') as [rs0 r0] eqn:El. apply lead_reds_spec in El as (E1 & E2 & E3 & E4 & E5). rewrite E1, <-app_assoc in Hat.
    destruct (C_redirs rs0 (S es) _ _ Hat) as (s' & E & Hat'); [|lia|].
    { destruct E4 as [->|(w' & r' & ->)]; [by apply no_red|done]. }
    rewrite (bind_Ret _ _ _ _ _ E). destruct (IH r0 (argv ++ [w]) (rs ++ map red_mode rs0) s' rest E4 Hat' Hrest ltac:(lia) ltac:(lia)) as (s'' & -> & Hat'').
    { rewrite length_app, <-E2. cbn [length]. lia. }
    exists s''. split; [|done]. change (reds (Arg w :: els')) with (reds els'). by rewrite E2, E3, map_app, <-!app_assoc.
Qed.

Lemma leads_sym {W} set c (ts : list (tok W)) : leads set (Sym c :: ts) = isin set (if c =? 43 then 62 else c).
Proof using Type. done. Qed.

Lemma C_back k : forall n c s rest, at_ buf es s (replicate k (Sym 38) ++ rest) -> leads [38] rest = false -> (k < n)%nat ->
  exists s', parseback buf es n c s = Ret (Nat.iter k BACK c) s' /\ at_ buf es s' rest.
Proof using Hend Hin.
  induction k as [|k IH]; intros [|n] c s rest Hat Hrest Hn; [lia| |lia|]; cbn [parseback replicate app] in *; look Hat.
  - rewrite Hrest. by eexists.
  - change (isin [38] (if 38 =? 43 then 62 else 38)) with true. cbn [negb]. take Hat.
    destruct (IH n (BACK c) _ rest Hat Hrest ltac:(lia)) as (s' & -> & Hat'). exists s'. split; [|done]. f_equal. clear. by rewrite <-Nat.iter_succ_r.
Qed.

(** What may follow a pipeline, and a line. *)
Definition after_pipe {W} (ts : list (tok W)) : bool := match ts with [] => true | _ => leads [41; 38; 59] ts end.
Definition after_line {W} (ts : list (tok W)) : bool := match ts with [] => true | _ => leads [41] ts end.

Lemma follow_sub {W} set set' (ts : list (tok W)) : Forall (fun x => x <> 0) set -> Forall (fun x => x <> 0) set' -> (forall x, x ∈ set -> x ∈ set') ->
  match ts with [] => true | _ => leads set ts end = true -> match ts with [] => true | _ => leads set' ts end = true.
Proof using Type.
  intros H1 H2 Hs. destruct ts as [|[c|w] ts]; [done| |done]. cbn. rewrite !isin_spec by done. apply Hs.
Qed.

Lemma els_no_block els (rest : list (tok span)) : stops rest = true -> leads [40] (concat (map elem_toks els) ++ rest) = false.
Proof using Type.
  intros Hr. destruct els as [|[w|o w] els]; cbn [map concat app]; [|done|by destruct o].
  follow [124; 41; 38; 59].
Qed.

Lemma length_elem_toks {W} (els : list (elem W)) : (length els <= length (concat (map elem_toks els)))%nat.
Proof using Type. induction els as [|[w|o w] els IH]; cbn; lia. Qed.
Lemma length_red_toks {W} (rs : list (rop * W)) : (length rs <= length (concat (map red_toks rs)))%nat.
Proof using Type. induction rs as [|[o w] rs IH]; cbn; lia. Qed.

Lemma after_back {W} k (rest : list (tok W)) : after_pipe rest = true -> after_pipe (replicate k (Sym 38) ++ rest) = true.
Proof using Type. by destruct k. Qed.

Definition C_line (l : line span) : Prop := forall n s rest, line_fits l = true -> at_ buf es s (line_toks l ++ rest) -> after_line rest = true -> (4 * length (line_toks l) + 3 <= n)%nat ->
  exists s', parseline buf es n s = Ret (line_cmd l) s' /\ at_ buf es s' rest.
Definition C_pipe (p : pipe span) : Prop := forall n s rest, pipe_fits p = true -> at_ buf es s (pipe_toks p ++ rest) -> after_pipe rest = true -> (4 * length (pipe_toks p) + 2 <= n)%nat ->
  exists s', parsepipe buf es n s = Ret (pipe_cmd p) s' /\ at_ buf es s' rest.
Definition C_command (e : command span) : Prop := forall n s rest, command_fits e = true -> at_ buf es s (command_toks e ++ rest) -> stops rest = true -> (4 * length (command_toks e) + 1 <= n)%nat ->
  exists s', parseexec buf es n s = Ret (command_cmd e) s' /\ at_ buf es s' rest.

Lemma C_simple els : C_command (CSimple els).
Proof using Hend Hin.
  intros [|n] s rest Hfit Hat Hrest Hn; [lia|]. cbn [parseexec command_toks command_cmd command_fits] in *. apply Nat.ltb_lt in Hfit.
  pose proof (length_toks buf es Hend Hin _ _ Hat) as Hlen. rewrite length_app in Hlen. pose proof (length_elem_toks els).
  look Hat. rewrite els_no_block by done. destruct (lead_reds els) as [rs0 r0] eqn:El. apply lead_reds_spec in El as (E1 & E2 & E3 & E4 & E5). rewrite E1, <-app_assoc in Hat.
  destruct (C_redirs rs0 (S es) _ _ Hat) as (s' & E & Hat'); [destruct E4 as [->|(w' & r' & ->)]; [by apply no_red|done]|lia|]. rewrite (bind_Ret _ _ _ _ _ E).
  destruct (C_args (S es) r0 [] (map red_mode rs0) s' rest E4 Hat' Hrest ltac:(lia) ltac:(lia) ltac:(cbn [length]; rewrite <-E2; lia)) as (s'' & E' & Hat'').
  rewrite (bind_Ret _ _ _ _ _ E'). exists s''. split; [|done]. cbn [fst snd app]. by rewrite E2, E3, map_app.
Qed.

Lemma C_block l rs : C_line l -> C_command (CBlock l rs).
Proof using Hend Hin.
  intros IH [|n] s rest Hfit Hat Hrest Hn; [lia|]. cbn [parseexec command_toks command_cmd command_fits app length] in *.
  pose proof (length_toks buf es Hend Hin _ _ Hat) as Hlen. cbn [length] in Hlen. repeat (rewrite length_app in Hlen; cbn [length] in Hlen). repeat (rewrite length_app in Hn; cbn [length] in Hn).
  pose proof (length_red_toks rs). look Hat. change (isin [40] (if 40 =? 43 then 62 else 40)) with true. cbv iota. destruct n as [|n]; [lia|]. cbn [parseblock].
  look Hat. change (isin [40] (if 40 =? 43 then 62 else 40)) with true. cbn [negb]. take Hat. rewrite <-app_assoc in Hat. cbn [app] in Hat.
  destruct (IH n _ _ Hfit Hat ltac:(done) ltac:(lia)) as (s' & E & Hat'). rewrite (bind_Ret _ _ _ _ _ E).
  look Hat'. change (isin [41] (if 41 =? 43 then 62 else 41)) with true. cbn [negb]. take Hat'.
  destruct (C_redirs rs (S es) _ _ Hat') as (s'' & E'' & Hat''); [by apply no_red|lia|]. rewrite (bind_Ret _ _ _ _ _ E''). by exists s''.
Qed.

(** The pipeline of a line and its ampersands. *)
Lemma C_line_head p k n s rest : C_pipe p -> pipe_fits p = true -> at_ buf es s (pipe_toks p ++ replicate k (Sym 38) ++ rest) -> after_pipe rest = true -> leads [38] rest = false ->
  (4 * length (pipe_toks p) + 2 <= n)%nat -> exists s', (c ← parsepipe buf es n; parseback buf es (S es) c) s = Ret (Nat.iter k BACK (pipe_cmd p)) s' /\ at_ buf es s' rest.
Proof using Hend Hin.
  intros IH Hfit Hat Hrest Hr Hn. pose proof (length_toks buf es Hend Hin _ _ Hat) as Hlen. rewrite !length_app, length_replicate in Hlen.
  destruct (IH n _ _ Hfit Hat (after_back _ _ Hrest) Hn) as (s' & E & Hat'). rewrite (bind_Ret _ _ _ _ _ E). apply C_back; [done|done|lia].
Qed.

Lemma bind_assoc_run {A B C} (m : M nat A) (k : A -> M nat B) (j : B -> M nat C) s b s' : (a ← m; k a) s = Ret b s' -> (a ← m; b ← k a; j b) s = j b s'.
Proof using Type. intros (a & s1 & E1 & E2)%bind_Ret_inv. by rewrite (bind_Ret _ _ _ _ _ E1), (bind_Ret _ _ _ _ _ E2). Qed.

Lemma complete : (forall l, C_line l) /\ (forall p, C_pipe p) /\ (forall e, C_command e).
Proof using Hend Hin.
  apply grammar_ind.
  - intros p IH k [|n] s rest Hfit Hat Hrest Hn; [lia|]. cbn [parseline line_toks line_cmd line_fits] in *. rewrite <-app_assoc in Hat. rewrite length_app in Hn.
    assert (Hp : after_pipe rest = true) by (apply (follow_sub [41] [41; 38; 59]); [by repeat constructor..|set_solver|done]).
    destruct (C_line_head p k n s rest IH Hfit Hat Hp) as (s' & E & Hat'); [follow [41]|lia|].
    rewrite (bind_assoc_run _ _ _ _ _ _ E). look Hat'. exists s0. split; [|done]. assert (leads [59] rest = false) as -> by (follow [41]). done.
  - intros p IH k l IHl [|n] s rest Hfit Hat Hrest Hn; [lia|]. cbn [parseline line_toks line_cmd line_fits] in *. apply andb_true_iff in Hfit as [Hf1 Hf2].
    rewrite <-!app_assoc in Hat. cbn [app] in Hat. rewrite !length_app in Hn. cbn [length] in Hn.
    destruct (C_line_head p k n s (Sym 59 :: line_toks l ++ rest) IH Hf1 Hat ltac:(done) ltac:(done) ltac:(lia)) as (s' & E & Hat').
    rewrite (bind_assoc_run _ _ _ _ _ _ E). look Hat'. change (isin [59] (if 59 =? 43 then 62 else 59)) with true. cbn [negb]. take Hat'.
    destruct (IHl n _ rest Hf2 Hat' Hrest ltac:(lia)) as (s'' & E'' & Hat''). rewrite (bind_Ret _ _ _ _ _ E''). by exists s''.
  - intros e IH [|n] s rest Hfit Hat Hrest Hn; [lia|]. cbn [parsepipe pipe_toks pipe_cmd pipe_fits] in *.
    assert (Hst : stops rest = true) by (apply (follow_sub [41; 38; 59] [124; 41; 38; 59]); [by repeat constructor..|set_solver|done]).
    destruct (IH n _ rest Hfit Hat Hst ltac:(lia)) as (s' & E & Hat'). rewrite (bind_Ret _ _ _ _ _ E). look Hat'. exists s0. split; [|done]. assert (leads [124] rest = false) as -> by (follow [41; 38; 59]). done.
  - intros e IH p IHp [|n] s rest Hfit Hat Hrest Hn; [lia|]. cbn [parsepipe pipe_toks pipe_cmd pipe_fits] in *. apply andb_true_iff in Hfit as [Hf1 Hf2].
    rewrite <-app_assoc in Hat. cbn [app] in Hat. rewrite length_app in Hn. cbn [length] in Hn.
    destruct (IH n _ _ Hf1 Hat ltac:(done) ltac:(lia)) as (s' & E & Hat'). rewrite (bind_Ret _ _ _ _ _ E). look Hat'.
    change (isin [124] (if 124 =? 43 then 62 else 124)) with true. cbn [negb]. take Hat'.
    destruct (IHp n _ rest Hf2 Hat' Hrest ltac:(lia)) as (s'' & E'' & Hat''). rewrite (bind_Ret _ _ _ _ _ E''). by exists s''.
  - intros l IH rs. by apply C_block.
  - apply C_simple.
Qed.

(** ** Soundness *)

(** A run returns what [Q] says, or panics, for lack of fuel only if [F] fails. *)
Definition yields {A} (m : M nat A) (s : nat) (F : Prop) (Q : A -> nat -> Prop) : Prop :=
  match m s with Ret a s' => Q a s' | Panic msg => F -> msg <> "fuel"%string | Sleep _ _ => False end.

Lemma yields_bind {A B} (m : M nat A) (k : A -> M nat B) s (F F' : Prop) Q' Q : yields m s F' Q' -> (F -> F') -> (forall a s', Q' a s' -> yields (k a) s' F Q) -> yields (m ≫= k) s F Q.
Proof using Type. unfold yields, mbind, M_bind. destruct (m s); [intros H _ Hk; by apply Hk|auto|done]. Qed.

Lemma yields_mono {A} (m : M nat A) s (F F' : Prop) (Q' Q : A -> nat -> Prop) : yields m s F' Q' -> (F -> F') -> (forall a s', Q' a s' -> Q a s') -> yields m s F Q.
Proof using Type. unfold yields. destruct (m s); naive_solver. Qed.

Lemma yields_Ret {A B} (m : M nat A) (k : A -> M nat B) s (F : Prop) Q a s' : m s = Ret a s' -> yields (k a) s' F Q -> yields (m ≫= k) s F Q.
Proof using Type. unfold yields, mbind, M_bind. by intros ->. Qed.

Lemma yields_peek {B} set (k : bool -> M nat B) s ts F Q : Forall (fun x => x ∈ symbols) set -> at_ buf es s ts -> (forall s', at_ buf es s' ts -> yields (k (leads set ts)) s' F Q) -> yields (peek buf es set ≫= k) s F Q.
Proof using Hend Hin. intros Hs Hat Hk. destruct (at_peek buf es Hend Hin set s ts Hs Hat) as (s' & E & Hat'). eapply yields_Ret; [done|by apply Hk]. Qed.

Lemma yields_take {B} (k : Z * span -> M nat B) s t ts F Q : at_ buf es s (t :: ts) -> (forall r w s', r <> 0 -> t = mktok (r, w) -> at_ buf es s' ts -> yields (k (r, w)) s' F Q) -> yields (gettoken buf es ≫= k) s F Q.
Proof using Hend Hin. intros Hat Hk. destruct (at_gettoken buf es Hend Hin _ _ Hat) as (r & w & s' & E & Hr & Ht & Hat'). eapply yields_Ret; [done|by apply Hk]. Qed.

Lemma leads_inv {W} set (ts : list (tok W)) : Forall (fun x => x <> 0) set -> leads set ts = true -> exists c ts', ts = Sym c :: ts' /\ (if c =? 43 then 62 else c) ∈ set.
Proof using Type. intros Hs. destruct ts as [|[c|w] ts]; [done| |done]. cbn. rewrite isin_spec by done. eauto. Qed.

#[local] Ltac insyms := repeat constructor; set_solver.

Lemma S_redirs n : forall s ts, at_ buf es s ts -> yields (parseredirs buf es n) s (length ts < n)%nat
  (fun R s' => exists rs rest, ts = concat (map red_toks rs) ++ rest /\ R = map red_mode rs /\ at_ buf es s' rest).
Proof using Hend Hin.
  induction n as [|n IH]; intros s ts Hat; cbn [parseredirs]; [cbn; lia|]. eapply yields_peek; [insyms|done|]. intros s1 Hat1.
  destruct (leads [60; 62] ts) eqn:El; cbn [negb]; [|exists [], ts; done].
  apply leads_inv in El as (c & ts' & -> & Hc); [|by repeat constructor]. eapply yields_take; [done|]. intros r w s2 Hr Ht Hat2. symmetry in Ht. apply mktok_sym in Ht as [-> _].
  destruct ts' as [|t2 ts'].
  { destruct (at_gettoken buf es Hend Hin _ _ Hat2) as (r2 & w2 & s3 & E & -> & _). eapply yields_Ret; [done|]. done. }
  eapply yields_take; [done|]. intros r2 w2 s3 Hr2 Ht2 Hat3. cbn [fst snd]. destruct (Z.eqb_spec r2 97) as [->|Hne]; cbn [negb]; [|done].
  eapply yields_bind; [apply (IH _ _ Hat3)|cbn [length]; lia|]. intros R s4 (rs & rest & -> & -> & Hat4).
  assert (exists o, c = red_sym o) as [o ->].
  { rewrite !elem_of_cons, elem_of_nil in Hc. destruct (Z.eqb_spec c 43) as [->|]; [by exists RApp|]. destruct Hc as [->|[->|[]]]; [by exists RIn|by exists ROut]. }
  exists ((o, w2) :: rs), rest. subst t2. split; [done|]. split; [by destruct o|done].
Qed.

Lemma red_elems {W} (rs : list (rop * W)) els : concat (map elem_toks (map (fun r => Red r.1 r.2) rs ++ els)) = concat (map red_toks rs) ++ concat (map elem_toks els) /\
  args (map (fun r => Red r.1 r.2) rs ++ els) = args els /\ reds (map (fun r => Red r.1 r.2) rs ++ els) = rs ++ reds els.
Proof using Type.
  induction rs as [|[o w] rs (E1 & E2 & E3)]; [done|]. split_and!; [cbn; by rewrite E1|exact E2|]. unfold reds in *. cbn. by rewrite E3.
Qed.

Lemma S_args n : forall argv rs s ts, at_ buf es s ts -> (length argv < MAXARGS)%nat -> yields (parseargs buf es n argv rs) s (length ts < n)%nat
  (fun r s' => exists els rest, ts = concat (map elem_toks els) ++ rest /\ r = (argv ++ args els, rs ++ map red_mode (reds els)) /\ at_ buf es s' rest /\ (length (argv ++ args els) < MAXARGS)%nat).
Proof using Hend Hin.
  induction n as [|n IH]; intros argv rs s ts Hat Hargv; cbn [parseargs]; [cbn; lia|]. eapply yields_peek; [insyms|done|]. intros s1 Hat1.
  assert (Hnil : exists els rest, ts = concat (map elem_toks els) ++ rest /\ (argv, rs) = (argv ++ args els, rs ++ map red_mode (reds els)) /\ rest = ts /\ (length (argv ++ args els) < MAXARGS)%nat)
    by (exists [], ts; cbn; by rewrite !app_nil_r).
  destruct (leads [124; 41; 38; 59] ts) eqn:El; [destruct Hnil as (els & rest & E1 & E2 & -> & E4); exists els, ts; done|].
  destruct ts as [|t ts].
  { destruct (at_gettoken buf es Hend Hin _ _ Hat1) as (r2 & w2 & s3 & E & -> & Hat2). eapply yields_Ret; [done|]. destruct Hnil as (els & rest & E1 & E2 & -> & E4). exists els, []. done. }
  clear Hnil. eapply yields_take; [done|]. intros r w s2 Hr Ht Hat2. cbn [fst snd]. rewrite (proj2 (Z.eqb_neq r 0)) by done.
  destruct (Z.eqb_spec r 97) as [->|Hne]; cbn [negb]; [|done]. destruct (Nat.leb_spec MAXARGS (length (argv ++ [w]))) as [Hm|Hm]; [done|].
  pose proof (length_toks buf es Hend Hin _ _ Hat2) as Hlen. eapply yields_bind; [apply (S_redirs _ _ _ Hat2)|lia|]. intros R s3 (rs' & rest & -> & -> & Hat3).
  rewrite length_app in Hlen. pose proof (length_red_toks rs').
  eapply yields_mono; [apply (IH (argv ++ [w]) (rs ++ map red_mode rs') _ _ Hat3 Hm)|cbn [length]; rewrite length_app; lia|].
  - intros a s4 (els & rest' & -> & -> & Hat4 & Hl). exists (Arg w :: map (fun r => Red r.1 r.2) rs' ++ els), rest'. subst t.
    change (args (Arg w :: ?x)) with (w :: args x). change (reds (Arg w :: ?x)) with (reds x). cbn [map concat elem_toks app]. destruct (red_elems rs' els) as (-> & -> & ->).
    split_and!; [by rewrite <-!app_assoc|by rewrite map_app, <-!app_assoc|done|by rewrite <-app_assoc in Hl].
Qed.

Lemma S_back n : forall c s ts, at_ buf es s ts -> yields (parseback buf es n c) s (length ts < n)%nat
  (fun c' s' => exists k rest, ts = replicate k (Sym 38) ++ rest /\ c' = Nat.iter k BACK c /\ at_ buf es s' rest).
Proof using Hend Hin.
  induction n as [|n IH]; intros c s ts Hat; cbn [parseback]; [cbn; lia|]. eapply yields_peek; [insyms|done|]. intros s1 Hat1.
  destruct (leads [38] ts) eqn:El; cbn [negb]; [|exists 0%nat, ts; done]. apply leads_inv in El as (a & ts' & -> & Ha); [|by repeat constructor].
  eapply yields_take; [done|]. intros r w s2 Hr Ht Hat2. eapply yields_mono; [apply (IH (BACK c) _ _ Hat2)|cbn [length]; lia|].
  intros c' s3 (k & rest & -> & -> & Hat3). exists (S k), rest. rewrite !elem_of_cons, elem_of_nil in Ha. assert (a = 38) as -> by (destruct (Z.eqb_spec a 43); lia).
  split; [done|]. split; [|done]. by rewrite <-Nat.iter_succ_r.
Qed.

Definition S_line (n : nat) : Prop := forall s ts, at_ buf es s ts -> yields (parseline buf es n) s (4 * length ts + 3 <= n)%nat
  (fun c s' => exists l rest, ts = line_toks l ++ rest /\ c = line_cmd l /\ line_fits l = true /\ at_ buf es s' rest).
Definition S_pipe (n : nat) : Prop := forall s ts, at_ buf es s ts -> yields (parsepipe buf es n) s (4 * length ts + 2 <= n)%nat
  (fun c s' => exists p rest, ts = pipe_toks p ++ rest /\ c = pipe_cmd p /\ pipe_fits p = true /\ at_ buf es s' rest).
Definition S_exec (n : nat) : Prop := forall s ts, at_ buf es s ts -> yields (parseexec buf es n) s (4 * length ts + 1 <= n)%nat
  (fun c s' => exists e rest, ts = command_toks e ++ rest /\ c = command_cmd e /\ command_fits e = true /\ at_ buf es s' rest).
Definition S_block (n : nat) : Prop := forall s ts, at_ buf es s ts -> leads [40] ts = true -> yields (parseblock buf es n) s (4 * length ts <= n)%nat
  (fun c s' => exists e rest, ts = command_toks e ++ rest /\ c = command_cmd e /\ command_fits e = true /\ at_ buf es s' rest).

Lemma leads_one {W} c (ts : list (tok W)) : c <> 0 -> c <> 62 -> leads [c] ts = true -> exists ts', ts = Sym c :: ts'.
Proof using Type.
  intros Hc Hc'. intros (a & ts' & -> & Ha)%leads_inv; [|by repeat constructor]. rewrite elem_of_cons, elem_of_nil in Ha. exists ts'. destruct (Z.eqb_spec a 43); [lia|]. f_equal. f_equal. lia.
Qed.

Lemma sound_block n : S_line n -> S_block (S n).
Proof using Hend Hin.
  intros IH s ts Hat El. cbn [parseblock]. eapply yields_peek; [insyms|done|]. intros s1 Hat1. rewrite El. cbn [negb]. apply leads_one in El as [ts' ->]; [|done..].
  eapply yields_take; [done|]. intros r w s2 _ _ Hat2. eapply yields_bind; [apply (IH _ _ Hat2)|cbn [length]; lia|]. intros c s3 (l & rest & -> & -> & Hfit & Hat3).
  eapply yields_peek; [insyms|done|]. intros s4 Hat4. destruct (leads [41] rest) eqn:Er; cbn [negb]; [|done]. apply leads_one in Er as [rest' ->]; [|done..].
  eapply yields_take; [done|]. intros r' w' s5 _ _ Hat5. pose proof (length_toks buf es Hend Hin _ _ Hat5).
  eapply yields_bind; [apply (S_redirs _ _ _ Hat5)|lia|]. intros R s6 (rs & rest & -> & -> & Hat6).
  exists (CBlock l rs), rest. cbn [command_toks app]. split_and!; [by rewrite <-!app_assoc|done|done|done].
Qed.

Lemma sound_exec n : S_block n -> S_exec (S n).
Proof using Hend Hin.
  intros IH s ts Hat. cbn [parseexec]. eapply yields_peek; [insyms|done|]. intros s1 Hat1. destruct (leads [40] ts) eqn:El.
  - eapply yields_mono; [apply (IH _ _ Hat1 El)|lia|done].
  - pose proof (length_toks buf es Hend Hin _ _ Hat1) as Hlen. eapply yields_bind; [apply (S_redirs _ _ _ Hat1)|lia|]. intros R s2 (rs & rest & -> & -> & Hat2).
    rewrite length_app in Hlen. eapply yields_bind; [apply (S_args _ [] _ _ _ Hat2); cbn; unfold MAXARGS; lia|lia|]. intros a s3 (els & rest' & -> & -> & Hat3 & Hl).
    exists (CSimple (map (fun r => Red r.1 r.2) rs ++ els)), rest'. cbn [command_toks command_cmd command_fits]. destruct (red_elems rs els) as (-> & -> & ->).
    split_and!; [by rewrite <-app_assoc|by rewrite map_app|by apply Nat.ltb_lt|done].
Qed.

Lemma sound_pipe n : S_exec n -> S_pipe n -> S_pipe (S n).
Proof using Hend Hin.
  intros IH1 IH2 s ts Hat. cbn [parsepipe]. eapply yields_bind; [apply (IH1 _ _ Hat)|lia|]. intros c s1 (e & rest & -> & -> & Hf & Hat1).
  eapply yields_peek; [insyms|done|]. intros s2 Hat2. destruct (leads [124] rest) eqn:El; cbn [negb]; [|by exists (POne e), rest].
  apply leads_one in El as [rest' ->]; [|done..]. eapply yields_take; [done|]. intros r w s3 _ _ Hat3.
  eapply yields_bind; [apply (IH2 _ _ Hat3)|rewrite length_app; cbn [length]; lia|]. intros c s4 (p & rest & -> & -> & Hf' & Hat4).
  exists (PPipe e p), rest. cbn [pipe_toks pipe_fits]. split_and!; [by rewrite <-app_assoc|done|by rewrite Hf, Hf'|done].
Qed.

Lemma sound_line n : S_pipe n -> S_line n -> S_line (S n).
Proof using Hend Hin.
  intros IH1 IH2 s ts Hat. cbn [parseline]. pose proof (length_toks buf es Hend Hin _ _ Hat) as Hlen.
  eapply yields_bind; [apply (IH1 _ _ Hat)|lia|]. intros c s1 (p & rest & -> & -> & Hf & Hat1). rewrite length_app in Hlen.
  eapply yields_bind; [apply (S_back _ _ _ _ Hat1)|lia|]. intros c s2 (k & rest1 & -> & -> & Hat2).
  eapply yields_peek; [insyms|done|]. intros s3 Hat3. destruct (leads [59] rest1) eqn:El; cbn [negb]; [|exists (LEnd p k), rest1; cbn; by rewrite <-app_assoc].
  apply leads_one in El as [rest' ->]; [|done..]. eapply yields_take; [done|]. intros r w s4 _ _ Hat4.
  eapply yields_bind; [apply (IH2 _ _ Hat4)|rewrite !length_app; cbn [length]; lia|]. intros c s5 (l & rest & -> & -> & Hf' & Hat5).
  exists (LSeq p k l), rest. cbn [line_toks line_fits]. split_and!; [by rewrite <-!app_assoc|done|by rewrite Hf, Hf'|done].
Qed.

Lemma sound n : S_line n /\ S_pipe n /\ S_exec n /\ S_block n.
Proof using Hend Hin.
  induction n as [|n (H1 & H2 & H3 & H4)].
  - split_and!; intros s ts Hat; cbn; try lia. intros (ts' & ->)%leads_one; [cbn [length]; lia|done..].
  - split_and!; [by apply sound_line|by apply sound_pipe|by apply sound_exec|by apply sound_block].
Qed.
End Parse.
