(* ===== verification/ShellText.v ===== *)
(** * From text to commands

    What parsecmd makes of a line: its words become strings in place, and any
    layout of the tokens of a tree parses back to the command of the tree. *)

From S2P Require Import Prelude CString Shell ShellProps ShellParse.

(** ** Changing what stands for words *)

Fixpoint cmap {V W} (f : V -> W) (c : cmd V) : cmd W :=
  match c with
  | EXEC argv => EXEC (map f argv)
  | REDIR c file mode fd => REDIR (cmap f c) (f file) mode fd
  | PIPE l r => PIPE (cmap f l) (cmap f r)
  | LIST l r => LIST (cmap f l) (cmap f r)
  | BACK c => BACK (cmap f c)
  end.

Fixpoint words {W} (c : cmd W) : list W :=
  match c with
  | EXEC argv => argv
  | REDIR c file _ _ => words c ++ [file]
  | PIPE l r | LIST l r => words l ++ words r
  | BACK c => words c
  end.

Definition tmap {V W} (f : V -> W) (t : tok V) : tok W := match t with Sym c => Sym c | Word w => Word (f w) end.
Definition emap {V W} (f : V -> W) (e : elem V) : elem W := match e with Arg w => Arg (f w) | Red o w => Red o (f w) end.

Fixpoint lmap {V W} (f : V -> W) (l : line V) : line W :=
  match l with LEnd p n => LEnd (pmap f p) n | LSeq p n l => LSeq (pmap f p) n (lmap f l) end
with pmap {V W} (f : V -> W) (p : pipe V) : pipe W :=
  match p with POne e => POne (emapc f e) | PPipe e p => PPipe (emapc f e) (pmap f p) end
with emapc {V W} (f : V -> W) (e : command V) : command W :=
  match e with CBlock l rs => CBlock (lmap f l) (map (fun r => (r.1, f r.2)) rs) | CSimple els => CSimple (map (emap f) els) end.

Section Maps.
Context {V W : Type} (f : V -> W).

Lemma cmap_ext (g : V -> W) c : (forall w, w ∈ words c -> f w = g w) -> cmap f c = cmap g c.
Proof.
  induction c as [argv|c IH file mode fd|l IHl r IHr|l IHl r IHr|c IH]; cbn; intros H; f_equal; auto; try (apply IHl || apply IHr || apply IH; intros; apply H; set_solver).
  - apply map_ext_in. intros w Hw. apply H. by apply list_elem_of_In.
  - apply H. set_solver.
Qed.

Lemma cmap_redircmds c rs : cmap f (redircmds c rs) = redircmds (cmap f c) (map (fun '(w, m, d) => (f w, m, d)) rs).
Proof. revert c. induction rs as [|[[w m] d] rs IH]; intros c; [done|]. cbn. unfold redircmds in *. cbn. by rewrite IH. Qed.

Lemma args_map els : args (map (emap f) els) = map f (args els).
Proof. unfold args. induction els as [|[w|o w] els IH]; cbn; [done|by f_equal|done]. Qed.
Lemma reds_map els : reds (map (emap f) els) = map (fun r => (r.1, f r.2)) (reds els).
Proof. unfold reds. induction els as [|[w|o w] els IH]; cbn; [done|done|by f_equal]. Qed.
Lemma red_mode_map rs : map red_mode (map (fun r => (r.1, f r.2)) rs) = map (fun '(w, m, d) => (f w, m, d)) (map red_mode rs).
Proof. rewrite !map_map. apply map_ext. intros [[] w]; done. Qed.

Lemma cmap_back n c : cmap f (Nat.iter n BACK c) = Nat.iter n BACK (cmap f c).
Proof.
  induction n as [|n IH]; [done|]. rewrite !Nat.iter_succ. change (cmap f (BACK ?x)) with (BACK (cmap f x)). by rewrite IH.
Qed.

Lemma tree_cmd_map : (forall l, line_cmd (lmap f l) = cmap f (line_cmd l)) /\ (forall p, pipe_cmd (pmap f p) = cmap f (pipe_cmd p)) /\ (forall e, command_cmd (emapc f e) = cmap f (command_cmd e)).
Proof.
  apply grammar_ind; cbn [lmap pmap emapc line_cmd pipe_cmd command_cmd cmap]; intros; rewrite ?cmap_back; try congruence.
  - rewrite cmap_redircmds, red_mode_map. congruence.
  - rewrite cmap_redircmds. cbn [cmap]. by rewrite args_map, reds_map, red_mode_map.
Qed.

Lemma tree_fits_map : (forall l, line_fits (lmap f l) = line_fits l) /\ (forall p, pipe_fits (pmap f p) = pipe_fits p) /\ (forall e, command_fits (emapc f e) = command_fits e).
Proof. apply grammar_ind; cbn; intros; try congruence. by rewrite args_map, length_map. Qed.

(** Tokens that map to those of a tree are those of a tree. *)
Lemma lift_replicate n ts : map (tmap f) ts = replicate n (Sym 38) -> ts = replicate n (Sym 38).
Proof.
  revert ts. induction n as [|n IH]; intros [|[c|w] ts]; cbn; try done. intros [= -> E]. f_equal. by apply IH.
Qed.

Lemma lift_reds rs ts : map (tmap f) ts = concat (map red_toks rs) -> exists rs', ts = concat (map red_toks rs') /\ map (fun r => (r.1, f r.2)) rs' = rs.
Proof.
  revert ts. induction rs as [|[o w] rs IH]; intros ts; cbn [map concat].
  - intros ->%map_eq_nil. by exists [].
  - destruct ts as [|[c|w0] [|[c1|w1] ts]]; cbn; try done. intros [= -> <- E]. destruct (IH ts E) as (rs' & -> & <-). by exists ((o, w1) :: rs').
Qed.

Lemma lift_elems els ts : map (tmap f) ts = concat (map elem_toks els) -> exists els', ts = concat (map elem_toks els') /\ map (emap f) els' = els.
Proof.
  revert ts. induction els as [|[w|o w] els IH]; intros ts; cbn [map concat].
  - intros ->%map_eq_nil. by exists [].
  - destruct ts as [|[c|w0] ts]; cbn; try done. intros [= <- E]. destruct (IH ts E) as (els' & -> & <-). by exists (Arg w0 :: els').
  - destruct ts as [|[c|w0] [|[c1|w1] ts]]; cbn; try done. intros [= -> <- E]. destruct (IH ts E) as (els' & -> & <-). by exists (Red o w1 :: els').
Qed.

Lemma lift_sym c ts l : map (tmap f) ts = Sym c :: l -> exists ts', ts = Sym c :: ts' /\ map (tmap f) ts' = l.
Proof. destruct ts as [|[c0|w] ts]; cbn; try done. intros [= -> <-]. by eexists. Qed.

Lemma lift_tree :
  (forall l ts, map (tmap f) ts = line_toks l -> exists l', ts = line_toks l' /\ lmap f l' = l) /\
  (forall p ts, map (tmap f) ts = pipe_toks p -> exists p', ts = pipe_toks p' /\ pmap f p' = p) /\
  (forall e ts, map (tmap f) ts = command_toks e -> exists e', ts = command_toks e' /\ emapc f e' = e).
Proof.
  apply grammar_ind; cbn [line_toks pipe_toks command_toks].
  - intros p IH n ts (t1 & t2 & -> & E1 & E2)%map_eq_app. destruct (IH _ E1) as (p' & -> & <-). apply lift_replicate in E2 as ->. by exists (LEnd p' n).
  - intros p IH n l IHl ts (t1 & t2 & -> & E1 & (t3 & t4 & -> & E2 & E3)%map_eq_app)%map_eq_app. destruct (IH _ E1) as (p' & -> & <-). apply lift_replicate in E2 as ->.
    apply lift_sym in E3 as (t5 & -> & E3). destruct (IHl _ E3) as (l' & -> & <-). by exists (LSeq p' n l').
  - intros e IH ts E. destruct (IH _ E) as (e' & -> & <-). by exists (POne e').
  - intros e IH p IHp ts (t1 & t2 & -> & E1 & (t3 & -> & E2)%lift_sym)%map_eq_app. destruct (IH _ E1) as (e' & -> & <-), (IHp _ E2) as (p' & -> & <-). by exists (PPipe e' p').
  - intros l IH rs ts (t1 & -> & (t2 & t3 & -> & E1 & (t4 & -> & E2)%lift_sym)%map_eq_app)%lift_sym. destruct (IH _ E1) as (l' & -> & <-), (lift_reds _ _ E2) as (rs' & -> & <-).
    by exists (CBlock l' rs').
  - intros els ts E. destruct (lift_elems _ _ E) as (els' & -> & <-). by exists (CSimple els').
Qed.

End Maps.

(** ** The words of a command *)

Section Words.
Context {W : Type}.

Lemma words_redircmds (c : cmd W) rs w : w ∈ words (redircmds c rs) -> w ∈ words c \/ exists m d, (w, m, d) ∈ rs.
Proof.
  revert c. induction rs as [|[[x m] d] rs IH]; intros c; [auto|]. change (redircmds c ((x, m, d) :: rs)) with (redircmds (REDIR c x m d) rs).
  intros [Hw|(m' & d' & Hw)]%IH; [|right; exists m', d'; set_solver]. cbn in Hw. apply elem_of_app in Hw as [Hw|Hw]; [by left|]. right. exists m, d. set_solver.
Qed.

Lemma red_word_toks (rs : list (rop * W)) w m d : (w, m, d) ∈ map red_mode rs -> Word w ∈ concat (map red_toks rs).
Proof.
  induction rs as [|[o x] rs IH]; cbn [map concat app red_toks snd]; [by intros ?%elem_of_nil|]. intros [E|H]%elem_of_cons; [|rewrite !elem_of_cons; right; right; by apply IH]. assert (w = x) as -> by (by destruct o; injection E). rewrite !elem_of_cons. auto.
Qed.

Lemma elem_word_toks (els : list (elem W)) w : w ∈ args els \/ (exists m d, (w, m, d) ∈ map red_mode (reds els)) -> Word w ∈ concat (map elem_toks els).
Proof.
  unfold args, reds. induction els as [|[x|o x] els IH]; cbn.
  - intros [H|(m & d & H)]; by apply elem_of_nil in H.
  - intros [[->|H]%elem_of_cons|H]; apply elem_of_cons; [by left|right; apply IH; by left|right; apply IH; by right].
  - intros [H|(m & d & [E|H]%elem_of_cons)]; rewrite !elem_of_cons; [right; right; apply IH; by left| |right; right; apply IH; by eauto]. assert (w = x) as -> by (by destruct o; injection E). auto.
Qed.

Lemma words_back n (c : cmd W) : words (Nat.iter n BACK c) = words c.
Proof. induction n as [|n IH]; [done|]. by rewrite Nat.iter_succ. Qed.

Lemma words_toks : (forall (l : line W) w, w ∈ words (line_cmd l) -> Word w ∈ line_toks l) /\ (forall (p : pipe W) w, w ∈ words (pipe_cmd p) -> Word w ∈ pipe_toks p) /\
  (forall (e : command W) w, w ∈ words (command_cmd e) -> Word w ∈ command_toks e).
Proof.
  apply grammar_ind; cbn [line_toks pipe_toks command_toks line_cmd pipe_cmd command_cmd words].
  - intros p IH n w. rewrite words_back. intros Hw. apply elem_of_app. auto.
  - intros p IH n l IHl w. rewrite words_back. intros [Hw|Hw]%elem_of_app; rewrite !elem_of_app, elem_of_cons; auto.
  - auto.
  - intros e IH p IHp w [Hw|Hw]%elem_of_app; rewrite elem_of_app, elem_of_cons; auto.
  - intros l IH rs w [Hw|(m & d & Hw)]%words_redircmds; rewrite elem_of_cons, elem_of_app, elem_of_cons; [auto|]. apply red_word_toks in Hw. auto.
  - intros els w Hw%words_redircmds. by apply elem_word_toks.
Qed.

End Words.

(** ** Terminators in place *)

Definition put_nuls (l : list nat) (buf : list Z) : list Z := foldl (fun b e => <[e := 0]> b) buf l.

Lemma put_nuls_app l l' buf : put_nuls (l ++ l') buf = put_nuls l' (put_nuls l buf).
Proof. apply foldl_app. Qed.

Lemma nulterminate_words c buf : nulterminate c buf = put_nuls (map snd (words c)) buf.
Proof.
  revert buf. induction c as [argv|c IH file mode fd|l IHl r IHr|l IHl r IHr|c IH]; intros buf; cbn [nulterminate words]; rewrite ?map_app, ?put_nuls_app; [|by rewrite IH|by rewrite IHl, IHr|by rewrite IHl, IHr|done].
  revert buf. unfold put_nuls. induction argv as [|w argv IH]; intros buf; [done|]. cbn. apply IH.
Qed.

Lemma put_nuls_lookup l buf i : (i ∉ l -> put_nuls l buf !! i = buf !! i) /\ (i ∈ l -> (i < length buf)%nat -> put_nuls l buf !! i = Some 0).
Proof.
  revert buf. induction l as [|e l IH] using rev_ind; intros buf; [split; [done|by intros ?%elem_of_nil]|]. rewrite put_nuls_app. cbn. destruct (IH buf) as [H1 H2].
  assert (Hl : length (put_nuls l buf) = length buf) by (unfold put_nuls; clear; revert buf; induction l as [|x l IHl]; intros buf; cbn; [done|]; by rewrite IHl, length_insert).
  destruct (decide (i = e)) as [->|Hne].
  - split; [set_solver|]. intros _ Hi. rewrite list_lookup_insert_eq; [done|lia].
  - rewrite list_lookup_insert_ne by done. rewrite elem_of_app, elem_of_cons, elem_of_nil. split; [intros; apply H1; tauto|intros [?|[?|[]]] ?; [by apply H2|done]].
Qed.

Definition text (buf : list Z) (w : span) : list Z := take (w.2 - w.1) (drop w.1 buf).

Lemma cstr_span b q n : (forall i, (q <= i < q + n)%nat -> exists c, c <> 0 /\ b !! i = Some c) -> b !! (q + n)%nat = Some 0 -> cstr (drop q b) = take n (drop q b).
Proof.
  revert q. induction n as [|n IH]; intros q Hi He.
  - rewrite Nat.add_0_r in He. rewrite (drop_S _ _ _ He). done.
  - destruct (Hi q ltac:(lia)) as (c & Hc & Eq). rewrite (drop_S _ _ _ Eq). cbn [cstr take]. rewrite (proj2 (Z.eqb_neq c 0)) by done. f_equal.
    apply IH; [intros i Hi'; apply Hi; lia|]. by replace (S q + n)%nat with (q + S n)%nat by lia.
Qed.

Section Line.
Context (buf : list Z) (Hnul : 0 ∈ buf).
#[local] Definition eol : nat := Z.to_nat (strlen buf).

Lemma es_length : eol = length (cstr buf).
Proof using Type. unfold eol. rewrite strlen_length. lia. Qed.

Lemma line_split : exists junk, buf = cstr buf ++ 0 :: junk.
Proof using Hnul.
  revert Hnul. clear. induction buf as [|c l IH]; [by intros ?%elem_of_nil|]. cbn. destruct (Z.eqb_spec c 0) as [->|Hc]; [intros _; by exists l|].
  intros [?|Hin]%elem_of_cons; [congruence|]. destruct (IH Hin) as (junk & E). exists junk. cbn. by rewrite <-E.
Qed.

Lemma line_end : ch buf eol = 0.
Proof using Hnul. destruct line_split as (junk & E). unfold ch. rewrite E, es_length at 1. rewrite lookup_app_r, Nat.sub_diag by lia. done. Qed.

Lemma line_in s : (s < eol)%nat -> ch buf s <> 0 /\ is_Some (buf !! s).
Proof using Hnul.
  rewrite es_length. intros Hs. destruct line_split as (junk & E). unfold ch. rewrite E. rewrite lookup_app_l by done.
  destruct (lookup_lt_is_Some_2 _ _ Hs) as [c Ec]. rewrite Ec. split; [|by eexists]. cbn. pose proof (cstr_nz buf) as Hz. rewrite Forall_forall in Hz. apply Hz. by eapply list_elem_of_lookup_2.
Qed.

Lemma es_lt : (eol < length buf)%nat.
Proof using Hnul. destruct line_split as (junk & E). rewrite es_length. rewrite E at 2. rewrite length_app. cbn. lia. Qed.

(** Every word the lexer finds is a run of word characters up to its end. *)
Definition good (w : span) : Prop := (w.1 < w.2 <= eol)%nat /\ (forall i, (w.1 <= i < w.2)%nat -> wordch (ch buf i) = true) /\ (w.2 = eol \/ wordch (ch buf w.2) = false).

Lemma toks_good n s w : (s <= eol)%nat -> Word w ∈ toks_from buf eol n s -> good w.
Proof using Hnul.
  revert s. induction n as [|n IH]; intros s Hs; cbn [toks_from]; [by intros ?%elem_of_nil|].
  destruct (gettoken_spec buf eol line_end (fun i Hi => proj1 (line_in i Hi)) s Hs) as (r & q & e & s' & -> & Eq & He & Es' & Hr). cbn [fst]. destruct (Z.eqb_spec r 0); [by intros ?%elem_of_nil|].
  destruct (skipws_spec buf eol e He). intros [E|Hw]%elem_of_cons; [|apply (IH s'); [lia|done]]. unfold mktok in E. cbn in E.
  destruct (Z.eqb_spec r 97) as [->|]; [|done]. injection E as ->. destruct Hr as [(? & ? & ?)|[Hlt [(_ & H1 & H2)|(? & _)]]]; [done| |done]. unfold good. cbn. split_and!; [lia|lia|done|done].
Qed.

Lemma nul_strings ws w : (forall x, x ∈ ws -> good x) -> w ∈ ws -> cstr (drop w.1 (put_nuls (map snd ws) buf)) = text buf w.
Proof using Hnul.
  intros Hg Hw. destruct (Hg w Hw) as (Hq & Hch & _). pose proof es_lt as Hel.
  assert (Hsame : forall i, (w.1 <= i < w.2)%nat -> put_nuls (map snd ws) buf !! i = buf !! i).
  { intros i Hi. apply put_nuls_lookup. intros (x & -> & Hx)%list_elem_of_fmap. destruct (Hg x Hx) as (Hxq & _ & [Hx2|Hx2]); [lia|]. rewrite Hch in Hx2; done. }
  unfold text. rewrite (cstr_span _ _ (w.2 - w.1)).
  - apply list_eq. intros i. rewrite !lookup_take. case_decide; [|done]. rewrite !lookup_drop. apply Hsame. lia.
  - intros i Hi. rewrite Hsame by lia. destruct (line_in i ltac:(lia)) as [Hc [c Ec]]. exists c. unfold ch in Hc. by rewrite Ec in Hc.
  - replace (w.1 + (w.2 - w.1))%nat with w.2 by lia. apply put_nuls_lookup; [|lia]. apply list_elem_of_fmap. by exists w.
Qed.
End Line.

(** ** What parsecmd returns *)

Lemma parsecmd_trees buf c buf' : 0 ∈ buf ->
  parsecmd buf = Ret c buf' <-> exists t, line_toks t = toks buf (eol buf) 0 /\ line_fits t = true /\ c = line_cmd t /\ buf' = nulterminate c buf.
Proof.
  intros Hnul. set (Hend := line_end buf Hnul). set (Hin := fun i Hi => proj1 (line_in buf Hnul i Hi)).
  assert (Hat : at_ buf (eol buf) 0 (toks buf (eol buf) 0)) by (split; [lia|done]). pose proof (length_toks buf _ Hend Hin _ _ Hat) as Hlen.
  unfold parsecmd. fold (eol buf). split.
  - destruct (sound buf (eol buf) Hend Hin (parse_fuel (eol buf))) as (Hs & _). specialize (Hs _ _ Hat). unfold yields in Hs. unfold mbind, M_bind.
    destruct (parseline buf (eol buf) (parse_fuel (eol buf)) 0%nat) as [c0 s0| |]; [|done|done]. destruct Hs as (l & rest & El & -> & Hfit & Hat0).
    cbn [peek mret M_ret]. destruct (Nat.eqb_spec (skipws buf (eol buf) s0) (eol buf)) as [E|]; [|done]. intros [= <- <-]. exists l. split_and!; [|done|done|done].
    pose proof (at_skipws buf _ Hend Hin _ _ Hat0) as Hat1. rewrite E in Hat1. destruct Hat1 as [_ Hr]. destruct (at_es buf _ Hend Hin) as [_ Hr']. rewrite Hr' in Hr. subst rest. by rewrite El, app_nil_r.
  - intros (t & Et & Hfit & -> & ->). rewrite <-Et, <-(app_nil_r (line_toks t)) in Hat. rewrite <-Et in Hlen.
    destruct (proj1 (complete buf (eol buf) Hend Hin) t (parse_fuel (eol buf)) _ [] Hfit Hat ltac:(done) ltac:(unfold parse_fuel; lia)) as (s' & E & Hat').
    unfold mbind, M_bind. rewrite E. cbn [peek mret M_ret]. rewrite (at_end buf _ Hend Hin _ Hat'), Nat.eqb_refl. done.
Qed.

Lemma parsecmd_fuel buf : 0 ∈ buf -> match parsecmd buf with Ret _ _ => True | Panic msg => msg <> "fuel"%string | Sleep _ _ => False end.
Proof.
  intros Hnul. set (Hend := line_end buf Hnul). set (Hin := fun i Hi => proj1 (line_in buf Hnul i Hi)).
  assert (Hat : at_ buf (eol buf) 0 (toks buf (eol buf) 0)) by (split; [lia|done]). pose proof (length_toks buf _ Hend Hin _ _ Hat) as Hlen.
  destruct (sound buf (eol buf) Hend Hin (parse_fuel (eol buf))) as (Hs & _). specialize (Hs _ _ Hat). unfold yields in Hs. unfold parsecmd, mbind, M_bind. fold (eol buf).
  destruct (parseline buf (eol buf) (parse_fuel (eol buf)) 0%nat) as [c0 s0|msg|]; [|apply Hs; unfold parse_fuel; lia|done]. cbn [peek mret M_ret]. by destruct (_ =? _)%nat.
Qed.

(** The words of the result are strings in the line it leaves. *)
Lemma parsecmd_strings buf c buf' : 0 ∈ buf -> parsecmd buf = Ret c buf' -> cmap (fun w => cstr (drop w.1 buf')) c = cmap (text buf) c.
Proof.
  intros Hnul (t & Et & _ & -> & ->)%parsecmd_trees; [|done]. apply cmap_ext. intros w Hw. rewrite nulterminate_words. apply nul_strings; [done| |done].
  intros x Hx. apply words_toks in Hx. rewrite Et in Hx. eapply toks_good; [done| |exact Hx]. lia.
Qed.

(** ** Layouts of tokens *)

(** Blanks and a token, many times. *)
Definition layout := list (list Z * tok (list Z)).
Definition tok_text (t : tok (list Z)) : list Z := match t with Sym c => if c =? 43 then [62; 62] else [c] | Word w => w end.
Fixpoint render (l : layout) : list Z := match l with [] => [] | (sp, t) :: l' => sp ++ tok_text t ++ render l' end.

Definition blank (sp : list Z) : Prop := Forall (fun c => c ∈ whitespace) sp.
Definition tok_ok (t : tok (list Z)) : Prop :=
  match t with Sym c => c ∈ [124; 40; 41; 59; 38; 60; 62; 43] | Word w => w <> [] /\ Forall (fun c => wordch c = true /\ c <> 0) w end.
(** Two tokens that would run into each other. *)
Definition clash (t t' : tok (list Z)) : Prop :=
  match t, t' with Word _, Word _ => True | Sym c, Sym c' => c = 62 /\ (c' = 62 \/ c' = 43) | _, _ => False end.
Fixpoint layout_ok (l : layout) : Prop :=
  match l with
  | [] => True
  | (sp, t) :: l' => blank sp /\ tok_ok t /\ match l' with (sp', t') :: _ => clash t t' -> sp' <> [] | [] => True end /\ layout_ok l'
  end.

Section Lex.
Context (buf : list Z) (n : nat).

Lemma ch_at pre X i : buf = pre ++ X -> ch buf (length pre + i) = default 0 (X !! i).
Proof. intros ->. unfold ch. rewrite lookup_app_r by lia. by replace (length pre + i - length pre)%nat with i by lia. Qed.

Lemma skip_blank m s i : (s <= i < skip buf m s)%nat -> isin whitespace (ch buf i) = true.
Proof.
  revert s. induction m as [|m IH]; intros s; cbn [skip]; [lia|]. destruct (isin whitespace (ch buf s)) eqn:E; [|lia]. intros Hi.
  destruct (decide (i = s)) as [->|]; [done|]. apply (IH (S s)). lia.
Qed.

Lemma skipws_run s k : (s + k <= n)%nat -> (forall i, (s <= i < s + k)%nat -> isin whitespace (ch buf i) = true) -> (s + k = n \/ isin whitespace (ch buf (s + k)) = false)%nat ->
  skipws buf n s = (s + k)%nat.
Proof.
  intros Hk Hb He. destruct (skipws_spec buf n s ltac:(lia)) as [H1 H2]. destruct (Nat.lt_trichotomy (skipws buf n s) (s + k)) as [Hlt|[Heq|Hgt]]; [|done|].
  - destruct H2 as [H2|H2]; [lia|]. rewrite Hb in H2 by lia. done.
  - destruct He as [He|He]; [lia|]. unfold skipws in Hgt. rewrite (skip_blank (n - s) s (s + k)) in He by lia. done.
Qed.

Lemma word_run s k : (s + k <= n)%nat -> (forall i, (s <= i < s + k)%nat -> wordch (ch buf i) = true) -> (s + k = n \/ wordch (ch buf (s + k)) = false)%nat ->
  word_end buf (n - s) s = (s + k)%nat.
Proof.
  intros Hk Hb He. destruct (word_end_spec buf (n - s) s) as (H1 & H2 & H3). destruct (Nat.lt_trichotomy (word_end buf (n - s) s) (s + k)) as [Hlt|[Heq|Hgt]]; [|done|].
  - destruct H3 as [H3|H3]; [lia|]. rewrite Hb in H3 by lia. done.
  - destruct He as [He|He]; [lia|]. rewrite H2 in He by lia. done.
Qed.

Lemma isin_ws c : c ∈ whitespace -> isin whitespace c = true.
Proof. intros H. apply isin_spec; [by repeat constructor|done]. Qed.

(** Characters with which tokens start. *)
Lemma tok_head t : tok_ok t -> exists c tx, tok_text t = c :: tx /\ c <> 0 /\ isin whitespace c = false.
Proof.
  destruct t as [c|w]; cbn.
  - intros Hc. assert (Hc' : c ∈ [124; 40; 41; 59; 38; 60; 62; 43]) by done. rewrite !elem_of_cons, elem_of_nil in Hc.
    destruct (Z.eqb_spec c 43); eexists _, _; (split; [done|]); [done|]. split; [lia|]. destruct (isin whitespace c) eqn:E; [|done].
    apply isin_spec in E; [|by repeat constructor]. unfold whitespace in E. rewrite !elem_of_cons, elem_of_nil in E. lia.
  - intros [Hw Hf]. destruct w as [|c w]; [done|]. exists c, w. apply Forall_cons in Hf as [[Hc H0] _]. split_and!; [done|done|]. unfold wordch in Hc. by apply andb_true_iff in Hc as [?%negb_true_iff _].
Qed.

(** One token after blanks. *)
Lemma lex_one pre sp t R : buf = pre ++ sp ++ tok_text t ++ R -> (length pre + length sp + length (tok_text t) <= n)%nat -> blank sp -> tok_ok t ->
  match t with
  | Word w => (length pre + length sp + length w = n)%nat \/ wordch (default 0 (R !! 0%nat)) = false
  | Sym c => c = 62 -> default 0 (R !! 0%nat) <> 62
  end ->
  exists r w, gettoken buf n (length pre) = Ret (r, w) (skipws buf n (length pre + length sp + length (tok_text t))) /\ r <> 0 /\ tmap (text buf) (mktok (r, w)) = t.
Proof.
  intros Eb Hn Hsp Ht Hstop. destruct (tok_head t Ht) as (c & tx & Et & Hc0 & Hcw). set (q := (length pre + length sp)%nat) in *.
  assert (Eb' : buf = (pre ++ sp) ++ tok_text t ++ R) by (by rewrite <-app_assoc). assert (Elen : length (pre ++ sp) = q) by (by rewrite length_app).
  assert (Hchar : forall i, ch buf (q + i) = default 0 ((tok_text t ++ R) !! i)) by (intros i; rewrite <-Elen; by apply ch_at).
  assert (Eq : ch buf q = c). { rewrite <-(Nat.add_0_r q), Hchar, Et. done. }
  assert (Esk : skipws buf n (length pre) = q).
  { apply skipws_run; [fold q; lia| |right; fold q; by rewrite Eq]. intros i Hi. replace i with (length pre + (i - length pre))%nat by lia. rewrite (ch_at pre _ _ Eb).
    rewrite lookup_app_l by lia. destruct (lookup_lt_is_Some_2 sp (i - length pre)%nat ltac:(lia)) as [x Ex]. rewrite Ex. apply isin_ws. cbn.
    unfold blank in Hsp. rewrite Forall_forall in Hsp. apply Hsp. by eapply list_elem_of_lookup_2. }
  unfold gettoken. rewrite Esk, Eq, (proj2 (Z.eqb_neq c 0)) by done.
  destruct t as [c0|w]; cbn [tok_text tok_ok] in *.
  - specialize (Hchar 1%nat) as Hnext. replace (q + 1)%nat with (S q) in Hnext by lia. destruct (Z.eqb_spec c0 43) as [->|H43].
    + injection Et as <- <-. rewrite bool_decide_eq_false_2 by (rewrite !elem_of_cons, elem_of_nil; lia). cbn in Hnext. rewrite Hnext. cbn [Z.eqb]. cbn [length].
      replace (S (S q)) with (q + 2)%nat by lia. by eexists _, _.
    + injection Et as <- <-. cbn in Hnext. cbn [length]. replace (q + 1)%nat with (S q) by lia. rewrite Hnext.
      rewrite !elem_of_cons, elem_of_nil in Ht. case_bool_decide as Hin.
      * eexists _, _. split; [done|]. split; [done|]. unfold mktok. cbn. rewrite (proj2 (Z.eqb_neq c0 97)) by lia. done.
      * assert (c0 = 62) as -> by (rewrite !elem_of_cons, elem_of_nil in Hin; lia). rewrite Z.eqb_refl, (proj2 (Z.eqb_neq _ 62)) by auto. by eexists _, _.
  - subst w. destruct Ht as [_ Hf]. assert (Hsym : isin symbols c = false).
    { apply Forall_cons in Hf as [[Hc _] _]. unfold wordch in Hc. by apply andb_true_iff in Hc as [_ ?%negb_true_iff]. }
    assert (Hns : c ∉ symbols) by (intros E%isin_spec; [congruence|apply symbols_nz]). unfold symbols in Hns. rewrite !elem_of_cons, elem_of_nil in Hns.
    rewrite bool_decide_eq_false_2 by (rewrite !elem_of_cons, elem_of_nil; tauto). rewrite (proj2 (Z.eqb_neq c 62)) by tauto.
    rewrite (word_run q (length (c :: tx))); [|lia| |].
    + eexists _, _. split; [done|]. split; [done|]. unfold mktok. cbn [fst snd]. rewrite Z.eqb_refl. cbn [tmap]. f_equal. unfold text. cbn [fst snd].
      replace (q + length (c :: tx) - q)%nat with (length (c :: tx)) by lia. rewrite Eb', <-Elen, drop_app_length, take_app_length. done.
    + intros i Hi. replace i with (q + (i - q))%nat by lia. rewrite Hchar, lookup_app_l by lia. destruct (lookup_lt_is_Some_2 (c :: tx) (i - q)%nat ltac:(lia)) as [x Ex]. rewrite Ex.
      rewrite Forall_forall in Hf. apply (Hf x). by eapply list_elem_of_lookup_2.
    + destruct Hstop as [?|Hstop]; [left; lia|right]. rewrite Hchar, lookup_app_r, Nat.sub_diag by lia. done.
Qed.

(** What may come right after a token. *)
Definition rest_of (l : layout) (trail junk : list Z) : list Z := render l ++ trail ++ 0 :: junk.

Lemma rest_head l trail junk : layout_ok l -> blank trail ->
  match l, trail with
  | [], [] => True
  | [], _ :: _ => default 0 (rest_of l trail junk !! 0%nat) ∈ whitespace
  | (sp, t) :: _, _ => match sp with [] => exists c tx, tok_text t = c :: tx /\ default 0 (rest_of l trail junk !! 0%nat) = c | _ => default 0 (rest_of l trail junk !! 0%nat) ∈ whitespace end
  end.
Proof.
  unfold rest_of. destruct l as [|[sp t] l]; cbn [layout_ok render].
  - intros _ Ht. destruct trail as [|c trail]; [done|]. cbn. by apply Forall_cons in Ht as [? _].
  - intros (Hsp & Hok & _) _. destruct sp as [|c sp]; cbn; [|by apply Forall_cons in Hsp as [? _]]. destruct (tok_head t Hok) as (c & tx & E & _). exists c, tx. split; [done|]. by rewrite E.
Qed.

Lemma ws_stop c : c ∈ whitespace -> wordch c = false /\ c <> 62.
Proof.
  intros H. split; [unfold wordch; by rewrite isin_ws|]. intros ->. unfold whitespace in H. rewrite !elem_of_cons, elem_of_nil in H. lia.
Qed.

Lemma sym_stop c c' tx : c ∈ [124; 40; 41; 59; 38; 60; 62; 43] -> (if c =? 43 then [62; 62] else [c]) = c' :: tx -> wordch c' = false /\ (c <> 62 -> c <> 43 -> c' <> 62).
Proof.
  intros Hc E. assert (c' = if c =? 43 then 62 else c) as -> by (by destruct (c =? 43); injection E). rewrite !elem_of_cons, elem_of_nil in Hc.
  split; [|by destruct (Z.eqb_spec c 43)]. unfold wordch. assert (isin symbols (if c =? 43 then 62 else c) = true) as ->; [|by rewrite andb_false_r].
  apply isin_spec; [apply symbols_nz|]. unfold symbols. rewrite !elem_of_cons, elem_of_nil. destruct (Z.eqb_spec c 43); lia.
Qed.

Lemma layout_stop sp t l trail junk k : layout_ok ((sp, t) :: l) -> blank trail -> (k + length (render l) + length trail = n)%nat ->
  match t with Word w => k = n \/ wordch (default 0 (rest_of l trail junk !! 0%nat)) = false | Sym c => c = 62 -> default 0 (rest_of l trail junk !! 0%nat) <> 62 end.
Proof.
  intros (Hsp & Ht & Hcl & Hl) Htr Hk. pose proof (rest_head l trail junk Hl Htr) as Hh. destruct l as [|[sp' t'] l].
  - destruct trail as [|c trail]; [destruct t; [|left; cbn in Hk; lia]; by intros _|]. apply ws_stop in Hh as [H1 H2]. destruct t; [by intros _|by right].
  - destruct sp' as [|c sp']; [|apply ws_stop in Hh as [H1 H2]; destruct t; [by intros _|by right]]. destruct Hh as (c' & tx & Et & ->). cbn in Hl. destruct Hl as (_ & Ht' & _).
    assert (Hnc : ~ clash t t') by (intros Hc; by apply Hcl). destruct t as [c|w], t' as [c1|w1]; cbn in Hnc, Et, Ht'.
    + intros ->. apply (sym_stop c1 c' tx Ht' Et); intros ->; apply Hnc; auto.
    + intros -> ->. subst w1. destruct Ht' as [_ [[Hw _] _]%Forall_cons]. done.
    + right. by apply (sym_stop c1 c' tx Ht' Et).
    + by destruct Hnc.
Qed.

Context (Hend : ch buf n = 0) (Hin : forall s, (s < n)%nat -> ch buf s <> 0).

Lemma lex l : forall pre trail junk, buf = pre ++ rest_of l trail junk -> n = (length pre + length (render l) + length trail)%nat -> layout_ok l -> blank trail ->
  map (tmap (text buf)) (toks buf n (length pre)) = map snd l.
Proof using Hend Hin.
  induction l as [|[sp t] l IH]; intros pre trail junk Eb En Hl Htr.
  - assert (E : skipws buf n (length pre) = n).
    { cbn in En. rewrite (skipws_run (length pre) (length trail)); [lia|lia| |left; lia]. intros i Hi. replace i with (length pre + (i - length pre))%nat by lia.
      rewrite (ch_at pre _ _ Eb). unfold rest_of. cbn [render app]. rewrite lookup_app_l by lia. destruct (lookup_lt_is_Some_2 trail (i - length pre)%nat ltac:(lia)) as [x Ex]. rewrite Ex.
      apply isin_ws. unfold blank in Htr. rewrite Forall_forall in Htr. apply Htr. by eapply list_elem_of_lookup_2. }
    assert (Hat : at_ buf n (length pre) (toks buf n (length pre))) by (split; [lia|done]). apply (at_skipws buf n Hend Hin) in Hat. rewrite E in Hat.
    destruct Hat as [_ <-]. destruct (at_es buf n Hend Hin) as [_ ->]. done.
  - cbn [render] in En. rewrite !length_app in En. assert (Eb1 : buf = pre ++ sp ++ tok_text t ++ rest_of l trail junk) by (rewrite Eb; unfold rest_of; cbn [render]; by rewrite <-!app_assoc).
    pose proof (layout_stop sp t l trail junk (length pre + length sp + length (tok_text t)) Hl Htr ltac:(lia)) as Hstop.
    pose proof Hl as (Hsp & Ht & _ & Hl'). destruct (lex_one pre sp t _ Eb1 ltac:(lia) Hsp Ht) as (r & w & E & Hr & Em); [by destruct t|].
    assert (Hat : at_ buf n (length pre) (toks buf n (length pre))) by (split; [lia|done]).
    destruct (at_gettoken buf n Hend Hin _ _ Hat) as (r' & w' & s' & E' & Hts). rewrite E in E'. injection E' as <- <- <-.
    destruct (toks buf n (length pre)) as [|t0 ts]; [destruct Hts as [? _]; done|]. destruct Hts as (_ & -> & Hat'). cbn [map snd]. rewrite Em. f_equal.
    assert (Hat2 : at_ buf n (length (pre ++ sp ++ tok_text t)) (toks buf n (length (pre ++ sp ++ tok_text t)))) by (split; [rewrite !length_app; lia|done]).
    apply (at_skipws buf n Hend Hin) in Hat2. rewrite !length_app, Nat.add_assoc in Hat2. destruct Hat' as [_ <-], Hat2 as [_ ->]. rewrite <-Nat.add_assoc, <-!length_app.
    apply (IH _ trail junk); [by rewrite Eb1, <-!app_assoc|rewrite !length_app; lia|done|done].
Qed.
End Lex.

(** The terminator of a layout is the first null byte. *)
Lemma es_render l trail junk : layout_ok l -> blank trail -> eol (render l ++ trail ++ 0 :: junk) = (length (render l) + length trail)%nat.
Proof.
  intros Hl Htr. rewrite es_length, app_assoc, cstr_nz_app.
  - cbn. by rewrite app_nil_r, length_app.
  - apply Forall_app. split; [|eapply Forall_impl; [exact Htr|]; cbn; intros c Hc ->; unfold whitespace in Hc; rewrite !elem_of_cons, elem_of_nil in Hc; lia].
    induction l as [|[sp t] l IH]; [constructor|]. destruct Hl as (Hsp & Ht & _ & Hl). cbn [render]. rewrite !Forall_app. split_and!; [| |by apply IH].
    + eapply Forall_impl; [exact Hsp|]. cbn. intros c Hc ->. unfold whitespace in Hc. rewrite !elem_of_cons, elem_of_nil in Hc. lia.
    + destruct t as [c|w]; cbn in *; [|destruct Ht as [_ Hf]; eapply Forall_impl; [exact Hf|]; cbn; tauto]. rewrite !elem_of_cons, elem_of_nil in Ht.
      destruct (c =? 43); repeat constructor; lia.
Qed.

(** C26: the shell's parser accepts exactly the grammar of [ShellProps.v]: for any
    line it returns a command exactly when the line's tokens are those of a
    tree with fewer than MAXARGS words in each simple command, and the command
    is the tree's, so that the grammar is unambiguous; the words of the
    command are then strings in the line, each ended by its own terminator; on
    every other line it ends with an error message and never runs on. *)
Theorem parsecmd_grammar buf (Hnul : 0 ∈ buf) :
  (forall c, (exists buf', parsecmd buf = Ret c buf') <-> exists t, line_toks t = toks buf (eol buf) 0 /\ line_fits t = true /\ c = line_cmd t) /\
  (forall c buf', parsecmd buf = Ret c buf' -> cmap (fun w => cstr (drop w.1 buf')) c = cmap (text buf) c) /\
  match parsecmd buf with Ret _ _ => True | Panic msg => msg <> "fuel"%string | Sleep _ _ => False end.
Proof.
  split_and!; [|intros c buf'; by apply parsecmd_strings|by apply parsecmd_fuel]. intros c. split.
  - intros (buf' & (t & E1 & E2 & E3 & _)%parsecmd_trees); [|done]. eauto.
  - intros (t & E1 & E2 & E3). eexists. apply parsecmd_trees; [done|]. eauto 10.
Qed.

(** A command printed with any blanks parses back: for every tree over
    words, every layout of its tokens with blanks where two tokens would run
    together, anything after the terminator, parsecmd returns the tree's
    command, its words now strings in the line. *)
Theorem shell_roundtrip (t : line (list Z)) (l : layout) trail junk
  (Ht : map snd l = line_toks t) (Hfit : line_fits t = true) (Hl : layout_ok l) (Htr : blank trail) :
  exists c buf', parsecmd (render l ++ trail ++ 0 :: junk) = Ret c buf' /\ cmap (fun w => cstr (drop w.1 buf')) c = line_cmd t.
Proof.
  set (buf := render l ++ trail ++ 0 :: junk). assert (Hnul : 0 ∈ buf) by (unfold buf; set_solver).
  assert (Hes : eol buf = (length (render l) + length trail)%nat) by (by apply es_render).
  pose proof (lex buf (eol buf) (line_end buf Hnul) (fun i Hi => proj1 (line_in buf Hnul i Hi)) l [] trail junk eq_refl Hes Hl Htr) as Hlex. cbn [length] in Hlex. rewrite Ht in Hlex.
  destruct (proj1 (lift_tree (text buf)) t _ Hlex) as (t' & Et & <-). rewrite (proj1 (tree_fits_map (text buf))) in Hfit.
  assert (E : parsecmd buf = Ret (line_cmd t') (nulterminate (line_cmd t') buf)) by (apply parsecmd_trees; [done|]; eauto 10).
  eexists _, _. split; [exact E|]. rewrite (parsecmd_strings buf _ _ Hnul E). by rewrite (proj1 (tree_cmd_map (text buf))).
Qed.

(** ** The hypotheses at concrete lines *)

(** "ls\n". *)
Lemma parsecmd_grammar_witness : exists buf', parsecmd [108; 115; 10; 0] = Ret (EXEC [(0, 2)%nat]) buf'.
Proof.
  assert (Hn : 0 ∈ [108; 115; 10; 0]) by (rewrite !elem_of_cons; auto).
  apply (proj1 (parsecmd_grammar [108; 115; 10; 0] Hn)). exists (LEnd (POne (CSimple [Arg (0, 2)%nat])) 0). split; [|split]; vm_compute; reflexivity.
Defined.

(** "(a|b)& ;c>>f": a pipeline in the background, then a command with its
    output in a file. *)
Definition demo_tree : line (list Z) :=
  LSeq (POne (CBlock (LEnd (PPipe (CSimple [Arg [97]]) (POne (CSimple [Arg [98]]))) 0) [])) 1 (LEnd (POne (CSimple [Arg [99]; Red RApp [102]])) 0).
Definition demo_layout : layout :=
  [([], Sym 40); ([], Word [97]); ([], Sym 124); ([], Word [98]); ([], Sym 41); ([], Sym 38); ([32], Sym 59); ([], Word [99]); ([], Sym 43); ([], Word [102])].

Lemma shell_roundtrip_witness : exists c buf', parsecmd (render demo_layout ++ [10] ++ [0]) = Ret c buf' /\
  cmap (fun w => cstr (drop w.1 buf')) c = LIST (BACK (PIPE (EXEC [[97]]) (EXEC [[98]]))) (REDIR (EXEC [[99]]) [102] 0x201 1).
Proof.
  assert (Hl : layout_ok demo_layout).
  { assert (Hw : forall c, wordch c = true -> c <> 0 -> tok_ok (Word [c])) by (intros c H1 H2; split; [done|]; by repeat constructor).
    unfold demo_layout. cbn [layout_ok]. split_and!; try done; try (by apply Hw); try (cbn; rewrite !elem_of_cons; lia); try (by intros []); try (apply Forall_nil; done); by repeat constructor. }
  apply (shell_roundtrip demo_tree demo_layout [10] []); [reflexivity|reflexivity|exact Hl|by repeat constructor].
Defined.
