(* ===== verification/ShellRun.v ===== *)
(** * The shell's interpreter and its main loop (sh.c, gets of ulib.c)

    runcmd as the tree of processes it starts, with the descriptors each
    program is executed with and those a process has while it waits.  Whether open, pipe and fork succeed is decided by
    parameters; what a program does after exec is outside. *)

From S2P Require Import Prelude CString Shell.

(** ** Descriptors *)

Definition NOFILE : nat := 16.

(** What a descriptor refers to: something inherited, an opened file, or an end
    of the pipe made by the call of that number. *)
Inductive obj := Inherited (n : nat) | File (name : list Z) (mode : Z) | PipeR (k : nat) | PipeW (k : nat).
Definition fdtab := list (option obj).

Fixpoint lowest (t : fdtab) : option nat :=
  match t with [] => None | None :: _ => Some 0%nat | Some _ :: t' => S <$> lowest t' end.
Definition fdput (t : fdtab) (o : obj) : option (nat * fdtab) := i ← lowest t; Some (i, <[i := Some o]> t).
Definition close (t : fdtab) (fd : nat) : fdtab := <[fd := None]> t.
Definition dup (t : fdtab) (fd : nat) : fdtab :=
  match t !! fd with Some (Some o) => from_option snd t (fdput t o) | _ => t end.

(** What a command starts: [TFork c p t] forks [c], waits for it with the
    descriptors [t] and goes on as [p]; [TPar k l r t] forks both sides of pipe [k]
    and waits for both with [t]; [TBg c p] forks [c] and goes on without waiting.  A
    process that exits has no descriptors. *)
Inductive tree :=
| TExit
| TMsg (msg : string)
| TExec (argv : list (list Z)) (fds : fdtab)
| TFork (c p : tree) (fds : fdtab)
| TPar (k : nat) (l r : tree) (fds : fdtab)
| TBg (c p : tree).

Section Run.
(** Whether open, the k-th pipe and the k-th fork succeed. *)
Context (open_ok : list Z -> Z -> bool) (pipe_ok fork_ok : nat -> bool).

Definition open (t : fdtab) (file : list Z) (mode : Z) : option fdtab :=
  if open_ok file mode then snd <$> fdput t (File file mode) else None.

(** pipe(p): both ends, or no descriptor left. *)
Definition mkpipe (t : fdtab) (k : nat) : option (nat * nat * fdtab) :=
  if pipe_ok k then
    '(r, t) ← fdput t (PipeR k);
    '(w, t) ← fdput t (PipeW k);
    Some (r, w, t)
  else None.

(** runcmd; [k] counts the calls of pipe and fork that came before. *)
Fixpoint runcmd (c : cmd (list Z)) (t : fdtab) (k : nat) : tree * nat :=
  match c with
  | EXEC argv => (match argv with [] => TExit | _ => TExec argv t end, k)
  | REDIR c file mode fd =>
      match open (close t (Z.to_nat fd)) file mode with
      | None => (TMsg "open failed", k)
      | Some t => runcmd c t k
      end
  | LIST l r =>
      if fork_ok k then
        let '(tl, k1) := runcmd l t (S k) in
        let '(tr, k2) := runcmd r t k1 in
        (TFork tl tr t, k2)
      else (TMsg "fork", S k)
  | PIPE l r =>
      match mkpipe t k with
      | None => (TMsg "pipe", S k)
      | Some (p0, p1, t) =>
          if fork_ok (S k) then
            let '(tl, k1) := runcmd l (close (close (dup (close t 1) p1) p0) p1) (S (S k)) in
            if fork_ok k1 then
              let '(tr, k2) := runcmd r (close (close (dup (close t 0) p0) p0) p1) (S k1) in
              (TPar k tl tr (close (close t p0) p1), k2)
            else (TBg tl (TMsg "fork"), S k1)
          else (TMsg "fork", S (S k))
      end
  | BACK c =>
      if fork_ok k then let '(tc, k1) := runcmd c t (S k) in (TBg tc TExit, k1) else (TMsg "fork", S k)
  end.

(** ** What the juggling of descriptors means *)

(** Three descriptors and nothing else. *)
Definition std (i o e : obj) : fdtab := Some i :: Some o :: Some e :: replicate (NOFILE - 3) None.

(** The same tree with input, output and errors named directly. *)
Fixpoint wire (c : cmd (list Z)) (i o e : obj) (k : nat) : tree * nat :=
  match c with
  | EXEC argv => (match argv with [] => TExit | _ => TExec argv (std i o e) end, k)
  | REDIR c file mode fd =>
      if open_ok file mode then
        if fd =? 0 then wire c (File file mode) o e k else wire c i (File file mode) e k
      else (TMsg "open failed", k)
  | LIST l r =>
      if fork_ok k then
        let '(tl, k1) := wire l i o e (S k) in
        let '(tr, k2) := wire r i o e k1 in
        (TFork tl tr (std i o e), k2)
      else (TMsg "fork", S k)
  | PIPE l r =>
      if pipe_ok k then
        if fork_ok (S k) then
          let '(tl, k1) := wire l i (PipeW k) e (S (S k)) in
          if fork_ok k1 then let '(tr, k2) := wire r (PipeR k) o e (S k1) in (TPar k tl tr (std i o e), k2)
          else (TBg tl (TMsg "fork"), S k1)
        else (TMsg "fork", S (S k))
      else (TMsg "pipe", S k)
  | BACK c =>
      if fork_ok k then let '(tc, k1) := wire c i o e (S k) in (TBg tc TExit, k1) else (TMsg "fork", S k)
  end.

(** The redirections the parser makes: input or output. *)
Fixpoint std_redirs (c : cmd (list Z)) : Prop :=
  match c with
  | EXEC _ => True
  | REDIR c _ _ fd => (fd = 0 \/ fd = 1) /\ std_redirs c
  | PIPE l r | LIST l r => std_redirs l /\ std_redirs r
  | BACK c => std_redirs c
  end.

Lemma runcmd_wire c i o e k : std_redirs c -> runcmd c (std i o e) k = wire c i o e k.
Proof.
  revert i o e k. induction c as [argv|c IH file mode fd|l IHl r IHr|l IHl r IHr|c IH]; intros i o e k Hc; cbn [runcmd wire std_redirs] in *.
  - done.
  - destruct Hc as [Hfd Hc]. unfold open. destruct (open_ok file mode); [|by destruct Hfd as [->| ->]]. destruct Hfd as [->| ->]; cbn; apply (IH _ _ _ _ Hc).
  - destruct Hc as [Hl Hr]. unfold mkpipe. destruct (pipe_ok k); [|done]. cbn. destruct (fork_ok (S k)); [|done].
    pose proof (IHl i (PipeW k) e (S (S k)) Hl) as El. unfold std in El. cbn in El. rewrite El. destruct (wire l i (PipeW k) e (S (S k))) as [tl k1]. destruct (fork_ok k1); [|done].
    pose proof (IHr (PipeR k) o e (S k1) Hr) as Er. unfold std in Er. cbn in Er. by rewrite Er.
  - destruct Hc as [Hl Hr]. destruct (fork_ok k); [|done]. rewrite IHl by done. destruct (wire l i o e (S k)) as [tl k1]. by rewrite IHr.
  - destruct (fork_ok k); [|done]. by rewrite IH.
Qed.

(** Somebody in the tree has [x]. *)
Fixpoint has (x : obj) (t : tree) : Prop :=
  match t with
  | TExit | TMsg _ => False
  | TExec _ fds => Some x ∈ fds
  | TFork a b fds | TPar _ a b fds => has x a \/ has x b \/ Some x ∈ fds
  | TBg a b => has x a \/ has x b
  end.

(** Whoever runs a program or waits has three descriptors; and of a pipe only the
    left side has the end to write and only the right side the end to read. *)
Fixpoint ends_apart (t : tree) : Prop :=
  match t with
  | TExit | TMsg _ => True
  | TExec _ fds => exists i o e, fds = std i o e
  | TFork a b fds => ends_apart a /\ ends_apart b /\ exists i o e, fds = std i o e
  | TPar k l r fds =>
      ends_apart l /\ ends_apart r /\ (exists i o e, fds = std i o e) /\
      ~ has (PipeR k) l /\ ~ has (PipeW k) r /\ Some (PipeR k) ∉ fds /\ Some (PipeW k) ∉ fds
  | TBg a b => ends_apart a /\ ends_apart b
  end.

(** An end of a pipe that does not exist yet. *)
Definition future (k : nat) (x : obj) : Prop := match x with PipeR j | PipeW j => (k <= j)%nat | _ => False end.
Definition is_file (x : obj) : Prop := match x with File _ _ => True | _ => False end.

Lemma std_has x i o e : Some x ∈ std i o e -> x = i \/ x = o \/ x = e.
Proof. unfold std. cbn. rewrite !elem_of_cons, elem_of_nil. naive_solver. Qed.

(** The tree has what it was given, files, and the pipes it makes itself. *)
Lemma wire_has c x : forall i o e k, let '(t, k') := wire c i o e k in
  (k <= k')%nat /\ (has x t -> (x = i \/ x = o \/ x = e) \/ is_file x \/ (future k x /\ ~ future k' x)).
Proof.
  induction c as [argv|c IH file mode fd|l IHl r IHr|l IHl r IHr|c IH]; intros i o e k; cbn [wire].
  - split; [done|]. destruct argv; cbn [has]; [done|]. intros ?%std_has. by left.
  - destruct (open_ok file mode); [|split; [done|by intros []]]. destruct (fd =? 0).
    + specialize (IH (File file mode) o e k). destruct (wire c (File file mode) o e k) as [t k']. destruct IH as [H1 H2]. split; [done|]. intros [[->|[->| ->]]|H]%H2; auto. right. by left.
    + specialize (IH i (File file mode) e k). destruct (wire c i (File file mode) e k) as [t k']. destruct IH as [H1 H2]. split; [done|]. intros [[->|[->| ->]]|H]%H2; auto. right. by left.
  - destruct (pipe_ok k); [|split; [lia|by intros []]]. destruct (fork_ok (S k)); [|split; [lia|by intros []]].
    specialize (IHl i (PipeW k) e (S (S k))). destruct (wire l i (PipeW k) e (S (S k))) as [tl k1]. destruct IHl as [L1 L2].
    assert (forall k', (k1 <= k')%nat -> has x tl -> (x = i \/ x = o \/ x = e) \/ is_file x \/ (future k x /\ ~ future k' x)) as HL.
    { intros k' Hk [[->|[->| ->]]|[H|[H1 H2]]]%L2; auto; right; right; [cbn; lia|]. destruct x; cbn in *; lia. }
    destruct (fork_ok k1); [|split; [lia|]; intros [H|[]]; by apply HL; [lia|]].
    specialize (IHr (PipeR k) o e (S k1)). destruct (wire r (PipeR k) o e (S k1)) as [tr k2]. destruct IHr as [R1 R2]. split; [lia|].
    intros [H|[H|H%std_has]]; [apply HL; [lia|done]| |by left]. destruct (R2 H) as [[->|[->| ->]]|[H'|[H1 H2]]]; auto; right; right; [cbn; lia|]. destruct x; cbn in *; lia.
  - destruct (fork_ok k); [|split; [lia|by intros []]]. specialize (IHl i o e (S k)). destruct (wire l i o e (S k)) as [tl k1]. destruct IHl as [L1 L2].
    specialize (IHr i o e k1). destruct (wire r i o e k1) as [tr k2]. destruct IHr as [R1 R2]. split; [lia|].
    intros [H|[H|H%std_has]]; [|apply R2 in H|by left]; [apply L2 in H|]; destruct H as [H|[H|[H1 H2]]]; auto; right; right; destruct x; cbn in *; lia.
  - destruct (fork_ok k); [|split; [lia|by intros []]]. specialize (IH i o e (S k)). destruct (wire c i o e (S k)) as [tc k1]. destruct IH as [L1 L2].
    split; [lia|]. intros [H|[]]. apply L2 in H as [H|[H|[H1 H2]]]; auto. right; right. destruct x; cbn in *; lia.
Qed.

Lemma wire_apart c : forall i o e k, ~ future k i -> ~ future k o -> ~ future k e -> ends_apart (wire c i o e k).1.
Proof.
  assert (forall k k' x, (k <= k')%nat -> ~ future k x -> ~ future k' x) as Hmono by (intros k k' [| | |]; cbn; lia).
  induction c as [argv|c IH file mode fd|l IHl r IHr|l IHl r IHr|c IH]; intros i o e k Hi Ho He; cbn [wire].
  - destruct argv; cbn; [done|]. by eexists _, _, _.
  - destruct (open_ok file mode); [|done]. destruct (fd =? 0); apply IH; try done; by intros [].
  - destruct (pipe_ok k); [|done]. destruct (fork_ok (S k)); [|done].
    pose proof (wire_has l (PipeR k) i (PipeW k) e (S (S k))) as L. specialize (IHl i (PipeW k) e (S (S k)) ltac:(eapply Hmono; [|exact Hi]; lia) ltac:(cbn; lia) ltac:(eapply Hmono; [|exact He]; lia)).
    destruct (wire l i (PipeW k) e (S (S k))) as [tl k1]. destruct L as [L1 L2]. destruct (fork_ok k1); [|done].
    pose proof (wire_has r (PipeW k) (PipeR k) o e (S k1)) as R. specialize (IHr (PipeR k) o e (S k1) ltac:(cbn; lia) ltac:(eapply Hmono; [|exact Ho]; lia) ltac:(eapply Hmono; [|exact He]; lia)).
    destruct (wire r (PipeR k) o e (S k1)) as [tr k2]. destruct R as [R1 R2]. cbn [fst ends_apart]. split_and!; [done|done|by eexists _, _, _|..].
    + intros [[<-|[?|<-]]|[[]|[? _]]]%L2; cbn in *; [lia|done|lia|lia].
    + intros [[?|[<-|<-]]|[[]|[? _]]]%R2; cbn in *; [done|lia|lia|lia].
    + intros [<-|[<-|<-]]%std_has; cbn in *; lia.
    + intros [<-|[<-|<-]]%std_has; cbn in *; lia.
  - destruct (fork_ok k); [|done]. pose proof (wire_has l i i o e (S k)) as L. specialize (IHl i o e (S k) ltac:(eapply Hmono; [|exact Hi]; lia) ltac:(eapply Hmono; [|exact Ho]; lia) ltac:(eapply Hmono; [|exact He]; lia)).
    destruct (wire l i o e (S k)) as [tl k1]. destruct L as [L1 _]. specialize (IHr i o e k1 ltac:(eapply Hmono; [|exact Hi]; lia) ltac:(eapply Hmono; [|exact Ho]; lia) ltac:(eapply Hmono; [|exact He]; lia)).
    destruct (wire r i o e k1) as [tr k2]. cbn [fst ends_apart] in *. split_and!; [done..|by eexists _, _, _].
  - destruct (fork_ok k); [|done]. specialize (IH i o e (S k) ltac:(eapply Hmono; [|exact Hi]; lia) ltac:(eapply Hmono; [|exact Ho]; lia) ltac:(eapply Hmono; [|exact He]; lia)).
    by destruct (wire c i o e (S k)) as [tc k1].
Qed.

(** C27: the closing, opening and duplicating of descriptors in runcmd amounts to
    naming the three standard descriptors: a pipeline's left side writes into
    the pipe the right side reads, a redirection replaces input or output.  Every
    program starts and every process waits with exactly three descriptors; of a
    pipe no process but those of the left side has the end to write, and none but
    those of the right side the end to read, the shell that waits for them included,
    so that a reader sees the end of its input when the writers are gone; whichever
    calls of open, pipe and fork fail, and for chains of pipes of any length. *)
Theorem runcmd_wiring c i o e k (Hc : std_redirs c) (Hi : ~ future k i /\ ~ future k o /\ ~ future k e) :
  runcmd c (std i o e) k = wire c i o e k /\ ends_apart (runcmd c (std i o e) k).1.
Proof. rewrite runcmd_wire by done. split; [done|]. destruct Hi as (? & ? & ?). by apply wire_apart. Qed.

End Run.

(** "a|b|c": three programs, and a shell that waits at each bar. *)
Lemma runcmd_wiring_witness :
  (runcmd (fun _ _ => true) (fun _ => true) (fun _ => true) (PIPE (EXEC [[97]]) (PIPE (EXEC [[98]]) (EXEC [[99]]))) (std (Inherited 0) (Inherited 1) (Inherited 2)) 0).1 =
    TPar 0 (TExec [[97]] (std (Inherited 0) (PipeW 0) (Inherited 2)))
      (TPar 3 (TExec [[98]] (std (PipeR 0) (PipeW 3) (Inherited 2))) (TExec [[99]] (std (PipeR 3) (Inherited 1) (Inherited 2))) (std (PipeR 0) (Inherited 1) (Inherited 2)))
      (std (Inherited 0) (Inherited 1) (Inherited 2)).
Proof.
  rewrite (proj1 (runcmd_wiring (fun _ _ => true) (fun _ => true) (fun _ => true) (PIPE (EXEC [[97]]) (PIPE (EXEC [[98]]) (EXEC [[99]])))
    (Inherited 0) (Inherited 1) (Inherited 2) 0 ltac:(done) ltac:(by split_and!; intros []))). reflexivity.
Defined.

(** ** The main loop *)

Definition LINESZ : nat := 100.

(** gets: at most [n] bytes of the input, up to and with the end of a line. *)
Fixpoint gets_loop (n : nat) (inp : list Z) : list Z * list Z :=
  match n, inp with
  | S n', c :: inp' => if (c =? 10) || (c =? 13) then ([c], inp') else let '(l, r) := gets_loop n' inp' in (c :: l, r)
  | _, _ => ([], inp)
  end.

(** getcmd: the buffer, cleared and filled, and the rest of the input. *)
Definition getcmd (inp : list Z) : option (list Z * list Z) :=
  let '(l, rest) := gets_loop (LINESZ - 1) inp in
  let buf := l ++ replicate (LINESZ - length l) 0 in
  if hd 0 buf =? 0 then None else Some (buf, rest).

(** What the shell does with a line. *)
Inductive shact := SChdir (path : list Z) | SRun (buf : list Z).

Definition is_cd (buf : list Z) : bool := (ch buf 0 =? 99) && (ch buf 1 =? 100) && (ch buf 2 =? 32).
Definition is_logout (buf : list Z) : bool := bool_decide (take 7 buf = [108; 111; 103; 111; 117; 116; 10]).

Fixpoint sh_loop (fuel : nat) (inp : list Z) : list shact :=
  match fuel with
  | O => []
  | S f =>
      match getcmd inp with
      | None => []
      | Some (buf, rest) =>
          if is_cd buf then
            let buf := <[Z.to_nat (strlen buf - 1) := 0]> buf in
            SChdir (cstr (drop 3 buf)) :: sh_loop f rest
          else if is_logout buf then []
          else SRun buf :: sh_loop f rest
      end
  end.
(** Every turn but the last reads a byte. *)
Definition sh_main (inp : list Z) : list shact := sh_loop (S (length inp)) inp.

(** while((fd = open("console", O_RDWR)) >= 0) ... *)
Fixpoint sh_console (n : nat) (t : fdtab) : fdtab :=
  match n with
  | O => t
  | S n' =>
      match fdput t (File [99; 111; 110; 115; 111; 108; 101] 2) with
      | Some (fd, t') => if (3 <=? fd)%nat then close t' fd else sh_console n' t'
      | None => t
      end
  end.

(** A line as typed, without its end. *)
Definition plain (l : list Z) : Prop := (length l <= LINESZ - 2)%nat /\ Forall (fun c => c <> 0 /\ c <> 10 /\ c <> 13) l.
Definition padded (l : list Z) : list Z := l ++ 10 :: replicate (LINESZ - S (length l)) 0.
Definition line_act (l : list Z) : shact :=
  match l with 99 :: 100 :: 32 :: path => SChdir path | _ => SRun (padded l) end.
(** The lines before the first logout. *)
Fixpoint before_logout (ls : list (list Z)) : list (list Z) :=
  match ls with [] => [] | l :: ls' => if bool_decide (l = [108; 111; 103; 111; 117; 116]) then [] else l :: before_logout ls' end.

Lemma gets_plain l n rest : Forall (fun c => c <> 0 /\ c <> 10 /\ c <> 13) l -> (length l < n)%nat -> gets_loop n (l ++ 10 :: rest) = (l ++ [10], rest).
Proof.
  revert n. induction l as [|c l IH]; intros [|n] Hl Hn; [lia|done|cbn in Hn; lia|]. apply Forall_cons in Hl as [(_ & H1 & H2) Hl]. cbn [app gets_loop].
  rewrite (proj2 (Z.eqb_neq c 10)), (proj2 (Z.eqb_neq c 13)) by done. cbn [orb]. rewrite IH; [done|done|]. cbn in Hn. lia.
Qed.

Lemma getcmd_plain l rest : plain l -> getcmd (l ++ 10 :: rest) = Some (padded l, rest).
Proof.
  intros [Hn Hl]. unfold getcmd. unfold LINESZ in *. rewrite gets_plain by (done || lia). rewrite length_app. cbn [length]. replace (100 - (length l + 1))%nat with (100 - S (length l))%nat by lia.
  assert ((hd 0 ((l ++ [10]) ++ replicate (100 - S (length l)) 0) =? 0) = false) as ->.
  { destruct l as [|c l]; [done|]. apply Forall_cons in Hl as [(Hc & _) _]. cbn. by apply Z.eqb_neq. }
  unfold padded. rewrite <-app_assoc. done.
Qed.

Lemma strlen_padded l : plain l -> strlen (padded l) = Z.of_nat (S (length l)).
Proof.
  intros [Hn Hl]. rewrite strlen_length. unfold padded. rewrite cstr_nz_app by (eapply Forall_impl; [exact Hl|]; cbn; tauto). rewrite length_app. cbn [cstr Z.eqb].
  destruct (LINESZ - S (length l))%nat; cbn; lia.
Qed.

Lemma is_cd_padded l : plain l -> is_cd (padded l) = match l with 99 :: 100 :: 32 :: _ => true | _ => false end.
Proof.
  intros [Hn _]. unfold is_cd, ch, padded, LINESZ in *. destruct l as [|a [|b [|c l]]]; cbn [app lookup list_lookup default from_option length] in *.
  - done.
  - rewrite andb_false_r. by repeat case_match.
  - rewrite andb_false_r. by repeat case_match.
  - destruct (Z.eqb_spec a 99) as [->|]; [|by repeat case_match]. destruct (Z.eqb_spec b 100) as [->|]; [|by repeat case_match]. destruct (Z.eqb_spec c 32) as [->|]; [done|by repeat case_match].
Qed.

Lemma is_logout_padded l : plain l -> is_logout (padded l) = bool_decide (l = [108; 111; 103; 111; 117; 116]).
Proof.
  intros [Hn Hl]. unfold is_logout. apply bool_decide_ext. split; [|by intros ->].
  intros E. assert (Hlen : length l = 6%nat).
  { assert (Hat : padded l !! length l = Some 10) by (unfold padded; by rewrite lookup_app_r, Nat.sub_diag by lia).
    destruct (Nat.lt_trichotomy (length l) 6) as [Hlt|[?|Hgt]]; [|done|].
    - assert (Hx : take 7 (padded l) !! length l = Some 10) by (rewrite lookup_take_lt by lia; done). rewrite E in Hx.
      assert (Hlt' : forall i, (i < 6)%nat -> [108; 111; 103; 111; 117; 116; 10] !! i <> Some 10) by (intros i Hi; do 6 (destruct i as [|i]; [done|]); lia). by destruct (Hlt' _ Hlt).
    - assert (Hx : take 7 (padded l) !! 6%nat = Some 10) by (by rewrite E). rewrite lookup_take_lt in Hx by lia. unfold padded in Hx. rewrite lookup_app_l in Hx by lia.
      rewrite Forall_forall in Hl. destruct (Hl 10) as (_ & ? & _); [by eapply list_elem_of_lookup_2|done]. }
  apply (f_equal (take 6)) in E. rewrite take_take in E. cbn [Nat.min] in E. unfold padded in E. rewrite <-Hlen, take_app_length in E at 1. exact E.
Qed.

Lemma chdir_path path : plain (99 :: 100 :: 32 :: path) -> let buf := padded (99 :: 100 :: 32 :: path) in
  cstr (drop 3 (<[Z.to_nat (strlen buf - 1) := 0]> buf)) = path.
Proof.
  intros Hp buf. unfold buf. rewrite strlen_padded by done. destruct Hp as [_ Hl]. replace (Z.to_nat _) with (length ((99 :: 100 :: 32 :: path)%Z) + 0)%nat by (cbn [length]; lia).
  unfold padded. rewrite insert_app_r. change (drop 3 ((99 :: 100 :: 32 :: path) ++ ?x)) with (path ++ x). do 3 apply Forall_cons in Hl as [_ Hl].
  rewrite cstr_nz_app by (eapply Forall_impl; [exact Hl|]; cbn; tauto). cbn. by rewrite app_nil_r.
Qed.

Lemma sh_loop_lines ls fuel : Forall plain ls -> (length ls < fuel)%nat -> sh_loop fuel (concat (map (fun l => l ++ [10]) ls)) = map line_act (before_logout ls).
Proof.
  revert fuel. induction ls as [|l ls IH]; intros [|fuel] Hls Hf; [lia|done|cbn in Hf; lia|]. apply Forall_cons in Hls as [Hl Hls]. cbn [map concat before_logout sh_loop].
  rewrite <-app_assoc. cbn [app]. rewrite getcmd_plain, is_cd_padded by done. specialize (IH fuel Hls ltac:(cbn in Hf; lia)).
  destruct (match l with 99 :: 100 :: 32 :: _ => true | _ => false end) eqn:Ecd.
  - assert (exists path, l = 99 :: 100 :: 32 :: path) as [path ->] by (repeat case_match; try done; by eexists). rewrite chdir_path by done. rewrite IH.
    rewrite bool_decide_eq_false_2 by done. done.
  - rewrite is_logout_padded by done. case_bool_decide as Elo; [done|]. cbn [map]. rewrite IH. f_equal. unfold line_act. repeat case_match; done.
Qed.

(** typed lines of up to 98 bytes are carried out one by one until logout
    or the end of the input: a line that starts with cd changes the shell's own
    directory to the rest of the line, every other one is handed to the
    parser as typed. *)
Theorem sh_lines ls (Hls : Forall plain ls) : sh_main (concat (map (fun l => l ++ [10]) ls)) = map line_act (before_logout ls).
Proof.
  apply sh_loop_lines; [done|]. clear Hls. assert (length ls <= length (concat (map (fun l => l ++ [10%Z]) ls)))%nat; [|lia].
  induction ls as [|l ls IH]; cbn; [lia|]. rewrite !length_app. cbn. lia.
Qed.

(** "cd /", "ls", "logout" and a line after it. *)
Lemma sh_lines_witness : sh_main (concat (map (fun l => l ++ [10]) [[99; 100; 32; 47]; [108; 115]; [108; 111; 103; 111; 117; 116]; [108; 115]])) = [SChdir [47]; SRun (padded [108; 115])].
Proof.
  rewrite sh_lines; [reflexivity|]. repeat (apply Forall_cons; split); [..|apply Forall_nil; done]; (split; [unfold LINESZ; cbn; lia|]); repeat (apply Forall_cons; split); try lia; apply Forall_nil; done.
Defined.

(** The console is opened until the three standard descriptors are. *)
Lemma sh_console_std t : length t = NOFILE -> (forall i, (3 <= i)%nat -> t !! i = None \/ t !! i = Some None) ->
  exists i o e, sh_console 4 t = std i o e.
Proof.
  intros Hl Ht. unfold NOFILE in Hl. do 16 (destruct t as [|? t]; [done|]). destruct t; [|done].
  assert (Hn : forall i x, (3 <= i)%nat -> [o; o0; o1; o2; o3; o4; o5; o6; o7; o8; o9; o10; o11; o12; o13; o14] !! i = Some x -> x = None).
  { intros i x Hi E. destruct (Ht i Hi) as [E'|E']; rewrite E in E'; [done|]. by injection E'. }
  rewrite (Hn 3%nat o2), (Hn 4%nat o3), (Hn 5%nat o4), (Hn 6%nat o5), (Hn 7%nat o6), (Hn 8%nat o7), (Hn 9%nat o8), (Hn 10%nat o9), (Hn 11%nat o10), (Hn 12%nat o11), (Hn 13%nat o12), (Hn 14%nat o13), (Hn 15%nat o14) by (lia || done).
  clear. destruct o, o0, o1; cbn; unfold std; cbn; by eexists _, _, _.
Qed.
