(* ===== verification/Ide.v ===== *)
(** * The IDE disk driver (ide.c)

    Requests wait in a list linked through the buffers; the first one is with
    the disk, whose interrupt takes it off, wakes its process and starts the
    next.  The disk is reached through its ports, which are a parameter; the
    sections of the code run under idelock. *)

From S2P Require Import Prelude.

Definition IDE_BSY : Z := 0x80.
Definition IDE_DRDY : Z := 0x40.
Definition IDE_DF : Z := 0x20.
Definition IDE_ERR : Z := 0x01.
Definition IDE_CMD_READ : Z := 0x20.
Definition IDE_CMD_WRITE : Z := 0x30.
Definition FSSIZE : Z := 3000.
Definition BLOCKWORDS : nat := 128.

(** struct buf, as far as the driver uses it; [ib_locked] is
    holdingsleep(&b->lock). *)
Record ibuf := IBuf { ib_locked : bool; ib_valid : bool; ib_dirty : bool; ib_dev : Z; ib_bno : Z; ib_data : list Z; ib_qnext : option nat }.

Definition set_qnext (q : option nat) (b : ibuf) : ibuf := IBuf (ib_locked b) (ib_valid b) (ib_dirty b) (ib_dev b) (ib_bno b) (ib_data b) q.
Definition set_ibdata (d : list Z) (b : ibuf) : ibuf := IBuf (ib_locked b) (ib_valid b) (ib_dirty b) (ib_dev b) (ib_bno b) d (ib_qnext b).
(** b->flags |= B_VALID; b->flags &= ~B_DIRTY; *)
Definition set_done (b : ibuf) : ibuf := IBuf (ib_locked b) true false (ib_dev b) (ib_bno b) (ib_data b) (ib_qnext b).

(** The instructions that reach the disk. *)
Class IdePorts (D : Type) := {
  d_inb : Z -> D -> Z * D;
  d_outb : Z -> Z -> D -> D;
  d_insl : Z -> nat -> D -> list Z * D;
  d_outsl : Z -> list Z -> D -> D
}.

Record idest (D : Type) := IdeSt { ibufs : nat -> ibuf; idequeue : option nat; havedisk1 : bool; ports : D }.
Arguments IdeSt {D}.
Arguments ibufs {D}.
Arguments idequeue {D}.
Arguments havedisk1 {D}.
Arguments ports {D}.

Definition bufs_upd (bs : nat -> ibuf) (b : nat) (f : ibuf -> ibuf) : nat -> ibuf := fun i => if decide (i = b) then f (bs b) else bs i.

Section Driver.
Context {D : Type} `{!IdePorts D}.
(** How often the status is read before the disk is given up for dead, and the
    number of buffers. *)
Context (polls nbuf : nat).

Definition upd_buf (b : nat) (f : ibuf -> ibuf) : M (idest D) unit := modify (λ s, IdeSt (bufs_upd (ibufs s) b f) (idequeue s) (havedisk1 s) (ports s)).
Definition set_idequeue (q : option nat) : M (idest D) unit := modify (λ s, IdeSt (ibufs s) q (havedisk1 s) (ports s)).
Definition inb (p : Z) : M (idest D) Z := λ s, let '(v, d) := d_inb p (ports s) in Ret v (IdeSt (ibufs s) (idequeue s) (havedisk1 s) d).
Definition outb (p v : Z) : M (idest D) unit := modify (λ s, IdeSt (ibufs s) (idequeue s) (havedisk1 s) (d_outb p v (ports s))).
Definition outsl (p : Z) (l : list Z) : M (idest D) unit := modify (λ s, IdeSt (ibufs s) (idequeue s) (havedisk1 s) (d_outsl p l (ports s))).
Definition insl (p : Z) (n : nat) : M (idest D) (list Z) := λ s, let '(v, d) := d_insl p n (ports s) in Ret v (IdeSt (ibufs s) (idequeue s) (havedisk1 s) d).

Fixpoint idewait_loop (n : nat) (checkerr : bool) : M (idest D) Z :=
  match n with
  | O => panic "disk never ready"
  | S n' =>
      r ← inb 0x1f7;
      if negb (Z.land r (Z.lor IDE_BSY IDE_DRDY) =? IDE_DRDY) then idewait_loop n' checkerr
      else mret (if checkerr && negb (Z.land r (Z.lor IDE_DF IDE_ERR) =? 0) then -1 else 0)
  end.
Definition idewait (checkerr : bool) : M (idest D) Z := idewait_loop (S polls) checkerr.

(** The search for disk 1 in ideinit. *)
Fixpoint probe (n : nat) : M (idest D) unit :=
  match n with
  | O => mret tt
  | S n' => r ← inb 0x1f7; if negb (r =? 0) then modify (λ s, IdeSt (ibufs s) (idequeue s) true (ports s)) else probe n'
  end.
Definition ideinit : M (idest D) unit :=
  idewait false ;; outb 0x1f6 (Z.lor 0xe0 (Z.shiftl 1 4)) ;; probe 1000 ;; outb 0x1f6 (Z.lor 0xe0 (Z.shiftl 0 4)).

(** The registers of a request. *)
Definition idestart_ports (dev sector : Z) (cmd : Z) : M (idest D) unit :=
  outb 0x3f6 0 ;;
  outb 0x1f2 1 ;;
  outb 0x1f3 (Z.land sector 0xff) ;;
  outb 0x1f4 (Z.land (Z.shiftr sector 8) 0xff) ;;
  outb 0x1f5 (Z.land (Z.shiftr sector 16) 0xff) ;;
  outb 0x1f6 (Z.lor (Z.lor 0xe0 (Z.shiftl (Z.land dev 1) 4)) (Z.land (Z.shiftr sector 24) 0x0f)) ;;
  outb 0x1f7 cmd.

(** idestart; a block is one sector. *)
Definition idestart (b : nat) : M (idest D) unit :=
  s ← get;
  let bf := ibufs s b in
  if FSSIZE <=? ib_bno bf then panic "incorrect blockno"
  else
    idewait false ;;
    if ib_dirty bf then idestart_ports (ib_dev bf) (ib_bno bf) IDE_CMD_WRITE ;; outsl 0x1f0 (ib_data bf)
    else idestart_ports (ib_dev bf) (ib_bno bf) IDE_CMD_READ.

(** The interrupt handler; it returns the buffer whose sleepers it wakes. *)
Definition ideintr : M (idest D) (option nat) :=
  q ← gets idequeue;
  match q with
  | None => mret None
  | Some b =>
      s ← get;
      let bf := ibufs s b in
      set_idequeue (ib_qnext bf) ;;
      when (negb (ib_dirty bf))
        (r ← idewait true; when (0 <=? r) (l ← insl 0x1f0 BLOCKWORDS; upd_buf b (set_ibdata l))) ;;
      upd_buf b set_done ;;
      match ib_qnext bf with Some n => idestart n | None => mret tt end ;;
      mret (Some b)
  end.

(** The walk to the end of the list, from a buffer of it, and the link of [b]
    there. *)
Fixpoint append_after (n : nat) (i b : nat) : M (idest D) unit :=
  match n with
  | O => panic "fuel"
  | S n' =>
      s ← get;
      match ib_qnext (ibufs s i) with
      | Some j => append_after n' j b
      | None => upd_buf i (set_qnext (Some b))
      end
  end.

(** iderw once more from its loop: done, or asleep again. *)
Definition iderw_wait (b : nat) : M (idest D) unit :=
  s ← get;
  if ib_valid (ibufs s b) && negb (ib_dirty (ibufs s b)) then mret tt else sleep_on (CBuf b).

Definition iderw (b : nat) : M (idest D) unit :=
  s ← get;
  let bf := ibufs s b in
  if negb (ib_locked bf) then panic "iderw: buf not locked"
  else if ib_valid bf && negb (ib_dirty bf) then panic "iderw: nothing to do"
  else if negb (ib_dev bf =? 0) && negb (havedisk1 s) then panic "iderw: ide disk 1 not present"
  else
    upd_buf b (set_qnext None) ;;
    match idequeue s with
    | Some h => append_after nbuf h b
    | None => set_idequeue (Some b)
    end ;;
    q ← gets idequeue;
    when (bool_decide (q = Some b)) (idestart b) ;;
    iderw_wait b.

End Driver.

(** ** What the disk promises *)

(** The sector and the drive that the address registers select. *)
Definition lba (r3 r4 r5 r6 : Z) : Z := r3 + 2 ^ 8 * r4 + 2 ^ 16 * r5 + 2 ^ 24 * Z.land r6 15.
Definition drive (r6 : Z) : Z := Z.land (Z.shiftr r6 4) 1.

(** The contents of the drives, by drive and sector. *)
Definition content := Z -> Z -> list Z.
Definition cput (c : content) (d n : Z) (l : list Z) : content := fun d' n' => if decide (d' = d /\ n' = n) then l else c d' n'.

(** The status register becomes ready, without an error, after [n] reads. *)
Inductive settles {D} `{!IdePorts D} : nat -> D -> D -> Prop :=
| settle_now d st d' : d_inb 0x1f7 d = (st, d') -> Z.land st 0xc0 = 0x40 -> Z.land st 0x21 = 0 -> settles 0 d d'
| settle_later n d st d1 d' : d_inb 0x1f7 d = (st, d1) -> Z.land st 0xc0 <> 0x40 -> settles n d1 d' -> settles (S n) d d'.

(** The registers written before a command. *)
Definition address {D} `{!IdePorts D} (r3 r4 r5 r6 : Z) (d : D) : D :=
  d_outb 0x1f6 r6 (d_outb 0x1f5 r5 (d_outb 0x1f4 r4 (d_outb 0x1f3 r3 (d_outb 0x1f2 1 (d_outb 0x3f6 0 d))))).

(** The command protocol: [di_idle d c] is a disk that waits for a command and
    holds [c], [di_read d c v n] one that was told to read a sector. *)
Class IdeDisk (D : Type) `{!IdePorts D} (polls : nat) := {
  di_idle : D -> content -> Prop;
  di_read : D -> content -> Z -> Z -> Prop;
  di_ready d c : di_idle d c -> exists n d', (n <= polls)%nat /\ settles n d d' /\ di_idle d' c;
  di_read_cmd d c r3 r4 r5 r6 : di_idle d c -> 0 <= r3 < 256 -> 0 <= r4 < 256 -> 0 <= r5 < 256 -> 0 <= r6 < 256 ->
    di_read (d_outb 0x1f7 IDE_CMD_READ (address r3 r4 r5 r6 d)) c (drive r6) (lba r3 r4 r5 r6);
  di_read_data d c v n : di_read d c v n -> exists k d1 d2, (k <= polls)%nat /\ settles k d d1 /\ d_insl 0x1f0 BLOCKWORDS d1 = (c v n, d2) /\ di_idle d2 c;
  di_write_cmd d c r3 r4 r5 r6 l : di_idle d c -> 0 <= r3 < 256 -> 0 <= r4 < 256 -> 0 <= r5 < 256 -> 0 <= r6 < 256 -> length l = (4 * BLOCKWORDS)%nat ->
    di_idle (d_outsl 0x1f0 l (d_outb 0x1f7 IDE_CMD_WRITE (address r3 r4 r5 r6 d))) (cput c (drive r6) (lba r3 r4 r5 r6) l)
}.

Lemma land_ff x : Z.land x 0xff = x mod 2 ^ 8.
Proof. change 0xff with (Z.ones 8). apply Z.land_ones. lia. Qed.

Lemma head_reg dev sector : 0 <= sector < 2 ^ 28 ->
  let r6 := Z.lor (Z.lor 0xe0 (Z.shiftl (Z.land dev 1) 4)) (Z.land (Z.shiftr sector 24) 0x0f) in
  0 <= r6 < 256 /\ Z.land r6 15 = sector / 2 ^ 24 /\ drive r6 = Z.land dev 1.
Proof.
  intros Hs r6. unfold r6. assert (Hd : Z.land dev 1 = 0 \/ Z.land dev 1 = 1). { assert (Z.land dev 1 = dev mod 2 ^ 1) as -> by exact (Z.land_ones dev 1 ltac:(lia)). pose proof (Z.mod_pos_bound dev (2 ^ 1) ltac:(lia)). lia. }
  rewrite Z.shiftr_div_pow2 by lia. change 0x0f with (Z.ones 4). rewrite Z.land_ones by lia.
  assert (Ht : 0 <= sector / 2 ^ 24 < 16) by (split; [apply Z.div_pos; lia|apply Z.div_lt_upper_bound; lia]). set (t := sector / 2 ^ 24) in *. rewrite Z.mod_small by lia. clearbody t.
  assert (Hc : t = 0 \/ t = 1 \/ t = 2 \/ t = 3 \/ t = 4 \/ t = 5 \/ t = 6 \/ t = 7 \/ t = 8 \/ t = 9 \/ t = 10 \/ t = 11 \/ t = 12 \/ t = 13 \/ t = 14 \/ t = 15) by lia.
  unfold drive. destruct Hd as [-> | ->]; repeat destruct Hc as [->|Hc]; try subst t; vm_compute; repeat split; congruence.
Qed.

Lemma lba_split sector r6 : 0 <= sector < 2 ^ 28 -> Z.land r6 15 = sector / 2 ^ 24 ->
  lba (Z.land sector 0xff) (Z.land (Z.shiftr sector 8) 0xff) (Z.land (Z.shiftr sector 16) 0xff) r6 = sector.
Proof.
  intros Hs E. unfold lba. rewrite E, !land_ff, !Z.shiftr_div_pow2 by lia. change (2 ^ 16) with (2 ^ 8 * 2 ^ 8). change (2 ^ 24) with (2 ^ 8 * 2 ^ 8 * 2 ^ 8). rewrite <-!Z.div_div by lia.
  pose proof (Z.div_mod sector (2 ^ 8) ltac:(lia)). pose proof (Z.div_mod (sector / 2 ^ 8) (2 ^ 8) ltac:(lia)). pose proof (Z.div_mod (sector / 2 ^ 8 / 2 ^ 8) (2 ^ 8) ltac:(lia)). lia.
Qed.

(** ** The driver on such a disk *)

Section Correct.
Context {D : Type} `{!IdePorts D} (polls nbuf : nat) `{!IdeDisk D polls}.

Definition with_ports (d : D) (s : idest D) : idest D := IdeSt (ibufs s) (idequeue s) (havedisk1 s) d.

Lemma wait_settles ce n m s d' : settles n (ports s) d' -> (n < m)%nat -> idewait_loop m ce s = Ret 0 (with_ports d' s).
Proof.
  intros Hs. remember (ports s) as d eqn:Ed. revert m s Ed. induction Hs as [d st d' E Hr He|n d st d1 d' E Hr Hs IH]; intros [|m] s -> Hm; [lia| |lia|];
    cbn [idewait_loop]; unfold mbind, M_bind, inb; rewrite E; change (Z.lor IDE_BSY IDE_DRDY) with 0xc0; change IDE_DRDY with 0x40.
  - rewrite Hr. cbn [Z.eqb negb]. change (Z.lor IDE_DF IDE_ERR) with 0x21. rewrite He. cbn. by rewrite andb_false_r.
  - rewrite (proj2 (Z.eqb_neq _ _)) by done. cbn [negb]. rewrite IH; [done|done|lia].
Qed.

(** What the disk is doing for the request of a buffer. *)
Definition working (d : D) (c : content) (b : ibuf) : Prop :=
  if ib_dirty b then di_idle d (cput c (Z.land (ib_dev b) 1) (ib_bno b) (ib_data b)) else di_read d c (Z.land (ib_dev b) 1) (ib_bno b).

Definition request (b : ibuf) : Prop := 0 <= ib_bno b < FSSIZE /\ length (ib_data b) = (4 * BLOCKWORDS)%nat /\ ib_valid b && negb (ib_dirty b) = false.

Lemma R_idestart b s c : di_idle (ports s) c -> request (ibufs s b) -> exists d', idestart polls b s = Ret tt (with_ports d' s) /\ working d' c (ibufs s b).
Proof.
  intros Hi (Hb & Hd & _). destruct (di_ready _ _ Hi) as (n & d1 & Hn & Hset & Hi1). unfold idestart, get, idewait. cbv beta. unfold mbind at 1, M_bind. cbv beta iota.
  rewrite (proj2 (Z.leb_gt FSSIZE _)) by lia. unfold mbind at 1, M_bind. rewrite (wait_settles false n (S polls) s d1 Hset ltac:(lia)). unfold working.
  destruct (head_reg (ib_dev (ibufs s b)) (ib_bno (ibufs s b)) ltac:(unfold FSSIZE in Hb; lia)) as (H6 & Hl & Hv).
  pose proof (lba_split (ib_bno (ibufs s b)) _ ltac:(unfold FSSIZE in Hb; lia) Hl) as Elba. set (r6 := Z.lor _ _) in *.
  assert (Hbyte : forall x, 0 <= Z.land x 0xff < 256) by (intros x; rewrite land_ff; apply Z.mod_pos_bound; lia).
  destruct (ib_dirty (ibufs s b)); eexists; (split; [unfold idestart_ports, outb, outsl, modify, mbind, M_bind; cbn; reflexivity|]).
  - pose proof (di_write_cmd _ _ _ _ _ r6 _ Hi1 (Hbyte (ib_bno (ibufs s b))) (Hbyte (Z.shiftr (ib_bno (ibufs s b)) 8)) (Hbyte (Z.shiftr (ib_bno (ibufs s b)) 16)) H6 Hd) as Hw. rewrite Elba, Hv in Hw. exact Hw.
  - pose proof (di_read_cmd _ _ _ _ _ r6 Hi1 (Hbyte (ib_bno (ibufs s b))) (Hbyte (Z.shiftr (ib_bno (ibufs s b)) 8)) (Hbyte (Z.shiftr (ib_bno (ibufs s b)) 16)) H6) as Hw. rewrite Elba, Hv in Hw. exact Hw.
Qed.

(** The queue [q]: linked through the buffers, its head with the disk. *)
Fixpoint chain (bs : nat -> ibuf) (q : list nat) : Prop :=
  match q with [] => True | b :: q' => ib_qnext (bs b) = hd_error q' /\ chain bs q' end.

Record queued (s : idest D) (q : list nat) (c : content) : Prop := {
  qd_head : idequeue s = hd_error q;
  qd_chain : chain (ibufs s) q;
  qd_nodup : NoDup q;
  qd_bufs b : b ∈ q -> (b < nbuf)%nat /\ request (ibufs s b);
  qd_disk : match q with [] => di_idle (ports s) c | b :: _ => working (ports s) c (ibufs s b) end
}.

(** Equal but for the link. *)
Definition eq_but_link (b b' : ibuf) : Prop := set_qnext None b = set_qnext None b'.

Lemma chain_ext bs bs' q : chain bs q -> (forall b, b ∈ q -> ib_qnext (bs' b) = ib_qnext (bs b)) -> chain bs' q.
Proof using Type.
  induction q as [|b q IH]; cbn; [done|]. intros [H1 H2] He. split; [rewrite He by set_solver; done|]. apply IH; [done|]. intros; apply He; set_solver.
Qed.

Lemma bufs_upd_eq bs b f : bufs_upd bs b f b = f (bs b).
Proof using Type. unfold bufs_upd. by rewrite decide_True. Qed.
Lemma bufs_upd_ne bs b f i : i <> b -> bufs_upd bs b f i = bs i.
Proof using Type. intros. unfold bufs_upd. by rewrite decide_False. Qed.

Lemma last_shift (q : list nat) i j : List.last (j :: q) i = List.last q j.
Proof using Type. revert i j. induction q as [|x q IH]; intros i j; [done|]. change (List.last (j :: x :: q) i) with (List.last (x :: q) i). by rewrite !IH. Qed.
Lemma last_in (q : list nat) i : List.last q i ∈ i :: q.
Proof using Type. revert i. induction q as [|x q IH]; intros i; [set_solver|]. rewrite last_shift. specialize (IH x). set_solver. Qed.

Lemma append_run n i q b (s : idest D) : (length q < n)%nat -> chain (ibufs s) (i :: q) ->
  append_after n i b s = Ret tt (IdeSt (bufs_upd (ibufs s) (List.last q i) (set_qnext (Some b))) (idequeue s) (havedisk1 s) (ports s)).
Proof using Type.
  revert n i. induction q as [|j q IH]; intros [|n] i Hn [Hi Hq]; [cbn in Hn; lia| |cbn in Hn; lia|]; cbn [append_after]; unfold mbind, M_bind, get; rewrite Hi; cbn [hd_error].
  - done.
  - rewrite IH; [|cbn in Hn; lia|done]. by rewrite last_shift.
Qed.

Lemma chain_append bs q i b : chain bs (i :: q) -> NoDup (i :: q) -> b ∉ i :: q -> ib_qnext (bs b) = None -> chain (bufs_upd bs (List.last q i) (set_qnext (Some b))) ((i :: q) ++ [b]).
Proof using Type.
  revert i. induction q as [|j q IH]; intros i [Hi Hq] Hnd Hb Hbn.
  - cbn. rewrite bufs_upd_eq, bufs_upd_ne by set_solver. done.
  - apply NoDup_cons in Hnd as [Hij Hnd]. rewrite last_shift.
    pose proof (last_in q j) as Hl.
    change ((i :: j :: q) ++ [b]) with (i :: ((j :: q) ++ [b])). split; [rewrite bufs_upd_ne; [done|]; intros ->; set_solver|]. apply IH; [done|done|set_solver|done].
Qed.

Lemma link_fields b b' : eq_but_link b b' -> ib_locked b = ib_locked b' /\ ib_valid b = ib_valid b' /\ ib_dirty b = ib_dirty b' /\ ib_dev b = ib_dev b' /\ ib_bno b = ib_bno b' /\ ib_data b = ib_data b'.
Proof using Type. unfold eq_but_link, set_qnext. intros [=]. auto 10. Qed.

Lemma link_request b b' : eq_but_link b b' -> request b -> request b'.
Proof using Type. intros (_ & E1 & E2 & _ & E3 & E4)%link_fields. unfold request. by rewrite E1, E2, E3, E4. Qed.
Lemma link_working d c b b' : eq_but_link b b' -> working d c b -> working d c b'.
Proof using Type. intros (_ & _ & E2 & E5 & E3 & E4)%link_fields. unfold working. by rewrite E2, E3, E4, E5. Qed.

Lemma link_upd bs b q i : eq_but_link (bs i) (bufs_upd bs b (set_qnext q) i).
Proof using Type. unfold bufs_upd. destruct (decide (i = b)) as [->|]; done. Qed.
Lemma link_trans b1 b2 b3 : eq_but_link b1 b2 -> eq_but_link b2 b3 -> eq_but_link b1 b3.
Proof using Type. unfold eq_but_link. congruence. Qed.

Lemma queue_short q b : NoDup q -> b ∉ q -> (forall x, x ∈ q -> (x < nbuf)%nat) -> (b < nbuf)%nat -> (length q < nbuf)%nat.
Proof using Type.
  intros Hnd Hb Hq Hbn. rewrite <-(length_seq nbuf 0). change (length q < _)%nat with (length (b :: q) <= length (seq 0 nbuf))%nat. apply NoDup_incl_length; [apply NoDup_ListNoDup; by constructor|].
  intros x Hx%list_elem_of_In. apply in_seq. apply elem_of_cons in Hx as [->|Hx]; [lia|]. specialize (Hq x Hx). lia.
Qed.

Lemma R_wait b (s : idest D) : iderw_wait b s = if ib_valid (ibufs s b) && negb (ib_dirty (ibufs s b)) then Ret tt s else Sleep (CBuf b) s.
Proof using Type. unfold iderw_wait, get, mbind, M_bind. by destruct (_ && _). Qed.

Lemma R_iderw b s q c : queued s q c -> b ∉ q -> (b < nbuf)%nat -> request (ibufs s b) -> ib_locked (ibufs s b) = true -> (ib_dev (ibufs s b) = 0 \/ havedisk1 s = true) ->
  exists s', iderw polls nbuf b s = Sleep (CBuf b) s' /\ queued s' (q ++ [b]) c /\ havedisk1 s' = havedisk1 s /\ (forall i, eq_but_link (ibufs s i) (ibufs s' i)).
Proof using Type.
  intros Hq Hb Hbn Hreq Hlk Hdisk. pose proof Hreq as (_ & _ & Hfl). unfold iderw, get. unfold mbind at 1, M_bind. cbv beta iota. rewrite Hlk, Hfl. cbn [negb].
  assert (negb (ib_dev (ibufs s b) =? 0) && negb (havedisk1 s) = false) as -> by (destruct Hdisk as [->| ->]; [done|by rewrite andb_false_r]).
  set (bs1 := bufs_upd (ibufs s) b (set_qnext None)). assert (Hbs1 : forall i, eq_but_link (ibufs s i) (bs1 i)) by (intros i; apply link_upd).
  assert (Hb1 : ib_qnext (bs1 b) = None) by (unfold bs1; by rewrite bufs_upd_eq).
  rewrite (qd_head _ _ _ Hq). destruct q as [|h q]; cbn [hd_error].
  - unfold mbind, M_bind, upd_buf, set_idequeue, modify. fold bs1. cbv beta iota. unfold gets. cbn [idequeue]. rewrite bool_decide_eq_true_2 by done. cbn [when].
    destruct (R_idestart b (IdeSt bs1 (Some b) (havedisk1 s) (ports s)) c (qd_disk _ _ _ Hq)) as (d' & E & Hw); [apply (link_request _ _ (Hbs1 b) Hreq)|]. cbn [ibufs idequeue havedisk1 ports]. rewrite E. rewrite R_wait. unfold with_ports. cbn [ibufs] in *.
    destruct (link_fields _ _ (Hbs1 b)) as (_ & <- & <- & _). rewrite Hfl. eexists. split; [done|]. split; [|done]. constructor; cbn; try done.
    + apply NoDup_singleton.
    + intros x ->%list_elem_of_singleton. split; [done|]. apply (link_request _ _ (Hbs1 b) Hreq).
  - unfold mbind at 1 2, M_bind, upd_buf, modify. fold bs1. cbv beta iota. pose proof (qd_nodup _ _ _ Hq) as Hnd. pose proof (qd_bufs _ _ _ Hq) as Hbf.
    assert (Hch : chain bs1 (h :: q)) by (apply (chain_ext (ibufs s)); [apply Hq|]; intros x Hx; unfold bs1; rewrite bufs_upd_ne; [done|]; by intros ->).
    pose proof (queue_short (h :: q) b Hnd Hb (fun x Hx => proj1 (Hbf x Hx)) Hbn) as Hlen. cbn [length] in Hlen.
    rewrite (append_run nbuf h q b (IdeSt bs1 (idequeue s) (havedisk1 s) (ports s))) by (done || lia). cbn [ibufs idequeue havedisk1 ports]. unfold gets, mbind, M_bind. cbn [idequeue]. rewrite (qd_head _ _ _ Hq). cbn [hd_error].
    rewrite bool_decide_eq_false_2 by (intros [= ->]; set_solver). cbn [when]. unfold mret, M_ret. rewrite R_wait. cbn [ibufs]. set (bs2 := bufs_upd bs1 _ _).
    assert (Hbs2 : forall i, eq_but_link (ibufs s i) (bs2 i)) by (intros i; eapply link_trans; [apply Hbs1|apply link_upd]).
    destruct (link_fields _ _ (Hbs2 b)) as (_ & <- & <- & _). rewrite Hfl. eexists. split; [done|]. split; [|done]. constructor; cbn [idequeue ibufs ports app hd_error]; try done.
    + by apply chain_append.
    + change (h :: q ++ [b]) with ((h :: q) ++ [b]). apply NoDup_app. split_and!; [done|intros x Hx ->%list_elem_of_singleton; done|apply NoDup_singleton].
    + intros x Hx. change (h :: q ++ [b]) with ((h :: q) ++ [b]) in Hx. apply elem_of_app in Hx as [Hx| ->%list_elem_of_singleton]; [|split; [done|apply (link_request _ _ (Hbs2 b) Hreq)]].
      destruct (Hbf x Hx) as [? Hrx]. split; [done|apply (link_request _ _ (Hbs2 x) Hrx)].
    + eapply link_working; [apply Hbs2|]. apply (qd_disk _ _ _ Hq).
Qed.

(** The contents once the request of a buffer is done, and the buffer then. *)
Definition finish_c (c : content) (b : ibuf) : content := if ib_dirty b then cput c (Z.land (ib_dev b) 1) (ib_bno b) (ib_data b) else c.
Definition finish_b (c : content) (b : ibuf) : ibuf := set_done (if ib_dirty b then b else set_ibdata (c (Z.land (ib_dev b) 1) (ib_bno b)) b).

Lemma R_ideintr s b q c : queued s (b :: q) c ->
  exists s', ideintr polls s = Ret (Some b) s' /\ queued s' q (finish_c c (ibufs s b)) /\ havedisk1 s' = havedisk1 s /\ ibufs s' b = finish_b c (ibufs s b) /\ (forall i, i <> b -> ibufs s' i = ibufs s i).
Proof using Type.
  intros Hq. destruct (qd_chain _ _ _ Hq) as [Hnx Hch]. pose proof (qd_nodup _ _ _ Hq) as [Hbq Hnd]%NoDup_cons. pose proof (qd_bufs _ _ _ Hq) as Hbf. pose proof (qd_disk _ _ _ Hq) as Hw. cbn in Hw.
  set (bf := ibufs s b) in *.
  assert (Hrd : exists s1, (set_idequeue (ib_qnext bf) ;; when (negb (ib_dirty bf)) (r ← idewait polls true; when (0 <=? r) (l ← insl 0x1f0 BLOCKWORDS; upd_buf b (set_ibdata l))) ;; upd_buf b set_done) s = Ret tt s1 /\
    idequeue s1 = ib_qnext bf /\ havedisk1 s1 = havedisk1 s /\ ibufs s1 b = finish_b c bf /\ (forall i, i <> b -> ibufs s1 i = ibufs s i) /\ di_idle (ports s1) (finish_c c bf)).
  { unfold working, finish_c, finish_b in *. destruct (ib_dirty bf) eqn:Ed; cbn [negb when].
    - eexists. split; [reflexivity|]. cbn. split_and!; try done; [by rewrite bufs_upd_eq|intros; by apply bufs_upd_ne].
    - destruct (di_read_data _ _ _ _ Hw) as (k & d1 & d2 & Hk & Hset & Ei & Hid). unfold mbind, M_bind, set_idequeue, modify, idewait. cbn [ibufs idequeue havedisk1 ports].
      rewrite (wait_settles true k (S polls) (IdeSt (ibufs s) (ib_qnext bf) (havedisk1 s) (ports s)) d1 Hset ltac:(lia)). cbn [Z.leb Z.compare when].
      unfold insl, with_ports. cbn [ports]. rewrite Ei. eexists. split; [reflexivity|]. cbn. split_and!; try done; [by rewrite !bufs_upd_eq|intros; by rewrite !bufs_upd_ne]. }
  destruct Hrd as (s1 & E1 & Eq1 & Eh1 & Eb1 & Eo1 & Hid). unfold ideintr.
  assert (Hstart : exists s', (match ib_qnext bf with Some n => idestart polls n | None => mret tt end) s1 = Ret tt s' /\ ibufs s' = ibufs s1 /\ idequeue s' = idequeue s1 /\ havedisk1 s' = havedisk1 s1 /\
    match q with [] => di_idle (ports s') (finish_c c bf) | n :: _ => working (ports s') (finish_c c bf) (ibufs s1 n) end).
  { rewrite Hnx. destruct q as [|n q]; cbn [hd_error]; [exists s1; done|]. destruct (R_idestart n s1 _ Hid) as (d' & E & Hw'); [rewrite Eo1 by set_solver; apply Hbf; set_solver|].
    eexists. split; [exact E|]. done. }
  destruct Hstart as (s' & E2 & Eb & Eq & Eh & Hdk). exists s'.
  assert (Hrun : ideintr polls s = Ret (Some b) s').
  { unfold ideintr. unfold gets. unfold mbind at 1, M_bind. rewrite (qd_head _ _ _ Hq). cbn [hd_error]. unfold get. unfold mbind at 1, M_bind. fold bf.
    revert E1 E2. unfold mbind, M_bind. destruct (set_idequeue _ s); [|done|done]. destruct (when _ _ _); [|done|done]. intros -> ->. done. }
  split; [exact Hrun|]. rewrite Eb, Eh. split; [|split_and!; [done|done|done]]. constructor.
  - by rewrite Eq, Eq1.
  - rewrite Eb. apply (chain_ext (ibufs s)); [done|]. intros x Hx. rewrite Eo1; [done|]. by intros ->.
  - done.
  - intros x Hx. rewrite Eb, Eo1 by (by intros ->). apply Hbf. set_solver.
  - rewrite Eb. destruct q; exact Hdk.
Qed.

Lemma R_ideintr_none s c : queued s [] c -> ideintr polls s = Ret None s.
Proof using Type. intros Hq. unfold ideintr, gets, mbind, M_bind. by rewrite (qd_head _ _ _ Hq). Qed.

(** ** Processes and interrupts *)

(** Where the process that holds a buffer stands: outside the driver, asleep in
    iderw, or woken and not yet back. *)
Inductive phase := Free | Asleep | Woken.
Record sys := Sys { y_st : idest D; y_ph : nat -> phase; y_issued : list nat; y_done : list nat }.

Definition set_ph (ph : nat -> phase) (b : nat) (p : phase) : nat -> phase := fun i => if decide (i = b) then p else ph i.

(** A request the driver accepts. *)
Definition callable (s : idest D) (b : nat) : Prop :=
  (b < nbuf)%nat /\ request (ibufs s b) /\ ib_locked (ibufs s b) = true /\ (ib_dev (ibufs s b) = 0 \/ havedisk1 s = true).

Inductive ide_step : sys -> sys -> Prop :=
| step_own st ph iss dn b bf : ph b = Free -> ide_step (Sys st ph iss dn) (Sys (IdeSt (bufs_upd (ibufs st) b (fun _ => bf)) (idequeue st) (havedisk1 st) (ports st)) ph iss dn)
| step_call st ph iss dn b st' : ph b = Free -> callable st b -> iderw polls nbuf b st = Sleep (CBuf b) st' -> ide_step (Sys st ph iss dn) (Sys st' (set_ph ph b Asleep) (iss ++ [b]) dn)
| step_intr st ph iss dn b st' : ideintr polls st = Ret (Some b) st' -> ide_step (Sys st ph iss dn) (Sys st' (set_ph ph b Woken) iss (dn ++ [b]))
| step_spurious st ph iss dn st' : ideintr polls st = Ret None st' -> ide_step (Sys st ph iss dn) (Sys st' ph iss dn)
| step_return st ph iss dn b st' : ph b = Woken -> iderw_wait b st = Ret tt st' -> ide_step (Sys st ph iss dn) (Sys st' (set_ph ph b Free) iss dn)
| step_again st ph iss dn b st' ch : ph b = Woken -> iderw_wait b st = Sleep ch st' -> ide_step (Sys st ph iss dn) (Sys st' (set_ph ph b Asleep) iss dn).

Definition ide_init (y : sys) (c : content) : Prop := queued (y_st y) [] c /\ (forall b, y_ph y b = Free) /\ y_issued y = [] /\ y_done y = [].

Record ide_inv (y : sys) (q : list nat) (c : content) : Prop := {
  iv_queue : queued (y_st y) q c;
  iv_fifo : y_issued y = y_done y ++ q;
  iv_asleep b : y_ph y b = Asleep <-> b ∈ q;
  iv_woken b : y_ph y b = Woken -> ib_valid (ibufs (y_st y) b) && negb (ib_dirty (ibufs (y_st y) b)) = true
}.

Lemma set_ph_eq ph b p : set_ph ph b p b = p.
Proof using Type. unfold set_ph. by rewrite decide_True. Qed.
Lemma set_ph_ne ph b p i : i <> b -> set_ph ph b p i = ph i.
Proof using Type. intros. unfold set_ph. by rewrite decide_False. Qed.

Lemma queued_own st q c b bf : queued st q c -> b ∉ q -> queued (IdeSt (bufs_upd (ibufs st) b (fun _ => bf)) (idequeue st) (havedisk1 st) (ports st)) q c.
Proof using Type.
  intros [H1 H2 H3 H4 H5] Hb. assert (Hne : forall x, x ∈ q -> bufs_upd (ibufs st) b (fun _ => bf) x = ibufs st x) by (intros x Hx; apply bufs_upd_ne; by intros ->).
  constructor; cbn; try done.
  - apply (chain_ext (ibufs st)); [done|]. intros x Hx. by rewrite Hne.
  - intros x Hx. rewrite Hne by done. by apply H4.
  - destruct q as [|x q]; [done|]. rewrite Hne by set_solver. done.
Qed.

Lemma ide_inv_step y y' q c : ide_inv y q c -> ide_step y y' -> exists q' c', ide_inv y' q' c'.
Proof using Type.
  intros [Hq Hf Ha Hw] Hstep. destruct Hstep as [st ph iss dn b bf Hb|st ph iss dn b st' Hb (Hn & Hr & Hl & Hd) E|st ph iss dn b st' E|st ph iss dn st' E|st ph iss dn b st' Hb E|st ph iss dn b st' ch Hb E]; cbn in *.
  - assert (Hbq : b ∉ q) by (rewrite <-Ha; congruence). exists q, c. constructor; cbn; [by apply queued_own|done|done|].
    intros x Hx. rewrite bufs_upd_ne; [by apply Hw|]. intros ->. congruence.
  - assert (Hbq : b ∉ q) by (rewrite <-Ha; congruence). destruct (R_iderw b st q c Hq Hbq Hn Hr Hl Hd) as (s' & E' & Hq' & _ & Hlk). rewrite E in E'. injection E' as ->.
    exists (q ++ [b]), c. constructor; cbn; [done|by rewrite Hf, app_assoc| |].
    + intros x. destruct (decide (x = b)) as [->|Hx]; [rewrite set_ph_eq; set_solver|]. rewrite set_ph_ne, Ha by done. set_solver.
    + intros x. destruct (decide (x = b)) as [->|Hx]; [by rewrite set_ph_eq|]. rewrite set_ph_ne by done. intros Hwx. destruct (link_fields _ _ (Hlk x)) as (_ & <- & <- & _). by apply Hw.
  - destruct q as [|b0 q]; [by rewrite (R_ideintr_none st c Hq) in E|]. destruct (R_ideintr st b0 q c Hq) as (s' & E' & Hq' & _ & Eb & Eo). rewrite E in E'. injection E' as -> ->.
    pose proof (qd_nodup _ _ _ Hq) as [Hbq _]%NoDup_cons. exists q, (finish_c c (ibufs st b0)). constructor; cbn; [done|by rewrite Hf, <-app_assoc| |].
    + intros x. destruct (decide (x = b0)) as [->|Hx]; [rewrite set_ph_eq; split; [done|]; done|]. rewrite set_ph_ne, Ha by done. set_solver.
    + intros x. destruct (decide (x = b0)) as [->|Hx]; [intros _; by rewrite Eb|]. rewrite set_ph_ne by done. rewrite Eo by done. apply Hw.
  - destruct q as [|b0 q]; [|destruct (R_ideintr st b0 q c Hq) as (s' & E' & _); congruence]. rewrite (R_ideintr_none st c Hq) in E. injection E as <-. by exists [], c.
  - rewrite R_wait in E. destruct (_ && _); [|done]. injection E as <-. exists q, c. constructor; cbn; [done|done| |].
    + intros x. destruct (decide (x = b)) as [->|Hx]; [rewrite set_ph_eq; split; [done|]; rewrite <-Ha; congruence|]. by rewrite set_ph_ne.
    + intros x. destruct (decide (x = b)) as [->|Hx]; [by rewrite set_ph_eq|]. rewrite set_ph_ne by done. apply Hw.
  - rewrite R_wait, (Hw b Hb) in E. done.
Qed.

Lemma ide_reachable y y' c : ide_init y c -> rtc ide_step y y' -> exists q c', ide_inv y' q c'.
Proof using Type.
  intros (Hq & Hp & Hi & Hd) Hr. assert (Hinv : exists q c', ide_inv y q c').
  { exists [], c. constructor; [done|by rewrite Hi, Hd|intros b; rewrite Hp; split; [done|by intros ?%elem_of_nil]|intros b; rewrite Hp; done]. }
  clear Hq Hp Hi Hd. induction Hr as [|y1 y2 y3 Hs _ IH]; [done|]. apply IH. destruct Hinv as (q & c' & Hinv). by eapply ide_inv_step.
Qed.

End Correct.

(** C28: in every reachable state of the driver, with any processes calling iderw
    on buffers they hold and interrupts at any time, the requests not yet
    done form a queue in the order they were issued, the disk works on the
    first, and a process sleeps exactly while its request is in the queue, so
    that no wakeup is lost; a woken process finds its buffer valid and clean.
    An accepted request always goes to sleep, and the interrupt for the first
    request, which never panics, leaves the buffer with the sector's contents,
    or the sector with the buffer's, and starts the next. *)
Theorem ide_queue {D} `{!IdePorts D} polls nbuf `{!IdeDisk D polls} y y' c (Hinit : ide_init polls nbuf y c) (Hr : rtc (ide_step polls nbuf) y y') :
  exists q c', queued polls nbuf (y_st y') q c' /\ y_issued y' = y_done y' ++ q /\ (forall b, y_ph y' b = Asleep <-> b ∈ q) /\
    (forall b, y_ph y' b = Woken -> iderw_wait b (y_st y') = Ret tt (y_st y')) /\
    (forall b, y_ph y' b = Free -> callable nbuf (y_st y') b -> exists s, iderw polls nbuf b (y_st y') = Sleep (CBuf b) s) /\
    match q with
    | [] => ideintr polls (y_st y') = Ret None (y_st y')
    | b :: q' => exists s, ideintr polls (y_st y') = Ret (Some b) s /\ queued polls nbuf s q' (finish_c c' (ibufs (y_st y') b)) /\ ibufs s b = finish_b c' (ibufs (y_st y') b)
    end.
Proof.
  destruct (ide_reachable polls nbuf y y' c Hinit Hr) as (q & c' & [Hq Hf Ha Hw]). exists q, c'. split_and!; try done.
  - intros b Hb. by rewrite R_wait, (Hw b Hb).
  - intros b Hb (Hn & Hreq & Hl & Hd). destruct (R_iderw polls nbuf b (y_st y') q c' Hq) as (s & E & _); try done; [rewrite <-Ha; congruence|]. by exists s.
  - destruct q as [|b q]; [by eapply R_ideintr_none|]. destruct (R_ideintr polls nbuf _ _ _ _ Hq) as (s & E & Hq' & _ & Eb & _). by exists s.
Qed.

(** A disk that is always ready. *)
Record ata := Ata { a_lba : Z * Z * Z * Z; a_disk : content }.
#[export] Instance ata_ports : IdePorts ata := {
  d_inb p d := (0x40, d);
  d_outb p v d :=
    let '(r3, r4, r5, r6) := a_lba d in
    if p =? 0x1f3 then Ata (v, r4, r5, r6) (a_disk d) else if p =? 0x1f4 then Ata (r3, v, r5, r6) (a_disk d)
    else if p =? 0x1f5 then Ata (r3, r4, v, r6) (a_disk d) else if p =? 0x1f6 then Ata (r3, r4, r5, v) (a_disk d) else d;
  d_insl p n d := let '(r3, r4, r5, r6) := a_lba d in (a_disk d (drive r6) (lba r3 r4 r5 r6), d);
  d_outsl p l d := let '(r3, r4, r5, r6) := a_lba d in Ata (a_lba d) (cput (a_disk d) (drive r6) (lba r3 r4 r5 r6) l)
}.

Lemma ata_ready (d : ata) : settles 0 d d.
Proof. by apply settle_now with 0x40. Qed.

#[export] Instance ata_disk : IdeDisk ata 0.
Proof.
  refine {| di_idle := fun d c => a_disk d = c;
            di_read := fun d c v n => a_disk d = c /\ let '(r3, r4, r5, r6) := a_lba d in drive r6 = v /\ lba r3 r4 r5 r6 = n |}.
  - intros d c Hd. exists 0%nat, d. split_and!; [lia|apply ata_ready|done].
  - intros [[[[? ?] ?] ?] c'] c r3 r4 r5 r6 <- _ _ _ _. done.
  - intros d c v n [<- Hr]. exists 0%nat, d, d. destruct d as [[[[r3 r4] r5] r6] dk]. cbn in *. destruct Hr as [<- <-]. split_and!; [lia|apply ata_ready|done|done].
  - intros [[[[? ?] ?] ?] c'] c r3 r4 r5 r6 l <- _ _ _ _ _. done.
Defined.

(** Block 7 of disk 0, read into a buffer, with a disk full of ones. *)
Definition demo_buf : ibuf := IBuf true false false 0 7 (replicate 512 0) None.
Definition demo_ide : idest ata := IdeSt (fun _ => demo_buf) None false (Ata (0, 0, 0, 0) (fun _ _ => replicate 512 1)).

Lemma ide_queue_witness : exists s, ideintr 0 (match iderw 0 3 2 demo_ide with Sleep _ s => s | _ => demo_ide end) = Ret (Some 2%nat) s /\ ib_data (ibufs s 2) = replicate 512 1.
Proof.
  set (y := Sys demo_ide (fun _ => Free) [] []). set (s1 := match iderw 0 3 2 demo_ide with Sleep _ s => s | _ => demo_ide end).
  set (y' := Sys s1 (set_ph (fun _ => Free) 2 Asleep) [2%nat] []).
  assert (Hi : ide_init 0 3 y (fun _ _ => replicate 512 1)).
  { split; [|done]. constructor; cbn; try done; [apply NoDup_nil_2|by intros b ?%elem_of_nil]. }
  assert (Hs : rtc (ide_step 0 3) y y').
  { apply rtc_once. apply step_call; [done| |reflexivity]. split; [lia|]. split; [|split; [done|by left]]. unfold request. cbn. unfold FSSIZE, BLOCKWORDS. split; [lia|done]. }
  destruct (ide_queue 0 3 y y' _ Hi Hs) as (q & c' & Hq & Hf & Ha & _ & _ & Hm). cbn in Hf. subst q. cbn in Hm. destruct Hm as (s & E & _ & _). exists s. split; [exact E|].
  assert (X : match ideintr 0 s1 with Ret _ s' => ib_data (ibufs s' 2) | _ => [] end = replicate 512 1) by (vm_compute; reflexivity). unfold s1 in X, E. rewrite E in X. exact X.
Defined.
