(* ===== verification/Mkfs.v ===== *)
(** * Building the file system image (mkfs.c)

    The image is the state: its sectors, its length in sectors, the next inode
    and the next block.  An inode is handled as mkfs does, as the 64 bytes of a
    struct dinode; xshort and xint put the bytes in the order the kernel reads,
    so that a field is stored by its offset as in [FsDefs.v].  A file of the host
    is the list of what the calls of read return for it. *)

From S2P Require Import Prelude CString Block BlockLayer Log FsDefs.

Definition FSSIZE : Z := 3000.
Definition NINODES : Z := 200.
Definition nbitmap : Z := FSSIZE / (BSZ * 8) + 1.
Definition ninodeblocks : Z := NINODES / IPB + 1.
Definition nlog : Z := LOGSIZE.
Definition nmeta : Z := 2 + nlog + ninodeblocks + nbitmap.
Definition nblocks : Z := FSSIZE - nmeta.

(** The superblock and its bytes. *)
Definition mksb : superblock := mkSb FSSIZE nblocks NINODES nlog 2 (2 + nlog) (2 + nlog + ninodeblocks).
Definition sb_bytes (B : superblock) : list Z :=
  le_words [sb_size B; sb_nblocks B; sb_ninodes B; sb_nlog B; sb_logstart B; sb_inodestart B; sb_bmapstart B].

Record mst := Mst { img : Z -> block; ilen : Z; freeinode : Z; freeblock : Z }.
Definition mst0 : mst := Mst (fun _ => zero_block) 0 1 0.

(** ** Sectors; a sector is at the 32-bit offset sec * BSIZE of the file *)

Definition sect (sec : Z) : Z := u32 (sec * BSZ) / BSZ.
Definition wsect (sec : Z) (buf : block) : M mst unit :=
  modify (λ s, Mst (upd (img s) (sect sec) buf) (Z.max (ilen s) (sect sec + 1)) (freeinode s) (freeblock s)).
Definition rsect (sec : Z) : M mst block :=
  s ← get; if sect sec <? ilen s then mret (img s (sect sec)) else panic "read".

(** for(i = 0; i < FSSIZE; i++) wsect(i, zeroes); *)
Fixpoint zero_sects (n : nat) (i : Z) : M mst unit :=
  match n with O => mret tt | S n' => wsect i zero_block ;; zero_sects n' (i + 1) end.

(** ** Inodes *)

Definition winode (inum : Z) (din : list Z) : M mst unit :=
  buf ← rsect (IBLOCK inum mksb);
  wsect (IBLOCK inum mksb) (splice (dip_off inum) din buf).
Definition rinode (inum : Z) : M mst (list Z) :=
  buf ← rsect (IBLOCK inum mksb); mret (slice (dip_off inum) 64 buf).

Definition mk_mode : Z := Z.lor (Z.lor (Z.lor (Z.lor MODE_RUSR MODE_WUSR) MODE_XUSR) MODE_ROTH) MODE_XOTH.
Definition new_dinode (type : Z) : list Z :=
  let d := put16 (replicate 64 0) 0 type in
  let d := put16 d 6 1 in
  let d := put32 d 8 0 in
  let d := splice 44 (strncpy (slice 44 16 d) root_name 16) d in
  put32 d 60 mk_mode.

Definition ialloc (type : Z) : M mst Z :=
  inum ← gets freeinode;
  modify (λ s, Mst (img s) (ilen s) (u32 (freeinode s + 1)) (freeblock s)) ;;
  winode inum (new_dinode type) ;;
  mret inum.

(** ** Blocks *)

(** freeblock++ *)
Definition next_block : M mst Z :=
  b ← gets freeblock;
  modify (λ s, Mst (img s) (ilen s) (freeinode s) (u32 (freeblock s + 1))) ;;
  mret b.

(** for(i = 0; i < used; i++) buf[i/8] = buf[i/8] | (0x1 << (i%8)); *)
Definition bitmap (used : Z) : block := foldl bit_mark zero_block (seqZ 0 used).
Definition balloc (used : Z) : M mst unit :=
  if used <? BSZ * 8 then wsect (sb_bmapstart mksb) (bitmap used) else panic "assert".

(** The address of block [fbn] of the file and its inode, allocating on the
    way. *)
Definition fblock (fbn : nat) (din : list Z) : M mst (Z * list Z) :=
  if (fbn <? NDIRECT)%nat then
    if get32 din (12 + 4 * fbn) =? 0 then
      b ← next_block; mret (b, put32 din (12 + 4 * fbn) b)
    else mret (get32 din (12 + 4 * fbn), din)
  else
    din ← (if get32 din (12 + 4 * NDIRECT) =? 0 then
             b ← next_block; mret (put32 din (12 + 4 * NDIRECT) b)
           else mret din);
    indirect ← rsect (get32 din (12 + 4 * NDIRECT));
    let o := (4 * (fbn - NDIRECT))%nat in
    if get32 indirect o =? 0 then
      b ← next_block;
      wsect (get32 din (12 + 4 * NDIRECT)) (put32 indirect o b) ;;
      mret (b, din)
    else mret (get32 indirect o, din).

(** The loop of iappend: the offset reached and the inode; every turn takes a
    byte at least. *)
Fixpoint iappend_loop (n : nat) (p : list Z) (off : Z) (din : list Z) : M mst (Z * list Z) :=
  match p, n with
  | [], _ => mret (off, din)
  | _, O => panic "fuel"
  | _, S n' =>
      let fbn := off / BSZ in
      if MAXFILE <=? fbn then panic "assert"
      else
        r ← fblock (Z.to_nat fbn) din;
        let n1 := Z.to_nat (Z.min (Z.of_nat (length p)) ((fbn + 1) * BSZ - off)) in
        buf ← rsect r.1;
        wsect r.1 (splice (Z.to_nat (off - fbn * BSZ)) (take n1 p) buf) ;;
        iappend_loop n' (drop n1 p) (u32 (off + Z.of_nat n1)) r.2
  end.

Definition iappend (inum : Z) (p : list Z) : M mst unit :=
  din ← rinode inum;
  r ← iappend_loop (length p) p (get32 din 8) din;
  winode inum (put32 r.2 8 r.1).

(** ** main *)

(** A struct dirent cleared and filled, by strcpy or by strncpy. *)
Definition dot_entry (inum : Z) (name : list Z) : list Z := le_bytes 2 inum ++ strcpy (replicate DIRSIZ 0) (name ++ [0]).

(** A file named on the command line: its name and what reading it returns;
    [None] when it cannot be opened. *)
Definition hostfile : Type := list Z * option (list (list Z)).

(** if(argv[i][0] == '_') ++argv[i]; *)
Definition strip (name : list Z) : list Z := match name with 95 :: name' => name' | _ => name end.

(** while((cc = read(fd, buf, sizeof(buf))) > 0) iappend(inum, buf, cc); *)
Fixpoint append_reads (inum : Z) (reads : list (list Z)) : M mst unit :=
  match reads with
  | [] | [] :: _ => mret tt
  | buf :: reads' => iappend inum buf ;; append_reads inum reads'
  end.

Fixpoint add_files (rootino : Z) (files : list hostfile) : M mst unit :=
  match files with
  | [] => mret tt
  | (name, reads) :: files' =>
      if bool_decide (47 ∈ name) then panic "assert"
      else
        match reads with
        | None => panic "open"
        | Some reads =>
            inum ← ialloc T_FILE;
            iappend rootino (mk_dirent inum (strip name)) ;;
            append_reads inum reads ;;
            add_files rootino files'
        end
  end.

(** fix size of root inode dir *)
Definition fix_root (rootino : Z) : M mst unit :=
  din ← rinode rootino;
  winode rootino (put32 din 8 (u32 ((get32 din 8 / BSZ + 1) * BSZ))).

Definition mkfs (files : list hostfile) : M mst unit :=
  modify (λ s, Mst (img s) (ilen s) (freeinode s) nmeta) ;;
  zero_sects (Z.to_nat FSSIZE) 0 ;;
  wsect 1 (splice 0 (sb_bytes mksb) zero_block) ;;
  rootino ← ialloc T_DIR;
  if negb (rootino =? ROOTINO) then panic "assert"
  else
    iappend rootino (dot_entry rootino [46]) ;;
    iappend rootino (dot_entry rootino [46; 46]) ;;
    add_files rootino files ;;
    fix_root rootino ;;
    used ← gets freeblock;
    balloc used.
