(* ===== verification/MkfsProps.v ===== *)
(** * The image mkfs builds is a file system the kernel can read

    While mkfs runs, the free map exists only as the counter freeblock; the
    contents [c] of the image with that map written in is a disk of [FsFile.v],
    on which each freeblock++ is an allocation of the first free block.  The
    lemmas on bmap's allocations and on the stores of writei then carry over. *)

From S2P Require Import Prelude CString Sleeplock Block BlockLayer Bio Log LogProps FsDefs InodeProps FsRules FsAlloc FsFile FsRW Mkfs.

#[local] Abbreviation B := mksb.
#[local] Abbreviation ds := nmeta.
#[local] Instance image_disk : BlockLayer bcache := bio_layer FSSIZE 1.

Lemma image_layout : fs_layout FSSIZE B ds.
Proof.
  constructor; [split_and!; vm_compute; congruence|split_and!; vm_compute; congruence|cbn..].
  - intros b Hb. change (b < FSSIZE) with (b < 3000) in Hb. assert (b / BPB = 0) as -> by (apply Z.div_small; unfold BPB; lia).
    change ds with 59. change (2 + nlog + ninodeblocks) with 58. unfold home_b. cbn. change nlog with 30. lia.
  - intros i Hi. unfold NINODES in Hi. assert (0 <= i / IPB < 25).
    { unfold IPB. split; [apply Z.div_pos; lia|apply Z.div_lt_upper_bound; lia]. }
    change (2 + nlog + ninodeblocks) with 58. unfold home_b. cbn. change nlog with 30. lia.
Qed.
#[local] Abbreviation Hly := (image_layout : fs_layout (@bl_size bcache image_disk) B ds).

Lemma sect_id x : 0 <= x < FSSIZE -> sect x = x.
Proof. intros Hx. unfold FSSIZE in Hx. unfold sect. rewrite u32_id by (unfold is_u32, BSZ; lia). apply Z.div_mul. done. Qed.

(** ** The free map *)

Lemma bitmap_S n : 0 <= n -> bitmap (n + 1) = bit_mark (bitmap n) n.
Proof.
  intros Hn. unfold bitmap. rewrite <-(Z2Nat.id n) at 1 by done. replace (Z.of_nat (Z.to_nat n) + 1) with (Z.of_nat (S (Z.to_nat n))) by lia.
  rewrite seqZ_S, foldl_app, Z2Nat.id by done. done.
Qed.

Lemma length_bitmap n : length (bitmap n) = BSIZE.
Proof.
  unfold bitmap. assert (length zero_block = BSIZE) as H by done. revert H. generalize zero_block.
  induction (seqZ 0 n) as [|x l IH]; intros d Hd; [done|]. cbn. apply IH. by rewrite length_bit_mark.
Qed.

Lemma bitmap_clear n x : (Z.of_nat n <= BPB) -> 0 <= x < BPB -> bit_clear (bitmap (Z.of_nat n)) x = (Z.of_nat n <=? x).
Proof.
  intros Hn Hx. induction n as [|n IH].
  - rewrite (proj2 (Z.leb_le _ _)) by lia. change (bitmap (Z.of_nat 0)) with (replicate BSIZE 0).
    unfold bit_clear, bit_byte. rewrite lookup_replicate_2; [done|]. unfold BPB in Hx. apply Nat2Z.inj_lt.
    rewrite Z2Nat.id by (apply Z.div_pos; lia). apply Z.div_lt_upper_bound; [lia|]. unfold BSIZE. lia.
  - rewrite Nat2Z.inj_succ. unfold Z.succ. rewrite bitmap_S by lia. rewrite bit_mark_spec by (try apply length_bitmap; lia).
    rewrite IH by lia. case_decide; [symmetry; apply Z.leb_gt; lia|].
    destruct (Z.leb_spec (Z.of_nat n) x), (Z.leb_spec (Z.of_nat n + 1) x); lia || done.
Qed.

(** The image with the free map in place reads as [c]. *)
Record lays (s : mst) (c : Z -> block) : Prop := {
  la_ilen : ilen s = FSSIZE;
  la_fb : ds <= freeblock s <= FSSIZE;
  la_c x : c x = if decide (x = 58) then bitmap (freeblock s) else img s x;
  la_blk x : length (img s x) = BSIZE;
  la_zero x : freeblock s <= x -> img s x = zero_block
}.

Section lays.
Context (s : mst) (c : Z -> block).
Hypothesis Hs : lays s c.

Lemma lays_len x : length (c x) = BSIZE.
Proof using Hs. rewrite (la_c _ _ Hs). case_decide; [apply length_bitmap|apply (la_blk _ _ Hs)]. Qed.

Lemma bblock58 x : 0 <= x < FSSIZE -> BBLOCK x B = 58.
Proof. intros Hx. unfold BBLOCK. unfold FSSIZE in Hx. rewrite Z.div_small by (unfold BPB; lia). done. Qed.

Lemma lays_free x : 0 <= x < FSSIZE -> is_free c B x = (freeblock s <=? x).
Proof using Hs.
  intros Hx. unfold is_free. rewrite bblock58 by done. rewrite (la_c _ _ Hs), decide_True by done.
  pose proof (la_fb _ _ Hs) as Hfb. change ds with 59 in Hfb. unfold FSSIZE in *. rewrite Z.mod_small by (unfold BPB; lia).
  rewrite <-(Z2Nat.id (freeblock s)) by lia. apply bitmap_clear; unfold BPB; lia.
Qed.

Lemma lays_meta : meta_used B ds c.
Proof using Hs.
  intros b Hb. pose proof (la_fb _ _ Hs) as Hfb. change ds with 59 in *. rewrite lays_free by (unfold FSSIZE; lia). apply Z.leb_gt. lia.
Qed.

Lemma lays_used x : used_data B ds c x <-> ds <= x < freeblock s.
Proof using Hs.
  pose proof (la_fb _ _ Hs) as Hfb. change ds with 59 in *. unfold used_data. change (sb_size B) with FSSIZE. split.
  - intros [Hx Hf]. rewrite lays_free in Hf by lia. apply Z.leb_gt in Hf. lia.
  - intros Hx. split; [lia|]. rewrite lays_free by lia. apply Z.leb_gt. lia.
Qed.

Lemma lays_first : freeblock s < FSSIZE -> first_free B ds c (freeblock s).
Proof using Hs.
  intros Hlt. pose proof (la_fb _ _ Hs) as Hfb. change ds with 59 in *. split; [cbn; lia|]. split.
  - rewrite lays_free by lia. apply Z.leb_le. lia.
  - intros x Hx. rewrite lays_free by lia. apply Z.leb_gt. lia.
Qed.

Lemma R_rsect x Q : 0 <= x < FSSIZE -> x <> 58 -> Q (c x) s -> wp (rsect x) Q s.
Proof using Hs.
  intros Hx H58 HQ. unfold rsect. apply wp_bind, wp_get. rewrite sect_id, (la_ilen _ _ Hs) by done.
  rewrite (proj2 (Z.ltb_lt _ _)) by lia. apply wp_ret. by rewrite (la_c _ _ Hs), decide_False in HQ.
Qed.

Lemma R_wsect x b Q : 0 <= x < freeblock s -> x <> 58 -> length b = BSIZE ->
  (forall s', lays s' (upd c x b) -> freeblock s' = freeblock s -> freeinode s' = freeinode s -> Q tt s') -> wp (wsect x b) Q s.
Proof using Hs.
  intros Hx H58 Hb HQ. pose proof (la_fb _ _ Hs) as Hfb. unfold wsect. apply wp_modify. rewrite sect_id by lia. apply HQ; [|done..].
  pose proof Hs as [L1 L2 L3 L4 L5]. constructor; cbn; [lia|done|..].
  - intros y. unfold upd. rewrite L3. repeat case_decide; congruence.
  - intros y. unfold upd. by case_decide.
  - intros y Hy. rewrite upd_ne by lia. by apply L5.
Qed.

Lemma R_next Q : freeblock s < FSSIZE ->
  (forall s', lays s' (c_alloc B c (freeblock s)) -> freeblock s' = freeblock s + 1 -> freeinode s' = freeinode s -> Q (freeblock s) s') ->
  wp next_block Q s.
Proof using Hs.
  intros Hlt HQ. pose proof Hs as [L1 L2 L3 L4 L5]. change ds with 59 in L2. unfold FSSIZE in Hlt. unfold next_block. wp_step. wp_step. wp_step. wp_step. wp_step.
  rewrite u32_id by (unfold is_u32; lia). apply HQ; [|done..]. constructor; cbn; [done|change ds with 59; unfold FSSIZE; lia|..|done|].
  - intros y. unfold c_alloc, c_mark, upd. rewrite bblock58 by (unfold FSSIZE; lia). rewrite !L3, (decide_True (P := 58 = 58)) by done. rewrite bitmap_S by lia.
    rewrite Z.mod_small by (unfold BPB; lia). repeat case_decide; subst; try done; try lia. symmetry. apply L5. lia.
  - intros y Hy. apply L5. lia.
Qed.
Lemma fb_u32 : is_u32 (freeblock s).
Proof using Hs. pose proof (la_fb _ _ Hs) as H. change ds with 59 in H. unfold FSSIZE in H. unfold is_u32. lia. Qed.
End lays.

(** ** The inode in 64 bytes *)

Definition ino (n : Z) (d : list Z) : inode := dip_load 0 d (mkInode 1 n 0 initsleeplock true 0 0 0 0 0 [] (replicate 16 0) 0).

Lemma ino_addr n d k : (k < 8)%nat -> get32 d (12 + 4 * k) = addr_at (ino n d) k.
Proof. intros Hk. unfold addr_at, ino. cbn [i_addrs dip_load]. unfold get_words. rewrite list_lookup_fmap, lookup_seq_lt by done. done. Qed.

Lemma length_ino n d : length (i_addrs (ino n d)) = 8%nat.
Proof. unfold ino. cbn [i_addrs dip_load]. unfold get_words. by rewrite length_fmap, length_seq. Qed.

Lemma ino_put_addr n d k v : length d = 64%nat -> (k < 8)%nat -> is_u32 v -> ino n (put32 d (12 + 4 * k) v) = set_addr k v (ino n d).
Proof.
  intros Hd Hk Hv. unfold ino, dip_load, set_addr, set_i_addrs. cbn [i_dev i_inum i_ref i_lock i_valid i_type i_major i_minor i_nlink i_size i_addrs i_user i_mode].
  unfold put32, get16 in *. rewrite !(slice_splice_other _ _ _ (le_bytes 4 v)) by (rewrite length_le_bytes, ?Hd; lia).
  fold (put32 d (12 + 4 * k) v). rewrite !get32_put32_other by (rewrite ?Hd; lia). f_equal.
  apply list_eq. intros j. unfold get_words. destruct (decide (j < 8)%nat) as [Hj|Hj].
  - rewrite list_lookup_fmap, lookup_seq_lt by done. cbn [fmap option_fmap option_map]. destruct (decide (j = k)) as [->|Hne].
    + rewrite get32_put32 by (try done; lia). rewrite list_lookup_insert_eq; [done|]. by rewrite length_fmap, length_seq.
    + rewrite get32_put32_other by lia. rewrite list_lookup_insert_ne by done. by rewrite list_lookup_fmap, lookup_seq_lt by done.
  - rewrite !lookup_ge_None_2; [done|..]; rewrite ?length_insert, length_fmap, length_seq; lia.
Qed.

Lemma ino_put_size n d v : length d = 64%nat -> is_u32 v -> ino n (put32 d 8 v) = set_i_size v (ino n d).
Proof.
  intros Hd Hv. unfold ino, dip_load, set_i_size. cbn [i_dev i_inum i_ref i_lock i_valid i_type i_major i_minor i_nlink i_size i_addrs i_user i_mode].
  unfold put32, get16 in *. rewrite !(slice_splice_other _ _ _ (le_bytes 4 v)) by (rewrite length_le_bytes, ?Hd; lia).
  fold (put32 d 8 v). rewrite get32_put32 by (try done; lia). rewrite get32_put32_other by lia. f_equal.
  unfold get_words. apply list_fmap_ext. intros j x [-> Hj]%lookup_seq. by rewrite get32_put32_other by lia.
Qed.

(** ** The blocks of a file *)

(** A file of [m] blocks has them at the front; [blocks m] blocks are used for
    it, and [nb n] blocks hold [n] bytes. *)
Definition ext (c : Z -> block) (i : inode) (m : nat) : Prop :=
  (forall bn, (bn < MAXBN)%nat -> faddr c i bn <> 0 <-> (bn < m)%nat) /\ (addr_at i 7 <> 0 <-> (7 < m)%nat).
Definition blocks (m : nat) : Z := Z.of_nat m + (if (7 <? m)%nat then 1 else 0).
Definition nb (n : nat) : nat := ((n + 511) / 512)%nat.

Lemma nb_spec n : (n <= 512 * nb n < n + 512)%nat.
Proof. unfold nb. pose proof (Nat.div_mod (n + 511) 512 ltac:(lia)). pose proof (Nat.mod_upper_bound (n + 511) 512 ltac:(lia)). lia. Qed.
Lemma nb_unique n m : (n <= 512 * m < n + 512)%nat -> nb n = m.
Proof. pose proof (nb_spec n). lia. Qed.
Lemma blocks_le m m' : (m <= m')%nat -> blocks m <= blocks m'.
Proof. intros. unfold blocks. destruct (Nat.ltb_spec 7 m), (Nat.ltb_spec 7 m'); lia. Qed.
Lemma nb_le n n' : (n <= n')%nat -> (nb n <= nb n')%nat.
Proof. pose proof (nb_spec n). pose proof (nb_spec n'). lia. Qed.

Lemma ext_same c i m bn : ext c i m -> (bn < m)%nat -> ext c i (Nat.max m (S bn)) /\ blocks (Nat.max m (S bn)) = blocks m.
Proof. intros. by rewrite Nat.max_l by lia. Qed.

(** What [fblock] promises: the address of the block, and one block more when
    there was none. *)
Definition gets_block (n : Z) (s : mst) (c : Z -> block) (d : list Z) (m bn : nat) (r : Z * list Z) (s' : mst) : Prop :=
  exists c', lays s' c' /\ grows B ds c (ino n d) c' (ino n r.2) /\ faddr c' (ino n r.2) bn = r.1 /\ r.1 <> 0 /\ length r.2 = 64%nat /\
    ext c' (ino n r.2) (Nat.max m (S bn)) /\ freeblock s' + blocks m = freeblock s + blocks (Nat.max m (S bn)) /\ freeinode s' = freeinode s.

Section fblock.
Context (n : Z) (s : mst) (c : Z -> block) (d : list Z) (m bn : nat).
Hypothesis Hs : lays s c.
Hypothesis Hok : file_ok B ds c (ino n d).
Hypothesis Hext : ext c (ino n d) m.
Hypothesis Hd : length d = 64%nat.
Hypothesis Hbn : (bn <= m)%nat.
Hypothesis HbnM : (bn < MAXBN)%nat.
Hypothesis Hroom : freeblock s + blocks (Nat.max m (S bn)) <= FSSIZE + blocks m.

Lemma R_fblock_direct : (bn < 7)%nat -> wp (fblock bn d) (gets_block n s c d m bn) s.
Proof using All.
  intros H7. unfold fblock. rewrite (proj2 (Nat.ltb_lt bn NDIRECT)) by done. rewrite (ino_addr n) by lia.
  pose proof (lays_len _ _ Hs) as Hl. pose proof (lays_meta _ _ Hs) as Hm. destruct Hext as [He He7].
  assert (faddr c (ino n d) bn = addr_at (ino n d) bn) as Ea by (unfold faddr; by rewrite (proj2 (Nat.ltb_lt bn 7)) by lia).
  destruct (Z.eqb_spec (addr_at (ino n d) bn) 0) as [Ez|Enz].
  - assert (m = bn) as -> by (destruct (decide (bn < m)%nat); [|lia]; destruct (proj2 (He bn HbnM)); [done|congruence]).
    rewrite Nat.max_r in * by lia. assert (blocks (S bn) = blocks bn + 1) as Eb.
    { unfold blocks. rewrite !(proj2 (Nat.ltb_ge 7 _)) by lia. lia. }
    apply wp_bind. apply (R_next s c Hs); [lia|]. intros s' Hs' Efb Efi. apply wp_ret.
    pose proof (lays_first _ _ Hs ltac:(lia)) as Hff. exists (c_alloc B c (freeblock s)). cbn [fst snd]. pose proof (fb_u32 _ _ Hs) as Hu.
    rewrite ino_put_addr by (done || lia). split_and!; try done; try lia.
    + by apply (grows_direct B ds Hly).
    + rewrite (faddr_direct B ds Hly) by done. by rewrite decide_True.
    + pose proof (la_fb _ _ Hs) as H. change ds with 59 in H. lia.
    + unfold put32. by rewrite length_splice.
    + rewrite Nat.max_r by lia. split.
      * intros b Hb. rewrite (faddr_direct B ds Hly) by done. pose proof (la_fb _ _ Hs) as H. change ds with 59 in H. case_decide; [lia|]. rewrite He by done. lia.
      * rewrite addr_at_set_ne, He7 by lia. lia.
    + rewrite Nat.max_r by lia. lia.
  - apply wp_ret. assert (bn < m)%nat as Hlt by (apply He; [done|congruence]). exists c. cbn [fst snd]. destruct (ext_same c (ino n d) m bn) as [? ->]; [by split|done|].
    split_and!; try done. by apply grows_refl.
Qed.
(** The indirect block, allocated when there is none. *)
Lemma R_indirect : (7 <= bn)%nat ->
  wp (if get32 d (12 + 4 * NDIRECT) =? 0 then b ← next_block; mret (put32 d (12 + 4 * NDIRECT) b) else mret d)
    (λ d1 s1, exists c1, lays s1 c1 /\ grows B ds c (ino n d) c1 (ino n d1) /\ addr_at (ino n d1) 7 <> 0 /\ length d1 = 64%nat /\
       (forall b, (b < MAXBN)%nat -> faddr c1 (ino n d1) b = faddr c (ino n d) b) /\
       freeblock s1 = freeblock s + (if (m <=? 7)%nat then 1 else 0) /\ freeinode s1 = freeinode s) s.
Proof using All.
  intros H7. rewrite (ino_addr n) by (unfold NDIRECT; lia). change NDIRECT with 7%nat. pose proof (lays_len _ _ Hs) as Hl.
  pose proof (lays_meta _ _ Hs) as Hm. pose proof (la_fb _ _ Hs) as Hfb. change ds with 59 in Hfb. destruct Hext as [He He7].
  destruct (Z.eqb_spec (addr_at (ino n d) 7) 0) as [Ez|Enz].
  - assert (m = 7%nat /\ bn = 7%nat) as [-> Ebn] by (destruct (decide (7 < m)%nat); [destruct (proj2 He7); [done|congruence]|lia]).
    assert (freeblock s < FSSIZE) as Hlt.
    { rewrite Ebn in Hroom. change (Nat.max 7 8) with 8%nat in Hroom. unfold blocks in Hroom. cbn in Hroom. lia. }
    apply wp_bind. apply (R_next s c Hs); [done|]. intros s' Hs' Efb Efi. apply wp_ret.
    pose proof (lays_first _ _ Hs Hlt) as Hff. pose proof (fb_u32 _ _ Hs) as Hu.
    exists (c_alloc B c (freeblock s)). rewrite ino_put_addr by (done || lia). split_and!; try done.
    + by apply (grows_ind B ds Hly).
    + rewrite addr_at_set by (rewrite length_ino; lia). lia.
    + unfold put32. by rewrite length_splice.
    + intros b Hb. by apply (faddr_newind B ds Hly).
  - apply wp_ret. exists c. split_and!; try done; [by apply grows_refl|]. rewrite (proj2 (Nat.leb_gt m 7)) by (by apply He7). lia.
Qed.

Lemma blocks_room : (7 <= bn)%nat -> freeblock s + (if (m <=? 7)%nat then 1 else 0) + (if (bn <? m)%nat then 0 else 1) <= FSSIZE /\
  blocks (Nat.max m (S bn)) = blocks m + (if (m <=? 7)%nat then 1 else 0) + (if (bn <? m)%nat then 0 else 1).
Proof using Hroom Hbn HbnM.
  intros H7. clear Hs Hok Hext Hd. revert Hroom. unfold blocks. destruct (Nat.leb_spec m 7), (Nat.ltb_spec bn m), (Nat.ltb_spec 7 m), (Nat.ltb_spec 7 (Nat.max m (S bn))); lia.
Qed.

Lemma R_fblock_indirect : (7 <= bn)%nat -> wp (fblock bn d) (gets_block n s c d m bn) s.
Proof using All.
  intros H7. unfold fblock. rewrite (proj2 (Nat.ltb_ge bn NDIRECT)) by done. apply wp_bind. eapply wp_mono; [by apply R_indirect|]. cbv beta.
  intros d1 s1 (c1 & Hs1 & G1 & H17 & Hd1 & Hf1 & Efb1 & Efi1). destruct (blocks_room H7) as [Hr Eb]. destruct Hext as [He He7].
  rewrite (ino_addr n) by (unfold NDIRECT; lia). change NDIRECT with 7%nat. pose proof (ev_ok _ _ _ _ _ _ _ G1) as Hok1.
  pose proof (fo_ind _ _ _ _ Hok1 H17) as Hind. pose proof (proj1 (lays_used _ _ Hs1 _) Hind) as Hi1. pose proof (la_fb _ _ Hs1) as Hfb1. change ds with 59 in Hi1, Hfb1.
  apply wp_bind. apply (R_rsect s1 c1 Hs1); [lia|lia|]. rewrite <-(faddr_ind c1 (ino n d1) bn) by done. rewrite Hf1 by done.
  destruct (Z.eqb_spec (faddr c (ino n d) bn) 0) as [Ez|Enz].
  - assert (m = bn) as Em by (destruct (decide (bn < m)%nat); [|lia]; destruct (proj2 (He bn HbnM)); [done|congruence]).
    rewrite (proj2 (Nat.ltb_ge bn m)) in * by lia. pose proof (lays_first _ _ Hs1 ltac:(lia)) as Hff.
    apply wp_bind. apply (R_next s1 c1 Hs1); [lia|]. intros s2 Hs2 Efb2 Efi2. apply wp_bind.
    pose proof (lays_len _ _ Hs1) as Hl1. pose proof (lays_meta _ _ Hs1) as Hm1.
    apply (R_wsect s2 _ Hs2); [lia|lia|by rewrite length_put32|]. intros s3 Hs3 Efb3 Efi3. apply wp_ret.
    rewrite <-(alloc_keep B ds Hly c1 _ Hff _ Hind) in Hs3. eexists. split; [exact Hs3|]. cbn [fst snd].
    assert (Hfa : forall b, (b < MAXBN)%nat -> faddr _ (ino n d1) b = _) by (intros b Hb; exact (faddr_newentry B ds Hly c1 (ino n d1) bn (freeblock s1) b Hok1 Hl1 (conj H7 HbnM) Hb H17 Hff)).
    split_and!; try done; try lia.
    + eapply (grows_trans B ds); [exact G1|]. apply (grows_entry B ds Hly); try done. by rewrite Hf1.
    + rewrite Hfa by done. by rewrite decide_True.
    + split; [|rewrite <-Em; split; [lia|done]]. intros b Hb. rewrite Hfa by done. case_decide; [lia|]. rewrite Hf1, He by done. lia.
  - assert (bn < m)%nat as Hlt by (by apply He). apply wp_ret. exists c1. rewrite (proj2 (Nat.ltb_lt bn m)) in * by done. cbn [fst snd]. split_and!; try done; try lia.
    + by apply Hf1.
    + rewrite Nat.max_l by lia. split; [|split; [lia|done]]. intros b Hb. rewrite Hf1 by done. by apply He.
Qed.

Lemma R_fblock : wp (fblock bn d) (gets_block n s c d m bn) s.
Proof using All. destruct (decide (bn < 7)%nat); [by apply R_fblock_direct|apply R_fblock_indirect; lia]. Qed.
End fblock.

(** ** Appending bytes *)

Lemma ext_write c i m bn v : file_ok B ds c i -> ext c i m -> (bn < MAXBN)%nat -> faddr c i bn <> 0 -> ext (upd c (faddr c i bn) v) i m.
Proof.
  intros Hok [He He7] Hbn Hne. split; [|done]. intros b Hb. rewrite <-He by done. unfold faddr at 1.
  rewrite upd_ne; [done|]. intros E. by apply (fo_ind_ne _ _ _ _ Hok bn Hbn Hne).
Qed.

Definition appended (n : Z) (s : mst) (c : Z -> block) (d : list Z) (off : nat) (p : list Z) (r : Z * list Z) (s' : mst) : Prop :=
  r.1 = Z.of_nat (off + length p) /\ exists c', lays s' c' /\
    evolves B ds c (ino n d) (put_bytes off p (fbyte c (ino n d))) c' (ino n r.2) /\ length r.2 = 64%nat /\
    ext c' (ino n r.2) (nb (off + length p)) /\
    freeblock s' + blocks (nb off) = freeblock s + blocks (nb (off + length p)) /\ freeinode s' = freeinode s.

Lemma appended_nil n s c d off : lays s c -> file_ok B ds c (ino n d) -> ext c (ino n d) (nb off) -> length d = 64%nat ->
  appended n s c d off [] (Z.of_nat off, d) s.
Proof.
  intros Hs Hok He Hd. unfold appended. cbn [fst snd length]. rewrite Nat.add_0_r. split; [done|]. exists c. split_and!; try done.
  eapply evolves_ext; [|apply grows_refl; [done|by eapply lays_meta|by eapply lays_len]]. intros q Hq. by rewrite put_bytes_nil.
Qed.

(** The bytes that go into the block of the offset. *)
Lemma turn_spec off (p : list Z) : p <> [] -> let bn := (off / 512)%nat in
  exists n1, Z.to_nat (Z.min (Z.of_nat (length p)) ((Z.of_nat off / BSZ + 1) * BSZ - Z.of_nat off)) = n1 /\
    (0 < n1 <= length p)%nat /\ Z.of_nat off / BSZ = Z.of_nat bn /\ Z.to_nat (Z.of_nat off - Z.of_nat bn * BSZ) = (off - 512 * bn)%nat /\
    (512 * bn <= off)%nat /\ (off - 512 * bn + n1 <= 512)%nat /\ (bn <= nb off)%nat /\ nb (off + n1) = S bn /\ Nat.max (nb off) (S bn) = S bn.
Proof.
  intros Hp bn. destruct p as [|x p]; [done|]. pose proof (Nat.div_mod off 512 ltac:(lia)) as E. pose proof (Nat.mod_upper_bound off 512 ltac:(lia)).
  fold bn in E. assert (Z.of_nat off / BSZ = Z.of_nat bn) as Ez by (unfold BSZ; change 512 with (Z.of_nat 512); by rewrite <-Nat2Z.inj_div).
  rewrite Ez. eexists. split; [done|]. pose proof (nb_spec off). unfold BSZ. cbn [length] in *. split_and!; try lia; try done.
  apply nb_unique. lia.
Qed.

Lemma R_append_loop n fuel : forall p s c d off, lays s c -> file_ok B ds c (ino n d) -> ext c (ino n d) (nb off) -> length d = 64%nat ->
  (length p <= fuel)%nat -> (off + length p <= MAXBN * 512)%nat ->
  freeblock s + blocks (nb (off + length p)) <= FSSIZE + blocks (nb off) ->
  wp (iappend_loop fuel p (Z.of_nat off) d) (appended n s c d off p) s.
Proof.
  induction fuel as [|fuel IH]; intros p s c d off Hs Hok Hext Hd Hfuel Hmax Hroom.
  { destruct p; [|cbn in Hfuel; lia]. apply wp_ret. by apply appended_nil. }
  destruct (decide (p = [])) as [->|Hp]; [apply wp_ret; by apply appended_nil|].
  destruct (turn_spec off p Hp) as (n1 & En1 & Hn1 & Ebn & Eo & Hbo & Ho & Hbn & Enb & Emax). set (bn := (off / 512)%nat) in *.
  assert (iappend_loop (S fuel) p (Z.of_nat off) d = (if MAXFILE <=? Z.of_nat off / BSZ then panic "assert" else
    r ← fblock (Z.to_nat (Z.of_nat off / BSZ)) d; buf ← rsect r.1;
    wsect r.1 (splice (Z.to_nat (Z.of_nat off - Z.of_nat off / BSZ * BSZ)) (take n1 p) buf) ;;
    iappend_loop fuel (drop n1 p) (u32 (Z.of_nat off + Z.of_nat n1)) r.2)) as -> by (rewrite <-En1; by destruct p).
  rewrite Ebn, Eo, Nat2Z.id. unfold MAXBN in Hmax. rewrite (proj2 (Z.leb_gt _ _)) by (unfold MAXFILE; lia).
  assert (blocks (S bn) <= blocks (nb (off + length p))) by (apply blocks_le; rewrite <-Enb; apply nb_le; lia).
  apply wp_bind. eapply wp_mono; [apply (R_fblock n s c d (nb off) bn); try done; [unfold MAXBN; lia|rewrite Emax; lia]|].
  intros [x d1] s1 (c1 & Hs1 & G1 & Ex & Hx & Hd1 & He1 & Efb1 & Efi1). cbn [fst snd] in *. rewrite Emax in *.
  pose proof (ev_ok _ _ _ _ _ _ _ G1) as Hok1. assert (bn < MAXBN)%nat as HbnM by (unfold MAXBN; lia).
  pose proof (fo_used _ _ _ _ Hok1 bn HbnM ltac:(congruence)) as Hu. rewrite Ex in Hu. pose proof (proj1 (lays_used _ _ Hs1 _) Hu) as Hxr.
  pose proof (la_fb _ _ Hs1) as Hfb1. change ds with 59 in Hxr, Hfb1.
  apply wp_bind. apply (R_rsect s1 c1 Hs1); [lia|lia|]. apply wp_bind. apply (R_wsect s1 c1 Hs1); [lia|lia|rewrite length_splice; by eapply lays_len|].
  intros s2 Hs2 Efb2 Efi2. rewrite u32_id by (unfold is_u32; lia). rewrite <-Nat2Z.inj_add.
  assert (length (take n1 p) = n1) as Et by (rewrite length_take; lia).
  pose proof (evolves_write B ds Hly c1 (ino n d1) bn (off - 512 * bn) (take n1 p) Hok1 (lays_meta _ _ Hs1) (lays_len _ _ Hs1) HbnM ltac:(congruence) ltac:(lia)) as E2.
  pose proof (ext_write c1 (ino n d1) (S bn) bn (splice (off - 512 * bn) (take n1 p) (c1 x)) Hok1 He1 HbnM ltac:(congruence)) as He2. rewrite Ex in E2, He2.
  rewrite Nat.add_comm, Nat.sub_add in E2 by lia.
  eapply wp_mono.
  - apply (IH (drop n1 p) s2 _ d1 (off + n1)%nat Hs2); try done.
    + by apply (ev_ok _ _ _ _ _ _ _ E2).
    + by rewrite Enb.
    + rewrite length_drop. lia.
    + rewrite length_drop. unfold MAXBN. lia.
    + rewrite length_drop. replace (off + n1 + (length p - n1))%nat with (off + length p)%nat by lia. rewrite Enb. lia.
  - cbv beta. unfold appended. rewrite length_drop. replace (off + n1 + (length p - n1))%nat with (off + length p)%nat by lia. rewrite Enb.
    intros r s3 (Er & c3 & Hs3 & E3 & Hd3 & He3 & Efb3 & Efi3). split; [done|]. exists c3. split_and!; try done; try lia.
    eapply evolves_ext; [|eapply evolves_trans; [eapply evolves_trans; [exact G1|exact E2]|exact E3]]. intros q Hq. cbv beta.
    erewrite put_bytes_ext; [apply put_bytes_split; lia|]. rewrite (ev_bytes _ _ _ _ _ _ _ E2) by done.
    apply put_bytes_ext. by apply (ev_bytes _ _ _ _ _ _ _ G1).
Qed.

(** ** Files beside each other *)

(** The file of inode [j] has exactly the bytes of [f]. *)
Record sound (c : Z -> block) (j : inode) (f : list Z) : Prop := {
  so_ok : file_ok B ds c j;
  so_ext : ext c j (nb (length f));
  so_bytes p : (p < MAXBN * 512)%nat -> fbyte c j p = default 0 (f !! p)
}.

Section beside.
Context (c : Z -> block) (i j : inode) (g : nat -> Z) (c1 : Z -> block) (i1 : inode).
Hypothesis E : evolves B ds c i g c1 i1.
Hypothesis Hj : file_ok B ds c j.
Hypothesis Hdis : forall x, owned c i x -> owned c j x -> x = 0.

Lemma beside_block x : owned c j x -> used_data B ds c x -> c1 x = c x.
Proof using All.
  intros Ho Hu. apply (ev_frame _ _ _ _ _ _ _ E); [done|]. intros Hi. pose proof (Hdis x Hi Ho). destruct Hu as [Hu _]. change ds with 59 in Hu. lia.
Qed.

Lemma beside_faddr n : faddr c1 j n = faddr c j n.
Proof using All.
  unfold faddr. destruct (n <? 7)%nat; [done|]. destruct (Z.eqb_spec (addr_at j 7) 0) as [|Hne]; [done|].
  rewrite beside_block; [done|by right|by apply (fo_ind _ _ _ _ Hj)].
Qed.

Lemma beside_owned x : owned c1 j x <-> owned c j x.
Proof using All. unfold owned. by setoid_rewrite beside_faddr. Qed.

Lemma beside_disjoint x : owned c1 i1 x -> owned c1 j x -> x = 0.
Proof using All.
  rewrite beside_owned. intros H1 H2. destruct (ev_fresh _ _ _ _ _ _ _ E x H1) as [|Hnu]; [by apply Hdis|].
  destruct (decide (x = 0)); [done|]. destruct Hnu. destruct H2 as [(b & Hb & <-)|<-]; [by apply (fo_used _ _ _ _ Hj)|by apply (fo_ind _ _ _ _ Hj)].
Qed.

Lemma beside_sound f : sound c j f -> sound c1 j f.
Proof using All.
  intros [[O1 O2 O3 O4 O5 O6] [X1 X2] Y]. constructor.
  - constructor; try done.
    + intros b Hb. rewrite beside_faddr. intros. apply (ev_used _ _ _ _ _ _ _ E). auto.
    + intros. apply (ev_used _ _ _ _ _ _ _ E). auto.
    + intros a b. rewrite !beside_faddr. apply O5.
    + intros b. rewrite beside_faddr. apply O6.
  - split; [|done]. intros b. rewrite beside_faddr. apply X1.
  - intros p Hp. rewrite <-Y by done. unfold fbyte. rewrite beside_faddr. destruct (Z.eqb_spec (faddr c j (p / 512)) 0); [done|].
    rewrite beside_block; [done|left; eexists; by split; [apply bn_of|]|]. apply O3; [by apply bn_of|done].
Qed.
End beside.

Lemma low_sound c a v j f : a < 58 -> sound c j f -> sound (upd c a v) j f.
Proof.
  intros Ha [O [X1 X2] Y]. assert (a < sb_bmapstart B) as Ha' by done. constructor.
  - by apply (file_ok_low B ds Hly).
  - split; [|done]. intros b. rewrite (faddr_low B ds Hly) by done. apply X1.
  - intros p Hp. rewrite (fbyte_low B ds Hly) by done. by apply Y.
Qed.

Lemma low_owned c a v j x : a < 58 -> file_ok B ds c j -> owned (upd c a v) j x <-> owned c j x.
Proof.
  intros Ha O. assert (a < sb_bmapstart B) as Ha' by done. unfold owned. split; (intros [(b & Hb & <-)|<-]; [left; exists b|by right]).
  - split; [done|]. by rewrite (faddr_low B ds Hly).
  - split; [done|]. by rewrite (faddr_low B ds Hly).
Qed.

Lemma sound_app c i c1 i1 f p : sound c i f -> evolves B ds c i (put_bytes (length f) p (fbyte c i)) c1 i1 ->
  ext c1 i1 (nb (length f + length p)) -> sound c1 i1 (f ++ p).
Proof.
  intros [O X Y] E X1. constructor; [apply E|by rewrite length_app|]. intros q Hq. rewrite (ev_bytes _ _ _ _ _ _ _ E) by done.
  unfold put_bytes. rewrite Y by done. case_decide as Hd.
  - by rewrite lookup_app_r by lia.
  - destruct (decide (q < length f)%nat); [by rewrite lookup_app_l by lia|]. rewrite !lookup_ge_None_2; [done|rewrite length_app|]; lia.
Qed.
