(* ===== verification/MkfsImage.v ===== *)
(** * What mkfs leaves on the disk

    The image after every operation of mkfs, as the list of the files made so
    far, and at last the theorem on the whole program: each host file is a file
    of the image with its bytes, the root directory names them, and the free map
    marks exactly the blocks in use. *)

From S2P Require Import Prelude CString Sleeplock Block BlockLayer Bio Log LogProps FsDefs InodeProps FsRules FsAlloc FsFile FsRW Mkfs MkfsProps.

#[local] Abbreviation B := mksb.
#[local] Abbreviation ds := nmeta.
#[local] Instance image_blocks : BlockLayer bcache := bio_layer FSSIZE 1.
#[local] Abbreviation Hly := (image_layout : fs_layout (@bl_size bcache image_blocks) B ds).

(** ** Inodes on the disk *)

Definition dinb (c : Z -> block) (n : Z) : list Z := slice (dip_off n) 64 (c (IBLOCK n B)).
Definition inode_at (c : Z -> block) (n : Z) : inode := ino n (dinb c n).

Lemma iblock_image n : 0 <= n < NINODES -> IBLOCK n B = 32 + n / IPB /\ 32 <= IBLOCK n B < 57.
Proof.
  intros Hn. rewrite (iblock_eq B ds Hly n Hn). change (sb_inodestart B) with 32. split; [done|]. unfold NINODES, IPB in *.
  pose proof (Z.div_pos n 8 ltac:(lia) ltac:(lia)). pose proof (Z.div_lt_upper_bound n 8 25 ltac:(lia) ltac:(lia)). lia.
Qed.

Lemma dinb_store c n m d : length d = 64%nat -> (forall x, length (c x) = BSIZE) -> 0 <= n < NINODES -> 0 <= m < NINODES ->
  dinb (upd c (IBLOCK n B) (splice (dip_off n) d (c (IBLOCK n B)))) m = if decide (m = n) then d else dinb c m.
Proof.
  intros Hd Hl Hn Hm. unfold dinb. pose proof (dip_off_bound n). pose proof (dip_off_bound m). case_decide as E.
  - subst m. rewrite upd_eq. apply slice_splice_same'; [done|]. rewrite Hl. done.
  - destruct (decide (IBLOCK m B = IBLOCK n B)) as [Eb|Eb]; [|by rewrite upd_ne]. rewrite Eb, upd_eq.
    apply slice_splice_other; rewrite ?Hl, Hd; [done|]. rewrite (proj1 (iblock_image n Hn)), (proj1 (iblock_image m Hm)) in Eb.
    unfold dip_off, IPB in *. pose proof (Z.div_mod n 8 ltac:(lia)). pose proof (Z.div_mod m 8 ltac:(lia)).
    pose proof (Z.mod_pos_bound n 8 ltac:(lia)). pose proof (Z.mod_pos_bound m 8 ltac:(lia)). lia.
Qed.

Lemma length_dinb c n : (forall x, length (c x) = BSIZE) -> length (dinb c n) = 64%nat.
Proof. intros Hl. unfold dinb, slice. rewrite length_take, length_drop, Hl. pose proof (dip_off_bound n). lia. Qed.

(** What ilock reads is the same inode. *)
Lemma disk_inode_at c n : (forall x, length (c x) = BSIZE) -> disk_inode B c n = dinode_of (inode_at c n).
Proof.
  intros Hl. unfold disk_inode, dinode_of, inode_at, ino, dip_load, dinb.
  cbn [i_dev i_inum i_ref i_lock i_valid i_type i_major i_minor i_nlink i_size i_addrs i_user i_mode].
  unfold get_words, get16, get32. rewrite !slice_slice by lia. f_equal.
  - by rewrite Nat.add_0_r.
  - apply list_fmap_ext. intros k x [-> Hk]%lookup_seq. rewrite slice_slice by lia. do 2 f_equal. lia.
  - rewrite strncpy_strncpy by done. done.
Qed.

(** ** The files made so far *)

(** The header mkfs gives an inode. *)
Definition hdr (n type : Z) (size : nat) : inode :=
  mkInode 1 n 0 initsleeplock true type 0 0 1 (Z.of_nat size) [] (strncpy (replicate 16 0) root_name 16) mk_mode.

Record holds (c : Z -> block) (n : Z) (tf : Z * list Z) : Prop := {
  ho_sound : sound c (inode_at c n) tf.2;
  ho_hdr : inode_at c n = set_i_addrs (i_addrs (inode_at c n)) (hdr n tf.1 (length tf.2));
  ho_max : (length tf.2 <= MAXBN * 512)%nat
}.

Definition size_of (f : list Z) : Z := blocks (nb (length f)).
Definition total (F : list (Z * list Z)) : Z := foldr (fun tf a => size_of tf.2 + a) 0 F.
Definition inum_of (k : nat) : Z := 1 + Z.of_nat k.

Record image (s : mst) (c : Z -> block) (F : list (Z * list Z)) : Prop := {
  im_lays : lays s c;
  im_ino : freeinode s = inum_of (length F);
  im_fb : freeblock s = ds + total F;
  im_holds k tf : F !! k = Some tf -> holds c (inum_of k) tf;
  im_disj k l x : (k < length F)%nat -> (l < length F)%nat -> k <> l ->
    owned c (inode_at c (inum_of k)) x -> owned c (inode_at c (inum_of l)) x -> x = 0;
  im_low x : 0 <= x < 32 -> c x = if decide (x = 1) then splice 0 (sb_bytes B) zero_block else zero_block
}.

Lemma total_cons tf F : total (tf :: F) = size_of tf.2 + total F.
Proof. done. Qed.

Lemma total_app F F' : total (F ++ F') = total F + total F'.
Proof. induction F as [|tf F IH]; [done|]. cbn [app]. rewrite !total_cons, IH. lia. Qed.

Lemma total_insert F k tf tf' : F !! k = Some tf -> total (<[k := tf']> F) = total F - size_of tf.2 + size_of tf'.2.
Proof.
  revert k. induction F as [|x F IH]; intros [|k] Hk; try done.
  - injection Hk as ->. change (<[0%nat := tf']> (tf :: F)) with (tf' :: F). rewrite !total_cons. lia.
  - change (<[S k := tf']> (x :: F)) with (x :: <[k := tf']> F). rewrite !total_cons, (IH k Hk). lia.
Qed.

(** ** Reading and writing inodes *)

Lemma R_rinode s c n Q : lays s c -> 0 <= n < NINODES -> Q (dinb c n) s -> wp (rinode n) Q s.
Proof.
  intros Hs Hn HQ. unfold rinode. apply wp_bind. destruct (iblock_image n Hn) as [_ Hb].
  apply (R_rsect s c Hs); [unfold FSSIZE; lia|lia|]. by apply wp_ret.
Qed.

Lemma R_winode s c n d Q : lays s c -> 0 <= n < NINODES ->
  (forall s', lays s' (upd c (IBLOCK n B) (splice (dip_off n) d (c (IBLOCK n B)))) -> freeblock s' = freeblock s ->
     freeinode s' = freeinode s -> Q tt s') -> wp (winode n d) Q s.
Proof.
  intros Hs Hn HQ. unfold winode. apply wp_bind. destruct (iblock_image n Hn) as [_ Hb]. pose proof (la_fb _ _ Hs) as Hfb. change ds with 59 in Hfb.
  apply (R_rsect s c Hs); [unfold FSSIZE; lia|lia|]. apply (R_wsect s c Hs); [lia|lia| |done]. rewrite length_splice. by eapply lays_len.
Qed.

(** ** One file changes, the others stay *)

Lemma faddr_addrs c i i' n : i_addrs i = i_addrs i' -> faddr c i n = faddr c i' n.
Proof. intros E. unfold faddr, addr_at. by rewrite E. Qed.
Lemma owned_addrs c i i' x : i_addrs i = i_addrs i' -> owned c i x -> owned c i' x.
Proof. intros E. unfold owned, addr_at. rewrite E. intros [(b & Hb & <-)|<-]; [left; exists b; split; [done|]; by apply faddr_addrs|by right]. Qed.
Lemma sound_addrs c i i' f : i_addrs i = i_addrs i' -> i_dev i' = 1 -> sound c i f -> sound c i' f.
Proof.
  intros E D [[O1 O2 O3 O4 O5 O6] [X1 X2] Y]. assert (addr_at i' 7 = addr_at i 7) as E7 by (unfold addr_at; by rewrite E).
  assert (forall n, faddr c i' n = faddr c i n) as Ef by (intros; by apply faddr_addrs).
  constructor; [constructor| |].
  - by rewrite <-E.
  - done.
  - intros b. rewrite Ef. apply O3.
  - by rewrite E7.
  - intros a b. rewrite !Ef. apply O5.
  - intros b. rewrite Ef, E7. apply O6.
  - split; [intros b; by rewrite Ef; apply X1|by rewrite E7].
  - intros p Hp. unfold fbyte. rewrite Ef. by apply Y.
Qed.

Lemma inum_range (F : list (Z * list Z)) l : Z.of_nat (length F) < NINODES -> (l < length F)%nat -> 0 <= inum_of l < NINODES.
Proof. unfold inum_of. lia. Qed.

Section update.
Context (s : mst) (c : Z -> block) (F : list (Z * list Z)) (k : nat) (g : nat -> Z) (c1 : Z -> block) (i1 : inode) (d : list Z).
Hypothesis Him : image s c F.
Hypothesis HF : Z.of_nat (length F) < NINODES.
Hypothesis Hk : (k < length F)%nat.
Hypothesis E : evolves B ds c (inode_at c (inum_of k)) g c1 i1.
Hypothesis Hd : length d = 64%nat.
Hypothesis Hi : i_addrs (ino (inum_of k) d) = i_addrs i1.
#[local] Abbreviation c2 := (upd c1 (IBLOCK (inum_of k) B) (splice (dip_off (inum_of k)) d (c1 (IBLOCK (inum_of k) B)))).

Lemma at_evolved n : 0 <= n < NINODES -> inode_at c1 n = inode_at c n.
Proof using E.
  intros Hn. destruct (iblock_image n Hn) as [_ Hb]. unfold inode_at, dinb. rewrite (ev_low _ _ _ _ _ _ _ E); [done|].
  change (sb_bmapstart B) with 58. clear - Hb. lia.
Qed.

Lemma at_self : inode_at c2 (inum_of k) = ino (inum_of k) d.
Proof using HF Hk E Hd. unfold inode_at. rewrite dinb_store; [by rewrite decide_True|done|apply (ev_len _ _ _ _ _ _ _ E)|by apply (inum_range F)..]. Qed.

Lemma at_other l : (l < length F)%nat -> l <> k -> inode_at c2 (inum_of l) = inode_at c (inum_of l).
Proof using HF Hk E Hd.
  intros Hl Hne. rewrite <-(at_evolved (inum_of l)) by (by apply (inum_range F)). unfold inode_at.
  rewrite dinb_store; [|done|apply (ev_len _ _ _ _ _ _ _ E)|by apply (inum_range F)..]. rewrite decide_False; [done|]. clear - Hne. unfold inum_of. lia.
Qed.

Lemma iblock_low : IBLOCK (inum_of k) B < 58.
Proof using HF Hk. destruct (iblock_image (inum_of k)) as [_ H]; [by apply (inum_range F)|clear - H; lia]. Qed.

Lemma file_at l : (l < length F)%nat -> exists tf, F !! l = Some tf /\ sound c (inode_at c (inum_of l)) tf.2.
Proof using Him. intros Hl. destruct (lookup_lt_is_Some_2 F l Hl) as [tf Htf]. exists tf. split; [done|]. apply (im_holds _ _ _ Him _ _ Htf). Qed.

Lemma other_holds l tf : F !! l = Some tf -> l <> k -> holds c2 (inum_of l) tf.
Proof using Him HF Hk E Hd.
  intros Hl Hne. pose proof (lookup_lt_Some _ _ _ Hl) as Hlt. pose proof (im_holds _ _ _ Him _ _ Hl) as [Hs Hh Hm]. constructor; rewrite ?at_other; try done.
  apply low_sound; [apply iblock_low|]. eapply beside_sound; [exact E|apply Hs| |done]. intros x. by apply (im_disj _ _ _ Him).
Qed.

Lemma other_owned l x : (l < length F)%nat -> l <> k -> owned c2 (inode_at c2 (inum_of l)) x <-> owned c (inode_at c (inum_of l)) x.
Proof using Him HF Hk E Hd.
  intros Hl Hne. destruct (file_at l Hl) as (tf & Htf & Hs). rewrite at_other by done.
  assert (forall x, owned c (inode_at c (inum_of k)) x -> owned c (inode_at c (inum_of l)) x -> x = 0) as Hdis by (intros y; by apply (im_disj _ _ _ Him)).
  rewrite low_owned; [|apply iblock_low|eapply (beside_sound _ _ _ _ _ _ E); [apply Hs|done|exact Hs]].
  eapply beside_owned; [exact E|apply Hs|done].
Qed.

Lemma self_disjoint l x : (l < length F)%nat -> l <> k -> owned c2 (inode_at c2 (inum_of k)) x -> owned c2 (inode_at c2 (inum_of l)) x -> x = 0.
Proof using All.
  intros Hl Hne H1 H2. rewrite at_self in H1. apply (owned_addrs _ _ i1) in H1; [|done].
  rewrite low_owned in H1; [|apply iblock_low|apply E]. rewrite other_owned in H2 by done. destruct (file_at l Hl) as (tf & Htf & Hs).
  eapply (beside_disjoint _ _ _ _ _ _ E); [apply Hs|intros y; by apply (im_disj _ _ _ Him)|exact H1|].
  eapply beside_owned; [exact E|apply Hs|intros y; by apply (im_disj _ _ _ Him)|done].
Qed.

Lemma update_image s2 tf' : holds c2 (inum_of k) tf' -> lays s2 c2 -> freeinode s2 = freeinode s -> freeblock s2 = ds + total (<[k := tf']> F) ->
  image s2 c2 (<[k := tf']> F).
Proof using All.
  intros Hh Hs2 Efi Efb. constructor; try done.
  - by rewrite length_insert, Efi, (im_ino _ _ _ Him).
  - intros l tf Hl. destruct (decide (l = k)) as [->|Hne]; [by rewrite list_lookup_insert_eq in Hl by done; injection Hl as <-|].
    rewrite list_lookup_insert_ne in Hl by done. by apply other_holds.
  - intros a b x. rewrite length_insert. intros Ha Hb Hab H1 H2. destruct (decide (a = k)) as [->|]; [by eapply (self_disjoint b)|].
    destruct (decide (b = k)) as [->|]; [by eapply (self_disjoint a)|]. rewrite other_owned in H1, H2 by done. by apply (im_disj _ _ _ Him a b).
  - intros x Hx. destruct (iblock_image (inum_of k)) as [_ ?]; [by apply (inum_range F)|]. rewrite upd_ne by lia.
    rewrite (ev_low _ _ _ _ _ _ _ E) by (change (sb_bmapstart B) with 58; lia). by apply (im_low _ _ _ Him).
Qed.
End update.

Lemma R_iappend s c F k t f p Q : image s c F -> Z.of_nat (length F) < NINODES -> F !! k = Some (t, f) ->
  (length f + length p <= MAXBN * 512)%nat -> freeblock s + size_of (f ++ p) <= FSSIZE + size_of f ->
  (forall s' c', image s' c' (<[k := (t, f ++ p)]> F) -> Q tt s') -> wp (iappend (inum_of k) p) Q s.
Proof.
  intros Him HF Hk Hmax Hroom HQ. pose proof (lookup_lt_Some _ _ _ Hk) as Hlt. pose proof (im_lays _ _ _ Him) as Hs.
  pose proof (im_holds _ _ _ Him _ _ Hk) as [Hso Hh _]. cbn [fst snd] in *. pose proof (inum_range F k HF Hlt) as Hn. unfold iappend. apply wp_bind. apply (R_rinode s c); [done|done|].
  assert (get32 (dinb c (inum_of k)) 8 = Z.of_nat (length f)) as ->.
  { change (get32 (dinb c (inum_of k)) 8) with (i_size (inode_at c (inum_of k))). by rewrite Hh. }
  unfold size_of in Hroom. rewrite length_app in Hroom. pose proof (length_dinb c (inum_of k) (lays_len _ _ Hs)) as Hd.
  apply wp_bind. eapply wp_mono; [apply (R_append_loop (inum_of k) (length p) p s c); [done|apply Hso|apply Hso|done|done|done|done]|].
  intros [off d1] s1 (Eoff & c1 & Hs1 & E & Hd1 & He1 & Efb1 & Efi1). cbn [fst snd] in *. subst off. fold (inode_at c (inum_of k)) in E.
  apply (R_winode s1 c1); [done|done|]. intros s2 Hs2 Efb2 Efi2. unfold MAXBN in Hmax. assert (is_u32 (Z.of_nat (length f + length p))) as Hu by (unfold is_u32; lia).
  assert (length (put32 d1 8 (Z.of_nat (length f + length p))) = 64%nat) as Hd2 by (by rewrite length_put32).
  assert (i_addrs (ino (inum_of k) (put32 d1 8 (Z.of_nat (length f + length p)))) = i_addrs (ino (inum_of k) d1)) as Ha by (by rewrite ino_put_size).
  eapply HQ. eapply update_image; try done.
  - constructor; cbn [fst snd]; rewrite ?length_app; [|rewrite (at_self c F k _ c1 _ _ HF Hlt E Hd2)|done].
    + rewrite (at_self c F k _ c1 _ _ HF Hlt E Hd2). apply low_sound; [by eapply iblock_low|]. eapply sound_addrs; [by symmetry|done|]. eapply sound_app; [exact Hso|exact E|done].
    + rewrite ino_put_size by done. rewrite (ev_inode _ _ _ _ _ _ _ E), Hh. done.
  - by rewrite Efi2.
  - rewrite (total_insert F k (t, f)) by done. cbn [fst snd]. unfold size_of. rewrite length_app. pose proof (im_fb _ _ _ Him). lia.
Qed.

(** ** New files *)

Lemma new_ino n t : t = T_DIR \/ t = T_FILE -> ino n (new_dinode t) = set_i_addrs (replicate 8 0) (hdr n t 0).
Proof. by intros [-> | ->]. Qed.

Lemma no_faddr c i b : i_addrs i = replicate 8 0 -> faddr c i b = 0 /\ addr_at i 7 = 0.
Proof.
  intros E. assert (forall k, addr_at i k = 0) as Ha.
  { intros k. unfold addr_at. rewrite E. destruct (decide (k < 8)%nat); [by rewrite lookup_replicate_2|]. rewrite lookup_ge_None_2; [done|]. rewrite length_replicate. lia. }
  split; [|done]. unfold faddr. rewrite !Ha. by destruct (b <? 7)%nat.
Qed.

Lemma empty_sound c i : i_addrs i = replicate 8 0 -> i_dev i = 1 -> sound c i [].
Proof.
  intros E D. pose proof (fun b => no_faddr c i b E) as H. assert (forall b, faddr c i b = 0) as Hf by (intros b; apply H). destruct (H 0%nat) as [_ H7].
  constructor; [constructor|split|].
  - by rewrite E.
  - done.
  - intros b Hb. by rewrite Hf.
  - by rewrite H7.
  - intros a b Ha Hb. by rewrite Hf.
  - intros b Hb. by rewrite Hf.
  - intros b Hb. rewrite Hf. change (nb (length [])) with 0%nat. lia.
  - rewrite H7. change (nb (length [])) with 0%nat. lia.
  - intros p Hp. unfold fbyte. by rewrite Hf.
Qed.

Lemma empty_owned c i x : i_addrs i = replicate 8 0 -> owned c i x -> x = 0.
Proof. intros E [(b & _ & <-)|<-]; [by apply no_faddr|by apply (no_faddr c i 0)]. Qed.

Lemma R_ialloc s c F t Q : image s c F -> Z.of_nat (length F) + 1 < NINODES -> t = T_DIR \/ t = T_FILE ->
  (forall s' c', image s' c' (F ++ [(t, [])]) -> freeblock s' = freeblock s -> Q (inum_of (length F)) s') -> wp (ialloc t) Q s.
Proof.
  intros Him HF Ht HQ. pose proof Him as [Hs Hino Hfb Hh Hdj Hlow]. pose proof (lays_len _ _ Hs) as Hl. unfold ialloc. apply wp_bind, wp_gets, wp_bind, wp_modify, wp_bind.
  rewrite Hino. set (n := inum_of (length F)). assert (0 <= n < NINODES) as Hn by (unfold n, inum_of; lia).
  apply (R_winode _ c); [by destruct Hs; constructor|done|]. intros s2 Hs2 Efb2 Efi2. cbn in Efb2, Efi2. apply wp_ret. apply (HQ s2 (upd c (IBLOCK n B) (splice (dip_off n) (new_dinode t) (c (IBLOCK n B))))); [|done].
  destruct (iblock_image n Hn) as [_ Hib]. set (c2 := upd c _ _) in *.
  assert (length (new_dinode t) = 64%nat) as Hd by (by destruct Ht as [-> | ->]).
  assert (inode_at c2 n = set_i_addrs (replicate 8 0) (hdr n t 0)) as En.
  { unfold inode_at, c2. rewrite dinb_store, decide_True by done. by apply new_ino. }
  assert (forall k, (k < length F)%nat -> inode_at c2 (inum_of k) = inode_at c (inum_of k)) as Eo.
  { intros k Hk. unfold inode_at, c2. rewrite dinb_store; [rewrite decide_False; [done|unfold n, inum_of; lia]|done|done|done|unfold inum_of, NINODES in *; lia]. }
  assert (forall k x, (k < length F)%nat -> owned c2 (inode_at c2 (inum_of k)) x <-> owned c (inode_at c (inum_of k)) x) as Ew.
  { intros k x Hk. rewrite Eo by done. apply low_owned; [lia|]. destruct (lookup_lt_is_Some_2 F k Hk) as [tf Htf]. apply (Hh _ _ Htf). }
  assert (forall k x, (k <= length F)%nat -> ~ (k < length F)%nat -> owned c2 (inode_at c2 (inum_of k)) x -> x = 0) as Ez.
  { intros k x H1 H2. replace k with (length F) by lia. fold n. rewrite En. by apply empty_owned. }
  constructor; try done.
  - rewrite Efi2, length_app. cbn. unfold n, inum_of in *. rewrite u32_id by (unfold is_u32, NINODES in *; lia). lia.
  - rewrite Efb2, Hfb, total_app. change (total [(t, [])]) with 0. lia.
  - intros k tf Hk. destruct (decide (k < length F)%nat) as [Hlt|Hge].
    + rewrite lookup_app_l in Hk by done. destruct (Hh _ _ Hk) as [H1 H2 H3]. constructor; rewrite ?Eo; try done. apply low_sound; [lia|done].
    + rewrite lookup_app_r in Hk by lia. destruct (k - length F)%nat eqn:Ek; [|done]. injection Hk as <-. replace k with (length F) by lia. fold n.
      constructor; rewrite ?En; [by apply empty_sound|reflexivity|apply Nat.le_0_l].
  - intros k l x Hk Hl' Hne H1 H2. rewrite length_app in Hk, Hl'. cbn in Hk, Hl'. destruct (decide (k < length F)%nat); [|by eapply Ez; [|done|exact H1]; lia].
    destruct (decide (l < length F)%nat); [|by eapply Ez; [|done|exact H2]; lia]. rewrite Ew in H1, H2 by done. by apply (Hdj k l).
  - intros x Hx. unfold c2. rewrite upd_ne by lia. by apply Hlow.
Qed.

(** ** The loops of main *)

Lemma size_of_le f g : (length f <= length g)%nat -> size_of f <= size_of g.
Proof. intros. by apply blocks_le, nb_le. Qed.

Lemma R_append_reads k t reads : forall s c F f Q, image s c F -> Z.of_nat (length F) < NINODES -> F !! k = Some (t, f) ->
  Forall (fun b => b <> []) reads -> (length f + length (concat reads) <= MAXBN * 512)%nat ->
  freeblock s + size_of (f ++ concat reads) <= FSSIZE + size_of f ->
  (forall s' c', image s' c' (<[k := (t, f ++ concat reads)]> F) -> Q tt s') -> wp (append_reads (inum_of k) reads) Q s.
Proof.
  induction reads as [|b reads IH]; intros s c F f Q Him HF Hk Hne Hmax Hroom HQ.
  { apply wp_ret. apply (HQ s c). cbn [concat]. rewrite app_nil_r. by rewrite list_insert_id. }
  apply Forall_cons in Hne as [Hb Hne]. cbn [concat] in *. rewrite length_app in Hmax. rewrite app_assoc in Hroom, HQ.
  assert (append_reads (inum_of k) (b :: reads) = (iappend (inum_of k) b ;; append_reads (inum_of k) reads)) as -> by (by destruct b).
  pose proof (size_of_le (f ++ b) ((f ++ b) ++ concat reads) ltac:(rewrite !length_app; lia)) as Hle.
  apply wp_bind. eapply R_iappend; [done|done|exact Hk|lia|lia|]. intros s1 c1 H1.
  pose proof (im_fb _ _ _ Him). pose proof (im_fb _ _ _ H1) as Hf1. rewrite (total_insert F k (t, f)) in Hf1 by done. cbn [snd] in Hf1.
  pose proof (lookup_lt_Some _ _ _ Hk). eapply (IH _ _ _ (f ++ b) _ H1).
  - by rewrite length_insert.
  - by apply list_lookup_insert_eq.
  - done.
  - rewrite length_app. lia.
  - lia.
  - intros s2 c2 H2. rewrite list_insert_insert_eq in H2. by apply (HQ s2 c2).
Qed.

(** What the host gives for a name, and the directory entries for the names. *)
Definition content (f : hostfile) : list Z := concat (default [] f.2).
Definition readable (f : hostfile) : Prop :=
  (47 ∉ f.1) /\ exists reads, f.2 = Some reads /\ Forall (fun b => b <> []) reads /\ (length (concat reads) <= MAXBN * 512)%nat.
Fixpoint entries (n : Z) (files : list hostfile) : list Z :=
  match files with [] => [] | f :: files' => mk_dirent n (strip f.1) ++ entries (n + 1) files' end.

Lemma length_dirent n name : length (mk_dirent n name) = 16%nat.
Proof. unfold mk_dirent. rewrite length_app, length_le_bytes, length_strncpy. done. Qed.
Lemma length_entries n files : length (entries n files) = (16 * length files)%nat.
Proof. revert n. induction files as [|f files IH]; intros n; cbn [entries length]; [done|]. rewrite length_app, IH, length_dirent. lia. Qed.

Definition made (files : list hostfile) : list (Z * list Z) := (fun f => (T_FILE, content f)) <$> files.

(** One turn of the loop over the names. *)
Lemma R_add_file s c e F f reads (K : M mst unit) Q : image s c ((T_DIR, e) :: F) -> f.2 = Some reads -> Forall (fun b => b <> []) reads ->
  (length (concat reads) <= MAXBN * 512)%nat -> Z.of_nat (length F) + 2 < NINODES -> (length e + 16 <= MAXBN * 512)%nat ->
  let n := inum_of (S (length F)) in
  freeblock s + size_of (e ++ mk_dirent n (strip f.1)) + size_of (concat reads) <= FSSIZE + size_of e ->
  (forall s' c', image s' c' ((T_DIR, e ++ mk_dirent n (strip f.1)) :: F ++ [(T_FILE, concat reads)]) -> wp K Q s') ->
  wp (inum ← ialloc T_FILE; iappend ROOTINO (mk_dirent inum (strip f.1)) ;; append_reads inum reads ;; K) Q s.
Proof.
  intros Him Er Hne Hmax HF Hme n Hroom HK. pose proof (im_fb _ _ _ Him) as Hfb. rewrite total_cons in Hfb. cbn [snd] in Hfb.
  assert (0 <= size_of (concat reads)) by (pose proof (size_of_le [] (concat reads) (Nat.le_0_l _)); by change (size_of []) with 0 in *).
  apply wp_bind. eapply R_ialloc; [exact Him|cbn [length]; lia|by right|]. intros s1 c1 H1 E1. cbn [length]. fold n.
  apply wp_bind. change ROOTINO with (inum_of 0). eapply (R_iappend s1 c1 _ 0 T_DIR e); [exact H1|rewrite length_app; cbn [length]; lia|done|rewrite length_dirent; lia|lia|].
  intros s2 c2 H2. apply wp_bind. pose proof (im_fb _ _ _ H2) as Hfb2. revert H2 Hfb2. cbn [app].
  change (<[0%nat := ?x]> (?y :: ?l)) with (x :: l). rewrite total_cons, total_app. cbn [snd]. change (total [(T_FILE, [])]) with 0. intros H2 Hfb2.
  unfold n. eapply (R_append_reads (S (length F)) T_FILE reads s2 c2 _ []); [exact H2| | |done|done| |].
  - cbn [length]. rewrite length_app. cbn [length]. lia.
  - change ((?x :: ?l) !! S ?k) with (l !! k). rewrite lookup_app_r by lia. by rewrite Nat.sub_diag.
  - cbn [app]. change (size_of []) with 0. lia.
  - intros s3 c3 H3. apply (HK s3 c3). cbn [app] in H3. change (<[S ?k := ?x]> (?y :: ?l)) with (y :: <[k := x]> l) in H3.
    rewrite insert_app_r_alt, Nat.sub_diag in H3 by lia. exact H3.
Qed.

Lemma total_pos F : 0 <= total F.
Proof.
  induction F as [|tf F IH]; [done|]. rewrite total_cons. pose proof (size_of_le [] tf.2 (Nat.le_0_l _)) as H. change (size_of []) with 0 in H. lia.
Qed.

Lemma R_add_files files : forall s c e F Q, image s c ((T_DIR, e) :: F) -> Forall readable files ->
  Z.of_nat (length F) + Z.of_nat (length files) + 1 < NINODES -> (length e + 16 * length files <= MAXBN * 512)%nat ->
  freeblock s + size_of (e ++ entries (inum_of (S (length F))) files) + total (made files) <= FSSIZE + size_of e ->
  (forall s' c', image s' c' ((T_DIR, e ++ entries (inum_of (S (length F))) files) :: F ++ made files) -> Q tt s') ->
  wp (add_files ROOTINO files) Q s.
Proof.
  induction files as [|f files IH]; intros s c e F Q Him Hr HF Hme Hroom HQ.
  { apply wp_ret. apply (HQ s c). cbn [entries made fmap list_fmap]. by rewrite !app_nil_r. }
  apply Forall_cons in Hr as [(Hsl & reads & Er & Hne & Hmax) Hr]. destruct f as [name fr]. cbn [fst snd] in *. subst fr.
  cbn [length] in HF, Hme. pose proof (total_pos (made files)). set (n := inum_of (S (length F))) in *.
  assert (n + 1 = inum_of (S (S (length F)))) as En by (unfold n, inum_of; lia).
  change (made ((name, Some reads) :: files)) with ((T_FILE, concat reads) :: made files) in *. cbn [entries fst] in *. rewrite total_cons in Hroom. cbn [snd] in Hroom.
  set (de := mk_dirent n (strip name)) in *. rewrite app_assoc in Hroom, HQ.
  pose proof (size_of_le (e ++ de) ((e ++ de) ++ entries (n + 1) files) ltac:(rewrite !length_app; lia)) as Hle.
  cbn [add_files]. rewrite bool_decide_false by done.
  apply (R_add_file s c e F (name, Some reads) reads); [done|done|done|done|lia|lia|cbn [fst]; fold n de; lia|]. cbn [fst]. fold n de.
  intros s1 c1 H1. pose proof (im_fb _ _ _ Him) as E0. pose proof (im_fb _ _ _ H1) as E1. rewrite total_cons in E0, E1. rewrite total_app, total_cons in E1. cbn [snd] in E0, E1.
  change (total []) with 0 in E1.
  eapply (IH s1 c1 (e ++ de) (F ++ [(T_FILE, concat reads)]) Q H1 Hr); rewrite ?length_app; cbn [length]; rewrite ?(Nat.add_1_r (length F)), <-?En.
  - lia.
  - unfold de. rewrite length_dirent. lia.
  - lia.
  - intros s2 c2 H2. rewrite <-(app_assoc F) in H2. by apply (HQ s2 c2).
Qed.

(** ** The empty image *)

Lemma R_zero_sects n : forall i s Q, 0 <= i -> i + Z.of_nat n <= FSSIZE -> ilen s = i -> (forall x, img s x = zero_block) ->
  (forall s', ilen s' = i + Z.of_nat n -> (forall x, img s' x = zero_block) -> freeblock s' = freeblock s -> freeinode s' = freeinode s -> Q tt s') ->
  wp (zero_sects n i) Q s.
Proof.
  induction n as [|n IH]; intros i s Q Hi Hn Hl Hz HQ; cbn [zero_sects]; [apply wp_ret; apply HQ; try done; lia|].
  apply wp_bind, wp_modify. rewrite sect_id by lia. apply IH; cbn; [lia|lia|lia| |].
  - intros x. unfold upd. by case_decide.
  - intros s' H1 H2 H3 H4. apply HQ; try done. lia.
Qed.

Definition start_contents (x : Z) : block :=
  if decide (x = 58) then bitmap ds else if decide (x = 1) then splice 0 (sb_bytes B) zero_block else zero_block.

Lemma R_start (K : M mst unit) Q : (forall s c, image s c [] -> wp K Q s) ->
  wp (modify (λ s, Mst (img s) (ilen s) (freeinode s) nmeta) ;; zero_sects (Z.to_nat FSSIZE) 0 ;;
      wsect 1 (splice 0 (sb_bytes B) zero_block) ;; K) Q mst0.
Proof.
  intros HK. apply wp_bind, wp_modify, wp_bind. apply R_zero_sects; try done. cbn [freeblock freeinode mst0]. intros s Hl Hz Hfb Hfi.
  change (0 + Z.of_nat (Z.to_nat FSSIZE)) with FSSIZE in Hl. apply wp_bind, wp_modify. change (sect 1) with 1. rewrite Hl, Hfb, Hfi. apply (HK _ start_contents). constructor; try done.
  - constructor; cbn [img ilen freeblock]; try done.
    + intros x. unfold start_contents, upd. rewrite Hz. repeat case_decide; congruence.
    + intros x. unfold upd. case_decide; [done|by rewrite Hz].
    + intros x Hx. change ds with 59 in Hx. rewrite upd_ne by lia. apply Hz.
  - intros k l x Hk. cbn in Hk. lia.
  - intros x Hx. unfold start_contents. by rewrite decide_False by lia.
Qed.

(** ** Disks that agree block by block *)

Section agree.
Context (c c' : Z -> block).
Hypothesis Hc : forall x, c x = c' x.

Lemma faddr_agree i n : faddr c i n = faddr c' i n.
Proof using Hc. unfold faddr. by rewrite Hc. Qed.
Lemma fbyte_agree i p : fbyte c i p = fbyte c' i p.
Proof using Hc. unfold fbyte. by rewrite faddr_agree, Hc. Qed.
Lemma inode_at_agree n : inode_at c n = inode_at c' n.
Proof using Hc. unfold inode_at, dinb. by rewrite Hc. Qed.
Lemma is_free_agree b : is_free c B b = is_free c' B b.
Proof using Hc. unfold is_free. by rewrite Hc. Qed.
Lemma owned_agree i x : owned c' i x -> owned c i x.
Proof using Hc. intros [(b & Hb & <-)|<-]; [left; exists b; split; [done|]; apply faddr_agree|by right]. Qed.
Lemma file_ok_agree i : file_ok B ds c i -> file_ok B ds c' i.
Proof using Hc.
  intros [O1 O2 O3 O4 O5 O6]. assert (forall x, used_data B ds c x -> used_data B ds c' x) as Hu.
  { intros x [H1 H2]. split; [done|]. by rewrite <-is_free_agree. }
  constructor; try done.
  - intros b. rewrite <-faddr_agree. auto.
  - auto.
  - intros a b. rewrite <-!faddr_agree. apply O5.
  - intros b. rewrite <-faddr_agree. apply O6.
Qed.
Lemma file_inv_agree i : file_inv B ds c i -> file_inv B ds c' i.
Proof using Hc.
  intros [O M W N S P D]. constructor; try done.
  - by apply file_ok_agree.
  - intros b Hb. rewrite <-is_free_agree. by apply M.
  - intros p. rewrite <-faddr_agree. apply P.
  - unfold disk_inode in *. by rewrite <-Hc.
Qed.
End agree.

(** ** The finished image *)

Definition root_dir (files : list hostfile) : list Z := dot_entry ROOTINO [46] ++ dot_entry ROOTINO [46; 46] ++ entries 2 files.

(** The disk [c] is what mkfs makes of [files], with the first [used] blocks in
    use: the superblock, an empty log, the files in the inodes from 2 on and the
    directory in inode 1, each with what the kernel's readi relies on. *)
Record built (c : Z -> block) (files : list hostfile) (used : Z) : Prop := {
  bu_sb : sb_decode (c 1) = mksb;
  bu_log x : 2 <= x < 32 -> c x = zero_block;
  bu_used : used = nmeta + size_of (root_dir files) + total (made files);
  bu_map b : 0 <= b < FSSIZE -> is_free c mksb b = (used <=? b);
  bu_file k f : files !! k = Some f -> let i := inode_at c (2 + Z.of_nat k) in
    file_inv mksb nmeta c i /\ i_type i = T_FILE /\ i_nlink i = 1 /\ i_size i = Z.of_nat (length (content f)) /\
    file_bytes c i 0 (length (content f)) = content f;
  bu_root : let i := inode_at c ROOTINO in
    file_ok mksb nmeta c i /\ i_type i = T_DIR /\ i_size i = Z.of_nat (512 * (length (root_dir files) / 512 + 1)) /\
    (forall p, (p < MAXBN * 512)%nat -> fbyte c i p = default 0 (root_dir files !! p)) /\
    ((length (root_dir files) mod 512)%nat <> 0%nat -> file_inv mksb nmeta c i);
  bu_apart a b x : (a < b <= length files)%nat -> owned c (inode_at c (inum_of a)) x -> owned c (inode_at c (inum_of b)) x -> x = 0
}.

Lemma inv_of c n t f z addrs : (forall x, length (c x) = BSIZE) -> meta_used B ds c -> sound c (inode_at c n) f -> 0 <= n < NINODES ->
  inode_at c n = set_i_addrs addrs (hdr n t z) -> t = T_DIR \/ t = T_FILE -> Z.of_nat z <= 69120 -> (z <= 512 * nb (length f))%nat -> file_inv B ds c (inode_at c n).
Proof.
  intros Hl Hm [O [X _] _] Hn Hh Ht Hz Hzf. constructor; try done.
  - pose proof (addrs_u32 B ds Hly c _ O) as Ha. pose proof (fo_addrs _ _ _ _ O) as Hla. rewrite Hh in Ha, Hla |- *. cbn in Ha, Hla. constructor; cbn.
    + unfold is_s16, T_DIR, T_FILE in *. lia.
    + split; [unfold is_u32; lia|done].
    + by split.
    + done.
  - rewrite Hh. cbn. lia.
  - intros p Hp. rewrite Hh in Hp. cbn [i_size set_i_addrs hdr] in Hp. assert (p / 512 < nb (length f))%nat as Hb by (apply Nat.Div0.div_lt_upper_bound; lia).
    apply X; [|done]. unfold MAXBN. apply Nat.Div0.div_lt_upper_bound. lia.
  - rewrite Hh at 1. cbn [i_inum set_i_addrs hdr]. by apply disk_inode_at.
Qed.

Lemma file_bytes_sound c i f : sound c i f -> (length f <= MAXBN * 512)%nat -> i_size i = Z.of_nat (length f) -> file_bytes c i 0 (length f) = f.
Proof.
  intros [_ _ Y] Hm Hsz. apply list_eq. intros p. unfold file_bytes. rewrite Hsz, Nat2Z.id, list_lookup_fmap. rewrite Nat.min_l by lia.
  destruct (decide (p < length f)%nat) as [Hp|Hp].
  - rewrite lookup_seq_lt by done. cbn [fmap option_fmap option_map Nat.add]. rewrite Y by lia. destruct (lookup_lt_is_Some_2 f p Hp) as [x ->]. done.
  - rewrite !lookup_ge_None_2; [done|lia|]. rewrite length_seq. lia.
Qed.

Lemma built_agree c c' files used : (forall x, c x = c' x) -> built c files used -> built c' files used.
Proof.
  intros Hc [S L U M F R A]. constructor; try done.
  - by rewrite <-Hc.
  - intros x Hx. rewrite <-Hc. by apply L.
  - intros b Hb. rewrite <-(is_free_agree c) by done. by apply M.
  - intros k f Hk i. destruct (F k f Hk) as (F1 & F2 & F3 & F4 & F5). unfold i. rewrite <-(inode_at_agree c) by done. split_and!; try done; [by eapply file_inv_agree|].
    rewrite <-F5 at 2. unfold file_bytes. apply list_fmap_ext. intros p x _. symmetry. by apply fbyte_agree.
  - intros i. destruct R as (R1 & R2 & R3 & R4 & R5). unfold i. rewrite <-(inode_at_agree c) by done. split_and!; try done; [by eapply file_ok_agree| |].
    + intros p Hp. rewrite <-(fbyte_agree c) by done. by apply R4.
    + intros Hm. eapply file_inv_agree; [done|by apply R5].
  - intros a b x Hab H1 H2. rewrite <-!(inode_at_agree c) in * by done. eapply A; [done|eapply owned_agree; [exact Hc|exact H1]|by eapply owned_agree].
Qed.

(** The root directory gets the size of whole blocks. *)
Section finish.
Context (s : mst) (c : Z -> block) (files : list hostfile).
#[local] Abbreviation G := ((T_DIR, root_dir files) :: made files).
Hypothesis Him : image s c G.
Hypothesis HF : Z.of_nat (length files) + 1 < NINODES.
#[local] Abbreviation z := (512 * (length (root_dir files) / 512 + 1))%nat.
#[local] Abbreviation d := (put32 (dinb c 1) 8 (Z.of_nat z)).
#[local] Abbreviation c2 := (upd c (IBLOCK 1 B) (splice (dip_off 1) d (c (IBLOCK 1 B)))).

Lemma root_len : length (root_dir files) = (32 + 16 * length files)%nat.
Proof. unfold root_dir. rewrite !length_app, length_entries. done. Qed.

Lemma z_bound : (z <= 4096)%nat /\ (length (root_dir files) < z)%nat /\ ((length (root_dir files) mod 512)%nat <> 0%nat -> z = (512 * nb (length (root_dir files)))%nat).
Proof using HF.
  pose proof (Nat.div_mod (length (root_dir files)) 512 ltac:(lia)) as E. pose proof (Nat.mod_upper_bound (length (root_dir files)) 512 ltac:(lia)).
  pose proof root_len. unfold NINODES in HF. split; [lia|]. split; [lia|]. intros Hm. f_equal. symmetry. apply nb_unique. lia.
Qed.

Lemma G_len : length G = S (length files).
Proof. cbn [length]. unfold made. by rewrite length_fmap. Qed.

Lemma G_small : Z.of_nat (length G) < NINODES.
Proof using HF. rewrite G_len. lia. Qed.

Lemma root_evolves : evolves B ds c (inode_at c (inum_of 0)) (fbyte c (inode_at c (inum_of 0))) c (inode_at c (inum_of 0)).
Proof using Him.
  pose proof (im_lays _ _ _ Him) as Hs. apply grows_refl; [apply (im_holds _ _ _ Him 0 (T_DIR, root_dir files)); done|by eapply lays_meta|by eapply lays_len].
Qed.

Lemma d_len : length d = 64%nat.
Proof using Him. rewrite length_put32. apply length_dinb. eapply lays_len, (im_lays _ _ _ Him). Qed.

Lemma root_fixed : inode_at c2 1 = set_i_size (Z.of_nat z) (inode_at c 1) /\
  inode_at c2 1 = set_i_addrs (i_addrs (inode_at c 1)) (hdr 1 T_DIR z) /\ sound c2 (inode_at c2 1) (root_dir files).
Proof using Him HF.
  pose proof (im_lays _ _ _ Him) as Hs. destruct (im_holds _ _ _ Him 0%nat (T_DIR, root_dir files) eq_refl) as [Hso Hh _]. cbn [fst snd] in *. change (inum_of 0) with 1 in *.
  pose proof (at_self c G 0 _ c _ d G_small ltac:(rewrite G_len; lia) root_evolves d_len) as E1. change (inum_of 0) with 1 in E1. destruct z_bound as [Hz _].
  rewrite ino_put_size in E1; [|apply length_dinb; by eapply lays_len|unfold is_u32; lia]. fold (inode_at c 1) in E1. split; [done|]. split.
  - rewrite E1, Hh. done.
  - rewrite E1. apply (sound_addrs _ (inode_at c 1)); [done|by rewrite Hh|]. apply low_sound; [vm_compute; done|done].
Qed.

Lemma file_built s2 k f : lays s2 c2 -> files !! k = Some f -> let i := inode_at c2 (2 + Z.of_nat k) in
  file_inv B ds c2 i /\ i_type i = T_FILE /\ i_nlink i = 1 /\ i_size i = Z.of_nat (length (content f)) /\
  file_bytes c2 i 0 (length (content f)) = content f.
Proof using Him HF.
  intros Hs2 Hk i. pose proof (lookup_lt_Some _ _ _ Hk) as Hlt. assert (G !! S k = Some (T_FILE, content f)) as HG.
  { change (G !! S k) with (made files !! k). unfold made. by rewrite list_lookup_fmap, Hk. }
  pose proof (other_holds s c G 0 _ c _ d Him G_small ltac:(rewrite G_len; lia) root_evolves d_len (S k) _ HG ltac:(done)) as [Hso Hh Hm].
  cbn [fst snd] in *. change (inum_of 0) with 1 in *. replace (inum_of (S k)) with (2 + Z.of_nat k) in * by (unfold inum_of; lia).
  pose proof (nb_spec (length (content f))). unfold MAXBN in Hm. fold i in Hso, Hh. assert (i_size i = Z.of_nat (length (content f))) as Esz by (by rewrite Hh).
  split_and!; [|by rewrite Hh|by rewrite Hh|done|by apply file_bytes_sound].
  eapply (inv_of c2 _ T_FILE (content f)); [by eapply lays_len|by eapply lays_meta|done|unfold NINODES in *; lia|exact Hh|by right|lia|lia].
Qed.

Lemma fixed_built s2 : lays s2 c2 -> freeblock s2 = freeblock s -> built c2 files (freeblock s2).
Proof using Him HF.
  intros Hs2 Efb. destruct root_fixed as (E1 & E2 & Hso). destruct z_bound as (Hz & _ & Hzn).
  pose proof (iblock_image 1 ltac:(unfold NINODES; lia)) as [_ Hib].
  constructor.
  - rewrite upd_ne by lia. rewrite (im_low _ _ _ Him) by lia. vm_compute. reflexivity.
  - intros x Hx. rewrite upd_ne by lia. rewrite (im_low _ _ _ Him) by lia. by rewrite decide_False by lia.
  - rewrite Efb, (im_fb _ _ _ Him), total_cons. cbn [snd]. lia.
  - intros b Hb. by apply lays_free.
  - intros k f. by apply (file_built s2).
  - change ROOTINO with 1. split_and!; [apply Hso|by rewrite E2|by rewrite E2|apply Hso|]. intros Hm.
    eapply (inv_of c2 1 T_DIR (root_dir files)); [by eapply lays_len|by eapply lays_meta|done|unfold NINODES; lia|exact E2|by left|lia|]. rewrite <-Hzn; done.
  - intros a b x Hab H1 H2. destruct (decide (a = 0%nat)) as [->|Ha].
    + eapply (self_disjoint s c G 0 _ c _ d Him G_small ltac:(rewrite G_len; lia) root_evolves d_len ltac:(by rewrite ino_put_size; [|apply length_dinb; eapply lays_len, (im_lays _ _ _ Him)|unfold is_u32; lia]) b x);
        [rewrite G_len; lia|lia|exact H1|exact H2].
    + pose proof (other_owned s c G 0 _ c _ d Him G_small ltac:(rewrite G_len; lia) root_evolves d_len) as Ho.
      rewrite Ho in H1, H2 by (rewrite ?G_len; lia). eapply (im_disj _ _ _ Him a b); [rewrite G_len; lia|rewrite G_len; lia|lia|done|done].
Qed.

Lemma R_finish : wp (fix_root ROOTINO ;; used ← gets freeblock; balloc used) (λ _ s', built (img s') files (freeblock s') /\ forall x, length (img s' x) = BSIZE) s.
Proof using Him HF.
  pose proof (im_lays _ _ _ Him) as Hs. destruct (im_holds _ _ _ Him 0%nat (T_DIR, root_dir files) eq_refl) as [Hso Hh _]. cbn [fst snd] in *. change (inum_of 0) with 1 in *.
  destruct z_bound as [Hz _]. unfold fix_root. change ROOTINO with 1. apply wp_bind, wp_bind. apply (R_rinode s c); [done|unfold NINODES; lia|].
  change (get32 (dinb c 1) 8) with (i_size (inode_at c 1)). rewrite Hh. cbn [i_size set_i_addrs hdr].
  assert (u32 ((Z.of_nat (length (root_dir files)) / BSZ + 1) * BSZ) = Z.of_nat z) as ->.
  { unfold BSZ. change 512 with (Z.of_nat 512). rewrite <-Nat2Z.inj_div. rewrite u32_id by (unfold is_u32; lia). lia. }
  apply (R_winode s c); [done|unfold NINODES; lia|]. intros s2 Hs2 Efb2 Efi2. apply wp_bind, wp_gets. unfold balloc.
  pose proof (la_fb _ _ Hs2) as Hfb. unfold FSSIZE in Hfb. rewrite (proj2 (Z.ltb_lt _ _)) by (unfold BSZ; lia). apply wp_modify. cbn [img freeblock]. change (sect (sb_bmapstart B)) with 58.
  split; [|intros x; unfold upd; case_decide; [apply length_bitmap|apply (la_blk _ _ Hs2)]]. eapply built_agree; [|by apply (fixed_built s2)]. intros x. unfold upd at 2. rewrite (la_c _ _ Hs2). by case_decide.
Qed.
End finish.

(** The root directory with its two entries. *)
Definition dots : list Z := dot_entry ROOTINO [46] ++ dot_entry ROOTINO [46; 46].

Lemma R_root s c (K : Z -> M mst unit) Q : image s c [] -> nmeta + size_of dots <= FSSIZE ->
  (forall s' c', image s' c' [(T_DIR, dots)] -> wp (K ROOTINO) Q s') ->
  wp (rootino ← ialloc T_DIR;
      if negb (rootino =? ROOTINO) then panic "assert"
      else iappend rootino (dot_entry rootino [46]) ;; iappend rootino (dot_entry rootino [46; 46]) ;; K rootino) Q s.
Proof.
  unfold dots. intros H0 Hroom HK. apply wp_bind. apply (R_ialloc s c []); [done|done|by left|]. intros s1 c1 H1 E1. change (inum_of (length [])) with ROOTINO.
  change (negb (ROOTINO =? ROOTINO)) with false. cbv iota. set (d1 := dot_entry ROOTINO [46]) in *. set (d2 := dot_entry ROOTINO [46; 46]) in *.
  assert (length d1 = 16 /\ length d2 = 16)%nat as [L1 L2] by done. pose proof (size_of_le d1 (d1 ++ d2) ltac:(rewrite length_app; lia)) as S1.
  pose proof (im_fb _ _ _ H1) as F1. change (total ([] ++ [(T_DIR, [])])) with 0 in F1.
  apply wp_bind. change ROOTINO with (inum_of 0) at 1. eapply (R_iappend s1 c1 _ 0 T_DIR []); [exact H1|done|done|rewrite L1; unfold MAXBN; cbn [length]; lia|cbn [app]; change (size_of []) with 0; lia|].
  intros s2 c2 H2. cbn [app] in H2. change (<[0%nat := (T_DIR, d1)]> [(T_DIR, [])]) with [(T_DIR, d1)] in H2. pose proof (im_fb _ _ _ H2) as F2. rewrite total_cons in F2. cbn [snd] in F2.
  change (total []) with 0 in F2. apply wp_bind. change ROOTINO with (inum_of 0) at 1. eapply (R_iappend s2 c2 _ 0 T_DIR d1); [exact H2|done|done|unfold MAXBN; lia|lia|].
  intros s3 c3 H3. by apply (HK s3 c3).
Qed.

Lemma mkfs_wp files : Z.of_nat (length files) + 1 < NINODES -> Forall readable files -> nmeta + size_of (root_dir files) + total (made files) <= FSSIZE ->
  wp (mkfs files) (λ _ s', built (img s') files (freeblock s') /\ forall x, length (img s' x) = BSIZE) mst0.
Proof.
  intros Hn Hr Hroom. unfold mkfs. apply R_start. intros s c H0. pose proof (total_pos (made files)).
  assert (root_dir files = dots ++ entries (inum_of 1) files) as Er by (unfold root_dir, dots; by rewrite <-app_assoc).
  pose proof (size_of_le dots (root_dir files) ltac:(rewrite Er, length_app; lia)) as Hle.
  apply (R_root s c (λ rootino, add_files rootino files ;; fix_root rootino ;; used ← gets freeblock; balloc used)); [done|lia|].
  intros s1 c1 H1. pose proof (im_fb _ _ _ H1) as F1. rewrite total_cons in F1. cbn [snd] in F1. change (total []) with 0 in F1.
  apply wp_bind. apply (R_add_files files s1 c1 dots [] _ H1 Hr); cbn [length].
  - lia.
  - change (length dots) with 32%nat. unfold NINODES, MAXBN in *. lia.
  - rewrite <-Er. lia.
  - intros s2 c2 H2. rewrite <-Er in H2. by eapply R_finish.
Qed.

(** C15: mkfs makes a file system the kernel can use from any host files that fit:
    the image has the superblock, an empty log and a free map that marks exactly
    the blocks in use; each file is in the inode after the ones before it, with
    the invariant readi and writei rely on and exactly the bytes read from the
    host; the root directory has an entry for each of them and zeros to the end;
    and no two files share a block. *)
Theorem mkfs_image files (Hn : Z.of_nat (length files) + 1 < NINODES) (Hr : Forall readable files)
  (Hroom : nmeta + size_of (root_dir files) + total (made files) <= FSSIZE) :
  wp (mkfs files) (λ _ s', built (img s') files (freeblock s')) mst0.
Proof. eapply wp_mono; [by apply mkfs_wp|]. by intros ? s' [? _]. Qed.

(** C16: A kernel that boots from the image and has the inode of the file in its
    cache reads what the host's file holds. *)
Theorem mkfs_then_read files dev_read k f n (Hn : Z.of_nat (length files) + 1 < NINODES) (Hr : Forall readable files)
  (Hroom : nmeta + size_of (root_dir files) + total (made files) <= FSSIZE) (Hk : files !! k = Some f) (Hlen : (length (content f) <= n)%nat) (Hmax : Z.of_nat n < 2 ^ 31) :
  exists s', mkfs files mst0 = Ret tt s' /\ let i := inode_at (img s') (2 + Z.of_nat k) in
    wp (readi (BL := bio_layer FSSIZE 1) dev_read 0 0 (Z.of_nat n))
      (λ r _, r = (Z.of_nat (length (content f)), content f)) (boot_state (img s') mksb [i]).
Proof.
  destruct (wp_inv _ _ _ (mkfs_wp files Hn Hr Hroom)) as ([] & s' & E & [Hb Hl]). exists s'. split; [done|]. intros i.
  destruct (bu_file _ _ _ Hb k f Hk) as (Hinv & Hty & _ & Hsz & Hby). fold i in Hinv, Hty, Hsz, Hby.
  assert (file_bytes (img s') i 0 n = content f) as En.
  { rewrite <-Hby. unfold file_bytes. rewrite Hsz, Nat2Z.id. do 2 f_equal. lia. }
  eapply (R_readi (BW := bio_laws FSSIZE 1) mksb nmeta Hly dev_read [i] (img s') i 0 _ 0 0 n); [|done|exact Hinv|by rewrite Hty|rewrite Hsz; lia|done|].
  - apply boot_fsees_n; [exact Hl|by vm_compute..|lia].
  - intros s2 _. by rewrite En.
Qed.

(** A file of the host with the name _a, read in two parts. *)
Definition demo_files : list hostfile := [([95; 97], Some [[104; 105]; [33]])].

Lemma demo_readable : Forall readable demo_files.
Proof.
  constructor; [|done]. split; [cbn; rewrite !not_elem_of_cons; split_and!; [lia|lia|apply not_elem_of_nil]|].
  eexists. split; [done|]. split; [by repeat constructor|]. unfold MAXBN. cbn [concat length app]. lia.
Qed.

Lemma demo_room : nmeta + size_of (root_dir demo_files) + total (made demo_files) = 61.
Proof. vm_compute. reflexivity. Qed.

Lemma mkfs_image_witness : exists s', mkfs demo_files mst0 = Ret tt s' /\ freeblock s' = 61.
Proof.
  destruct (wp_inv _ _ _ (mkfs_image demo_files ltac:(vm_compute; done) demo_readable ltac:(rewrite demo_room; unfold FSSIZE; lia))) as ([] & s' & E & Hb).
  exists s'. split; [exact E|]. rewrite (bu_used _ _ _ Hb). exact demo_room.
Defined.

Lemma mkfs_then_read_witness : exists s', mkfs demo_files mst0 = Ret tt s' /\
  wp (readi (BL := bio_layer FSSIZE 1) (λ _, None) 0 0 512) (λ r _, r = (3, [104; 105; 33])) (boot_state (img s') mksb [inode_at (img s') 2]).
Proof.
  exact (mkfs_then_read demo_files (λ _, None) 0 _ 512 ltac:(vm_compute; done) demo_readable ltac:(rewrite demo_room; unfold FSSIZE; lia) eq_refl ltac:(cbn; lia) ltac:(lia)).
Defined.
