(* ===== verification/Threads.v ===== *)
(** * Threads over a shared array

    A thread as the tree of its reads and writes of a global array, and several
    of them interleaved access by access.  Threads that keep to ranges of their
    own do there, under every schedule, what they do alone. *)

From S2P Require Import Prelude.

(** ** Programs *)

Inductive prog (A : Type) :=
| Done (a : A)
| Rd (i : nat) (k : Z -> prog A)
| Wr (i : nat) (v : Z) (p : prog A).
Arguments Done {A}.
Arguments Rd {A}.
Arguments Wr {A}.

#[export] Instance prog_ret : MRet prog := @Done.
#[export] Instance prog_bind : MBind prog := fun A C f =>
  fix go p := match p with Done a => f a | Rd i k => Rd i (fun v => go (k v)) | Wr i v p => Wr i v (go p) end.

Definition mem : Type := nat -> Z.
Definition setm (m : mem) (i : nat) (v : Z) : mem := fun j => if decide (j = i) then v else m j.

(** Alone. *)
Fixpoint run {A} (p : prog A) (m : mem) : A * mem :=
  match p with Done a => (a, m) | Rd i k => run (k (m i)) m | Wr i v p => run p (setm m i v) end.

(** All accesses are from [lo] up to [hi]. *)
Fixpoint within {A} (lo hi : nat) (p : prog A) : Prop :=
  match p with
  | Done _ => True
  | Rd i k => (lo <= i < hi)%nat /\ forall v, within lo hi (k v)
  | Wr i v p => (lo <= i < hi)%nat /\ within lo hi p
  end.

Definition agree (lo hi : nat) (m m' : mem) : Prop := forall j, (lo <= j < hi)%nat -> m j = m' j.

(** ** Schedules *)

Abbreviation pool := (list (prog unit)).

Inductive pstep : mem * pool -> mem * pool -> Prop :=
| st_rd m ps t i k : ps !! t = Some (Rd i k) -> pstep (m, ps) (m, <[t := k (m i)]> ps)
| st_wr m ps t i v p : ps !! t = Some (Wr i v p) -> pstep (m, ps) (setm m i v, <[t := p]> ps).

Definition finished (ps : pool) : Prop := Forall (fun p => p = Done tt) ps.

(** Every schedule ends, with all threads done and [P] true of the array. *)
Definition always (P : mem -> Prop) : mem * pool -> Prop := ends pstep (fun s => finished s.2 /\ P s.1).

(** ** Laws of a single thread *)

Lemma run_bind {A C} (p : prog A) (f : A -> prog C) m : run (p ≫= f) m = let '(a, m') := run p m in run (f a) m'.
Proof. revert m. induction p as [a|i k IH|i v p IH]; intros m; cbn; [done|apply IH|apply IH]. Qed.

(** All accesses are in the range and every result satisfies [Q]. *)
Fixpoint keeps {A} (lo hi : nat) (Q : A -> Prop) (p : prog A) : Prop :=
  match p with
  | Done a => Q a
  | Rd i k => (lo <= i < hi)%nat /\ forall v, keeps lo hi Q (k v)
  | Wr i v p => (lo <= i < hi)%nat /\ keeps lo hi Q p
  end.

Lemma prog_keeps_bind {A C} lo hi Q R (p : prog A) (f : A -> prog C) : keeps lo hi Q p -> (forall a, Q a -> keeps lo hi R (f a)) -> keeps lo hi R (p ≫= f).
Proof. intros Hp Hf. induction p as [a|i k IH|i v p IH]; cbn in *; [by apply Hf|split; [apply Hp|]; intros; apply IH, Hp|split; [apply Hp|apply IH, Hp]]. Qed.

Lemma keeps_within {A} lo hi Q (p : prog A) : keeps lo hi Q p -> within lo hi p.
Proof. induction p as [a|i k IH|i v p IH]; cbn; [done|intros [H Hk]; split; [done|]; intros v; by apply IH|intros [H Hp]; split; [done|by apply IH]]. Qed.

Lemma within_keeps {A} lo hi (p : prog A) : within lo hi p -> keeps lo hi (fun _ => True) p.
Proof. induction p as [a|i k IH|i v p IH]; cbn; [done|intros [H Hk]; split; [done|]; intros v; by apply IH|intros [H Hp]; split; [done|by apply IH]]. Qed.

Lemma within_bind {A C} lo hi (p : prog A) (f : A -> prog C) : within lo hi p -> (forall a, within lo hi (f a)) -> within lo hi (p ≫= f).
Proof. intros Hp Hf. eapply keeps_within, prog_keeps_bind; [by apply within_keeps|]. intros a _. by apply within_keeps. Qed.

Lemma within_mono {A} lo hi lo' hi' (p : prog A) : (lo' <= lo)%nat -> (hi <= hi')%nat -> within lo hi p -> within lo' hi' p.
Proof.
  intros H1 H2. induction p as [a|i k IH|i v p IH]; cbn; [done|..].
  - intros [H Hk]. split; [lia|]. intros v. by apply IH.
  - intros [H Hp]. split; [lia|]. by apply IH.
Qed.

Lemma run_frame {A} lo hi (p : prog A) m j : within lo hi p -> ~ (lo <= j < hi)%nat -> (run p m).2 j = m j.
Proof.
  revert m. induction p as [a|i k IH|i v p IH]; intros m Hw Hj; cbn in *; [done|by apply IH; [apply Hw|]|].
  rewrite IH by (done || apply Hw). unfold setm. rewrite decide_False; [done|]. intros ->. by apply Hj, Hw.
Qed.

Lemma agree_set lo hi m m' i v : agree lo hi m m' -> agree lo hi (setm m i v) (setm m' i v).
Proof. intros H j Hj. unfold setm. case_decide; [done|by apply H]. Qed.

Lemma run_local {A} lo hi (p : prog A) m m' : within lo hi p -> agree lo hi m m' ->
  (run p m).1 = (run p m').1 /\ agree lo hi (run p m).2 (run p m').2.
Proof.
  revert m m'. induction p as [a|i k IH|i v p IH]; intros m m' Hw Ha; cbn in *; [done|..].
  - rewrite (Ha i) by apply Hw. by apply IH; [apply Hw|].
  - apply IH; [apply Hw|by apply agree_set].
Qed.

(** ** Every schedule ends *)

Definition psub (p' p : prog unit) : Prop := match p with Done _ => False | Rd _ k => exists v, p' = k v | Wr _ _ q => p' = q end.

Lemma psub_wf p : Acc psub p.
Proof. induction p as [a|i k IH|i v p IH]; constructor; cbn; [done|by intros y [v ->]|by intros y ->]. Qed.

Definition lsub (ps' ps : pool) : Prop := exists t p p', ps !! t = Some p /\ psub p' p /\ ps' = <[t := p']> ps.

Lemma lsub_wf ps : Acc lsub ps.
Proof.
  induction ps as [|p ps IH]; [constructor; by intros y (t & p & p' & Ht & _)|].
  revert p. enough (forall p, Acc psub p -> Acc lsub (p :: ps)) by eauto using psub_wf. intros p Hp. revert ps IH.
  induction Hp as [p _ IHp]. intros ps Hps. induction Hps as [ps Hps IHps].
  constructor. intros y ([|t] & q & q' & Ht & Hq & ->); cbn in Ht |- *.
  - injection Ht as <-. apply IHp; [done|]. by constructor.
  - apply IHps. exists t, q, q'. done.
Qed.

Lemma pstep_lsub s s' : pstep s s' -> lsub s'.2 s.2.
Proof. intros [m ps t i k H|m ps t i v p H]; cbn; [exists t, (Rd i k), (k (m i))|exists t, (Wr i v p), p]; split_and!; try done. by exists (m i). Qed.

Lemma finished_or_step m (ps : pool) : finished ps \/ exists s', pstep (m, ps) s'.
Proof.
  induction ps as [|p ps [IH|(s' & Hs)]]; [left; constructor|..].
  - destruct p as [[]|i k|i v p]; [left; by constructor|right; eexists; by apply (st_rd _ _ 0)|right; eexists; by apply (st_wr _ _ 0)].
  - right. inversion Hs; subst; eexists; [by eapply (st_rd _ _ (S t))|by eapply (st_wr _ _ (S t))].
Qed.

(** An invariant that gives [P] when all threads are done. *)
Lemma always_intro (I : mem * pool -> Prop) P : (forall s s', I s -> pstep s s' -> I s') -> (forall m ps, I (m, ps) -> finished ps -> P m) ->
  forall s, I s -> always P s.
Proof.
  intros Hstep Hend s HI. apply (ends_intro pstep I _ snd lsub); [|intros [m ps] H|done|apply lsub_wf].
  - intros s1 s2 H1 H2. split; [by eapply Hstep|by apply pstep_lsub].
  - destruct (finished_or_step m ps) as [Hf|Hs]; [left; split; [done|by eapply Hend]|by right].
Qed.

Lemma always_mono (P Q : mem -> Prop) s : (forall m, P m -> Q m) -> always P s -> always Q s.
Proof. intros H. apply ends_mono. intros s' [H1 H2]. split; auto. Qed.

(** ** Threads with ranges of their own *)

Record range_of := Range { r_lo : nat; r_hi : nat }.

Definition apart (rs : list range_of) : Prop :=
  forall a b r r', rs !! a = Some r -> rs !! b = Some r' -> a <> b -> (r_hi r <= r_lo r' \/ r_hi r' <= r_lo r)%nat.

(** What is left of each thread, run alone, fills its range as the whole thread
    would have done from the start. *)
Record alone (rs : list range_of) (ps0 : pool) (m0 : mem) (s : mem * pool) : Prop := {
  an_len : length s.2 = length ps0;
  an_within t r p : rs !! t = Some r -> s.2 !! t = Some p -> within (r_lo r) (r_hi r) p;
  an_range t r p p0 : rs !! t = Some r -> s.2 !! t = Some p -> ps0 !! t = Some p0 ->
    agree (r_lo r) (r_hi r) (run p s.1).2 (run p0 m0).2;
  an_frame j : (forall t r, rs !! t = Some r -> ~ (r_lo r <= j < r_hi r)%nat) -> s.1 j = m0 j
}.

Section noninterference.
Context (rs : list range_of) (ps0 : pool) (m0 : mem).
Hypothesis Hlen : length rs = length ps0.
Hypothesis Hap : apart rs.

Lemma alone_start : (forall t r p, rs !! t = Some r -> ps0 !! t = Some p -> within (r_lo r) (r_hi r) p) -> alone rs ps0 m0 (m0, ps0).
Proof. intros Hw. constructor; cbn; try done. intros t r p p0 Hr Hp Hp0. rewrite Hp in Hp0. by injection Hp0 as <-. Qed.

Lemma alone_step s s' : alone rs ps0 m0 s -> pstep s s' -> alone rs ps0 m0 s'.
Proof using Hlen Hap.
  intros [L W R F] Hst. destruct Hst as [m ps t i k Ht|m ps t i v p Ht]; cbn [fst snd] in *.
  - constructor; cbn [fst snd]; [by rewrite length_insert|..|exact F].
    + intros u r q Hr Hu. apply list_lookup_insert_Some in Hu as [(<- & <- & _)|[_ Hu]]; [|by eapply W]. by apply (W t r (Rd i k)).
    + intros u r q q0 Hr Hu Hq0. apply list_lookup_insert_Some in Hu as [(<- & <- & _)|[_ Hu]]; [|by eapply R]. by apply (R t r (Rd i k) q0).
  - assert (exists r, rs !! t = Some r) as [rt Hrt] by (apply lookup_lt_is_Some_2; rewrite Hlen, <-L; by eapply lookup_lt_Some).
    destruct (W t rt (Wr i v p) Hrt Ht) as [Hi Hwp]. constructor; cbn [fst snd]; [by rewrite length_insert|..].
    + intros u r q Hr Hu. apply list_lookup_insert_Some in Hu as [(<- & <- & _)|[_ Hu]]; [|by eapply W]. rewrite Hrt in Hr. by injection Hr as <-.
    + intros u r q q0 Hr Hu Hq0. apply list_lookup_insert_Some in Hu as [(<- & <- & _)|[Hne Hu]]; [by apply (R t r (Wr i v p) q0)|].
      intros j Hj. rewrite <-(R u r q q0 Hr Hu Hq0 j Hj). apply (run_local (r_lo r) (r_hi r)); [by eapply W| |done].
      intros x Hx. unfold setm. rewrite decide_False; [done|]. intros ->. destruct (Hap t u rt r Hrt Hr Hne); lia.
    + intros j Hj. unfold setm. rewrite decide_False; [by apply F|]. intros ->. by apply (Hj t rt).
Qed.

Lemma alone_end m ps t r p0 : alone rs ps0 m0 (m, ps) -> finished ps -> rs !! t = Some r -> ps0 !! t = Some p0 ->
  agree (r_lo r) (r_hi r) m (run p0 m0).2.
Proof.
  intros [L W R F] Hf Hr Hp0. cbn in *. assert (exists p, ps !! t = Some p) as [p Hp] by (apply lookup_lt_is_Some_2; rewrite L; by eapply lookup_lt_Some).
  pose proof (R t r p p0 Hr Hp Hp0) as H. unfold finished in Hf. rewrite Forall_lookup in Hf. by rewrite (Hf t p Hp) in H.
Qed.
End noninterference.
