(* ===== verification/MergeSort.v ===== *)
(** * A merge sort in four threads (extra/prac_pthread.c)

    The global array is the memory of [Threads.v]; the copies that merge makes
    with malloc are lists, and malloc and pthread_create are taken to succeed.
    MAX_NUM, 40000000 in the source, is the argument [n] of the definitions. *)

From stdpp Require Import sorting.
From S2P Require Import Prelude Threads.

Definition NUM_THREADS : nat := 4.

(** for (i = 0; i < n; i++) if (arr[i] != i) return 0; *)
Fixpoint check_from (i n : nat) (m : mem) : bool :=
  match n with O => true | S n' => if m i =? Z.of_nat i then check_from (S i) n' m else false end.
Definition check_sorted (n : nat) (m : mem) : bool := check_from 0 n m.

(** left[i] = arr[i + low]; *)
Fixpoint read_from (k n : nat) : prog (list Z) :=
  match n with O => mret [] | S n' => Rd k (fun x => l ← read_from (S k) n'; mret (x :: l)) end.

(** while(i < n1) arr[k++] = left[i++]; *)
Fixpoint write_all (k : nat) (l : list Z) : prog unit :=
  match l with [] => mret tt | x :: l' => Wr k x (write_all (S k) l') end.

(** The three loops that fill the array, on what is left of the two copies. *)
Fixpoint merge_out (l : list Z) : list Z -> nat -> prog unit :=
  match l with
  | [] => fun r k => write_all k r
  | x :: l' =>
      fix go (r : list Z) (k : nat) : prog unit :=
        match r with
        | [] => write_all k (x :: l')
        | y :: r' => if x <=? y then Wr k x (merge_out l' r (S k)) else Wr k y (go r' (S k))
        end
  end.

Definition merge (low mid high : nat) : prog unit :=
  left ← read_from low (mid - low + 1);
  right ← read_from (mid + 1) (high - mid);
  merge_out left right low.

Fixpoint merge_sort (fuel low high : nat) : prog unit :=
  match fuel with
  | O => mret tt
  | S fuel' =>
      let mid := (low + (high - low) / 2)%nat in
      if (low <? high)%nat then
        merge_sort fuel' low mid ;; merge_sort fuel' (mid + 1) high ;; merge low mid high
      else mret tt
  end.

(** The thread function; the recursion goes less deep than the array is long. *)
Definition merge_sort_ (n taskid : nat) : prog unit :=
  let low := (taskid * (n / NUM_THREADS))%nat in
  let high := ((taskid + 1) * (n / NUM_THREADS) - 1)%nat in
  let mid := (low + (high - low) / 2)%nat in
  if (low <? high)%nat then
    merge_sort n low mid ;; merge_sort n (mid + 1) high ;; merge low mid high
  else mret tt.

(** main: the shuffle, with [rnd] for what rand returns, the threads, and the
    merges after they are joined. *)
Definition iota : mem := fun i => Z.of_nat i.
Fixpoint shuffle (i : nat) (rnd : nat -> nat) (m : mem) : mem :=
  match i with
  | O => m
  | S i' =>
      let j := (rnd i mod (i + 1))%nat in
      let t := m i in
      let m := setm m i (m j) in
      shuffle i' rnd (setm m j t)
  end.
Definition threads (n : nat) : pool := merge_sort_ n <$> seq 0 NUM_THREADS.
Definition last_merges (n : nat) : prog unit :=
  merge 0 ((n / 2 - 1) / 2) (n / 2 - 1) ;;
  merge (n / 2) (n / 2 + (n - 1 - n / 2) / 2) (n - 1) ;;
  merge 0 ((n - 1) / 2) (n - 1).

(** ** Parts of the array *)

Definition seg (m : mem) (lo n : nat) : list Z := m <$> seq lo n.

Lemma length_seg m lo n : length (seg m lo n) = n.
Proof. unfold seg. by rewrite length_fmap, length_seq. Qed.
Lemma seg_S m lo n : seg m lo (S n) = m lo :: seg m (S lo) n.
Proof. done. Qed.
Lemma seg_join m lo a b : seg m lo (a + b) = seg m lo a ++ seg m (lo + a) b.
Proof. unfold seg. by rewrite seq_app, fmap_app. Qed.
Lemma seg_agree m m' lo n : agree lo (lo + n) m m' -> seg m lo n = seg m' lo n.
Proof. intros H. unfold seg. apply list_fmap_ext. intros k x [-> Hk]%lookup_seq. apply H. lia. Qed.
Lemma seg_lookup m lo n k : (k < n)%nat -> seg m lo n !! k = Some (m (lo + k)%nat).
Proof. intros Hk. unfold seg. by rewrite list_lookup_fmap, lookup_seq_lt. Qed.

Lemma run_read k n m : run (read_from k n) m = (seg m k n, m).
Proof. revert k. induction n as [|n IH]; intros k; [done|]. cbn [read_from run]. rewrite run_bind, IH. done. Qed.
Lemma keeps_read lo hi k n : (lo <= k)%nat -> (k + n <= hi)%nat -> keeps lo hi (fun l => length l = n) (read_from k n).
Proof.
  revert k. induction n as [|n IH]; intros k Hk Hn; [done|]. cbn [read_from keeps]. split; [lia|]. intros v. eapply prog_keeps_bind; [apply IH; lia|].
  intros l Hl. cbn. by rewrite Hl.
Qed.

Lemma run_write l : forall k m j, (run (write_all k l) m).2 j = if decide (k <= j < k + length l)%nat then default 0 (l !! (j - k)%nat) else m j.
Proof.
  induction l as [|x l IH]; intros k m j; cbn [write_all run length]; [rewrite decide_False by lia; done|].
  rewrite IH. unfold setm. destruct (decide (j = k)) as [->|Hne].
  - rewrite decide_False by lia. rewrite decide_True by lia. by rewrite Nat.sub_diag.
  - repeat case_decide; try lia; try done. by replace (j - k)%nat with (S (j - S k)) by lia.
Qed.
Lemma within_write lo hi k l : (lo <= k)%nat -> (k + length l <= hi)%nat -> within lo hi (write_all k l).
Proof. revert k. induction l as [|x l IH]; intros k Hk Hl; cbn in *; [done|]. split; [lia|]. apply IH; lia. Qed.
Lemma seg_write k l m : seg (run (write_all k l) m).2 k (length l) = l.
Proof.
  apply list_eq. intros i. destruct (decide (i < length l)%nat) as [Hi|Hi].
  - rewrite seg_lookup by done. rewrite run_write, decide_True by lia. rewrite Nat.add_comm, Nat.add_sub. by destruct (lookup_lt_is_Some_2 l i Hi) as [x ->].
  - rewrite !lookup_ge_None_2; rewrite ?length_seg; done || lia.
Qed.

(** ** merge *)

(** The loops write the merge of the two lists. *)
Lemma merge_out_eq l r k : merge_out l r k = write_all k (list_merge Z.le l r).
Proof.
  revert r k. induction l as [|x l IHl]; intros r; [by destruct r|]. induction r as [|y r IHr]; intros k; [done|].
  rewrite list_merge_cons. cbn [merge_out]. destruct (Z.leb_spec x y).
  - rewrite decide_True by lia. cbn [write_all]. f_equal. apply IHl.
  - rewrite decide_False by lia. cbn [write_all]. f_equal. apply IHr.
Qed.

Lemma length_merge l r : length (list_merge Z.le l r) = (length l + length r)%nat.
Proof. rewrite (merge_Permutation Z.le l r). apply length_app. Qed.

Section merge.
Context (low mid high : nat).
Hypothesis Hr : (low <= mid < high)%nat.

Lemma within_merge : within low (S high) (merge low mid high).
Proof using Hr.
  unfold merge. eapply keeps_within, prog_keeps_bind; [apply keeps_read; lia|]. intros l Hl. eapply prog_keeps_bind; [apply keeps_read; lia|]. intros r Hr'.
  apply within_keeps. rewrite merge_out_eq. apply within_write; [done|]. rewrite length_merge. cbv beta in *. lia.
Qed.

Lemma seg_merge m : seg (run (merge low mid high) m).2 low (S high - low) =
  list_merge Z.le (seg m low (mid - low + 1)) (seg m (mid + 1) (high - mid)).
Proof using Hr.
  unfold merge. rewrite run_bind, run_read. cbv iota beta. rewrite run_bind, run_read. cbv iota beta. rewrite merge_out_eq.
  set (l := list_merge _ _ _). assert (length l = S high - low)%nat as <- by (unfold l; rewrite length_merge, !length_seg; lia). apply seg_write.
Qed.

(** Two sorted halves become one sorted part with the same numbers. *)
Lemma merge_sorts m m0 : Sorted Z.le (seg m low (mid - low + 1)) -> Sorted Z.le (seg m (mid + 1) (high - mid)) ->
  seg m low (S high - low) ≡ₚ seg m0 low (S high - low) ->
  let m' := (run (merge low mid high) m).2 in
  Sorted Z.le (seg m' low (S high - low)) /\ seg m' low (S high - low) ≡ₚ seg m0 low (S high - low).
Proof using Hr.
  intros H1 H2 Hp m'. unfold m'. rewrite seg_merge. split; [apply Sorted_list_merge; [exact _|exact H1|exact H2]|]. rewrite merge_Permutation, <-Hp.
  replace (S high - low)%nat with ((mid - low + 1) + (high - mid))%nat by lia. rewrite (seg_join m low (mid - low + 1)). replace (low + (mid - low + 1))%nat with (mid + 1)%nat by lia. reflexivity.
Qed.
End merge.

(** ** merge_sort *)

Definition sorts (lo hi : nat) (p : prog unit) : Prop :=
  within lo hi p /\ forall m, Sorted Z.le (seg (run p m).2 lo (hi - lo)) /\ seg (run p m).2 lo (hi - lo) ≡ₚ seg m lo (hi - lo).

Lemma seg_frame {A} lo hi (p : prog A) m k n : within lo hi p -> (k + n <= lo \/ hi <= k)%nat -> seg (run p m).2 k n = seg m k n.
Proof. intros Hw Hd. apply seg_agree. intros j Hj. apply (run_frame lo hi); [done|lia]. Qed.

(** Two parts sorted one after the other and merged. *)
Lemma sorts_halves low mid high p q : (low <= mid < high)%nat -> sorts low (mid + 1) p -> sorts (mid + 1) (S high) q ->
  sorts low (S high) (p ;; q ;; merge low mid high).
Proof.
  intros Hr [Wp Sp] [Wq Sq]. split.
  - apply within_bind; [eapply within_mono; [| |exact Wp]; lia|]. intros _. apply within_bind; [eapply within_mono; [| |exact Wq]; lia|]. intros _. by apply within_merge.
  - intros m. rewrite run_bind. destruct (run p m) as [[] m1] eqn:E1. rewrite run_bind. destruct (run q m1) as [[] m2] eqn:E2.
    pose proof (Sp m) as [S1 P1]. pose proof (Sq m1) as [S2 P2]. rewrite E1 in S1, P1. rewrite E2 in S2, P2. cbn [snd] in *.
    pose proof (seg_frame (mid + 1) (S high) q m1 low (mid + 1 - low) Wq ltac:(lia)) as F1. rewrite E2 in F1. cbn [snd] in F1.
    pose proof (seg_frame low (mid + 1) p m (mid + 1) (S high - (mid + 1)) Wp ltac:(lia)) as F2. rewrite E1 in F2. cbn [snd] in F2.
    apply merge_sorts; [done|..].
    + replace (mid - low + 1)%nat with (mid + 1 - low)%nat by lia. by rewrite F1.
    + by replace (high - mid)%nat with (S high - (mid + 1))%nat by lia.
    + replace (S high - low)%nat with ((mid + 1 - low) + (S high - (mid + 1)))%nat by lia. rewrite !seg_join.
      replace (low + (mid + 1 - low))%nat with (mid + 1)%nat by lia. by rewrite F1, P1, P2, F2.
Qed.

Lemma merge_sort_sorts fuel : forall low high, (high - low < fuel)%nat -> (low <= high)%nat -> sorts low (S high) (merge_sort fuel low high).
Proof.
  induction fuel as [|fuel IH]; intros low high Hf Hlh; [lia|]. cbn [merge_sort]. destruct (Nat.ltb_spec low high).
  - pose proof (Nat.div_mod (high - low) 2 ltac:(lia)). pose proof (Nat.mod_upper_bound (high - low) 2 ltac:(lia)).
    set (mid := (low + (high - low) / 2)%nat). assert (low <= mid < high)%nat by (unfold mid; lia).
    apply sorts_halves; [done|rewrite Nat.add_1_r; apply IH; lia|apply IH; lia].
  - split; [done|]. intros m. split; [|done]. replace (S high - low)%nat with 1%nat by lia. cbn. repeat constructor.
Qed.

(** ** main *)

Lemma seg_set m lo n i v : (lo <= i < lo + n)%nat -> seg (setm m i v) lo n = <[(i - lo)%nat := v]> (seg m lo n).
Proof.
  intros Hi. apply list_eq. intros k. destruct (decide (k < n)%nat) as [Hk|Hk].
  - rewrite seg_lookup by done. unfold setm. case_decide as E.
    + replace (i - lo)%nat with k by lia. by rewrite list_lookup_insert_eq by (rewrite length_seg; lia).
    + rewrite list_lookup_insert_ne by lia. by rewrite seg_lookup.
  - rewrite !lookup_ge_None_2; rewrite ?length_insert, ?length_seg; done || lia.
Qed.

Lemma shuffle_perm n rnd i : forall m, (i < n)%nat -> seg (shuffle i rnd m) 0 n ≡ₚ seg m 0 n.
Proof.
  induction i as [|i IH]; intros m Hi; [done|]. cbn [shuffle]. set (j := (rnd (S i) mod (S i + 1))%nat).
  assert (j < n)%nat by (pose proof (Nat.mod_upper_bound (rnd (S i)) (S i + 1) ltac:(lia)); unfold j; lia). rewrite IH by lia.
  rewrite !seg_set by lia. rewrite !Nat.sub_0_r. apply Permutation_insert_swap; by rewrite seg_lookup.
Qed.

Lemma iota_sorted k n : Sorted Z.le (seg iota k n).
Proof.
  revert k. induction n as [|n IH]; intros k; [constructor|]. rewrite seg_S. constructor; [apply IH|]. destruct n; constructor. unfold iota. lia.
Qed.

Lemma check_seg m n : seg m 0 n = seg iota 0 n -> check_sorted n m = true.
Proof.
  unfold check_sorted. generalize 0%nat as k. induction n as [|n IH]; intros k E; [done|]. rewrite !seg_S in E. injection E as E1 E2.
  cbn [check_from]. rewrite E1. unfold iota at 1. rewrite Z.eqb_refl. by apply IH.
Qed.

Section main.
Context (q : nat) (Hq : (0 < q)%nat).
#[local] Abbreviation n := (4 * q)%nat.

Lemma quarter : (n / NUM_THREADS = q)%nat.
Proof. unfold NUM_THREADS. rewrite Nat.mul_comm. by apply Nat.div_mul. Qed.

Lemma thread_sorts t : sorts (t * q) ((t + 1) * q) (merge_sort_ n t).
Proof using Hq.
  change (merge_sort_ n t) with (merge_sort (S n) (t * (n / NUM_THREADS)) ((t + 1) * (n / NUM_THREADS) - 1)). rewrite quarter.
  replace ((t + 1) * q)%nat with (S ((t + 1) * q - 1)) at 1 by nia. apply merge_sort_sorts; nia.
Qed.

Definition quarters : list range_of := (fun t => Range (t * q) ((t + 1) * q)) <$> seq 0 NUM_THREADS.

Lemma quarters_apart : apart quarters.
Proof.
  intros a b r r' Ha Hb Hne. unfold quarters in *. rewrite list_lookup_fmap in Ha, Hb.
  apply fmap_Some in Ha as (x & [-> Hx]%lookup_seq & ->). apply fmap_Some in Hb as (y & [-> Hy]%lookup_seq & ->). cbn. nia.
Qed.

(** Joined: each quarter is sorted, with the numbers it had. *)
Definition joined (m0 m : mem) : Prop := forall t, (t < 4)%nat -> Sorted Z.le (seg m (t * q) q) /\ seg m (t * q) q ≡ₚ seg m0 (t * q) q.

Lemma threads_joined m0 : always (joined m0) (m0, threads n).
Proof using Hq.
  apply (always_intro (alone quarters (threads n) m0)).
  - intros s s'. apply alone_step; [done|apply quarters_apart].
  - intros m ps HI Hf t Ht. assert (quarters !! t = Some (Range (t * q) ((t + 1) * q))) as Hr by (unfold quarters; by rewrite list_lookup_fmap, lookup_seq_lt by done).
    assert (threads n !! t = Some (merge_sort_ n t)) as Hp by (unfold threads; by rewrite list_lookup_fmap, lookup_seq_lt by done).
    pose proof (alone_end quarters (threads n) m0 m ps t _ _ HI Hf Hr Hp) as Ha. cbn in Ha. destruct (thread_sorts t) as [_ Hs].
    destruct (Hs m0) as [H1 H2]. replace ((t + 1) * q - t * q)%nat with q in * by nia.
    rewrite (seg_agree m (run (merge_sort_ n t) m0).2); [done|]. by replace (t * q + q)%nat with ((t + 1) * q)%nat by lia.
  - apply alone_start. intros t r p Hr Hp. unfold quarters, threads in *. rewrite list_lookup_fmap in Hr. rewrite list_lookup_fmap in Hp.
    apply fmap_Some in Hr as (x & [-> Hx]%lookup_seq & ->). apply fmap_Some in Hp as (y & [-> Hy]%lookup_seq & ->). apply thread_sorts.
Qed.

Lemma halves : (n / 2 = 2 * q /\ (2 * q - 1) / 2 = q - 1 /\ (n - 1) / 2 = 2 * q - 1)%nat.
Proof using Hq. split_and!; symmetry; [apply (Nat.div_unique _ _ _ 0)|apply (Nat.div_unique _ _ _ 1)|apply (Nat.div_unique _ _ _ 1)]; lia. Qed.

(** Two sorted parts of [k] numbers each, side by side. *)
Lemma merge_pair m m0 lo k : (0 < k)%nat -> Sorted Z.le (seg m lo k) -> Sorted Z.le (seg m (lo + k) k) ->
  seg m lo k ≡ₚ seg m0 lo k -> seg m (lo + k) k ≡ₚ seg m0 (lo + k) k ->
  let p := merge lo (lo + k - 1) (lo + 2 * k - 1) in
  within lo (lo + 2 * k) p /\ Sorted Z.le (seg (run p m).2 lo (2 * k)) /\ seg (run p m).2 lo (2 * k) ≡ₚ seg m0 lo (2 * k).
Proof.
  intros Hk S1 S2 P1 P2 p. split; [replace (lo + 2 * k)%nat with (S (lo + 2 * k - 1)) by lia; apply within_merge; lia|].
  pose proof (merge_sorts lo (lo + k - 1) (lo + 2 * k - 1) ltac:(lia) m m0) as H. fold p in H.
  replace (S (lo + 2 * k - 1) - lo)%nat with (k + k)%nat in H by lia. replace (2 * k)%nat with (k + k)%nat by lia. apply H.
  - by replace (lo + k - 1 - lo + 1)%nat with k by lia.
  - replace (lo + k - 1 + 1)%nat with (lo + k)%nat by lia. by replace (lo + 2 * k - 1 - (lo + k - 1))%nat with k by lia.
  - rewrite !seg_join. by rewrite P1, P2.
Qed.

Lemma joined_sorted m0 m : joined m0 m -> Sorted Z.le (seg (run (last_merges n) m).2 0 n) /\ seg (run (last_merges n) m).2 0 n ≡ₚ seg m0 0 n.
Proof using Hq.
  intros Hj. destruct halves as (E1 & E2 & E3). unfold last_merges. rewrite E1, E2, E3. replace (n - 1 - 2 * q)%nat with (2 * q - 1)%nat by lia. rewrite E2.
  pose proof (Hj 0%nat ltac:(lia)) as [S0 P0]. pose proof (Hj 1%nat ltac:(lia)) as [S1 P1]. pose proof (Hj 2%nat ltac:(lia)) as [S2 P2]. pose proof (Hj 3%nat ltac:(lia)) as [S3 P3].
  rewrite Nat.mul_0_l in *. rewrite Nat.mul_1_l in *. replace (3 * q)%nat with (2 * q + q)%nat in * by lia.
  destruct (merge_pair m m0 0 q Hq S0 S1 P0 P1) as (WA & SA & PA). rewrite !Nat.add_0_l in WA, SA, PA. rewrite run_bind. destruct (run (merge 0 (q - 1) (2 * q - 1)) m) as [[] m1] eqn:EA. cbn [snd] in *.
  pose proof (fun k j H => seg_frame 0 (2 * q) (merge 0 (q - 1) (2 * q - 1)) m k j WA H) as FA. rewrite EA in FA. cbn [snd] in FA.
  destruct (merge_pair m1 m0 (2 * q) q Hq) as (WB & SB & PB); [rewrite FA by lia; done|rewrite FA by lia; done|rewrite FA by lia; done|rewrite FA by lia; done|].
  replace (2 * q + q - 1)%nat with (2 * q + (q - 1))%nat in * by lia. replace (2 * q + 2 * q - 1)%nat with (n - 1)%nat in * by lia.
  rewrite run_bind. destruct (run (merge (2 * q) (2 * q + (q - 1)) (n - 1)) m1) as [[] m2] eqn:EB. cbn [snd] in *.
  pose proof (fun k j H => seg_frame (2 * q) (2 * q + 2 * q) (merge (2 * q) (2 * q + (q - 1)) (n - 1)) m1 k j WB H) as FB. rewrite EB in FB. cbn [snd] in FB.
  destruct (merge_pair m2 m0 0 (2 * q)) as (WC & SC & PC); [lia|by rewrite FB by lia|done|by rewrite FB by lia|done|].
  rewrite !Nat.add_0_l in SC, PC. replace (2 * (2 * q))%nat with n in * by lia. done.
Qed.
End main.

(** C29: The threads of the merge sort never interfere: whatever the scheduler does
    and whatever rand returns, every run ends, and after the last merges the array
    is sorted, so that the check at the end of main succeeds.  The length is a
    multiple of the number of threads, as MAX_NUM is. *)
Theorem parallel_sort q rnd (Hq : (0 < q)%nat) :
  always (λ m, check_sorted (4 * q) (run (last_merges (4 * q)) m).2 = true) (shuffle (4 * q - 1) rnd iota, threads (4 * q)).
Proof.
  eapply always_mono; [|by apply threads_joined]. intros m Hj. destruct (joined_sorted q Hq _ m Hj) as [Hs Hp]. apply check_seg.
  apply (Sorted_unique Z.le); [done|apply iota_sorted|]. rewrite Hp. apply shuffle_perm. lia.
Qed.

(** Without a multiple of four the numbers past the last quarter are never
    sorted: with five numbers the check fails for this outcome of rand. *)
Example leftover_unsorted :
  let m0 := shuffle 4 (fun _ => 0%nat) iota in
  let m := (run (merge_sort_ 5 0 ;; merge_sort_ 5 1 ;; merge_sort_ 5 2 ;; merge_sort_ 5 3 ;; last_merges 5) m0).2 in
  check_sorted 5 m = false.
Proof. vm_compute. reflexivity. Qed.

Lemma parallel_sort_witness : always (λ m, check_sorted 4 (run (last_merges 4) m).2 = true) (shuffle 3 (fun i => i) iota, threads 4).
Proof. exact (parallel_sort 1 (fun i => i) ltac:(lia)). Defined.
