(* ===== verification/CondVar.v ===== *)
(** * Threads that wait for each other (extra/3.condition_variable, extra/2.mutex_variable)

    The pthread calls as POSIX describes them: a mutex has an owner or none;
    pthread_cond_wait gives up the mutex and blocks in one step, returns only
    with the mutex again, and may return without a signal.  Between two calls a
    thread does what the source does between them. *)

From S2P Require Import Prelude.

(** ** condition_variable.c *)

Module Cond.

Definition TCOUNT : nat := 10.
Definition COUNT_LIMIT : Z := 12.

(** Where inc_count is: before pthread_mutex_lock in turn [i], after it, after
    count++, before pthread_mutex_unlock, returned. *)
Inductive ipc := IIdle (i : nat) | ICrit (i : nat) | ICheck (i : nat) | IUnl (i : nat) | IExit.
#[export] Instance ipc_eq_dec : EqDecision ipc.
Proof. solve_decision. Defined.
(** Where watch_count is: before the lock, at the test of the loop, blocked in
    pthread_cond_wait, woken there and about to lock again, after the loop,
    before the unlock, returned. *)
Inductive wpc := WStart | WTest | WWait | WWoken | WAdd | WUnl | WExit.

Inductive owner := ByWatch | ByInc (t : nat).
Record cst := Cst { count : Z; mutex : option owner; watch : wpc; incs : list ipc }.

(** pthread_cond_signal with one thread that may wait. *)
Definition signal (w : wpc) : wpc := match w with WWait => WWoken | _ => w end.

Inductive inc_step (t : nat) : cst -> cst -> Prop :=
| i_lock c w l i : l !! t = Some (IIdle i) -> (i < TCOUNT)%nat -> inc_step t (Cst c None w l) (Cst c (Some (ByInc t)) w (<[t := ICrit i]> l))
| i_inc c o w l i : l !! t = Some (ICrit i) -> inc_step t (Cst c o w l) (Cst (c + 1) o w (<[t := ICheck i]> l))
| i_check c o w l i : l !! t = Some (ICheck i) ->
    inc_step t (Cst c o w l) (Cst c o (if c =? COUNT_LIMIT then signal w else w) (<[t := IUnl i]> l))
| i_unlock c o w l i : l !! t = Some (IUnl i) -> inc_step t (Cst c o w l) (Cst c None w (<[t := IIdle (S i)]> l))
| i_exit c o w l i : l !! t = Some (IIdle i) -> ~ (i < TCOUNT)%nat -> inc_step t (Cst c o w l) (Cst c o w (<[t := IExit]> l)).

Inductive watch_step : cst -> cst -> Prop :=
| w_lock c l : watch_step (Cst c None WStart l) (Cst c (Some ByWatch) WTest l)
| w_wait c o l : c < COUNT_LIMIT -> watch_step (Cst c o WTest l) (Cst c None WWait l)
| w_relock c l : watch_step (Cst c None WWoken l) (Cst c (Some ByWatch) WTest l)
| w_pass c o l : ~ c < COUNT_LIMIT -> watch_step (Cst c o WTest l) (Cst c o WAdd l)
| w_add c o l : watch_step (Cst c o WAdd l) (Cst (c + 125) o WUnl l)
| w_unlock c o l : watch_step (Cst c o WUnl l) (Cst c None WExit l).

Definition step (s s' : cst) : Prop := (exists t, inc_step t s s') \/ watch_step s s'.
(** pthread_cond_wait returns without a signal. *)
Definition spurious (s s' : cst) : Prop := watch s = WWait /\ s' = Cst (count s) (mutex s) WWoken (incs s).
Definition any_step (s s' : cst) : Prop := step s s' \/ spurious s s'.

(** main starts the threads with the count at zero. *)
Definition start (n : nat) : cst := Cst 0 None WStart (replicate n (IIdle 0)).
Definition all_exited (s : cst) : Prop := watch s = WExit /\ Forall (fun p => p = IExit) (incs s).

(** ** The invariant *)

(** Increments a thread has done, and whether it is between lock and unlock. *)
Definition did (p : ipc) : nat := match p with IIdle i | ICrit i => i | ICheck i | IUnl i => S i | IExit => TCOUNT end.
Definition inside (p : ipc) : bool := match p with ICrit _ | ICheck _ | IUnl _ => true | _ => false end.
Definition winside (w : wpc) : bool := match w with WTest | WAdd | WUnl => true | _ => false end.
Definition turn_ok (p : ipc) : Prop := match p with IIdle i => (i <= TCOUNT)%nat | ICrit i | ICheck i | IUnl i => (i < TCOUNT)%nat | IExit => True end.
Definition added (w : wpc) : Z := match w with WUnl | WExit => 125 | _ => 0 end.
Definition csum (l : list ipc) : Z := foldr (fun p a => Z.of_nat (did p) + a) 0 l.

Record inv (s : cst) : Prop := {
  iv_count : count s = csum (incs s) + added (watch s);
  iv_turn t p : incs s !! t = Some p -> turn_ok p;
  iv_watch : mutex s = Some ByWatch <-> winside (watch s) = true;
  iv_inc t : mutex s = Some (ByInc t) <-> exists p, incs s !! t = Some p /\ inside p = true;
  iv_wake : watch s = WWait -> count s < COUNT_LIMIT \/ count s = COUNT_LIMIT /\ exists t i, incs s !! t = Some (ICheck i);
  iv_pass : watch s = WAdd -> COUNT_LIMIT <= count s
}.

Lemma csum_insert l t p p' : l !! t = Some p -> csum (<[t := p']> l) = csum l - Z.of_nat (did p) + Z.of_nat (did p').
Proof.
  revert t. induction l as [|x l IH]; intros [|t] Ht; try done.
  - injection Ht as ->. change (<[0%nat := p']> (p :: l)) with (p' :: l). unfold csum. cbn [foldr]. lia.
  - change (<[S t := p']> (x :: l)) with (x :: <[t := p']> l). specialize (IH t Ht). unfold csum in *. cbn [foldr]. lia.
Qed.

Lemma csum_pos l : 0 <= csum l.
Proof. induction l as [|x l IH]; [done|]. unfold csum in *. cbn [foldr]. lia. Qed.

Lemma signal_wait w : signal w <> WWait.
Proof. by destruct w. Qed.
Lemma signal_same w : added (signal w) = added w /\ winside (signal w) = winside w /\ (signal w = WAdd -> w = WAdd).
Proof. by destruct w. Qed.

(** A thread between lock and unlock is the owner. *)
Lemma inside_owner s t p : inv s -> incs s !! t = Some p -> inside p = true -> mutex s = Some (ByInc t).
Proof. intros I Ht Hp. apply (iv_inc _ I). by exists p. Qed.

(** The mutex part of the invariant after thread [t] went from [p] to [p']. *)
Lemma inc_mutex s t p p' o' : inv s -> incs s !! t = Some p ->
  (inside p' = true -> o' = Some (ByInc t)) -> (inside p' = false -> o' <> Some (ByInc t)) ->
  (forall u, u <> t -> o' = Some (ByInc u) <-> mutex s = Some (ByInc u)) ->
  forall u, o' = Some (ByInc u) <-> exists q, <[t := p']> (incs s) !! u = Some q /\ inside q = true.
Proof.
  intros I Ht H1 H2 H3 u. destruct (decide (u = t)) as [->|Hne].
  - rewrite list_lookup_insert_eq by (by eapply lookup_lt_Some). destruct (inside p') eqn:E; [|naive_solver]. split; [by exists p'|by intros _; apply H1].
  - rewrite H3, list_lookup_insert_ne by done. apply (iv_inc _ I).
Qed.

Lemma turn_insert s t p' : inv s -> turn_ok p' -> forall u q, <[t := p']> (incs s) !! u = Some q -> turn_ok q.
Proof. intros I Hp u q [(-> & <- & _)|[_ H]]%list_lookup_insert_Some; [done|by apply (iv_turn _ I u)]. Qed.

Lemma inv_inc t s s' : inv s -> inc_step t s s' -> inv s'.
Proof.
  intros I Hst. destruct Hst as [c w l i Ht Hi|c o w l i Ht|c o w l i Ht|c o w l i Ht|c o w l i Ht Hi];
    pose proof (iv_count _ I) as Ic; pose proof (iv_turn _ I t _ Ht) as It; pose proof (iv_watch _ I) as Iw; pose proof (iv_wake _ I) as Ik; pose proof (iv_pass _ I) as Ip; cbn [count mutex watch incs] in *.
  - constructor; cbn [count mutex watch incs]; [rewrite (csum_insert l t (IIdle i)) by done; cbn; lia|by apply (turn_insert _ t _ I)| |apply (inc_mutex _ t (IIdle i) _ _ I Ht); cbn; naive_solver| |done].
    + split; [done|]. intros H. by apply Iw in H.
    + intros Hw. destruct (Ik Hw) as [|(_ & u & j & Hu)]; [by left|]. by pose proof (inside_owner _ u _ I Hu eq_refl).
  - pose proof (inside_owner _ t _ I Ht eq_refl) as Ho. cbn in Ho. subst o.
    constructor; cbn [count mutex watch incs]; [rewrite (csum_insert l t (ICrit i)) by done; cbn; lia|by apply (turn_insert _ t _ I)|done|apply (inc_mutex _ t (ICrit i) _ _ I Ht); cbn; naive_solver| |intros Hw; specialize (Ip Hw); lia].
    intros Hw. destruct (Ik Hw) as [Hc|(_ & u & j & Hu)].
    + destruct (decide (c + 1 < COUNT_LIMIT)); [by left|right]. split; [lia|]. exists t, i. apply list_lookup_insert_eq. by eapply lookup_lt_Some.
    + pose proof (inside_owner _ u _ I Hu eq_refl) as Ho. cbn in Ho. injection Ho as <-. congruence.
  - pose proof (inside_owner _ t _ I Ht eq_refl) as Ho. cbn in Ho. subst o. destruct (signal_same w) as (Sa & Sw & Sp).
    constructor; cbn [count mutex watch incs]; [rewrite (csum_insert l t (ICheck i)) by done; cbn; destruct (c =? _); rewrite ?Sa; lia|by apply (turn_insert _ t _ I)|by destruct (c =? _); rewrite ?Sw|apply (inc_mutex _ t (ICheck i) _ _ I Ht); cbn; naive_solver| |destruct (c =? _); auto].
    destruct (Z.eqb_spec c COUNT_LIMIT); [by intros ?%signal_wait|]. intros Hw. destruct (Ik Hw) as [|[? _]]; [by left|done].
  - pose proof (inside_owner _ t _ I Ht eq_refl) as Ho. cbn in Ho. subst o.
    constructor; cbn [count mutex watch incs]; [rewrite (csum_insert l t (IUnl i)) by done; cbn; lia|apply (turn_insert _ t _ I); cbn in *; lia| |apply (inc_mutex _ t (IUnl i) _ _ I Ht); cbn; naive_solver| |done].
    + split; [done|]. intros H. by apply Iw in H.
    + intros Hw. destruct (Ik Hw) as [|(_ & u & j & Hu)]; [by left|]. pose proof (inside_owner _ u _ I Hu eq_refl) as Ho. cbn in Ho. injection Ho as <-. congruence.
  - assert (o <> Some (ByInc t)) as Hno by (intros E; apply (iv_inc _ I) in E as (p & Hp & Hin); cbn in Hp; rewrite Ht in Hp; by injection Hp as <-).
    cbn in It. constructor; cbn [count mutex watch incs]; [rewrite (csum_insert l t (IIdle i)) by done; cbn; lia|by apply (turn_insert _ t _ I)|done|apply (inc_mutex _ t (IIdle i) _ _ I Ht); cbn; naive_solver| |done].
    intros Hw. destruct (Ik Hw) as [|(Hc & u & j & Hu)]; [by left|right]. split; [done|]. exists u, j. rewrite list_lookup_insert_ne; congruence.
Qed.

Lemma inv_watch s s' : inv s -> watch_step s s' -> inv s'.
Proof.
  intros I Hst. pose proof (iv_inc _ I) as Ii. pose proof (iv_turn _ I) as It. pose proof (iv_watch _ I) as Iw. pose proof (iv_count _ I) as Ic. pose proof (iv_pass _ I) as Ip.
  destruct Hst as [c l|c o l Hc|c l|c o l Hc|c o l|c o l]; cbn [count mutex watch incs winside added] in *;
    try (assert (o = Some ByWatch) as -> by (by apply Iw)); constructor; cbn [count mutex watch incs winside added]; try done; try lia; try (intros t; rewrite <-Ii; naive_solver).
Qed.

Lemma inv_spurious s s' : inv s -> spurious s s' -> inv s'.
Proof. intros I [Hw ->]. destruct I as [A C D E F G]. rewrite Hw in *. constructor; cbn; done. Qed.

Lemma csum_start n : csum (replicate n (IIdle 0)) = 0.
Proof. induction n as [|n IH]; [done|]. unfold csum in *. cbn [replicate foldr]. rewrite IH. done. Qed.

Lemma inv_start n : inv (start n).
Proof.
  constructor; cbn; try done; [by rewrite csum_start|..].
  - intros t p [-> _]%lookup_replicate. cbn. lia.
  - intros t. split; [done|]. by intros (p & [-> _]%lookup_replicate & ?).
Qed.

Lemma inv_any s s' : inv s -> any_step s s' -> inv s'.
Proof. intros I [[[t H]|H]|H]; [by eapply inv_inc|by eapply inv_watch|by eapply inv_spurious]. Qed.

(** ** Progress and termination *)

Lemma csum_exited l : Forall (fun p => p = IExit) l -> csum l = Z.of_nat (length l) * Z.of_nat TCOUNT.
Proof. induction 1 as [|p l -> Hl IH]; [done|]. unfold csum in *. cbn [foldr length did]. rewrite IH. lia. Qed.

Lemma inc_progress s t p : inv s -> incs s !! t = Some p -> p <> IExit -> (inside p = false -> mutex s = None) -> exists s', step s s'.
Proof.
  intros I Ht Hp Hn. destruct s as [c o w l]. cbn in *. destruct p as [i|i|i|i|]; try done; [|eexists; left; exists t; by econstructor..].
  rewrite Hn by done. destruct (decide (i < TCOUNT)%nat); eexists; left; exists t; [by apply (i_lock _ _ _ _ i)|by eapply i_exit].
Qed.

Lemma progress s : inv s -> COUNT_LIMIT <= Z.of_nat (length (incs s)) * Z.of_nat TCOUNT -> all_exited s \/ exists s', step s s'.
Proof.
  intros I Hn. destruct (mutex s) as [[|t]|] eqn:Em.
  - right. assert (winside (watch s) = true) as Hw by (by apply (iv_watch _ I)). destruct s as [c o w l]. cbn in *.
    destruct w; try done; [destruct (decide (c < COUNT_LIMIT))|..]; eexists; right; by constructor.
  - right. destruct (proj1 (iv_inc _ I t) Em) as (p & Hp & Hin). apply (inc_progress s t p I Hp); [by intros ->|]. rewrite Hin. done.
  - destruct (decide (Forall (fun p => p = IExit) (incs s))) as [Hf|Hf].
    + pose proof (csum_exited _ Hf) as Hc. pose proof (iv_count _ I) as Ic. pose proof (iv_wake _ I) as Ik. pose proof (iv_watch _ I) as Iw. rewrite Em in Iw.
      destruct s as [c o w l]. cbn in *. subst o. destruct w; try (by specialize (proj2 Iw eq_refl)).
      { right. eexists. right. apply w_lock. }
      2: { right. eexists. right. apply w_relock. }
      2: { by left. }
      destruct (Ik eq_refl) as [|(_ & t & i & Ht)]; [cbn [added] in Ic; lia|]. rewrite Forall_lookup in Hf. by specialize (Hf t _ Ht).
    + right. apply not_Forall_Exists in Hf; [|intros p; exact _]. apply Exists_exists in Hf as (p & Hp & Hne). apply list_elem_of_lookup in Hp as [t Ht]. by eapply inc_progress.
Qed.

(** Steps left, ten for each of the threads that count against the one that
    waits. *)
Definition left_of (p : ipc) : nat :=
  match p with IIdle i => 4 * (TCOUNT - i) + 1 | ICrit i => 4 * (TCOUNT - i) | ICheck i => 4 * (TCOUNT - i) - 1 | IUnl i => 4 * (TCOUNT - i) - 2 | IExit => 0 end.
Definition wleft (w : wpc) : nat := match w with WStart | WWoken => 5 | WTest => 4 | WAdd => 3 | WUnl => 2 | WWait => 1 | WExit => 0 end.
Definition lefts (l : list ipc) : nat := foldr (fun p a => left_of p + a)%nat 0%nat l.
Definition measure (s : cst) : nat := 10 * lefts (incs s) + wleft (watch s).

Lemma lefts_insert l t p p' : l !! t = Some p -> (lefts (<[t := p']> l) + left_of p = lefts l + left_of p')%nat.
Proof.
  revert t. induction l as [|x l IH]; intros [|t] Ht; try done.
  - injection Ht as ->. change (<[0%nat := p']> (p :: l)) with (p' :: l). unfold lefts. cbn [foldr]. lia.
  - change (<[S t := p']> (x :: l)) with (x :: <[t := p']> l). specialize (IH t Ht). unfold lefts in *. cbn [foldr]. lia.
Qed.

Lemma wleft_signal (b : bool) w : (wleft (if b then signal w else w) <= wleft w + 4)%nat.
Proof. destruct b, w; cbn; lia. Qed.

Lemma measure_step s s' : inv s -> step s s' -> (measure s' < measure s)%nat.
Proof.
  intros I [[t Hst]|Hst].
  - destruct Hst as [c w l i Ht Hi|c o w l i Ht|c o w l i Ht|c o w l i Ht|c o w l i Ht Hi]; pose proof (iv_turn _ I t _ Ht) as It; cbn in It; unfold measure; cbn [incs watch];
      match goal with |- context [lefts (<[t := ?p']> l)] => pose proof (lefts_insert l t _ p' Ht) as E end; cbn [left_of] in E; try lia.
    pose proof (wleft_signal (c =? COUNT_LIMIT) w). lia.
  - destruct Hst; unfold measure; cbn; lia.
Qed.

Lemma inc_length s s' : any_step s s' -> length (incs s') = length (incs s).
Proof. intros [[[t H]|H]|[_ ->]]; [destruct H; cbn; apply length_insert|by destruct H|done]. Qed.
End Cond.

(** C30: With any number of counting threads that together reach the limit, the
    program of condition_variable.c is right: the mutex keeps the threads apart, no
    signal is lost, and from every reachable state, spurious wakeups included,
    every run ends with all threads returned and all counts made (145 for the two
    threads of the source). *)
Theorem cond_var n s (Hn : Cond.COUNT_LIMIT <= Z.of_nat n * Z.of_nat Cond.TCOUNT) (Hs : rtc Cond.any_step (Cond.start n) s) :
  (forall t p, Cond.incs s !! t = Some p -> Cond.inside p = true -> Cond.winside (Cond.watch s) = false /\
     forall u q, Cond.incs s !! u = Some q -> Cond.inside q = true -> u = t) /\
  ends Cond.step (λ s', Cond.all_exited s' /\ Cond.count s' = Z.of_nat n * Z.of_nat Cond.TCOUNT + 125) s.
Proof.
  assert (Cond.inv s /\ length (Cond.incs s) = n) as [I L].
  { eapply (rtc_invariant Cond.any_step (fun s => Cond.inv s /\ length (Cond.incs s) = n)); [|split; [apply Cond.inv_start|apply length_replicate]|exact Hs].
    intros a b [Ia La] H. split; [by eapply Cond.inv_any|by rewrite (Cond.inc_length _ _ H)]. }
  split.
  - intros t p Ht Hp. pose proof (Cond.inside_owner _ _ _ I Ht Hp) as Ho. split.
    + destruct (Cond.winside _) eqn:E; [|done]. apply (Cond.iv_watch _ I) in E. congruence.
    + intros u q Hu Hq. pose proof (Cond.inside_owner _ _ _ I Hu Hq). congruence.
  - apply (ends_intro Cond.step (fun s => Cond.inv s /\ length (Cond.incs s) = n) _ Cond.measure lt); [| |done|apply lt_wf].
    + intros a b [Ia La] H. split; [split; [by eapply Cond.inv_any; [|left]|by rewrite (Cond.inc_length a b) by (by left)]|by apply Cond.measure_step].
    + intros a [Ia La]. destruct (Cond.progress a Ia) as [He|Hgo]; [by rewrite La|left|by right]. split; [done|]. destruct He as [Hw Hf].
      by rewrite (Cond.iv_count _ Ia), Hw, (Cond.csum_exited _ Hf), La.
Qed.

Lemma cond_var_witness : ends Cond.step (λ s', Cond.all_exited s' /\ Cond.count s' = 145) (Cond.start 2).
Proof. exact (proj2 (cond_var 2 (Cond.start 2) ltac:(vm_compute; congruence) (rtc_refl _ _))). Defined.

(** ** race.c and no_race.c *)

Module Counter.
Section counter.
(** NUM_INCREASE, and whether the increment is between lock and unlock. *)
Context (K : nat) (locked : bool).

(** Where ThreadFunc is in turn [i], which is also its local count: before the
    lock, before the load of cnt_global, before the store of what it loaded plus
    one, before the unlock, returned. *)
Inductive npc := NIdle (i : nat) | NLoad (i : nat) | NStore (i : nat) (v : Z) | NUnl (i : nat) | NExit (ret : nat).
Record nst := Nst { cnt_global : Z; nmutex : option nat; ths : list npc }.

Inductive nstep (t : nat) : nst -> nst -> Prop :=
| n_lock c o l i : l !! t = Some (NIdle i) -> (i < K)%nat -> (locked = true -> o = None) ->
    nstep t (Nst c o l) (Nst c (if locked then Some t else o) (<[t := NLoad i]> l))
| n_load c o l i : l !! t = Some (NLoad i) -> nstep t (Nst c o l) (Nst c o (<[t := NStore i c]> l))
| n_store c o l i v : l !! t = Some (NStore i v) -> nstep t (Nst c o l) (Nst (v + 1) o (<[t := NUnl i]> l))
| n_unlock c o l i : l !! t = Some (NUnl i) -> nstep t (Nst c o l) (Nst c (if locked then None else o) (<[t := NIdle (S i)]> l))
| n_return c o l i : l !! t = Some (NIdle i) -> ~ (i < K)%nat -> nstep t (Nst c o l) (Nst c o (<[t := NExit i]> l)).

Definition step (s s' : nst) : Prop := exists t, nstep t s s'.
Definition start (n : nat) : nst := Nst 0 None (replicate n (NIdle 0)).

Definition ndid (p : npc) : nat := match p with NIdle i | NLoad i | NStore i _ => i | NUnl i => S i | NExit i => i end.
Definition ninside (p : npc) : bool := match p with NLoad _ | NStore _ _ | NUnl _ => true | _ => false end.
Definition nturn (c : Z) (p : npc) : Prop :=
  match p with NIdle i => (i <= K)%nat | NLoad i | NUnl i => (i < K)%nat | NStore i v => (i < K)%nat /\ v = c | NExit i => i = K end.
Definition nleft (p : npc) : nat :=
  match p with NIdle i => 4 * (K - i) + 1 | NLoad i => 4 * (K - i) | NStore i _ => 4 * (K - i) - 1 | NUnl i => 4 * (K - i) - 2 | NExit _ => 0 end.

(** A sum over the threads. *)
Definition over (f : npc -> nat) (l : list npc) : nat := foldr (fun p a => f p + a)%nat 0%nat l.

Lemma over_insert f l t p p' : l !! t = Some p -> (over f (<[t := p']> l) + f p = over f l + f p')%nat.
Proof.
  revert t. induction l as [|x l IH]; intros [|t] Ht; try done.
  - injection Ht as ->. change (<[0%nat := p']> (p :: l)) with (p' :: l). unfold over. cbn [foldr]. lia.
  - change (<[S t := p']> (x :: l)) with (x :: <[t := p']> l). specialize (IH t Ht). unfold over in *. cbn [foldr]. lia.
Qed.

Lemma over_const f l k : (forall t p, l !! t = Some p -> f p = k) -> over f l = (length l * k)%nat.
Proof.
  induction l as [|x l IH]; intros H; [done|]. unfold over in *. cbn [foldr length]. rewrite (H 0%nat x eq_refl), IH; [lia|].
  intros t p Ht. by apply (H (S t)).
Qed.

Record ninv (s : nst) : Prop := {
  ni_count : cnt_global s = Z.of_nat (over ndid (ths s));
  ni_turn t p : ths s !! t = Some p -> nturn (cnt_global s) p;
  ni_mutex t : nmutex s = Some t <-> exists p, ths s !! t = Some p /\ ninside p = true
}.

Lemma ninv_start n : ninv (start n).
Proof.
  constructor; cbn [cnt_global nmutex ths start].
  - rewrite (over_const _ _ 0); [lia|]. by intros t p [-> _]%lookup_replicate.
  - intros t p [-> _]%lookup_replicate. cbn. lia.
  - intros t. split; [done|]. by intros (p & [-> _]%lookup_replicate & ?).
Qed.

(** A thread outside the section is not affected by a change of the count. *)
Lemma nturn_other c c' p : nturn c p -> ninside p = false -> nturn c' p.
Proof. by destruct p. Qed.

Hypothesis Hlocked : locked = true.

Lemma n_alone s t u p q : ninv s -> ths s !! t = Some p -> ninside p = true -> ths s !! u = Some q -> u <> t -> ninside q = false.
Proof.
  intros I Ht Hp Hu Hne. destruct (ninside q) eqn:E; [|done]. assert (nmutex s = Some t) as E1 by (apply (ni_mutex _ I); eauto).
  assert (nmutex s = Some u) as E2 by (apply (ni_mutex _ I); eauto). congruence.
Qed.

(** Thread [t] goes from [p] to [p'], the count from [c] to [c'], and the mutex is
    the thread's exactly when it is inside. *)
Lemma ninv_move s t p p' c' : ninv s -> ths s !! t = Some p -> ninside p = true \/ ninside p = false /\ nmutex s = None /\ c' = cnt_global s ->
  c' + Z.of_nat (ndid p) = cnt_global s + Z.of_nat (ndid p') -> nturn c' p' ->
  ninv (Nst c' (if ninside p' then Some t else None) (<[t := p']> (ths s))).
Proof.
  intros I Ht Hin Hc Hp'. pose proof (over_insert ndid (ths s) t p p' Ht) as E. pose proof (lookup_lt_Some _ _ _ Ht) as Hlt.
  assert (forall u q, u <> t -> ths s !! u = Some q -> ninside q = false) as Hout.
  { intros u q Hne Hu. destruct Hin as [Hin|(_ & Hm & _)]; [by eapply (n_alone s t u p)|]. destruct (ninside q) eqn:Eq; [|done].
    assert (nmutex s = Some u) by (apply (ni_mutex _ I); eauto). congruence. }
  constructor; cbn [cnt_global nmutex ths].
  - rewrite (ni_count _ I) in Hc. lia.
  - intros u q [(-> & <- & _)|[Hne Hu]]%list_lookup_insert_Some; [done|]. apply (nturn_other (cnt_global s)); [by apply (ni_turn _ I u)|by eapply Hout].
  - intros u. destruct (decide (u = t)) as [->|Hne].
    + rewrite list_lookup_insert_eq by done. destruct (ninside p') eqn:E'; [split; [by exists p'|done]|]. split; [done|]. intros (q & Hq & Hq'). congruence.
    + rewrite list_lookup_insert_ne by done. split; [destruct (ninside p'); [|done]; by intros [= ->]|]. intros (q & Hq & Hq'). by rewrite (Hout u q Hne Hq) in Hq'.
Qed.

Lemma n_owner s t p : ninv s -> ths s !! t = Some p -> ninside p = true -> nmutex s = Some t.
Proof. intros I Ht Hp. apply (ni_mutex _ I). eauto. Qed.

Lemma ninv_step s s' : ninv s -> step s s' -> ninv s' /\ (over nleft (ths s') < over nleft (ths s))%nat /\ length (ths s') = length (ths s).
Proof using Hlocked.
  intros I [t Hst]. destruct Hst as [c o l i Ht Hi Ho|c o l i Ht|c o l i v Ht|c o l i Ht|c o l i Ht Hi]; rewrite ?Hlocked in *; pose proof (ni_turn _ I t _ Ht) as It; cbn [cnt_global ths nturn] in *;
    (split; [|split; [match goal with |- context [over _ (<[t := ?p']> l)] => pose proof (over_insert nleft l t _ p' Ht) as E end; cbn [nleft ths] in *; lia|apply length_insert]]).
  - rewrite Ho in * by done. apply (ninv_move (Nst c None l) t (NIdle i) (NLoad i) c I Ht); cbn; [by right|lia|done].
  - pose proof (n_owner _ _ _ I Ht eq_refl) as Ho. cbn in Ho. subst o. apply (ninv_move (Nst c (Some t) l) t (NLoad i) (NStore i c) c I Ht); cbn; [by left|lia|done].
  - pose proof (n_owner _ _ _ I Ht eq_refl) as Ho. cbn in Ho. subst o. apply (ninv_move (Nst c (Some t) l) t (NStore i v) (NUnl i) (v + 1) I Ht); cbn; [by left|lia|lia].
  - pose proof (n_owner _ _ _ I Ht eq_refl) as Ho. cbn in Ho. subst o. apply (ninv_move (Nst c (Some t) l) t (NUnl i) (NIdle (S i)) c I Ht); cbn; [by left|lia|lia].
  - constructor; cbn [cnt_global nmutex ths].
    + pose proof (over_insert ndid l t _ (NExit i) Ht) as E. cbn [ndid] in E. pose proof (ni_count _ I) as Ic. cbn [cnt_global ths] in Ic. lia.
    + intros u q [(-> & <- & _)|[Hne Hu]]%list_lookup_insert_Some; [cbn; lia|by apply (ni_turn _ I u)].
    + intros u. rewrite (ni_mutex _ I u). cbn [ths]. destruct (decide (u = t)) as [->|Hne]; [|by rewrite list_lookup_insert_ne].
      rewrite list_lookup_insert_eq by (by eapply lookup_lt_Some). split; intros (q & Hq & Hq'); [rewrite Ht in Hq|]; injection Hq as <-; done.
Qed.

Lemma n_progress s : ninv s -> (forall t p, ths s !! t = Some p -> p = NExit K) \/ exists s', step s s'.
Proof using Hlocked.
  intros I. destruct s as [c o l]. cbn [ths].
  assert (forall t p, l !! t = Some p -> (forall k, p <> NExit k) -> (ninside p = false -> o = None) -> exists s', step (Nst c o l) s') as Hgo.
  { intros t p Ht Hp Ho. destruct p as [i|i|i v|i|k]; [|by eexists; exists t; econstructor|by eexists; exists t; econstructor|by eexists; exists t; econstructor|by destruct (Hp k)].
    destruct (decide (i < K)%nat); eexists; exists t; [eapply n_lock; [done|done|by intros _; apply Ho]|by eapply n_return]. }
  destruct o as [t|].
  - right. destruct (proj1 (ni_mutex _ I t) eq_refl) as (p & Hp & Hin). apply (Hgo t p Hp); [by intros k ->|]. by rewrite Hin.
  - destruct (decide (Exists (fun p => ndid p <> K \/ nleft p <> 0%nat) l)) as [He|He].
    + right. apply Exists_exists in He as (p & Hp & Hne). apply list_elem_of_lookup in Hp as [t Ht]. apply (Hgo t p Ht); [|done].
      intros k ->. pose proof (ni_turn _ I t _ Ht) as It. cbn in *. lia.
    + left. intros t p Ht. apply not_Exists_Forall in He; [|intros q; exact _]. rewrite Forall_lookup in He. specialize (He t p Ht). cbn beta in He.
      pose proof (ni_turn _ I t p Ht) as It. destruct p; cbn in *; try lia. f_equal. lia.
Qed.
End counter.
End Counter.

(** Every run of no_race.c ends with all increments counted, in the global count
    and in what the threads return. *)
Theorem no_race K n (s : Counter.nst) (Hs : rtc (Counter.step K true) (Counter.start n) s) :
  ends (Counter.step K true) (λ s', Counter.cnt_global s' = Z.of_nat n * Z.of_nat K /\ forall t p, Counter.ths s' !! t = Some p -> p = Counter.NExit K) s.
Proof.
  assert (Counter.ninv K s /\ length (Counter.ths s) = n) as [I L].
  { eapply (rtc_invariant (Counter.step K true) (fun s => Counter.ninv K s /\ length (Counter.ths s) = n)); [|split; [apply Counter.ninv_start|apply length_replicate]|exact Hs].
    intros a b [Ia La] H. destruct (Counter.ninv_step K true eq_refl a b Ia H) as (? & _ & ->). done. }
  apply (ends_intro (Counter.step K true) (fun s => Counter.ninv K s /\ length (Counter.ths s) = n) _ (fun s => Counter.over (Counter.nleft K) (Counter.ths s)) lt); [| |done|apply lt_wf].
  - intros a b [Ia La] H. destruct (Counter.ninv_step K true eq_refl a b Ia H) as (? & ? & ->). done.
  - intros a [Ia La]. destruct (Counter.n_progress K true eq_refl a Ia) as [He|Hgo]; [left|by right]. split; [|done].
    rewrite (Counter.ni_count _ _ Ia), (Counter.over_const _ _ K); [lia|]. intros t p Ht. by rewrite (He t p Ht).
Qed.

(** Without the mutex a count is lost: two threads that add one each can end with
    one. *)
Example race_loses : exists s, rtc (Counter.step 1 false) (Counter.start 2) s /\ Counter.cnt_global s = 1 /\ Counter.ths s = [Counter.NExit 1; Counter.NExit 1].
Proof.
  exists (Counter.Nst 1 None [Counter.NExit 1; Counter.NExit 1]). split; [|split; reflexivity].
  eapply rtc_l; [exists 0%nat; eapply (Counter.n_lock 1 false 0 0 None); [reflexivity|lia|done]|]. cbn.
  eapply rtc_l; [exists 1%nat; eapply (Counter.n_lock 1 false 1 0 None); [reflexivity|lia|done]|]. cbn.
  eapply rtc_l; [exists 0%nat; eapply (Counter.n_load 1 false 0); reflexivity|]. cbn.
  eapply rtc_l; [exists 1%nat; eapply (Counter.n_load 1 false 1); reflexivity|]. cbn.
  eapply rtc_l; [exists 0%nat; eapply (Counter.n_store 1 false 0); reflexivity|]. cbn.
  eapply rtc_l; [exists 1%nat; eapply (Counter.n_store 1 false 1); reflexivity|]. cbn.
  eapply rtc_l; [exists 0%nat; eapply (Counter.n_unlock 1 false 0); reflexivity|]. cbn.
  eapply rtc_l; [exists 1%nat; eapply (Counter.n_unlock 1 false 1); reflexivity|]. cbn.
  eapply rtc_l; [exists 0%nat; eapply (Counter.n_return 1 false 0); [reflexivity|lia]|]. cbn.
  eapply rtc_l; [exists 1%nat; eapply (Counter.n_return 1 false 1); [reflexivity|lia]|]. cbn. apply rtc_refl.
Qed.
