(* ===== verification/Kbd.v ===== *)
(** * The keyboard (kbd.c, kbd.h)

    Scan codes come from the controller's data port one byte at a time; the
    modifiers are bits of the static variable shift.  An access past the end of a
    table is [None].  Typing a text on the keys that bear its characters delivers
    that text to consoleintr. *)

From S2P Require Import Prelude CString Ring Console.

Definition SHIFT : Z := 1.
Definition CTL : Z := 2.
Definition ALT : Z := 4.
Definition CAPSLOCK : Z := 8.
Definition NUMLOCK : Z := 16.
Definition SCROLLLOCK : Z := 32.
Definition E0ESC : Z := 64.

Definition KEY_HOME : Z := 0xE0.
Definition KEY_END : Z := 0xE1.
Definition KEY_UP : Z := 0xE2.
Definition KEY_DN : Z := 0xE3.
Definition KEY_LF : Z := 0xE4.
Definition KEY_RT : Z := 0xE5.
Definition KEY_PGUP : Z := 0xE6.
Definition KEY_PGDN : Z := 0xE7.
Definition KEY_INS : Z := 0xE8.
Definition KEY_DEL : Z := 0xE9.

(** An array of 256 bytes given by its first elements and by index. *)
Definition table (base : list Z) (at_ : list (nat * Z)) : list Z :=
  foldl (fun l '(i, v) => <[i := u8 v]> l) (base ++ replicate (256 - length base) 0) at_.

Definition shiftcode : list Z := table [] [(0x1D, CTL); (0x2A, SHIFT); (0x36, SHIFT); (0x38, ALT); (0x9D, CTL); (0xB8, ALT)]%nat.
Definition togglecode : list Z := table [] [(0x3A, CAPSLOCK); (0x45, NUMLOCK); (0x46, SCROLLLOCK)]%nat.

(** The keys of the pad in the middle; [nl] is what the keypad's enter gives and
    [sl] its division key. *)
Definition pad (nl sl : Z) : list (nat * Z) :=
  [(0x9C, nl); (0xB5, sl); (0xC8, KEY_UP); (0xD0, KEY_DN); (0xC9, KEY_PGUP); (0xD1, KEY_PGDN);
   (0xCB, KEY_LF); (0xCD, KEY_RT); (0x97, KEY_HOME); (0xCF, KEY_END); (0xD2, KEY_INS); (0xD3, KEY_DEL)]%nat.

Definition normalmap : list Z := table
  [0; 27; 49; 50; 51; 52; 53; 54;
   55; 56; 57; 48; 45; 61; 8; 9;
   113; 119; 101; 114; 116; 121; 117; 105;
   111; 112; 91; 93; 10; 0; 97; 115;
   100; 102; 103; 104; 106; 107; 108; 59;
   39; 96; 0; 92; 122; 120; 99; 118;
   98; 110; 109; 44; 46; 47; 0; 42;
   0; 32; 0; 0; 0; 0; 0; 0;
   0; 0; 0; 0; 0; 0; 0; 55;
   56; 57; 45; 52; 53; 54; 43; 49;
   50; 51; 48; 46; 0; 0; 0; 0] (pad 10 47).

Definition shiftmap : list Z := table
  [0; 27; 33; 64; 35; 36; 37; 94;
   38; 42; 40; 41; 95; 43; 8; 9;
   81; 87; 69; 82; 84; 89; 85; 73;
   79; 80; 123; 125; 10; 0; 65; 83;
   68; 70; 71; 72; 74; 75; 76; 58;
   34; 126; 0; 124; 90; 88; 67; 86;
   66; 78; 77; 60; 62; 63; 0; 42;
   0; 32; 0; 0; 0; 0; 0; 0;
   0; 0; 0; 0; 0; 0; 0; 55;
   56; 57; 45; 52; 53; 54; 43; 49;
   50; 51; 48; 46; 0; 0; 0; 0] (pad 10 47).

Definition ctlmap : list Z := table
  [0; 0; 0; 0; 0; 0; 0; 0;
   0; 0; 0; 0; 0; 0; 0; 0;
   ctrl 81; ctrl 87; ctrl 69; ctrl 82; ctrl 84; ctrl 89; ctrl 85; ctrl 73;
   ctrl 79; ctrl 80; 0; 0; 13; 0; ctrl 65; ctrl 83;
   ctrl 68; ctrl 70; ctrl 71; ctrl 72; ctrl 74; ctrl 75; ctrl 76; 0;
   0; 0; 0; ctrl 92; ctrl 90; ctrl 88; ctrl 67; ctrl 86;
   ctrl 66; ctrl 78; ctrl 77; 0; 0; u8 (ctrl 47); 0; 0] (pad 13 (ctrl 47)).

(** An element of a table, when the index is inside. *)
Definition at_code {A} (t : list A) (i : Z) : option A := if 0 <=? i then t !! Z.to_nat i else None.

(** charcode[i][data] *)
Definition charcode (i data : Z) : option Z := t ← at_code [normalmap; shiftmap; ctlmap; ctlmap] i; at_code t data.

(** kbdgetc on a status byte and, when there is one, a data byte: what it returns
    and the new value of shift. *)
Definition kbdgetc (st data shift : Z) : option (Z * Z) :=
  if Z.land st 1 =? 0 then Some (-1, shift)
  else if data =? 0xE0 then Some (0, Z.lor shift E0ESC)
  else if negb (Z.land data 0x80 =? 0) then
    let data := if negb (Z.land shift E0ESC =? 0) then data else Z.land data 0x7F in
    m ← at_code shiftcode data;
    Some (0, Z.land shift (Z.lnot (Z.lor m E0ESC)))
  else
    let '(data, shift) :=
      if negb (Z.land shift E0ESC =? 0) then (Z.lor data 0x80, Z.land shift (Z.lnot E0ESC)) else (data, shift) in
    m ← at_code shiftcode data;
    let shift := Z.lor shift m in
    t ← at_code togglecode data;
    let shift := Z.lxor shift t in
    c ← charcode (Z.land shift (Z.lor CTL SHIFT)) data;
    let c :=
      if negb (Z.land shift CAPSLOCK =? 0) then
        if (97 <=? c) && (c <=? 122) then c + (65 - 97)
        else if (65 <=? c) && (c <=? 90) then c + (97 - 65)
        else c
      else c in
    Some (c, shift).

(** kbdintr: the calls of consoleintr until the controller has no byte left. *)
Fixpoint kbd_chars (codes : list Z) (shift : Z) : option (list Z * Z) :=
  match codes with
  | [] => Some ([], shift)
  | d :: codes' =>
      '(c, shift) ← kbdgetc 1 d shift;
      '(cs, shift) ← kbd_chars codes' shift;
      Some (c :: cs, shift)
  end.
Definition kbdintr (codes : list Z) (shift : Z) (s : input) : option (input * Z) :=
  '(cs, shift) ← kbd_chars codes shift; Some (consoleintr cs s, shift).

(** ** The layout of the keyboard

    The rows of a US keyboard and the keypad, from the scan code of their first key
    on, with what the keys give alone and with shift. *)
Definition layout : list (Z * list Z * list Z) :=
  [(0x02, bytes_of "1234567890-=", bytes_of "!@#$%^&*()_+");
   (0x10, bytes_of "qwertyuiop[]", bytes_of "QWERTYUIOP{}");
   (0x1E, bytes_of "asdfghjkl;'`", bytes_of "ASDFGHJKL:" ++ [34; 126]);
   (0x2B, bytes_of "\zxcvbnm,./", bytes_of "|ZXCVBNM<>?");
   (0x39, bytes_of " ", bytes_of " ");
   (0x01, [27], [27]); (0x0E, [8; 9], [8; 9]); (0x1C, [10], [10]); (0x37, bytes_of "*", bytes_of "*");
   (0x47, bytes_of "789-456+1230.", bytes_of "789-456+1230.")].
(** The keys whose code comes after an escape: enter and division of the keypad,
    the arrows and the keys above them. *)
Definition escaped : list (Z * Z) :=
  [(0x1C, 10); (0x35, 47); (0x48, KEY_UP); (0x50, KEY_DN); (0x49, KEY_PGUP); (0x51, KEY_PGDN);
   (0x4B, KEY_LF); (0x4D, KEY_RT); (0x4F, KEY_END); (0x52, KEY_INS); (0x53, KEY_DEL)].
(** The keys, as scan code, plain and shifted character. *)
Definition keys : list (Z * Z * Z) :=
  concat ((fun '(k, plain, shifted) => (fun '(i, (p, q)) => (k + Z.of_nat i, p, q)) <$> zip (seq 0 (length plain)) (zip plain shifted)) <$> layout).

Definition letter (c : Z) : bool := (97 <=? c) && (c <=? 122).
(** The letters as caps lock changes them. *)
Definition caps (shift c : Z) : Z :=
  if Z.testbit shift 3 then if letter c then c - 32 else if (65 <=? c) && (c <=? 90) then c + 32 else c else c.
(** What a key gives: with control the letter's place in the alphabet. *)
Definition keychar (shift plain shifted : Z) : Z :=
  if Z.testbit shift 1 then plain - 96 else caps shift (if Z.testbit shift 0 then shifted else plain).

(** The modifier keys; with an escape before it a code is the key's twin on the
    right, of which there are control and alt. *)
Definition mod_key (esc : bool) (k : Z) : option Z :=
  if (k =? 0x1D) then Some 1 else if k =? 0x38 then Some 2 else if negb esc && ((k =? 0x2A) || (k =? 0x36)) then Some 0 else None.
Definition lock_key (k : Z) : option Z := if k =? 0x3A then Some 3 else if k =? 0x45 then Some 4 else if k =? 0x46 then Some 5 else None.
(** The modifiers after a key went down or up; the escape is used up. *)
Definition mods_down (k shift : Z) : Z :=
  let esc := Z.testbit shift 6 in
  let shift := Z.clearbit shift 6 in
  match mod_key esc k, (if esc then None else lock_key k) with
  | Some b, _ => Z.setbit shift b
  | None, Some b => if Z.testbit shift b then Z.clearbit shift b else Z.setbit shift b
  | None, None => shift
  end.
Definition mods_up (k shift : Z) : Z :=
  let esc := Z.testbit shift 6 in
  let shift := Z.clearbit shift 6 in
  match mod_key esc k with Some b => Z.clearbit shift b | None => shift end.

(** What a data byte does, as far as the layout says. *)
Definition decodes (data shift : Z) (r : Z * Z) : Prop :=
  if data =? 0xE0 then r = (0, Z.setbit shift 6)
  else if 0x80 <=? data then r = (0, mods_up (data - 0x80) shift)
  else r.2 = mods_down data shift /\
    (Z.testbit shift 6 = false ->
       Forall (fun '(k, p, q) => k = data -> Z.testbit shift 1 = false \/ letter p = true -> r.1 = keychar shift p q) keys /\
       (is_Some (mod_key false data) \/ is_Some (lock_key data) -> r.1 = 0)) /\
    (Z.testbit shift 6 = true -> Forall (fun '(k, c) => k = data -> Z.testbit shift 1 = false \/ 0xE0 <= c -> r.1 = c) escaped).
#[global] Instance decodes_dec data shift r : Decision (decodes data shift r).
Proof.
  unfold decodes. destruct (data =? 0xE0); [apply _|]. destruct (0x80 <=? data); [apply _|].
  apply and_dec; [apply _|]. apply and_dec; [apply impl_dec; [apply _|]; apply and_dec; [|apply _]|apply impl_dec; [apply _|]]; apply Forall_dec.
  - intros [[k p] q]. apply _.
  - intros [k c]. apply _.
Defined.

Definition call_ok (data shift : Z) : bool :=
  match kbdgetc 1 data shift with
  | Some r => (0 <=? r.1) && (r.1 <? 256) && (0 <=? r.2) && (r.2 <? 128) && bool_decide (decodes data shift r)
  | None => false
  end.

Lemma in_range n (x : Z) : 0 <= x < Z.of_nat n -> x ∈ seqZ 0 (Z.of_nat n).
Proof. intros. apply elem_of_seqZ. lia. Qed.

Lemma all_calls_ok data shift : 0 <= data < 256 -> 0 <= shift < 128 -> call_ok data shift = true.
Proof.
  intros Hd Hs. assert (forallb (λ d, forallb (call_ok d) (seqZ 0 128)) (seqZ 0 256) = true) as Hall by (vm_compute; reflexivity).
  rewrite forallb_forall in Hall. specialize (Hall data). rewrite <-list_elem_of_In in Hall. specialize (Hall (in_range 256 data Hd)).
  rewrite forallb_forall in Hall. specialize (Hall shift). rewrite <-list_elem_of_In in Hall. exact (Hall (in_range 128 shift Hs)).
Qed.

(** C31: kbdgetc decodes the keyboard.  Whatever byte the controller delivers and
    whatever the modifiers, no table is read past its end; without a byte the
    result is -1 and nothing changes; otherwise it is a code from 0 to 255, and the
    modifiers are again seven bits.  The modifiers follow the keys: shift, control
    and alt while they are down, on either side, the locks at every stroke.  A key
    of the main block or the keypad gives its character on a US keyboard: plain,
    shifted, with the case of letters changed by caps lock, and with control the
    control character of a letter.  After an escape the arrows and the keys above
    them, home excepted, give their codes whatever the modifiers. *)
Theorem kbdgetc_decodes st data shift (Hd : 0 <= data < 256) (Hs : 0 <= shift < 128) :
  if Z.land st 1 =? 0 then kbdgetc st data shift = Some (-1, shift)
  else exists r, kbdgetc st data shift = Some r /\ 0 <= r.1 < 256 /\ 0 <= r.2 < 128 /\ decodes data shift r.
Proof.
  destruct (Z.land st 1 =? 0) eqn:E; [unfold kbdgetc; by rewrite E|].
  assert (kbdgetc st data shift = kbdgetc 1 data shift) as -> by (unfold kbdgetc; by rewrite E).
  pose proof (all_calls_ok data shift Hd Hs) as H. unfold call_ok in H. destruct (kbdgetc 1 data shift) as [r|]; [|done]. exists r. split; [done|].
  apply andb_true_iff in H as [[[[H1 H2]%andb_true_iff H3]%andb_true_iff H4]%andb_true_iff H5%bool_decide_eq_true]. split_and!; (lia || done).
Qed.

Lemma kbdgetc_decodes_witness : kbdgetc 1 0x1E 1 = Some (65, 1) /\ exists r, kbdgetc 1 0x1E 1 = Some r /\ decodes 0x1E 1 r.
Proof. split; [reflexivity|]. destruct (kbdgetc_decodes 1 0x1E 1 ltac:(lia) ltac:(lia)) as (r & E & _ & _ & D). exact (ex_intro _ r (conj E D)). Defined.

(** The code of home, 0x47 after an escape, is looked up at 0xC7, where the tables
    have nothing: [KEY_HOME] is at 0x97 instead, the place of the escaped code 0x17. *)
Theorem home_key_lost shift (Hs : 0 <= shift < 64) : kbd_chars [0xE0; 0x47] shift = Some ([0; 0], shift).
Proof.
  assert (forallb (λ h, bool_decide (kbd_chars [0xE0; 0x47] h = Some ([0; 0], h))) (seqZ 0 64) = true) as Hall by (vm_compute; reflexivity).
  rewrite forallb_forall in Hall. specialize (Hall shift). rewrite <-list_elem_of_In in Hall. by apply (bool_decide_eq_true_1 _), Hall, (in_range 64).
Qed.

(** ** Typing *)

(** The key of the main block that bears [c], and the scan codes of typing it:
    the key down and up, with the shift key held when it has to be. *)
Definition key_in (t : list Z) (c : Z) : option Z := (fun p => Z.of_nat p.1) <$> list_find (fun x => x = c) (take 88 t).
Definition strokes (c : Z) : list Z :=
  match key_in normalmap c, key_in shiftmap c with
  | Some k, _ => [k; k + 0x80]
  | None, Some k => [0x2A; k; k + 0x80; 0xAA]
  | None, None => []
  end.
Definition typable (c : Z) : Prop := 0 < c < 256 /\ strokes c <> [].

(** No key is held: only the locks may be on. *)
Definition released (shift : Z) : Prop := shift ∈ [0; 8; 16; 24; 32; 40; 48; 56].

Lemma kbd_chars_app a b h : kbd_chars (a ++ b) h =
  '(x, h1) ← kbd_chars a h; '(y, h2) ← kbd_chars b h1; Some (x ++ y, h2).
Proof.
  revert h. induction a as [|d a IH]; intros h; [cbn; by destruct (kbd_chars b h) as [[]|]|]. cbn [app kbd_chars].
  destruct (kbdgetc 1 d h) as [[c h1]|]; [|done]. cbn [mbind option_bind]. rewrite IH.
  destruct (kbd_chars a h1) as [[x h2]|]; [|done]. cbn [mbind option_bind]. by destruct (kbd_chars b h2) as [[]|].
Qed.

Definition typed_ok (h c : Z) : bool :=
  match kbd_chars (strokes c) h with
  | Some (cs, h') => bool_decide (strokes c = []) || (h' =? h) && bool_decide (filter (fun x => x <> 0) cs = [caps h c])
  | None => false
  end.

Lemma typed_char h c : released h -> typable c -> exists cs, kbd_chars (strokes c) h = Some (cs, h) /\ filter (fun x => x <> 0) cs = [caps h c].
Proof.
  intros Hh [Hc Hs]. assert (forallb (λ h, forallb (typed_ok h) (seqZ 1 255)) [0; 8; 16; 24; 32; 40; 48; 56] = true) as Hall by (vm_compute; reflexivity).
  rewrite forallb_forall in Hall. specialize (Hall h). rewrite <-list_elem_of_In in Hall. specialize (Hall Hh).
  rewrite forallb_forall in Hall. specialize (Hall c). rewrite <-list_elem_of_In, elem_of_seqZ in Hall. specialize (Hall ltac:(lia)).
  unfold typed_ok in Hall. destruct (kbd_chars (strokes c) h) as [[cs h']|]; [|done]. rewrite (bool_decide_false _ Hs) in Hall. cbn [orb] in Hall.
  apply andb_true_iff in Hall as [->%Z.eqb_eq Hf%bool_decide_eq_true]. by exists cs.
Qed.

(** consoleintr passes over the zeros of keys that give no character. *)
Lemma consoleintr_zeros cs s : consoleintr cs s = consoleintr (filter (fun x => x <> 0) cs) s.
Proof.
  unfold consoleintr. revert s. induction cs as [|c cs IH]; intros s; [done|]. rewrite filter_cons. case_decide as E.
  - cbn [foldl]. apply IH.
  - destruct (decide (c = 0)) as [->|]; [|done]. cbn [foldl]. rewrite <-IH. done.
Qed.

Lemma typed_text text : forall h, released h -> Forall typable text ->
  exists cs, kbd_chars (concat (strokes <$> text)) h = Some (cs, h) /\ filter (fun x => x <> 0) cs = caps h <$> text.
Proof.
  induction text as [|c text IH]; intros h Hh Ht; [by exists []|]. apply Forall_cons in Ht as [Hc Ht].
  destruct (typed_char h c Hh Hc) as (a & Ea & Fa). destruct (IH h Hh Ht) as (b & Eb & Fb). exists (a ++ b).
  cbn [fmap list_fmap concat]. rewrite kbd_chars_app, Ea. cbn [mbind option_bind]. rewrite Eb. split; [done|]. by rewrite filter_app, Fa, Fb.
Qed.

(** Typing a text key by key delivers exactly its characters to the console, with
    the case of letters changed when caps lock is on, and leaves the modifiers as
    they were. *)
Theorem kbd_typing text h s (Hh : released h) (Ht : Forall typable text) :
  kbdintr (concat (strokes <$> text)) h s = Some (consoleintr (caps h <$> text) s, h).
Proof. unfold kbdintr. destruct (typed_text text h Hh Ht) as (cs & -> & Hf). cbn [mbind option_bind]. by rewrite consoleintr_zeros, Hf. Qed.

(** Every printable character, newline, tab and backspace has its keys. *)
Lemma printable_typable c : 32 <= c < 127 \/ c ∈ [8; 9; 10; 27] -> typable c.
Proof.
  intros Hc. assert (forallb (λ c, negb (bool_decide (strokes c = []))) (seqZ 32 95 ++ [8; 9; 10; 27]) = true) as Hall by (vm_compute; reflexivity).
  rewrite forallb_forall in Hall. specialize (Hall c). rewrite <-list_elem_of_In in Hall. split.
  - destruct Hc as [?|H]; [lia|]. rewrite !elem_of_cons, elem_of_nil in H. lia.
  - specialize (Hall ltac:(apply elem_of_app; destruct Hc; [left; apply elem_of_seqZ; lia|by right])). intros E. by rewrite E in Hall.
Qed.

(** The code of the Home key, E0 47, finds no entry in the tables: KEY_HOME is
    stored under 97 instead of C7. *)
Example home_key_ignored : kbd_chars [0xE0; 0x47] 0 = Some ([0; 0], 0) /\ at_code normalmap 0x97 = Some KEY_HOME.
Proof. split; reflexivity. Qed.
