(* ===== verification/Screen.v ===== *)
(** * Console output (console.c, uart.c)

    The text screen is 25 rows of 80 cells and a cursor kept in two registers of
    the display; the serial line is the sequence of bytes stored in its port.
    The specification of the screen is an endless tape of cells on which the
    output is written, of which the first 24 rows of the screen show the part
    around the cursor. *)

From S2P Require Import Prelude Ring Console.

Definition COLS : Z := 80.
Definition CELLS : nat := 2000.
Definition attr : Z := 0x0700.

(** The cells at crt, the cursor registers 14 and 15, what the serial port was
    given and whether it is there, and panicked. *)
Record con := Con { crt : list Z; cur_hi : Z; cur_lo : Z; com : list Z; uart : bool; panicked : bool }.

Definition set_crt (f : list Z -> list Z) (s : con) : con := Con (f (crt s)) (cur_hi s) (cur_lo s) (com s) (uart s) (panicked s).
Definition set_cur (hi lo : Z) (s : con) : con := Con (crt s) hi lo (com s) (uart s) (panicked s).

(** memmove(crt, crt+80, sizeof(crt[0])*23*80); memset(crt+pos, 0, ...(24*80 - pos)) *)
Definition scroll (pos : Z) (l : list Z) : list Z :=
  let l := take (23 * 80) (drop 80 l) ++ drop (23 * 80) l in
  take (Z.to_nat pos) l ++ replicate (24 * 80 - Z.to_nat pos) 0 ++ drop (24 * 80) l.

Definition cgaputc (c : Z) : M con unit :=
  s ← get;
  let pos := Z.lor (Z.shiftl (cur_hi s) 8) (cur_lo s) in
  pos ← (if c =? NL then mret (pos + (COLS - pos mod COLS))
         else if c =? BACKSPACE then mret (if 0 <? pos then pos - 1 else pos)
         else modify (set_crt (<[Z.to_nat pos := Z.lor (Z.land c 0xff) attr]>)) ;; mret (pos + 1));
  if (pos <? 0) || (25 * 80 <? pos) then panic "pos under/overflow"
  else
    pos ← (if 24 <=? pos / COLS then modify (set_crt (scroll (pos - 80))) ;; mret (pos - 80) else mret pos);
    modify (set_cur (u8 (Z.shiftr pos 8)) (u8 pos)) ;;
    modify (set_crt (<[Z.to_nat pos := Z.lor 32 attr]>)).

(** uartputc; the wait for the port is bounded and then goes on. *)
Definition uartputc (c : Z) : M con unit :=
  modify (λ s, if uart s then Con (crt s) (cur_hi s) (cur_lo s) (com s ++ [u8 c]) (uart s) (panicked s) else s).

Definition consputc (c : Z) : M con unit :=
  s ← get;
  if panicked s then panic "halted"
  else
    (if c =? BACKSPACE then uartputc 8 ;; uartputc 32 ;; uartputc 8 else uartputc c) ;;
    cgaputc c.

(** consolewrite between iunlock and ilock. *)
Fixpoint consolewrite_loop (buf : list Z) : M con unit :=
  match buf with [] => mret tt | c :: buf' => consputc (Z.land c 0xff) ;; consolewrite_loop buf' end.
Definition consolewrite (buf : list Z) : M con Z := consolewrite_loop buf ;; mret (Z.of_nat (length buf)).

(** ** The tape *)

(** The cells, the place of the cursor, and the row at the top of the screen. *)
Record tape := Tape { cell : nat -> Z; at_pos : nat; top : nat }.

Definition put_cell (t : nat -> Z) (p : nat) (v : Z) : nat -> Z := fun q => if decide (q = p) then v else t q.

Definition tputc (c : Z) (t : tape) : tape :=
  let '(cells, p) :=
    if c =? NL then (cell t, at_pos t + (80 - at_pos t mod 80))%nat
    else if c =? BACKSPACE then (cell t, if (80 * top t <? at_pos t)%nat then (at_pos t - 1)%nat else at_pos t)
    else (put_cell (cell t) (at_pos t) (Z.lor (Z.land c 0xff) attr), S (at_pos t)) in
  let b := if (24 <=? p / 80 - top t)%nat then S (top t) else top t in
  Tape (put_cell cells p (Z.lor 32 attr)) p b.

Definition tape0 : tape := Tape (fun _ => 0) 0 0.

(** The screen shows 24 rows of the tape from the top row on. *)
Record shows (s : con) (t : tape) : Prop := {
  sh_len : length (crt s) = CELLS;
  sh_cur : cur_hi s = Z.of_nat (at_pos t - 80 * top t) / 256 /\ cur_lo s = Z.of_nat (at_pos t - 80 * top t) mod 256;
  sh_pos : (80 * top t <= at_pos t < 80 * top t + 24 * 80)%nat;
  sh_cell k : (k < 24 * 80)%nat -> crt s !! k = Some (cell t (80 * top t + k)%nat);
  sh_rest q : (80 * top t + 24 * 80 <= q)%nat -> cell t q = 0
}.

(** ** The screen shows the tape *)

Lemma cursor_value r : 0 <= r < 1920 -> Z.lor (Z.shiftl (r / 256) 8) (r mod 256) = r.
Proof.
  intros Hr. assert (forallb (λ r, Z.lor (Z.shiftl (r / 256) 8) (r mod 256) =? r) (seqZ 0 1920) = true) as H by (vm_compute; reflexivity).
  rewrite forallb_forall in H. apply Z.eqb_eq, H, list_elem_of_In, elem_of_seqZ. lia.
Qed.

Lemma length_scroll pos l : length l = CELLS -> 0 <= pos <= 1920 -> length (scroll pos l) = CELLS.
Proof.
  intros Hl Hp. unfold scroll. rewrite !length_app, length_take, !length_replicate, !length_drop, !length_app, !length_take, !length_drop, Hl. unfold CELLS in *. lia.
Qed.

(** Scrolling when the cursor went past the last row. *)
Lemma scroll_lookup l k : length l = CELLS -> (k < 1920)%nat ->
  scroll 1840 l !! k = if decide (k < 1840)%nat then l !! (80 + k)%nat else Some 0.
Proof.
  intros Hl Hk. unfold CELLS in Hl. unfold scroll. set (l1 := take (23 * 80) (drop 80 l) ++ drop (23 * 80) l).
  assert (length (take (23 * 80) (drop 80 l)) = 1840%nat) as E1 by (rewrite length_take, length_drop, Hl; lia).
  assert (length l1 = 2000%nat) as E2 by (unfold l1; rewrite length_app, E1, length_drop, Hl; lia).
  change (Z.to_nat 1840) with 1840%nat. case_decide.
  - rewrite lookup_app_l by (rewrite length_take, E2; lia). rewrite lookup_take_lt by done. unfold l1.
    rewrite lookup_app_l by lia. rewrite lookup_take_lt by lia. by rewrite lookup_drop.
  - rewrite lookup_app_r by (rewrite length_take, E2; lia). rewrite length_take, E2. replace (1840 `min` 2000)%nat with 1840%nat by lia.
    rewrite lookup_app_l by (rewrite length_replicate; lia). rewrite lookup_replicate_2 by lia. done.
Qed.

(** The part of cgaputc after the character: the cells [l] and the position
    [pos] reached stand for [cells] and [p] on the tape. *)
Record reached (l : list Z) (cells : nat -> Z) (b pos : nat) : Prop := {
  re_len : length l = CELLS;
  re_pos : (pos <= 1920)%nat;
  re_cell k : (k < 1920)%nat -> l !! k = Some (cells (80 * b + k)%nat);
  re_rest q : (80 * b + 1920 <= q)%nat -> cells q = 0
}.

Lemma shows_put s cells b pos : reached (crt s) cells b pos -> (pos < 1920)%nat ->
  shows (set_crt (<[pos := Z.lor 32 attr]>) (set_cur (u8 (Z.shiftr (Z.of_nat pos) 8)) (u8 (Z.of_nat pos)) s))
    (Tape (put_cell cells (80 * b + pos) (Z.lor 32 attr)) (80 * b + pos) b).
Proof.
  intros [L P C R] Hpos. constructor; cbn [crt cur_hi cur_lo set_crt set_cur cell at_pos top].
  - by rewrite length_insert.
  - replace (80 * b + pos - 80 * b)%nat with pos by lia. unfold u8. rewrite Z.shiftr_div_pow2 by lia. change (2 ^ 8) with 256. split; [|done].
    apply Z.mod_small. split; [apply Z.div_pos; lia|apply Z.div_lt_upper_bound; lia].
  - lia.
  - intros k Hk. unfold put_cell. case_decide as E.
    + replace k with pos by lia. apply list_lookup_insert_eq. rewrite L. unfold CELLS. lia.
    + rewrite list_lookup_insert_ne by lia. by apply C.
  - intros q Hq. unfold put_cell. rewrite decide_False by lia. apply R. lia.
Qed.

Lemma reached_scroll l cells b : reached l cells b 1920 -> reached (scroll 1840 l) cells (S b) 1840.
Proof.
  intros [L P C R]. constructor.
  - by apply length_scroll; [|lia].
  - lia.
  - intros k Hk. rewrite scroll_lookup by done. case_decide.
    + rewrite C by lia. do 2 f_equal. lia.
    + rewrite R by lia. done.
  - intros q Hq. apply R. lia.
Qed.

(** What cgaputc leaves alone. *)
Definition same_line (s s' : con) : Prop := com s' = com s /\ uart s' = uart s /\ panicked s' = panicked s.

Lemma R_place s cells b pos : reached (crt s) cells b pos ->
  wp (if (Z.of_nat pos <? 0) || (25 * 80 <? Z.of_nat pos) then panic "pos under/overflow"
      else
        pos ← (if 24 <=? Z.of_nat pos / COLS then modify (set_crt (scroll (Z.of_nat pos - 80))) ;; mret (Z.of_nat pos - 80) else mret (Z.of_nat pos));
        modify (set_cur (u8 (Z.shiftr pos 8)) (u8 pos)) ;; modify (set_crt (<[Z.to_nat pos := Z.lor 32 attr]>)))
    (λ _ s', shows s' (Tape (put_cell cells (80 * b + pos) (Z.lor 32 attr)) (80 * b + pos)
                        (if (24 <=? (80 * b + pos) / 80 - b)%nat then S b else b)) /\ same_line s s') s.
Proof.
  intros Hr. pose proof (re_pos _ _ _ _ Hr) as Hp. rewrite (proj2 (Z.ltb_ge _ _)) by lia. rewrite (proj2 (Z.ltb_ge _ _)) by lia. cbn [orb].
  replace ((80 * b + pos) / 80 - b)%nat with (pos / 80)%nat by (rewrite (Nat.mul_comm 80 b), Nat.div_add_l by lia; lia).
  unfold COLS. change 80 with (Z.of_nat 80) at 1. rewrite <-Nat2Z.inj_div. pose proof (Nat.div_mod pos 80 ltac:(lia)). pose proof (Nat.mod_upper_bound pos 80 ltac:(lia)).
  destruct (Nat.leb_spec 24 (pos / 80)).
  - assert (pos = 1920)%nat as -> by lia. rewrite (proj2 (Z.leb_le _ _)) by lia. apply wp_bind, wp_bind, wp_modify, wp_ret, wp_bind, wp_modify, wp_modify. split; [|exact (conj eq_refl (conj eq_refl eq_refl))].
    change (Z.of_nat 1920 - 80) with (Z.of_nat 1840). rewrite Nat2Z.id. pose proof (shows_put (set_crt (scroll 1840) s) cells (S b) 1840 (reached_scroll _ _ _ Hr) ltac:(lia)) as Hs.
    replace (80 * S b + 1840)%nat with (80 * b + 1920)%nat in Hs by lia. exact Hs.
  - rewrite (proj2 (Z.leb_gt _ _)) by lia. apply wp_bind, wp_ret, wp_bind, wp_modify, wp_modify. split; [|done]. rewrite Nat2Z.id. apply shows_put; [done|lia].
Qed.

Lemma R_cgaputc c s t : shows s t -> wp (cgaputc c) (λ _ s', shows s' (tputc c t) /\ same_line s s') s.
Proof.
  intros [L [Ch Cl] P C R]. set (pos := (at_pos t - 80 * top t)%nat) in *. assert (at_pos t = 80 * top t + pos)%nat as Ea by (unfold pos; lia).
  unfold cgaputc, tputc. apply wp_bind, wp_get. rewrite Ch, Cl, cursor_value by (unfold pos; lia). rewrite Ea. apply wp_bind.
  pose proof (Nat.div_mod pos 80 ltac:(lia)). pose proof (Nat.mod_upper_bound pos 80 ltac:(lia)).
  destruct (c =? NL); [|destruct (c =? BACKSPACE)].
  - apply wp_ret. assert (Z.of_nat pos + (COLS - Z.of_nat pos mod COLS) = Z.of_nat (pos + (80 - pos mod 80))) as ->.
    { unfold COLS. change 80 with (Z.of_nat 80). rewrite <-Nat2Z.inj_mod. lia. }
    replace ((80 * top t + pos) mod 80)%nat with (pos mod 80)%nat by (rewrite Nat.add_comm, Nat.mul_comm, Nat.Div0.mod_add; done).
    rewrite <-Nat.add_assoc. apply R_place. constructor; try done. lia.
  - apply wp_ret. replace (80 * top t <? 80 * top t + pos)%nat with (0 <? Z.of_nat pos) by (destruct (Z.ltb_spec 0 (Z.of_nat pos)), (Nat.ltb_spec (80 * top t) (80 * top t + pos)); lia || done).
    destruct (Z.ltb_spec 0 (Z.of_nat pos)); [|apply R_place; constructor; try done; lia].
    replace (Z.of_nat pos - 1) with (Z.of_nat (pos - 1)) by lia. replace (80 * top t + pos - 1)%nat with (80 * top t + (pos - 1))%nat by lia. apply R_place. constructor; try done. lia.
  - apply wp_bind, wp_modify, wp_ret. rewrite Nat2Z.id. replace (Z.of_nat pos + 1) with (Z.of_nat (S pos)) by lia. rewrite <-Nat.add_succ_r.
    eapply wp_mono; [apply (R_place _ (put_cell (cell t) (80 * top t + pos) (Z.lor (Z.land c 255) attr)) (top t))|done].
    constructor; cbn [crt set_crt]; [by rewrite length_insert|lia|..].
    + intros k Hk. unfold put_cell. case_decide as E.
      * replace k with pos by lia. apply list_lookup_insert_eq. rewrite L. unfold CELLS. lia.
      * rewrite list_lookup_insert_ne by lia. by apply C.
    + intros q Hq. unfold put_cell. rewrite decide_False by lia. by apply R.
Qed.

(** What goes to the serial line for a character. *)
Definition serial (c : Z) : list Z := if c =? BACKSPACE then [8; 32; 8] else [u8 c].

Lemma R_consputc c s t : shows s t -> panicked s = false -> uart s = true ->
  wp (consputc c) (λ _ s', shows s' (tputc c t) /\ com s' = com s ++ serial c /\ uart s' = true /\ panicked s' = false) s.
Proof.
  intros Hs Hp Hu. unfold consputc, serial. apply wp_bind, wp_get. rewrite Hp. apply wp_bind.
  destruct (c =? BACKSPACE) eqn:E.
  - unfold uartputc. apply wp_bind, wp_modify, wp_bind, wp_modify, wp_modify. rewrite Hu. cbn [uart]. eapply wp_mono.
    + apply (R_cgaputc c _ t). destruct Hs. by constructor.
    + intros _ s' (H1 & H2 & H3 & H4). cbn in *. split_and!; try congruence; try done. by rewrite H2, <-!app_assoc.
  - apply wp_modify. rewrite Hu. eapply wp_mono.
    + apply (R_cgaputc c _ t). destruct Hs. by constructor.
    + intros _ s' (H1 & H2 & H3 & H4). cbn in *. split_and!; try congruence; done.
Qed.

(** Whatever is written, the screen is a window on the text as an
    endless terminal would hold it: no cell outside the screen is touched, the
    cursor stays on it, and each row that scrolls in is clear; the serial line gets
    the same bytes in order. *)
Theorem console_output buf s t (Hs : shows s t) (Hp : panicked s = false) (Hu : uart s = true) :
  wp (consolewrite buf) (λ r s', r = Z.of_nat (length buf) /\ shows s' (foldl (λ t c, tputc (Z.land c 0xff) t) t buf) /\
    com s' = com s ++ ((λ c, Z.land c 0xff) <$> buf)) s.
Proof.
  unfold consolewrite. apply wp_bind. enough (wp (consolewrite_loop buf) (λ _ s', shows s' (foldl (λ t c, tputc (Z.land c 0xff) t) t buf) /\
    com s' = com s ++ ((λ c, Z.land c 0xff) <$> buf)) s) as H by (eapply wp_mono; [exact H|]; cbv beta; intros _ s' [? ?]; by apply wp_ret).
  revert s t Hs Hp Hu. induction buf as [|c buf IH]; intros s t Hs Hp Hu; cbn [consolewrite_loop foldl]; [apply wp_ret; split; [done|by rewrite app_nil_r]|].
  apply wp_bind. eapply wp_mono; [by apply (R_consputc _ s t)|]. cbv beta. intros _ s1 (H1 & H2 & H3 & H4). eapply wp_mono; [by apply (IH s1)|]. cbv beta.
  intros _ s2 [H5 H6]. split; [done|]. rewrite H6, H2, <-app_assoc. f_equal. cbn [fmap list_fmap app]. unfold serial.
  assert (0 <= Z.land c 255 < 256) as Hr by (change 255 with (Z.ones 8); rewrite Z.land_ones by lia; apply Z.mod_pos_bound; lia).
  rewrite (proj2 (Z.eqb_neq _ _)) by (unfold BACKSPACE; lia). unfold u8. by rewrite Z.mod_small by lia.
Qed.

(** The screen after power-on. *)
Definition con0 : con := Con (replicate CELLS 0) 0 0 [] true false.

Lemma con0_shows : shows con0 tape0.
Proof.
  constructor; cbn [crt cur_hi cur_lo con0 tape0 cell at_pos top]; [by rewrite length_replicate|done|lia|intros k Hk; apply lookup_replicate_2; unfold CELLS; lia|done].
Qed.

Lemma console_output_witness : wp (consolewrite [104; 105; 10]) (λ r s', r = 3 /\ com s' = [104; 105; 10]) con0.
Proof. eapply wp_mono; [apply (console_output [104; 105; 10] con0 tape0 con0_shows eq_refl eq_refl)|]. cbv beta. by intros r s' (-> & _ & ->). Defined.
