(* ===== verification/MemFuns.v ===== *)
(** * Memory functions (string.c, the memory functions of ulib.c, stosb and stosl of x86.h)

    A memory of bytes by address.  The loops store one element at a time, in
    their order, so that overlapping source and destination are what they are in
    the code. *)

From S2P Require Import Prelude Block.

Definition ram : Type := Z -> Z.
Definition poke (m : ram) (a v : Z) : ram := fun x => if decide (x = a) then v else m x.

(** Little-endian fields in memory. *)
Definition mem_bytes (m : ram) (a : Z) (n : nat) : list Z := (fun k => m (a + Z.of_nat k)) <$> seq 0 n.
Definition mem16 (m : ram) (a : Z) : Z := le_val (mem_bytes m a 2).
Definition mem32 (m : ram) (a : Z) : Z := le_val (mem_bytes m a 4).

(** rep stosb and rep stosl: the low byte, or the word as four bytes. *)
Fixpoint stosb (m : ram) (a c : Z) (n : nat) : ram :=
  match n with O => m | S n' => stosb (poke m a (u8 c)) (a + 1) c n' end.
Fixpoint poke_all (m : ram) (a : Z) (l : list Z) : ram :=
  match l with [] => m | v :: l' => poke_all (poke m a v) (a + 1) l' end.
Fixpoint stosl (m : ram) (a w : Z) (n : nat) : ram :=
  match n with O => m | S n' => stosl (poke_all m a (le_bytes 4 (u32 w))) (a + 4) w n' end.

(** string.c *)
Definition memset (m : ram) (dst c : Z) (n : nat) : ram :=
  if (dst mod 4 =? 0) && (n mod 4 =? 0)%nat then
    let c := Z.land c 0xFF in
    stosl m dst (Z.lor (Z.lor (Z.lor (Z.shiftl c 24) (Z.shiftl c 16)) (Z.shiftl c 8)) c) (n / 4)
  else stosb m dst c n.

Fixpoint memcmp (m : ram) (s1 s2 : Z) (n : nat) : Z :=
  match n with
  | O => 0
  | S n' => if negb (m s1 =? m s2) then m s1 - m s2 else memcmp m (s1 + 1) (s2 + 1) n'
  end.

(** The two loops of memmove: up, and down from past the end. *)
Fixpoint copy_up (m : ram) (d s : Z) (n : nat) : ram :=
  match n with O => m | S n' => copy_up (poke m d (m s)) (d + 1) (s + 1) n' end.
Fixpoint copy_down (m : ram) (d s : Z) (n : nat) : ram :=
  match n with O => m | S n' => copy_down (poke m (d - 1) (m (s - 1))) (d - 1) (s - 1) n' end.

Definition memmove (m : ram) (dst src : Z) (n : nat) : ram :=
  if (src <? dst) && (dst <? u32 (src + Z.of_nat n))
  then copy_down m (dst + Z.of_nat n) (src + Z.of_nat n) n
  else copy_up m dst src n.

(** ulib.c *)
Definition user_memset (m : ram) (dst c : Z) (n : nat) : ram := stosb m dst c n.
Definition user_memmove (m : ram) (dst src : Z) (n : nat) : ram := copy_up m dst src n.

(** ** What they do *)

Definition filled (m : ram) (a : Z) (n : nat) (c : Z) : ram := fun x => if decide (a <= x < a + Z.of_nat n) then c else m x.
Definition copied (m : ram) (dst src : Z) (n : nat) : ram := fun x => if decide (dst <= x < dst + Z.of_nat n) then m (src + (x - dst)) else m x.

Lemma stosb_fills n : forall m a c x, stosb m a c n x = filled m a n (u8 c) x.
Proof.
  induction n as [|n IH]; intros m a c x; cbn [stosb]; unfold filled; [by rewrite decide_False by lia|].
  rewrite IH. unfold filled, poke. repeat case_decide; lia || done.
Qed.

Lemma poke_all_lookup l : forall m a x, poke_all m a l x = if decide (a <= x < a + Z.of_nat (length l)) then default 0 (l !! Z.to_nat (x - a)) else m x.
Proof.
  induction l as [|v l IH]; intros m a x; cbn [poke_all length]; [by rewrite decide_False by lia|]. rewrite IH. unfold poke.
  destruct (decide (x = a)) as [->|Hne].
  - rewrite decide_False by lia. rewrite decide_True by lia. by rewrite Z.sub_diag.
  - repeat case_decide; try lia; try done. by replace (Z.to_nat (x - a)) with (S (Z.to_nat (x - (a + 1)))) by lia.
Qed.

(** The word that memset stores is its byte four times. *)
Lemma fill_word c : 0 <= c < 256 -> le_bytes 4 (u32 (Z.lor (Z.lor (Z.lor (Z.shiftl c 24) (Z.shiftl c 16)) (Z.shiftl c 8)) c)) = [c; c; c; c].
Proof.
  intros Hc. assert (forallb (λ c, bool_decide (le_bytes 4 (u32 (Z.lor (Z.lor (Z.lor (Z.shiftl c 24) (Z.shiftl c 16)) (Z.shiftl c 8)) c)) = [c; c; c; c])) (seqZ 0 256) = true) as H by (vm_compute; reflexivity).
  rewrite forallb_forall in H. specialize (H c). rewrite bool_decide_eq_true in H. apply H, list_elem_of_In, elem_of_seqZ. lia.
Qed.

Lemma stosl_fills n : forall m a w c x, le_bytes 4 (u32 w) = [c; c; c; c] -> stosl m a w n x = filled m a (4 * n) c x.
Proof.
  induction n as [|n IH]; intros m a w c x Hw; cbn [stosl]; unfold filled; [by rewrite decide_False by lia|].
  rewrite (IH _ _ _ c) by done. unfold filled. rewrite poke_all_lookup, Hw. cbn [length]. repeat case_decide; try lia; try done.
  assert (Z.to_nat (x - a) < 4)%nat as Hk by lia. by destruct (Z.to_nat (x - a)) as [|[|[|[|k]]]]; try lia.
Qed.

(** memset fills exactly its range with the low byte, also when it stores words. *)
Theorem memset_fills m dst c n x : memset m dst c n x = filled m dst n (u8 c) x.
Proof.
  unfold memset. destruct (dst mod 4 =? 0); cbn [andb]; [|apply stosb_fills]. destruct (Nat.eqb_spec (n mod 4) 0) as [E|]; [|apply stosb_fills].
  assert (Z.land c 255 = u8 c) as -> by (change 255 with (Z.ones 8); by rewrite Z.land_ones).
  rewrite (stosl_fills _ _ _ _ (u8 c)); [|apply fill_word, Z.mod_pos_bound; lia].
  pose proof (Nat.div_mod n 4 ltac:(lia)). by replace (4 * (n / 4))%nat with n by lia.
Qed.

Lemma copy_up_spec n : forall m d s x, d <= s \/ s + Z.of_nat n <= d -> copy_up m d s n x = copied m d s n x.
Proof.
  induction n as [|n IH]; intros m d s x Hov; cbn [copy_up]; unfold copied; [by rewrite decide_False by lia|].
  rewrite IH by lia. unfold copied, poke. destruct (decide (x = d)) as [->|Hne].
  - rewrite decide_False by lia. rewrite (decide_True (P := d <= d < d + Z.of_nat (S n))) by lia. by rewrite Z.sub_diag, Z.add_0_r.
  - destruct (decide (d + 1 <= x < d + 1 + Z.of_nat n)).
    + rewrite (decide_True (P := d <= x < d + Z.of_nat (S n))) by lia. rewrite decide_False by lia. f_equal. lia.
    + by rewrite decide_False by lia.
Qed.

Lemma copy_down_spec n : forall m d s x, s <= d -> copy_down m d s n x = copied m (d - Z.of_nat n) (s - Z.of_nat n) n x.
Proof.
  induction n as [|n IH]; intros m d s x Hov; cbn [copy_down]; unfold copied; [by rewrite decide_False by lia|].
  rewrite IH by lia. unfold copied, poke. replace (d - 1 - Z.of_nat n) with (d - Z.of_nat (S n)) by lia.
  destruct (decide (x = d - 1)) as [->|Hne].
  - rewrite decide_False by lia. rewrite decide_True by lia. f_equal. lia.
  - destruct (decide (d - Z.of_nat (S n) <= x < d - Z.of_nat (S n) + Z.of_nat n)).
    + rewrite (decide_True (P := d - Z.of_nat (S n) <= x < d - Z.of_nat (S n) + Z.of_nat (S n))) by lia. rewrite decide_False by lia. f_equal. lia.
    + by rewrite decide_False by lia.
Qed.

(** The kernel's memmove copies the source as it was, however the two ranges
    overlap. *)
Theorem memmove_copies m dst src n x (Hs : 0 <= src) (Hn : src + Z.of_nat n < 2 ^ 32) : memmove m dst src n x = copied m dst src n x.
Proof.
  unfold memmove. rewrite u32_id by (unfold is_u32; lia). destruct (Z.ltb_spec src dst), (Z.ltb_spec dst (src + Z.of_nat n)); cbn [andb]; try (apply copy_up_spec; lia).
  rewrite copy_down_spec by lia. f_equal; lia.
Qed.

(** The user library's does so only when the destination does not start inside the
    source. *)
Theorem user_memmove_copies m dst src n x (Hov : dst <= src \/ src + Z.of_nat n <= dst) : user_memmove m dst src n x = copied m dst src n x.
Proof. by apply copy_up_spec. Qed.

Example user_memmove_overlap : exists m, user_memmove m 1 0 2 2 <> copied m 1 0 2 2.
Proof. exists (fun x => x). vm_compute. congruence. Qed.

(** memcmp finds the first difference, as unsigned bytes. *)
Theorem memcmp_first n : forall m s1 s2,
  (memcmp m s1 s2 n = 0 /\ forall k, 0 <= k < Z.of_nat n -> m (s1 + k) = m (s2 + k)) \/
  (exists k, 0 <= k < Z.of_nat n /\ (forall j, 0 <= j < k -> m (s1 + j) = m (s2 + j)) /\ m (s1 + k) <> m (s2 + k) /\ memcmp m s1 s2 n = m (s1 + k) - m (s2 + k)).
Proof.
  induction n as [|n IH]; intros m s1 s2; cbn [memcmp]; [left; split; [done|lia]|]. destruct (Z.eqb_spec (m s1) (m s2)) as [E|E]; cbn [negb].
  - destruct (IH m (s1 + 1) (s2 + 1)) as [(-> & H)|(k & Hk & H1 & H2 & ->)]; [left|right].
    + split; [done|]. intros k Hk. destruct (decide (k = 0)) as [->|]; [by rewrite !Z.add_0_r|]. replace (s1 + k) with (s1 + 1 + (k - 1)) by lia. replace (s2 + k) with (s2 + 1 + (k - 1)) by lia. apply H. lia.
    + exists (k + 1). rewrite !Z.add_assoc. replace (s1 + k + 1) with (s1 + 1 + k) by lia. replace (s2 + k + 1) with (s2 + 1 + k) by lia. split_and!; try done; try lia.
      intros j Hj. destruct (decide (j = 0)) as [->|]; [by rewrite !Z.add_0_r|]. replace (s1 + j) with (s1 + 1 + (j - 1)) by lia. replace (s2 + j) with (s2 + 1 + (j - 1)) by lia. apply H1. lia.
  - right. exists 0. rewrite !Z.add_0_r. split_and!; try done; lia.
Qed.
