(* ===== verification/Bootmain.v ===== *)
(** * The boot loader (bootmain.c)

    bootmain reads the kernel's ELF file from the disk, whose first sector is the
    boot block itself, and puts its segments where they belong in memory.  The
    disk answers a read command with the sector that its address registers name. *)

From S2P Require Import Prelude Block MemFuns Ide.

Definition SECTSIZE : Z := 512.
Definition ELF_MAGIC : Z := 0x464C457F.
(** elf = (struct elfhdr* )0x10000 *)
Definition scratch : Z := 0x10000.

Section boot.
(** The bytes of the disk. *)
Context (disk : Z -> Z).

Definition sector (n : Z) : list Z := (fun k => disk (SECTSIZE * n + Z.of_nat k)) <$> seq 0 512.

(** The values of the ports 1F3 to 1F6 name the sector. *)
Definition readsect (m : ram) (dst offset : Z) : ram :=
  poke_all m dst (sector (lba (u8 offset) (u8 (Z.shiftr offset 8)) (u8 (Z.shiftr offset 16)) (u8 (Z.lor (Z.shiftr offset 24) 0xE0)))).

Fixpoint read_loop (n : nat) (m : ram) (pa epa offset : Z) : ram :=
  match n with
  | O => m
  | S n' => if pa <? epa then read_loop n' (readsect m pa offset) (u32 (pa + SECTSIZE)) epa (u32 (offset + 1)) else m
  end.
(** A turn for every sector of the range and one at each end. *)
Definition readseg (m : ram) (pa count offset : Z) : ram :=
  let epa := u32 (pa + count) in
  let pa := u32 (pa - offset mod SECTSIZE) in
  read_loop (Z.to_nat (count / SECTSIZE) + 2) m pa epa (offset / SECTSIZE + 1).

(** struct proghdr: off 4, paddr 12, filesz 16, memsz 20. *)
Definition load_ph (m : ram) (ph : Z) : ram :=
  let pa := mem32 m (ph + 12) in
  let m' := readseg m pa (mem32 m (ph + 16)) (mem32 m (ph + 4)) in
  if mem32 m' (ph + 16) <? mem32 m' (ph + 20)
  then stosb m' (u32 (pa + mem32 m' (ph + 16))) 0 (Z.to_nat (mem32 m' (ph + 20) - mem32 m' (ph + 16)))
  else m'.
Fixpoint load_phs (n : nat) (m : ram) (ph : Z) : ram :=
  match n with O => m | S n' => load_phs n' (load_ph m ph) (ph + 32) end.

(** struct elfhdr: magic 0, entry 24, phoff 28, phnum 44.  The entry point and the
    memory it is called with; nothing when there is no ELF file. *)
Definition bootmain (m : ram) : option (Z * ram) :=
  let m := readseg m scratch 4096 0 in
  if negb (mem32 m scratch =? ELF_MAGIC) then None
  else
    let m' := load_phs (Z.to_nat (mem16 m (scratch + 44))) m (scratch + mem32 m (scratch + 28)) in
    Some (mem32 m' (scratch + 24), m').

(** ** Reading sectors *)

(** The byte of the kernel's file, which starts at sector 1. *)
Definition file (k : Z) : Z := disk (SECTSIZE + k).

Lemma lba_id n : 0 <= n < 2 ^ 28 -> lba (u8 n) (u8 (Z.shiftr n 8)) (u8 (Z.shiftr n 16)) (u8 (Z.lor (Z.shiftr n 24) 0xE0)) = n.
Proof.
  intros Hn. assert (forallb (λ h, Z.land (u8 (Z.lor h 0xE0)) 15 =? h) (seqZ 0 16) = true) as H by (vm_compute; reflexivity).
  rewrite forallb_forall in H. unfold u8 at 1 2 3. rewrite <-!land_ff. apply lba_split; [done|]. rewrite Z.shiftr_div_pow2 by lia.
  apply Z.eqb_eq, H, list_elem_of_In, elem_of_seqZ. split; [apply Z.div_pos; lia|apply Z.div_lt_upper_bound; lia].
Qed.

Lemma length_sector n : length (sector n) = 512%nat.
Proof. unfold sector. by rewrite length_fmap, length_seq. Qed.

(** A sector of the file at [pa]. *)
Lemma readsect_spec m pa n x : 0 <= n < 2 ^ 28 - 1 ->
  readsect m pa (n + 1) x = if decide (pa <= x < pa + 512) then file (SECTSIZE * n + (x - pa)) else m x.
Proof.
  intros Hn. unfold readsect. rewrite lba_id by lia. rewrite poke_all_lookup, length_sector. change (Z.of_nat 512) with 512. case_decide; [|done].
  unfold sector. rewrite list_lookup_fmap, lookup_seq_lt by lia. cbn [fmap option_fmap option_map default]. unfold file, SECTSIZE. cbn. f_equal. lia.
Qed.

(** The loop reads up to the first boundary past the end, if that is an address:
    otherwise the pointer would wrap and the loop start over at 0. *)
Lemma read_loop_spec n : forall m pa epa k, 0 <= pa -> epa <= 2 ^ 32 - 512 -> epa - pa <= 512 * Z.of_nat n -> 0 <= k -> k + Z.of_nat n < 2 ^ 28 - 1 ->
  exists e, (pa < epa -> epa <= e < epa + 512) /\ (epa <= pa -> e = pa) /\
    forall x, read_loop n m pa epa (k + 1) x = if decide (pa <= x < e) then file (SECTSIZE * k + (x - pa)) else m x.
Proof.
  induction n as [|n IH]; intros m pa epa k Hp He Hn Hk Hk2; cbn [read_loop].
  { exists pa. split; [lia|]. split; [done|]. intros x. by rewrite decide_False by lia. }
  destruct (Z.ltb_spec pa epa); [|exists pa; split; [lia|]; split; [done|]; intros x; by rewrite decide_False by lia].
  destruct (IH (readsect m pa (k + 1)) (pa + SECTSIZE) epa (k + 1) ltac:(unfold SECTSIZE; lia) ltac:(lia) ltac:(unfold SECTSIZE; lia) ltac:(lia) ltac:(lia)) as (e & H1 & H2 & H3).
  rewrite (u32_id (pa + _)), (u32_id (k + 1 + 1)) by (unfold is_u32, SECTSIZE; lia). unfold SECTSIZE in *.
  exists e. split; [lia|]. split; [lia|]. intros x. rewrite H3, readsect_spec by lia. unfold SECTSIZE.
  destruct (decide (pa + 512 <= x < e)); [rewrite decide_True by lia; f_equal; lia|]. destruct (decide (pa <= x < pa + 512)); [rewrite decide_True by lia; done|by rewrite decide_False by lia].
Qed.

(** readseg: the bytes asked for are in place; around them, up to the ends of the
    sectors, are the bytes of the file around them. *)
Lemma readseg_spec m pa count off : 0 <= off < 2 ^ 32 -> 0 <= count -> off mod 512 <= pa -> pa + count <= 2 ^ 32 - 512 ->
  exists e, pa + count <= e < pa + count + 512 /\
    forall x, readseg m pa count off x = if decide (pa - off mod 512 <= x < e) then file (off + (x - pa)) else m x.
Proof.
  intros Ho Hc Hp He. pose proof (Z.mod_pos_bound off 512 ltac:(lia)). pose proof (Z.div_mod off 512 ltac:(lia)). pose proof (Z.div_mod count 512 ltac:(lia)). pose proof (Z.mod_pos_bound count 512 ltac:(lia)).
  unfold readseg, SECTSIZE. rewrite !u32_id by (unfold is_u32; lia).
  destruct (read_loop_spec (Z.to_nat (count / 512) + 2) m (pa - off mod 512) (pa + count) (off / 512)) as (e & Ha & Hb & Hx); [lia|lia|lia|apply Z.div_pos; lia|lia|].
  exists e. split; [lia|]. intros x. rewrite Hx. case_decide; [|done]. f_equal. unfold SECTSIZE. lia.
Qed.

(** ** The segments *)

(** The fields of the file's headers. *)
Definition phnum : nat := Z.to_nat (mem16 file 44).
Definition ph_at (i : nat) : Z := mem32 file 28 + 32 * Z.of_nat i.
Definition p_off (i : nat) : Z := mem32 file (ph_at i + 4).
Definition p_paddr (i : nat) : Z := mem32 file (ph_at i + 12).
Definition p_filesz (i : nat) : Z := mem32 file (ph_at i + 16).
Definition p_memsz (i : nat) : Z := mem32 file (ph_at i + 20).
(** The lowest byte that loading the segment touches. *)
Definition p_low (i : nat) : Z := p_paddr i - p_off i mod 512.

(** A kernel the loader is made for: its headers are in the first page, its
    segments lie above the scratch page and below the last sector of memory, one
    above the other in the order of the headers.  They may start anywhere in the
    file: nothing asks for offsets that are multiples of the sector size. *)
Record loadable : Prop := {
  lo_magic : mem32 file 0 = ELF_MAGIC;
  lo_headers : mem32 file 28 + 32 * Z.of_nat phnum <= 4096;
  lo_above i : (i < phnum)%nat -> scratch + 4096 <= p_low i;
  lo_sizes i : (i < phnum)%nat -> p_filesz i <= p_memsz i /\ p_paddr i + p_memsz i <= 2 ^ 32 - 512;
  lo_order i j : (i < j < phnum)%nat -> p_paddr i + p_memsz i <= p_low j
}.

Definition loaded (m : ram) (i : nat) : Prop :=
  (forall k, 0 <= k < p_filesz i -> m (p_paddr i + k) = file (p_off i + k)) /\
  (forall k, p_filesz i <= k < p_memsz i -> m (p_paddr i + k) = 0).

(** The first page of the file is in the scratch page. *)
Definition header_in (m : ram) : Prop := forall x, scratch <= x < scratch + 4096 -> m x = file (x - scratch).

Hypothesis Hbytes : forall k, 0 <= disk k < 256.

Lemma mem_word m a n : header_in m -> scratch <= a -> a + Z.of_nat n <= scratch + 4096 -> mem_bytes m a n = mem_bytes file (a - scratch) n.
Proof.
  intros Hh H1 H2. unfold mem_bytes. apply list_fmap_ext. intros k y [-> Hk]%lookup_seq. rewrite Hh by lia. f_equal. lia.
Qed.

Lemma word_range a : 0 <= mem32 file a < 2 ^ 32.
Proof using Hbytes.
  unfold mem32. pose proof (le_val_range (mem_bytes file a 4)) as H. unfold mem_bytes in *. rewrite length_fmap, length_seq in H. apply H.
  apply Forall_fmap, Forall_true. intros k. cbn. apply Hbytes.
Qed.

Lemma load_ph_spec m i : loadable -> header_in m -> (i < phnum)%nat ->
  let m' := load_ph m (scratch + ph_at i) in loaded m' i /\ forall x, x < p_low i -> m' x = m x.
Proof using Hbytes.
  intros Hlo Hh Hi m'. pose proof (lo_headers Hlo) as Hhd. pose proof (lo_above Hlo i Hi) as Hab. destruct (lo_sizes Hlo i Hi) as [Hfm Hend].
  pose proof (word_range 28) as Hph. assert (0 <= ph_at i /\ ph_at i + 32 <= 4096) as Hat by (unfold ph_at; lia). unfold scratch in *.
  assert (forall m d, header_in m -> 0 <= d <= 28 -> mem32 m (0x10000 + ph_at i + d) = mem32 file (ph_at i + d)) as Hf.
  { intros mm d Hmm Hd. unfold mem32. rewrite mem_word by (done || unfold scratch; lia). do 2 f_equal. unfold scratch. lia. }
  pose proof (word_range (ph_at i + 16)) as R16. pose proof (word_range (ph_at i + 4)) as R4. pose proof (word_range (ph_at i + 12)) as R12.
  fold (p_filesz i) (p_off i) (p_paddr i) in R16, R4, R12. pose proof (Z.mod_pos_bound (p_off i) 512 ltac:(lia)) as Hmod. unfold p_low in *.
  unfold m', load_ph. rewrite !(Hf m) by (done || lia). fold (p_filesz i) (p_off i) (p_paddr i).
  destruct (readseg_spec m (p_paddr i) (p_filesz i) (p_off i)) as (e & He & Hx); [lia|lia|lia|lia|]. set (m1 := readseg _ _ _ _) in *.
  assert (header_in m1) as Hh1 by (intros x Hxx; unfold scratch in *; rewrite Hx, decide_False by lia; by apply Hh).
  rewrite !(Hf m1) by (done || lia). fold (p_filesz i) (p_memsz i). rewrite u32_id by (unfold is_u32; lia).
  assert (forall x, (if p_filesz i <? p_memsz i then stosb m1 (p_paddr i + p_filesz i) 0 (Z.to_nat (p_memsz i - p_filesz i)) else m1) x =
    if decide (p_paddr i + p_filesz i <= x < p_paddr i + p_memsz i) then 0 else m1 x) as E.
  { intros x. destruct (Z.ltb_spec (p_filesz i) (p_memsz i)); [|by rewrite decide_False by lia]. rewrite stosb_fills. unfold filled. rewrite Z2Nat.id by lia.
    replace (p_paddr i + p_filesz i + (p_memsz i - p_filesz i)) with (p_paddr i + p_memsz i) by lia. done. }
  split; [split|]; intros k Hk; rewrite E.
  - rewrite decide_False by lia. rewrite Hx, decide_True by lia. f_equal. lia.
  - by rewrite decide_True by lia.
  - rewrite decide_False by lia. by rewrite Hx, decide_False by lia.
Qed.

Lemma loaded_frame m m' i : (forall x, x < p_paddr i + p_memsz i -> m' x = m x) -> p_filesz i <= p_memsz i -> loaded m i -> loaded m' i.
Proof. intros E Hs [H1 H2]. split; intros k Hk; rewrite E by lia; auto. Qed.

Lemma load_phs_spec n : forall m i, loadable -> header_in m -> (i + n = phnum)%nat -> (forall j, (j < i)%nat -> loaded m j) ->
  let m' := load_phs n m (scratch + ph_at i) in header_in m' /\ forall j, (j < phnum)%nat -> loaded m' j.
Proof using Hbytes.
  induction n as [|n IH]; intros m i Hlo Hh Hn Hj; cbn [load_phs]; [split; [done|]; intros j ?; apply Hj; lia|].
  destruct (load_ph_spec m i Hlo Hh ltac:(lia)) as [Hl Hfr]. replace (scratch + ph_at i + 32) with (scratch + ph_at (S i)) by (unfold ph_at; lia).
  apply IH; [done| |lia|].
  - intros x Hx. rewrite Hfr by (pose proof (lo_above Hlo i ltac:(lia)); lia). by apply Hh.
  - intros j Hjl. destruct (decide (j = i)) as [->|]; [done|]. apply (loaded_frame m); [|by apply (lo_sizes Hlo); lia|by apply Hj; lia].
    intros x Hx. apply Hfr. pose proof (lo_order Hlo j i ltac:(lia)). lia.
Qed.

(** C32: The boot loader calls the entry point of the kernel's file with every segment
    in its place: the bytes of the file, and zeros up to its size in memory; what
    the whole sectors bring along is overwritten or lies outside, so the segments
    need not be aligned to sectors in the file.  The file is one that [loadable]
    describes: its headers are in its first page, its segments are listed in
    increasing order, above the scratch page the headers are read into. *)
Theorem bootmain_loads m (Hlo : loadable) : exists m', bootmain m = Some (mem32 file 24, m') /\ forall i, (i < phnum)%nat -> loaded m' i.
Proof using Hbytes.
  unfold bootmain. destruct (readseg_spec m scratch 4096 0) as (e & He & Hx); [lia|lia|vm_compute; congruence|vm_compute; congruence|].
  set (m1 := readseg m scratch 4096 0) in *. assert (header_in m1) as Hh by (intros x Hr; rewrite Hx, decide_True by (rewrite Zmod_0_l; lia); done).
  assert (forall mm d, header_in mm -> 0 <= d <= 4092 -> mem32 mm (scratch + d) = mem32 file d) as Hw.
  { intros mm d Hmm Hd. unfold mem32. rewrite mem_word by (done || lia). do 2 f_equal. lia. }
  replace (mem32 m1 scratch) with (mem32 file 0) by (symmetry; rewrite <-(Hw m1 0) by (done || lia); by rewrite Z.add_0_r). rewrite (lo_magic Hlo), Z.eqb_refl. cbn [negb].
  assert (mem16 m1 (scratch + 44) = mem16 file 44) as -> by (unfold mem16; rewrite mem_word by (done || lia); done). rewrite (Hw m1 28) by (done || lia).
  destruct (load_phs_spec phnum m1 0 Hlo Hh ltac:(lia) ltac:(lia)) as [Hh' Hl]. unfold ph_at in Hh', Hl. rewrite Z.mul_0_r, Z.add_0_r in Hh', Hl. fold phnum.
  eexists. split; [|exact Hl]. by rewrite (Hw _ 24) by (done || lia).
Qed.

(** Without the magic number it returns to bootasm.S. *)
Theorem bootmain_rejects m (Hmagic : mem32 file 0 <> ELF_MAGIC) : bootmain m = None.
Proof.
  unfold bootmain. destruct (readseg_spec m scratch 4096 0) as (e & He & Hx); [lia|lia|vm_compute; congruence|vm_compute; congruence|].
  set (m1 := readseg m scratch 4096 0) in *. assert (header_in m1) as Hh by (intros x Hr; rewrite Hx, decide_True by (rewrite Zmod_0_l; lia); done).
  assert (mem32 m1 scratch = mem32 file 0) as -> by (unfold mem32; rewrite mem_word by (done || lia); done).
  by rewrite (proj2 (Z.eqb_neq _ _) Hmagic).
Qed.
End boot.

(** A kernel of one segment: 4 bytes at 1 MB, with 4 more to clear. *)
Definition demo_file : list Z :=
  le_bytes 4 ELF_MAGIC ++ replicate 20 0 ++ le_bytes 4 0x100000 ++ le_bytes 4 52 ++ replicate 12 0 ++ le_bytes 2 1 ++ replicate 6 0 ++
  le_bytes 4 1 ++ le_bytes 4 84 ++ le_bytes 4 0x100000 ++ le_bytes 4 0x100000 ++ le_bytes 4 4 ++ le_bytes 4 8 ++ replicate 8 0 ++ [1; 2; 3; 4; 5; 6].
Definition demo_disk (k : Z) : Z := default 0 (demo_file !! Z.to_nat (k - 512)).

Lemma demo_bytes k : 0 <= demo_disk k < 256.
Proof.
  unfold demo_disk. destruct (demo_file !! _) as [v|] eqn:E; [|cbn; lia]. cbn. apply list_elem_of_lookup_2 in E.
  assert (forallb (λ v, (0 <=? v) && (v <? 256)) demo_file = true) as H by (vm_compute; reflexivity). rewrite forallb_forall in H.
  apply list_elem_of_In, H in E. lia.
Qed.

Lemma demo_loadable : loadable demo_disk.
Proof.
  assert (phnum demo_disk = 1%nat) as E by (vm_compute; reflexivity). constructor; rewrite ?E.
  - vm_compute. reflexivity.
  - vm_compute. congruence.
  - intros i Hi. replace i with 0%nat by lia. vm_compute. congruence.
  - intros i Hi. replace i with 0%nat by lia. vm_compute. split; congruence.
  - lia.
Qed.

Lemma bootmain_loads_witness : exists m', bootmain demo_disk (fun _ => 7) = Some (0x100000, m') /\ m' 0x100001 = 2 /\ m' 0x100005 = 0.
Proof.
  destruct (bootmain_loads demo_disk demo_bytes (fun _ => 7) demo_loadable) as (m' & E & Hl). exists m'. split; [exact E|].
  destruct (Hl 0%nat ltac:(vm_compute; lia)) as [H1 H2]. split; [apply (H1 1); vm_compute; split; congruence|apply (H2 5); vm_compute; split; congruence].
Defined.
