(* ===== verification/Mp.v ===== *)
(** * Finding the processors (mp.c, mp.h)

    The BIOS leaves a floating pointer structure somewhere in low memory, which
    names a table with an entry for each processor and interrupt controller.
    Physical memory is a memory of [MemFuns.v]; P2V and V2P are the identity on
    it. *)

From S2P Require Import Prelude Block MemFuns.

Definition NCPU : nat := 8.
(** "_MP_" and "PCMP" *)
Definition mp_sig : list Z := [95; 77; 80; 95].
Definition conf_sig : list Z := [80; 67; 77; 80].

Definition sum (m : ram) (addr : Z) (len : nat) : Z := u8 (foldl Z.add 0 (mem_bytes m addr len)).

(** struct mp is 16 bytes long. *)
Definition is_mp (m : ram) (p : Z) : bool := bool_decide (mem_bytes m p 4 = mp_sig) && (sum m p 16 =? 0).
Fixpoint mpsearch_loop (n : nat) (m : ram) (p e : Z) : option Z :=
  match n with
  | O => None
  | S n' => if p <? e then if is_mp m p then Some p else mpsearch_loop n' m (p + 16) e else None
  end.
Definition mpsearch1 (m : ram) (a : Z) (len : Z) : option Z := mpsearch_loop (Z.to_nat (len / 16) + 1) m a (a + len).

Definition mpsearch (m : ram) : option Z :=
  let bda := 0x400 in
  let p := Z.shiftl (Z.lor (Z.shiftl (m (bda + 0x0F)) 8) (m (bda + 0x0E))) 4 in
  match (if negb (p =? 0) then mpsearch1 m p 1024
         else mpsearch1 m (u32 (Z.lor (Z.shiftl (m (bda + 0x14)) 8) (m (bda + 0x13)) * 1024 - 1024)) 1024) with
  | Some mp => Some mp
  | None => mpsearch1 m 0xF0000 0x10000
  end.

(** struct mp: physaddr 4, imcrp 12; struct mpconf: length 4, version 6,
    lapicaddr 36, 44 bytes in all. *)
Definition mpconfig (m : ram) : option (Z * Z) :=
  match mpsearch m with
  | None => None
  | Some mp =>
      let conf := mem32 m (mp + 4) in
      if conf =? 0 then None
      else if negb (bool_decide (mem_bytes m conf 4 = conf_sig)) then None
      else if negb (m (conf + 6) =? 1) && negb (m (conf + 6) =? 4) then None
      else if negb (sum m conf (Z.to_nat (mem16 m (conf + 4))) =? 0) then None
      else Some (mp, conf)
  end.

Definition MPPROC : Z := 0.
Definition MPBUS : Z := 1.
Definition MPIOAPIC : Z := 2.
Definition MPIOINTR : Z := 3.
Definition MPLINTR : Z := 4.

(** What mpinit sets: the apicid of cpus[0] .. cpus[ncpu - 1], ioapicid, lapic. *)
Record mpst := Mpst { cpus : list Z; ioapicid : Z; lapic : Z }.

(** The loop over the table.  An entry of another type is never passed: the break
    of the default case leaves the switch only, so that the loop goes on with the
    same entry. *)
Fixpoint mp_loop (n : nat) (m : ram) (p e : Z) (s : mpst) : option mpst :=
  match n with
  | O => None
  | S n' =>
      if negb (p <? e) then Some s
      else if m p =? MPPROC then
        mp_loop n' m (p + 20) e (if (length (cpus s) <? NCPU)%nat then Mpst (cpus s ++ [m (p + 1)]) (ioapicid s) (lapic s) else s)
      else if m p =? MPIOAPIC then mp_loop n' m (p + 8) e (Mpst (cpus s) (m (p + 1)) (lapic s))
      else if (m p =? MPBUS) || (m p =? MPIOINTR) || (m p =? MPLINTR) then mp_loop n' m (p + 8) e s
      else mp_loop n' m p e s
  end.

(** How mpinit ends: with the state set and whether it writes the IMCR, in a panic,
    or not within [n] turns. *)
Inductive mp_end := MpDone (s : mpst) (imcr : bool) | MpPanic | MpRuns.
Definition mpinit (n : nat) (m : ram) (s : mpst) : mp_end :=
  match mpconfig m with
  | None => MpPanic
  | Some (mp, conf) =>
      match mp_loop n m (conf + 44) (conf + mem16 m (conf + 4)) (Mpst (cpus s) (ioapicid s) (mem32 m (conf + 36))) with
      | Some s => MpDone s (negb (m (mp + 12) =? 0))
      | None => MpRuns
      end
  end.

(** ** The search *)

(** The first 16-byte boundary of the range with the signature and the checksum. *)
Lemma mpsearch_loop_spec n : forall m p e, e - p < 16 * Z.of_nat n ->
  match mpsearch_loop n m p e with
  | Some q => exists k, 0 <= k /\ q = p + 16 * k /\ q < e /\ is_mp m q = true /\ forall j, 0 <= j < k -> is_mp m (p + 16 * j) = false
  | None => forall j, 0 <= j -> p + 16 * j < e -> is_mp m (p + 16 * j) = false
  end.
Proof.
  induction n as [|n IH]; intros m p e Hn; cbn [mpsearch_loop]; [intros j; lia|]. destruct (Z.ltb_spec p e); [|intros j; lia].
  destruct (is_mp m p) eqn:E.
  - exists 0. rewrite Z.mul_0_r, Z.add_0_r. split_and!; try done; lia.
  - assert (forall j, is_mp m (p + 16 * j) = if decide (j = 0) then false else is_mp m (p + 16 + 16 * (j - 1))) as Hj.
    { intros j. case_decide as Ej; [rewrite Ej, Z.mul_0_r, Z.add_0_r; done|]. f_equal. lia. }
    specialize (IH m (p + 16) e ltac:(lia)). destruct (mpsearch_loop n m (p + 16) e) as [q|].
    + destruct IH as (k & Hk & -> & Hq & Hm & Hf). exists (k + 1). split_and!; try lia; [done|]. intros j Hjk. rewrite Hj. case_decide; [done|]. apply Hf. lia.
    + intros j H0 H1. rewrite Hj. case_decide; [done|]. apply IH; lia.
Qed.

Theorem mpsearch1_first m a len (Hlen : 0 <= len) :
  match mpsearch1 m a len with
  | Some q => exists k, 0 <= k /\ q = a + 16 * k /\ q < a + len /\ is_mp m q = true /\ forall j, 0 <= j < k -> is_mp m (a + 16 * j) = false
  | None => forall j, 0 <= j -> a + 16 * j < a + len -> is_mp m (a + 16 * j) = false
  end.
Proof. apply mpsearch_loop_spec. pose proof (Z.div_mod len 16 ltac:(lia)). pose proof (Z.mod_pos_bound len 16 ltac:(lia)). lia. Qed.

(** ** The table *)

(** Entries as the firmware writes them; [rest] is what mpinit does not look at. *)
Inductive entry := EProc (apicid : Z) (rest : list Z) | EIoapic (id : Z) (rest : list Z) | EOther (type : Z) (rest : list Z).
Definition entry_ok (x : entry) : Prop :=
  match x with
  | EProc _ rest => length rest = 18%nat
  | EIoapic _ rest => length rest = 6%nat
  | EOther t rest => t ∈ [MPBUS; MPIOINTR; MPLINTR] /\ length rest = 7%nat
  end.
Definition encode (x : entry) : list Z := match x with EProc a rest => MPPROC :: a :: rest | EIoapic a rest => MPIOAPIC :: a :: rest | EOther t rest => t :: rest end.

(** What the table says. *)
Definition procs (l : list entry) : list Z := omap (fun x => match x with EProc a _ => Some a | _ => None end) l.
Definition last_ioapic (i : Z) (l : list entry) : Z := foldl (fun i x => match x with EIoapic a _ => a | _ => i end) i l.

Definition table_at (m : ram) (p : Z) (bs : list Z) : Prop := mem_bytes m p (length bs) = bs.

Lemma table_byte m p bs k v : table_at m p bs -> bs !! k = Some v -> m (p + Z.of_nat k) = v.
Proof.
  unfold table_at, mem_bytes. intros E Hk. pose proof (lookup_lt_Some _ _ _ Hk). rewrite <-E, list_lookup_fmap, lookup_seq_lt in Hk by done.
  by injection Hk.
Qed.

Lemma table_app m p a b : table_at m p (a ++ b) -> table_at m p a /\ table_at m (p + Z.of_nat (length a)) b.
Proof.
  unfold table_at, mem_bytes. rewrite length_app, seq_app, fmap_app. intros E. apply app_inj_1 in E as [E1 E2]; [|by rewrite length_fmap, length_seq].
  split; [done|]. rewrite <-E2 at 2. rewrite (Nat.add_comm 0 (length a)), <-fmap_add_seq, <-list_fmap_compose. apply list_fmap_ext. intros k x _. cbn. f_equal. lia.
Qed.

Lemma entry_turn m p e x bs s n : entry_ok x -> table_at m p (encode x ++ bs) -> p < e ->
  mp_loop (S n) m p e s =
  mp_loop n m (p + Z.of_nat (length (encode x))) e
    match x with
    | EProc a _ => if (length (cpus s) <? NCPU)%nat then Mpst (cpus s ++ [a]) (ioapicid s) (lapic s) else s
    | EIoapic a _ => Mpst (cpus s) a (lapic s)
    | EOther _ _ => s
    end.
Proof.
  intros Hx Ht Hp. cbn [mp_loop]. rewrite (proj2 (Z.ltb_lt p e)) by done.
  assert (forall v, (encode x ++ bs) !! 0%nat = Some v -> m p = v) as H0.
  { intros v Hv. rewrite <-(table_byte m p _ 0 v Ht Hv). f_equal. lia. }
  pose proof (fun v => table_byte m p _ 1 v Ht) as H1. change (Z.of_nat 1) with 1 in H1.
  destruct x as [a r|a r|t r]; cbn in H0, H1, Hx |- *; rewrite (H0 _ eq_refl).
  - by rewrite (H1 _ eq_refl), Hx.
  - by rewrite (H1 _ eq_refl), Hx.
  - destruct Hx as [Hx ->]. repeat (apply elem_of_cons in Hx as [->|Hx]; [reflexivity|]). by apply elem_of_nil in Hx.
Qed.

(** The loop reads the table back: the processors in order, as many as there is
    room for, and the last I/O APIC. *)
Lemma mp_loop_reads l : forall n m p e s, Forall entry_ok l -> table_at m p (mjoin (encode <$> l)) ->
  e = p + Z.of_nat (length (mjoin (encode <$> l))) -> (length (cpus s) <= NCPU)%nat -> (length l < n)%nat ->
  mp_loop n m p e s = Some (Mpst (take NCPU (cpus s ++ procs l)) (last_ioapic (ioapicid s) l) (lapic s)).
Proof.
  induction l as [|x l IH]; intros [|n] m p e s Hl Ht He Hs Hn; try (cbn in Hn; lia).
  - cbn in He |- *. rewrite (proj2 (Z.ltb_ge p e)) by lia. cbn. rewrite app_nil_r, take_ge by done. by destruct s.
  - apply Forall_cons in Hl as [Hx Hl]. cbn [fmap list_fmap mjoin list_join] in Ht, He. rewrite length_app in He.
    assert (0 < length (encode x))%nat by (destruct x; cbn; lia).
    rewrite (entry_turn m p e x _ s n Hx Ht) by lia. apply table_app in Ht as [_ Ht].
    rewrite (IH n m _ e _ Hl Ht); [|by rewrite He, Nat2Z.inj_add, Z.add_assoc| |cbn in Hn; lia].
    + f_equal. destruct x as [a r|a r|t r]; try done.
      change (procs (EProc a r :: l)) with ([a] ++ procs l).
      destruct (Nat.ltb_spec (length (cpus s)) NCPU); cbn [cpus ioapicid lapic]; [by rewrite <-(assoc_L (++))|].
      f_equal. by rewrite !take_app_le by lia.
    + destruct x as [a r|a r|t r]; try done. destruct (Nat.ltb_spec (length (cpus s)) NCPU); [|done]. cbn. rewrite length_app. cbn. lia.
Qed.

(** When mpconfig accepts a table, and the table holds the entries [l], mpinit ends
    with the local APIC's address of the header, cpus[] holding the apicids of the
    first eight processors of the table in order, and ioapicid that of its last
    I/O APIC. *)
Theorem mpinit_reads m mp conf l s0 : mpconfig m = Some (mp, conf) ->
  Forall entry_ok l -> table_at m (conf + 44) (mjoin (encode <$> l)) ->
  mem16 m (conf + 4) = 44 + Z.of_nat (length (mjoin (encode <$> l))) -> cpus s0 = [] ->
  mpinit (S (length l)) m s0 =
  MpDone (Mpst (take NCPU (procs l)) (last_ioapic (ioapicid s0) l) (mem32 m (conf + 36))) (negb (m (mp + 12) =? 0)).
Proof.
  intros Hc Hl Ht Hn E. unfold mpinit. rewrite Hc, (mp_loop_reads l); [by rewrite E|done|done|rewrite Hn; lia|cbn; rewrite E; cbn; lia|lia].
Qed.

(** An entry of a type above 4 is never passed, however long the loop runs: the
    panic for an unsuitable machine is not reached. *)
Theorem mpinit_unknown_hangs m mp conf s0 : mpconfig m = Some (mp, conf) -> 44 < mem16 m (conf + 4) -> 4 < m (conf + 44) ->
  forall n, mpinit n m s0 = MpRuns.
Proof.
  intros Hc Hn H4 n. unfold mpinit. rewrite Hc.
  assert (forall n s, mp_loop n m (conf + 44) (conf + mem16 m (conf + 4)) s = None) as ->; [|done].
  clear n. induction n as [|n IH]; intros s; cbn [mp_loop]; [done|]. rewrite (proj2 (Z.ltb_lt _ _)) by lia.
  unfold MPPROC, MPIOAPIC, MPBUS, MPIOINTR, MPLINTR.
  rewrite !(proj2 (Z.eqb_neq (m (conf + 44)) _)) by lia. apply IH.
Qed.

(** ** A machine *)

Definition at_bytes (a : Z) (bs : list Z) (m : ram) : ram := fun k => if (a <=? k) && (k <? a + Z.of_nat (length bs)) then nth (Z.to_nat (k - a)) bs 0 else m k.

(** Two processors and an I/O APIC, described in the BIOS ROM. *)
Definition demo_entries : list entry := [EProc 0 (repeat 0 18); EProc 1 (repeat 0 18); EOther MPBUS (repeat 0 7); EIoapic 2 (repeat 0 6)].
Definition demo_header : list Z := conf_sig ++ [100; 0; 4; 132] ++ repeat 0 28 ++ [0; 0; 224; 254] ++ repeat 0 4.
Definition demo_ram : ram :=
  at_bytes 0xF6A80 (demo_header ++ mjoin (encode <$> demo_entries))
    (at_bytes 0xF6A70 (mp_sig ++ [128; 106; 15; 0; 1; 4; 167] ++ repeat 0 5) (fun _ => 0)).

Lemma mpinit_reads_witness :
  mpinit 5 demo_ram (Mpst [] 0 0) = MpDone (Mpst [0; 1] 2 0xFEE00000) false.
Proof. apply (mpinit_reads demo_ram 0xF6A70 0xF6A80 demo_entries); [vm_compute; reflexivity|repeat (constructor; [cbn; try (split; [set_solver|]); reflexivity|]); constructor|vm_compute; reflexivity..]. Defined.
