(* ===== verification/Tools.v ===== *)
(** * Counting and listing (wc.c, ls.c)

    Programs see files through system calls: the reads of a file as the list of
    chunks they return, then the result that ends the loop; a directory as the
    list of its reads. *)

From S2P Require Import Prelude CString Block FsDefs Printf.

(** printf of a line, on arguments that are numbers or strings: the argument words
    point to the strings. *)
Definition put_line (fmt : string) (args : list (Z + list Z)) : option (list Z) :=
  printf (fun k => match args !! k with Some (inl n) => n | Some (inr _) => Z.of_nat k + 1 | None => 0 end)
         (fun p => match args !! Z.to_nat (p - 1) with Some (inr s) => s | _ => [] end) (bytes_of fmt ++ [10]).

(** ** wc *)

Record wcst := Wcst { wl : Z; ww : Z; wc_c : Z; inword : bool }.
(** " \r\t\n\v" *)
Definition blanks : list Z := [32; 13; 9; 10; 11].

Definition wc_char (s : wcst) (b : Z) : wcst :=
  let c := s32 (wc_c s + 1) in
  let l := if b =? 10 then s32 (wl s + 1) else wl s in
  match strchr blanks b with
  | Some _ => Wcst l (ww s) c false
  | None => if inword s then Wcst l (ww s) c true else Wcst l (s32 (ww s + 1)) c true
  end.
Definition wc_loop (cs : list (list Z)) : wcst := foldl (fun s chunk => foldl wc_char s chunk) (Wcst 0 0 0 false) cs.

(** The chunks read, then [n <= 0]; the output, and whether wc returns to main. *)
Definition wc (cs : list (list Z)) (n : Z) (name : list Z) : option (list Z) * bool :=
  let s := wc_loop cs in
  if n <? 0 then (put_line "wc: read error" [], false)
  else (put_line "%d %d %d %s" [inl (wl s); inl (ww s); inl (wc_c s); inr name], true).

(** main over its arguments; [file] is what open and the reads of a file give. *)
Fixpoint wc_files (file : list Z -> option (list (list Z) * Z)) (argv : list (list Z)) : option (list Z) :=
  match argv with
  | [] => Some []
  | a :: argv' =>
      match file a with
      | None => put_line "wc: cannot open %s" [inr a]
      | Some (cs, n) =>
          let '(out, more) := wc cs n a in
          if more then o ← out; o' ← wc_files file argv'; Some (o ++ o') else out
      end
  end.
Definition wc_main (stdin : list (list Z) * Z) (file : list Z -> option (list (list Z) * Z)) (argv : list (list Z)) : option (list Z) :=
  match argv with
  | [] | [_] => fst (wc (fst stdin) (snd stdin) [])
  | _ :: args => wc_files file args
  end.

(** ** ls *)

(** The loop back from the NUL to the last slash: the index after it. *)
Fixpoint slash_back (path : list Z) (k : nat) : nat :=
  if decide (path !! k = Some 47) then S k else match k with O => O | S k' => slash_back path k' end.

(** The string fmtname returns, and the static buffer after it. *)
Definition fmtname (buf path : list Z) : list Z * list Z :=
  let p := drop (slash_back path (Z.to_nat (strlen path))) path in
  if Z.of_nat DIRSIZ <=? strlen p then (cstr p, buf)
  else
    let n := Z.to_nat (strlen p) in
    let buf := take n p ++ replicate (DIRSIZ - n) 32 ++ drop DIRSIZ buf in
    (cstr buf, buf).

Record stat := Stat { st_type : Z; st_ino : Z; st_size : Z; st_id : list Z; st_mode : Z }.

(** if (st.mode & bit) mode[i] = c; *)
Definition flag (m bit : Z) (i : nat) (c : Z) (mode : list Z) : list Z := if Z.land m bit =? 0 then mode else <[i:=c]> mode.
Definition mode_flags (m : Z) : list Z :=
  let mode := replicate 7 45 ++ [0] in
  let mode := flag m MODE_RUSR 1 114 mode in
  let mode := flag m MODE_WUSR 2 119 mode in
  let mode := flag m MODE_XUSR 3 120 mode in
  let mode := flag m MODE_ROTH 4 114 mode in
  let mode := flag m MODE_WOTH 5 119 mode in
  flag m MODE_XOTH 6 120 mode.

Definition ls_line (name : list Z) (st : stat) (mode : list Z) : option (list Z) :=
  put_line "%s %s %s %d %d %d" [inr name; inr (st_id st); inr mode; inl (st_type st); inl (st_ino st); inl (st_size st)].

(** The reads of the directory, each meant to give one entry. *)
Fixpoint ls_entries (stat_of : list Z -> option stat) (nbuf path : list Z) (reads : list (list Z)) : option (list Z) * list Z :=
  match reads with
  | [] => (Some [], nbuf)
  | de :: reads' =>
      if negb (length de =? 16)%nat then (Some [], nbuf)
      else if de_inum de =? 0 then ls_entries stat_of nbuf path reads'
      else
        let buf := cstr path ++ [47] ++ take DIRSIZ (de_name de) ++ [0] in
        let '(out, nbuf) :=
          match stat_of (cstr buf) with
          | None => (put_line "ls: cannot stat %s" [inr buf], nbuf)
          | Some st =>
              let mode := mode_flags (st_mode st) in
              let mode := if st_type st =? T_FILE then <[0%nat:=45]> mode else if st_type st =? T_DIR then <[0%nat:=100]> mode else mode in
              let '(name, nbuf) := fmtname nbuf buf in
              (ls_line name st mode, nbuf)
          end in
        let '(rest, nbuf) := ls_entries stat_of nbuf path reads' in
        (o ← out; r ← rest; Some (o ++ r), nbuf)
  end.

(** What ls finds at a path: open fails; fstat fails; or the file's stat and, for
    a directory, its reads. *)
Inductive found := NoOpen | NoStat | Opened (st : stat) (reads : list (list Z)).
Definition ls (look : list Z -> found) (stat_of : list Z -> option stat) (nbuf path : list Z) : option (list Z) * list Z :=
  match look (cstr path) with
  | NoOpen => (put_line "ls: cannot open %s" [inr path], nbuf)
  | NoStat => (put_line "ls: cannot stat %s" [inr path], nbuf)
  | Opened st reads =>
      if st_type st =? T_FILE then
        let '(name, nbuf) := fmtname nbuf path in
        (ls_line name st (<[0%nat:=45]> (mode_flags (st_mode st))), nbuf)
      else if st_type st =? T_DIR then
        if 512 <? strlen path + 1 + Z.of_nat DIRSIZ + 1 then (put_line "ls: path too long" [], nbuf)
        else ls_entries stat_of nbuf path reads
      else (Some [], nbuf)
  end.

Fixpoint ls_args (look : list Z -> found) (stat_of : list Z -> option stat) (nbuf : list Z) (args : list (list Z)) : option (list Z) :=
  match args with
  | [] => Some []
  | a :: args' => let '(out, nbuf) := ls look stat_of nbuf a in o ← out; r ← ls_args look stat_of nbuf args'; Some (o ++ r)
  end.
Definition ls_main (look : list Z -> found) (stat_of : list Z -> option stat) (argv : list (list Z)) : option (list Z) :=
  let nbuf := replicate (S DIRSIZ) 0 in
  match argv with
  | [] | [_] => (ls look stat_of nbuf [46; 0]).1
  | _ :: args => ls_args look stat_of nbuf args
  end.

(** ** The lines printed *)

(** The decimal form of an int argument. *)
Definition dec (n : Z) : list Z := default [] (printint (s32 n) 10 true).
Lemma dec_some n : printint (s32 n) 10 true = Some (dec n).
Proof. unfold dec, printint. by destruct (printint_some digits_upper (s32 n) 10 true ltac:(lia)) as [o ->]. Qed.

Ltac put_line_eq := unfold put_line, printf; match goal with |- context [bytes_of ?f ++ [10]] =>
  let l := eval vm_compute in (bytes_of f ++ [10]) in change (bytes_of f ++ [10]) with l end; cbn -[printint s32 dec]; repeat (rewrite dec_some; cbn -[printint s32 dec]); rewrite <-?app_assoc; reflexivity.

Lemma wc_line a b c s :
  put_line "%d %d %d %s" [inl a; inl b; inl c; inr s] = Some (dec a ++ [32] ++ dec b ++ [32] ++ dec c ++ [32] ++ cstr s ++ [10]).
Proof. put_line_eq. Qed.

Lemma ls_line_eq name st mode :
  ls_line name st mode = Some (cstr name ++ [32] ++ cstr (st_id st) ++ [32] ++ cstr mode ++ [32] ++
    dec (st_type st) ++ [32] ++ dec (st_ino st) ++ [32] ++ dec (st_size st) ++ [10]).
Proof. unfold ls_line. put_line_eq. Qed.

(** ** What wc counts *)

Definition blank (b : Z) : bool := bool_decide (b ∈ blanks).
(** A word starts at a byte that is no blank and comes first or after a blank. *)
Definition word_at (text : list Z) (i : nat) : bool :=
  match text !! i with
  | Some b => negb (blank b) && match i with O => true | S j => from_option blank true (text !! j) end
  | None => false
  end.
Definition count_words (text : list Z) : nat := length (List.filter (word_at text) (seq 0 (length text))).
Definition count_lines (text : list Z) : nat := length (List.filter (Z.eqb 10) text).

Lemma strchr_None l b : 0 ∉ l -> strchr l b = None <-> b ∉ l.
Proof.
  induction l as [|c l IH]; intros H0; [by split; [intros _; apply not_elem_of_nil|]|]. apply not_elem_of_cons in H0 as [Hc H0].
  cbn [strchr]. rewrite (proj2 (Z.eqb_neq c 0)), not_elem_of_cons, <-IH by done.
  destruct (Z.eqb_spec c b); [by split; [|intros []]|]. rewrite fmap_None. naive_solver.
Qed.

Lemma strchr_blanks b : strchr blanks b = None <-> blank b = false.
Proof. unfold blank. rewrite bool_decide_eq_false. by apply strchr_None; apply (bool_decide_unpack _). Qed.

Lemma word_at_app text b i : (i < length text)%nat -> word_at (text ++ [b]) i = word_at text i.
Proof.
  intros Hi. unfold word_at. rewrite lookup_app_l by done. destruct (text !! i); [|done]. destruct i as [|j]; [done|]. by rewrite lookup_app_l by lia.
Qed.

Lemma count_words_app text b :
  count_words (text ++ [b]) = (count_words text + if negb (blank b) && from_option blank true (last text) then 1 else 0)%nat.
Proof.
  unfold count_words. rewrite length_app, Nat.add_comm, seq_S, List.filter_app, length_app. cbn [Nat.add]. f_equal.
  - f_equal. apply List.filter_ext_in. intros i Hi. apply in_seq in Hi. apply word_at_app. lia.
  - cbn [List.filter]. replace (word_at (text ++ [b]) (length text)) with (negb (blank b) && from_option blank true (last text)).
    { by destruct (negb (blank b) && _). }
    unfold word_at. rewrite list_lookup_middle by done. f_equal. rewrite last_lookup.
    destruct (length text) as [|n] eqn:E; cbn [Nat.pred]; [by apply nil_length_inv in E as ->|]. by rewrite lookup_app_l by lia.
Qed.

Lemma count_le text : (count_words text <= length text /\ count_lines text <= length text)%nat.
Proof. split; [unfold count_words; rewrite List.filter_length_le, length_seq; done|apply List.filter_length_le]. Qed.

Lemma wc_chars text : Z.of_nat (length text) < 2 ^ 31 ->
  foldl wc_char (Wcst 0 0 0 false) text =
  Wcst (Z.of_nat (count_lines text)) (Z.of_nat (count_words text)) (Z.of_nat (length text)) (negb (from_option blank true (last text))).
Proof.
  induction text as [|b text IH] using rev_ind; [done|]. rewrite length_app. cbn [length]. intros Hn.
  rewrite foldl_snoc, IH by lia. clear IH. rewrite count_words_app, last_snoc. unfold wc_char, count_lines. cbn [wl ww wc_c inword from_option].
  rewrite List.filter_app, length_app. cbn [List.filter]. fold (count_lines text). destruct (count_le text).
  assert (forall k, (k <= length text)%nat -> s32 (Z.of_nat k + 1) = Z.of_nat (k + 1)) as Hk by (intros; rewrite s32_id; unfold is_s32; lia).
  rewrite !Hk, (Z.eqb_sym b) by done.
  assert ((if 10 =? b then Z.of_nat (count_lines text + 1) else Z.of_nat (count_lines text)) = Z.of_nat (count_lines text + length (if 10 =? b then [b] else []))) as ->.
  { destruct (10 =? b); cbn [length]; lia. }
  destruct (strchr blanks b) eqn:E.
  - assert (blank b = true) as ->. { apply not_false_is_true. rewrite <-strchr_blanks. by rewrite E. } cbn [andb negb]. by rewrite Nat.add_0_r.
  - apply strchr_blanks in E. rewrite E. cbn [andb negb]. destruct (from_option blank true (last text)); cbn [negb]; [done|by rewrite Nat.add_0_r].
Qed.

(** Whatever the sizes of the reads, wc prints the number of newlines, of words and
    of bytes of the text read. *)
Theorem wc_counts cs name : Z.of_nat (length (concat cs)) < 2 ^ 31 ->
  let text := concat cs in
  wc cs 0 name = (Some (dec (Z.of_nat (count_lines text)) ++ [32] ++ dec (Z.of_nat (count_words text)) ++ [32] ++
                        dec (Z.of_nat (length text)) ++ [32] ++ cstr name ++ [10]), true).
Proof.
  intros Hn text. unfold wc. cbn [Z.ltb Z.compare].
  assert (forall s, foldl (fun s chunk => foldl wc_char s chunk) s cs = foldl wc_char s text) as Hc.
  { subst text. clear Hn. induction cs as [|c cs IH]; intros s; [done|]. cbn [foldl concat]. by rewrite foldl_app, IH. }
  unfold wc_loop. rewrite Hc, wc_chars by done. cbn [wl ww wc_c]. by rewrite wc_line.
Qed.

(** ** What ls lists *)

Definition nbuf_ok (nbuf : list Z) : Prop := length nbuf = S DIRSIZ /\ nbuf !! DIRSIZ = Some 0.
Definition pad (nm : list Z) : list Z := nm ++ replicate (DIRSIZ - length nm) 32.

Lemma slash_back_spec path k j : (forall i, (j <= i <= k)%nat -> path !! i <> Some 47) -> j = 0%nat \/ path !! (j - 1)%nat = Some 47 ->
  (j <= S k)%nat -> slash_back path k = j.
Proof.
  induction k as [|k IH]; intros Hno Hj Hk; cbn [slash_back]; case_decide as E.
  - destruct (decide (j = 0%nat)) as [->|]; [by specialize (Hno 0%nat ltac:(lia))|lia].
  - destruct Hj as [->|Hj]; [done|]. replace (j - 1)%nat with 0%nat in Hj by lia. done.
  - destruct (decide (j <= S k)%nat); [by specialize (Hno (S k) ltac:(lia))|lia].
  - apply IH; [intros i Hi; apply Hno; lia|done|]. destruct (decide (j = S (S k))) as [->|]; [|lia]. destruct Hj as [|Hj]; [done|].
    by replace (S (S k) - 1)%nat with (S k) in Hj by lia.
Qed.

(** The last element of a path, padded with blanks to the width of a name. *)
Lemma fmtname_spec nbuf pre nm junk : nbuf_ok nbuf -> Forall (fun c => c <> 0) (pre ++ nm) -> 47 ∉ nm -> pre = [] \/ last pre = Some 47 ->
  (fmtname nbuf (pre ++ nm ++ 0 :: junk)).1 = pad nm /\ nbuf_ok (fmtname nbuf (pre ++ nm ++ 0 :: junk)).2.
Proof.
  intros [Hl Hz] Hnz Hs Hp. unfold fmtname.
  assert (slash_back (pre ++ nm ++ 0 :: junk) (Z.to_nat (strlen (pre ++ nm ++ 0 :: junk))) = length pre) as ->.
  { rewrite strlen_length, Nat2Z.id, app_assoc, cstr_nz_app by done. change (cstr (0 :: junk)) with (@nil Z). rewrite app_nil_r, length_app, <-app_assoc.
    apply slash_back_spec; [| |lia].
    - intros i Hi. rewrite lookup_app_r by lia. destruct (decide (i - length pre < length nm)%nat).
      + rewrite lookup_app_l by done. intros E. by apply list_elem_of_lookup_2 in E.
      + replace (i - length pre)%nat with (length nm) by lia. by rewrite list_lookup_middle.
    - destruct Hp as [->|Hp]; [by left|right]. rewrite last_lookup in Hp. rewrite lookup_app_l; [by rewrite Nat.sub_1_r|].
      pose proof (lookup_lt_Some _ _ _ Hp). lia. }
  apply Forall_app in Hnz as [_ Hnz]. rewrite drop_app_length, strlen_length, cstr_nz_app by done. change (cstr (0 :: junk)) with (@nil Z).
  rewrite app_nil_r, Nat2Z.id, take_app_length. destruct (Z.leb_spec (Z.of_nat DIRSIZ) (Z.of_nat (length nm))).
  - split; [|done]. unfold pad. replace (DIRSIZ - length nm)%nat with 0%nat by lia. by rewrite app_nil_r.
  - assert (drop DIRSIZ nbuf = [0]) as ->.
    { rewrite (drop_S _ 0 _ Hz). f_equal. apply nil_length_inv. rewrite length_drop. lia. }
    cbn [fst snd]. split.
    + rewrite app_assoc. fold (pad nm). rewrite cstr_nz_app; [by rewrite app_nil_r|]. apply Forall_app. split; [done|]. by apply Forall_replicate.
    + unfold nbuf_ok. rewrite !length_app, length_replicate. cbn [length]. split; [lia|].
      rewrite lookup_app_r, lookup_app_r by (rewrite ?length_replicate; lia). rewrite length_replicate. by replace (DIRSIZ - length nm - (DIRSIZ - length nm))%nat with 0%nat by lia.
Qed.

(** The permission letters. *)
Definition letter (m k c : Z) : Z := if Z.testbit m k then c else 45.
Definition letters (m : Z) : list Z := [letter m 5 114; letter m 4 119; letter m 3 120; letter m 2 114; letter m 1 119; letter m 0 120].

Lemma land_bit m k : 0 <= k -> (Z.land m (2 ^ k) =? 0) = negb (Z.testbit m k).
Proof.
  intros Hk. destruct (Z.testbit m k) eqn:E; cbn [negb]; [apply Z.eqb_neq|apply Z.eqb_eq; apply Z.bits_inj'; intros n Hn].
  - intros H. apply (f_equal (fun z => Z.testbit z k)) in H. by rewrite Z.land_spec, E, Z.pow2_bits_true, Z.bits_0 in H by done.
  - rewrite Z.land_spec, Z.bits_0, Z.pow2_bits_eqb by done. destruct (Z.eqb_spec k n) as [<-|]; [by rewrite E|by rewrite andb_false_r].
Qed.

Lemma mode_flags_letters m : mode_flags m = [45] ++ letters m ++ [0].
Proof.
  unfold mode_flags, flag. change MODE_RUSR with (2 ^ 5). change MODE_WUSR with (2 ^ 4). change MODE_XUSR with (2 ^ 3).
  change MODE_ROTH with (2 ^ 2). change MODE_WOTH with (2 ^ 1). change MODE_XOTH with (2 ^ 0).
  rewrite !land_bit by done. unfold letters, letter.
  destruct (Z.testbit m 5), (Z.testbit m 4), (Z.testbit m 3), (Z.testbit m 2), (Z.testbit m 1), (Z.testbit m 0); reflexivity.
Qed.
Lemma cstr_letters c m : c <> 0 -> cstr (c :: letters m ++ [0]) = c :: letters m.
Proof. intros Hc. apply (cstr_nz_app (c :: letters m) [0]). unfold letters, letter. repeat (constructor; [try done; by case_match|]). constructor. Qed.

Section Listing.
Context (stat_of : list Z -> option stat).

(** The name of an entry, its path, and the line for it. *)
Definition entry_name (de : list Z) : list Z := cstrn DIRSIZ (de_name de).
Definition type_letter (t : Z) : Z := if t =? T_DIR then 100 else 45.
Definition entry_line (path de : list Z) : list Z :=
  let full := cstr path ++ [47] ++ entry_name de in
  match stat_of full with
  | None => bytes_of "ls: cannot stat " ++ full ++ [10]
  | Some st => pad (entry_name de) ++ [32] ++ cstr (st_id st) ++ [32] ++ (type_letter (st_type st) :: letters (st_mode st)) ++ [32] ++
               dec (st_type st) ++ [32] ++ dec (st_ino st) ++ [32] ++ dec (st_size st) ++ [10]
  end.
Definition live (de : list Z) : bool := negb (de_inum de =? 0).

Lemma cstr_split l : exists junk, l ++ [0] = cstr l ++ 0 :: junk.
Proof.
  induction l as [|c l [junk IH]]; [by exists []|]. cbn. destruct (Z.eqb_spec c 0) as [->|]; [by exists (l ++ [0])|].
  exists junk. cbn. by rewrite IH.
Qed.

Lemma cannot_stat b : put_line "ls: cannot stat %s" [inr b] = Some (bytes_of "ls: cannot stat " ++ cstr b ++ [10]).
Proof. put_line_eq. Qed.

Lemma cstr_mode t m :
  cstr (if t =? T_FILE then <[0%nat:=45]> (mode_flags m) else if t =? T_DIR then <[0%nat:=100]> (mode_flags m) else mode_flags m) =
  type_letter t :: letters m.
Proof.
  rewrite mode_flags_letters. unfold type_letter. destruct (Z.eqb_spec t T_FILE) as [->|]; [by apply (cstr_letters 45)|].
  destruct (t =? T_DIR); [by apply (cstr_letters 100)|by apply (cstr_letters 45)].
Qed.
Lemma cstr_pad nm : Forall (fun c => c <> 0) nm -> cstr (pad nm) = pad nm.
Proof. intros Hn. rewrite <-(app_nil_r (pad nm)) at 1. rewrite cstr_nz_app; [apply app_nil_r|]. apply Forall_app. split; [done|by apply Forall_replicate]. Qed.

Lemma ls_entries_spec path reads : forall nbuf, nbuf_ok nbuf -> Forall (fun de => length de = 16%nat) reads ->
  Forall (fun de => 47 ∉ entry_name de) reads ->
  (ls_entries stat_of nbuf path reads).1 = Some (mjoin (entry_line path <$> List.filter live reads)) /\ nbuf_ok (ls_entries stat_of nbuf path reads).2.
Proof.
  induction reads as [|de reads IH]; intros nbuf Hb H16 Hs; [done|].
  apply Forall_cons in H16 as [Hd H16]. apply Forall_cons in Hs as [Hn Hs]. cbn [ls_entries List.filter]. rewrite Hd. cbn [Nat.eqb negb].
  unfold live at 1. destruct (de_inum de =? 0); cbn [negb]; [by apply IH|].
  destruct (cstr_split (take DIRSIZ (de_name de))) as [junk Ej]. rewrite Ej. change (cstr (take DIRSIZ (de_name de))) with (entry_name de).
  pose proof (cstr_nz path) as Hp. assert (Hz : Forall (fun c => c <> 0) (entry_name de)) by apply cstr_nz.
  assert (Forall (fun c => c <> 0) ((cstr path ++ [47]) ++ entry_name de)) as Hnz by (repeat apply Forall_app_2; by try constructor).
  replace (cstr path ++ [47] ++ entry_name de ++ 0 :: junk) with ((cstr path ++ [47]) ++ entry_name de ++ 0 :: junk) by (by rewrite <-(assoc_L (++))).
  assert (cstr ((cstr path ++ [47]) ++ entry_name de ++ 0 :: junk) = cstr path ++ [47] ++ entry_name de) as Ec.
  { rewrite app_assoc, cstr_nz_app by done. change (cstr (0 :: junk)) with (@nil Z). by rewrite app_nil_r, <-app_assoc. }
  rewrite Ec. cbn [fmap list_fmap]. unfold mjoin at 1, list_join at 1. fold (@list_join Z). unfold entry_line at 1. destruct (stat_of _) as [st|].
  - destruct (fmtname_spec nbuf (cstr path ++ [47]) (entry_name de) junk Hb Hnz Hn) as [E1 E2]; [right; by rewrite last_snoc|].
    destruct (fmtname nbuf _) as [name nbuf1]. cbn [fst snd] in E1, E2. subst name. specialize (IH nbuf1 E2 H16 Hs).
    destruct (ls_entries stat_of nbuf1 path reads) as [rest nbuf2]. cbn [fst snd] in IH |- *. destruct IH as [-> IH]. split; [|done].
    rewrite ls_line_eq, cstr_mode, cstr_pad by done. cbn -[dec pad letters]. by rewrite <-!app_assoc.
  - specialize (IH nbuf Hb H16 Hs). destruct (ls_entries stat_of nbuf path reads) as [rest nbuf2]. cbn [fst snd] in IH |- *. destruct IH as [-> IH]. split; [|done].
    rewrite cannot_stat, Ec. done.
Qed.

(** Listing a directory whose path fits the buffer prints one line for each entry
    in use, in order: the name padded to the width of a name, the owner, the
    type and permission letters, and the numbers; or that it cannot be stat'ed. *)
Theorem ls_directory look nbuf path st reads : look (cstr path) = Opened st reads -> st_type st = T_DIR -> strlen path <= 496 -> nbuf_ok nbuf ->
  Forall (fun de => length de = 16%nat /\ 47 ∉ entry_name de) reads ->
  (ls look stat_of nbuf path).1 = Some (mjoin (entry_line path <$> List.filter live reads)).
Proof.
  intros Hl Ht Hp Hb Hr. unfold ls. rewrite Hl, Ht. change (T_DIR =? T_FILE) with false; change (T_DIR =? T_DIR) with true; cbv iota. rewrite (proj2 (Z.ltb_ge 512 _)) by (unfold DIRSIZ; lia).
  apply Forall_and in Hr as [H16 Hs]. by apply ls_entries_spec.
Qed.

(** So does ls without arguments, of the current directory. *)
Corollary ls_main_directory look prog st reads : look [46] = Opened st reads -> st_type st = T_DIR ->
  Forall (fun de => length de = 16%nat /\ 47 ∉ entry_name de) reads ->
  ls_main look stat_of [prog] = Some (mjoin (entry_line [46] <$> List.filter live reads)).
Proof. intros Hl Ht Hr. unfold ls_main. rewrite (ls_directory look _ [46; 0] st reads); [done|done|done|done|split; reflexivity|done]. Qed.
End Listing.
