(* ===== verification/Apic.v ===== *)
(** * Interrupt controllers (ioapic.c, lapic.c, picirq.c)

    The I/O APIC is an index register and the registers it selects by its low
    byte.  The local APIC is the sequence of the writes to it, with what its
    version and command registers answer as arguments. *)

From S2P Require Import Prelude CString Block MemFuns Trap.

Definition REG_ID : Z := 0x00.
Definition REG_VER : Z := 0x01.
Definition REG_TABLE : Z := 0x10.
Definition INT_DISABLED : Z := 0x00010000.

Record ioapic := IoApic { ioreg : Z; iodata : Z -> Z }.
Definition ioapicread (reg : Z) (s : ioapic) : Z * ioapic := (iodata s (u8 reg), IoApic reg (iodata s)).
Definition ioapicwrite (reg data : Z) (s : ioapic) : ioapic := IoApic reg (fun k => if k =? u8 reg then u32 data else iodata s k).

Fixpoint ioapic_mask (n : nat) (i : Z) (s : ioapic) : ioapic :=
  match n with
  | O => s
  | S n' =>
      let s := ioapicwrite (REG_TABLE + 2 * i) (Z.lor INT_DISABLED (T_IRQ0 + i)) s in
      let s := ioapicwrite (REG_TABLE + 2 * i + 1) 0 s in
      ioapic_mask n' (i + 1) s
  end.
(** The state after, and whether the id differs from the one of the MP table. *)
Definition ioapicinit (ioapicid : Z) (s : ioapic) : ioapic * bool :=
  let '(ver, s) := ioapicread REG_VER s in
  let maxintr := Z.land (Z.shiftr ver 16) 0xFF in
  let '(id, s) := ioapicread REG_ID s in
  (ioapic_mask (Z.to_nat (maxintr + 1)) 0 s, negb (Z.shiftr id 24 =? ioapicid)).

Definition ioapicenable (irq cpunum : Z) (s : ioapic) : ioapic :=
  let s := ioapicwrite (REG_TABLE + 2 * irq) (T_IRQ0 + irq) s in
  ioapicwrite (REG_TABLE + 2 * irq + 1) (Z.shiftl cpunum 24) s.

(** The two ports of picinit. *)
Definition picinit : list (Z * Z) := [(0x20 + 1, 0xFF); (0xA0 + 1, 0xFF)].

(** ** The local APIC *)

Definition ID : Z := 0x0020 / 4.
Definition VER : Z := 0x0030 / 4.
Definition TPR : Z := 0x0080 / 4.
Definition EOI : Z := 0x00B0 / 4.
Definition SVR : Z := 0x00F0 / 4.
Definition ENABLE : Z := 0x00000100.
Definition ESR : Z := 0x0280 / 4.
Definition ICRLO : Z := 0x0300 / 4.
Definition INIT : Z := 0x00000500.
Definition STARTUP : Z := 0x00000600.
Definition ASSERT : Z := 0x00004000.
Definition LEVEL : Z := 0x00008000.
Definition BCAST : Z := 0x00080000.
Definition ICRHI : Z := 0x0310 / 4.
Definition TIMER : Z := 0x0320 / 4.
Definition X1 : Z := 0x0000000B.
Definition PERIODIC : Z := 0x00020000.
Definition PCINT : Z := 0x0340 / 4.
Definition LINT0 : Z := 0x0350 / 4.
Definition LINT1 : Z := 0x0360 / 4.
Definition ERROR : Z := 0x0370 / 4.
Definition MASKED : Z := 0x00010000.
Definition TICR : Z := 0x0380 / 4.
Definition TDCR : Z := 0x03E0 / 4.
Definition IRQ_ERROR : Z := 19.

(** The writes so far, in order. *)
Definition lapicw (index value : Z) (log : list (Z * Z)) : list (Z * Z) := log ++ [(index, u32 value)].

(** while(lapic[ICRLO] & DELIVS), within [n] reads; [busy k] is what the k-th one shows. *)
Fixpoint lapic_wait (n : nat) (busy : nat -> bool) (k : nat) : bool :=
  match n with O => false | S n' => if busy k then lapic_wait n' busy (S k) else true end.

(** None while the wait has not ended. *)
Definition lapicinit (n : nat) (lapic : bool) (ver : Z) (busy : nat -> bool) (log : list (Z * Z)) : option (list (Z * Z)) :=
  if negb lapic then Some log
  else
    let log := lapicw SVR (Z.lor ENABLE (T_IRQ0 + IRQ_SPURIOUS)) log in
    let log := lapicw TDCR X1 log in
    let log := lapicw TIMER (Z.lor PERIODIC (T_IRQ0 + IRQ_TIMER)) log in
    let log := lapicw TICR 10000000 log in
    let log := lapicw LINT0 MASKED log in
    let log := lapicw LINT1 MASKED log in
    let log := if 4 <=? Z.land (Z.shiftr ver 16) 0xFF then lapicw PCINT MASKED log else log in
    let log := lapicw ERROR (T_IRQ0 + IRQ_ERROR) log in
    let log := lapicw ESR 0 log in
    let log := lapicw ESR 0 log in
    let log := lapicw EOI 0 log in
    let log := lapicw ICRHI 0 log in
    let log := lapicw ICRLO (Z.lor (Z.lor BCAST INIT) LEVEL) log in
    if lapic_wait n busy 0 then Some (lapicw TPR 0 log) else None.

Definition lapicid (lapic : bool) (id : Z) : Z := if lapic then Z.shiftr id 24 else 0.
Definition lapiceoi (lapic : bool) (log : list (Z * Z)) : list (Z * Z) := if lapic then lapicw EOI 0 log else log.

(** What lapicstartap leaves: the CMOS port writes, the memory with the warm reset
    vector at 40:67, and the writes to the local APIC. *)
Definition poke16 (m : ram) (a v : Z) : ram := poke (poke m a (u8 v)) (a + 1) (u8 (Z.shiftr v 8)).
Definition lapicstartap (apicid addr : Z) (m : ram) (log : list (Z * Z)) : list (Z * Z) * ram * list (Z * Z) :=
  let ports := [(0x70, 0xF); (0x71, 0x0A)] in
  let wrv := Z.lor (Z.shiftl 0x40 4) 0x67 in
  let m := poke16 m wrv 0 in
  let m := poke16 m (wrv + 2) (Z.shiftr addr 4) in
  let log := lapicw ICRHI (Z.shiftl apicid 24) log in
  let log := lapicw ICRLO (Z.lor (Z.lor INIT LEVEL) ASSERT) log in
  let log := lapicw ICRLO (Z.lor INIT LEVEL) log in
  let log := lapicw ICRHI (Z.shiftl apicid 24) log in
  let log := lapicw ICRLO (Z.lor STARTUP (Z.shiftr addr 12)) log in
  let log := lapicw ICRHI (Z.shiftl apicid 24) log in
  let log := lapicw ICRLO (Z.lor STARTUP (Z.shiftr addr 12)) log in
  (ports, m, log).

(** ** Routing *)

(** The processor an interrupt was last routed to. *)
Definition routed (l : list (Z * Z)) (i : Z) : option Z := foldl (fun r e => if e.1 =? i then Some e.2 else r) None l.

(** The redirection entry of interrupt [i]: its vector, the mask bit, and the
    processor in the top byte of the second register. *)
Definition entry_is (s : ioapic) (i : Z) (r : option Z) : Prop :=
  let lo := iodata s (REG_TABLE + 2 * i) in
  let hi := iodata s (REG_TABLE + 2 * i + 1) in
  Z.land lo 0xFF = T_IRQ0 + i /\ Z.testbit lo 16 = bool_decide (r = None) /\ hi = Z.shiftl (default 0 r) 24.

Definition MAXINTR : Z := 119.

(** The word written for an interrupt, masked or not. *)
Definition entry_word (r : option Z) (i : Z) : Z := match r with Some _ => T_IRQ0 + i | None => Z.lor INT_DISABLED (T_IRQ0 + i) end.
Lemma entry_word_ok r i : 0 <= i <= MAXINTR ->
  Z.land (u32 (entry_word r i)) 0xFF = T_IRQ0 + i /\ Z.testbit (u32 (entry_word r i)) 16 = bool_decide (r = None).
Proof.
  intros Hi. assert (forallb (fun k => let i := Z.of_nat k in
    (Z.land (u32 (T_IRQ0 + i)) 0xFF =? T_IRQ0 + i) && negb (Z.testbit (u32 (T_IRQ0 + i)) 16) &&
    (Z.land (u32 (Z.lor INT_DISABLED (T_IRQ0 + i))) 0xFF =? T_IRQ0 + i) && Z.testbit (u32 (Z.lor INT_DISABLED (T_IRQ0 + i))) 16) (seq 0 120) = true) as H by (vm_compute; reflexivity).
  rewrite forallb_forall in H. specialize (H (Z.to_nat i)). unfold MAXINTR in Hi. rewrite in_seq, Z2Nat.id in H by lia. specialize (H ltac:(lia)). cbv zeta in H.
  rewrite !andb_true_iff, !Z.eqb_eq, negb_true_iff in H. by destruct r; cbn; naive_solver.
Qed.

(** Writing both registers of an entry sets it and no other. *)
Lemma entry_write s i r j r' : 0 <= i <= MAXINTR -> 0 <= j <= MAXINTR -> (forall c, r = Some c -> 0 <= c < 256) -> (j <> i -> entry_is s j r') ->
  entry_is (ioapicwrite (REG_TABLE + 2 * i + 1) (Z.shiftl (default 0 r) 24) (ioapicwrite (REG_TABLE + 2 * i) (entry_word r i) s)) j (if j =? i then r else r').
Proof.
  intros Hi Hj Hc Ho. unfold MAXINTR in *. unfold entry_is, ioapicwrite, REG_TABLE. cbn [iodata]. rewrite !u8_id by lia.
  destruct (Z.eqb_spec j i) as [->|Hne].
  - rewrite !Z.eqb_refl, (proj2 (Z.eqb_neq (16 + 2 * i) (16 + 2 * i + 1))) by lia. destruct (entry_word_ok r i Hi) as [E1 E2]. split_and!; [done|done|].
    unfold u32. apply Z.mod_small. rewrite Z.shiftl_mul_pow2 by lia. destruct r as [c|]; unfold default; cbn [from_option id]; [specialize (Hc c eq_refl)|]; lia.
  - rewrite !(proj2 (Z.eqb_neq _ _)) by lia. by apply Ho.
Qed.

Lemma ioapic_mask_spec n : forall i s j, 0 <= i -> i + Z.of_nat n <= MAXINTR + 1 -> 0 <= j -> j < i + Z.of_nat n -> (j < i -> entry_is s j None) -> entry_is (ioapic_mask n i s) j None.
Proof.
  induction n as [|n IH]; intros i s j Hi Hn Hj Hjn Hd; cbn [ioapic_mask]; [apply Hd; lia|].
  apply IH; [lia..|]. intros Hlt. pose proof (entry_write s i None j None ltac:(lia) ltac:(lia) ltac:(done) ltac:(intros; apply Hd; lia)) as H. by destruct (j =? i).
Qed.

(** After ioapicinit and any sequence of ioapicenable calls, each interrupt the
    controller has is delivered as its vector T_IRQ0 + i: unmasked, to the
    processor of the last call for it, or masked if there was none. *)
Theorem ioapic_routes id s l i :
  let maxintr := Z.land (Z.shiftr (iodata s REG_VER) 16) 0xFF in
  maxintr <= MAXINTR -> Forall (fun e => 0 <= e.1 <= maxintr /\ 0 <= e.2 < 256) l -> 0 <= i <= maxintr ->
  entry_is (foldl (fun s e => ioapicenable e.1 e.2 s) (ioapicinit id s).1 l) i (routed l i).
Proof.
  intros maxintr Hm Hl Hi. induction l as [|[irq cpu] l IH] using rev_ind.
  - cbn [foldl]. change ((ioapicinit id s).1) with (ioapic_mask (Z.to_nat (maxintr + 1)) 0 (IoApic REG_ID (iodata s))). apply ioapic_mask_spec; lia.
  - apply Forall_app in Hl as [Hl Hx]. apply Forall_singleton in Hx as [Hq Hcpu]. cbn in Hq, Hcpu. unfold routed. rewrite !foldl_snoc. cbn [fst snd]. fold (routed l i).
    rewrite Z.eqb_sym. apply (entry_write _ irq (Some cpu) i (routed l i)); [lia|lia|intros c [= <-]; lia|intros _; by apply IH].
Qed.

(** ** Starting processors *)

(** When the wait for delivery ends, lapicinit ends; its last write is the one that
    lets interrupts in, and before it the timer is periodic on the vector trap
    handles and the lines of the old controllers are masked. *)
Theorem lapicinit_done ver busy k log : busy k = false ->
  exists n ws, lapicinit n true ver busy log = Some (log ++ ws ++ [(TPR, 0)]) /\
    [(TIMER, PERIODIC + T_IRQ0 + IRQ_TIMER); (TICR, 10000000); (LINT0, MASKED); (LINT1, MASKED)] `sublist_of` ws /\
    Forall (fun w => w.1 <> TPR) ws /\ ((PCINT, MASKED) ∈ ws <-> 4 <= Z.land (Z.shiftr ver 16) 0xFF).
Proof.
  intros Hk. assert (exists n, lapic_wait n busy 0 = true) as [n Hn].
  { assert (forall d j, (j + d = k)%nat -> exists n, lapic_wait n busy j = true) as H.
    { induction d as [|d IH]; intros j Hj.
      - exists 1%nat. cbn. replace j with k by lia. by rewrite Hk.
      - destruct (busy j) eqn:E; [|exists 1%nat; cbn; by rewrite E]. destruct (IH (S j) ltac:(lia)) as [n Hn]. exists (S n). cbn. by rewrite E. }
    by apply (H k 0%nat). }
  exists n. unfold lapicinit. cbn [negb]. rewrite Hn.
  set (a := [(SVR, 0x13F); (TDCR, X1); (TIMER, PERIODIC + T_IRQ0 + IRQ_TIMER); (TICR, 10000000); (LINT0, MASKED); (LINT1, MASKED)]).
  set (b := [(ERROR, T_IRQ0 + IRQ_ERROR); (ESR, 0); (ESR, 0); (EOI, 0); (ICRHI, 0); (ICRLO, 0x88500)]).
  destruct (Z.leb_spec 4 (Z.land (Z.shiftr ver 16) 0xFF)); [exists (a ++ [(PCINT, MASKED)] ++ b)|exists (a ++ b)];
    unfold lapicw; rewrite <-!app_assoc; (split; [reflexivity|]).
  all: split; [unfold a; do 2 apply sublist_cons; do 4 apply sublist_skip; apply sublist_nil_l|].
  all: split; [apply (bool_decide_unpack _); vm_compute; reflexivity|].
  - split; [done|intros _]. apply (bool_decide_unpack _). vm_compute. reflexivity.
  - split; [|lia]. intros Hp. apply (bool_decide_pack _) in Hp. vm_compute in Hp. done.
Qed.

Lemma startup_word p : 0 <= p < 256 -> Z.lor STARTUP p = 0x600 + p.
Proof.
  intros Hp. assert (forallb (fun k => Z.lor STARTUP (Z.of_nat k) =? 0x600 + Z.of_nat k) (seq 0 256) = true) as H by (vm_compute; reflexivity).
  rewrite forallb_forall in H. specialize (H (Z.to_nat p)). rewrite in_seq, Z2Nat.id, Z.eqb_eq in H by lia. apply H. lia.
Qed.

(** For code at a page below 1MB, lapicstartap points both ways to start a processor
    at it: the warm reset vector is the segment of the code with offset 0, and the
    two startup commands, after an INIT and its release, name its page. *)
Theorem lapicstartap_starts p apicid m log (Hp : 0 <= p < 256) (Hid : 0 <= apicid < 256) :
  let '(ports, m', log') := lapicstartap apicid (4096 * p) m log in
  ports = [(0x70, 0xF); (0x71, 0x0A)] /\ mem16 m' 0x467 = 0 /\ 16 * mem16 m' 0x469 = 4096 * p /\ (forall x, x < 0x467 \/ 0x46A < x -> m' x = m x) /\
  log' = log ++ [(ICRHI, 2 ^ 24 * apicid); (ICRLO, 0xC500); (ICRLO, 0x8500)] ++
         [(ICRHI, 2 ^ 24 * apicid); (ICRLO, 0x600 + p)] ++ [(ICRHI, 2 ^ 24 * apicid); (ICRLO, 0x600 + p)].
Proof.
  unfold lapicstartap. split; [done|].
  replace (Z.shiftr (4096 * p) 4) with (256 * p) by (rewrite Z.shiftr_div_pow2 by lia; replace (4096 * p) with (256 * p * 2 ^ 4) by lia; by rewrite Z.div_mul).
  replace (Z.shiftr (4096 * p) 12) with p by (rewrite Z.shiftr_div_pow2 by lia; replace (4096 * p) with (p * 2 ^ 12) by lia; by rewrite Z.div_mul).
  rewrite startup_word by done. change (Z.lor (Z.shiftl 64 4) 103) with 0x467.
  assert (u8 (256 * p) = 0) as E0 by (unfold u8; rewrite Z.mul_comm; apply Z.mod_mul; lia).
  assert (u8 (Z.shiftr (256 * p) 8) = p) as E1.
  { rewrite Z.shiftr_div_pow2, (Z.mul_comm 256), Z.div_mul by lia. by apply u8_id. }
  unfold poke16. rewrite E0, E1. split; [|split; [|split]].
  - reflexivity.
  - match goal with |- 16 * ?w = _ => change w with (le_val [0; p]) end. unfold le_val. lia.
  - intros x Hx. unfold poke. repeat (case_decide; [lia|]). done.
  - unfold lapicw, u32. rewrite <-!app_assoc, (Z.mod_small (0x600 + p)) by lia.
    rewrite Z.shiftl_mul_pow2, (Z.mul_comm apicid), (Z.mod_small (2 ^ 24 * apicid)) by lia. reflexivity.
Qed.
