(* ===== verification/Clock.v ===== *)
(** * The real-time clock (lapic.c, date.h)

    The clock goes on while its registers are read one at a time.  [cmos k r] is
    what the k-th read, of register [r], answers. *)

From S2P Require Import Prelude.

Record rtcdate := Rtc { second : Z; minute : Z; hour : Z; day : Z; month : Z; year : Z }.
#[export] Instance rtcdate_eq_dec : EqDecision rtcdate.
Proof. solve_decision. Defined.

Definition CMOS_STATA : Z := 0x0a.
Definition CMOS_STATB : Z := 0x0b.
Definition CMOS_UIP : Z := Z.shiftl 1 7.
Definition SECS : Z := 0x00.
Definition MINS : Z := 0x02.
Definition HOURS : Z := 0x04.
Definition DAY : Z := 0x07.
Definition MONTH : Z := 0x08.
Definition YEAR : Z := 0x09.

Section Cmos.
Context (cmos : nat -> Z -> Z).

Definition fill_rtcdate (k : nat) : rtcdate :=
  Rtc (cmos k SECS) (cmos (k + 1)%nat MINS) (cmos (k + 2)%nat HOURS) (cmos (k + 3)%nat DAY) (cmos (k + 4)%nat MONTH) (cmos (k + 5)%nat YEAR).

(** The loop, from the k-th read on; None when [fuel] turns were not enough. *)
Fixpoint cmos_loop (fuel k : nat) : option rtcdate :=
  match fuel with
  | O => None
  | S f =>
      let t1 := fill_rtcdate k in
      if negb (Z.land (cmos (k + 6)%nat CMOS_STATA) CMOS_UIP =? 0) then cmos_loop f (k + 7)
      else
        let t2 := fill_rtcdate (k + 7) in
        if decide (t1 = t2) then Some t1 else cmos_loop f (k + 13)
  end.

Definition CONV (x : Z) : Z := Z.shiftr x 4 * 10 + Z.land x 0xf.
Definition cmostime (fuel : nat) : option rtcdate :=
  let sb := cmos 0%nat CMOS_STATB in
  let bcd := Z.land sb (Z.shiftl 1 2) =? 0 in
  t1 ← cmos_loop fuel 1;
  let t1 := if bcd then Rtc (CONV (second t1)) (CONV (minute t1)) (CONV (hour t1)) (CONV (day t1)) (CONV (month t1)) (CONV (year t1)) else t1 in
  Some (Rtc (second t1) (minute t1) (hour t1) (day t1) (month t1) (year t1 + 2000)).
End Cmos.

(** ** The clock *)

Definition rtc_map (f : Z -> Z) (d : rtcdate) : rtcdate := Rtc (f (second d)) (f (minute d)) (f (hour d)) (f (day d)) (f (month d)) (f (year d)).
Definition rtc_ok (d : rtcdate) : Prop := Forall (fun x => 0 <= x < 100) [second d; minute d; hour d; day d; month d; year d].
Definition full (d : rtcdate) : rtcdate := Rtc (second d) (minute d) (hour d) (day d) (month d) (year d + 2000).

(** A number as the clock stores it. *)
Definition enc (bcd : bool) (x : Z) : Z := if bcd then 16 * (x / 10) + x mod 10 else x.

(** The clock shows the date [D k] at the k-th read, in the format of status
    register B. *)
Record clock (cmos : nat -> Z -> Z) (D : nat -> rtcdate) (bcd : bool) : Prop := {
  ck_fmt : (Z.land (cmos 0%nat CMOS_STATB) 4 =? 0) = bcd;
  ck_sec k : cmos k SECS = enc bcd (second (D k));
  ck_min k : cmos k MINS = enc bcd (minute (D k));
  ck_hour k : cmos k HOURS = enc bcd (hour (D k));
  ck_day k : cmos k DAY = enc bcd (day (D k));
  ck_month k : cmos k MONTH = enc bcd (month (D k));
  ck_year k : cmos k YEAR = enc bcd (year (D k));
  ck_ok k : rtc_ok (D k)
}.

(** The date changes at most once in 13 reads. *)
Definition slow (D : nat -> rtcdate) : Prop :=
  forall j, exists c, forall i, (j <= i <= j + 12)%nat -> D i = if (i <? c)%nat then D j else D (j + 12)%nat.
(** 26 reads during which the date stays and no update is in progress. *)
Definition quiet (cmos : nat -> Z -> Z) (D : nat -> rtcdate) (N : nat) : Prop :=
  forall i, (N <= i < N + 26)%nat -> D i = D N /\ Z.land (cmos i CMOS_STATA) CMOS_UIP = 0.

Section Reading.
Context (cmos : nat -> Z -> Z) (D : nat -> rtcdate) (bcd : bool) (Hck : clock cmos D bcd).

Lemma fill_same k d : (forall i, (k <= i < k + 6)%nat -> D i = d) -> fill_rtcdate cmos k = rtc_map (enc bcd) d.
Proof using Hck.
  intros Hd. destruct Hck. unfold fill_rtcdate, rtc_map. rewrite ck_sec0, ck_min0, ck_hour0, ck_day0, ck_month0, ck_year0.
  by rewrite !Hd by lia.
Qed.

(** The date returned by the loop was shown by the clock. *)
Lemma cmos_loop_untorn f : slow D -> forall k t, cmos_loop cmos f k = Some t -> exists j, t = rtc_map (enc bcd) (D j).
Proof using Hck.
  intros Hs. induction f as [|f IH]; intros k t; cbn [cmos_loop]; [done|]. destruct (negb _); [apply IH|]. case_decide as E; [|apply IH]. intros [= <-].
  destruct (Hs k) as [c Hc]. destruct (decide (c <= k + 7)%nat).
  - rewrite E. exists (k + 12)%nat. apply fill_same. intros i Hi. rewrite Hc by lia. by rewrite (proj2 (Nat.ltb_ge i c)) by lia.
  - exists k. apply fill_same. intros i Hi. rewrite Hc by lia. by rewrite (proj2 (Nat.ltb_lt i c)) by lia.
Qed.

(** A quiet time ends the loop. *)
Lemma cmos_loop_ends N f : quiet cmos D N -> forall k, (k <= N + 12)%nat -> (N + 12 - k < f)%nat -> exists t, cmos_loop cmos f k = Some t.
Proof using Hck.
  intros Hq. induction f as [|f IH]; intros k Hk Hf; [lia|]. cbn [cmos_loop]. destruct (decide (N <= k)%nat).
  - rewrite (proj2 (Hq (k + 6)%nat ltac:(lia))). cbn [Z.eqb negb]. rewrite decide_True; [by eexists|].
    rewrite !(fill_same _ (D N)); [done|intros i Hi; apply Hq; lia..].
  - destruct (negb _); [apply IH; lia|]. case_decide; [by eexists|apply IH; lia].
Qed.
End Reading.

Lemma conv_enc x : 0 <= x < 100 -> CONV (enc true x) = x.
Proof.
  intros Hx. assert (forallb (fun k => CONV (enc true (Z.of_nat k)) =? Z.of_nat k) (seq 0 100) = true) as H by (vm_compute; reflexivity).
  rewrite forallb_forall in H. specialize (H (Z.to_nat x)). rewrite in_seq, Z2Nat.id, Z.eqb_eq in H by lia. apply H. lia.
Qed.

(** Reading the clock gives a date the clock showed, never a mixture of two:
    whatever the format, and though the registers are read one at a time, if the
    date changes at most once in 13 reads and the clock is quiet for 26 reads at
    some time, cmostime ends, with the date at one of the reads. *)
Theorem cmostime_untorn cmos D bcd N (Hck : clock cmos D bcd) (Hs : slow D) (Hq : quiet cmos D N) :
  exists fuel j, cmostime cmos fuel = Some (full (D j)).
Proof.
  destruct (cmos_loop_ends cmos D bcd Hck N (N + 14) Hq 1 ltac:(lia) ltac:(lia)) as [t Ht].
  exists (N + 14)%nat. destruct (cmos_loop_untorn cmos D bcd Hck _ Hs _ _ Ht) as [j ->]. exists j. unfold cmostime. rewrite Ht. cbn -[CONV enc Z.add Z.land].
  change (Z.shiftl 1 2) with 4. rewrite (ck_fmt _ _ _ Hck). pose proof (ck_ok _ _ _ Hck j) as Hok. unfold rtc_ok in Hok. rewrite !Forall_cons in Hok.
  destruct bcd; cbn -[CONV enc Z.add]; [by rewrite !conv_enc by tauto|done].
Qed.

(** A clock that goes from 23:59:59 on 31 December to the new year at its 20th read. *)
Definition demo_date (k : nat) : rtcdate := if (k <? 20)%nat then Rtc 59 59 23 31 12 22 else Rtc 0 0 0 1 1 23.
Definition demo_cmos (k : nat) (r : Z) : Z :=
  let d := demo_date k in
  if r =? SECS then enc true (second d) else if r =? MINS then enc true (minute d) else if r =? HOURS then enc true (hour d)
  else if r =? DAY then enc true (day d) else if r =? MONTH then enc true (month d) else if r =? YEAR then enc true (year d)
  else if r =? CMOS_STATB then 2 else 0.

Lemma cmostime_untorn_witness : exists fuel j, cmostime demo_cmos fuel = Some (full (demo_date j)).
Proof.
  apply (cmostime_untorn demo_cmos demo_date true 20).
  - split; try reflexivity. intros k. unfold rtc_ok, demo_date. destruct (k <? 20)%nat; cbn; repeat constructor; lia.
  - intros j. exists 20%nat. intros i Hi. unfold demo_date. destruct (Nat.ltb_spec i 20); [by rewrite (proj2 (Nat.ltb_lt j 20)) by lia|by rewrite (proj2 (Nat.ltb_ge (j + 12) 20)) by lia].
  - intros i Hi. unfold demo_date. rewrite (proj2 (Nat.ltb_ge i 20)) by lia. split; reflexivity.
Defined.
