(* ===== verification/X86.v ===== *)
(** * The processor (mmu.h, asm.h, x86.h)

    The part of a 32-bit x86 processor that the kernel's assembly uses: registers,
    segment selectors, descriptor tables, the instructions of the assembly files,
    and what the processor itself does at an interrupt and at iret.  A piece of
    code runs from its first instruction to the one that leaves it; a fault of
    the running code is [None].  Memory is what the current address space has at
    each linear address: the segments of the kernel all start at 0. *)

From S2P Require Import Prelude Block MemFuns.

(** ** Words in memory *)

Definition poke32 (m : ram) (a v : Z) : ram := poke_all m a (le_bytes 4 v).

#[global] Arguments mem32 : simpl never.
#[global] Arguments mem16 : simpl never.
#[global] Arguments poke32 : simpl never.

(** The words from an address up. *)
Fixpoint words_at (m : ram) (a : Z) (l : list Z) : Prop :=
  match l with [] => True | v :: l' => mem32 m a = v /\ words_at m (a + 4) l' end.

(** ** Descriptors *)

(** Bits [k .. k + w - 1] of a word. *)
Definition bits (d k w : Z) : Z := d / 2 ^ k mod 2 ^ w.

(** struct segdesc, and its 8 bytes as a number: the fields from the low end. *)
Record segdesc := Segdesc { lim_15_0 : Z; base_15_0 : Z; base_23_16 : Z; sd_type : Z; sd_s : Z; sd_dpl : Z; sd_p : Z;
  lim_19_16 : Z; sd_avl : Z; sd_rsv1 : Z; sd_db : Z; sd_g : Z; base_31_24 : Z }.
Definition seg_bits (d : segdesc) : Z :=
  lim_15_0 d + 2 ^ 16 * base_15_0 d + 2 ^ 32 * base_23_16 d + 2 ^ 40 * sd_type d + 2 ^ 44 * sd_s d + 2 ^ 45 * sd_dpl d + 2 ^ 47 * sd_p d +
  2 ^ 48 * lim_19_16 d + 2 ^ 52 * sd_avl d + 2 ^ 53 * sd_rsv1 d + 2 ^ 54 * sd_db d + 2 ^ 55 * sd_g d + 2 ^ 56 * base_31_24 d.

Definition SEG (type base lim dpl : Z) : segdesc :=
  Segdesc (Z.land (Z.shiftr lim 12) 0xffff) (Z.land base 0xffff) (Z.land (Z.shiftr base 16) 0xff) type 1 dpl 1
    (bits (Z.shiftr lim 28) 0 4) 0 0 1 1 (Z.shiftr base 24).
Definition SEG16 (type base lim dpl : Z) : segdesc :=
  Segdesc (Z.land lim 0xffff) (Z.land base 0xffff) (Z.land (Z.shiftr base 16) 0xff) type 1 dpl 1
    (bits (Z.shiftr lim 16) 0 4) 0 0 1 0 (Z.shiftr base 24).

(** asm.h: the bytes of the same descriptor in an assembly file. *)
Definition SEG_ASM (type base lim : Z) : list Z :=
  le_bytes 2 (Z.land (Z.shiftr lim 12) 0xffff) ++ le_bytes 2 (Z.land base 0xffff) ++
  [Z.land (Z.shiftr base 16) 0xff; Z.lor 0x90 type; Z.lor 0xC0 (Z.land (Z.shiftr lim 28) 0xf); Z.land (Z.shiftr base 24) 0xff].
Definition SEG_NULLASM : list Z := replicate 8 0.

Record gatedesc := Gatedesc { off_15_0 : Z; gd_cs : Z; gd_args : Z; gd_rsv1 : Z; gd_type : Z; gd_s : Z; gd_dpl : Z; gd_p : Z; off_31_16 : Z }.
Definition gate_bits (g : gatedesc) : Z :=
  off_15_0 g + 2 ^ 16 * gd_cs g + 2 ^ 32 * gd_args g + 2 ^ 37 * gd_rsv1 g + 2 ^ 40 * gd_type g + 2 ^ 44 * gd_s g + 2 ^ 45 * gd_dpl g +
  2 ^ 47 * gd_p g + 2 ^ 48 * off_31_16 g.

Definition STA_X : Z := 0x8.
Definition STA_W : Z := 0x2.
Definition STA_R : Z := 0x2.
Definition STS_T32A : Z := 0x9.
Definition STS_IG32 : Z := 0xE.
Definition STS_TG32 : Z := 0xF.
Definition DPL_USER : Z := 0x3.
Definition SEG_KCODE : nat := 1.
Definition SEG_KDATA : nat := 2.
Definition SEG_UCODE : nat := 3.
Definition SEG_UDATA : nat := 4.
Definition SEG_TSS : nat := 5.
Definition NSEGS : nat := 6.
Definition selector (i : nat) (rpl : Z) : Z := 8 * Z.of_nat i + rpl.

Definition SETGATE (istrap : bool) (sel off d : Z) : gatedesc :=
  Gatedesc (Z.land off 0xffff) sel 0 0 (if istrap then STS_TG32 else STS_IG32) 0 d 1 (Z.shiftr off 16).

(** How the processor reads them. *)
Definition d_type (d : Z) : Z := bits d 40 4.
Definition d_s (d : Z) : Z := bits d 44 1.
Definition d_dpl (d : Z) : Z := bits d 45 2.
Definition d_p (d : Z) : Z := bits d 47 1.
Definition d_base (d : Z) : Z := bits d 16 24 + 2 ^ 24 * bits d 56 8.
Definition d_limit (d : Z) : Z := let l := bits d 0 16 + 2 ^ 16 * bits d 48 4 in if bits d 55 1 =? 1 then 4096 * l + 4095 else l.
Definition d_offset (d : Z) : Z := bits d 0 16 + 2 ^ 16 * bits d 48 16.
Definition d_sel (d : Z) : Z := bits d 16 16.

(** ** The machine *)

Record regs := Regs { r_eax : Z; r_ecx : Z; r_edx : Z; r_ebx : Z; r_esp : Z; r_ebp : Z; r_esi : Z; r_edi : Z }.
Inductive reg := EAX | ECX | EDX | EBX | ESP | EBP | ESI | EDI.
#[export] Instance reg_eq_dec : EqDecision reg.
Proof. solve_decision. Defined.
Definition rget (r : reg) (x : regs) : Z :=
  match r with EAX => r_eax x | ECX => r_ecx x | EDX => r_edx x | EBX => r_ebx x | ESP => r_esp x | EBP => r_ebp x | ESI => r_esi x | EDI => r_edi x end.
Definition rset (r : reg) (v : Z) (x : regs) : regs :=
  let '(Regs a c d b s p i e) := x in
  match r with
  | EAX => Regs v c d b s p i e | ECX => Regs a v d b s p i e | EDX => Regs a c v b s p i e | EBX => Regs a c d v s p i e
  | ESP => Regs a c d b v p i e | EBP => Regs a c d b s v i e | ESI => Regs a c d b s p v e | EDI => Regs a c d b s p i v
  end.

Inductive sreg := DS | ES | FS | GS.
(** The data segment selectors. *)
Record dsegs := Dsegs { s_ds : Z; s_es : Z; s_fs : Z; s_gs : Z }.
Definition sget (s : sreg) (x : dsegs) : Z := match s with DS => s_ds x | ES => s_es x | FS => s_fs x | GS => s_gs x end.
Definition sset (s : sreg) (v : Z) (x : dsegs) : dsegs :=
  let '(Dsegs d e f g) := x in match s with DS => Dsegs v e f g | ES => Dsegs d v f g | FS => Dsegs d e v g | GS => Dsegs d e f v end.
Definition smap (f : Z -> Z) (x : dsegs) : dsegs := Dsegs (f (s_ds x)) (f (s_es x)) (f (s_fs x)) (f (s_gs x)).

(** The tables that GDTR, IDTR and TR name, and CR3. *)
Record sysregs := Sysregs { gdt : list Z; idt : list Z; tr : Z; cr3 : Z }.
Record mach := Mach { rg : regs; sg : dsegs; cs : Z; ss : Z; eip : Z; eflags : Z; sys : sysregs; mm : ram }.

Definition set_rg (f : regs -> regs) (m : mach) : mach := Mach (f (rg m)) (sg m) (cs m) (ss m) (eip m) (eflags m) (sys m) (mm m).
Definition set_sg (f : dsegs -> dsegs) (m : mach) : mach := Mach (rg m) (f (sg m)) (cs m) (ss m) (eip m) (eflags m) (sys m) (mm m).
Definition set_eip (v : Z) (m : mach) : mach := Mach (rg m) (sg m) (cs m) (ss m) v (eflags m) (sys m) (mm m).
Definition set_mm (f : ram -> ram) (m : mach) : mach := Mach (rg m) (sg m) (cs m) (ss m) (eip m) (eflags m) (sys m) (f (mm m)).

Definition reg_of (r : reg) (m : mach) : Z := rget r (rg m).
Definition set_reg (r : reg) (v : Z) : mach -> mach := set_rg (rset r v).
Definition esp (m : mach) : Z := reg_of ESP m.

(** The privilege level is in the code selector. *)
Definition cpl (m : mach) : Z := cs m mod 4.
Definition descriptor (m : mach) (sel : Z) : option Z :=
  if bits sel 2 1 =? 0 then gdt (sys m) !! Z.to_nat (sel / 8) else None.

(** ** Instructions *)

Inductive instr :=
| Load (off : Z) (base dst : reg)      (** movl off(%base), %dst *)
| Store (src base : reg)               (** movl %src, (%base) *)
| Mov (src dst : reg)
| MovI (v : Z) (dst : reg)
| MovW (v : Z) (dst : reg)             (** movw $v to the low half *)
| MovS (src : reg) (dst : sreg)        (** movw %src, %dst *)
| AddI (v : Z) (dst : reg)
| PushI (v : Z) | PushR (r : reg) | PushS (s : sreg) | PopR (r : reg) | PopS (s : sreg) | Pushal | Popal
| Jmp (a : Z) | Call (a ret : Z) | Ret | Iret.

Definition push (v : Z) (m : mach) : mach :=
  let a := u32 (esp m - 4) in set_mm (fun x => poke32 x a v) (set_reg ESP a m).
Definition top (m : mach) : Z := mem32 (mm m) (esp m).
Definition drop_words (n : Z) (m : mach) : mach := set_reg ESP (u32 (esp m + 4 * n)) m.

(** Loading a data segment register: a null selector, or an application segment
    that is present and open to the current and the requested privilege. *)
Definition load_seg (s : sreg) (sel : Z) (m : mach) : option mach :=
  if sel / 4 =? 0 then Some (set_sg (sset s sel) m)
  else d ← descriptor m sel;
       if (d_s d =? 1) && (d_p d =? 1) && (cpl m <=? d_dpl d) && (sel mod 4 <=? d_dpl d) then Some (set_sg (sset s sel) m) else None.

(** iret: to the same level, or out to a less privileged one with the stack from
    the frame; data segments the new level may not use become null. *)
Definition hide (m : mach) (level sel : Z) : Z :=
  match descriptor m sel with Some d => if d_dpl d <? level then 0 else sel | None => sel end.
Definition iret (m : mach) : option mach :=
  let ip := top m in
  let ncs := mem32 (mm m) (u32 (esp m + 4)) mod 2 ^ 16 in
  let fl := mem32 (mm m) (u32 (esp m + 8)) in
  code ← descriptor m ncs;
  if negb ((d_s code =? 1) && (d_p code =? 1) && (8 <=? d_type code) && (d_dpl code =? ncs mod 4)) then None
  else if ncs mod 4 =? cpl m then
    Some (Mach (rg (drop_words 3 m)) (sg m) ncs (ss m) ip fl (sys m) (mm m))
  else if cpl m <? ncs mod 4 then
    let nsp := mem32 (mm m) (u32 (esp m + 12)) in
    let nss := mem32 (mm m) (u32 (esp m + 16)) mod 2 ^ 16 in
    stk ← descriptor m nss;
    if negb ((d_s stk =? 1) && (d_p stk =? 1) && (d_dpl stk =? ncs mod 4) && (nss mod 4 =? ncs mod 4)) then None
    else Some (Mach (rset ESP nsp (rg m)) (smap (hide m (ncs mod 4)) (sg m)) ncs nss ip fl (sys m) (mm m))
  else None.

Definition step (i : instr) (m : mach) : option mach :=
  match i with
  | Load off base dst => Some (set_reg dst (mem32 (mm m) (u32 (reg_of base m + off))) m)
  | Store src base => Some (set_mm (fun x => poke32 x (reg_of base m) (reg_of src m)) m)
  | Mov src dst => Some (set_reg dst (reg_of src m) m)
  | MovI v dst => Some (set_reg dst (u32 v) m)
  | MovW v dst => Some (set_reg dst (reg_of dst m - reg_of dst m mod 2 ^ 16 + v mod 2 ^ 16) m)
  | MovS src dst => load_seg dst (reg_of src m mod 2 ^ 16) m
  | AddI v dst => Some (set_reg dst (u32 (reg_of dst m + v)) m)
  | PushI v => Some (push (u32 v) m)
  | PushR r => Some (push (reg_of r m) m)
  | PushS s => Some (push (sget s (sg m)) m)
  | PopR r => Some (set_reg r (top m) (drop_words 1 m))
  | PopS s => m' ← load_seg s (top m mod 2 ^ 16) m; Some (drop_words 1 m')
  | Pushal =>
      let x := rg m in
      Some (push (r_edi x) (push (r_esi x) (push (r_ebp x) (push (r_esp x) (push (r_ebx x) (push (r_edx x) (push (r_ecx x) (push (r_eax x) m))))))))
  | Popal =>
      let w k := mem32 (mm m) (u32 (esp m + 4 * k)) in
      Some (set_rg (fun _ => Regs (w 7) (w 6) (w 5) (w 4) (u32 (esp m + 32)) (w 2) (w 1) (w 0)) m)
  | Jmp a => Some (set_eip a m)
  | Call a ret => Some (set_eip a (push ret m))
  | Ret => Some (set_eip (top m) (drop_words 1 m))
  | Iret => iret m
  end.

Fixpoint run (code : list instr) (m : mach) : option mach :=
  match code with [] => Some m | i :: code' => m' ← step i m; run code' m' end.

(** ** Interrupts *)

Definition FL_IF : Z := 0x200.
(** The trap, nested task, resume and virtual mode flags. *)
Definition FL_ENTRY : Z := 0x34100.

Definition push_err (err : option Z) (m : mach) : mach := match err with Some e => push e m | None => m end.

(** Entering code of privilege [dpl] at [sel : off]: on the stack of the task state
    segment when the privilege changes.  An interrupt gate clears the interrupt
    flag. *)
Definition enter_gate (off sel dpl : Z) (intgate : bool) (err : option Z) (m : mach) : option mach :=
  let frame m0 := push_err err (push (eip m) (push (cs m) (push (eflags m) m0))) in
  let fl := Z.ldiff (eflags m) (if intgate then Z.lor FL_ENTRY FL_IF else FL_ENTRY) in
  let enter m0 nss := Mach (rg m0) (sg m0) (sel - sel mod 4 + dpl) nss off fl (sys m0) (mm m0) in
  if dpl =? cpl m then Some (enter (frame m) (ss m))
  else if dpl <? cpl m then
    match descriptor m (tr (sys m)) with
    | None => None
    | Some t =>
        if negb ((d_type t =? 0xB) && (d_s t =? 0) && (d_p t =? 1)) then None
        else
          let m0 := set_reg ESP (mem32 (mm m) (d_base t + 4)) m in
          Some (enter (frame (push (esp m) (push (ss m) m0))) (mem16 (mm m) (d_base t + 8)))
    end
  else None.

(** The exceptions for which the processor's manual documents an error code: double
    fault, invalid TSS, segment not present, stack fault, general protection, page
    fault and alignment check; (processors without control-flow enforcement or
    encrypted guests have no others). *)
Definition error_vectors : list nat := [8; 10; 11; 12; 13; 14; 17]%nat.

(** The processor takes vector [n], with an error code or without: through its gate
    into the code segment the gate names. *)
Definition gate_open (g code : Z) : bool :=
  (d_p g =? 1) && ((d_type g =? STS_IG32) || (d_type g =? STS_TG32)) && (d_s code =? 1) && (8 <=? d_type code) && (d_p code =? 1).
Definition interrupt (n : nat) (err : option Z) (m : mach) : option mach :=
  match idt (sys m) !! n with
  | None => None
  | Some g =>
      match descriptor m (d_sel g) with
      | None => None
      | Some code => if gate_open g code then enter_gate (d_offset g) (d_sel g) (d_dpl code) (d_type g =? STS_IG32) err m else None
      end
  end.

(** The instruction int $n, of which [next] is the following one: through the gate if
    the gate is open to the current level, a protection fault otherwise. *)
Definition GPF : nat := 13.
Definition int_n (n : nat) (next : Z) (m : mach) : option mach :=
  match idt (sys m) !! n with
  | None => None
  | Some g => if d_dpl g <? cpl m then interrupt GPF (Some (8 * Z.of_nat n + 2)) m else interrupt n None (set_eip next m)
  end.

(** ** Lemmas *)

Lemma mem_bytes_poke m a l b n : b + Z.of_nat n <= a \/ a + Z.of_nat (length l) <= b -> mem_bytes (poke_all m a l) b n = mem_bytes m b n.
Proof.
  intros Hd. unfold mem_bytes. apply list_fmap_ext. intros k x Hx. apply lookup_seq in Hx as [-> Hk]. cbn [Nat.add].
  rewrite poke_all_lookup, decide_False by lia. done.
Qed.

Lemma mem_bytes_same m a l : mem_bytes (poke_all m a l) a (length l) = l.
Proof.
  unfold mem_bytes. apply list_eq. intros k. rewrite list_lookup_fmap. destruct (decide (k < length l)%nat) as [Hk|Hk].
  - rewrite lookup_seq_lt by done. cbn. rewrite poke_all_lookup, decide_True by lia. replace (Z.to_nat (a + Z.of_nat k - a)) with k by lia.
    destruct (lookup_lt_is_Some_2 l k Hk) as [v ->]. done.
  - rewrite lookup_seq_ge by lia. cbn. symmetry. apply lookup_ge_None. lia.
Qed.

Lemma mem32_same m a v : 0 <= v < 2 ^ 32 -> mem32 (poke32 m a v) a = v.
Proof.
  intros Hv. unfold mem32, poke32. change 4%nat with (length (le_bytes 4 v)) at 2. rewrite mem_bytes_same. by apply le_val_bytes.
Qed.
Lemma mem32_other m a v b : b + 4 <= a \/ a + 4 <= b -> mem32 (poke32 m a v) b = mem32 m b.
Proof. intros Hd. unfold mem32, poke32. by rewrite mem_bytes_poke. Qed.
Lemma poke32_out m a v x : x < a \/ a + 4 <= x -> poke32 m a v x = m x.
Proof. intros Hx. unfold poke32. by rewrite poke_all_lookup, decide_False by (rewrite length_le_bytes; lia). Qed.

Lemma words_other l : forall m a v b, b + 4 * Z.of_nat (length l) <= a \/ a + 4 <= b -> words_at m b l -> words_at (poke32 m a v) b l.
Proof.
  induction l as [|w l IH]; intros m a v b Hd; cbn [words_at length]; [done|]. intros [H1 H2]. cbn [length] in Hd.
  split; [by rewrite mem32_other by lia|apply IH; [lia|done]].
Qed.

Lemma words_app l1 : forall m a l2, words_at m a (l1 ++ l2) <-> words_at m a l1 /\ words_at m (a + 4 * Z.of_nat (length l1)) l2.
Proof.
  induction l1 as [|w l1 IH]; intros m a l2; cbn [app words_at length].
  - replace (a + 4 * Z.of_nat 0) with a by lia. tauto.
  - rewrite IH. replace (a + 4 + 4 * Z.of_nat (length l1)) with (a + 4 * Z.of_nat (S (length l1))) by lia. tauto.
Qed.

Lemma words_lookup l : forall m a k v, words_at m a l -> l !! k = Some v -> mem32 m (a + 4 * Z.of_nat k) = v.
Proof.
  induction l as [|w l IH]; intros m a [|k] v; cbn [words_at lookup list_lookup]; try done.
  - intros [<- _] [= <-]. f_equal. lia.
  - intros [_ Hl] Hk. replace (a + 4 * Z.of_nat (S k)) with (a + 4 + 4 * Z.of_nat k) by lia. by apply IH.
Qed.

Lemma words_frame l : forall m m' a, (forall x, a <= x < a + 4 * Z.of_nat (length l) -> m' x = m x) -> words_at m a l -> words_at m' a l.
Proof.
  induction l as [|w l IH]; intros m m' a Hx; cbn [words_at length] in *; [done|]. intros [H1 H2]. split.
  - rewrite <-H1. unfold mem32, mem_bytes. f_equal. apply list_fmap_ext. intros k y Hy. apply lookup_seq in Hy as [-> Hk]. apply Hx. lia.
  - apply (IH m); [intros x Hxx; apply Hx; lia|done].
Qed.

(** Pushing a list of values, the first one first. *)
Definition pushl (vs : list Z) (m : mach) : mach := foldl (fun m v => push v m) m vs.

Lemma pushl_app a b m : pushl (a ++ b) m = pushl b (pushl a m).
Proof. apply foldl_app. Qed.

Definition with_stack (m : mach) (a : Z) (mem : ram) : mach := Mach (rset ESP a (rg m)) (sg m) (cs m) (ss m) (eip m) (eflags m) (sys m) mem.

(** What a series of pushes leaves: the values above the new stack pointer, the last
    one lowest, and the rest of the machine as it was. *)
Lemma pushl_spec vs : forall m l, 4 * Z.of_nat (length vs) <= esp m < 2 ^ 32 -> Forall is_u32 vs -> words_at (mm m) (esp m) l ->
  let a := esp m - 4 * Z.of_nat (length vs) in
  exists mem, pushl vs m = with_stack m a mem /\ words_at mem a (rev vs ++ l) /\ forall x, x < a \/ esp m <= x -> mem x = mm m x.
Proof.
  induction vs as [|v vs IH]; intros m l He Hv Hl; cbn [length] in *.
  - exists (mm m). rewrite Z.mul_0_r, Z.sub_0_r. split; [|done]. by destruct m as [[]].
  - apply Forall_cons in Hv as [Hv Hvs]. cbn [pushl foldl]. fold (pushl vs (push v m)).
    assert (push v m = with_stack m (esp m - 4) (poke32 (mm m) (esp m - 4) v)) as E.
    { unfold push. rewrite u32_id by (unfold is_u32; lia). by destruct m as [[]]. }
    assert (esp (push v m) = esp m - 4) as Ee by (rewrite E; by destruct m as [[]]).
    destruct (IH (push v m) (v :: l)) as (mem & E1 & E2 & E3); [rewrite Ee; lia|done| |].
    { rewrite Ee, E. cbn [words_at with_stack mm]. split; [by apply mem32_same|]. replace (esp m - 4 + 4) with (esp m) by lia. apply words_other; [lia|done]. }
    exists mem. rewrite Ee in *. replace (esp m - 4 - 4 * Z.of_nat (length vs)) with (esp m - 4 * Z.of_nat (S (length vs))) in * by lia. split_and!.
    + rewrite E1, E. by destruct m as [[]].
    + cbn [rev]. by rewrite <-app_assoc.
    + intros x Hx. rewrite E3 by lia. rewrite E. cbn [with_stack mm]. apply poke32_out. lia.
Qed.

Lemma run_app c1 c2 m : run (c1 ++ c2) m = run c1 m ≫= run c2.
Proof. revert m. induction c1 as [|i c1 IH]; intros m; cbn; [done|]. destruct (step i m) as [m'|]; cbn; [apply IH|done]. Qed.

Lemma reg_push r v m : r <> ESP -> reg_of r (push v m) = reg_of r m.
Proof. intros Hr. destruct m as [[]]. by destruct r. Qed.

(** A series of pushl instructions on registers other than the stack pointer. *)
Lemma run_pushes rs : forall m, ESP ∉ rs -> run (PushR <$> rs) m = Some (pushl (flip reg_of m <$> rs) m).
Proof.
  induction rs as [|r rs IH]; intros m Hr; [done|]. apply not_elem_of_cons in Hr as [Hr Hrs]. cbn -[push]. rewrite IH by done. unfold pushl. cbn [fmap list_fmap foldl flip]. do 2 f_equal.
  apply list_fmap_ext. intros k q Hq. cbn. apply reg_push. intros ->. by apply list_elem_of_lookup_2 in Hq.
Qed.

(** A series of popl instructions. *)
Definition pop_regs (rs : list reg) (vs : list Z) (x : regs) : regs := foldl (fun x rv => rset rv.1 rv.2 x) x (zip rs vs).
Lemma run_pops rs : forall m vs l, ESP ∉ rs -> length rs = length vs -> words_at (mm m) (esp m) (vs ++ l) ->
  0 <= esp m -> esp m + 4 * Z.of_nat (length rs) < 2 ^ 32 ->
  run (PopR <$> rs) m = Some (set_rg (fun x => rset ESP (esp m + 4 * Z.of_nat (length rs)) (pop_regs rs vs x)) m).
Proof.
  induction rs as [|r rs IH]; intros m vs l Hr Hl Hw H0 H1.
  - destruct vs; [|done]. cbn. f_equal. rewrite Z.mul_0_r, Z.add_0_r. by destruct m as [[]].
  - destruct vs as [|v vs]; [done|]. apply not_elem_of_cons in Hr as [Hr Hrs]. cbn [length] in Hl, H1. cbn [app words_at] in Hw. destruct Hw as [Hv Hw].
    cbn [fmap list_fmap run step mbind option_bind]. unfold top. rewrite Hv.
    set (m1 := set_reg r v (drop_words 1 m)).
    assert (esp m1 = esp m + 4 /\ mm m1 = mm m) as [E1 E2].
    { subst m1. unfold drop_words. rewrite u32_id by (unfold is_u32; lia). destruct m as [[]]. unfold esp, reg_of in *. cbn. split; [|done]. destruct r; try done; cbn; lia. }
    rewrite (IH m1 vs l) by (rewrite ?E1, ?E2; try done; lia). rewrite E1. f_equal. subst m1. unfold drop_words.
    rewrite u32_id by (unfold is_u32; lia). destruct m as [x sg0 cs0 ss0 ip fl sy mem]. unfold set_reg, set_rg, esp, reg_of in *. cbn [rg sg cs ss eip eflags sys mm] in *.
    f_equal. cbn [length]. unfold pop_regs. cbn [zip zip_with foldl fst snd].
    assert (forall l (x : regs) a b, ESP ∉ l.*1 -> rset ESP a (foldl (fun x rv => rset rv.1 rv.2 x) (rset ESP b x) l) = rset ESP a (foldl (fun x (rv : reg * Z) => rset rv.1 rv.2 x) x l)) as Hs.
    { clear. induction l as [|[q w] l IH]; intros x a b Hq; cbn in *; [by destruct x|]. apply not_elem_of_cons in Hq as [Hq Hl].
      rewrite <-(IH (rset q w x) a b Hl). do 2 f_equal. by destruct q, x. }
    assert (rset r v (rset ESP (rget ESP x + 4 * 1) x) = rset ESP (rget ESP x + 4 * 1) (rset r v x)) as -> by (by destruct r, x).
    rewrite Hs by (rewrite fst_zip by lia; done). f_equal. cbn. lia.
Qed.
