(* ===== verification/Swtch.v ===== *)
(** * The context switch (swtch.S, struct context of proc.h)

    swtch saves the callee-saved registers on the stack it is called on, stores
    the stack pointer through its first argument, and takes the registers and the
    return address from the context its second argument points to. *)

From S2P Require Import Prelude Block MemFuns X86.

Definition swtch : list instr :=
  [Load 4 ESP EAX; Load 8 ESP EDX;
   PushR EBP; PushR EBX; PushR ESI; PushR EDI;
   Store ESP EAX; Mov EDX ESP;
   PopR EDI; PopR ESI; PopR EBX; PopR EBP; Ret].

(** struct context, the words of a stack from its address up. *)
Record context := Context { c_edi : Z; c_esi : Z; c_ebx : Z; c_ebp : Z; c_eip : Z }.
Definition context_words (c : context) : list Z := [c_edi c; c_esi c; c_ebx c; c_ebp c; c_eip c].
Definition context_at (m : ram) (p : Z) (c : context) : Prop := words_at m p (context_words c).

(** The callee-saved registers and where a call returns to. *)
Definition saved (m : mach) (ret : Z) : context := Context (reg_of EDI m) (reg_of ESI m) (reg_of EBX m) (reg_of EBP m) ret.

Definition regs_ok (x : regs) : Prop :=
  Forall is_u32 [r_eax x; r_ecx x; r_edx x; r_ebx x; r_esp x; r_ebp x; r_esi x; r_edi x].

(** A call of swtch(old, new): the arguments on the stack, and the three pieces of
    memory it uses apart. *)
Record calls_swtch (m : mach) (ret old new : Z) : Prop := {
  cl_regs : regs_ok (rg m);
  cl_args : words_at (mm m) (esp m) [ret; old; new];
  cl_esp : 16 <= esp m /\ esp m + 12 <= 2 ^ 32;
  cl_old : 0 <= old /\ old + 4 <= 2 ^ 32 /\ (old + 4 <= esp m - 16 \/ esp m + 4 <= old);
  cl_new : 0 <= new /\ new + 20 < 2 ^ 32 /\ (new + 20 <= esp m - 16 \/ esp m <= new) /\ (old + 4 <= new \/ new + 20 <= old)
}.


(** A call of swtch ends in the context [new] points to: its registers, its return
    address, the stack above it.  The context of the caller is on its stack and
    *old points to it; no other memory changed. *)
Lemma swtch_spec m ret old new c : calls_swtch m ret old new -> context_at (mm m) new c -> exists m', run swtch m = Some m' /\
  saved m' (eip m') = c /\ esp m' = new + 20 /\
  mem32 (mm m') old = esp m - 16 /\ context_at (mm m') (esp m - 16) (saved m ret) /\
  (forall x, x < esp m - 16 \/ esp m <= x -> x < old \/ old + 4 <= x -> mm m' x = mm m x) /\
  (sg m', cs m', ss m', eflags m', sys m') = (sg m, cs m, ss m, eflags m, sys m).
Proof.
  intros [Hr Ha He Ho Hn] Hc.
  set (m1 := set_reg EDX (mem32 (mm m) (esp m + 8)) (set_reg EAX (mem32 (mm m) (esp m + 4)) m)).
  assert (run [Load 4 ESP EAX; Load 8 ESP EDX] m = Some m1) as E0.
  { unfold m1. cbn [run step mbind option_bind]. fold (esp m). rewrite u32_id by (unfold is_u32; lia).
    assert (reg_of ESP (set_reg EAX (mem32 (mm m) (esp m + 4)) m) = esp m) as -> by (by destruct m as [[]]).
    rewrite u32_id by (unfold is_u32; lia). done. }
  assert (reg_of EAX m1 = old /\ reg_of EDX m1 = new /\ esp m1 = esp m /\ mm m1 = mm m /\ saved m1 ret = saved m ret /\
          (sg m1, cs m1, ss m1, eflags m1, sys m1) = (sg m, cs m, ss m, eflags m, sys m)) as (E1 & E2 & E3 & E4 & E5 & E6).
  { destruct Ha as (_ & H1 & H2 & _). replace (esp m + 4 + 4) with (esp m + 8) in H2 by lia. subst m1. rewrite H1, H2. by destruct m as [[]]. }
  clearbody m1.
  change swtch with ([Load 4 ESP EAX; Load 8 ESP EDX] ++ (PushR <$> [EBP; EBX; ESI; EDI]) ++ [Store ESP EAX; Mov EDX ESP] ++ (PopR <$> [EDI; ESI; EBX; EBP]) ++ [Ret]).
  rewrite run_app, E0. cbn [mbind option_bind]. rewrite run_app, run_pushes by (by apply (bool_decide_unpack _)). cbn [mbind option_bind].
  destruct (pushl_spec (flip reg_of m1 <$> [EBP; EBX; ESI; EDI]) m1 [ret]) as (mem & -> & Hw & Hmem).
  { rewrite E3. cbn [fmap list_fmap length]. lia. }
  { change (flip reg_of m1 <$> _) with [c_ebp (saved m1 ret); c_ebx (saved m1 ret); c_esi (saved m1 ret); c_edi (saved m1 ret)]. rewrite E5.
    unfold regs_ok in Hr. rewrite !Forall_cons in Hr. repeat (apply Forall_cons; split; [apply Hr|]). constructor. }
  { rewrite E3, E4. split; [apply Ha|done]. }
  cbn [fmap list_fmap length] in Hw, Hmem |- *. rewrite E3 in *. change (4 * Z.of_nat 4) with 16 in *. rewrite E4 in Hmem.
  change (rev _ ++ [ret]) with (context_words (saved m1 ret)) in Hw. rewrite E5 in Hw.
  set (m2 := with_stack m1 new (poke32 mem old (esp m - 16))).
  assert (run [Store ESP EAX; Mov EDX ESP] (with_stack m1 (esp m - 16) mem) = Some m2) as E7.
  { subst m2. destruct m1 as [[]]. unfold esp, reg_of in E1, E2. cbn in E1, E2 |- *. by subst. }
  rewrite run_app, E7. cbn [mbind option_bind].
  assert (context_at (mm m2) new c) as Hc2.
  { change (mm m2) with (poke32 mem old (esp m - 16)). apply words_other; [cbn; lia|]. apply (words_frame _ (mm m)); [|done]. intros x Hx. apply Hmem. cbn in Hx. lia. }
  assert (esp m2 = new) as En by (by destruct m1 as [[]]).
  change [PopR EDI; PopR ESI; PopR EBX; PopR EBP] with (PopR <$> [EDI; ESI; EBX; EBP]).
  rewrite run_app. rewrite (run_pops _ m2 [c_edi c; c_esi c; c_ebx c; c_ebp c] [c_eip c]) by (rewrite ?En; done || (by apply (bool_decide_unpack _)) || (cbn; lia)).
  cbn [mbind option_bind run step length]. rewrite En. change (4 * Z.of_nat 4) with 16.
  set (m3 := set_rg _ m2).
  assert (esp m3 = new + 16 /\ mm m3 = mm m2 /\ saved m3 (c_eip c) = c) as (F1 & F2 & F3) by (destruct m1 as [[]]; by destruct c).
  assert (top m3 = c_eip c) as F4.
  { unfold top. rewrite F1, F2. destruct Hc2 as (_ & _ & _ & _ & H4 & _). by replace (new + 16) with (new + 4 + 4 + 4 + 4) by lia. }
  eexists. split; [reflexivity|]. rewrite F4. unfold drop_words. rewrite F1, u32_id by (unfold is_u32; lia).
  split_and!.
  - destruct m1 as [[]]. by destruct c.
  - destruct m1 as [[]]. cbn. lia.
  - change (mem32 (poke32 mem old (esp m - 16)) old = esp m - 16). apply mem32_same. lia.
  - change (context_at (poke32 mem old (esp m - 16)) (esp m - 16) (saved m ret)). apply words_other; [change (length (context_words (saved m ret))) with 5%nat; lia|done].
  - intros x H1 H2. change (poke32 mem old (esp m - 16) x = mm m x). rewrite poke32_out by lia. by apply Hmem.
  - rewrite <-E6. by destruct m1 as [[]].
Qed.

(** A call of swtch returns like any other call.  When a thread has switched
    away, and later another one switches to the context pointer that was stored,
    the first goes on after its call, with its callee-saved registers, its stack
    pointer and its return address, if its part of the stack was left alone. *)
Theorem swtch_roundtrip m1 m2 m3 ret old new c ret' old'
  (H1 : calls_swtch m1 ret old new) (Hc : context_at (mm m1) new c) (R1 : run swtch m1 = Some m2)
  (Hkeep : forall x, esp m1 - 16 <= x < esp m1 + 4 -> mm m3 x = mm m2 x)
  (H3 : calls_swtch m3 ret' old' (mem32 (mm m2) old)) :
  exists m4, run swtch m3 = Some m4 /\ saved m4 (eip m4) = saved m1 ret /\ esp m4 = esp m1 + 4.
Proof.
  destruct (swtch_spec _ _ _ _ c H1 Hc) as (m2' & E & _ & _ & Eo & Hs & _). rewrite E in R1. injection R1 as ->.
  destruct (swtch_spec _ _ _ _ (saved m1 ret) H3) as (m4 & E4 & Es & Ep & _).
  { rewrite Eo. apply (words_frame _ (mm m2)); [|done]. intros x Hx. apply Hkeep. change (length _) with 5%nat in Hx. lia. }
  exists m4. split_and!; [done|done|]. rewrite Ep, Eo. lia.
Qed.

(** A process and the scheduler switch back and forth. *)
Definition demo_regs (sp : Z) : regs := Regs 1 2 3 4 sp 5 6 7.
Definition demo_mach (sp : Z) (mem : ram) : mach := Mach (demo_regs sp) (Dsegs 16 16 0 0) 8 16 0 0 (Sysregs [] [] 0 0) mem.
Definition store_words (a : Z) (l : list Z) (m : ram) : ram := foldr (fun iv m => poke32 m (a + 4 * Z.of_nat iv.1) iv.2) m (zip (seq 0 (length l)) l).
Lemma demo_regs_ok sp : is_u32 sp -> regs_ok (demo_regs sp).
Proof. intros Hs. unfold regs_ok. repeat (apply Forall_cons; split; [exact Hs || (unfold is_u32; cbn; lia)|]). constructor. Qed.
Definition demo_m1 : mach := demo_mach 0x2000 (store_words 0x2000 [0x80; 0x500; 0x3000] (store_words 0x3000 [11; 12; 13; 14; 0x90] (fun _ => 0))).
Definition demo_m2 : mach := default demo_m1 (run swtch demo_m1).
Definition demo_m3 : mach := demo_mach 0x4000 (store_words 0x4000 [0x70; 0x504; 0x1FF0] (mm demo_m2)).

Lemma swtch_roundtrip_witness : exists m4, run swtch demo_m3 = Some m4 /\ saved m4 (eip m4) = saved demo_m1 0x80 /\ esp m4 = 0x2004.
Proof.
  apply (swtch_roundtrip demo_m1 demo_m2 demo_m3 0x80 0x500 0x3000 (Context 11 12 13 14 0x90) 0x70 0x504).
  - split; [by apply demo_regs_ok|vm_compute; intuition congruence..].
  - vm_compute. intuition congruence.
  - assert (bool_decide (is_Some (run swtch demo_m1)) = true) as H by (vm_compute; reflexivity). apply bool_decide_eq_true in H as [m H]. unfold demo_m2. by rewrite H.
  - intros x Hx. change (esp demo_m1) with 0x2000 in Hx. unfold demo_m3, demo_mach, store_words. cbn [mm zip seq length foldr fst snd]. rewrite !poke32_out by lia. reflexivity.
  - split; [by apply demo_regs_ok|vm_compute; intuition congruence..].
Defined.
