(* ===== verification/TrapAsm.v ===== *)
(** * Trap entry and return (trapasm.S, vectors.pl, tvinit of trap.c, seginit and
    switchuvm of vm.c)

    The descriptor tables, the 256 entry points that vectors.pl writes, and the
    code that builds a trap frame, calls trap and returns from it. *)

From S2P Require Import Prelude Block MemFuns VmDefs Trap X86 Swtch.

(** ** The tables *)

(** seginit, on the gdt of the cpu. *)
Definition seginit (g : list Z) : list Z :=
  <[SEG_UDATA := seg_bits (SEG STA_W 0 0xffffffff DPL_USER)]>
  (<[SEG_UCODE := seg_bits (SEG (Z.lor STA_X STA_R) 0 0xffffffff DPL_USER)]>
  (<[SEG_KDATA := seg_bits (SEG STA_W 0 0xffffffff 0)]>
  (<[SEG_KCODE := seg_bits (SEG (Z.lor STA_X STA_R) 0 0xffffffff 0)]> g))).

(** tvinit; [vectors] is the table of entry points. *)
Fixpoint tvinit_loop (n : nat) (vectors : nat -> Z) (idt : list gatedesc) : list gatedesc :=
  match n with O => idt | S n' => <[n' := SETGATE false (selector SEG_KCODE 0) (vectors n') 0]> (tvinit_loop n' vectors idt) end.
Definition tvinit (vectors : nat -> Z) (idt : list gatedesc) : list gatedesc :=
  let idt := tvinit_loop 256 vectors idt in
  let sc := Z.to_nat T_SYSCALL in
  let pr := Z.to_nat T_PRACTICE in
  let idt := <[sc := SETGATE true (selector SEG_KCODE 0) (vectors sc) DPL_USER]> idt in
  <[pr := SETGATE true (selector SEG_KCODE 0) (vectors pr) DPL_USER]> idt.

(** ltr marks the task state segment busy. *)
Definition ltr (sel : Z) (m : mach) : option mach :=
  d ← descriptor m sel;
  if negb ((d_type d =? STS_T32A) && (d_s d =? 0) && (d_p d =? 1)) then None
  else
    let g := <[Z.to_nat (sel / 8) := d + 2 ^ 41]> (gdt (sys m)) in
    Some (Mach (rg m) (sg m) (cs m) (ss m) (eip m) (eflags m) (Sysregs g (idt (sys m)) sel (cr3 (sys m))) (mm m)).

Definition KSTACKSIZE : Z := 4096.
(** struct taskstate: esp0 4, ss0 8, iomb 102, 104 bytes in all. *)
Definition sizeof_ts : Z := 104.
Definition poke16 (m : ram) (a v : Z) : ram := poke_all m a (le_bytes 2 v).
Definition tss_desc (ts : Z) : segdesc :=
  let d := SEG16 STS_T32A ts (sizeof_ts - 1) 0 in
  Segdesc (lim_15_0 d) (base_15_0 d) (base_23_16 d) (sd_type d) 0 (sd_dpl d) (sd_p d) (lim_19_16 d) (sd_avl d) (sd_rsv1 d) (sd_db d) (sd_g d) (base_31_24 d).

(** lcr3; [space pa] is the memory that the page directory at [pa] shows. *)
Definition lcr3 (space : Z -> ram -> ram) (pa : Z) (m : mach) : mach :=
  Mach (rg m) (sg m) (cs m) (ss m) (eip m) (eflags m) (Sysregs (gdt (sys m)) (idt (sys m)) (tr (sys m)) pa) (space pa (mm m)).

(** switchuvm after its tests, between pushcli and popcli; [ts] is the address of
    mycpu()->ts and [pa] that of the page directory. *)
Definition switchuvm_regs (space : Z -> ram -> ram) (ts kstack pa : Z) (m : mach) : option mach :=
  let g := <[SEG_TSS := seg_bits (tss_desc ts)]> (gdt (sys m)) in
  let mem := poke16 (mm m) (ts + 8) (selector SEG_KDATA 0) in
  let mem := poke32 mem (ts + 4) (u32 (kstack + KSTACKSIZE)) in
  let mem := poke16 mem (ts + 102) 0xFFFF in
  let m := Mach (rg m) (sg m) (cs m) (ss m) (eip m) (eflags m) (Sysregs g (idt (sys m)) (tr (sys m)) (cr3 (sys m))) mem in
  m ← ltr (selector SEG_TSS 0) m;
  Some (lcr3 space pa m).
Definition switchuvm (space : Z -> ram -> ram) (p : option (Z * Z)) (ts : Z) (m : mach) : option mach :=
  match p with
  | None => None
  | Some (kstack, pgdir) => if (kstack =? 0) || (pgdir =? 0) then None else switchuvm_regs space ts kstack (V2P pgdir) m
  end.
(** switchkvm: the address space of the kernel alone. *)
Definition switchkvm (space : Z -> ram -> ram) (kpgdir : Z) (m : mach) : mach := lcr3 space (V2P kpgdir) m.

(** ** The code *)

(** The vectors that vectors.pl leaves to push an error code themselves. *)
Definition pushes_err (n : nat) : bool := (n =? 8)%nat || ((10 <=? n)%nat && (n <=? 14)%nat) || (n =? 17)%nat.

Section Entry.
(** The addresses the linker gives to alltraps, trap, and the instruction after the call. *)
Context (alltraps_a trap_a ret_a : Z).

Definition vector (n : nat) : list instr :=
  (if pushes_err n then [] else [PushI 0]) ++ [PushI (Z.of_nat n); Jmp alltraps_a].

Definition alltraps : list instr :=
  [PushS DS; PushS ES; PushS FS; PushS GS; Pushal;
   MovW (selector SEG_KDATA 0) EAX; MovS EAX DS; MovS EAX ES;
   PushR ESP; Call trap_a ret_a].
End Entry.

Definition trapret : list instr := [Popal; PopS GS; PopS FS; PopS ES; PopS DS; AddI 8 ESP; Iret].
Definition after_trap : list instr := AddI 4 ESP :: trapret.

(** ** Gates and segments *)

(** A field of a word built from fields. *)
Lemma bits_mid d a b c k w : d = a + 2 ^ k * b + 2 ^ (k + w) * c -> 0 <= k -> 0 <= w -> 0 <= a < 2 ^ k -> 0 <= b < 2 ^ w -> bits d k w = b.
Proof.
  intros -> Hk Hw Ha Hb. unfold bits. rewrite Z.pow_add_r by lia.
  replace (a + 2 ^ k * b + 2 ^ k * 2 ^ w * c) with (a + (b + c * 2 ^ w) * 2 ^ k) by lia.
  rewrite Z.div_add, (Z.div_small a) by lia. rewrite Z.add_0_l, Z.mod_add by lia. by apply Z.mod_small.
Qed.

Lemma land_ffff x : Z.land x 0xffff = x mod 2 ^ 16.
Proof. apply (Z.land_ones x 16). lia. Qed.

Lemma gate_fields t off d : 0 <= off < 2 ^ 32 -> 0 <= d < 4 ->
  let g := gate_bits (SETGATE t (selector SEG_KCODE 0) off d) in
  d_offset g = off /\ d_sel g = selector SEG_KCODE 0 /\ d_type g = (if t then STS_TG32 else STS_IG32) /\ d_dpl g = d /\ d_p g = 1.
Proof.
  intros Ho Hd g. set (ty := if t then STS_TG32 else STS_IG32). set (lo := off mod 2 ^ 16). set (hi := off / 2 ^ 16).
  assert (g = lo + 2 ^ 16 * 8 + 2 ^ 40 * ty + 2 ^ 45 * d + 2 ^ 47 * 1 + 2 ^ 48 * hi) as ->.
  { subst g lo hi ty. unfold gate_bits, SETGATE. rewrite land_ffff, Z.shiftr_div_pow2 by lia.
    cbn [off_15_0 gd_cs gd_args gd_rsv1 gd_type gd_s gd_dpl gd_p off_31_16]. change (selector SEG_KCODE 0) with 8. lia. }
  assert (0 <= lo < 2 ^ 16) as Hlo by (by apply Z.mod_pos_bound). assert (off = 2 ^ 16 * hi + lo) as Hdm by (by apply Z.div_mod).
  clearbody lo hi. assert (0 <= hi < 2 ^ 16) as Hhi by lia. assert (0 <= ty < 2 ^ 4) as Hty by (subst ty; unfold STS_TG32, STS_IG32; destruct t; lia). clearbody ty.
  change (selector SEG_KCODE 0) with 8 in *. unfold d_offset, d_sel, d_type, d_dpl, d_p. split_and!.
  - rewrite (bits_mid _ 0 lo (8 + 2 ^ 24 * ty + 2 ^ 29 * d + 2 ^ 31 * 1 + 2 ^ 32 * hi) 0 16) by lia.
    rewrite (bits_mid _ (lo + 2 ^ 16 * 8 + 2 ^ 40 * ty + 2 ^ 45 * d + 2 ^ 47 * 1) hi 0 48 16) by lia. lia.
  - apply (bits_mid _ lo 8 (2 ^ 8 * ty + 2 ^ 13 * d + 2 ^ 15 * 1 + 2 ^ 16 * hi)); lia.
  - apply (bits_mid _ (lo + 2 ^ 16 * 8) ty (2 * d + 8 * 1 + 16 * hi)); lia.
  - apply (bits_mid _ (lo + 2 ^ 16 * 8 + 2 ^ 40 * ty) d (1 + 2 * hi)); lia.
  - apply (bits_mid _ (lo + 2 ^ 16 * 8 + 2 ^ 40 * ty + 2 ^ 45 * d) 1 hi); lia.
Qed.

(** The task state segment, once ltr has marked it busy. *)
Lemma tss_fields ts b : 0 <= ts < 2 ^ 32 -> b = 0 \/ b = 1 ->
  let t := seg_bits (tss_desc ts) + 2 ^ 41 * b in
  d_base t = ts /\ d_type t = STS_T32A + 2 * b /\ d_s t = 0 /\ d_p t = 1.
Proof.
  intros Ht Hb t. set (lo := ts mod 2 ^ 16). set (mi := ts / 2 ^ 16 mod 2 ^ 8). set (hi := ts / 2 ^ 24).
  assert (t = 103 + 2 ^ 16 * lo + 2 ^ 32 * mi + 2 ^ 40 * (9 + 2 * b) + 2 ^ 47 + 2 ^ 54 + 2 ^ 56 * hi) as ->.
  { subst t lo mi hi. unfold tss_desc, SEG16, seg_bits. cbn [lim_15_0 base_15_0 base_23_16 sd_type sd_s sd_dpl sd_p lim_19_16 sd_avl sd_rsv1 sd_db sd_g base_31_24].
    rewrite (land_ffff ts), !Z.shiftr_div_pow2 by lia. change (Z.land (ts / 2 ^ 16) 0xff) with (Z.land (ts / 2 ^ 16) (Z.ones 8)). rewrite Z.land_ones by lia.
    change (Z.land (sizeof_ts - 1) 0xffff) with 103. change (bits ((sizeof_ts - 1) / 2 ^ 16) 0 4) with 0. unfold STS_T32A. lia. }
  assert (0 <= lo < 2 ^ 16) as Hlo by (by apply Z.mod_pos_bound). assert (0 <= mi < 2 ^ 8) as Hmi by (by apply Z.mod_pos_bound).
  assert (ts = lo + 2 ^ 16 * mi + 2 ^ 24 * hi) as E.
  { subst lo mi hi. pose proof (Z.div_mod ts (2 ^ 16) ltac:(lia)). pose proof (Z.div_mod (ts / 2 ^ 16) (2 ^ 8) ltac:(lia)) as H1.
    rewrite Z.div_div in H1 by lia. change (2 ^ 16 * 2 ^ 8) with (2 ^ 24) in H1. lia. }
  clearbody lo mi hi. assert (0 <= hi < 2 ^ 8) as Hhi by lia. unfold d_base, d_type, d_s, d_p, STS_T32A. split_and!.
  - rewrite (bits_mid _ 103 (lo + 2 ^ 16 * mi) (9 + 2 * b + 2 ^ 7 + 2 ^ 14 + 2 ^ 16 * hi) 16 24) by lia.
    rewrite (bits_mid _ (103 + 2 ^ 16 * lo + 2 ^ 32 * mi + 2 ^ 40 * (9 + 2 * b) + 2 ^ 47 + 2 ^ 54) hi 0 56 8) by lia. lia.
  - apply (bits_mid _ (103 + 2 ^ 16 * lo + 2 ^ 32 * mi) _ (2 ^ 3 + 2 ^ 10 + 2 ^ 12 * hi)); lia.
  - apply (bits_mid _ (103 + 2 ^ 16 * lo + 2 ^ 32 * mi + 2 ^ 40 * (9 + 2 * b)) _ (2 ^ 2 + 2 ^ 9 + 2 ^ 11 * hi)); lia.
  - apply (bits_mid _ (103 + 2 ^ 16 * lo + 2 ^ 32 * mi + 2 ^ 40 * (9 + 2 * b)) _ (2 ^ 6 + 2 ^ 8 * hi)); lia.
Qed.

(** Which gates a user may call, and what each leads to. *)
Definition user_gate (n : nat) : bool := (n =? Z.to_nat T_SYSCALL)%nat || (n =? Z.to_nat T_PRACTICE)%nat.
Definition gate_of (vectors : nat -> Z) (n : nat) : gatedesc :=
  SETGATE (user_gate n) (selector SEG_KCODE 0) (vectors n) (if user_gate n then DPL_USER else 0).

Lemma tvinit_lookup vectors idt0 n : length idt0 = 256%nat -> (n < 256)%nat -> tvinit vectors idt0 !! n = Some (gate_of vectors n).
Proof.
  intros Hl Hn.
  assert (forall k, length (tvinit_loop k vectors idt0) = 256%nat) as Hlen by (induction k; cbn [tvinit_loop]; rewrite ?length_insert; done).
  assert (forall k, (n < k <= 256)%nat -> tvinit_loop k vectors idt0 !! n = Some (SETGATE false (selector SEG_KCODE 0) (vectors n) 0)) as Hloop.
  { induction k as [|k IH]; intros Hk; [lia|]. cbn [tvinit_loop]. destruct (decide (n = k)) as [->|]; [rewrite list_lookup_insert_eq; [done|rewrite Hlen; lia]|].
    rewrite list_lookup_insert_ne by done. apply IH. lia. }
  unfold tvinit, gate_of, user_gate. set (sc := Z.to_nat T_SYSCALL). set (pr := Z.to_nat T_PRACTICE).
  destruct (Nat.eqb_spec n pr) as [->|Hp]; [rewrite orb_true_r; apply list_lookup_insert_eq; rewrite length_insert, Hlen; lia|]. rewrite orb_false_r, list_lookup_insert_ne by done.
  destruct (Nat.eqb_spec n sc) as [->|Hs]; [apply list_lookup_insert_eq; rewrite Hlen; lia|]. rewrite list_lookup_insert_ne by done. apply Hloop. lia.
Qed.

(** ** Entry *)

Section Traps.
Context (vectors : nat -> Z) (alltraps_a trap_a ret_a ts : Z).
Context (Hvec : forall n, 0 <= vectors n < 2 ^ 32) (Hret : is_u32 ret_a) (Hts : 0 <= ts < 2 ^ 32).

(** The tables as seginit, tvinit and switchuvm leave them. *)
Definition cpu_gdt : list Z := <[SEG_TSS := seg_bits (tss_desc ts) + 2 ^ 41]> (seginit (replicate NSEGS 0)).
Record tables_ok (y : sysregs) : Prop := {
  tb_gdt : gdt y = cpu_gdt;
  tb_idt n : (n < 256)%nat -> idt y !! n = Some (gate_bits (gate_of vectors n));
  tb_tr : tr y = selector SEG_TSS 0
}.

(** A machine in the kernel or in a user's program. *)
Definition in_kernel (m : mach) : Prop := cs m = selector SEG_KCODE 0.
Definition in_user (m : mach) : Prop := cs m = selector SEG_UCODE 3 /\ ss m = selector SEG_UDATA 3.
(** Data selectors a user may have: null, or one of the user's segments. *)
Definition user_sel (s : Z) : Prop := s = 0 \/ exists r, 0 <= r < 4 /\ (s = selector SEG_UCODE r \/ s = selector SEG_UDATA r).
Definition kernel_sel (s : Z) : Prop := s = selector SEG_KDATA 0 \/ user_sel s.
Definition sels (P : Z -> Prop) (x : dsegs) : Prop := P (s_ds x) /\ P (s_es x) /\ P (s_fs x) /\ P (s_gs x).

(** The stack a trap is taken on, and what the processor pushes there when the
    privilege changes. *)
Definition from_user (m : mach) : bool := cpl m =? 3.
Definition stack_top (m : mach) : Z := if from_user m then mem32 (mm m) (ts + 4) else esp m.
Definition user_words (m : mach) : list Z := if from_user m then [esp m; ss m] else [].

Lemma kernel_descriptors m : gdt (sys m) = cpu_gdt ->
  descriptor m (selector SEG_KCODE 0) = Some (seg_bits (SEG (Z.lor STA_X STA_R) 0 0xffffffff 0)) /\
  descriptor m (selector SEG_KDATA 0) = Some (seg_bits (SEG STA_W 0 0xffffffff 0)) /\
  (forall r, 0 <= r < 4 -> descriptor m (selector SEG_UCODE r) = Some (seg_bits (SEG (Z.lor STA_X STA_R) 0 0xffffffff DPL_USER)) /\
                           descriptor m (selector SEG_UDATA r) = Some (seg_bits (SEG STA_W 0 0xffffffff DPL_USER))) /\
  descriptor m (selector SEG_TSS 0) = Some (seg_bits (tss_desc ts) + 2 ^ 41).
Proof using.
  intros E. unfold descriptor. rewrite E. split_and!; [reflexivity..| |reflexivity].
  intros r Hr. assert (r = 0 \/ r = 1 \/ r = 2 \/ r = 3) as [->|[->|[->| ->]]] by lia; split; reflexivity.
Qed.

Lemma kcode_fields : let d := seg_bits (SEG (Z.lor STA_X STA_R) 0 0xffffffff 0) in d_s d = 1 /\ d_type d = 10 /\ d_p d = 1 /\ d_dpl d = 0.
Proof using. vm_compute. done. Qed.

(** What the processor pushes at vector [n], as documented. *)
Definition err_ok (n : nat) (err : option Z) : Prop := match err with Some e => n ∈ error_vectors /\ is_u32 e | None => n ∉ error_vectors end.
(** The list of vectors.pl is that of the processor. *)
Lemma pushes_err_documented n : pushes_err n = true <-> n ∈ error_vectors.
Proof using.
  unfold pushes_err, error_vectors. rewrite !orb_true_iff, andb_true_iff, !Nat.eqb_eq, !Nat.leb_le, !elem_of_cons, elem_of_nil. lia.
Qed.
Lemma err_ok_pushes n err : err_ok n err -> pushes_err n = bool_decide (is_Some err).
Proof using.
  destruct err as [e|]; cbn; [intros [H _]|intros H]; rewrite <-pushes_err_documented in H; [done|by apply not_true_is_false].
Qed.
Definition flags_in (n : nat) (fl : Z) : Z := Z.ldiff fl (if negb (user_gate n) then Z.lor FL_ENTRY FL_IF else FL_ENTRY).

Record ready (m : mach) : Prop := {
  rd_tables : tables_ok (sys m);
  rd_mode : in_kernel m \/ in_user m /\ mem16 (mm m) (ts + 8) = selector SEG_KDATA 0;
  rd_regs : regs_ok (rg m);
  rd_words : is_u32 (eip m) /\ is_u32 (eflags m);
  rd_segs : sels kernel_sel (sg m);
  rd_user : in_user m -> sels user_sel (sg m);
  rd_stack : 84 <= stack_top m < 2 ^ 32 - 8
}.

Lemma interrupt_gate n err m : gdt (sys m) = cpu_gdt -> (forall n, (n < 256)%nat -> idt (sys m) !! n = Some (gate_bits (gate_of vectors n))) -> (n < 256)%nat ->
  interrupt n err m = enter_gate (vectors n) (selector SEG_KCODE 0) 0 (negb (user_gate n)) err m.
Proof using Hvec.
  intros Hg Hi Hn. destruct (kernel_descriptors m Hg) as (Dk & _). unfold interrupt. rewrite Hi by done.
  destruct (gate_fields (user_gate n) (vectors n) (if user_gate n then DPL_USER else 0)) as (G1 & G2 & G3 & G4 & G5); [done|by destruct (user_gate n)|].
  fold (gate_of vectors n) in G1, G2, G3, G4, G5. unfold gate_open. rewrite G1, G2, G3, G5, Dk.
  destruct kcode_fields as (K1 & K2 & K3 & K4). rewrite K1, K2, K3, K4. by destruct (user_gate n).
Qed.

Lemma interrupt_spec n err m : ready m -> (n < 256)%nat -> err_ok n err ->
  let l := from_option (fun e => [e]) [] err ++ [eip m; cs m; eflags m] ++ user_words m in
  let a := stack_top m - 4 * Z.of_nat (length l) in
  exists mem, interrupt n err m =
    Some (Mach (rset ESP a (rg m)) (sg m) (selector SEG_KCODE 0) (if from_user m then selector SEG_KDATA 0 else ss m) (vectors n) (flags_in n (eflags m)) (sys m) mem) /\
    words_at mem a l /\ forall x, x < a \/ stack_top m <= x -> mem x = mm m x.
Proof using Hvec Hts.
  intros Hr Hn He. destruct Hr as [[Hg Hi Htr] Hmode Hregs [Hip Hfl] _ _ Hst]. destruct (kernel_descriptors m Hg) as (Dk & Dd & Du & Dt).
  set (vs := (if from_user m then [ss m; esp m] else []) ++ [eflags m; cs m; eip m] ++ from_option (fun e => [e]) [] err).
  assert (Forall is_u32 vs) as Hvs.
  { unfold regs_ok in Hregs. rewrite !Forall_cons in Hregs. subst vs. apply Forall_app_2; [|apply Forall_app_2].
    - destruct (from_user m) eqn:E; [|done]. destruct Hmode as [Hk|[[Hk Hss] _]]; [unfold from_user, cpl in E; by rewrite Hk in E|].
      rewrite Hss, !Forall_cons. split; [by unfold is_u32|]. by split; [apply Hregs|].
    - rewrite !Forall_cons. split_and!; [done| |done|done]. by destruct Hmode as [-> |[[-> _] _]]; unfold is_u32.
    - destruct err as [e|]; [|done]. apply Forall_singleton, He. }
  set (mB := set_reg ESP (stack_top m) m). assert (esp mB = stack_top m /\ mm mB = mm m) as [EB1 EB2] by (by destruct m as [[]]).
  assert (exists mem, pushl vs mB = with_stack mB (esp mB - 4 * Z.of_nat (length vs)) mem /\ words_at mem (esp mB - 4 * Z.of_nat (length vs)) (rev vs ++ []) /\
    forall x, x < esp mB - 4 * Z.of_nat (length vs) \/ esp mB <= x -> mem x = mm mB x) as (mem & Ep & Hw & Hx).
  { apply pushl_spec; [|done|done]. rewrite EB1. subst vs. destruct (from_user m), err; cbn [length app from_option]; lia. }
  assert (rev vs ++ [] = from_option (fun e => [e]) [] err ++ [eip m; cs m; eflags m] ++ user_words m) as El.
  { rewrite app_nil_r. subst vs. unfold user_words. by destruct (from_user m), err. }
  intros l a. fold l in El. rewrite El in Hw.
  assert (esp mB - 4 * Z.of_nat (length vs) = a) as Ea by (subst a; rewrite <-El, app_nil_r, length_rev, EB1; done). rewrite Ea in *. rewrite EB1, EB2 in Hx.
  exists mem. split; [|done]. rewrite (interrupt_gate n err m Hg Hi Hn). unfold enter_gate.
  destruct Hmode as [Hk|[[Hk Hss] Hs0]].
  - assert (cpl m = 0) as Ec by (unfold cpl; by rewrite Hk). assert (from_user m = false) as Ef by (unfold from_user; by rewrite Ec).
    rewrite Ec, Ef. cbn [Z.eqb]. assert (mB = m) as EmB by (subst mB; unfold stack_top; rewrite Ef; by destruct m as [[]]).
    assert (push_err err (push (eip m) (push (cs m) (push (eflags m) m))) = pushl vs mB) as ->.
    { rewrite EmB. subst vs. rewrite Ef. unfold pushl. by destruct err; cbn [push_err from_option app foldl]. }
    rewrite Ep, EmB. reflexivity.
  - assert (cpl m = 3) as Ec by (unfold cpl; by rewrite Hk). assert (from_user m = true) as Ef by (unfold from_user; by rewrite Ec).
    rewrite Ec, Ef, Htr, Dt. change (0 =? 3) with false. change (0 <? 3) with true. cbv iota.
    destruct (tss_fields ts 1 Hts ltac:(lia)) as (T1 & T2 & T3 & T4). change (2 ^ 41 * 1) with (2 ^ 41) in *. rewrite T1, T2, T3, T4, Hs0.
    cbn [Z.eqb andb negb]. change (STS_T32A + 2 * 1 =? 0xB) with true. cbn [andb negb].
    assert (push_err err (push (eip m) (push (cs m) (push (eflags m) (push (esp m) (push (ss m) (set_reg ESP (mem32 (mm m) (ts + 4)) m)))))) = pushl vs mB) as ->.
    { subst vs mB. unfold stack_top. rewrite Ef. unfold pushl. by destruct err; cbn [push_err from_option app foldl]. }
    rewrite Ep. subst mB. clear. by destruct m as [[]].
Qed.
Lemma vector_spec n m l : (n < 256)%nat -> 8 <= esp m < 2 ^ 32 -> words_at (mm m) (esp m) l ->
  let vs := (if pushes_err n then [] else [0]) ++ [Z.of_nat n] in
  let a := esp m - 4 * Z.of_nat (length vs) in
  exists mem, run (vector alltraps_a n) m = Some (set_eip alltraps_a (with_stack m a mem)) /\
    words_at mem a (rev vs ++ l) /\ forall x, x < a \/ esp m <= x -> mem x = mm m x.
Proof using.
  intros Hn He Hl vs a. destruct (pushl_spec vs m l) as (mem & E & Hw & Hx).
  - subst vs. destruct (pushes_err n); cbn [length app]; lia.
  - subst vs. destruct (pushes_err n); cbn [app]; rewrite ?Forall_cons; unfold is_u32; split_and?; try done; lia.
  - done.
  - exists mem. split; [|done]. fold a in E. rewrite <-E. unfold vector, pushl. subst vs.
    destruct (pushes_err n); cbn [app run step mbind option_bind foldl]; by rewrite !u32_id by (unfold is_u32; lia).
Qed.

Lemma kdata_fields : let d := seg_bits (SEG STA_W 0 0xffffffff 0) in d_s d = 1 /\ d_p d = 1 /\ d_dpl d = 0.
Proof using. vm_compute. done. Qed.
Lemma load_kdata s m : gdt (sys m) = cpu_gdt -> cpl m = 0 -> load_seg s (selector SEG_KDATA 0) m = Some (set_sg (sset s (selector SEG_KDATA 0)) m).
Proof using.
  intros Hg Hc. destruct (kernel_descriptors m Hg) as (_ & Dd & _). unfold load_seg. rewrite Dd, Hc. change (selector SEG_KDATA 0 / 4 =? 0) with false. cbn [mbind option_bind].
  destruct kdata_fields as (-> & -> & ->). reflexivity.
Qed.

Lemma is_u32_sel s : kernel_sel s -> 0 <= s < 2 ^ 16.
Proof using. unfold kernel_sel, user_sel, selector, SEG_UCODE, SEG_UDATA, SEG_KDATA. intros [->|[->|(r & Hr & [->| ->])]]; lia. Qed.

(** The code before the call of trap. *)
Lemma alltraps_spec m l : gdt (sys m) = cpu_gdt -> in_kernel m -> regs_ok (rg m) -> sels kernel_sel (sg m) -> 56 <= esp m < 2 ^ 32 -> words_at (mm m) (esp m) l ->
  let x := rg m in
  let tf := esp m - 48 in
  exists mem, run (alltraps trap_a ret_a) m =
    Some (Mach (Regs (r_eax x - r_eax x mod 2 ^ 16 + selector SEG_KDATA 0) (r_ecx x) (r_edx x) (r_ebx x) (tf - 8) (r_ebp x) (r_esi x) (r_edi x))
               (Dsegs (selector SEG_KDATA 0) (selector SEG_KDATA 0) (s_fs (sg m)) (s_gs (sg m))) (cs m) (ss m) trap_a (eflags m) (sys m) mem) /\
    words_at mem (tf - 8) ([ret_a; tf; r_edi x; r_esi x; r_ebp x; esp m - 16; r_ebx x; r_edx x; r_ecx x; r_eax x;
                            s_gs (sg m); s_fs (sg m); s_es (sg m); s_ds (sg m)] ++ l) /\
    forall z, z < tf - 8 \/ esp m <= z -> mem z = mm m z.
Proof using Hret.
  intros Hg Hk Hr (S1 & S2 & S3 & S4) He Hl x tf. assert (tf = esp m - 48) as Etf by reflexivity. clearbody tf. unfold regs_ok in Hr. fold x in Hr. rewrite !Forall_cons in Hr. destruct Hr as (R1 & R2 & R3 & R4 & R5 & R6 & R7 & R8 & _).
  apply is_u32_sel in S1, S2, S3, S4.
  destruct (pushl_spec [s_ds (sg m); s_es (sg m); s_fs (sg m); s_gs (sg m)] m l) as (mem1 & E1 & Hw1 & Hx1);
    [cbn [length]; lia|rewrite !Forall_cons; unfold is_u32; split_and!; try lia; done|done|]. cbn [length] in E1, Hw1, Hx1. change (4 * Z.of_nat 4) with 16 in *.
  set (m1 := with_stack m (esp m - 16) mem1) in *. assert (esp m1 = esp m - 16) as Ee1 by (by destruct m as [[]]).
  destruct (pushl_spec [r_eax x; r_ecx x; r_edx x; r_ebx x; esp m - 16; r_ebp x; r_esi x; r_edi x] m1 (rev [s_ds (sg m); s_es (sg m); s_fs (sg m); s_gs (sg m)] ++ l)) as (mem2 & E2 & Hw2 & Hx2);
    [rewrite Ee1; cbn [length]; lia|rewrite !Forall_cons; unfold is_u32 in *; split_and!; try done; lia|by rewrite Ee1|]. cbn [length] in E2, Hw2, Hx2. rewrite Ee1 in *. change (4 * Z.of_nat 8) with 32 in *.
  replace (esp m - 16 - 32) with tf in * by lia.
  set (eax' := r_eax x - r_eax x mod 2 ^ 16 + selector SEG_KDATA 0).
  set (m2 := Mach (Regs eax' (r_ecx x) (r_edx x) (r_ebx x) tf (r_ebp x) (r_esi x) (r_edi x)) (Dsegs (selector SEG_KDATA 0) (selector SEG_KDATA 0) (s_fs (sg m)) (s_gs (sg m))) (cs m) (ss m) (eip m) (eflags m) (sys m) mem2).
  destruct (pushl_spec [tf; ret_a] m2 (rev [r_eax x; r_ecx x; r_edx x; r_ebx x; esp m - 16; r_ebp x; r_esi x; r_edi x] ++ rev [s_ds (sg m); s_es (sg m); s_fs (sg m); s_gs (sg m)] ++ l)) as (mem3 & E3 & Hw3 & Hx3);
    [change (esp m2) with tf; cbn [length]; lia|rewrite !Forall_cons; unfold is_u32 in *; split_and!; try done; lia|done|]. cbn [length] in E3, Hw3, Hx3. change (esp m2) with tf in *. change (4 * Z.of_nat 2) with 8 in *.
  assert (run [PushS DS; PushS ES; PushS FS; PushS GS] m = Some m1) as A1 by (rewrite <-E1; unfold pushl; cbn [foldl run step mbind option_bind]; reflexivity).
  assert (run [Pushal] m1 = Some (with_stack m1 tf mem2)) as A2.
  { rewrite <-E2. cbn [run step mbind option_bind]. unfold pushl. cbn [foldl].
    assert (rg m1 = Regs (r_eax x) (r_ecx x) (r_edx x) (r_ebx x) (esp m - 16) (r_ebp x) (r_esi x) (r_edi x)) as -> by (subst x; by destruct m as [[]]). done. }
  assert (run [MovW (selector SEG_KDATA 0) EAX; MovS EAX DS; MovS EAX ES] (with_stack m1 tf mem2) = Some m2) as A3.
  { set (m1' := Mach (Regs eax' (r_ecx x) (r_edx x) (r_ebx x) tf (r_ebp x) (r_esi x) (r_edi x)) (sg m) (cs m) (ss m) (eip m) (eflags m) (sys m) mem2).
    assert (step (MovW (selector SEG_KDATA 0) EAX) (with_stack m1 tf mem2) = Some m1') as B1 by (subst m1' x eax'; by destruct m as [[]]).
    assert (eax' mod 2 ^ 16 = selector SEG_KDATA 0) as B2.
    { subst eax'. pose proof (Z.div_mod (r_eax x) (2 ^ 16) ltac:(lia)) as H. replace (r_eax x - r_eax x mod 2 ^ 16) with (r_eax x / 2 ^ 16 * 2 ^ 16) by lia.
      rewrite Z.add_comm, Z.mod_add by lia. reflexivity. }
    assert (forall y s, reg_of EAX y = eax' -> gdt (sys y) = cpu_gdt -> cs y = cs m -> step (MovS EAX s) y = Some (set_sg (sset s (selector SEG_KDATA 0)) y)) as B3.
    { intros y q H1 H2 H3. cbn [step]. rewrite H1, B2. apply load_kdata; [done|]. unfold cpl. by rewrite H3, Hk. }
    cbn [run]. rewrite B1. cbn [mbind option_bind]. rewrite B3 by done. cbn [mbind option_bind]. rewrite B3 by done. cbn [mbind option_bind]. subst m1' m2. by destruct (sg m). }
  exists mem3. split_and!.
  - change (alltraps trap_a ret_a) with ([PushS DS; PushS ES; PushS FS; PushS GS] ++ [Pushal] ++ [MovW (selector SEG_KDATA 0) EAX; MovS EAX DS; MovS EAX ES] ++ [PushR ESP; Call trap_a ret_a]).
    rewrite run_app, A1. cbn [mbind option_bind]. rewrite run_app, A2. cbn [mbind option_bind]. rewrite run_app, A3. cbn [mbind option_bind].
    change (run [PushR ESP; Call trap_a ret_a] m2) with (Some (set_eip trap_a (pushl [tf; ret_a] m2))). by rewrite E3.
  - exact Hw3.
  - intros z Hz. rewrite Hx3 by lia. change (mm m2) with mem2. rewrite Hx2 by lia. change (mm m1) with mem1. apply Hx1. lia.
Qed.

(** From an interrupt to the call of trap. *)
Definition enter (n : nat) (err : option Z) (m : mach) : option mach :=
  m0 ← interrupt n err m; m1 ← run (vector alltraps_a n) m0; run (alltraps trap_a ret_a) m1.

(** struct trapframe for a machine: the words from its address up. *)
Definition trapframe_words (m : mach) (oesp : Z) (n : nat) (err : option Z) : list Z :=
  let x := rg m in
  [r_edi x; r_esi x; r_ebp x; oesp; r_ebx x; r_edx x; r_ecx x; r_eax x; s_gs (sg m); s_fs (sg m); s_es (sg m); s_ds (sg m);
   Z.of_nat n; default 0 err; eip m; cs m; eflags m] ++ user_words m.
Definition frame_size (m : mach) : Z := if from_user m then 76 else 68.

Lemma enter_spec n err m : ready m -> (n < 256)%nat -> err_ok n err ->
  let tf := stack_top m - frame_size m in
  exists m1, enter n err m = Some m1 /\ eip m1 = trap_a /\ esp m1 = tf - 8 /\ in_kernel m1 /\ sys m1 = sys m /\
    saved m1 0 = saved m 0 /\ sg m1 = Dsegs (selector SEG_KDATA 0) (selector SEG_KDATA 0) (s_fs (sg m)) (s_gs (sg m)) /\
    ss m1 = (if from_user m then selector SEG_KDATA 0 else ss m) /\ eflags m1 = flags_in n (eflags m) /\
    words_at (mm m1) (tf - 8) ([ret_a; tf] ++ trapframe_words m (tf + 32) n err) /\
    (forall x, x < tf - 8 \/ stack_top m <= x -> mm m1 x = mm m x).
Proof using Hvec Hts Hret.
  intros Hr Hn He tf. assert (tf = stack_top m - frame_size m) as Etf by reflexivity. clearbody tf. pose proof (rd_stack m Hr) as Hst.
  set (er := from_option (fun e => [e]) [] err). set (z := if pushes_err n then [] else [0] : list Z).
  assert (z ++ er = [default 0 err]) as Ez by (subst er z; rewrite (err_ok_pushes n err He); by destruct err).
  assert (Z.of_nat (length z) + Z.of_nat (length er) = 1) as Lz by (rewrite <-Nat2Z.inj_add, <-length_app, Ez; done).
  assert (frame_size m = 68 + 4 * Z.of_nat (length (user_words m))) as Lu by (unfold frame_size, user_words; by destruct (from_user m)).
  assert (Z.of_nat (length (user_words m)) <= 2) as Lu2 by (unfold user_words; destruct (from_user m); cbn; lia).
  destruct (interrupt_spec n err m Hr Hn He) as (mem1 & E1 & Hw1 & Hx1). fold er in E1, Hw1, Hx1. rewrite !length_app in E1, Hw1, Hx1. cbn [length] in E1, Hw1, Hx1.
  set (a1 := stack_top m - 4 * Z.of_nat (length er + (3 + length (user_words m)))) in E1, Hw1, Hx1. assert (a1 = stack_top m - 4 * (Z.of_nat (length er) + 3 + Z.of_nat (length (user_words m)))) as Ea1 by (subst a1; lia). clearbody a1.
  set (m1 := Mach _ _ _ _ _ _ _ mem1) in E1. assert (esp m1 = a1) as Em1 by (subst m1; clear; by destruct (rg m)).
  destruct (vector_spec n m1 (er ++ [eip m; cs m; eflags m] ++ user_words m) Hn) as (mem2 & E2 & Hw2 & Hx2); [rewrite Em1; lia|by rewrite Em1|].
  fold z in E2, Hw2, Hx2. rewrite length_app, Em1 in *. cbn [length] in E2, Hw2, Hx2. rewrite rev_app_distr in Hw2.
  assert (rev [Z.of_nat n] ++ rev z = Z.of_nat n :: z) as Erz by (subst z; by destruct (pushes_err n)). rewrite Erz in Hw2.
  set (a2 := a1 - 4 * Z.of_nat (length z + 1)) in E2, Hw2, Hx2. assert (a2 = tf + 48) as Ea2 by (subst a2; lia). clearbody a2. subst a2.
  set (m2 := set_eip alltraps_a _) in E2. assert (esp m2 = tf + 48) as Em2 by (subst m2 m1; clear; by destruct (rg m)).
  assert (rg m2 = rset ESP (tf + 48) (rg m)) as Er2 by (subst m2 m1; clear; by destruct (rg m)).
  destruct (alltraps_spec m2 (Z.of_nat n :: (z ++ er) ++ [eip m; cs m; eflags m] ++ user_words m)) as (mem3 & E3 & Hw3 & Hx3).
  { apply (tb_gdt _ (rd_tables m Hr)). }
  { reflexivity. }
  { rewrite Er2. pose proof (rd_regs m Hr) as Hg. unfold regs_ok in *. destruct (rg m). cbn in *. rewrite !Forall_cons in *. unfold is_u32 in *. intuition lia. }
  { apply (rd_segs m Hr). }
  { rewrite Em2. lia. }
  { rewrite Em2. change (mm m2) with mem2. by rewrite <-app_assoc. }
  rewrite Em2 in *. replace (tf + 48 - 48) with tf in * by lia. replace (tf + 48 - 16) with (tf + 32) in * by lia.
  eexists. split; [unfold enter; rewrite E1; cbn [mbind option_bind]; rewrite E2; cbn [mbind option_bind]; exact E3|].
  assert (r_edi (rg m2) = r_edi (rg m) /\ r_esi (rg m2) = r_esi (rg m) /\ r_ebp (rg m2) = r_ebp (rg m) /\ r_ebx (rg m2) = r_ebx (rg m) /\
    r_edx (rg m2) = r_edx (rg m) /\ r_ecx (rg m2) = r_ecx (rg m) /\ r_eax (rg m2) = r_eax (rg m)) as (Q1 & Q2 & Q3 & Q4 & Q5 & Q6 & Q7) by (rewrite Er2; by destruct (rg m)).
  rewrite Q1, Q2, Q3, Q4, Q5, Q6, Q7, Ez in Hw3. rewrite Q1, Q2, Q3, Q4.
  split_and!; try reflexivity.
  - exact Hw3.
  - intros x Hx. cbn [mm]. rewrite Hx3 by lia. change (mm m2) with mem2. rewrite Hx2 by lia. apply Hx1. lia.
Qed.

Lemma useg_fields : let d := seg_bits (SEG (Z.lor STA_X STA_R) 0 0xffffffff DPL_USER) in let e := seg_bits (SEG STA_W 0 0xffffffff DPL_USER) in
  (d_s d = 1 /\ d_p d = 1 /\ d_dpl d = 3 /\ d_type d = 10) /\ (d_s e = 1 /\ d_p e = 1 /\ d_dpl e = 3).
Proof using. vm_compute. done. Qed.

(** In the kernel every selector of a frame can be loaded. *)
Lemma load_any s sel m : gdt (sys m) = cpu_gdt -> in_kernel m -> kernel_sel sel -> load_seg s (sel mod 2 ^ 16) m = Some (set_sg (sset s sel) m).
Proof using.
  intros Hg Hk Hs. rewrite Z.mod_small by (by apply is_u32_sel). assert (cpl m = 0) as Hc by (unfold cpl; by rewrite Hk).
  destruct Hs as [->|[->|(r & Hr & Hs)]]; [by apply load_kdata|reflexivity|].
  destruct (kernel_descriptors m Hg) as (_ & _ & Du & _). destruct (Du r Hr) as [D1 D2]. destruct useg_fields as ((U1 & U2 & U3 & _) & V1 & V2 & V3).
  unfold load_seg. assert ((sel / 4 =? 0) = false /\ sel mod 4 = r) as [-> ->].
  { assert (r = 0 \/ r = 1 \/ r = 2 \/ r = 3) as [->|[->|[->| ->]]] by lia; destruct Hs as [->| ->]; split; reflexivity. }
  destruct Hs as [->| ->]; rewrite ?D1, ?D2; cbn [mbind option_bind]; rewrite ?U1, ?U2, ?U3, ?V1, ?V2, ?V3, Hc; cbn [Z.eqb andb];
    by rewrite (proj2 (Z.leb_le r 3)) by lia.
Qed.

Lemma hide_user m sel : gdt (sys m) = cpu_gdt -> user_sel sel -> hide m 3 sel = sel.
Proof using.
  intros Hg [->|(r & Hr & Hs)]; [unfold hide, descriptor; by rewrite Hg|]. destruct (kernel_descriptors m Hg) as (_ & _ & Du & _). destruct (Du r Hr) as [D1 D2].
  destruct useg_fields as ((_ & _ & U3 & _) & _ & _ & V3). unfold hide. by destruct Hs as [->| ->]; rewrite ?D1, ?D2, ?U3, ?V3.
Qed.

(** What a frame resumes: a machine in user mode, or one in the kernel whose stack
    starts above the frame. *)
Record resumable (u m2 : mach) (tf : Z) : Prop := {
  rs_regs : regs_ok (rg u);
  rs_mode : (in_user u /\ sels user_sel (sg u)) \/ (in_kernel u /\ sels kernel_sel (sg u) /\ esp u = tf + 68 /\ ss u = ss m2)
}.

Lemma pop_seg q sel x g c t ip fl y mem : gdt y = cpu_gdt -> c = selector SEG_KCODE 0 -> kernel_sel sel -> 0 <= r_esp x -> r_esp x + 4 < 2 ^ 32 -> mem32 mem (r_esp x) = sel ->
  step (PopS q) (Mach x g c t ip fl y mem) = Some (Mach (rset ESP (r_esp x + 4) x) (sset q sel g) c t ip fl y mem).
Proof using.
  intros Hg -> Hs H0 H1 Hm. cbn [step]. unfold top, esp, reg_of. cbn [rg mm rget]. rewrite Hm, load_any by done. cbn [mbind option_bind]. unfold drop_words, esp, reg_of.
  cbn [set_sg rg rget set_reg set_rg sg cs ss eip eflags sys mm]. rewrite u32_id by (unfold is_u32; lia). reflexivity.
Qed.

(** iret at the end of a frame. *)
Lemma iret_frame u x g t ip fl y mem a : gdt y = cpu_gdt -> r_esp x = a -> 0 <= a -> a + 20 < 2 ^ 32 -> words_at mem a ([eip u; cs u; eflags u] ++ user_words u) ->
  (in_user u /\ sels user_sel g) \/ (in_kernel u /\ esp u = a + 12 /\ ss u = t) ->
  iret (Mach x g (selector SEG_KCODE 0) t ip fl y mem) = Some (Mach (rset ESP (esp u) x) g (cs u) (ss u) (eip u) (eflags u) y mem).
Proof using.
  intros Hg Hx H0 H1 Hw Hm. pose proof (fun k v => words_lookup _ _ _ k v Hw) as W.
  set (m := Mach x g (selector SEG_KCODE 0) t ip fl y mem). assert (esp m = a) as Em by done.
  destruct (kernel_descriptors m Hg) as (Dk & _ & Du & _). destruct (Du 3 ltac:(lia)) as [D1 D2]. destruct useg_fields as ((U1 & U2 & U3 & U4) & V1 & V2 & V3).
  destruct kcode_fields as (K1 & K2 & K3 & K4).
  assert (top m = eip u /\ mem32 (mm m) (u32 (esp m + 4)) = cs u /\ mem32 (mm m) (u32 (esp m + 8)) = eflags u) as (T1 & T2 & T3).
  { unfold top. rewrite Em, !u32_id by (unfold is_u32; lia). split_and!; [rewrite <-(W 0%nat (eip u) eq_refl)|rewrite <-(W 1%nat (cs u) eq_refl)|rewrite <-(W 2%nat (eflags u) eq_refl)]; f_equal; lia. }
  unfold iret. rewrite T1, T2, T3. change (cpl m) with 0. clear T1 T2 T3.
  destruct Hm as [[[Hcs Hss] Hs]|(Hcs & He & Hs)]; unfold in_kernel in *; rewrite Hcs.
  - change (selector SEG_UCODE 3 mod 2 ^ 16) with (selector SEG_UCODE 3). rewrite D1. cbn [mbind option_bind]. rewrite U1, U2, U3, U4.
    change (selector SEG_UCODE 3 mod 4) with 3. cbn [Z.eqb Z.leb Z.ltb Z.compare andb negb Pos.eqb Pos.compare Pos.compare_cont].
    unfold user_words, from_user, cpl in W. rewrite Hcs in W. change (selector SEG_UCODE 3 mod 4 =? 3) with true in W. cbv iota in W.
    assert (mem32 (mm m) (u32 (esp m + 12)) = esp u /\ mem32 (mm m) (u32 (esp m + 16)) = ss u) as [T4 T5].
    { rewrite Em, !u32_id by (unfold is_u32; lia). split; [rewrite <-(W 3%nat (esp u) eq_refl)|rewrite <-(W 4%nat (ss u) eq_refl)]; f_equal; lia. }
    rewrite T4, T5, Hss. change (selector SEG_UDATA 3 mod 2 ^ 16) with (selector SEG_UDATA 3). rewrite D2. cbn [mbind option_bind]. rewrite V1, V2, V3.
    change (selector SEG_UDATA 3 mod 4) with 3. cbn [Z.eqb andb negb Pos.eqb].
    destruct Hs as (S1 & S2 & S3 & S4). unfold smap. rewrite !hide_user by done. by destruct g.
  - change (selector SEG_KCODE 0 mod 2 ^ 16) with (selector SEG_KCODE 0). rewrite Dk. cbn [mbind option_bind]. rewrite K1, K2, K3, K4.
    change (selector SEG_KCODE 0 mod 4) with 0. cbn [Z.eqb Z.leb Z.compare andb negb Pos.eqb Pos.compare Pos.compare_cont].
    unfold drop_words. rewrite Em, u32_id, He, Hs by (unfold is_u32; lia). reflexivity.
Qed.

Lemma popal_spec x g c t ip fl y mem a di si bp o bx dx cx ax : r_esp x = a -> 0 <= a -> a + 32 < 2 ^ 32 -> words_at mem a [di; si; bp; o; bx; dx; cx; ax] ->
  step Popal (Mach x g c t ip fl y mem) = Some (Mach (Regs ax cx dx bx (a + 32) bp si di) g c t ip fl y mem).
Proof using.
  intros Hx H0 H1 Hw. pose proof (fun k v => words_lookup _ _ _ k v Hw) as W. cbn [step]. unfold esp, reg_of. cbn [rg rget mm set_rg sg cs ss eip eflags sys]. rewrite Hx.
  rewrite !u32_id by (unfold is_u32; lia).
  assert (mem32 mem (a + 4 * 7) = ax /\ mem32 mem (a + 4 * 6) = cx /\ mem32 mem (a + 4 * 5) = dx /\ mem32 mem (a + 4 * 4) = bx /\
    mem32 mem (a + 4 * 2) = bp /\ mem32 mem (a + 4 * 1) = si /\ mem32 mem (a + 4 * 0) = di) as (-> & -> & -> & -> & -> & -> & ->); [|reflexivity].
  split_and!; [by apply (W 7%nat)|by apply (W 6%nat)|by apply (W 5%nat)|by apply (W 4%nat)|by apply (W 2%nat)|by apply (W 1%nat)|by apply (W 0%nat)].
Qed.

Lemma add_esp v x g c t ip fl y mem : 0 <= v -> 0 <= r_esp x -> r_esp x + v < 2 ^ 32 ->
  step (AddI v ESP) (Mach x g c t ip fl y mem) = Some (Mach (rset ESP (r_esp x + v) x) g c t ip fl y mem).
Proof using. intros Hv0 Hx0 Hx1. cbn [step]. unfold reg_of. cbn [rg rget]. rewrite u32_id by (unfold is_u32; lia). reflexivity. Qed.

Lemma trapret_spec m2 u o n err tf : gdt (sys m2) = cpu_gdt -> in_kernel m2 -> esp m2 = tf -> 0 <= tf -> tf + 76 < 2 ^ 32 ->
  resumable u m2 tf -> words_at (mm m2) tf (trapframe_words u o n err) ->
  run trapret m2 = Some (Mach (rg u) (sg u) (cs u) (ss u) (eip u) (eflags u) (sys m2) (mm m2)).
Proof using.
  intros Hg Hk He H4 H76 [Hr Hm] Hw. unfold trapframe_words in Hw. cbv zeta in Hw.
  destruct m2 as [x2 g2 c2 t2 ip2 fl2 y mem]. unfold in_kernel, esp, reg_of in Hk, He. cbn [cs rg rget sys mm] in *. subst c2.
  assert (sels kernel_sel (sg u)) as (S1 & S2 & S3 & S4).
  { destruct Hm as [[_ Hs]|(_ & Hs & _)]; [|done]. destruct Hs as (? & ? & ? & ?). by repeat split; right. }
  change ([r_edi _; _; _; _; _; _; _; _; _; _; _; _; _; _; _; _; _] ++ user_words u) with
    ([r_edi (rg u); r_esi (rg u); r_ebp (rg u); o; r_ebx (rg u); r_edx (rg u); r_ecx (rg u); r_eax (rg u)] ++
     [s_gs (sg u); s_fs (sg u); s_es (sg u); s_ds (sg u)] ++ [Z.of_nat n; default 0 err] ++ [eip u; cs u; eflags u] ++ user_words u) in Hw.
  rewrite !words_app in Hw. cbn [length] in Hw. destruct Hw as (Hw1 & Hw2 & _ & Hw3).
  change (4 * Z.of_nat 8) with 32 in *. change (4 * Z.of_nat 4) with 16 in *. change (4 * Z.of_nat 2) with 8 in *.
  replace (tf + 32 + 16 + 8) with (tf + 56) in Hw3 by lia. cbn [words_at] in Hw2. destruct Hw2 as (G1 & G2 & G3 & G4 & _).
  unfold trapret. cbn [run].
  rewrite (popal_spec _ _ _ _ _ _ _ _ tf _ _ _ _ _ _ _ _ He ltac:(lia) ltac:(lia) Hw1). cbn [mbind option_bind].
  rewrite (pop_seg GS (s_gs (sg u))); [|done|done|done|cbn; lia|cbn; lia|exact G1]. cbn [mbind option_bind rset r_esp].
  rewrite (pop_seg FS (s_fs (sg u))); [|done|done|done|cbn; lia|cbn; lia|exact G2]. cbn [mbind option_bind rset r_esp].
  rewrite (pop_seg ES (s_es (sg u))); [|done|done|done|cbn; lia|cbn; lia|exact G3]. cbn [mbind option_bind rset r_esp].
  rewrite (pop_seg DS (s_ds (sg u))); [|done|done|done|cbn; lia|cbn; lia|exact G4]. cbn [mbind option_bind rset r_esp].
  rewrite add_esp by (cbn; lia). cbn [mbind option_bind rset r_esp run step].
  rewrite (iret_frame u _ _ _ _ _ _ _ (tf + 56)); [|done|cbn; lia|lia|lia|by apply words_app|].
  - cbn [mbind option_bind rset]. unfold esp, reg_of. do 2 f_equal; [by destruct (rg u)|by destruct g2, (sg u)].
  - destruct Hm as [[Hu Hs]|(Hu & _ & H1 & H2)]; [left|right].
    + split; [done|]. by destruct g2, (sg u).
    + split_and!; [done|lia|done].
Qed.

Lemma leave_spec m2 u o n err tf : gdt (sys m2) = cpu_gdt -> in_kernel m2 -> esp m2 = tf - 4 -> 4 <= tf -> tf + 76 < 2 ^ 32 ->
  resumable u m2 tf -> words_at (mm m2) tf (trapframe_words u o n err) ->
  run after_trap m2 = Some (Mach (rg u) (sg u) (cs u) (ss u) (eip u) (eflags u) (sys m2) (mm m2)).
Proof using.
  intros Hg Hk He H4 H76 Hu Hw. unfold after_trap. cbn [run]. destruct m2 as [x2 g2 c2 t2 ip2 fl2 y mem]. unfold esp, reg_of in He. cbn [rg rget] in He.
  rewrite add_esp by lia. cbn [mbind option_bind]. rewrite (trapret_spec _ u o n err tf); try done; [|lia|].
  - unfold esp, reg_of. destruct x2. cbn in *. lia.
  - destruct Hu. by split.
Qed.

End Traps.

(** C6: traps are transparent.  Whatever the vector, with an error code exactly for
    the exceptions for which the processor documents one, from a user's program or inside
    the kernel, the processor, the vector and alltraps call trap in the kernel with
    a trap frame of all registers, the trap number and the error code, on the stack
    of the process; and when trap returns, on this cpu or another, with the frame of
    a machine [u], the code after the call and iret resume [u]: the interrupted
    program itself, if the frame was left as it was. *)
Theorem trap_transparent vectors alltraps_a trap_a ret_a ts n err m
  (Hvec : forall n, 0 <= vectors n < 2 ^ 32) (Hret : is_u32 ret_a) (Hts : 0 <= ts < 2 ^ 32)
  (Hr : ready vectors ts m) (Hn : (n < 256)%nat) (He : err_ok n err) :
  let tf := stack_top ts m - frame_size m in
  exists m1, enter alltraps_a trap_a ret_a n err m = Some m1 /\ eip m1 = trap_a /\ in_kernel m1 /\
    words_at (mm m1) (esp m1) ([ret_a; tf] ++ trapframe_words m (tf + 32) n err) /\
    (forall x, x < tf - 8 \/ stack_top ts m <= x -> mm m1 x = mm m x) /\
    resumable m m1 tf /\
    forall ts2 m2 u o, in_kernel m2 -> gdt (sys m2) = cpu_gdt ts2 -> esp m2 = esp m1 + 4 -> resumable u m2 tf ->
      words_at (mm m2) tf (trapframe_words u o n err) ->
      run after_trap m2 = Some (Mach (rg u) (sg u) (cs u) (ss u) (eip u) (eflags u) (sys m2) (mm m2)).
Proof.
  intros tf. destruct (enter_spec vectors alltraps_a trap_a ret_a ts Hvec Hret Hts n err m Hr Hn He) as (m1 & E & E1 & E2 & E3 & E4 & _ & _ & E5 & _ & Hw & Hx). fold tf in E2, Hw, Hx.
  pose proof (rd_stack _ _ m Hr) as Hst. exists m1. rewrite E2. split_and!; try done.
  - split; [apply (rd_regs _ _ m Hr)|]. destruct (rd_mode _ _ m Hr) as [Hk|[Hu _]]; [right|left; split; [done|by apply (rd_user _ _ m Hr)]].
    assert (from_user m = false) as Ef by (unfold from_user, cpl; by rewrite Hk). rewrite Ef in E5. split_and!; [done|apply (rd_segs _ _ m Hr)| |done].
    subst tf. unfold frame_size, stack_top. rewrite Ef. lia.
  - intros ts2 m2 u o Hk Hg Hp Hu Hf. assert (68 <= frame_size m <= 76) by (unfold frame_size; destruct (from_user m); lia).
    apply (leave_spec ts2 m2 u o n err tf); try done; subst tf; lia.
Qed.

(** A page fault of a user's program. *)
Definition demo_vectors (n : nat) : Z := 0x80100000 + 10 * (Z.of_nat n mod 256).
Definition demo_ts : Z := 0x80200000.
Definition demo_idt : list Z := gate_bits <$> tvinit demo_vectors (replicate 256 (Gatedesc 0 0 0 0 0 0 0 0 0)).
Definition demo_user : mach :=
  Mach (demo_regs 0x2F00) (Dsegs 0x23 0x23 0 0) 0x1B 0x23 0x123 0x246 (Sysregs (cpu_gdt demo_ts) demo_idt (selector SEG_TSS 0) 0x5000)
    (poke16 (poke32 (fun _ => 0) (demo_ts + 4) 0x80304000) (demo_ts + 8) (selector SEG_KDATA 0)).

Lemma demo_vectors_ok n : 0 <= demo_vectors n < 2 ^ 32.
Proof. unfold demo_vectors. pose proof (Z.mod_pos_bound (Z.of_nat n) 256 ltac:(lia)). lia. Qed.
Lemma demo_user_ready : ready demo_vectors demo_ts demo_user.
Proof.
  assert (user_sel 0x23 /\ user_sel 0) as [U1 U2] by (split; [right; exists 3; split; [lia|by right]|by left]).
  assert (stack_top demo_ts demo_user = 0x80304000) as Hs by reflexivity. assert (mem16 (mm demo_user) (demo_ts + 8) = selector SEG_KDATA 0) as Hm by reflexivity. split.
  - split; [done| |done]. intros n Hn. unfold demo_user, demo_idt. cbn [sys idt]. by rewrite list_lookup_fmap, tvinit_lookup.
  - right. split; [done|exact Hm].
  - by apply demo_regs_ok.
  - done.
  - by repeat split; right.
  - done.
  - rewrite Hs. lia.
Qed.

Lemma trap_transparent_witness : exists m1, enter 0x80105000 0x80106000 0x80105020 14 (Some 6) demo_user = Some m1 /\ eip m1 = 0x80106000.
Proof.
  destruct (trap_transparent demo_vectors 0x80105000 0x80106000 0x80105020 demo_ts 14 (Some 6) demo_user) as (m1 & E & E1 & _).
  - exact demo_vectors_ok.
  - done.
  - done.
  - exact demo_user_ready.
  - lia.
  - split; [by apply (bool_decide_unpack _)|done].
  - exact (ex_intro _ m1 (conj E E1)).
Defined.
