(* ===== verification/UserMode.v ===== *)
(** * In and out of user mode (allocproc, userinit, fork and forkret of proc.c,
      kvmalloc of vm.c, idtinit of trap.c, mpenter and mpmain of main.c)

    How the pieces of X86, Swtch and TrapAsm work together: the tables the kernel
    sets up are the ones traps need, a new process starts in user mode with the
    frame it was given, and fork returns in both processes. *)

From S2P Require Import Prelude Block MemFuns VmDefs ProcDefs Trap Syscall X86 Swtch TrapAsm.

(** ** Words and half words *)

Lemma mem16_same m a v : 0 <= v < 2 ^ 16 -> mem16 (poke16 m a v) a = v.
Proof.
  intros Hv. unfold mem16, poke16. change 2%nat with (length (le_bytes 2 v)) at 2. rewrite mem_bytes_same. by apply le_val_bytes.
Qed.
Lemma mem16_other32 m a v b : b + 2 <= a \/ a + 4 <= b -> mem16 (poke32 m a v) b = mem16 m b.
Proof. intros Hd. unfold mem16, poke32. rewrite mem_bytes_poke; [done|]. rewrite length_le_bytes. lia. Qed.
Lemma mem16_other m a v b : b + 2 <= a \/ a + 2 <= b -> mem16 (poke16 m a v) b = mem16 m b.
Proof. intros Hd. unfold mem16, poke16. rewrite mem_bytes_poke; [done|]. rewrite length_le_bytes. lia. Qed.
Lemma mem32_other16 m a v b : b + 4 <= a \/ a + 2 <= b -> mem32 (poke16 m a v) b = mem32 m b.
Proof. intros Hd. unfold mem32, poke16. rewrite mem_bytes_poke; [done|]. rewrite length_le_bytes. lia. Qed.
Lemma poke16_out m a v x : x < a \/ a + 2 <= x -> poke16 m a v x = m x.
Proof. intros Hx. unfold poke16. by rewrite poke_all_lookup, decide_False by (rewrite length_le_bytes; lia). Qed.

Lemma mem_bytes_eq m m' a n : (forall x, a <= x < a + Z.of_nat n -> m' x = m x) -> mem_bytes m' a n = mem_bytes m a n.
Proof. intros Hx. unfold mem_bytes. apply list_fmap_ext. intros k y Hy. apply lookup_seq in Hy as [-> Hk]. apply Hx. lia. Qed.

Lemma top_rset a x g c t ip fl y mem : top (Mach (rset ESP a x) g c t ip fl y mem) = mem32 mem a.
Proof. by destruct x. Qed.

(** ** The tables *)

Section Tables.
Context (vectors : nat -> Z) (ts : Z) (space : Z -> ram -> ram).
Context (Hvec : forall n, 0 <= vectors n < 2 ^ 32) (Hts : KERNBASE <= ts /\ ts + sizeof_ts <= 2 ^ 32).
(** Every address space shows the same kernel memory. *)
Context (Hspace : forall pa m x, KERNBASE <= x -> space pa m x = m x).

(** The tables of a cpu after seginit and idtinit, before or after a switch to a
    process: the task state segment may hold anything. *)
Definition no_gate : gatedesc := Gatedesc 0 0 0 0 0 0 0 0 0.
Record tables_set (y : sysregs) : Prop := {
  ts_gdt : exists d, gdt y = <[SEG_TSS := d]> (seginit (replicate NSEGS 0));
  ts_idt : idt y = gate_bits <$> tvinit vectors (replicate 256 no_gate)
}.

Lemma idt_set y n : tables_set y -> (n < 256)%nat -> idt y !! n = Some (gate_bits (gate_of vectors n)).
Proof using. intros [_ ->] Hn. by rewrite list_lookup_fmap, tvinit_lookup. Qed.

(** switchuvm makes the cpu ready for the traps of a process, whatever process it
    ran before. *)
Lemma switchuvm_spec m kstack pgdir : tables_set (sys m) -> 0 < kstack -> kstack + KSTACKSIZE < 2 ^ 32 -> pgdir <> 0 ->
  exists m', switchuvm space (Some (kstack, pgdir)) ts m = Some m' /\ tables_ok vectors ts (sys m') /\ tables_set (sys m') /\ cr3 (sys m') = V2P pgdir /\
    mem32 (mm m') (ts + 4) = kstack + KSTACKSIZE /\ mem16 (mm m') (ts + 8) = selector SEG_KDATA 0 /\
    (rg m', sg m', cs m', ss m', eip m', eflags m') = (rg m, sg m, cs m, ss m, eip m, eflags m) /\
    forall x, KERNBASE <= x -> x < ts \/ ts + sizeof_ts <= x -> mm m' x = mm m x.
Proof using Hspace Hts.
  intros Hy Hk0 Hk1 Hp. unfold sizeof_ts, KSTACKSIZE, KERNBASE in *. unfold switchuvm, KSTACKSIZE. rewrite (proj2 (Z.eqb_neq kstack 0)), (proj2 (Z.eqb_neq pgdir 0)) by lia. cbn [orb].
  unfold switchuvm_regs, ltr, KSTACKSIZE. rewrite u32_id by (unfold is_u32; lia). destruct (ts_gdt _ Hy) as [d Hd]. rewrite Hd. unfold descriptor. cbn [sys gdt].
  assert ((bits (selector SEG_TSS 0) 2 1 =? 0) = true) as -> by reflexivity. change (Z.to_nat (selector SEG_TSS 0 / 8)) with SEG_TSS.
  rewrite list_insert_insert_eq, list_lookup_insert_eq by (apply Nat.ltb_lt; reflexivity). cbn [mbind option_bind].
  destruct (tss_fields ts 0) as (_ & T2 & T3 & T4); [lia|lia|]. rewrite Z.mul_0_r, Z.add_0_r in T2, T3, T4. rewrite T2, T3, T4. change (STS_T32A + 2 * 0 =? STS_T32A) with true. cbn [andb negb Z.eqb Pos.eqb mbind option_bind].
  rewrite list_insert_insert_eq. eexists. split; [reflexivity|]. unfold lcr3. cbn [sys gdt idt tr cr3 mm rg sg cs ss eip eflags].
  set (mem := poke16 (poke32 _ _ _) _ _).
  assert (forall x, 0x80000000 <= x -> space (V2P pgdir) mem x = mem x) as E by (intros; by apply Hspace).
  split_and!; try done.
  - split; [done| |done]. intros n Hn. by apply (idt_set (sys m)).
  - split; [by eexists|apply Hy].
  - unfold mem32. rewrite (mem_bytes_eq mem) by (intros; apply E; lia). change (mem32 mem (ts + 4) = kstack + 4096).
    subst mem. rewrite mem32_other16 by lia. apply mem32_same. lia.
  - unfold mem16. rewrite (mem_bytes_eq mem) by (intros; apply E; lia). change (mem16 mem (ts + 8) = selector SEG_KDATA 0).
    subst mem. rewrite mem16_other, mem16_other32 by lia. apply mem16_same. unfold selector, SEG_KDATA. lia.
  - intros x Hx Ho. rewrite E by done. subst mem. rewrite poke16_out, poke32_out, poke16_out by lia. done.
Qed.

(** lgdt and lidt; mpenter and mpmain of main.c, as far as these registers go. *)
Definition lgdt (g : list Z) (m : mach) : mach := Mach (rg m) (sg m) (cs m) (ss m) (eip m) (eflags m) (Sysregs g (idt (sys m)) (tr (sys m)) (cr3 (sys m))) (mm m).
Definition lidt (i : list gatedesc) (m : mach) : mach :=
  Mach (rg m) (sg m) (cs m) (ss m) (eip m) (eflags m) (Sysregs (gdt (sys m)) (gate_bits <$> i) (tr (sys m)) (cr3 (sys m))) (mm m).
Definition idtinit (idt : list gatedesc) (m : mach) : mach := lidt idt m.
Definition mpmain (idt : list gatedesc) (m : mach) : mach := idtinit idt m.
Definition mpenter (kpgdir : Z) (idt : list gatedesc) (m : mach) : mach :=
  mpmain idt (lgdt (seginit (replicate NSEGS 0)) (switchkvm space kpgdir m)).
(** kvmalloc: setupkvm on the pages, then the new directory for the processor; the
    result is kpgdir, null when memory ran out. *)
Definition kvmalloc (kend kdata : Z) (m : mach) : M pmem (Z * mach) :=
  r ← setupkvm kend kdata; let kpgdir := default 0 r in mret (kpgdir, switchkvm space kpgdir m).

(** The switches of a scheduler, from process to process; between them the kernel's
    own page table. *)
Fixpoint switches (kpgdir : Z) (ps : list (Z * Z)) (m : mach) : option mach :=
  match ps with [] => Some m | p :: ps' => m' ← switchuvm space (Some p) ts m; switches kpgdir ps' (switchkvm space kpgdir m') end.
Definition runnable (p : Z * Z) : Prop := 0 < p.1 /\ p.1 + KSTACKSIZE < 2 ^ 32 /\ p.2 <> 0.

Lemma mpenter_tables kpgdir m : tables_set (sys (mpenter kpgdir (tvinit vectors (replicate 256 no_gate)) m)).
Proof using. split; [|done]. exists 0. reflexivity. Qed.
Lemma switches_tables kpgdir ps : forall m, Forall runnable ps -> tables_set (sys m) -> exists m', switches kpgdir ps m = Some m' /\ tables_set (sys m').
Proof using Hspace Hts.
  induction ps as [|[k d] ps IH]; intros m Hps Hm; [by exists m|]. apply Forall_cons in Hps as [(Hk0 & Hk1 & Hd) Hps]. cbn [switches fst snd] in *.
  destruct (switchuvm_spec m k d Hm Hk0 Hk1 Hd) as (m' & -> & _ & Ht & _). cbn [mbind option_bind]. apply IH; [done|]. by destruct Ht.
Qed.

(** A cpu is ready for the traps of the process it runs.  After mpenter has loaded
    the tables, and whatever processes the cpu has switched to before, switchuvm
    leaves the gates of tvinit, the segments of seginit, and a task state segment
    with the kernel stack of the process, the address space loaded is that of the
    process, and the stack of the caller and all other kernel memory are as they
    were. *)
Theorem cpu_ready_for_process kpgdir m ps k d (Hps : Forall runnable ps) (Hp : runnable (k, d)) :
  exists m1 m2, switches kpgdir ps (mpenter kpgdir (tvinit vectors (replicate 256 no_gate)) m) = Some m1 /\ switchuvm space (Some (k, d)) ts m1 = Some m2 /\
    tables_ok vectors ts (sys m2) /\ mem32 (mm m2) (ts + 4) = k + KSTACKSIZE /\ mem16 (mm m2) (ts + 8) = selector SEG_KDATA 0 /\ cr3 (sys m2) = V2P d /\
    (rg m2, sg m2, cs m2, ss m2, eip m2, eflags m2) = (rg m1, sg m1, cs m1, ss m1, eip m1, eflags m1) /\
    forall x, KERNBASE <= x -> x < ts \/ ts + sizeof_ts <= x -> mm m2 x = mm m1 x.
Proof using Hspace Hts.
  destruct (switches_tables kpgdir ps (mpenter kpgdir (tvinit vectors (replicate 256 no_gate)) m) Hps (mpenter_tables kpgdir m)) as (m1 & E1 & T1).
  destruct Hp as (Hk0 & Hk1 & Hd). destruct (switchuvm_spec m1 k d T1 Hk0 Hk1 Hd) as (m2 & E2 & A & _ & B & C & D & F & G). by exists m1, m2.
Qed.

(** A user's program enters the kernel by its own instruction only at the two
    vectors tvinit opens: int $n leads to vector n for T_SYSCALL and T_PRACTICE,
    with the next instruction as the place to return to, and to the protection
    fault, with the number of the gate as the error code, for every other n. *)
Theorem user_gates n next m (Hr : ready vectors ts m) (Hu : in_user m) (Hn : (n < 256)%nat) (Hnext : is_u32 next) :
  exists m1, int_n n next m = Some m1 /\ in_kernel m1 /\
    (eip m1 = vectors n /\ top m1 = next /\ (n = 64 \/ n = 128)%nat \/
     eip m1 = vectors GPF /\ top m1 = 8 * Z.of_nat n + 2 /\ n <> 64%nat /\ n <> 128%nat).
Proof using Hvec Hts.
  assert (user_gate n = true <-> (n = 64 \/ n = 128)%nat) as Hg.
  { unfold user_gate. rewrite orb_true_iff, !Nat.eqb_eq. done. }
  unfold int_n. rewrite (tb_idt _ _ _ (rd_tables _ _ _ Hr)) by done.
  destruct (gate_fields (user_gate n) (vectors n) (if user_gate n then DPL_USER else 0)) as (_ & _ & _ & G4 & _); [done|by destruct (user_gate n)|].
  fold (gate_of vectors n) in G4. rewrite G4. assert (cpl m = 3) as -> by (unfold cpl; destruct Hu as [-> _]; reflexivity).
  destruct (user_gate n) eqn:Eg.
  - change (DPL_USER <? 3) with false. cbv iota.
    destruct (interrupt_spec vectors ts Hvec ltac:(unfold KERNBASE, sizeof_ts in Hts; lia) n None (set_eip next m)) as (mem & E & Hw & _); [|done| |].
    + destruct Hr as [A B C [D1 D2] E F G]. by split.
    + cbn. destruct Hg as [Hg _]. destruct (Hg eq_refl) as [->| ->]; by apply (bool_decide_unpack _).
    + eexists. split; [exact E|]. split; [done|]. left. split; [done|]. split; [|by apply Hg]. destruct Hw as [Hw _]. rewrite top_rset. exact Hw.
  - change (0 <? 3) with true. cbv iota.
    destruct (interrupt_spec vectors ts Hvec ltac:(unfold KERNBASE, sizeof_ts in Hts; lia) GPF (Some (8 * Z.of_nat n + 2)) m Hr) as (mem & E & Hw & _); [cbv; lia|split; [by apply (bool_decide_unpack _)|unfold is_u32; lia]|].
    eexists. split; [exact E|]. split; [done|]. right. split; [done|]. destruct Hw as [Hw _]. split; [rewrite top_rset; exact Hw|].
    split; intros ->; destruct Hg as [_ Hg]; by discriminate Hg; auto.
Qed.
End Tables.

(** ** New processes *)

(** struct trapframe and struct context, in bytes; their fields. *)
Definition sizeof_tf : Z := 76.
Definition sizeof_context : Z := 20.
Definition TF_eax : Z := 28.
Definition TF_es : Z := 40.
Definition TF_ds : Z := 44.
Definition TF_eip : Z := 56.
Definition TF_cs : Z := 60.
Definition TF_eflags : Z := 64.
Definition TF_esp : Z := 68.
Definition TF_ss : Z := 72.
Definition memset0 (m : ram) (a n : Z) : ram := poke_all m a (replicate (Z.to_nat n) 0).

(** allocproc, from the kernel stack on: the addresses of the trap frame and of the
    context, and the memory. *)
Definition alloc_stack (forkret_a trapret_a kstack : Z) (m : ram) : Z * Z * ram :=
  let sp := kstack + KSTACKSIZE in
  let sp := sp - sizeof_tf in
  let tf := sp in
  let sp := sp - 4 in
  let m := poke32 m sp trapret_a in
  let sp := sp - sizeof_context in
  let m := memset0 m sp sizeof_context in
  (tf, sp, poke32 m (sp + 16) forkret_a).

(** The frame userinit writes. *)
Definition userinit_frame (tf : Z) (m : ram) : ram :=
  let m := memset0 m tf sizeof_tf in
  let m := poke16 m (tf + TF_cs) user_cs in
  let m := poke16 m (tf + TF_ds) user_ds in
  let m := poke16 m (tf + TF_es) (mem16 m (tf + TF_ds)) in
  let m := poke16 m (tf + TF_ss) (mem16 m (tf + TF_ds)) in
  let m := poke32 m (tf + TF_eflags) FL_IF in
  let m := poke32 m (tf + TF_esp) PGSIZE in
  poke32 m (tf + TF_eip) 0.

(** The frame fork gives the child: a copy of the parent's, with %eax 0. *)
Definition fork_frame (ptf ctf : Z) (m : ram) : ram :=
  let m := poke_all m ctf (mem_bytes m ptf (Z.to_nat sizeof_tf)) in
  poke32 m (ctf + TF_eax) 0.

(** The value syscall leaves in the frame. *)
Definition set_tf_eax (tf v : Z) (m : ram) : ram := poke32 m (tf + TF_eax) v.

Lemma mem32_halves m a : mem32 m a = mem16 m a + 2 ^ 16 * mem16 m (a + 2).
Proof.
  unfold mem32, mem16, mem_bytes. cbn [seq fmap list_fmap le_val]. replace (a + 2 + Z.of_nat 0) with (a + Z.of_nat 2) by lia.
  replace (a + 2 + Z.of_nat 1) with (a + Z.of_nat 3) by lia. lia.
Qed.
Lemma mem16_zero m a n b : a <= b -> b + 2 <= a + n -> mem16 (memset0 m a n) b = 0.
Proof.
  intros H1 H2. unfold mem16, memset0, mem_bytes. cbn [seq fmap list_fmap le_val]. rewrite !poke_all_lookup, !length_replicate, !decide_True by lia.
  by rewrite !lookup_replicate_2 by lia.
Qed.
Lemma mem32_zero m a n b : a <= b -> b + 4 <= a + n -> mem32 (memset0 m a n) b = 0.
Proof. intros H1 H2. rewrite mem32_halves, !mem16_zero by lia. done. Qed.
Lemma memset0_out m a n x : 0 <= n -> x < a \/ a + n <= x -> memset0 m a n x = m x.
Proof. intros Hn Hx. unfold memset0. by rewrite poke_all_lookup, decide_False by (rewrite length_replicate; lia). Qed.

(** Reading a word or a half of one through the writes to other places. *)
Ltac read_words :=
  solve [repeat first [rewrite mem32_same by (by cbv) | rewrite mem32_other by lia | rewrite mem32_other16 by lia | rewrite mem32_zero by lia]; done
        |rewrite mem32_halves; repeat first [rewrite mem16_same by (by cbv) | rewrite mem16_other32 by lia | rewrite mem16_other by lia | rewrite mem16_zero by lia]; done].

(** What allocproc leaves on the stack: a context that starts at forkret, and under
    it the return to trapret, next to the frame. *)
Lemma alloc_stack_spec forkret_a trapret_a k m : is_u32 forkret_a -> is_u32 trapret_a ->
  let '(tf, ctx, m') := alloc_stack forkret_a trapret_a k m in
  tf = k + KSTACKSIZE - sizeof_tf /\ ctx = tf - 24 /\ context_at m' ctx (Context 0 0 0 0 forkret_a) /\ mem32 m' (ctx + 20) = trapret_a /\
  forall x, x < ctx \/ tf <= x -> m' x = m x.
Proof.
  intros Hf Ht. unfold alloc_stack, KSTACKSIZE, sizeof_tf, sizeof_context. set (tf := k + 4096 - 76). assert (tf = k + 4096 - 76) as Etf by done. clearbody tf.
  replace (tf - 4 - 20) with (tf - 24) by lia. split_and!; try done.
  - unfold context_at. cbn [context_words words_at c_edi c_esi c_ebx c_ebp c_eip]. split_and!; [rewrite mem32_other by lia; apply mem32_zero; lia..| |done].
    replace (tf - 24 + 4 + 4 + 4 + 4) with (tf - 24 + 16) by lia. by apply mem32_same.
  - rewrite mem32_other by lia. replace (tf - 24 + 20) with (tf - 4) by lia.
    unfold mem32, memset0. rewrite mem_bytes_poke by (rewrite length_replicate; lia). by apply mem32_same.
  - intros x Hx. rewrite poke32_out by lia. rewrite memset0_out by lia. apply poke32_out. lia.
Qed.

Lemma words_shift l : forall m m' a b, (forall k, 0 <= k < 4 * Z.of_nat (length l) -> m' (b + k) = m (a + k)) -> words_at m a l -> words_at m' b l.
Proof.
  induction l as [|w l IH]; intros m m' a b Hk; cbn [words_at length] in *; [done|]. intros [H1 H2]. split.
  - rewrite <-H1. unfold mem32, mem_bytes. f_equal. apply list_fmap_ext. intros k y Hy. apply lookup_seq in Hy as [-> Hy]. apply Hk. lia.
  - apply (IH m m' (a + 4)); [|done]. intros k Hkk. rewrite <-!Z.add_assoc. apply Hk. lia.
Qed.

Lemma frame_eax u o n err tf v m : is_u32 v -> words_at m tf (trapframe_words u o n err) ->
  words_at (set_tf_eax tf v m) tf (trapframe_words (set_reg EAX v u) o n err).
Proof.
  intros Hv Hw. destruct u as [x g c t ip fl y um]. unfold trapframe_words in *. cbn [set_reg set_rg rg sg eip cs eflags] in *. cbv zeta in *.
  change (user_words (Mach (rset EAX v x) g c t ip fl y um)) with (user_words (set_reg EAX v (Mach x g c t ip fl y um))).
  assert (user_words (set_reg EAX v (Mach x g c t ip fl y um)) = user_words (Mach x g c t ip fl y um)) as -> by (by destruct x).
  set (l2 := [s_gs g; s_fs g; s_es g; s_ds g; Z.of_nat n; default 0 err; ip; c; fl] ++ user_words (Mach x g c t ip fl y um)).
  set (l1 := [r_edi x; r_esi x; r_ebp x; o; r_ebx x; r_edx x; r_ecx x]).
  assert (words_at m tf (l1 ++ [r_eax x] ++ l2)) as H by exact Hw.
  assert (words_at (set_tf_eax tf v m) tf (l1 ++ [v] ++ l2)); [|by destruct x].
  rewrite !words_app in *. destruct H as (H1 & _ & H3). change (4 * Z.of_nat (length l1)) with 28 in *. change (4 * Z.of_nat (length [_])) with 4 in *.
  unfold set_tf_eax, TF_eax. split_and!.
  - apply words_other; [|done]. change (4 * Z.of_nat (length l1)) with 28. lia.
  - by split; [apply mem32_same|].
  - apply words_other; [|done]. lia.
Qed.

Lemma fork_frame_words u o n err ptf ctf m : in_user u -> words_at m ptf (trapframe_words u o n err) ->
  words_at (fork_frame ptf ctf m) ctf (trapframe_words (set_reg EAX 0 u) o n err).
Proof.
  intros Hu Hw. unfold fork_frame. with_strategy opaque [poke32 poke_all] (apply frame_eax); [by unfold is_u32|]. apply (words_shift _ m _ ptf); [|done].
  assert (length (trapframe_words u o n err) = 19%nat) as ->.
  { unfold trapframe_words, user_words, from_user, cpl. by destruct Hu as [-> _]. }
  intros k Hk. rewrite poke_all_lookup. unfold mem_bytes. rewrite length_fmap, length_seq, decide_True by (unfold sizeof_tf; lia).
  rewrite list_lookup_fmap, lookup_seq_lt by (unfold sizeof_tf; lia). cbn. f_equal. lia.
Qed.

(** The machine of the first process: initcode from its start. *)
Definition init_user (y : sysregs) (mem : ram) : mach :=
  Mach (Regs 0 0 0 0 PGSIZE 0 0 0) (Dsegs user_ds user_ds 0 0) user_cs user_ds 0 FL_IF y mem.

Lemma userinit_frame_words tf m y mem : words_at (userinit_frame tf m) tf (trapframe_words (init_user y mem) 0 0 None).
Proof.
  unfold userinit_frame, TF_cs, TF_ds, TF_es, TF_ss, TF_eflags, TF_esp, TF_eip, sizeof_tf.
  change (trapframe_words (init_user y mem) 0 0 None) with [0; 0; 0; 0; 0; 0; 0; 0; 0; 0; user_ds; user_ds; 0; 0; 0; user_cs; FL_IF; PGSIZE; user_ds].
  rewrite !(mem16_other _ (tf + 40)), !mem16_same by (lia || by cbv). cbn [words_at]. rewrite <-!Z.add_assoc. cbn [Z.add Pos.add Pos.succ].
  split_and!; try done; read_words.
Qed.

(** ** The first return *)

Section Start.
Context (forkret_a trapret_a : Z) (Hforkret : is_u32 forkret_a) (Htrapret : is_u32 trapret_a).

(** A call of the kernel, entered in [m], has returned in [m']: to the address on
    the stack, perhaps on another cpu. *)
Definition returned (m m' : mach) : Prop := eip m' = top m /\ esp m' = esp m + 4 /\ in_kernel m'.

(** The stack of a process that waits for its first run, and the frame on it. *)
Definition new_stack (mem : ram) (tf : Z) (u : mach) (o : Z) (n : nat) (err : option Z) : Prop :=
  context_at mem (tf - 24) (Context 0 0 0 0 forkret_a) /\ mem32 mem (tf - 4) = trapret_a /\ words_at mem tf (trapframe_words u o n err).

(** A machine a frame may resume in user mode. *)
Definition user_mach (u : mach) : Prop := in_user u /\ sels user_sel (sg u) /\ regs_ok (rg u).

(** The scheduler of a cpu calls swtch for the process: its stack and the place of
    its context are not part of the new stack. *)
Record schedules (ms : mach) (ret old tf : Z) : Prop := {
  sc_call : calls_swtch ms ret old (tf - 24);
  sc_kernel : in_kernel ms;
  sc_apart : (esp ms <= tf - 24 \/ tf + sizeof_tf <= esp ms - 16) /\ (old + 4 <= tf - 24 \/ tf + sizeof_tf <= old);
  sc_tf : 24 <= tf /\ tf + sizeof_tf < 2 ^ 32
}.

Lemma first_return ms ret old tf u o n err : schedules ms ret old tf -> new_stack (mm ms) tf u o n err -> user_mach u ->
  exists m1, run swtch ms = Some m1 /\ eip m1 = forkret_a /\ words_at (mm m1) tf (trapframe_words u o n err) /\
    forall ts m2, returned m1 m2 -> gdt (sys m2) = cpu_gdt ts -> words_at (mm m2) tf (trapframe_words u o n err) ->
      eip m2 = trapret_a /\ run trapret m2 = Some (Mach (rg u) (sg u) (cs u) (ss u) (eip u) (eflags u) (sys m2) (mm m2)).
Proof using.
  intros [Hc Hk [Ha1 Ha2] [Ht0 Ht]] (Hx & Hr & Hf) (Hu & Hs & Hg). unfold sizeof_tf in *.
  destruct (swtch_spec ms ret old (tf - 24) _ Hc Hx) as (m1 & E & Es & Ep & _ & _ & Hm & _).
  assert (words_at (mm m1) tf (trapframe_words u o n err)) as Hf1.
  { apply (words_frame _ (mm ms)); [|done]. assert (length (trapframe_words u o n err) = 19%nat) as -> by (unfold trapframe_words, user_words, from_user, cpl; by destruct Hu as [-> _]).
    intros x Hxx. apply Hm; lia. }
  assert (top m1 = trapret_a) as Et.
  { unfold top. rewrite Ep. replace (tf - 24 + 20) with (tf - 4) by lia. rewrite <-Hr. unfold mem32. f_equal. apply mem_bytes_eq. intros x Hxx. apply Hm; lia. }
  exists m1. split_and!; [done|by injection Es|done|]. intros ts m2 (R1 & R2 & R3) Hgd Hf2. split; [by rewrite R1|].
  apply (trapret_spec ts m2 u o n err tf); try done; try lia. split; [done|]. by left.
Qed.

(** The machine [u] with the tables and the memory of [m]. *)
Definition resume (u m : mach) : mach := Mach (rg u) (sg u) (cs u) (ss u) (eip u) (eflags u) (sys m) (mm m).

(** ** System calls *)

Context (vectors : nat -> Z) (alltraps_a trap_a ret_a ts : Z).
Context (Hvec : forall n, 0 <= vectors n < 2 ^ 32) (Hret : is_u32 ret_a) (Hts : 0 <= ts < 2 ^ 32).

(** int $T_SYSCALL in a user's program, up to the call of trap; [next] is the
    instruction after it. *)
Definition SYSCALL_N : nat := Z.to_nat T_SYSCALL.
Definition syscall_enter (next : Z) (m : mach) : option mach :=
  m0 ← int_n SYSCALL_N next m; m1 ← run (vector alltraps_a SYSCALL_N) m0; run (alltraps trap_a ret_a) m1.
Definition frame_of (m : mach) : Z := stack_top ts m - sizeof_tf.

Lemma syscall_enter_spec next m : ready vectors ts m -> in_user m -> is_u32 next ->
  let u := set_eip next m in
  let tf := frame_of m in
  exists m1, syscall_enter next m = Some m1 /\ eip m1 = trap_a /\ in_kernel m1 /\ esp m1 = tf - 8 /\ user_mach u /\
    words_at (mm m1) (tf - 8) ([ret_a; tf] ++ trapframe_words u (tf + 32) SYSCALL_N None) /\
    (forall x, x < tf - 8 \/ stack_top ts m <= x -> mm m1 x = mm m x) /\ 8 <= tf /\ tf + sizeof_tf < 2 ^ 32 - 8.
Proof using Hvec Hret Hts.
  intros Hr Hu Hn u tf. assert (ready vectors ts u) as Hru by (destruct Hr as [A B C [D1 D2] E F G]; by split).
  assert (frame_size u = sizeof_tf) as Ef by (unfold frame_size, from_user, cpl; cbn [u set_eip cs]; by destruct Hu as [-> _]).
  destruct (enter_spec vectors alltraps_a trap_a ret_a ts Hvec Hret Hts SYSCALL_N None u Hru) as (m1 & E & E1 & E2 & E3 & _ & _ & _ & _ & _ & Hw & Hx); [cbv; lia|by apply (bool_decide_unpack _)|].
  rewrite Ef in *. exists m1. split_and!; try done.
  - rewrite <-E. unfold syscall_enter, enter, int_n. rewrite (tb_idt _ _ _ (rd_tables _ _ _ Hr)) by (cbv; lia).
    destruct (gate_fields true (vectors SYSCALL_N) DPL_USER) as (_ & _ & _ & G4 & _); [done|done|]. fold (gate_of vectors SYSCALL_N) in G4.
    change (gate_of vectors SYSCALL_N) with (SETGATE true (selector SEG_KCODE 0) (vectors SYSCALL_N) DPL_USER). rewrite G4.
    assert (cpl m = 3) as -> by (unfold cpl; destruct Hu as [-> _]; reflexivity). reflexivity.
  - split; [done|]. split; [by apply (rd_user _ _ m Hr)|apply (rd_regs _ _ m Hr)].
  - pose proof (rd_stack _ _ m Hr). subst tf. unfold frame_of, sizeof_tf. lia.
  - pose proof (rd_stack _ _ m Hr). subst tf. unfold frame_of, sizeof_tf. lia.
Qed.

Lemma user_mach_eax v u : is_u32 v -> user_mach u -> user_mach (set_reg EAX v u).
Proof using. intros Hv (H1 & H2 & H3). split; [done|]. split; [done|]. unfold regs_ok in *. destruct u as [[]]. cbn in H3 |- *. rewrite !Forall_cons in H3 |- *. clear -Hv H3. tauto. Qed.
Lemma user_frame_length u o n err : in_user u -> length (trapframe_words u o n err) = 19%nat.
Proof using. intros [Hc _]. unfold trapframe_words, user_words, from_user, cpl. by rewrite Hc. Qed.

(** The memory when fork returns: the stack of the child, its frame, and the result
    in the frame of the parent. *)
Definition fork_memory (tf k pid : Z) (mem : ram) : ram :=
  let '(ctf, _, mem) := alloc_stack forkret_a trapret_a k mem in
  set_tf_eax tf pid (fork_frame tf ctf mem).

Lemma fork_frame_out ptf ctf mem x : x < ctf \/ ctf + sizeof_tf <= x -> fork_frame ptf ctf mem x = mem x.
Proof using.
  unfold sizeof_tf, fork_frame, TF_eax, mem_bytes. intros Hx. rewrite poke32_out by lia.
  rewrite poke_all_lookup, length_fmap, length_seq. unfold sizeof_tf. by rewrite decide_False by lia.
Qed.

Lemma fork_memory_spec tf k pid mem u o n (ctf := k + KSTACKSIZE - sizeof_tf) : in_user u -> is_u32 pid -> words_at mem tf (trapframe_words u o n None) ->
  k + KSTACKSIZE <= tf \/ tf + sizeof_tf <= k ->
  let mem' := fork_memory tf k pid mem in
  words_at mem' tf (trapframe_words (set_reg EAX pid u) o n None) /\ new_stack mem' ctf (set_reg EAX 0 u) o n None.
Proof using Hforkret Htrapret.
  intros Hu Hp Hw Hd mem'. pose proof (alloc_stack_spec forkret_a trapret_a k mem Hforkret Htrapret) as Ha. unfold mem', fork_memory.
  destruct (alloc_stack forkret_a trapret_a k mem) as [[ctf' ctx] m1]. destruct Ha as (-> & -> & Hc & Ht & Hx). fold ctf in Hc, Ht, Hx |- *.
  assert (ctf = k + 4096 - 76) as Ec by done. unfold sizeof_tf, KSTACKSIZE in Hd.
  assert (words_at m1 tf (trapframe_words u o n None)) as H1.
  { apply (words_frame _ mem); [|done]. intros x Hxx. rewrite user_frame_length in Hxx by done. apply Hx. lia. }
  assert (forall x, ctf - 24 <= x < ctf -> set_tf_eax tf pid (fork_frame tf ctf m1) x = m1 x) as H2.
  { intros x Hxx. unfold set_tf_eax, TF_eax. rewrite poke32_out by lia. apply fork_frame_out. lia. }
  split; [apply frame_eax; [done|]|split_and!].
  - apply (words_frame _ m1); [|done]. intros x Hxx. rewrite user_frame_length in Hxx by done. apply fork_frame_out. unfold sizeof_tf. lia.
  - apply (words_frame _ m1); [|done]. intros x Hxx. apply H2. change (length _) with 5%nat in Hxx. lia.
  - rewrite <-Ht. unfold mem32. f_equal. replace (ctf - 24 + 20) with (ctf - 4) by lia. apply mem_bytes_eq. intros x Hxx. apply H2. lia.
  - apply (words_frame _ (fork_frame tf ctf m1)); [|by apply fork_frame_words]. intros x Hxx. rewrite user_frame_length in Hxx by done. apply poke32_out. unfold TF_eax. lia.
Qed.

(** C7: fork returns twice.  A user's program calls it by int $T_SYSCALL; the kernel
    copies the frame of the call to a new kernel stack, and the result to the frame.
    The return from the trap resumes the parent after the instruction with the
    child's pid in %eax and its other registers as they were.  And when a scheduler,
    later and on any cpu, switches to the context of the child, the child runs
    forkret and trapret, and those resume the same program at the same place with
    the same registers but %eax, which is 0. *)
Theorem fork_returns_twice next m k pid (Hr : ready vectors ts m) (Hu : in_user m) (Hn : is_u32 next) (Hp : is_u32 pid) :
  let u := set_eip next m in
  let tf := frame_of m in
  let ctf := k + KSTACKSIZE - sizeof_tf in
  exists m1, syscall_enter next m = Some m1 /\ eip m1 = trap_a /\
  forall mem, (forall x, tf <= x < tf + sizeof_tf -> mem x = mm m1 x) -> k + KSTACKSIZE <= tf \/ tf + sizeof_tf <= k ->
    (forall cpu m2, in_kernel m2 -> gdt (sys m2) = cpu_gdt cpu -> esp m2 = esp m1 + 4 ->
       (forall x, tf <= x < tf + sizeof_tf -> mm m2 x = fork_memory tf k pid mem x) ->
       run after_trap m2 = Some (resume (set_reg EAX pid u) m2)) /\
    (forall ms ret old, schedules ms ret old ctf -> (forall x, ctf - 24 <= x < ctf + sizeof_tf -> mm ms x = fork_memory tf k pid mem x) ->
       exists m3, run swtch ms = Some m3 /\ eip m3 = forkret_a /\
       forall cpu m4, returned m3 m4 -> gdt (sys m4) = cpu_gdt cpu -> (forall x, ctf <= x < ctf + sizeof_tf -> mm m4 x = mm m3 x) ->
         eip m4 = trapret_a /\ run trapret m4 = Some (resume (set_reg EAX 0 u) m4)).
Proof using Hvec Hret Hts Hforkret Htrapret.
  intros u tf ctf. destruct (syscall_enter_spec next m Hr Hu Hn) as (m1 & E & E1 & E2 & E3 & Hum & Hw & Hx & Ht0 & Ht1). fold u tf in E3, Hum, Hw, Hx, Ht0, Ht1.
  exists m1. split; [done|]. split; [done|]. intros mem Hmem Hd. rewrite words_app in Hw. destruct Hw as [_ Hw]. change (4 * Z.of_nat (length [ret_a; tf])) with 8 in Hw. replace (tf - 8 + 8) with tf in Hw by lia.
  assert (words_at mem tf (trapframe_words u (tf + 32) SYSCALL_N None)) as Hf.
  { apply (words_frame _ (mm m1)); [|done]. intros x Hxx. rewrite user_frame_length in Hxx by done. apply Hmem. unfold sizeof_tf. lia. }
  destruct (fork_memory_spec tf k pid mem u (tf + 32) SYSCALL_N Hu Hp Hf Hd) as [Hpar (Hc1 & Hc2 & Hc3)]. fold ctf in Hc1, Hc2, Hc3. split.
  - intros cpu m2 Hk Hg He Hm. apply (leave_spec cpu m2 _ (tf + 32) SYSCALL_N None tf); try done; [lia|lia|unfold sizeof_tf in Ht1; lia| |].
    + destruct (user_mach_eax pid u Hp Hum) as (A & B & C). split; [done|by left].
    + apply (words_frame _ (fork_memory tf k pid mem)); [|done]. intros x Hxx. rewrite user_frame_length in Hxx by done. apply Hm. unfold sizeof_tf. lia.
  - intros ms ret old Hs Hm. destruct (first_return ms ret old ctf (set_reg EAX 0 u) (tf + 32) SYSCALL_N None Hs) as (m3 & R & R1 & R2 & R3).
    + split_and!.
      * apply (words_frame _ (fork_memory tf k pid mem)); [|done]. intros x Hxx. apply Hm. change (length _) with 5%nat in Hxx. unfold sizeof_tf. lia.
      * rewrite <-Hc2. unfold mem32. f_equal. apply mem_bytes_eq. intros x Hxx. apply Hm. unfold sizeof_tf. lia.
      * apply (words_frame _ (fork_memory tf k pid mem)); [|done]. intros x Hxx. rewrite user_frame_length in Hxx by done. apply Hm. unfold sizeof_tf. lia.
    + by apply user_mach_eax.
    + exists m3. split; [done|]. split; [done|]. intros cpu m4 Hr4 Hg4 Hm4. apply (R3 cpu m4 Hr4 Hg4).
      apply (words_frame _ (mm m3)); [|done]. intros x Hxx. rewrite user_frame_length in Hxx by done. apply Hm4. unfold sizeof_tf. lia.
Qed.
End Start.

(** A program that asks for a breakpoint gets a protection fault; one that forks. *)
Lemma user_gates_witness : exists m1, int_n 3 0x125 demo_user = Some m1 /\ top m1 = 26.
Proof.
  destruct (user_gates demo_vectors demo_ts demo_vectors_ok ltac:(done) 3 0x125 demo_user) as (m1 & E & _ & H).
  - exact demo_user_ready.
  - done.
  - lia.
  - done.
  - destruct H as [(_ & _ & [H|H])|(_ & H & _)]; [discriminate H|discriminate H|]. exact (ex_intro _ m1 (conj E H)).
Defined.

Lemma fork_returns_twice_witness : exists m1, syscall_enter 0x80105000 0x80106000 0x80105020 0x125 demo_user = Some m1 /\ eip m1 = 0x80106000.
Proof.
  destruct (fork_returns_twice 0x80108000 0x80105030 ltac:(done) ltac:(done) demo_vectors 0x80105000 0x80106000 0x80105020 demo_ts demo_vectors_ok ltac:(done) ltac:(done)
    0x125 demo_user 0x80400000 2) as (m1 & E & E1 & _).
  - exact demo_user_ready.
  - done.
  - done.
  - done.
  - exact (ex_intro _ m1 (conj E E1)).
Defined.

Lemma cpu_ready_for_process_witness : exists m1 m2, switches demo_ts (fun _ m => m) 0x80401000 [(0x80300000, 0x80301000)] (mpenter (fun _ m => m) 0x80401000 (tvinit demo_vectors (replicate 256 no_gate)) demo_user) = Some m1 /\
  switchuvm (fun _ m => m) (Some (0x80302000, 0x80303000)) demo_ts m1 = Some m2 /\ mem32 (mm m2) (demo_ts + 4) = 0x80303000.
Proof.
  destruct (cpu_ready_for_process demo_vectors demo_ts (fun _ m => m)) with (kpgdir := 0x80401000) (m := demo_user) (ps := [(0x80300000, 0x80301000)]) (k := 0x80302000) (d := 0x80303000) as (m1 & m2 & E1 & E2 & _ & E3 & _).
  - done.
  - done.
  - by apply Forall_singleton.
  - done.
  - exact (ex_intro _ m1 (ex_intro _ m2 (conj E1 (conj E2 E3)))).
Defined.
