(* ===== verification/Usys.v ===== *)
(** * System calls from user programs (usys.S, initcode.S, syscall.h)

    The stubs of the user library put the number of a call in %eax and execute
    int $T_SYSCALL; syscall finds the function under that number.  The first
    program of all, initcode, calls exec the same way. *)

From stdpp Require Import strings.
From S2P Require Import Prelude Block MemFuns VmDefs ProcDefs ProcProps Trap Syscall X86 Swtch TrapAsm UserMode.
Local Open Scope string_scope.
Local Open Scope Z_scope.

(** ** Numbers and stubs *)

Definition sys_numbers : list (string * Z) :=
  [("fork", 1); ("exit", 2); ("wait", 3); ("pipe", 4); ("read", 5); ("kill", 6); ("exec", 7); ("fstat", 8); ("chdir", 9); ("dup", 10); ("getpid", 11);
   ("sbrk", 12); ("sleep", 13); ("uptime", 14); ("open", 15); ("write", 16); ("mknod", 17); ("unlink", 18); ("link", 19); ("mkdir", 20); ("close", 21);
   ("myfunction", 22); ("getppid", 23); ("yield", 24); ("test", 25); ("getlev", 26); ("setpriority", 27); ("thread_create", 28); ("thread_exit", 29);
   ("thread_join", 30); ("usysinit", 31); ("addUser", 32); ("fork2", 33); ("deleteUser", 34); ("accountcheck", 35); ("chmod", 36)].
Definition SYS (name : string) : Z := from_option snd 0 (List.find (fun p => bool_decide (fst p = name)) sys_numbers).

(** The names of usys.S, in its order. *)
Definition usys : list string :=
  ["fork"; "exit"; "wait"; "pipe"; "read"; "write"; "close"; "kill"; "exec"; "open"; "mknod"; "unlink"; "fstat"; "link"; "mkdir"; "chdir"; "dup"; "getpid";
   "sbrk"; "sleep"; "uptime"; "myfunction"; "getppid"; "yield"; "test"; "getlev"; "setpriority"; "thread_create"; "thread_exit"; "thread_join"; "usysinit";
   "addUser"; "fork2"; "deleteUser"; "accountcheck"; "chmod"].

(** A piece of user code with one int instruction: what comes before and after. *)
Record user_code := UserCode { before_int : list instr; int_vector : nat; after_int : list instr }.
(** The macro SYSCALL(name). *)
Definition SYSCALL (name : string) : user_code := UserCode [MovI (SYS name) EAX] SYSCALL_N [Ret].

(** ** The table of syscall.c *)

(** The entries of syscalls[] that sysfile.c implements. *)
Definition sysfile_entries : list (Z * string) :=
  [(SYS "pipe", "pipe"); (SYS "read", "read"); (SYS "exec", "exec"); (SYS "fstat", "fstat"); (SYS "chdir", "chdir"); (SYS "dup", "dup"); (SYS "open", "open");
   (SYS "write", "write"); (SYS "mknod", "mknod"); (SYS "unlink", "unlink"); (SYS "link", "link"); (SYS "mkdir", "mkdir"); (SYS "close", "close");
   (SYS "usysinit", "usysinit"); (SYS "addUser", "addUser"); (SYS "deleteUser", "deleteUser"); (SYS "accountcheck", "accountcheck"); (SYS "chmod", "chmod")].
Definition sysfile_entry (n : Z) : string := from_option snd "" (List.find (fun p => fst p =? n) sysfile_entries).

Section Dispatch.
Context {W : Type} {SV : Services W} (pol : policy) (forkret_addr null_pid : Z) (um : tst W -> Z -> Z).
(** The functions of sysfile.c, by name. *)
Context (sysfile_fn : string -> M (tst W) sys_next).

(** The function sys_name. *)
Definition sys_fn (name : string) : M (tst W) sys_next :=
  match name with
  | "fork" => sys_fork pol forkret_addr | "exit" => sys_exit | "wait" => sys_wait | "kill" => sys_kill um | "getpid" => sys_getpid | "sbrk" => sys_sbrk um
  | "sleep" => sys_sleep pol um | "uptime" => sys_uptime | "myfunction" => sys_myfunction um | "getppid" => sys_getppid null_pid | "yield" => sys_yield pol
  | "test" => sys_test | "getlev" => sys_getlev pol | "setpriority" => sys_setpriority pol null_pid um | "thread_create" => sys_thread_create um
  | "thread_exit" => sys_thread_exit um | "thread_join" => sys_thread_join um | "fork2" => sys_fork2 pol forkret_addr um
  | _ => sysfile_fn name
  end%string.

Definition usys_dispatch (num : Z) : option (M (tst W) sys_next) := syscall_entry pol forkret_addr null_pid um (fun n => sysfile_fn (sysfile_entry n)) num.

Lemma dispatch_named name : name ∈ usys -> usys_dispatch (SYS name) = Some (sys_fn name).
Proof using.
  intros Hn. unfold usys in Hn. repeat (apply elem_of_cons in Hn as [->|Hn]; [reflexivity|]). by apply not_elem_of_nil in Hn.
Qed.
End Dispatch.

Lemma SYS_range name : 0 <= SYS name <= 36.
Proof.
  unfold SYS. destruct (List.find _ sys_numbers) as [[x n]|] eqn:E; [|cbn; lia]. apply List.find_some in E as [E _]. cbn [from_option snd].
  unfold sys_numbers in E. repeat (destruct E as [[= _ <-]|E]; [lia|]). destruct E.
Qed.

(** ** A call through a stub *)

Section Call.
Context (vectors : nat -> Z) (alltraps_a trap_a ret_a ts : Z).
Context (Hvec : forall n, 0 <= vectors n < 2 ^ 32) (Hret : is_u32 ret_a) (Hts : 0 <= ts < 2 ^ 32).

(** User code up to the call of trap; [next] is the address after its int. *)
Definition call_kernel (c : user_code) (next : Z) (m : mach) : option mach :=
  m0 ← run (before_int c) m; m1 ← int_n (int_vector c) next m0; m2 ← run (vector alltraps_a (int_vector c)) m1; run (alltraps trap_a ret_a) m2.

Lemma ready_eax v m : is_u32 v -> ready vectors ts m -> ready vectors ts (set_reg EAX v m).
Proof using.
  intros Hv [A B C D E F G]. destruct m as [[]]. split; try done.
  unfold regs_ok in *. cbn in C |- *. rewrite !Forall_cons in C |- *. clear -Hv C. tauto.
Qed.

(** C21: a stub of the user library is a call of the kernel function of its name.
    The trap frame that reaches trap has T_SYSCALL as its trap number and in %eax
    the number under which syscall finds that function; and when the frame comes
    back with a result, the program goes on at the return address of the call, with
    the stack popped, the result in %eax, and every other register as it was. *)
Theorem usys_call {W} {SV : Services W} pol forkret_addr null_pid um sysfile_fn name next m (tf := frame_of ts m)
  (Hr : ready vectors ts m) (Hu : in_user m) (Hn : is_u32 next) (Hname : name ∈ usys) (Hs : 0 <= X86.esp m /\ X86.esp m + 4 < 2 ^ 32) :
  exists m1, call_kernel (SYSCALL name) next m = Some m1 /\ eip m1 = trap_a /\ in_kernel m1 /\
    words_at (mm m1) (X86.esp m1) [ret_a; tf] /\ mem32 (mm m1) (tf + 48) = T_SYSCALL /\
    usys_dispatch pol forkret_addr null_pid um sysfile_fn (mem32 (mm m1) (tf + TF_eax)) = Some (sys_fn pol forkret_addr null_pid um sysfile_fn name) /\
    forall cpu m2 r, is_u32 r -> in_kernel m2 -> gdt (sys m2) = cpu_gdt cpu -> X86.esp m2 = X86.esp m1 + 4 ->
      (forall x, tf <= x < tf + sizeof_tf -> mm m2 x = set_tf_eax tf r (mm m1) x) ->
      exists m3, run after_trap m2 = Some m3 /\ eip m3 = next /\
      run (after_int (SYSCALL name)) m3 = Some (Mach (rset ESP (X86.esp m + 4) (rset EAX r (rg m))) (sg m) (cs m) (ss m) (mem32 (mm m2) (X86.esp m)) (X86.eflags m) (sys m2) (mm m2)).
Proof using Hvec Hret Hts.
  set (num := SYS name). pose proof (SYS_range name) as Hnum. fold num in Hnum. assert (is_u32 num) as Hnum' by (unfold is_u32; lia).
  set (m0 := set_reg EAX num m). assert (in_user m0) as Hu0 by done.
  assert (frame_of ts m0 = tf) as Ef by (subst tf; unfold frame_of, stack_top; by destruct m as [[]]).
  destruct (syscall_enter_spec vectors alltraps_a trap_a ret_a ts Hvec Hret Hts next m0 (ready_eax num m Hnum' Hr) Hu0 Hn) as (m1 & E & E1 & E2 & E3 & Hum & Hw & _ & Ht0 & Ht1).
  rewrite Ef in *. set (u := set_eip next m0) in *. rewrite words_app in Hw. destruct Hw as [Hw0 Hw]. change (4 * Z.of_nat (length [ret_a; tf])) with 8 in Hw. replace (tf - 8 + 8) with tf in Hw by lia.
  pose proof (fun k v => words_lookup _ _ _ k v Hw) as Wl. exists m1. rewrite E3. split_and!; try done.
  - rewrite <-E. unfold call_kernel, SYSCALL, syscall_enter. cbn [before_int int_vector run step mbind option_bind]. fold num. by rewrite u32_id.
  - by apply (Wl 12%nat).
  - assert (mem32 (mm m1) (tf + TF_eax) = num) as ->; [|by apply dispatch_named]. unfold TF_eax. apply (Wl 7%nat). by destruct m as [[]].
  - intros cpu m2 r Hr2 Hk Hg He Hm.
    exists (resume (set_reg EAX r u) m2). split_and!; [|done|].
    + apply (leave_spec cpu m2 _ (tf + 32) SYSCALL_N None tf); try done; [lia|lia|unfold sizeof_tf in Ht1; lia| |].
      * destruct (user_mach_eax r u Hr2 Hum) as (A & B & C). split; [done|by left].
      * apply (words_frame _ (set_tf_eax tf r (mm m1))); [|by apply frame_eax]. intros x Hxx. rewrite user_frame_length in Hxx by done. apply Hm. unfold sizeof_tf. lia.
    + cbn [SYSCALL after_int run step mbind option_bind]. f_equal. unfold drop_words. destruct m as [[]]. unfold top, X86.esp, reg_of in *. cbn in Hs |- *. by rewrite u32_id by (unfold is_u32; lia).
Qed.

(** ** initcode *)

(** From start to the first int, and the loop at exit; [argv_a], [init_a] and
    [exit_a] are its labels. *)
Definition initcode (argv_a init_a : Z) : user_code := UserCode [PushI argv_a; PushI init_a; PushI 0; MovI (SYS "exec") EAX] SYSCALL_N [].
Definition initcode_exit (exit_a : Z) : user_code := UserCode [MovI (SYS "exit") EAX] SYSCALL_N [Jmp exit_a].
Definition init_string : list Z := [47; 105; 110; 105; 116; 0; 0].

(** Its data, below the stack it uses. *)
Record initcode_data (mem : ram) (argv_a init_a : Z) : Prop := {
  ic_init : mem_bytes mem init_a 7 = init_string;
  ic_argv : words_at mem argv_a [init_a; 0];
  ic_range : 0 < init_a /\ init_a + 7 <= PGSIZE - 12 /\ 0 < argv_a /\ argv_a + 8 <= PGSIZE - 12
}.

Lemma int_at_word mem a v : mem32 mem a = v -> int_at mem a = s32 v.
Proof using.
  intros <-. unfold int_at, mem32, mem_bytes. cbn [seq fmap list_fmap]. replace (a + Z.of_nat 0) with a by lia. replace (a + Z.of_nat 1) with (a + 1) by lia.
  replace (a + Z.of_nat 2) with (a + 2) by lia. by replace (a + Z.of_nat 3) with (a + 3) by lia.
Qed.

Lemma fetchint_word mem a v : mem32 mem a = v -> 0 <= v < 2 ^ 31 -> 0 <= a -> a + 4 <= PGSIZE -> fetchint mem PGSIZE a = Some v.
Proof using.
  intros Hm Hv H0 H1. unfold fetchint. rewrite u32_id by (unfold is_u32, PGSIZE in *; lia).
  rewrite (proj2 (Z.leb_gt _ _)), (proj2 (Z.ltb_ge _ _)) by lia. cbn [orb]. rewrite (int_at_word mem a v Hm). by rewrite s32_id by (unfold is_s32; lia).
Qed.

(** What sys_exec finds. *)
Lemma exec_args_initcode mem argv_a init_a : initcode_data mem argv_a init_a -> words_at mem (PGSIZE - 12) [0; init_a; argv_a] ->
  sys_exec_args mem PGSIZE (PGSIZE - 12) = Some ((init_a, 5), [(init_a, 5)]) /\ str_at mem (init_a, 5) = [47; 105; 110; 105; 116].
Proof using.
  intros [Hi (Ha1 & Ha2 & _) Hr] (_ & H1 & H2 & _). unfold PGSIZE in *.
  assert (forall k v, init_string !! k = Some v -> forall z, z = Z.of_nat k -> mem (init_a + z) = v) as Hb.
  { intros k v Hk z ->. rewrite <-Hi in Hk. unfold mem_bytes in Hk. rewrite list_lookup_fmap in Hk. destruct (seq 0 7 !! k) as [j|] eqn:E; [|done].
    apply lookup_seq in E as [-> _]. by injection Hk. }
  pose proof (Hb 0%nat _ eq_refl 0 eq_refl) as B0. pose proof (Hb 1%nat _ eq_refl 1 eq_refl) as B1. pose proof (Hb 2%nat _ eq_refl 2 eq_refl) as B2. pose proof (Hb 3%nat _ eq_refl 3 eq_refl) as B3.
  pose proof (Hb 4%nat _ eq_refl 4 eq_refl) as B4. pose proof (Hb 5%nat _ eq_refl 5 eq_refl) as B5. rewrite Z.add_0_r in B0.
  assert (string_ok mem 4096 (init_a, 5)) as Hs.
  { unfold string_ok, inside. cbn [fst snd]. split_and!; try lia; try done. intros k Hk.
    assert (k = 0 \/ k = 1 \/ k = 2 \/ k = 3 \/ k = 4) as [->|[->|[->|[->| ->]]]] by lia; rewrite ?Z.add_0_r; (rewrite B0 || rewrite B1 || rewrite B2 || rewrite B3 || rewrite B4); done. }
  assert (fetchstr mem 4096 init_a = Some (init_a, 5)) as Hf by (apply fetchstr_spec; [unfold is_u32; lia|done]).
  split.
  - unfold sys_exec_args, argstr, argint. change (4096 - 12 + 4 + 4 * 0) with 4088. change (4096 - 12 + 4 + 4 * 1) with 4092. rewrite !u32_id by (by unfold is_u32).
    rewrite (fetchint_word _ 4088 init_a), (fetchint_word _ 4092 argv_a) by (done || unfold PGSIZE; lia). rewrite !u32_id by (unfold is_u32; lia). rewrite Hf.
    cbn [exec_args_loop]. change (MAXARG <=? 0) with false. change (MAXARG <=? 0 + 1) with false. cbv iota. rewrite !u32_id by (unfold is_u32; lia).
    rewrite (fetchint_word _ (argv_a + 4 * 0) init_a) by (rewrite ?Z.mul_0_r, ?Z.add_0_r; done || unfold PGSIZE; lia).
    rewrite (proj2 (Z.eqb_neq init_a 0)), u32_id, Hf by (unfold is_u32; lia). rewrite (fetchint_word _ (argv_a + 4 * (0 + 1)) 0) by (done || unfold PGSIZE; lia). reflexivity.
  - change (str_at mem (init_a, 5)) with [mem (0 + init_a); mem (1 + init_a); mem (2 + init_a); mem (3 + init_a); mem (4 + init_a)].
    rewrite !(Z.add_comm _ init_a), Z.add_0_r. by rewrite B0, B1, B2, B3, B4.
Qed.

(** The cpu is set up for the process whose kernel stack is at [k], as switchuvm
    leaves it. *)
Definition cpu_ready (m : mach) (k : Z) : Prop :=
  tables_ok vectors ts (sys m) /\ mem32 (mm m) (ts + 4) = k + KSTACKSIZE /\ mem16 (mm m) (ts + 8) = selector SEG_KDATA 0.

Lemma kernel_above mem mem' a n : (forall x, x < PGSIZE - 12 \/ PGSIZE <= x -> mem' x = mem x) -> KERNBASE <= a -> mem_bytes mem' a n = mem_bytes mem a n.
Proof using. intros Hm Ha. apply mem_bytes_eq. intros x Hx. apply Hm. unfold KERNBASE, PGSIZE in *. lia. Qed.

Lemma zero_regs_ok ax sp : is_u32 ax -> is_u32 sp -> regs_ok (Regs ax 0 0 0 sp 0 0 0).
Proof using. intros H0 H. unfold regs_ok. rewrite !Forall_cons. unfold is_u32 in *. cbn. split_and!; try lia; done. Qed.

(** initcode in user mode, from its first instruction. *)
Lemma initcode_call next k argv_a init_a m : KERNBASE <= ts -> KERNBASE <= k -> k + KSTACKSIZE < 2 ^ 32 - 8 -> is_u32 next ->
  cpu_ready m k -> initcode_data (mm m) argv_a init_a ->
  exists m1, call_kernel (initcode argv_a init_a) next (resume (init_user (sys m) (mm m)) m) = Some m1 /\ eip m1 = trap_a /\
    (let tf := k + KSTACKSIZE - sizeof_tf in
     words_at (mm m1) (X86.esp m1) [ret_a; tf] /\ mem32 (mm m1) (tf + TF_eax) = SYS "exec" /\ mem32 (mm m1) (tf + TF_esp) = PGSIZE - 12) /\
    sys_exec_args (mm m1) PGSIZE (PGSIZE - 12) = Some ((init_a, 5), [(init_a, 5)]) /\ str_at (mm m1) (init_a, 5) = [47; 105; 110; 105; 116].
Proof using Hvec Hret Hts.
  intros Ht Hk Hk1 Hn (Htab & He & Hss) Hd. set (m0 := resume (init_user (sys m) (mm m)) m). assert (X86.esp m0 = PGSIZE) as Ee by done. destruct Hd as [Hi Ha Hrg].
  destruct (pushl_spec [argv_a; init_a; 0] m0 []) as (mem & Ep & Hw & Hx).
  { rewrite Ee. cbn [length]. unfold PGSIZE. lia. }
  { rewrite !Forall_cons. unfold is_u32, PGSIZE in *. split_and!; try lia. done. }
  { done. }
  rewrite Ee in *. change (4 * Z.of_nat (length [argv_a; init_a; 0])) with 12 in *. cbn [mm m0 resume] in Hx.
  set (m2 := set_reg EAX (SYS "exec") (with_stack m0 (PGSIZE - 12) mem)).
  assert (stack_top ts m2 = k + KSTACKSIZE) as Es by (rewrite <-He; change (mem32 mem (ts + 4) = mem32 (mm m) (ts + 4)); unfold mem32; f_equal; apply (kernel_above _ _ _ _ Hx); lia).
  assert (user_sel user_ds /\ user_sel 0) as [U1 U2] by (split; [right; exists 3; split; [lia|by right]|by left]).
  assert (ready vectors ts m2) as Hrd.
  { split; try done.
    - right. split; [done|]. rewrite <-Hss. unfold mem16. f_equal. apply (kernel_above _ _ _ _ Hx). lia.
    - by apply (zero_regs_ok 7 (PGSIZE - 12)).
    - by repeat split; right.
    - rewrite Es. unfold KERNBASE, KSTACKSIZE in *. lia. }
  destruct (syscall_enter_spec vectors alltraps_a trap_a ret_a ts Hvec Hret Hts next m2 Hrd ltac:(done) Hn) as (m1 & E & E1 & E2 & E3 & Hum & Hf & Hf2 & Ht0 & Ht1).
  assert (frame_of ts m2 = k + KSTACKSIZE - sizeof_tf) as Ef by (unfold frame_of; by rewrite Es). rewrite Ef in *. rewrite Es in Hf2. set (tf := k + KSTACKSIZE - sizeof_tf) in *. assert (tf = k + KSTACKSIZE - sizeof_tf) as Etf by done. clearbody tf.
  rewrite words_app in Hf. destruct Hf as [Hf0 Hf]. change (4 * Z.of_nat (length [ret_a; tf])) with 8 in Hf. replace (tf - 8 + 8) with tf in Hf by lia.
  pose proof (fun k v => words_lookup _ _ _ k v Hf) as Wl.
  assert (forall x, x < PGSIZE -> mm m1 x = mem x) as Hlow by (intros x Hxx; rewrite Hf2; [done|unfold KSTACKSIZE, sizeof_tf, KERNBASE, PGSIZE in *; lia]).
  exists m1. split; [|split; [done|split]].
  - rewrite <-E. subst m2. unfold call_kernel, syscall_enter. rewrite <-Ep. change (before_int (initcode argv_a init_a)) with (map PushI [argv_a; init_a; 0] ++ [MovI (SYS "exec") EAX])%list.
    unfold initcode. cbn [int_vector map app run step mbind option_bind]. rewrite !u32_id by (unfold is_u32, PGSIZE in *; done || lia). reflexivity.
  - rewrite E3. split; [done|]. split; [apply (Wl 7%nat); reflexivity|apply (Wl 17%nat); reflexivity].
  - apply (exec_args_initcode (mm m1) argv_a).
    + split; [| |done].
      * rewrite <-Hi. apply mem_bytes_eq. intros x Hxx. rewrite Hlow by (unfold PGSIZE in *; lia). apply Hx. unfold PGSIZE in *. lia.
      * apply (words_frame _ (mm m)); [|done]. intros x Hxx. cbn [length] in Hxx. rewrite Hlow by (unfold PGSIZE in *; lia). apply Hx. unfold PGSIZE in *. lia.
    + apply (words_frame _ mem); [|exact Hw]. intros x Hxx. cbn [length] in Hxx. apply Hlow. lia.
Qed.

Lemma userinit_frame_out tf mem x : x < tf \/ tf + sizeof_tf <= x -> userinit_frame tf mem x = mem x.
Proof using.
  unfold sizeof_tf. intros Hx. unfold userinit_frame, TF_cs, TF_ds, TF_es, TF_ss, TF_eflags, TF_esp, TF_eip, sizeof_tf.
  rewrite !poke32_out, !poke16_out by lia. apply memset0_out; lia.
Qed.

(** C22: the first process.  With the stack that allocproc makes and the frame that
    userinit writes, the scheduler's switch to the process runs forkret, then
    trapret; that enters user mode at address 0, and initcode there makes a system
    call whose number selects exec and whose arguments, as sys_exec reads them from
    the process's memory, are the path /init and the list of that one string. *)
Theorem first_process {W} {SV : Services W} pol null_pid um sysfile_fn forkret_a trapret_a k mem ms ret old next argv_a init_a (tf := k + KSTACKSIZE - sizeof_tf)
  (Hf : is_u32 forkret_a) (Ht : is_u32 trapret_a) (Hk : KERNBASE <= k) (Hk1 : k + KSTACKSIZE < 2 ^ 32 - 8) (Hts0 : KERNBASE <= ts) (Hn : is_u32 next)
  (Hs : schedules ms ret old tf)
  (Hm : forall x, tf - 24 <= x < tf + sizeof_tf -> mm ms x = userinit_frame tf (alloc_stack forkret_a trapret_a k mem).2 x) :
  exists m1, run swtch ms = Some m1 /\ eip m1 = forkret_a /\
  forall m2, returned m1 m2 -> cpu_ready m2 k -> (forall x, tf <= x < tf + sizeof_tf -> mm m2 x = mm m1 x) -> initcode_data (mm m2) argv_a init_a ->
  eip m2 = trapret_a /\ exists m3, run trapret m2 = Some m3 /\ in_user m3 /\ eip m3 = 0 /\
  exists m4, call_kernel (initcode argv_a init_a) next m3 = Some m4 /\ eip m4 = trap_a /\ words_at (mm m4) (X86.esp m4) [ret_a; tf] /\
    usys_dispatch pol forkret_a null_pid um sysfile_fn (mem32 (mm m4) (tf + TF_eax)) = Some (sysfile_fn "exec") /\
    sys_exec_args (mm m4) PGSIZE (mem32 (mm m4) (tf + TF_esp)) = Some ((init_a, 5), [(init_a, 5)]) /\ str_at (mm m4) (init_a, 5) = [47; 105; 110; 105; 116].
Proof using Hvec Hret Hts.
  pose proof (alloc_stack_spec forkret_a trapret_a k mem Hf Ht) as Ha. destruct (alloc_stack forkret_a trapret_a k mem) as [[tf' ctx] mem1]. destruct Ha as (-> & -> & Hc & Hr & _). fold tf in Hc, Hr. cbn [snd] in Hm.
  assert (tf = k + 4096 - 76) as Etf by done. clearbody tf. unfold sizeof_tf in Hm.
  assert (new_stack forkret_a trapret_a (mm ms) tf (init_user (Sysregs [] [] 0 0) mem) 0 0 None) as Hst.
  { split_and!.
    - apply (words_frame _ mem1); [|done]. intros x Hx. change (length _) with 5%nat in Hx. rewrite Hm by lia. apply userinit_frame_out. lia.
    - rewrite <-Hr. replace (tf - 24 + 20) with (tf - 4) by lia. unfold mem32. f_equal. apply mem_bytes_eq. intros x Hx. rewrite Hm by lia. apply userinit_frame_out. lia.
    - apply (words_frame _ (userinit_frame tf mem1)); [|apply userinit_frame_words]. intros x Hx. rewrite user_frame_length in Hx by done. apply Hm. lia. }
  assert (user_sel user_ds /\ user_sel 0) as [U1 U2] by (split; [right; exists 3; split; [lia|by right]|by left]).
  destruct (first_return forkret_a trapret_a ms ret old tf _ 0 0%nat None Hs Hst) as (m1 & E & E1 & E2 & E3); [split; [done|]; split; [done|by apply zero_regs_ok]|].
  exists m1. split; [done|]. split; [done|]. intros m2 R1 R2 R3 R4.
  destruct (E3 ts m2 R1) as [F1 F2]; [apply R2| |].
  { apply (words_frame _ (mm m1)); [|done]. intros x Hx. rewrite user_frame_length in Hx by done. apply R3. unfold sizeof_tf. lia. }
  split; [done|]. exists (resume (init_user (sys m2) (mm m2)) m2). split; [exact F2|]. split; [done|]. split; [done|].
  destruct (initcode_call next k argv_a init_a m2) as (m4 & G1 & G2 & (G3 & G4 & G5) & G6 & G7); try done.
  replace (k + KSTACKSIZE - sizeof_tf) with tf in G3, G4, G5 by (unfold KSTACKSIZE, sizeof_tf; lia).
  exists m4. rewrite G4, G5. by split_and!.
Qed.
End Call.

Lemma usys_call_witness : exists m1, call_kernel 0x80105000 0x80106000 0x80105020 (SYSCALL "getpid") 0x125 demo_user = Some m1 /\ eip m1 = 0x80106000.
Proof.
  destruct (@usys_call demo_vectors 0x80105000 0x80106000 0x80105020 demo_ts demo_vectors_ok ltac:(done) ltac:(done)
    unit toy_services RoundRobin 0x80108000 0 (fun _ _ => 0) (fun _ => mret SNever) "getpid" 0x125 demo_user) as (m1 & E & E1 & _).
  - exact demo_user_ready.
  - done.
  - done.
  - by apply (bool_decide_unpack _).
  - done.
  - exact (ex_intro _ m1 (conj E E1)).
Defined.

(** A scheduler about to run the first process. *)
Definition demo_tf : Z := 0x80400000 + KSTACKSIZE - sizeof_tf.
Definition demo_start : ram := userinit_frame demo_tf (alloc_stack 0x80108000 0x80105030 0x80400000 (fun _ => 0)).2.
Definition demo_sched : mach := demo_mach 0x80500000 (store_words 0x80500000 [0x80109000; 0x80600000; demo_tf - 24] demo_start).

Lemma first_process_witness : exists m1, run swtch demo_sched = Some m1 /\ eip m1 = 0x80108000.
Proof.
  destruct (@first_process demo_vectors 0x80105000 0x80106000 0x80105020 demo_ts demo_vectors_ok ltac:(done) ltac:(done) unit toy_services RoundRobin 0 (fun _ _ => 0) (fun _ => mret SNever)
    0x80108000 0x80105030 0x80400000 (fun _ => 0) demo_sched 0x80109000 0x80600000 19 36 28) as (m1 & E & E1 & _).
  - done.
  - done.
  - done.
  - done.
  - done.
  - done.
  - assert (X86.esp demo_sched = 0x80500000) as Es by reflexivity. split; rewrite ?Es.
    + split; rewrite ?Es; [by apply demo_regs_ok|vm_compute; intuition congruence..].
    + done.
    + vm_compute. intuition congruence.
    + done.
  - intros x Hx. unfold demo_sched, demo_mach, store_words. cbn [mm zip seq length foldr fst snd]. change (0x80400000 + KSTACKSIZE - sizeof_tf) with demo_tf in *.
    assert (demo_tf = 0x80400FB4) as Et by reflexivity. unfold sizeof_tf in Hx. rewrite !poke32_out by lia. reflexivity.
  - exact (ex_intro _ m1 (conj E E1)).
Defined.
