(* ===== verification/Start.v ===== *)
(** * Starting processors (bootasm.S, entry.S, entryother.S, entrypgdir and
      startothers of main.c)

    A processor from real mode to C: the boot sector's switch to protected mode,
    the kernel's first page directory, and the code at 0x7000 by which the other
    processors follow, with the words startothers leaves for it.  The machine of
    X86 has here its control registers and the segment bases that loading a
    selector caches, and its memory is the physical one, behind the page directory
    once paging is on. *)

From S2P Require Import Prelude Block MemFuns VmDefs X86 Apic.

(** ** The machine *)

Definition CR0_PE : Z := 0x1.
Definition CR0_WP : Z := 0x10000.
Definition CR0_PG : Z := 0x80000000.
Definition CR4_PSE : Z := 0x10.
Definition PTE_PS : Z := 0x80.

(** [kbc] is what port 0x64 will read, [outs] what was written to ports, oldest
    first. *)
Record bmach := BMach { core : mach; cr0 : Z; cr4 : Z; ds_base : Z; ss_base : Z; cs_base : Z; kbc : list Z; outs : list (Z * Z) }.

Definition set_core (f : mach -> mach) (b : bmach) : bmach := BMach (f (core b)) (cr0 b) (cr4 b) (ds_base b) (ss_base b) (cs_base b) (kbc b) (outs b).
Definition pmem_of (b : bmach) : ram := mm (core b).
Definition paging (b : bmach) : bool := negb (Z.land (cr0 b) CR0_PG =? 0).
Definition protected (b : bmach) : bool := negb (Z.land (cr0 b) CR0_PE =? 0).

(** The physical address of a linear one, through the two levels of the page tables;
    with the page size extension an entry of the directory may map 4MB. *)
Definition translate (b : bmach) (va : Z) : option Z :=
  if negb (paging b) then Some va
  else
    let pde := mem32 (pmem_of b) (Z.land (X86.cr3 (sys (core b))) 0xFFFFF000 + 4 * (va / 2 ^ 22)) in
    if Z.land pde PTE_P =? 0 then None
    else if negb (Z.land pde PTE_PS =? 0) && negb (Z.land (cr4 b) CR4_PSE =? 0) then Some (Z.land pde 0xFFC00000 + va mod 2 ^ 22)
    else
      let pte := mem32 (pmem_of b) (Z.land pde 0xFFFFF000 + 4 * (va / 2 ^ 12 mod 2 ^ 10)) in
      if Z.land pte PTE_P =? 0 then None else Some (Z.land pte 0xFFFFF000 + va mod 2 ^ 12).

(** ** Instructions *)

Inductive seg := SDS | SES | SFS | SGS | SSS.
Inductive binstr :=
| Ins (i : instr)                   (** one of the instructions of X86 *)
| Cli
| XorAx                             (** xorw %ax, %ax *)
| MovAx (s : seg)                   (** movw %ax, %s *)
| Wait64                            (** inb $0x64, %al; testb $2, %al; jnz *)
| MovAl (v : Z) | OutAl (port : Z)
| Lgdt (a : Z)
| RdCr0 | WrCr0 | RdCr4 | WrCr4 | WrCr3 | OrEax (v : Z)
| Ljmp (sel off : Z)
| LoadAbs (a : Z) (dst : reg)       (** movl (a), %dst *)
| CallRel (a ret : Z) | CallAbs (a ret : Z) | JmpEax.

(** The wait for the keyboard controller: it reads until bit 1 is clear. *)
Fixpoint wait64 (l : list Z) : option (Z * list Z) :=
  match l with [] => None | v :: l' => if Z.land v 2 =? 0 then Some (v, l') else wait64 l' end.

Definition set_eax_low (w v : Z) (m : mach) : mach := set_reg EAX (reg_of EAX m - reg_of EAX m mod 2 ^ w + v mod 2 ^ w) m.

(** lgdt: the limit, the base, and the descriptors as the processor finds them. *)
Definition mem64 (m : ram) (a : Z) : Z := le_val (mem_bytes m a 8).
Definition read_gdt (m : ram) (desc : Z) : list Z :=
  let base := mem32 m (desc + 2) in
  (fun i => mem64 m (base + 8 * Z.of_nat i)) <$> seq 0 (Z.to_nat ((mem16 m desc + 1) / 8)).
Definition set_gdt (g : list Z) (m : mach) : mach :=
  Mach (rg m) (sg m) (cs m) (ss m) (eip m) (eflags m) (Sysregs g (idt (sys m)) (tr (sys m)) (X86.cr3 (sys m))) (mm m).
Definition set_cr3 (v : Z) (m : mach) : mach :=
  Mach (rg m) (sg m) (cs m) (ss m) (eip m) (eflags m) (Sysregs (gdt (sys m)) (idt (sys m)) (tr (sys m)) v) (mm m).
Definition set_ss (v : Z) (m : mach) : mach := Mach (rg m) (sg m) (cs m) v (eip m) (eflags m) (sys m) (mm m).
Definition set_cs_ip (c ip : Z) (m : mach) : mach := Mach (rg m) (sg m) c (ss m) ip (eflags m) (sys m) (mm m).
Definition clear_if (m : mach) : mach := Mach (rg m) (sg m) (cs m) (ss m) (eip m) (Z.ldiff (eflags m) FL_IF) (sys m) (mm m).

(** movw to a segment register: in real mode 16 times the selector, in protected mode
    the base of the descriptor.  The stack segment has to be writable data at the
    current level. *)
Definition base_of (b : bmach) (sel : Z) : Z :=
  if protected b then match descriptor (core b) sel with Some d => d_base d | None => 0 end else 16 * sel.
Definition load_ss (sel : Z) (m : mach) : option mach :=
  d ← descriptor m sel;
  if negb (sel / 4 =? 0) && (d_s d =? 1) && (d_p d =? 1) && (d_type d / 2 mod 2 =? 1) && (d_type d <? 8) && (d_dpl d =? cpl m) && (sel mod 4 =? cpl m) then Some (set_ss sel m) else None.
Definition mov_seg (s : seg) (b : bmach) : option bmach :=
  let sel := reg_of EAX (core b) mod 2 ^ 16 in
  let upd m ds sb := BMach m (cr0 b) (cr4 b) ds sb (cs_base b) (kbc b) (outs b) in
  let data q := if protected b then load_seg q sel (core b) else Some (set_sg (sset q sel) (core b)) in
  match s with
  | SDS => m ← data DS; Some (upd m (base_of b sel) (ss_base b))
  | SES => m ← data ES; Some (upd m (ds_base b) (ss_base b))
  | SFS => m ← data FS; Some (upd m (ds_base b) (ss_base b))
  | SGS => m ← data GS; Some (upd m (ds_base b) (ss_base b))
  | SSS => m ← (if protected b then load_ss sel (core b) else Some (set_ss sel (core b))); Some (upd m (ds_base b) (base_of b sel))
  end.

(** The jump that loads the code segment. *)
Definition ljmp (sel off : Z) (b : bmach) : option bmach :=
  if protected b then
    d ← descriptor (core b) sel;
    if (d_s d =? 1) && (d_p d =? 1) && (8 <=? d_type d) && (d_dpl d =? cpl (core b)) && (sel mod 4 <=? cpl (core b))
    then Some (BMach (set_cs_ip (sel - sel mod 4 + cpl (core b)) off (core b)) (cr0 b) (cr4 b) (ds_base b) (ss_base b) (d_base d) (kbc b) (outs b)) else None
  else Some (BMach (set_cs_ip sel off (core b)) (cr0 b) (cr4 b) (ds_base b) (ss_base b) (16 * sel) (kbc b) (outs b)).

(** A word from the data segment, a word onto the stack; [None] is a page fault. *)
Definition load_abs (b : bmach) (a : Z) : option Z := pa ← translate b (ds_base b + a); Some (mem32 (pmem_of b) pa).
Definition bpush (v : Z) (b : bmach) : option bmach :=
  let a := u32 (esp (core b) - 4) in
  pa ← translate b (ss_base b + a); Some (set_core (fun m => set_mm (fun x => poke32 x pa v) (set_reg ESP a m)) b).

Definition set_crs (c0 c4 : Z) (b : bmach) : bmach := BMach (core b) c0 c4 (ds_base b) (ss_base b) (cs_base b) (kbc b) (outs b).
Definition bstep (i : binstr) (b : bmach) : option bmach :=
  let eax := reg_of EAX (core b) in
  match i with
  | Ins i => m ← step i (core b); Some (set_core (fun _ => m) b)
  | Cli => Some (set_core clear_if b)
  | XorAx => Some (set_core (set_eax_low 16 0) b)
  | MovAx s => mov_seg s b
  | Wait64 => r ← wait64 (kbc b); Some (BMach (set_eax_low 8 (fst r) (core b)) (cr0 b) (cr4 b) (ds_base b) (ss_base b) (cs_base b) (snd r) (outs b))
  | MovAl v => Some (set_core (set_eax_low 8 v) b)
  | OutAl port => Some (BMach (core b) (cr0 b) (cr4 b) (ds_base b) (ss_base b) (cs_base b) (kbc b) (outs b ++ [(port, eax mod 2 ^ 8)]))
  | Lgdt a => pa ← translate b (ds_base b + a); Some (set_core (set_gdt (read_gdt (pmem_of b) pa)) b)
  | RdCr0 => Some (set_core (set_reg EAX (cr0 b)) b)
  | WrCr0 => Some (set_crs eax (cr4 b) b)
  | RdCr4 => Some (set_core (set_reg EAX (cr4 b)) b)
  | WrCr4 => Some (set_crs (cr0 b) eax b)
  | WrCr3 => Some (set_core (set_cr3 eax) b)
  | OrEax v => Some (set_core (set_reg EAX (Z.lor eax v)) b)
  | Ljmp sel off => ljmp sel off b
  | LoadAbs a dst => v ← load_abs b a; Some (set_core (set_reg dst v) b)
  | CallRel a ret => b' ← bpush ret b; Some (set_core (set_eip a) b')
  | CallAbs a ret => v ← load_abs b a; b' ← bpush ret b; Some (set_core (set_eip v) b')
  | JmpEax => Some (set_core (set_eip eax) b)
  end.

Fixpoint brun (code : list binstr) (b : bmach) : option bmach :=
  match code with [] => Some b | i :: code' => b' ← bstep i b; brun code' b' end.

(** ** The code *)

(** The descriptors of both files, and the word and address lgdt reads. *)
Definition boot_gdt : list Z := SEG_NULLASM ++ SEG_ASM (Z.lor STA_X STA_R) 0 0xffffffff ++ SEG_ASM STA_W 0 0xffffffff.
Definition boot_gdtdesc (gdt_a : Z) : list Z := le_bytes 2 (Z.of_nat (length boot_gdt) - 1) ++ le_bytes 4 gdt_a.

(** bootasm.S; the labels are arguments. *)
Definition bootasm16 (gdtdesc start32 : Z) : list binstr :=
  [Cli; XorAx; MovAx SDS; MovAx SES; MovAx SSS;
   Wait64; MovAl 0xd1; OutAl 0x64; Wait64; MovAl 0xdf; OutAl 0x60;
   Lgdt gdtdesc; RdCr0; OrEax CR0_PE; WrCr0; Ljmp (selector SEG_KCODE 0) start32].
Definition load_segs32 : list binstr :=
  [Ins (MovW (selector SEG_KDATA 0) EAX); MovAx SDS; MovAx SES; MovAx SSS; Ins (MovW 0 EAX); MovAx SFS; MovAx SGS].
Definition bootasm32 (start bootmain ret : Z) : list binstr := load_segs32 ++ [Ins (MovI start ESP); CallRel bootmain ret].

(** entry.S; [pgdir] is the physical address of entrypgdir. *)
Definition entry (pgdir stack main : Z) : list binstr :=
  [RdCr4; OrEax CR4_PSE; WrCr4; Ins (MovI pgdir EAX); WrCr3; RdCr0; OrEax (Z.lor CR0_PG CR0_WP); WrCr0;
   Ins (MovI (stack + 4096) ESP); Ins (MovI main EAX); JmpEax].

(** entryother.S. *)
Definition entryother16 (gdtdesc start32 : Z) : list binstr :=
  [Cli; XorAx; MovAx SDS; MovAx SES; MovAx SSS; Lgdt gdtdesc; RdCr0; OrEax CR0_PE; WrCr0; Ljmp (selector SEG_KCODE 0) start32].
Definition entryother32 (start ret : Z) : list binstr :=
  load_segs32 ++
  [RdCr4; OrEax CR4_PSE; WrCr4; LoadAbs (start - 12) EAX; WrCr3; RdCr0; OrEax (Z.lor (Z.lor CR0_PE CR0_PG) CR0_WP); WrCr0;
   LoadAbs (start - 4) ESP; CallAbs (start - 8) ret].

(** main.c: the first page directory. *)
Definition entrypgdir : list Z :=
  let e := Z.lor (Z.lor (Z.lor 0 PTE_P) PTE_W) PTE_PS in
  <[0%nat := e]> (<[Z.to_nat (Z.shiftr KERNBASE 22) := e]> (replicate NPDENTRIES 0)).

(** ** Running them *)

Lemma brun_app c1 c2 b : brun (c1 ++ c2) b = brun c1 b ≫= brun c2.
Proof. revert b. induction c1 as [|i c1 IH]; intros b; cbn; [done|]. destruct (bstep i b) as [b'|]; cbn; [apply IH|done]. Qed.

(** The bytes of the descriptors are the segments of C. *)
Lemma boot_gdt_words : (fun i => le_val (take 8 (drop (8 * i) boot_gdt))) <$> seq 0 3 =
  [0; seg_bits (SEG (Z.lor STA_X STA_R) 0 0xffffffff 0); seg_bits (SEG STA_W 0 0xffffffff 0)].
Proof. reflexivity. Qed.

Lemma mem_bytes_lookup m a n j : (j < n)%nat -> mem_bytes m a n !! j = Some (m (a + Z.of_nat j)).
Proof. intros Hj. unfold mem_bytes. by rewrite list_lookup_fmap, lookup_seq_lt. Qed.
Lemma mem_bytes_sub m a l k n : mem_bytes m a (length l) = l -> (k + n <= length l)%nat -> mem_bytes m (a + Z.of_nat k) n = take n (drop k l).
Proof.
  intros H Hk. apply list_eq. intros j. destruct (decide (j < n)%nat) as [Hj|Hj].
  - rewrite mem_bytes_lookup, lookup_take_lt, lookup_drop by done. rewrite <-H, mem_bytes_lookup by lia. do 2 f_equal. lia.
  - rewrite !lookup_ge_None_2; [done|rewrite length_take; lia|unfold mem_bytes; rewrite length_fmap, length_seq; lia].
Qed.

(** What the code of either file needs in memory: its descriptors, and where they are. *)
Record gdt_at (m : ram) (gdt_a gdtdesc : Z) : Prop := {
  ga_gdt : mem_bytes m gdt_a 24 = boot_gdt;
  ga_desc : mem_bytes m gdtdesc 6 = boot_gdtdesc gdt_a;
  ga_range : 0 <= gdt_a < 2 ^ 32
}.

Definition flat_code : Z := seg_bits (SEG (Z.lor STA_X STA_R) 0 0xffffffff 0).
Definition flat_data : Z := seg_bits (SEG STA_W 0 0xffffffff 0).

Lemma read_boot_gdt m gdt_a gdtdesc : gdt_at m gdt_a gdtdesc -> read_gdt m gdtdesc = [0; flat_code; flat_data].
Proof.
  intros [Hg Hd Hr]. unfold read_gdt.
  assert (mem16 m gdtdesc = 23) as ->.
  { unfold mem16. replace gdtdesc with (gdtdesc + Z.of_nat 0) by lia. rewrite (mem_bytes_sub m gdtdesc (boot_gdtdesc gdt_a) 0 2 Hd) by (cbn; lia). reflexivity. }
  assert (mem32 m (gdtdesc + 2) = gdt_a) as ->.
  { unfold mem32. change (gdtdesc + 2) with (gdtdesc + Z.of_nat 2). rewrite (mem_bytes_sub m gdtdesc (boot_gdtdesc gdt_a) 2 4 Hd) by (cbn; lia). unfold boot_gdtdesc. rewrite (drop_app_length' (le_bytes 2 _)) by done.
    rewrite take_ge by (by rewrite length_le_bytes). by apply le_val_bytes. }
  etransitivity; [|exact boot_gdt_words]. change (Z.to_nat ((23 + 1) / 8)) with 3%nat. apply list_fmap_ext. intros k i Hi. apply lookup_seq in Hi as [-> Hi]. cbn [Nat.add].
  unfold mem64. f_equal. rewrite <-(mem_bytes_sub m gdt_a boot_gdt (8 * k) 8) by (done || cbn; lia). f_equal. lia.
Qed.

Lemma flat_fields : (d_s flat_code = 1 /\ d_p flat_code = 1 /\ d_type flat_code = 10 /\ d_dpl flat_code = 0 /\ d_base flat_code = 0 /\ d_limit flat_code = 2 ^ 32 - 1) /\
  (d_s flat_data = 1 /\ d_p flat_data = 1 /\ d_type flat_data = 2 /\ d_dpl flat_data = 0 /\ d_base flat_data = 0 /\ d_limit flat_data = 2 ^ 32 - 1).
Proof. vm_compute. done. Qed.

(** Real mode, as the BIOS or a startup interrupt leaves it. *)
Record real_mode (b : bmach) : Prop := {
  rm_pe : Z.land (cr0 b) CR0_PE = 0;
  rm_pg : Z.land (cr0 b) CR0_PG = 0;
  rm_cs : cs (core b) mod 4 = 0
}.

(** Protected mode with flat segments, interrupts off and paging off. *)
Record flat32 (b : bmach) : Prop := {
  fl_pe : protected b = true;
  fl_pg : paging b = false;
  fl_cs : cs (core b) = selector SEG_KCODE 0;
  fl_gdt : gdt (sys (core b)) = [0; flat_code; flat_data];
  fl_base : cs_base b = 0 /\ ds_base b = 0;
  fl_if : Z.testbit (eflags (core b)) 9 = false
}.

Lemma low_clear w e : 0 <= w -> (e - e mod 2 ^ w + 0) mod 2 ^ w = 0.
Proof. intros Hw. rewrite Z.add_0_r, Zminus_mod_idemp_r, Z.sub_diag. by apply Zmod_0_l. Qed.

Lemma if_clear fl : Z.testbit (Z.ldiff fl FL_IF) 9 = false.
Proof. rewrite Z.ldiff_spec. change (Z.testbit FL_IF 9) with true. apply andb_false_r. Qed.

(** The first instructions of both files. *)
Definition zero_segs : list binstr := [Cli; XorAx; MovAx SDS; MovAx SES; MovAx SSS].
Lemma zero_segs_spec b : real_mode b -> exists m, brun zero_segs b = Some (BMach m (cr0 b) (cr4 b) 0 0 (cs_base b) (kbc b) (outs b)) /\
  cs m = cs (core b) /\ mm m = mm (core b) /\ Z.testbit (eflags m) 9 = false.
Proof.
  intros [Hpe _ _]. destruct b as [m c0 c4 db sb cb kb os]. cbn [cr0 cr4 core cs_base kbc outs] in *.
  unfold zero_segs. cbn [brun bstep mbind option_bind]. unfold mov_seg, base_of, protected. cbn [set_core core cr0 cr4 ds_base ss_base cs_base kbc outs]. rewrite Hpe. cbn [Z.eqb negb mbind option_bind].
  cbn [core set_core cr0 cr4 ds_base ss_base cs_base kbc outs]. rewrite Hpe. cbn [Z.eqb negb mbind option_bind].
  cbn [core set_core cr0 cr4 ds_base ss_base cs_base kbc outs]. rewrite Hpe. cbn [Z.eqb negb mbind option_bind].
  destruct m as [[ax cx dx bx sp bp si di] [d e f g] c s ip fl y mem]. unfold set_eax_low, reg_of, set_reg, set_rg, set_sg, set_ss, clear_if. cbn [rg rget rset sg cs ss eip eflags sys mm sset r_eax].
  change (0 mod 2 ^ 16) with 0. rewrite !(low_clear 16) by lia. eexists. split; [reflexivity|]. cbn [cs mm eflags]. split_and!; [done..|]. apply if_clear.
Qed.

Lemma paging_false b : Z.land (cr0 b) CR0_PG = 0 -> paging b = false.
Proof. unfold paging. by intros ->. Qed.
Lemma set_pe c : Z.land (Z.lor c CR0_PE) CR0_PE = CR0_PE.
Proof. rewrite Z.land_lor_distr_l. change (Z.land CR0_PE CR0_PE) with (Z.ones 1). change CR0_PE with (Z.ones 1). rewrite Z.land_ones by lia.
  pose proof (Z.mod_pos_bound c (2 ^ 1) ltac:(lia)). assert (c mod 2 ^ 1 = 0 \/ c mod 2 ^ 1 = 1) as [->| ->] by lia; reflexivity. Qed.
Lemma keep_pg c : Z.land c CR0_PG = 0 -> Z.land (Z.lor c CR0_PE) CR0_PG = 0.
Proof. intros H. rewrite Z.land_lor_distr_l, H. reflexivity. Qed.

(** From lgdt to the long jump. *)
Definition to_protected (gdtdesc start32 : Z) : list binstr := [Lgdt gdtdesc; RdCr0; OrEax CR0_PE; WrCr0; Ljmp (selector SEG_KCODE 0) start32].
Lemma reg_set r v m : reg_of r (set_reg r v m) = v.
Proof. destruct m as [[]]. by destruct r. Qed.

Lemma ljmp_flat b off : protected b = true -> gdt (sys (core b)) = [0; flat_code; flat_data] -> cs (core b) mod 4 = 0 ->
  ljmp (selector SEG_KCODE 0) off b = Some (BMach (set_cs_ip (selector SEG_KCODE 0) off (core b)) (cr0 b) (cr4 b) (ds_base b) (ss_base b) 0 (kbc b) (outs b)).
Proof.
  intros Hp Hg Hc. unfold ljmp, descriptor, cpl. rewrite Hp, Hg, Hc. change (bits (selector SEG_KCODE 0) 2 1 =? 0) with true. change (Z.to_nat (selector SEG_KCODE 0 / 8)) with 1%nat.
  cbn [lookup list_lookup mbind option_bind]. destruct flat_fields as [(F1 & F2 & F3 & F4 & F5 & _) _]. rewrite F1, F2, F3, F4, F5. reflexivity.
Qed.

Lemma to_protected_spec m c0 c4 sb cb kb os gdt_a gdtdesc start32 : Z.land c0 CR0_PG = 0 -> cs m mod 4 = 0 -> gdt_at (mm m) gdt_a gdtdesc -> Z.testbit (eflags m) 9 = false ->
  exists m', brun (to_protected gdtdesc start32) (BMach m c0 c4 0 sb cb kb os) = Some (BMach m' (Z.lor c0 CR0_PE) c4 0 sb 0 kb os) /\
  mm m' = mm m /\ eip m' = start32 /\ flat32 (BMach m' (Z.lor c0 CR0_PE) c4 0 sb 0 kb os).
Proof.
  intros Hpg Hcs Hg Hif. set (m1 := set_reg EAX (Z.lor c0 CR0_PE) (set_reg EAX c0 (set_gdt [0; flat_code; flat_data] m))).
  set (b1 := BMach m1 (Z.lor c0 CR0_PE) c4 0 sb cb kb os).
  assert (protected b1 = true) as Hp by (unfold protected; cbn [cr0 b1]; by rewrite set_pe).
  assert (brun [Lgdt gdtdesc; RdCr0; OrEax CR0_PE; WrCr0] (BMach m c0 c4 0 sb cb kb os) = Some b1) as E.
  { cbn [brun bstep]. unfold translate. rewrite (paging_false (BMach m c0 c4 0 sb cb kb os) Hpg). cbn [negb mbind option_bind ds_base]. rewrite Z.add_0_l.
    unfold pmem_of. cbn [core]. rewrite (read_boot_gdt _ _ _ Hg). cbn [mbind option_bind set_core core cr0 set_crs]. rewrite !reg_set. done. }
  change (to_protected gdtdesc start32) with ([Lgdt gdtdesc; RdCr0; OrEax CR0_PE; WrCr0] ++ [Ljmp (selector SEG_KCODE 0) start32]).
  rewrite brun_app, E. cbn [mbind option_bind brun bstep]. rewrite ljmp_flat by done. cbn [mbind option_bind].
  eexists. split; [reflexivity|]. split; [done|]. split; [done|]. split; try done. apply paging_false. by apply keep_pg.
Qed.

(** The segment registers of protected mode. *)
Lemma load_flat q m : gdt (sys m) = [0; flat_code; flat_data] -> cs m = selector SEG_KCODE 0 -> load_seg q (selector SEG_KDATA 0) m = Some (set_sg (sset q (selector SEG_KDATA 0)) m).
Proof.
  intros Hg Hc. unfold load_seg, descriptor, cpl. rewrite Hg, Hc. change (selector SEG_KDATA 0 / 4 =? 0) with false. change (bits (selector SEG_KDATA 0) 2 1 =? 0) with true.
  change (Z.to_nat (selector SEG_KDATA 0 / 8)) with 2%nat. cbn [lookup list_lookup mbind option_bind]. destruct flat_fields as [_ (F1 & F2 & F3 & F4 & F5 & _)]. rewrite F1, F2, F4. reflexivity.
Qed.
Lemma load_flat_ss m : gdt (sys m) = [0; flat_code; flat_data] -> cs m = selector SEG_KCODE 0 -> load_ss (selector SEG_KDATA 0) m = Some (set_ss (selector SEG_KDATA 0) m).
Proof.
  intros Hg Hc. unfold load_ss, descriptor, cpl. rewrite Hg, Hc. change (bits (selector SEG_KDATA 0) 2 1 =? 0) with true.
  change (Z.to_nat (selector SEG_KDATA 0 / 8)) with 2%nat. cbn [lookup list_lookup mbind option_bind]. destruct flat_fields as [_ (F1 & F2 & F3 & F4 & F5 & _)]. rewrite F1, F2, F3, F4. reflexivity.
Qed.
Lemma base_flat b : flat32 b -> base_of b (selector SEG_KDATA 0) = 0.
Proof.
  intros Hb. unfold base_of, descriptor. rewrite (fl_pe _ Hb), (fl_gdt _ Hb). change (bits (selector SEG_KDATA 0) 2 1 =? 0) with true.
  change (Z.to_nat (selector SEG_KDATA 0 / 8)) with 2%nat. cbn [lookup list_lookup]. apply flat_fields.
Qed.

Lemma low_set e v : 0 <= v < 2 ^ 16 -> (e - e mod 2 ^ 16 + v) mod 2 ^ 16 = v.
Proof. intros Hv. rewrite <-Z.add_mod_idemp_l, Zminus_mod_idemp_r, Z.sub_diag by lia. rewrite Zmod_0_l. by apply Z.mod_small. Qed.

Lemma flat32_core m m' c0 c4 sb sb' kb os : flat32 (BMach m c0 c4 0 sb 0 kb os) -> cs m' = cs m -> sys m' = sys m -> eflags m' = eflags m ->
  flat32 (BMach m' c0 c4 0 sb' 0 kb os).
Proof. intros [A B C D E F] H1 H2 H3. split; cbn [core] in *; rewrite ?H1, ?H2, ?H3; done. Qed.

Lemma mov_data s q m c0 c4 sb kb os : flat32 (BMach m c0 c4 0 sb 0 kb os) -> (s, q) = (SDS, DS) \/ (s, q) = (SES, ES) -> reg_of EAX m mod 2 ^ 16 = selector SEG_KDATA 0 ->
  mov_seg s (BMach m c0 c4 0 sb 0 kb os) = Some (BMach (set_sg (sset q (selector SEG_KDATA 0)) m) c0 c4 0 sb 0 kb os).
Proof.
  intros Hf Hs He. unfold mov_seg. cbn [core]. rewrite He, (fl_pe _ Hf).
  destruct Hs as [[= -> ->]|[= -> ->]]; rewrite load_flat by apply Hf; cbn [mbind option_bind cr0 cr4 ss_base ds_base cs_base kbc outs]; [by rewrite base_flat|done].
Qed.
Lemma mov_stack m c0 c4 sb kb os : flat32 (BMach m c0 c4 0 sb 0 kb os) -> reg_of EAX m mod 2 ^ 16 = selector SEG_KDATA 0 ->
  mov_seg SSS (BMach m c0 c4 0 sb 0 kb os) = Some (BMach (set_ss (selector SEG_KDATA 0) m) c0 c4 0 0 0 kb os).
Proof.
  intros Hf He. unfold mov_seg. cbn [core]. rewrite He, (fl_pe _ Hf), load_flat_ss by apply Hf. cbn [mbind option_bind cr0 cr4 ss_base ds_base cs_base kbc outs]. by rewrite base_flat.
Qed.
Lemma mov_null s q m c0 c4 sb kb os : flat32 (BMach m c0 c4 0 sb 0 kb os) -> (s, q) = (SFS, FS) \/ (s, q) = (SGS, GS) -> reg_of EAX m mod 2 ^ 16 = 0 ->
  mov_seg s (BMach m c0 c4 0 sb 0 kb os) = Some (BMach (set_sg (sset q 0) m) c0 c4 0 sb 0 kb os).
Proof. intros Hf Hs He. unfold mov_seg. cbn [core]. rewrite He, (fl_pe _ Hf). by destruct Hs as [[= -> ->]|[= -> ->]]. Qed.

Lemma step_movw v m : 0 <= v < 2 ^ 16 -> exists e, step (MovW v EAX) m = Some (set_reg EAX e m) /\ reg_of EAX (set_reg EAX e m) mod 2 ^ 16 = v.
Proof. intros Hv. eexists. split; [reflexivity|]. rewrite reg_set, (Z.mod_small v) by done. by apply low_set. Qed.

Lemma load_segs32_spec m c0 c4 sb kb os : flat32 (BMach m c0 c4 0 sb 0 kb os) -> exists m', brun load_segs32 (BMach m c0 c4 0 sb 0 kb os) = Some (BMach m' c0 c4 0 0 0 kb os) /\
  mm m' = mm m /\ flat32 (BMach m' c0 c4 0 0 0 kb os) /\ sg m' = Dsegs (selector SEG_KDATA 0) (selector SEG_KDATA 0) 0 0 /\ ss m' = selector SEG_KDATA 0.
Proof.
  intros Hf. destruct (step_movw (selector SEG_KDATA 0) m) as (e & E & He); [by unfold selector|]. unfold load_segs32. cbn [brun bstep core]. rewrite E. cbn [mbind option_bind].
  change (set_core (fun _ => set_reg EAX e m) (BMach m c0 c4 0 sb 0 kb os)) with (BMach (set_reg EAX e m) c0 c4 0 sb 0 kb os). set (m1 := set_reg EAX e m) in *.
  assert (flat32 (BMach m1 c0 c4 0 sb 0 kb os)) as F1 by (by apply (flat32_core m _ _ _ sb)).
  rewrite (mov_data SDS DS) by (done || by left). cbn [mbind option_bind]. set (m2 := set_sg (sset DS (selector SEG_KDATA 0)) m1).
  assert (flat32 (BMach m2 c0 c4 0 sb 0 kb os)) as F2 by (by apply (flat32_core m _ _ _ sb)).
  rewrite (mov_data SES ES) by (done || by right). cbn [mbind option_bind]. set (m3 := set_sg (sset ES (selector SEG_KDATA 0)) m2).
  assert (flat32 (BMach m3 c0 c4 0 sb 0 kb os)) as F3 by (by apply (flat32_core m _ _ _ sb)).
  rewrite mov_stack by done. cbn [mbind option_bind]. set (m4 := set_ss (selector SEG_KDATA 0) m3).
  destruct (step_movw 0 m4) as (e' & E' & He'); [lia|]. cbn [core]. rewrite E'. cbn [mbind option_bind].
  change (set_core (fun _ => set_reg EAX e' m4) (BMach m4 c0 c4 0 0 0 kb os)) with (BMach (set_reg EAX e' m4) c0 c4 0 0 0 kb os). set (m5 := set_reg EAX e' m4) in *.
  assert (flat32 (BMach m5 c0 c4 0 0 0 kb os)) as F5 by (by apply (flat32_core m _ _ _ sb)).
  rewrite (mov_null SFS FS) by (done || by left). cbn [mbind option_bind]. set (m6 := set_sg (sset FS 0) m5).
  assert (flat32 (BMach m6 c0 c4 0 0 0 kb os)) as F6 by (by apply (flat32_core m _ _ _ sb)).
  rewrite (mov_null SGS GS) by (done || by right). cbn [mbind option_bind]. eexists. split; [reflexivity|]. split; [done|].
  split; [by apply (flat32_core m _ _ _ sb)|]. split; [|done]. subst m6 m5 m4 m3 m2 m1. by destruct (sg m) eqn:Es; cbn; rewrite Es.
Qed.

(** ** The boot sector *)

Definition busy (v : Z) : Prop := Z.land v 2 <> 0.
Lemma wait64_spec l v l' : Forall busy l -> ~ busy v -> wait64 (l ++ v :: l') = Some (v, l').
Proof.
  intros Hl Hv. induction Hl as [|w l Hw Hl IH]; cbn [app wait64].
  - by destruct (Z.eqb_spec (Z.land v 2) 0).
  - by destruct (Z.eqb_spec (Z.land w 2) 0).
Qed.

Definition seta20 : list binstr := [Wait64; MovAl 0xd1; OutAl 0x64; Wait64; MovAl 0xdf; OutAl 0x60].
Lemma low_byte v m : 0 <= v < 2 ^ 8 -> reg_of EAX (set_eax_low 8 v m) mod 2 ^ 8 = v.
Proof.
  intros Hv. unfold set_eax_low. rewrite reg_set, (Z.mod_small v), <-Z.add_mod_idemp_l, Zminus_mod_idemp_r, Z.sub_diag by lia. rewrite Zmod_0_l. by apply Z.mod_small.
Qed.
Lemma seta20_spec m c0 c4 db sb cb l1 v1 l2 v2 l os : Forall busy l1 -> ~ busy v1 -> Forall busy l2 -> ~ busy v2 ->
  exists m', brun seta20 (BMach m c0 c4 db sb cb (l1 ++ v1 :: l2 ++ v2 :: l) os) = Some (BMach m' c0 c4 db sb cb l (os ++ [(0x64, 0xd1); (0x60, 0xdf)])) /\
  (sg m', cs m', ss m', eflags m', sys m', mm m') = (sg m, cs m, ss m, eflags m, sys m, mm m).
Proof.
  intros H1 H2 H3 H4. unfold seta20. cbn [brun bstep kbc core set_core]. rewrite wait64_spec by done. cbn [mbind option_bind brun bstep kbc core set_core cr0 cr4 ds_base ss_base cs_base outs fst snd].
  rewrite wait64_spec by done. cbn [mbind option_bind core cr0 cr4 ds_base ss_base cs_base outs fst snd set_core kbc]. rewrite !low_byte by lia. rewrite <-app_assoc.
  eexists. split; [reflexivity|done].
Qed.

(** A push onto a flat stack, the page of which is mapped. *)
Definition pushed (a pa v : Z) (b : bmach) : bmach := set_core (fun m => set_mm (fun x => poke32 x pa v) (set_reg ESP a m)) b.
Lemma bpush_at v b pa : ss_base b = 0 -> 4 <= esp (core b) < 2 ^ 32 -> translate b (esp (core b) - 4) = Some pa ->
  bpush v b = Some (pushed (esp (core b) - 4) pa v b).
Proof. intros Hs He Ht. unfold bpush. rewrite u32_id, Hs, Z.add_0_l, Ht by (unfold is_u32; lia). done. Qed.
Lemma bpush_spec v m c0 c4 kb os : flat32 (BMach m c0 c4 0 0 0 kb os) -> 4 <= esp m < 2 ^ 32 ->
  bpush v (BMach m c0 c4 0 0 0 kb os) = Some (pushed (esp m - 4) (esp m - 4) v (BMach m c0 c4 0 0 0 kb os)).
Proof. intros Hf He. apply bpush_at; [done|done|]. unfold translate. by rewrite (fl_pg _ Hf). Qed.

(** The boot sector brings the processor from real mode to C.  Whatever the
    registers hold, once the keyboard controller is ready it gets the two commands
    that open address line 20, and bootmain is called with flat 4GB code and data
    segments at base 0, interrupts and paging off, the stack just under the boot
    sector, and the rest of memory as it was. *)
Theorem bootasm_calls_bootmain b gdt_a gdtdesc start32 start bootmain ret l1 v1 l2 v2 l
  (Hb : real_mode b) (Hg : gdt_at (pmem_of b) gdt_a gdtdesc) (Hkbc : kbc b = l1 ++ v1 :: l2 ++ v2 :: l)
  (H1 : Forall busy l1) (H2 : ~ busy v1) (H3 : Forall busy l2) (H4 : ~ busy v2) (Hs : 4 <= start < 2 ^ 32) (Hret : is_u32 ret) :
  exists b', brun (bootasm16 gdtdesc start32 ++ bootasm32 start bootmain ret) b = Some b' /\ flat32 b' /\ ss_base b' = 0 /\
    sg (core b') = Dsegs (selector SEG_KDATA 0) (selector SEG_KDATA 0) 0 0 /\ ss (core b') = selector SEG_KDATA 0 /\
    (d_base flat_code = 0 /\ d_limit flat_code = 2 ^ 32 - 1) /\ (d_base flat_data = 0 /\ d_limit flat_data = 2 ^ 32 - 1) /\
    eip (core b') = bootmain /\ esp (core b') = start - 4 /\ top (core b') = ret /\
    (forall x, x < start - 4 \/ start <= x -> pmem_of b' x = pmem_of b x) /\ outs b' = outs b ++ [(0x64, 0xd1); (0x60, 0xdf)].
Proof.
  change (bootasm16 gdtdesc start32 ++ bootasm32 start bootmain ret) with (zero_segs ++ seta20 ++ to_protected gdtdesc start32 ++ load_segs32 ++ [Ins (MovI start ESP); CallRel bootmain ret]).
  rewrite brun_app. destruct (zero_segs_spec b Hb) as (m1 & E1 & C1 & M1 & F1). rewrite E1, Hkbc. cbn [mbind option_bind].
  rewrite brun_app. destruct (seta20_spec m1 (cr0 b) (cr4 b) 0 0 (cs_base b) l1 v1 l2 v2 l (outs b)) as (m2 & E2 & [= _ C2 _ F2 _ M2]); try done. rewrite E2. cbn [mbind option_bind].
  rewrite brun_app. destruct (to_protected_spec m2 (cr0 b) (cr4 b) 0 (cs_base b) l (outs b ++ [(0x64, 0xd1); (0x60, 0xdf)]) gdt_a gdtdesc start32) as (m3 & E3 & M3 & _ & F3).
  { apply Hb. } { rewrite C2, C1. apply Hb. } { rewrite M2, M1. exact Hg. } { by rewrite F2. }
  rewrite E3. cbn [mbind option_bind]. rewrite brun_app. destruct (load_segs32_spec _ _ _ _ _ _ F3) as (m4 & E4 & M4 & F4 & S4 & T4). rewrite E4. cbn [mbind option_bind brun bstep step core].
  rewrite u32_id by (unfold is_u32; lia). set (m5 := set_reg ESP start m4). assert (esp m5 = start) as E5 by apply reg_set.
  change (set_core (fun _ => m5) (BMach m4 ?c0 ?c4 0 0 0 ?kb ?os)) with (BMach m5 c0 c4 0 0 0 kb os). assert (flat32 (BMach m5 (Z.lor (cr0 b) CR0_PE) (cr4 b) 0 0 0 l (outs b ++ [(0x64, 0xd1); (0x60, 0xdf)]))) as F5 by (by apply (flat32_core m4 _ _ _ 0)).
  cbn [mbind option_bind]. rewrite bpush_spec by (done || rewrite E5; lia). rewrite E5. cbn [mbind option_bind].
  eexists. split; [reflexivity|]. unfold set_core. cbn [core cr0 cr4 ds_base ss_base cs_base kbc outs]. split_and!; try done; try apply flat_fields.
  - by apply (flat32_core m4 _ _ _ 0).
  - apply (reg_set ESP (start - 4) m5).
  - change (mem32 (poke32 (mm m4) (start - 4) ret) (esp (set_reg ESP (start - 4) m5)) = ret). unfold esp. rewrite reg_set. by apply mem32_same.
  - intros x Hx. change (poke32 (mm m4) (start - 4) ret x = pmem_of b x). rewrite poke32_out by lia. unfold pmem_of. by rewrite M4, M3, M2, M1.
Qed.

(** ** The first page directory *)

Definition FOURMB : Z := 2 ^ 22.
(** entrypgdir at [pgdir], with 4MB pages on. *)
Record entry_paging (b : bmach) (pgdir : Z) : Prop := {
  ep_pg : paging b = true;
  ep_pse : Z.land (cr4 b) CR4_PSE <> 0;
  ep_cr3 : X86.cr3 (sys (core b)) = pgdir;
  ep_align : Z.land pgdir 0xFFFFF000 = pgdir;
  ep_words : words_at (pmem_of b) pgdir entrypgdir
}.

Lemma entrypgdir_lookup i : (i < 1024)%nat -> entrypgdir !! i = Some (if decide (i = 0 \/ i = 512)%nat then 0x83 else 0).
Proof.
  intros Hi. unfold entrypgdir. change (Z.to_nat (Z.shiftr KERNBASE 22)) with 512%nat. change (Z.lor (Z.lor (Z.lor 0 PTE_P) PTE_W) PTE_PS) with 0x83.
  destruct (decide (i = 0)%nat) as [->|H0]; [done|]. rewrite list_lookup_insert_ne by done.
  destruct (decide (i = 512)%nat) as [->|H1]; [done|]. rewrite list_lookup_insert_ne, lookup_replicate_2 by (done || unfold NPDENTRIES; lia).
  rewrite decide_False by lia. done.
Qed.

Lemma length_entrypgdir : length entrypgdir = 1024%nat.
Proof. unfold entrypgdir. by rewrite !length_insert, length_replicate. Qed.

#[global] Opaque entrypgdir.

(** The first 4MB of physical memory appear at 0 and at KERNBASE, and nothing else. *)
Lemma entry_translate b pgdir va : entry_paging b pgdir -> 0 <= va < 2 ^ 32 ->
  translate b va = if va <? FOURMB then Some va else if (KERNBASE <=? va) && (va <? KERNBASE + FOURMB) then Some (va - KERNBASE) else None.
Proof.
  intros [H1 H2 H3 H4 H5] Hva. unfold translate. rewrite H1, H3, H4. cbn [negb]. unfold FOURMB, KERNBASE in *.
  pose proof (Z.div_mod va (2 ^ 22) ltac:(lia)) as Hdm. pose proof (Z.mod_pos_bound va (2 ^ 22) ltac:(lia)) as Hm. set (q := va / 2 ^ 22) in *. set (r := va mod 2 ^ 22) in *. clearbody q r.
  assert (0 <= q < 1024) as Hq by lia. pose proof (entrypgdir_lookup (Z.to_nat q) ltac:(lia)) as Hl.
  rewrite <-(Z2Nat.id q) by lia. rewrite (words_lookup _ _ _ _ _ H5 Hl). rewrite (proj2 (Z.eqb_neq _ 0) H2).
  case_decide as Hd.
  - change (Z.land 0x83 PTE_P =? 0) with false. change (Z.land 0x83 PTE_PS =? 0) with false. change (Z.land 0x83 0xFFC00000) with 0. cbn [negb andb]. rewrite Z.add_0_l.
    destruct Hd as [Hd|Hd]; [assert (q = 0) as -> by lia|assert (q = 512) as -> by lia].
    + rewrite (proj2 (Z.ltb_lt va _)) by lia. f_equal. lia.
    + rewrite (proj2 (Z.ltb_ge va _)), (proj2 (Z.leb_le _ va)), (proj2 (Z.ltb_lt va _)) by lia. cbn [andb]. f_equal. lia.
  - change (Z.land 0 PTE_P =? 0) with true. rewrite (proj2 (Z.ltb_ge va _)) by lia. destruct (Z.leb_spec 0x80000000 va), (Z.ltb_spec va (0x80000000 + 2 ^ 22)); try done. lia.
Qed.

Lemma land_lor_self c d : 0 < d -> Z.land (Z.lor c d) d <> 0.
Proof. intros Hd. rewrite Z.land_lor_distr_l, Z.land_diag. intros H. apply Z.lor_eq_0_iff in H as [_ H]. lia. Qed.

Lemma reg_other r q v m : r <> q -> reg_of r (set_reg q v m) = reg_of r m.
Proof. intros Hr. destruct m as [[]]. by destruct r, q. Qed.
Lemma paging_true b : Z.land (cr0 b) CR0_PG <> 0 -> paging b = true.
Proof. unfold paging. by intros ->%Z.eqb_neq. Qed.

(** Entry turns paging on under itself.  The kernel, loaded at low physical
    addresses and still running there, goes on with the directory entrypgdir: every
    address below 4MB is still itself, so the code after the switch is the code
    before it, the same memory is at KERNBASE, where main and its stack are, and no
    other address is mapped. *)
Theorem entry_starts_main b pgdir stack main (Hf : flat32 b) (Hw : words_at (pmem_of b) pgdir entrypgdir) (Ha : Z.land pgdir 0xFFFFF000 = pgdir)
  (Hp : is_u32 pgdir) (Hs : is_u32 (stack + 4096)) (Hm : is_u32 main) :
  exists b', brun (entry pgdir stack main) b = Some b' /\ eip (core b') = main /\ esp (core b') = stack + 4096 /\ pmem_of b' = pmem_of b /\
    Z.land (cr0 b') CR0_WP <> 0 /\
    forall va, 0 <= va < 2 ^ 32 ->
      translate b' va = if va <? FOURMB then Some va else if (KERNBASE <=? va) && (va <? KERNBASE + FOURMB) then Some (va - KERNBASE) else None.
Proof.
  unfold entry. cbn [brun bstep step mbind option_bind]. rewrite !u32_id by done.
  set (wp := Z.lor CR0_PG CR0_WP). eexists. split; [reflexivity|]. cbn [set_core set_crs core cr0 cr4 ds_base ss_base cs_base kbc outs].
  rewrite !reg_set. split_and!; try done.
  - unfold esp. change (reg_of ESP (set_eip main ?m)) with (reg_of ESP m). by rewrite reg_other, reg_set.
  - subst wp. rewrite Z.lor_assoc. by apply land_lor_self.
  - intros va Hva. apply (entry_translate _ pgdir); [|done]. split; try done.
    + apply paging_true. subst wp. rewrite (Z.lor_comm CR0_PG), Z.lor_assoc. by apply land_lor_self.
    + by apply land_lor_self.
Qed.

(** ** The other processors *)

Lemma load_abs_at b a pa : ds_base b = 0 -> translate b a = Some pa -> load_abs b a = Some (mem32 (pmem_of b) pa).
Proof. intros Hd Ht. unfold load_abs. by rewrite Hd, Z.add_0_l, Ht. Qed.

(** What startothers leaves for the code at [start]. *)
Record ap_words (m : ram) (start pgdir mpenter sp : Z) : Prop := {
  aw_pgdir : mem32 m (start - 12) = pgdir;
  aw_enter : mem32 m (start - 8) = mpenter;
  aw_stack : mem32 m (start - 4) = sp;
  aw_dir : words_at m pgdir entrypgdir /\ Z.land pgdir 0xFFFFF000 = pgdir
}.

Definition entryother_paging (start : Z) : list binstr :=
  [RdCr4; OrEax CR4_PSE; WrCr4; LoadAbs (start - 12) EAX; WrCr3; RdCr0; OrEax (Z.lor (Z.lor CR0_PE CR0_PG) CR0_WP); WrCr0; LoadAbs (start - 4) ESP].

Lemma entryother_paging_spec m c0 c4 kb os start pgdir mpenter sp : flat32 (BMach m c0 c4 0 0 0 kb os) -> ap_words (mm m) start pgdir mpenter sp -> 12 <= start < FOURMB ->
  exists m' c0' c4', brun (entryother_paging start) (BMach m c0 c4 0 0 0 kb os) = Some (BMach m' c0' c4' 0 0 0 kb os) /\
  entry_paging (BMach m' c0' c4' 0 0 0 kb os) pgdir /\ esp m' = sp /\ (sg m', cs m', ss m', eflags m', gdt (sys m'), mm m') = (sg m, cs m, ss m, eflags m, gdt (sys m), mm m).
Proof.
  intros Hf [W1 W2 W3 [W4 W5]] Hs. set (c4' := Z.lor c4 CR4_PSE). set (c0' := Z.lor c0 (Z.lor (Z.lor CR0_PE CR0_PG) CR0_WP)).
  set (m1 := set_reg EAX c4' (set_reg EAX c4 m)).
  assert (brun [RdCr4; OrEax CR4_PSE; WrCr4] (BMach m c0 c4 0 0 0 kb os) = Some (BMach m1 c0 c4' 0 0 0 kb os)) as E1 by (cbn [brun bstep mbind option_bind set_core core cr0 cr4]; unfold set_crs, set_core; cbn [core cr0 cr4 ds_base ss_base cs_base kbc outs]; by rewrite !reg_set).
  assert (load_abs (BMach m1 c0 c4' 0 0 0 kb os) (start - 12) = Some pgdir) as E2.
  { rewrite (load_abs_at _ _ (start - 12)); [by f_equal|done|]. unfold translate. pose proof (fl_pg _ Hf) as Hp. unfold paging in *. cbn [cr0] in *. by rewrite Hp. }
  set (m2 := set_reg EAX c0' (set_reg EAX c0 (set_cr3 pgdir (set_reg EAX pgdir m1)))).
  assert (brun [LoadAbs (start - 12) EAX; WrCr3; RdCr0; OrEax (Z.lor (Z.lor CR0_PE CR0_PG) CR0_WP); WrCr0] (BMach m1 c0 c4' 0 0 0 kb os) = Some (BMach m2 c0' c4' 0 0 0 kb os)) as E3.
  { cbn [brun bstep]. rewrite E2. cbn [mbind option_bind set_core core cr0]. unfold set_crs, set_core. cbn [core cr0 cr4 ds_base ss_base cs_base kbc outs]. by rewrite !reg_set. }
  assert (entry_paging (BMach m2 c0' c4' 0 0 0 kb os) pgdir) as Hep.
  { split; try done; [|by apply land_lor_self]. apply paging_true. cbn [cr0]. subst c0'. rewrite (Z.lor_comm CR0_PE), <-(Z.lor_assoc CR0_PG), (Z.lor_comm CR0_PG), Z.lor_assoc. by apply land_lor_self. }
  assert (load_abs (BMach m2 c0' c4' 0 0 0 kb os) (start - 4) = Some sp) as E4.
  { rewrite (load_abs_at _ _ (start - 4)); [by f_equal|done|]. unfold FOURMB in Hs. rewrite (entry_translate _ pgdir) by (done || lia). by rewrite (proj2 (Z.ltb_lt _ _)) by (unfold FOURMB; lia). }
  exists (set_reg ESP sp m2), c0', c4'. split_and!.
  - change (entryother_paging start) with ([RdCr4; OrEax CR4_PSE; WrCr4] ++ [LoadAbs (start - 12) EAX; WrCr3; RdCr0; OrEax (Z.lor (Z.lor CR0_PE CR0_PG) CR0_WP); WrCr0] ++ [LoadAbs (start - 4) ESP]).
    rewrite brun_app, E1. cbn [mbind option_bind]. rewrite brun_app, E3. cbn [mbind option_bind brun bstep]. by rewrite E4.
  - destruct Hep. by split.
  - apply (reg_set ESP sp m2).
  - done.
Qed.

(** entryother from real mode up to its call. *)
Definition entryother (gdtdesc start32 start ret : Z) : list binstr := entryother16 gdtdesc start32 ++ entryother32 start ret.
Lemma entryother_spec b gdt_a gdtdesc start32 start ret pgdir mpenter sp :
  real_mode b -> gdt_at (pmem_of b) gdt_a gdtdesc -> ap_words (pmem_of b) start pgdir mpenter sp -> 12 <= start < FOURMB -> 4 <= sp < 2 ^ 32 ->
  exists m c0 c4, entry_paging (BMach m c0 c4 0 0 0 (kbc b) (outs b)) pgdir /\ esp m = sp /\ mm m = pmem_of b /\
    sg m = Dsegs (selector SEG_KDATA 0) (selector SEG_KDATA 0) 0 0 /\ ss m = selector SEG_KDATA 0 /\ cs m = selector SEG_KCODE 0 /\ Z.testbit (eflags m) 9 = false /\
    brun (entryother gdtdesc start32 start ret) b =
      (b' ← bpush ret (BMach m c0 c4 0 0 0 (kbc b) (outs b)); Some (set_core (set_eip mpenter) b')).
Proof.
  intros Hb Hg Hw Hs Hsp.
  change (entryother gdtdesc start32 start ret) with (zero_segs ++ to_protected gdtdesc start32 ++ load_segs32 ++ entryother_paging start ++ [CallAbs (start - 8) ret]).
  destruct (zero_segs_spec b Hb) as (m1 & E1 & C1 & M1 & F1).
  destruct (to_protected_spec m1 (cr0 b) (cr4 b) 0 (cs_base b) (kbc b) (outs b) gdt_a gdtdesc start32) as (m3 & E3 & M3 & _ & F3).
  { apply Hb. } { rewrite C1. apply Hb. } { rewrite M1. exact Hg. } { done. }
  destruct (load_segs32_spec _ _ _ _ _ _ F3) as (m4 & E4 & M4 & F4 & S4 & T4).
  destruct (entryother_paging_spec m4 _ _ _ _ start pgdir mpenter sp F4) as (m5 & c0 & c4 & E5 & F5 & G5 & [= H1 H2 H3 H4 H5 H6]); [|done|].
  { rewrite M4, M3, M1. exact Hw. }
  exists m5, c0, c4. split; [done|]. split; [done|]. split; [unfold pmem_of; congruence|]. split; [congruence|]. split; [congruence|]. split; [rewrite H2; apply (fl_cs _ F4)|]. split; [rewrite H4; apply (fl_if _ F4)|].
  rewrite brun_app, E1. cbn [mbind option_bind]. rewrite brun_app, E3. cbn [mbind option_bind]. rewrite brun_app, E4. cbn [mbind option_bind]. rewrite brun_app, E5. cbn [mbind option_bind brun bstep].
  rewrite (load_abs_at _ _ (start - 8)); [|done|].
  - cbn [mbind option_bind]. unfold pmem_of. cbn [core]. pose proof (aw_enter _ _ _ _ _ Hw) as Hme. unfold pmem_of in Hme. rewrite H6, M4, M3, M1, Hme. by destruct (bpush _ _).
  - unfold FOURMB in Hs. rewrite (entry_translate _ pgdir) by (done || lia). by rewrite (proj2 (Z.ltb_lt _ _)) by (unfold FOURMB; lia).
Qed.

(** A stack above the first 4MB is not mapped yet: the call of mpenter faults.  So
    kinit2, which frees the memory above, has to come after startothers. *)
Lemma high_stack_faults b gdt_a gdtdesc start32 start ret pgdir mpenter sp :
  real_mode b -> gdt_at (pmem_of b) gdt_a gdtdesc -> ap_words (pmem_of b) start pgdir mpenter sp -> 12 <= start < FOURMB ->
  KERNBASE + FOURMB <= sp - 4 -> sp < 2 ^ 32 -> brun (entryother gdtdesc start32 start ret) b = None.
Proof.
  intros Hb Hg Hw Hs H1 H2. unfold FOURMB, KERNBASE in H1.
  destruct (entryother_spec b gdt_a gdtdesc start32 start ret pgdir mpenter sp) as (m & c0 & c4 & E1 & E2 & _ & _ & _ & _ & _ & ->); try done; [lia|].
  unfold bpush. cbn [core ss_base]. rewrite E2, u32_id, (entry_translate _ pgdir) by (done || unfold is_u32; lia). unfold FOURMB, KERNBASE.
  rewrite (proj2 (Z.ltb_ge _ _)), (proj2 (Z.leb_le _ _)), (proj2 (Z.ltb_ge _ _)) by lia. done.
Qed.

(** ** startothers *)

Section Startothers.
(** The number of processors and the one that runs startothers; the address of
    mpenter, the physical address of entrypgdir, and the bytes of entryother.S, with
    the places of its descriptors and labels. *)
Context (ncpu me : nat) (apicid : nat -> Z) (mpenter pgdir : Z) (image : list Z) (gdt_o desc_o : nat) (start32 ret : Z).

Definition CODE : Z := 0x7000.

(** The words before the code, then the startup interrupts. *)
Definition startother (c : nat) (stack : Z) (m : ram) : ram :=
  let m := poke32 m (CODE - 4) (u32 (stack + 4096)) in
  let m := poke32 m (CODE - 8) mpenter in
  let m := poke32 m (CODE - 12) pgdir in
  (lapicstartap (apicid c) CODE m []).1.2.

(** A processor is off, has its startup interrupt, is in mpenter, or has set started. *)
Inductive ap := Off | Sipi | Entered (b : bmach) | Up (b : bmach).
(** The loop of startothers: at a processor, in the while for one, past the loop. *)
Inductive bpc := Next (c : nat) | Waiting (c : nat) | Done.
Record smp := Smp { pm : ram; bsp : bpc; aps : nat -> ap; stacks : nat -> option Z }.
Definition upd {A} (f : nat -> A) (c : nat) (v : A) : nat -> A := fun k => if decide (k = c) then v else f k.

(** The memory startothers and the code share. *)
Definition reserved (x : Z) : Prop := CODE - 12 <= x < CODE + Z.of_nat (length image) \/ pgdir <= x < pgdir + 4096.
(** A page kalloc may return before kinit2: below 4MB, not handed out, and no part of
    the reserved memory. *)
Definition fresh_stack (s : smp) (stack : Z) : Prop :=
  KERNBASE <= stack /\ stack + 4096 <= KERNBASE + FOURMB /\ (forall c k, stacks s c = Some k -> stack + 4096 <= k \/ k + 4096 <= stack) /\
  forall x, stack - KERNBASE <= x < stack - KERNBASE + 4096 -> ~ reserved x.

(** A processor starts in real mode with whatever is in its registers. *)
Definition ap_reset (m : ram) (b : bmach) : Prop := real_mode b /\ pmem_of b = m.

Inductive sstep : smp -> smp -> Prop :=
| S_skip s c : bsp s = Next c -> (c < ncpu)%nat -> c = me -> sstep s (Smp (pm s) (Next (S c)) (aps s) (stacks s))
| S_start s c stack : bsp s = Next c -> (c < ncpu)%nat -> c <> me -> fresh_stack s stack ->
    sstep s (Smp (startother c stack (pm s)) (Waiting c) (upd (aps s) c Sipi) (upd (stacks s) c (Some stack)))
| S_enter s c b b' : aps s c = Sipi -> ap_reset (pm s) b ->
    brun (entryother (CODE + Z.of_nat desc_o) start32 CODE ret) b = Some b' -> sstep s (Smp (pmem_of b') (bsp s) (upd (aps s) c (Entered b')) (stacks s))
| S_up s c b : aps s c = Entered b -> sstep s (Smp (pm s) (bsp s) (upd (aps s) c (Up b)) (stacks s))
| S_wait s c b : bsp s = Waiting c -> aps s c = Up b -> sstep s (Smp (pm s) (Next (S c)) (aps s) (stacks s))
| S_done s c : bsp s = Next c -> (ncpu <= c)%nat -> sstep s (Smp (pm s) Done (aps s) (stacks s))
| S_other s m : (forall x, reserved x -> m x = pm s x) -> sstep s (Smp m (bsp s) (aps s) (stacks s)).

(** The start: the code copied, no processor on but this one. *)
Definition smp_init (m : ram) : smp := Smp (poke_all m CODE image) (Next 0) (fun _ => Off) (fun _ => None).

Inductive sreach (m : ram) : smp -> Prop :=
| SR_init : sreach m (smp_init m)
| SR_step s s' : sreach m s -> sstep s s' -> sreach m s'.

(** ** Every processor gets its own stack *)

Context (Hid : forall c, 0 <= apicid c < 256) (Henter : is_u32 mpenter).
Context (Hdir : 0x1000 <= pgdir /\ pgdir + 4096 <= FOURMB /\ Z.land pgdir 0xFFFFF000 = pgdir).
Context (Himg : take 24 (drop gdt_o image) = boot_gdt /\ take 6 (drop desc_o image) = boot_gdtdesc (CODE + Z.of_nat gdt_o)).
Context (Hlen : (gdt_o + 24 <= length image)%nat /\ (desc_o + 6 <= length image)%nat).
Context (Hsep : pgdir + 4096 <= CODE - 12 \/ CODE + Z.of_nat (length image) <= pgdir).
Context (Hsmall : Z.of_nat (length image) <= 4096).

Lemma startother_spec c stack m : is_u32 (stack + 4096) -> words_at m pgdir entrypgdir ->
  let m' := startother c stack m in
  ap_words m' CODE pgdir mpenter (stack + 4096) /\ forall x, (0x46A < x /\ x < CODE - 12) \/ CODE <= x -> m' x = m x.
Proof using Hid Henter Hdir Hsep Hlen.
  intros Hs Hw m'. unfold m', startother. rewrite u32_id by done. set (m1 := poke32 (poke32 (poke32 _ _ _) _ _) _ _).
  pose proof (lapicstartap_starts 7 (apicid c) m1 [] ltac:(lia) (Hid c)) as L. change (4096 * 7) with CODE in L. destruct (lapicstartap (apicid c) CODE m1 []) as [[ports m2] log]. cbn [fst snd].
  destruct L as (_ & _ & _ & L & _). unfold CODE, FOURMB in *.
  assert (forall a, 0x46A < a -> mem32 m2 a = mem32 m1 a) as Hm by (intros a Ha; unfold mem32; f_equal; unfold mem_bytes; apply list_fmap_ext; intros k y Hy; apply L; lia).
  assert (forall x, (0x46A < x /\ x < 0x7000 - 12) \/ 0x7000 <= x -> m2 x = m x) as Hx by (intros x Hx; rewrite L by lia; subst m1; rewrite !poke32_out by lia; done).
  split; [|done]. split.
  - rewrite Hm by lia. apply mem32_same. lia.
  - rewrite Hm by lia. subst m1. rewrite mem32_other by lia. by apply mem32_same.
  - rewrite Hm by lia. subst m1. rewrite !mem32_other by lia. by apply mem32_same.
  - split; [|apply Hdir]. apply (words_frame _ m); [|done]. intros x Hxx. rewrite length_entrypgdir in Hxx. apply Hx. lia.
Qed.

Definition stack_ok (k : Z) : Prop :=
  KERNBASE <= k /\ k + 4096 <= KERNBASE + FOURMB /\ forall x, k - KERNBASE <= x < k - KERNBASE + 4096 -> ~ reserved x.

Record sinv (s : smp) : Prop := {
  iv_gdt : gdt_at (pm s) (CODE + Z.of_nat gdt_o) (CODE + Z.of_nat desc_o);
  iv_dir : words_at (pm s) pgdir entrypgdir;
  iv_sipi c : aps s c = Sipi -> bsp s = Waiting c /\ exists k, stacks s c = Some k /\ ap_words (pm s) CODE pgdir mpenter (k + 4096);
  iv_on c b : aps s c = Entered b \/ aps s c = Up b -> exists k, stacks s c = Some k /\ eip (core b) = mpenter /\ esp (core b) = k + 4096 - 4;
  iv_stacks c k : stacks s c = Some k -> stack_ok k;
  iv_apart c c' k k' : c <> c' -> stacks s c = Some k -> stacks s c' = Some k' -> k + 4096 <= k' \/ k' + 4096 <= k;
  iv_past c : (c < ncpu)%nat -> c <> me -> match bsp s with Next i | Waiting i => (c < i)%nat | Done => True end -> exists b, aps s c = Up b
}.

Lemma reserved_gdt m m' : (forall x, reserved x -> m' x = m x) -> gdt_at m (CODE + Z.of_nat gdt_o) (CODE + Z.of_nat desc_o) -> gdt_at m' (CODE + Z.of_nat gdt_o) (CODE + Z.of_nat desc_o).
Proof using Hlen Hsep.
  intros Hx [A B C]. split; [rewrite <-A|rewrite <-B|done]; unfold mem_bytes; apply list_fmap_ext; intros j y Hy; apply lookup_seq in Hy as [-> Hy]; apply Hx; unfold reserved; lia.
Qed.
Lemma reserved_dir m m' : (forall x, reserved x -> m' x = m x) -> words_at m pgdir entrypgdir -> words_at m' pgdir entrypgdir.
Proof using Hlen. intros Hx. apply words_frame. intros x Hxx. rewrite length_entrypgdir in Hxx. apply Hx. unfold reserved. lia. Qed.
Lemma reserved_words m m' sp : (forall x, reserved x -> m' x = m x) -> ap_words m CODE pgdir mpenter sp -> ap_words m' CODE pgdir mpenter sp.
Proof using Hlen Hsep.
  intros Hx [A B C [D E]]. assert (forall a, CODE - 12 <= a -> a + 4 <= CODE -> mem32 m' a = mem32 m a) as Hm.
  { intros a H1 H2. unfold mem32. f_equal. unfold mem_bytes. apply list_fmap_ext. intros j y Hy. apply lookup_seq in Hy as [-> Hy]. apply Hx. unfold reserved. lia. }
  split; [by rewrite Hm by lia..|]. split; [by apply (reserved_dir m)|done].
Qed.

(** The entry of a processor that has its interrupt: it never faults, and what it
    writes is on its stack. *)
Lemma ap_enters m b k : ap_reset m b -> gdt_at m (CODE + Z.of_nat gdt_o) (CODE + Z.of_nat desc_o) -> ap_words m CODE pgdir mpenter (k + 4096) -> stack_ok k ->
  exists b', brun (entryother (CODE + Z.of_nat desc_o) start32 CODE ret) b = Some b' /\ eip (core b') = mpenter /\ esp (core b') = k + 4096 - 4 /\
    forall x, reserved x -> pmem_of b' x = m x.
Proof using Hlen.
  intros [Hr Hm] Hg Hw (K1 & K2 & K3). subst m. unfold FOURMB, KERNBASE in *.
  destruct (entryother_spec b _ _ start32 CODE ret pgdir mpenter (k + 4096) Hr Hg Hw) as (m & c0 & c4 & E1 & E2 & E3 & _ & _ & _ & _ & E4).
  { unfold CODE, FOURMB. lia. } { lia. }
  rewrite E4, (bpush_at _ _ (k + 4096 - 4 - 0x80000000)); cbn [core]; rewrite ?E2; [|done|lia|].
  - cbn [mbind option_bind]. eexists. split; [reflexivity|]. split; [done|]. split; [apply (reg_set ESP (k + 4096 - 4) m)|].
    intros x Hx. change (poke32 (mm m) (k + 4096 - 4 - 0x80000000) ret x = pmem_of b x). rewrite <-E3. apply poke32_out.
    destruct (decide (k + 4096 - 4 - 0x80000000 <= x < k + 4096 - 0x80000000)); [|lia]. exfalso. apply (K3 x); [lia|done].
  - rewrite (entry_translate _ pgdir) by (done || lia). unfold FOURMB, KERNBASE. rewrite (proj2 (Z.ltb_ge _ _)), (proj2 (Z.leb_le _ _)), (proj2 (Z.ltb_lt _ _)) by lia. done.
Qed.

Lemma upd_at {A} (f : nat -> A) c v : upd f c v c = v.
Proof using. unfold upd. by rewrite decide_True. Qed.
Lemma upd_other {A} (f : nat -> A) c v k : k <> c -> upd f c v k = f k.
Proof using. intros. unfold upd. by rewrite decide_False. Qed.

Lemma sinv_start s c stack : sinv s -> bsp s = Next c -> (c < ncpu)%nat -> c <> me -> fresh_stack s stack ->
  sinv (Smp (startother c stack (pm s)) (Waiting c) (upd (aps s) c Sipi) (upd (stacks s) c (Some stack))).
Proof using Hid Henter Hdir Hsep Hlen.
  intros Hi Hb Hc Hm (F1 & F2 & F3 & F4).
  destruct (startother_spec c stack (pm s)) as [Hw Hx]; [unfold is_u32, FOURMB, KERNBASE in *; lia|apply Hi|].
  assert (forall x, CODE <= x < CODE + Z.of_nat (length image) \/ pgdir <= x < pgdir + 4096 -> startother c stack (pm s) x = pm s x) as Hx'.
  { intros x Hxx. apply Hx. unfold CODE, FOURMB in *. lia. }
  split; cbn [pm bsp aps stacks].
  - destruct (iv_gdt s Hi) as [A B C]. split; [rewrite <-A|rewrite <-B|done]; unfold mem_bytes; apply list_fmap_ext; intros j y Hy; apply lookup_seq in Hy as [-> Hy]; apply Hx'; lia.
  - apply Hw.
  - intros c'. destruct (decide (c' = c)) as [->|Hne].
    + intros _. split; [done|]. exists stack. by rewrite upd_at.
    + rewrite upd_other by done. intros H. destruct (iv_sipi s Hi c' H) as [H' _]. congruence.
  - intros c' b. destruct (decide (c' = c)) as [->|Hne].
    + rewrite upd_at. by intros [|].
    + rewrite !upd_other by done. apply (iv_on s Hi).
  - intros c' k. destruct (decide (c' = c)) as [->|Hne]; [rewrite upd_at; by intros [= <-]|rewrite upd_other by done; apply (iv_stacks s Hi)].
  - intros a a' k k' Hn. destruct (decide (a = c)) as [->|]; [rewrite upd_at, upd_other by congruence|].
    + intros [= <-] H. destruct (F3 a' k' H); lia.
    + rewrite (upd_other _ c _ a) by done. destruct (decide (a' = c)) as [->|]; [rewrite upd_at; intros H [= <-]; destruct (F3 a k H); lia|]. rewrite upd_other by done. by apply (iv_apart s Hi).
  - intros c' H1 H2 H3. rewrite upd_other by lia. apply (iv_past s Hi); [done|done|]. by rewrite Hb.
Qed.

Lemma sinv_mem s m : sinv s -> (forall x, reserved x -> m x = pm s x) -> sinv (Smp m (bsp s) (aps s) (stacks s)).
Proof using Hlen Hsep.
  intros [A B C D E F G] Hx. split; cbn [pm bsp aps stacks]; [exact (reserved_gdt (pm s) m Hx A)|exact (reserved_dir (pm s) m Hx B)| |exact D|exact E|exact F|exact G].
  intros c H. destruct (C c H) as (C1 & k & C2 & C3). split; [done|]. exists k. split; [done|]. by apply (reserved_words (pm s)).
Qed.

(** A step of one processor, with the memory as it is. *)
Lemma sinv_ap s c a k : sinv s -> stacks s c = Some k -> a <> Sipi ->
  (forall b, a = Entered b \/ a = Up b -> eip (core b) = mpenter /\ esp (core b) = k + 4096 - 4) ->
  (forall b, aps s c = Up b -> a = Up b) -> sinv (Smp (pm s) (bsp s) (upd (aps s) c a) (stacks s)).
Proof using.
  intros [A B C D E F G] Hk Ha Hon Hup. split; cbn [pm bsp aps stacks]; [exact A|exact B| | |exact E|exact F|].
  - intros c' H. destruct (decide (c' = c)) as [->|]; [by rewrite upd_at in H|]. rewrite upd_other in H by done. by apply C.
  - intros c' b H. destruct (decide (c' = c)) as [->|]; [rewrite upd_at in H; exists k; split; [done|by apply Hon]|]. rewrite upd_other in H by done. by apply D.
  - intros c' H1 H2 H3. destruct (G c' H1 H2 H3) as [b Hb]. destruct (decide (c' = c)) as [->|]; [rewrite upd_at; exists b; by apply Hup|]. exists b. by rewrite upd_other.
Qed.

(** A step of the loop, with no interrupt pending. *)
Lemma sinv_bsp s p : sinv s -> (forall c, aps s c <> Sipi) ->
  (forall c, (c < ncpu)%nat -> c <> me -> match p with Next i | Waiting i => (c < i)%nat | Done => True end -> exists b, aps s c = Up b) -> sinv (Smp (pm s) p (aps s) (stacks s)).
Proof using. intros [A B C D E F G] Hn Hp. split; [exact A|exact B| |exact D|exact E|exact F|exact Hp]. intros c H. by destruct (Hn c). Qed.

Lemma sinv_step s s' : sinv s -> sstep s s' -> sinv s'.
Proof using Hid Henter Hdir Hsep Hlen.
  intros Hi Hstep. destruct Hstep as [s c Hb Hc ->|s c stack Hb Hc Hm Hf|s c b b' Ha Hr Hrun|s c b Ha|s c b Hb Ha|s c Hb Hc|s m Hx].
  - apply sinv_bsp; [done|intros c H; destruct (iv_sipi s Hi c H); congruence|]. intros c H1 H2 H3. apply (iv_past s Hi); [done|done|]. rewrite Hb. lia.
  - exact (sinv_start s c stack Hi Hb Hc Hm Hf).
  - destruct (iv_sipi s Hi c Ha) as (Hw & k & Hk & Hws). destruct (ap_enters (pm s) b k Hr (iv_gdt s Hi) Hws (iv_stacks s Hi c k Hk)) as (b1 & E1 & E2 & E3 & E4).
    rewrite E1 in Hrun. injection Hrun as <-. apply (sinv_ap (Smp (pmem_of b1) (bsp s) (aps s) (stacks s)) c (Entered b1) k); cbn [aps stacks].
    + exact (sinv_mem s _ Hi E4).
    + exact Hk.
    + discriminate.
    + intros b2 [[= <-]|H]; [done|discriminate H].
    + intros b2 H. congruence.
  - destruct (iv_on s Hi c b (or_introl Ha)) as (k & Hk & K1 & K2). apply (sinv_ap s c (Up b) k).
    + exact Hi.
    + exact Hk.
    + discriminate.
    + intros b2 [H|[= <-]]; [discriminate H|done].
    + intros b2 H. congruence.
  - apply sinv_bsp; [done| |].
    + intros c' H. destruct (iv_sipi s Hi c' H) as [H' _]. congruence.
    + intros c' H1 H2 H3. destruct (decide (c' = c)) as [->|]; [by exists b|]. apply (iv_past s Hi); [done|done|]. rewrite Hb. lia.
  - apply sinv_bsp; [done|intros c' H; destruct (iv_sipi s Hi c' H); congruence|]. intros c' H1 H2 _. apply (iv_past s Hi); [done|done|]. rewrite Hb. lia.
  - exact (sinv_mem s m Hi Hx).
Qed.

Lemma sinv_reach m s : words_at m pgdir entrypgdir -> sreach m s -> sinv s.
Proof using Hid Henter Hdir Hsep Hlen Himg Hsmall.
  intros Hw. induction 1 as [|s s' _ IH Hs]; [|by apply (sinv_step s)]. split; cbn [smp_init pm bsp aps stacks]; [| |intros c H; discriminate H| |intros c k H; discriminate H|intros c c' k k' _ H; discriminate H|].
  - assert (mem_bytes (poke_all m CODE image) CODE (length image) = image) as Hb by apply mem_bytes_same. split.
    + rewrite (mem_bytes_sub _ CODE image gdt_o 24) by (done || lia). apply Himg.
    + rewrite (mem_bytes_sub _ CODE image desc_o 6) by (done || lia). apply Himg.
    + unfold CODE. lia.
  - apply (words_frame _ m); [|done]. intros x Hx. rewrite length_entrypgdir in Hx. rewrite poke_all_lookup, decide_False by (unfold CODE in *; lia). done.
  - intros c b [H|H]; discriminate H.
  - intros c _ _ H. lia.
Qed.

(** C33: startothers brings up every other processor on a stack of its own.  However
    the steps of the processors and of startothers interleave, and whatever else
    changes outside the shared words, a processor that has its startup interrupt
    runs entryother without a fault; one that runs is in mpenter at the top of the
    page that was allocated for it, and no two have the same page; and when
    startothers ends, all of them are up. *)
Theorem startothers_stacks m s (Hw : words_at m pgdir entrypgdir) (Hs : sreach m s) :
  (forall c b, aps s c = Sipi -> ap_reset (pm s) b -> is_Some (brun (entryother (CODE + Z.of_nat desc_o) start32 CODE ret) b)) /\
  (forall c b, aps s c = Entered b \/ aps s c = Up b -> eip (core b) = mpenter /\ exists k, stacks s c = Some k /\ esp (core b) = k + 4096 - 4) /\
  (forall c c' k k', c <> c' -> stacks s c = Some k -> stacks s c' = Some k' -> k + 4096 <= k' \/ k' + 4096 <= k) /\
  (bsp s = Done -> forall c, (c < ncpu)%nat -> c <> me -> exists b, aps s c = Up b).
Proof using Hid Henter Hdir Hsep Hlen Himg Hsmall.
  pose proof (sinv_reach m s Hw Hs) as Hi. split_and!.
  - intros c b Ha Hr. destruct (iv_sipi s Hi c Ha) as (_ & k & Hk & Hws). destruct (ap_enters (pm s) b k Hr (iv_gdt s Hi) Hws (iv_stacks s Hi c k Hk)) as (b1 & -> & _). by exists b1.
  - intros c b Ha. destruct (iv_on s Hi c b Ha) as (k & H1 & H2 & H3). split; [done|by exists k].
  - apply (iv_apart s Hi).
  - intros Hd c H1 H2. apply (iv_past s Hi); [done|done|]. by rewrite Hd.
Qed.
End Startothers.

(** Two processors; the second one gets its interrupt. *)
Lemma words_poke l : forall m a, Forall is_u32 l -> words_at (poke_all m a (concat (le_bytes 4 <$> l))) a l.
Proof.
  induction l as [|v l IH]; intros m a Hl; [done|]. apply Forall_cons in Hl as [Hv Hl]. cbn [fmap list_fmap concat words_at].
  assert (poke_all m a (le_bytes 4 v ++ concat (le_bytes 4 <$> l)) = poke_all (poke32 m a v) (a + 4) (concat (le_bytes 4 <$> l))) as ->.
  { unfold poke32. cbn [le_bytes app poke_all]. by replace (a + 1 + 1 + 1 + 1) with (a + 4) by lia. }
  split; [|by apply IH]. unfold mem32. rewrite mem_bytes_poke by lia. by apply mem32_same.
Qed.
Definition demo_image : list Z := boot_gdt ++ boot_gdtdesc CODE.
Definition demo_boot_mem : ram := poke_all (fun _ => 0) 0x10000 (concat (le_bytes 4 <$> entrypgdir)).
Definition demo_smp : smp :=
  Smp (startother (fun c => Z.of_nat c mod 256) 0x80102000 0x10000 1 (KERNBASE + 0x20000) (pm (smp_init demo_image demo_boot_mem))) (Waiting 1)
    (upd (fun _ => Off) 1 Sipi) (upd (fun _ => None) 1 (Some (KERNBASE + 0x20000))).

Lemma demo_smp_reached : sreach 2 0 (fun c => Z.of_nat c mod 256) 0x80102000 0x10000 demo_image 24 0x7050 0x7080 demo_boot_mem demo_smp.
Proof.
  eapply SR_step; [eapply SR_step; [apply SR_init|apply S_skip with (c := 0%nat); [done|lia|done]]|].
  apply (S_start _ _ _ _ _ _ _ _ _ (Smp (pm (smp_init demo_image demo_boot_mem)) (Next 1) (fun _ => Off) (fun _ => None)) 1 (KERNBASE + 0x20000)); [done|lia|done|].
  split_and!; [done|done|done|]. intros x Hx [Hr|Hr]; unfold KERNBASE, CODE in *; change (Z.of_nat (length demo_image)) with 30 in *; lia.
Qed.

Definition demo_ap : bmach := BMach (Mach (Regs 0 0 0 0 0 0 0 0) (Dsegs 0 0 0 0) 0x700 0 0 2 (Sysregs [] [] 0 0) (pm demo_smp)) 0x60000010 0 0 0 0x7000 [] [].

Lemma startothers_stacks_witness : is_Some (brun (entryother (CODE + Z.of_nat 24) 0x7050 CODE 0x7080) demo_ap).
Proof.
  destruct (startothers_stacks 2 0 (fun c => Z.of_nat c mod 256) 0x80102000 0x10000 demo_image 0 24 0x7050 0x7080) with (m := demo_boot_mem) (s := demo_smp) as (H & _).
  - intros c. apply Z.mod_pos_bound. lia.
  - done.
  - done.
  - done.
  - split; apply Nat.leb_le; reflexivity.
  - right. done.
  - done.
  - apply words_poke. apply Forall_lookup. intros i v Hi. assert (i < 1024)%nat as Hlt by (rewrite <-length_entrypgdir; by eapply lookup_lt_Some). rewrite entrypgdir_lookup in Hi by done. injection Hi as <-. by case_decide; unfold is_u32.
  - exact demo_smp_reached.
  - apply (H 1%nat); [reflexivity|]. split; [by split|reflexivity].
Defined.

Definition demo_bios : bmach :=
  BMach (Mach (Regs 0xAA55 1 2 3 4 5 6 7) (Dsegs 0x40 0 0 0) 0 0x9000 0x7c00 0x202 (Sysregs [] [] 0 0) (poke_all (fun _ => 0) CODE demo_image)) 0x10 0 0x400 0x90000 0 [3; 0; 0] [].
Lemma bootasm_calls_bootmain_witness : exists b', brun (bootasm16 0x7018 0x7c31 ++ bootasm32 0x7c00 0x7d3b 0x7c4d) demo_bios = Some b' /\ esp (core b') = 0x7bfc.
Proof.
  assert (mem_bytes (poke_all (fun _ => 0) CODE demo_image) CODE (length demo_image) = demo_image) as Hm by apply mem_bytes_same.
  destruct (bootasm_calls_bootmain demo_bios CODE 0x7018 0x7c31 0x7c00 0x7d3b 0x7c4d [3] 0 [] 0 []) as (b' & E & _ & _ & _ & _ & _ & _ & _ & E1 & _).
  - by split.
  - split; [|exact (mem_bytes_sub _ CODE demo_image 24 6 Hm ltac:(apply Nat.leb_le; reflexivity))|done].
    exact (mem_bytes_sub _ CODE demo_image 0 24 Hm ltac:(apply Nat.leb_le; reflexivity)).
  - done.
  - apply Forall_singleton. discriminate.
  - intros H. by apply H.
  - constructor.
  - intros H. by apply H.
  - lia.
  - done.
  - exact (ex_intro _ b' (conj E E1)).
Defined.
