(* ===== verification/Login.v ===== *)
(** * Logging in (login.c, init.c, gets of ulib.c)

    What login does with the lines typed at it, and init's loop around it.  The
    input is the list of bytes that the reads of the console will return, one by
    one; its end is a read that returns none. *)

From S2P Require Import Prelude CString Sleeplock Block BlockLayer Bio Log LogProps FsDefs InodeProps FsRules Pipe FileDefs SysfileDefs SysfileProps Accounts.

(** ** gets *)

Fixpoint gets_loop (room : nat) (inp : list Z) : list Z * list Z :=
  match room, inp with
  | S room', c :: inp' => if (c =? 10) || (c =? 13) then ([c], inp') else let '(l, rest) := gets_loop room' inp' in (c :: l, rest)
  | _, _ => ([], inp)
  end.
(** The buffer, and what is left to read. *)
Definition gets (buf : list Z) (max : Z) (inp : list Z) : list Z * list Z :=
  let '(l, rest) := gets_loop (Z.to_nat (max - 1)) inp in (l ++ 0 :: drop (S (length l)) buf, rest).

(** ** login *)

(** id[strlen(id) - 1] = 0; [None] is the write before the array. *)
Definition chop (buf : list Z) : option (list Z) :=
  let n := strlen buf in if n =? 0 then None else Some (<[Z.to_nat (n - 1) := 0]> buf).
(** memset, gets, and the cut of the last character. *)
Definition ask (inp : list Z) : option (list Z) * list Z :=
  let '(buf, rest) := gets (replicate 16 0) 16 inp in (chop buf, rest).

(** How a turn of the loop ends: a write out of bounds, a message, or a child that
    runs the shell for the user. *)
Inductive login_event := Undefined | Invalid | Denied | Shell (id : list Z).

Section login.
Context {St : Type} `{BLi : BlockLayer St}.

Definition login_round (inp : list Z) : M (kst St) (login_event * list Z) :=
  let '(id, rest) := ask inp in
  match id with
  | None => mret (Undefined, rest)
  | Some id =>
      let '(pw, rest) := ask rest in
      match pw with
      | None => mret (Undefined, rest)
      | Some pw =>
          if (hd0 id =? 0) || (hd0 id =? 10) || (hd0 pw =? 0) || (hd0 pw =? 10) then mret (Invalid, rest)
          else
            r ← sys_accountcheck (Some (cstr id)) (Some (cstr pw));
            mret (if r =? 0 then Shell (cstr id) else Denied, rest)
      end
  end.
End login.

(** ** init *)

(** The calls of init after its first message; [IExec] is in the child. *)
Inductive init_pc := IOpen | IMknod | IOpen2 | IDup1 | IDup2 | IUsysinit | IFork | IExec | IWait (pid : Z) | IExit.
(** Where the result of a call leads; exec returns only when it fails. *)
Definition init_next (pc : init_pc) (r : Z) : init_pc :=
  match pc with
  | IOpen => if r <? 0 then IMknod else IDup1
  | IMknod => IOpen2
  | IOpen2 => IDup1
  | IDup1 => IDup2
  | IDup2 => IUsysinit
  | IUsysinit => IFork
  | IFork => if r <? 0 then IExit else if r =? 0 then IExec else IWait r
  | IExec => IExit
  | IWait pid => if (0 <=? r) && negb (r =? pid) then IWait pid else IFork
  | IExit => IExit
  end.

(** ** Lines *)

(** Characters of a line, none of which ends it. *)
Definition plain (l : list Z) : Prop := Forall (fun c => c <> 0 /\ c <> 10 /\ c <> 13 /\ 0 <= c < 256) l.

Lemma gets_loop_line l rest room : plain l -> (length l < room)%nat -> gets_loop room (l ++ 10 :: rest) = (l ++ [10], rest).
Proof.
  intros Hl. revert room. induction Hl as [|c l (H0 & H1 & H2 & _) Hl IH]; intros [|room] Hr; cbn [length] in Hr; try lia; [done|].
  cbn [app gets_loop]. rewrite (proj2 (Z.eqb_neq c 10)), (proj2 (Z.eqb_neq c 13)) by done. cbn [orb]. by rewrite IH by lia.
Qed.
Lemma gets_loop_long l rest : plain l -> gets_loop (length l) (l ++ rest) = (l, rest).
Proof.
  induction 1 as [|c l (H0 & H1 & H2 & _) Hl IH]; [by destruct rest|]. cbn [app length gets_loop].
  rewrite (proj2 (Z.eqb_neq c 10)), (proj2 (Z.eqb_neq c 13)) by done. cbn [orb]. by rewrite IH.
Qed.

Lemma plain_nz l : plain l -> Forall (fun c => c <> 0) l.
Proof. intros Hl. eapply Forall_impl; [exact Hl|]. by intros c [? _]. Qed.
Lemma cstr_padded l n : plain l -> cstr (l ++ replicate n 0) = l.
Proof. intros Hl. rewrite cstr_nz_app by (by apply plain_nz). destruct n; by rewrite app_nil_r. Qed.

(** A line of up to 14 characters is what login gets; the newline is cut. *)
Lemma ask_line l rest : plain l -> (length l <= 14)%nat -> ask (l ++ 10 :: rest) = (Some (l ++ replicate (16 - length l) 0), rest).
Proof.
  intros Hl Hn. unfold ask, gets. change (Z.to_nat (16 - 1)) with 15%nat. rewrite gets_loop_line by (done || lia). rewrite length_app. cbn [length].
  rewrite drop_replicate. f_equal. unfold chop. rewrite <-app_assoc, strlen_length. cbn [app].
  assert (cstr (l ++ 10 :: 0 :: replicate (16 - S (length l + 1)) 0) = l ++ [10]) as ->.
  { change (10 :: 0 :: replicate (16 - S (length l + 1)) 0) with ([10] ++ 0 :: replicate (16 - S (length l + 1)) 0). rewrite app_assoc, cstr_nz_app; [by rewrite app_nil_r|].
    apply Forall_app_2; [by apply plain_nz|by constructor]. }
  rewrite length_app. cbn [length]. rewrite (proj2 (Z.eqb_neq _ 0)) by lia. replace (Z.to_nat (Z.of_nat (length l + 1) - 1)) with (length l) by lia.
  rewrite insert_app_r_alt, Nat.sub_diag by lia. cbn [insert list_insert]. f_equal. f_equal.
  replace (16 - length l)%nat with (S (S (16 - S (length l + 1)))) by lia. done.
Qed.

(** With 15 characters the last one is cut, and the newline stays in the input. *)
Lemma ask_long l c rest : plain (l ++ [c]) -> length l = 14%nat -> ask (l ++ [c] ++ rest) = (Some (l ++ [0; 0]), rest).
Proof.
  intros Hl Hn. unfold ask, gets. change (Z.to_nat (16 - 1)) with 15%nat. replace 15%nat with (length (l ++ [c])) by (rewrite length_app; cbn; lia).
  rewrite app_assoc, gets_loop_long by done. rewrite length_app. cbn [length]. rewrite Hn. cbn [Nat.add drop replicate]. f_equal. unfold chop. rewrite strlen_length.
  rewrite cstr_nz_app by (by apply plain_nz). cbn [cstr]. change (0 =? 0) with true. cbv iota. rewrite app_nil_r, length_app. cbn [length]. rewrite Hn. cbn [Nat.add]. change (Z.of_nat 15 =? 0) with false. cbv iota.
  change (Z.to_nat (Z.of_nat 15 - 1)) with 14%nat. rewrite <-app_assoc, insert_app_r_alt, Hn, Nat.sub_diag by lia. done.
Qed.

(** ** Who gets a shell *)

Section sessions.
Context {St : Type} `{BLi : BlockLayer St}.
Context (dev_read : Z -> option (nat -> Z -> M (fsst St) (Z * list Z))) (dev_write : Z -> option (nat -> list Z -> Z -> M (fsst St) Z)).
Context (mypid : Z).

Lemma plain_bytes l : plain l -> is_bytes l.
Proof using. intros Hl. eapply Forall_impl; [exact Hl|]. by intros c (_ & _ & _ & ?). Qed.
Lemma plain_cstrn l : plain l -> (length l <= 16)%nat -> cstrn 16 l = l.
Proof using. intros Hl Hn. unfold cstrn. rewrite take_ge by done. rewrite <-(app_nil_r l) at 1. rewrite cstr_nz_app by (by apply plain_nz). apply app_nil_r. Qed.

Lemma login_lines id pw rest (s : kst St) : plain id -> plain pw -> (1 <= length id <= 14)%nat -> (1 <= length pw <= 14)%nat ->
  login_round (id ++ 10 :: pw ++ 10 :: rest) s = (r ← accountcheck id pw; mret (if r =? 0 then Shell id else Denied, rest)) s.
Proof using.
  intros Hid Hpw Hi Hp. unfold login_round. rewrite ask_line, ask_line by (done || lia).
  assert (forall l n, plain l -> (1 <= length l)%nat -> hd0 (l ++ replicate n 0) <> 0 /\ hd0 (l ++ replicate n 0) <> 10) as Hhd.
  { intros l n Hl Hn. destruct Hl as [|c l (H0 & H1 & _) _]; cbn in *; [lia|done]. }
  destruct (Hhd id (16 - length id)%nat Hid ltac:(lia)) as [I1 I2]. destruct (Hhd pw (16 - length pw)%nat Hpw ltac:(lia)) as [P1 P2].
  rewrite !(proj2 (Z.eqb_neq _ _)) by done. cbn [orb]. rewrite !cstr_padded by done. done.
Qed.

(** What login takes of its input: a line with its end, but not more than 15
    characters; of these all but the last. *)
Fixpoint line_in (inp : list Z) : list Z :=
  match inp with [] => [] | c :: inp' => if (c =? 10) || (c =? 13) then [c] else c :: line_in inp' end.
Definition typed (inp : list Z) : list Z := removelast (take 15 (line_in inp)).
Definition left_over (inp : list Z) : list Z := drop (length (take 15 (line_in inp))) inp.

Lemma gets_loop_line_in room : forall inp, gets_loop room inp = (take room (line_in inp), drop (length (take room (line_in inp))) inp).
Proof using.
  induction room as [|room IH]; intros inp; [done|]. destruct inp as [|c inp]; [done|]. cbn [gets_loop line_in].
  destruct (_ || _); [by destruct room|]. rewrite IH. done.
Qed.

Lemma ask_typed inp buf : Forall (fun c => c <> 0) inp -> (ask inp).1 = Some buf -> cstr buf = typed inp /\ (ask inp).2 = left_over inp.
Proof using.
  intros Hz H. revert H. unfold ask, gets, typed, left_over. change (Z.to_nat (16 - 1)) with 15%nat. rewrite gets_loop_line_in. set (l := take 15 (line_in inp)). cbn [fst snd].
  assert (Forall (fun c => c <> 0) l) as Hl.
  { apply Forall_take. clear l. induction Hz as [|c inp Hc Hz IH]; cbn; [constructor|]. destruct (_ || _); by constructor. }
  clearbody l. intros H. split; [|done]. unfold chop in H. rewrite strlen_length, cstr_nz_app in H by done. cbn [cstr] in H. change (0 =? 0) with true in H. cbv iota in H. rewrite app_nil_r in H.
  destruct l as [|c l] using rev_ind; [done|]. rewrite length_app in H. cbn [length] in H. rewrite (proj2 (Z.eqb_neq _ 0)) in H by lia. injection H as <-.
  replace (Z.to_nat (Z.of_nat (length l + 1) - 1)) with (length l) by lia. rewrite <-app_assoc, insert_app_r_alt, Nat.sub_diag by lia. cbn [app insert list_insert].
  apply Forall_app in Hl as [Hl _]. rewrite cstr_nz_app by done. cbn. by rewrite app_nil_r, removelast_last.
Qed.

(** The bytes of what was typed. *)
Lemma gets_loop_bytes room : forall inp, is_bytes inp -> is_bytes (gets_loop room inp).1 /\ is_bytes (gets_loop room inp).2 /\ (length (gets_loop room inp).1 <= room)%nat.
Proof using.
  induction room as [|room IH]; intros inp Hi; [cbn; split_and!; [constructor|done|lia]|]. destruct Hi as [|c inp Hc Hi]; [split_and!; cbn; [constructor|constructor|lia]|].
  cbn [gets_loop]. destruct (_ || _); [split_and!; cbn; [by constructor|done|lia]|]. destruct (IH inp Hi) as (H1 & H2 & H3). destruct (gets_loop room inp) as [l r]. cbn in *.
  split_and!; [by constructor|done|lia].
Qed.
Lemma cstr_length_le l n : l !! n = Some 0 -> (length (cstr l) <= n)%nat.
Proof using.
  revert n. induction l as [|c l IH]; intros [|n] H; cbn in *; try done; [injection H as ->; cbn; lia|]. destruct (c =? 0); cbn; [lia|]. specialize (IH n H). lia.
Qed.
Lemma ask_bytes inp buf : is_bytes inp -> (ask inp).1 = Some buf -> is_bytes buf /\ (length (cstr buf) < 16)%nat /\ is_bytes (ask inp).2.
Proof using.
  intros Hi. unfold ask, gets. change (Z.to_nat (16 - 1)) with 15%nat. destruct (gets_loop_bytes 15 inp Hi) as (H1 & H2 & H3). destruct (gets_loop 15 inp) as [l r]. cbn [fst snd] in *.
  unfold chop. destruct (Z.eqb_spec (strlen (l ++ 0 :: drop (S (length l)) (replicate 16 0))) 0) as [|Hn]; [done|]. intros [= <-]. split_and!; [| |done].
  - apply Forall_insert; [|lia]. apply Forall_app_2; [done|]. constructor; [lia|]. apply Forall_drop, (Forall_replicate _ 15). lia.
  - rewrite strlen_length in Hn |- *. set (b := l ++ 0 :: _) in *. assert (b !! length l = Some 0) as Hz by (by apply list_lookup_middle). pose proof (cstr_length_le b _ Hz) as Hc.
    apply (Nat.le_lt_trans _ (Z.to_nat (Z.of_nat (length (cstr b)) - 1))); [|lia]. apply cstr_length_le. rewrite list_lookup_insert_eq; [done|]. pose proof (lookup_lt_Some _ _ _ Hz). lia.
Qed.

(** A shell starts only for the name of an account and its password. *)
Lemma login_sound inp id rest (s s' : kst St) : is_bytes inp -> utlk s = false -> ut_wf (ut s) -> login_round inp s = Ret (Shell id, rest) s' ->
  exists idb, (ask inp).1 = Some idb /\ id = cstr idb /\ id <> [] /\
    exists i pw, (i < NUM_USER)%nat /\ (ask (ask inp).2).1 = Some pw /\ name_of (ut s) i = id /\ pw_of (ut s) i = cstr pw.
Proof using.
  intros Hi Hl Hw. unfold login_round. destruct (ask inp) as [[idb|] r1] eqn:E1; [|done]. pose proof (ask_bytes inp idb Hi) as A1. rewrite E1 in A1. destruct (A1 eq_refl) as (B1 & L1 & B2). cbn [fst snd] in *.
  destruct (ask r1) as [[pwb|] r2] eqn:E2; [|done]. pose proof (ask_bytes r1 pwb B2) as A2. rewrite E2 in A2. destruct (A2 eq_refl) as (C1 & L2 & C2). cbn [fst snd] in *.
  destruct ((hd0 idb =? 0) || (hd0 idb =? 10) || (hd0 pwb =? 0) || (hd0 pwb =? 10)) eqn:Eb; [done|]. cbn [sys_accountcheck].
  assert (forall b, (length (cstr b) < 16)%nat -> cstrn 16 (cstr b) = cstr b) as Hc.
  { intros b Hb. unfold cstrn. rewrite take_ge by lia. rewrite <-(app_nil_r (cstr b)) at 1. rewrite cstr_nz_app by apply cstr_nz. apply app_nil_r. }
  assert (forall b, is_bytes b -> is_bytes (cstr b)) as Hby.
  { intros b Hb. induction Hb as [|c b Hc' Hb IH]; cbn; [constructor|]. destruct (c =? 0); [constructor|by constructor]. }
  destruct (accountcheck_run (cstr idb) (cstr pwb) s Hl Hw (Hby _ B1) (Hby _ C1)) as [(s1 & Hr & i & Hlt & H1 & H2)|(s1 & Hr & _)].
  - rewrite (bind_Ret _ _ s 0 s1 Hr). cbn. intros [= <- <- <-]. exists idb. split_and!; [done..| |].
    + destruct idb as [|c idb]; [done|]. cbn in Eb |- *. by destruct (c =? 0).
    + exists i, pwb. rewrite H1, H2, !Hc by done. done.
  - rewrite (bind_Ret _ _ s (-1) s1 Hr). done.
Qed.

(** C25: login lets in the users there are.  After root added a user with a name and a
    password of 1 to 14 characters, typing the name and a password at login starts a
    shell for the user if the password is the user's, and is denied if it is
    another (such a password again of 1 to 14 characters).  And whatever else is
    typed, without NUL bytes, a shell starts only for the name of an account and its
    password as login takes them from the input: from a line with its end at most 15
    characters, of which the last is cut. *)
Theorem login_lets_in name pw s s' (Hrun : addUser dev_read dev_write mypid name pw s = Ret 0 s') (Hw : ut_wf (ut s))
  (Hn : plain name /\ (1 <= length name <= 14)%nat) (Hp : plain pw /\ (1 <= length pw <= 14)%nat) :
  (forall pw' rest, plain pw' -> (1 <= length pw' <= 14)%nat ->
     exists s'', login_round (name ++ 10 :: pw' ++ 10 :: rest) s' = Ret (if decide (pw' = pw) then Shell name else Denied, rest) s'') /\
  (forall inp id rest s'', is_bytes inp -> Forall (fun c => c <> 0) inp -> login_round inp s' = Ret (Shell id, rest) s'' ->
     id = typed inp /\ id <> [] /\ exists i, (i < NUM_USER)%nat /\ name_of (ut s') i = id /\ pw_of (ut s') i = typed (left_over inp)).
Proof using.
  destruct Hn as [Hn Hnl], Hp as [Hp Hpl]. destruct (adduser_account dev_read dev_write mypid name pw s s' Hrun Hw (plain_bytes _ Hn) (plain_bytes _ Hp)) as (Hl & W & i & Hi & _ & N & P & Huniq & _).
  rewrite plain_cstrn in N, P, Huniq by (done || lia). split.
  - intros pw' rest Hp' Hl'. rewrite login_lines by done.
    destruct (accountcheck_run name pw' s' Hl W (plain_bytes _ Hn) (plain_bytes _ Hp')) as [(s'' & Hr & j & Hj & H1 & H2)|(s'' & Hr & Hbad)];
      exists s''; rewrite (bind_Ret _ _ s' _ s'' Hr); cbn; rewrite !plain_cstrn in * by (done || lia).
    + rewrite (Huniq j Hj H1), P in H2. by rewrite decide_True.
    + rewrite decide_False; [done|]. intros ->. by apply (Hbad i Hi N).
  - intros inp id rest s'' Hb Hz H. destruct (login_sound inp id rest s' s'' Hb Hl W H) as (idb & E1 & -> & Hne & j & pwb & Hj & E2 & N' & P').
    destruct (ask_typed inp idb Hz E1) as [T1 T2]. rewrite T2 in E2. destruct (ask_typed (left_over inp) pwb) as [T3 _]; [by apply Forall_drop|done|].
    rewrite <-T1. split_and!; [done..|]. exists j. by rewrite <-T3.
Qed.

(** A name of 15 characters is as good as any for addUser, but login cuts its last
    character and takes the rest of the line for the password: its owner is turned
    away before accountcheck is asked. *)
Theorem login_cuts_long_name l c rest (s : kst St) (Hl : plain (l ++ [c])) (Hn : length l = 14%nat) :
  login_round (l ++ [c] ++ 10 :: rest) s = Ret (Invalid, rest) s.
Proof using.
  unfold login_round. rewrite ask_long by done. change (ask (10 :: rest)) with (ask ([] ++ 10 :: rest)). rewrite ask_line; [|by apply Forall_nil|cbn; lia]. cbn [app hd0 replicate Nat.sub]. by rewrite !orb_true_r.
Qed.

(** At the end of the input the cut writes before the array. *)
Lemma login_end_of_input (s : kst St) : login_round [] s = Ret (Undefined, []) s.
Proof using. reflexivity. Qed.
End sessions.

(** ** init keeps one login *)

(** While the login that init waits for runs, whatever other children wait reaps,
    init starts no other; when it ends, init forks again. *)
Lemma init_waits pid rs : Forall (fun r => 0 <= r /\ r <> pid) rs -> foldl init_next (IWait pid) rs = IWait pid.
Proof.
  induction 1 as [|r rs [H0 H1] _ IH]; [done|]. cbn [foldl init_next]. rewrite (proj2 (Z.leb_le 0 r)), (proj2 (Z.eqb_neq r pid)) by done. exact IH.
Qed.
Lemma init_restarts pid rs : Forall (fun r => 0 <= r /\ r <> pid) rs -> 0 <= pid -> foldl init_next (IWait pid) (rs ++ [pid]) = IFork.
Proof. intros Hrs Hp. rewrite foldl_app, init_waits by done. cbn. rewrite (proj2 (Z.leb_le 0 pid)), Z.eqb_refl by done. done. Qed.

(** bob, whom root has added, logs in. *)
#[local] Abbreviation new_bob := (addUser (BL := bio_layer 1000 1) (λ _, None) (λ _, None) 1 (bytes_of "bob") (bytes_of "x") acc_state).
Lemma login_lets_in_witness :
  exists s', new_bob = Ret 0 s' /\ (exists s'', login_round (bytes_of "bob" ++ 10 :: bytes_of "x" ++ 10 :: []) s' = Ret (Shell (bytes_of "bob"), []) s'') /\
    exists s'', login_round (bytes_of "bob" ++ 10 :: bytes_of "y" ++ 10 :: []) s' = Ret (Denied, []) s''.
Proof.
  pose proof add_bob_ok as H. destruct new_bob as [r s'|m|c s'] eqn:E; [|discriminate H|discriminate H]. apply Z.eqb_eq in H. subst r.
  exists s'. split; [reflexivity|].
  destruct (login_lets_in (BLi := bio_layer 1000 1) (λ _, None) (λ _, None) 1 (bytes_of "bob") (bytes_of "x") acc_state s' E acc_state_wf) as [H _].
  - split; [repeat constructor; done|cbn; lia].
  - split; [repeat constructor; done|cbn; lia].
  - split; [apply (H (bytes_of "x") [])|apply (H (bytes_of "y") [])]; (repeat constructor; done) || (cbn; lia).
Defined.
