(* ===== verification/Utils.v ===== *)
(** * Small programs (cat.c, echo.c, kill.c, ln.c, mkdir.c, rm.c, main of grep.c)

    The programs see the system through the results of their calls, as in Tools: a
    file is the list of its reads and the result that ends them, and a call that
    creates, links or removes is a function of its arguments.  What a program does
    is the list of its calls and the bytes it prints. *)

From S2P Require Import Prelude CString Block FsDefs Printf Grep Tools.

(** printf without a newline. *)
Definition put (fmt : string) (args : list (Z + list Z)) : option (list Z) :=
  printf (fun k => match args !! k with Some (inl n) => n | Some (inr _) => Z.of_nat k + 1 | None => 0 end)
         (fun p => match args !! Z.to_nat (p - 1) with Some (inr s) => s | _ => [] end) (bytes_of fmt).

(** ** cat *)

Section cat.
(** What write(1, buf, n) returns for the bytes of a read. *)
Context (wr : list Z -> Z).

(** The bytes on descriptor 1, and whether cat returns. *)
Fixpoint cat_loop (cs : list (list Z)) : option (list Z) * bool :=
  match cs with
  | [] => (Some [], true)
  | c :: cs' =>
      let r := wr c in
      if negb (r =? Z.of_nat (length c)) then (o ← put_line "cat: write error" []; Some (take (Z.to_nat r) c ++ o), false)
      else let '(out, more) := cat_loop cs' in (o ← out; Some (c ++ o), more)
  end.
Definition cat (cs : list (list Z)) (n : Z) : option (list Z) * bool :=
  let '(out, more) := cat_loop cs in
  if negb more then (out, false)
  else if n <? 0 then (o ← out; e ← put_line "cat: read error" []; Some (o ++ e), false)
  else (out, true).

Fixpoint cat_files (file : list Z -> option (list (list Z) * Z)) (args : list (list Z)) : option (list Z) :=
  match args with
  | [] => Some []
  | a :: args' =>
      match file a with
      | None => put_line "cat: cannot open %s" [inr a]
      | Some (cs, n) => let '(out, more) := cat cs n in if more then o ← out; o' ← cat_files file args'; Some (o ++ o') else out
      end
  end.
Definition cat_main (stdin : list (list Z) * Z) (file : list Z -> option (list (list Z) * Z)) (argv : list (list Z)) : option (list Z) :=
  match argv with [] | [_] => fst (cat (fst stdin) (snd stdin)) | _ :: args => cat_files file args end.
End cat.

(** ** echo *)

Fixpoint echo_args (args : list (list Z)) : option (list Z) :=
  match args with
  | [] => Some []
  | a :: args' => o ← put "%s%s" [inr a; inr (match args' with [] => [10] | _ => [32] end)]; r ← echo_args args'; Some (o ++ r)
  end.
Definition echo_main (argv : list (list Z)) : option (list Z) := echo_args (tail argv).

(** ** kill, ln, mkdir, rm *)

(** The pids kill is called with; or the message. *)
Definition kill_main (argv : list (list Z)) : list Z * option (list Z) :=
  match argv with [] | [_] => ([], put_line "usage: kill pid..." []) | _ :: args => (atoi <$> args, Some []) end.

Definition ln_main (link : list Z -> list Z -> Z) (argv : list (list Z)) : option (list Z) :=
  match argv with
  | [_; old; new] => if link old new <? 0 then put_line "link %s %s: failed" [inr old; inr new] else Some []
  | _ => put_line "Usage: ln old new" []
  end.

(** The loop of mkdir and rm: the calls made, and the first that failed. *)
Fixpoint until_fail (call : list Z -> Z) (args : list (list Z)) : list (list Z) * option (list Z) :=
  match args with
  | [] => ([], None)
  | a :: args' => if call a <? 0 then ([a], Some a) else let '(l, f) := until_fail call args' in (a :: l, f)
  end.
Definition mkdir_main (mkdir : list Z -> Z) (argv : list (list Z)) : list (list Z) * option (list Z) :=
  match argv with
  | [] | [_] => ([], put_line "Usage: mkdir files..." [])
  | _ :: args => let '(l, f) := until_fail mkdir args in (l, match f with Some a => put_line "mkdir: %s failed to create" [inr a] | None => Some [] end)
  end.
Definition rm_main (unlink : list Z -> Z) (argv : list (list Z)) : list (list Z) * option (list Z) :=
  match argv with
  | [] | [_] => ([], put_line "Usage: rm files..." [])
  | _ :: args => let '(l, f) := until_fail unlink args in (l, match f with Some a => put_line "rm: %s failed to delete" [inr a] | None => Some [] end)
  end.

(** ** grep *)

Fixpoint grep_files (pattern : list Z) (file : list Z -> option (list (list Z))) (args : list (list Z)) : option (list Z) :=
  match args with
  | [] => Some []
  | a :: args' =>
      match file a with
      | None => put_line "grep: cannot open %s" [inr a]
      | Some cs => o ← grep_files pattern file args'; Some (grep pattern cs ++ o)
      end
  end.
Definition grep_main (stdin : list (list Z)) (file : list Z -> option (list (list Z))) (argv : list (list Z)) : option (list Z) :=
  match argv with
  | [] | [_] => put_line "usage: grep pattern [file ...]" []
  | [_; pattern] => Some (grep pattern stdin)
  | _ :: pattern :: args => grep_files pattern file args
  end.

(** ** What they do *)


Lemma cat_loop_all wr cs : (forall c, wr c = Z.of_nat (length c)) -> cat_loop wr cs = (Some (concat cs), true).
Proof.
  intros Hw. induction cs as [|c cs IH]; [done|]. cbn [cat_loop concat]. rewrite Hw, Z.eqb_refl. cbn [negb]. by rewrite IH.
Qed.

(** When the writes are complete, cat copies: the contents of its files, in order,
    whatever the sizes of the reads. *)
Theorem cat_copies wr stdin file name args contents : (forall c, wr c = Z.of_nat (length c)) -> args <> [] ->
  Forall2 (fun a t => exists cs, file a = Some (cs, 0) /\ concat cs = t) args contents ->
  cat_main wr stdin file (name :: args) = Some (concat contents).
Proof.
  intros Hw Hne Hf. destruct args as [|a args]; [done|]. change (cat_main wr stdin file (name :: a :: args)) with (cat_files wr file (a :: args)). clear Hne.
  induction Hf as [|a' t args' ts (cs & Ha & <-) Hf IH]; [done|]. cbn [cat_files concat]. rewrite Ha. unfold cat. rewrite cat_loop_all by done. cbn [negb Z.ltb Z.compare mbind option_bind]. by rewrite IH.
Qed.

Lemma put_two a b : put "%s%s" [inr a; inr b] = Some (cstr a ++ cstr b).
Proof. unfold put, printf. change (bytes_of "%s%s") with [37; 115; 37; 115]. cbn. by rewrite ?app_nil_r. Qed.

(** echo prints its arguments with blanks between them and a newline at the end. *)
Theorem echo_line name args : args <> [] -> Forall (fun a => cstr a = a) args ->
  exists o, echo_main (name :: args) = Some o /\ o = concat (zip_with (++) args (replicate (length args - 1) [32] ++ [[10]])).
Proof.
  intros Hne Hf. unfold echo_main. cbn [tail]. eexists. split; [|reflexivity]. induction Hf as [|a args Ha Hf IH]; [done|]. cbn [echo_args]. rewrite put_two, Ha.
  destruct args as [|b args]; [done|]. rewrite IH by done. cbn [mbind option_bind length]. change (cstr [32]) with [32]. cbn [Nat.sub]. rewrite Nat.sub_0_r. done.
Qed.

(** mkdir and rm make their calls in order and stop after the first that fails. *)
Theorem until_fail_stops call args : match until_fail call args with
  | (l, None) => l = args /\ Forall (fun a => 0 <= call a) args
  | (l, Some a) => exists l1 l2, args = l1 ++ a :: l2 /\ l = l1 ++ [a] /\ Forall (fun a => 0 <= call a) l1 /\ call a < 0
  end.
Proof.
  induction args as [|a args IH]; [done|]. cbn [until_fail]. destruct (Z.ltb_spec (call a) 0) as [Hn|Hn]; [by exists [], args|].
  destruct (until_fail call args) as [l [b|]].
  - destruct IH as (l1 & l2 & -> & -> & H1 & H2). exists (a :: l1), l2. split_and!; [done|done|by constructor|done].
  - destruct IH as [-> H]. split; [done|by constructor].
Qed.

(** grep on files that it can read whole prints the matching lines of each, in order. *)
Theorem grep_main_selects stdin file name pattern args texts : args <> [] ->
  Forall2 (fun a t => file a = Some [t] /\ (0 ∉ t) /\ short_lines t) args texts ->
  grep_main stdin file (name :: pattern :: args) = Some (concat (selected pattern <$> texts)).
Proof.
  intros Hne Hf. destruct args as [|a args]; [done|]. change (grep_main stdin file (name :: pattern :: a :: args)) with (grep_files pattern file (a :: args)). clear Hne.
  induction Hf as [|a' t args' ts (Ha & Hz & Hs) Hf IH]; [done|]. cbn [grep_files fmap list_fmap concat]. rewrite Ha, IH, grep_file by done. done.
Qed.
