(* ===== verification/Debug.v ===== *)
(** * Backtraces, panic and the process listing (getcallerpcs of spinlock.c, panic of
      console.c, procdump of proc.c), and the serial port (uart.c)

    The debugging output of the kernel, and the set-up of the line it also goes to. *)

From S2P Require Import Prelude CString Block MemFuns VmDefs ProcDefs Printf X86 Swtch.

(** ** Backtraces *)

(** The walk over saved frame pointers, [n] entries still to fill. *)
Definition no_frame (ebp : Z) : bool := (ebp =? 0) || (ebp <? KERNBASE) || (ebp =? 0xffffffff).
Fixpoint getcallerpcs_loop (n : nat) (m : ram) (ebp : Z) : list Z :=
  match n with
  | O => []
  | S n' => if no_frame ebp then replicate n 0 else mem32 m (u32 (ebp + 4)) :: getcallerpcs_loop n' m (mem32 m ebp)
  end.
Definition getcallerpcs (m : ram) (v : Z) : list Z := getcallerpcs_loop 10 m (u32 (v - 8)).

(** ** Messages *)

(** cprintf on arguments that are numbers or strings. *)
Definition cput (fmt : string) (args : list (Z + list Z)) : option (list Z) :=
  cprintf (fun k => match args !! k with Some (inl n) => n | Some (inr _) => Z.of_nat k + 1 | None => 0 end)
          (fun p => match args !! Z.to_nat (p - 1) with Some (inr s) => s | _ => [] end) (bytes_of fmt).

Fixpoint put_pcs (pcs : list Z) : option (list Z) :=
  match pcs with [] => Some [] | pc :: pcs' => o ← cput " %p" [inl pc]; r ← put_pcs pcs'; Some (o ++ r) end.

(** What panic prints before it stops; [v] is the address of its argument. *)
Definition panic_text (lapicid : Z) (s : string) (m : ram) (v : Z) : option (list Z) :=
  a ← cput "lapicid %d: panic: " [inl lapicid]; b ← cput s []; c ← put_pcs (getcallerpcs m v); Some (a ++ b ++ [10] ++ c).

Definition state_name (st : procstate) : list Z :=
  bytes_of match st with UNUSED => "unused" | EMBRYO => "embryo" | SLEEPING => "sleep " | RUNNABLE => "runble" | RUNNING => "run   " | ZOMBIE => "zombie" end.

(** The pcs up to the first zero. *)
Fixpoint nonzero (l : list Z) : list Z := match l with [] => [] | x :: l' => if x =? 0 then [] else x :: nonzero l' end.

(** procdump, for slots with their state, pid, name and context->ebp. *)
Record dump_slot := Slot { ds_state : procstate; ds_pid : Z; ds_name : list Z; ds_ebp : Z }.
Definition procdump_line (m : ram) (p : dump_slot) : option (list Z) :=
  match ds_state p with
  | UNUSED => Some []
  | st =>
      o ← cput "%d %s %s" [inl (ds_pid p); inr (state_name st); inr (ds_name p)];
      t ← match st with SLEEPING => put_pcs (nonzero (getcallerpcs m (u32 (ds_ebp p + 8)))) | _ => Some [] end;
      Some (o ++ t ++ [10])
  end.
Fixpoint procdump (m : ram) (ps : list dump_slot) : option (list Z) :=
  match ps with [] => Some [] | p :: ps' => o ← procdump_line m p; r ← procdump m ps'; Some (o ++ r) end.

(** ** The frames of a stack *)

(** Calls nested under each other: each frame has the return address above the saved
    frame pointer, and the chain leaves the kernel at its end. *)
Fixpoint frames (m : ram) (ebp : Z) (rets : list Z) : Prop :=
  match rets with
  | [] => no_frame ebp = true
  | r :: rets' => no_frame ebp = false /\ ebp + 8 <= 2 ^ 32 /\ mem32 m (ebp + 4) = r /\ frames m (mem32 m ebp) rets'
  end.

Lemma getcallerpcs_loop_spec m rets : forall n ebp, frames m ebp rets -> getcallerpcs_loop n m ebp = take n (rets ++ replicate n 0).
Proof.
  induction rets as [|r rets IH]; intros [|n] ebp; cbn [frames getcallerpcs_loop]; try done.
  - intros ->. cbn [app]. by rewrite take_ge by (by rewrite length_replicate).
  - intros (Hn & He & Hr & Hf). rewrite Hn. unfold no_frame in Hn. rewrite !orb_false_iff in Hn. unfold KERNBASE in Hn.
    rewrite u32_id by (unfold is_u32; lia). rewrite Hr, (IH n _ Hf). cbn [app take]. f_equal.
    replace (S n) with (n + 1)%nat by lia. rewrite replicate_add, app_assoc, (take_app_le (rets ++ _)); [done|]. rewrite length_app, length_replicate. lia.
Qed.

(** For a function called with a normal frame, with the address of its first
    argument, getcallerpcs gives the return addresses of the calls in progress,
    innermost first: ten of them, or all and zeros after them. *)
Theorem getcallerpcs_calls m ebp rets (Hf : frames m ebp rets) (He : 0 <= ebp /\ ebp + 8 < 2 ^ 32) :
  getcallerpcs m (ebp + 8) = take 10 (rets ++ replicate 10 0).
Proof. unfold getcallerpcs. replace (ebp + 8 - 8) with ebp by lia. rewrite u32_id by (unfold is_u32; lia). by apply getcallerpcs_loop_spec. Qed.

(** ** The listing is always printed *)

Lemma cput_p pc : exists o, cput " %p" [inl pc] = Some o.
Proof.
  unfold cput, cprintf. change (bytes_of " %p") with [32; 37; 112]. cbn -[printint_console s32]. unfold printint_console.
  destruct (printint_some digits_lower (s32 pc) 16 false ltac:(lia)) as [o ->]. by eexists.
Qed.
Lemma put_pcs_some pcs : exists o, put_pcs pcs = Some o.
Proof. induction pcs as [|pc pcs [o IH]]; [by eexists|]. cbn [put_pcs]. destruct (cput_p pc) as [o1 ->]. rewrite IH. by eexists. Qed.
Lemma cput_line pid a b : exists o, cput "%d %s %s" [inl pid; inr a; inr b] = Some (o ++ [32] ++ cstr a ++ [32] ++ cstr b).
Proof.
  unfold cput, cprintf. change (bytes_of "%d %s %s") with [37; 100; 32; 37; 115; 32; 37; 115]. cbn -[printint_console s32]. unfold printint_console.
  destruct (printint_some digits_lower (s32 pid) 10 true ltac:(lia)) as [o ->]. exists o. cbn. by rewrite !app_nil_r.
Qed.

(** procdump prints, whatever the table and the stacks hold. *)
Lemma procdump_total m ps : exists o, procdump m ps = Some o.
Proof.
  induction ps as [|p ps [o IH]]; [by eexists|]. cbn [procdump]. rewrite IH. unfold procdump_line.
  destruct (cput_line (ds_pid p) (state_name (ds_state p)) (ds_name p)) as [l Hl]. destruct (put_pcs_some (nonzero (getcallerpcs m (u32 (ds_ebp p + 8))))) as [t Ht].
  destruct (ds_state p); [by eexists|..]; rewrite Hl, ?Ht; by eexists.
Qed.

(** ** The serial port *)

Definition COM1 : Z := 0x3f8.
(** The registers of an 8250: while bit 7 of the line control is set, ports 0 and 1
    are the divisor. *)
Record uart8250 := Uart { dll : Z; dlm : Z; ier : Z; fcr : Z; lcr : Z; mcr : Z; tx : list Z }.
Definition com_out (port v : Z) (u : uart8250) : uart8250 :=
  let r := port - COM1 in
  let latch := Z.testbit (lcr u) 7 in
  if r =? 0 then (if latch then Uart v (dlm u) (ier u) (fcr u) (lcr u) (mcr u) (tx u) else Uart (dll u) (dlm u) (ier u) (fcr u) (lcr u) (mcr u) (tx u ++ [v]))
  else if r =? 1 then (if latch then Uart (dll u) v (ier u) (fcr u) (lcr u) (mcr u) (tx u) else Uart (dll u) (dlm u) v (fcr u) (lcr u) (mcr u) (tx u))
  else if r =? 2 then Uart (dll u) (dlm u) (ier u) v (lcr u) (mcr u) (tx u)
  else if r =? 3 then Uart (dll u) (dlm u) (ier u) (fcr u) v (mcr u) (tx u)
  else if r =? 4 then Uart (dll u) (dlm u) (ier u) (fcr u) (lcr u) v (tx u)
  else u.

(** The port after uartinit, and whether there is one; [status] is what COM1+5 reads. *)
Definition uartinit (status : Z) (u : uart8250) : uart8250 * bool :=
  let u := com_out (COM1 + 2) 0 u in
  let u := com_out (COM1 + 3) 0x80 u in
  let u := com_out (COM1 + 0) (115200 / 9600) u in
  let u := com_out (COM1 + 1) 0 u in
  let u := com_out (COM1 + 3) 0x03 u in
  let u := com_out (COM1 + 4) 0 u in
  let u := com_out (COM1 + 1) 0x01 u in
  if status =? 0xFF then (u, false)
  else (foldl (fun u c => com_out (COM1 + 0) c u) u (bytes_of "xv6..." ++ [10]), true).

Definition uartgetc (uart : bool) (status data : Z) : Z := if negb uart then -1 else if Z.land status 0x01 =? 0 then -1 else data.

(** The line is set to 9600 baud, 8 data bits, one stop bit and no parity, with only
    the receive interrupt on, and the greeting is the first thing sent. *)
Theorem uartinit_sets_line status u : let u' := (uartinit status u).1 in
  115200 / (dll u' + 256 * dlm u') = 9600 /\ Z.land (lcr u') 3 = 3 /\ Z.land (lcr u') 0xFC = 0 /\ ier u' = 1 /\ fcr u' = 0 /\
  tx u' = if status =? 0xFF then tx u else tx u ++ bytes_of "xv6..." ++ [10].
Proof.
  unfold uartinit. set (u1 := com_out (COM1 + 1) 0x01 _).
  assert (u1 = Uart 12 0 1 0 3 0 (tx u)) as -> by (by destruct u). destruct (status =? 0xFF); [done|]. cbn [fst].
  assert (foldl (fun u c => com_out (COM1 + 0) c u) (Uart 12 0 1 0 3 0 (tx u)) (bytes_of "xv6..." ++ [10]) = Uart 12 0 1 0 3 0 (tx u ++ bytes_of "xv6..." ++ [10])) as ->; [|done].
  assert (forall l t, foldl (fun u c => com_out (COM1 + 0) c u) (Uart 12 0 1 0 3 0 t) l = Uart 12 0 1 0 3 0 (t ++ l)) as H; [|apply H].
  induction l as [|c l IH]; intros t; [by rewrite app_nil_r|]. cbn [foldl]. change (com_out (COM1 + 0) c (Uart 12 0 1 0 3 0 t)) with (Uart 12 0 1 0 3 0 (t ++ [c])). by rewrite IH, <-app_assoc.
Qed.
