(* ===== verification/Race.v ===== *)
(** * Counting without a lock (2.mutex_variable/race.c)

    Ten threads add to one counter with no lock.  The addition reads the counter and
    writes it back, and other threads may come between the two. *)

From S2P Require Import Prelude Threads.

(** ThreadFunc: the accesses to cnt_global, at index 0 of the shared memory; the
    local count is the value returned. *)
Fixpoint ThreadFunc (n : nat) (cnt_local : Z) : prog Z :=
  match n with O => Done cnt_local | S n' => Rd 0 (fun v => Wr 0 (s32 (v + 1)) (ThreadFunc n' (cnt_local + 1))) end.
Definition race_thread (n : nat) (c : Z) : prog unit := ThreadFunc n c ≫= fun _ => Done tt.
(** main's threads, [num_thread] of them with [num_increase] turns. *)
Definition race_threads (num_thread num_increase : nat) : pool := replicate num_thread (race_thread num_increase 0).

(** Every thread counts its own turns. *)
Lemma ThreadFunc_local n c m : (run (ThreadFunc n c) m).1 = c + Z.of_nat n.
Proof. revert c m. induction n as [|n IH]; intros c m; cbn [ThreadFunc run]; [cbn; lia|]. rewrite IH. lia. Qed.

(** A thread with [r] writes to go, when [d] were made in all: before a turn, or in
    the middle of one with a value it read. *)
Inductive turn (d : Z) : prog unit -> nat -> Prop :=
| turn_start n c : turn d (race_thread n c) n
| turn_read n c v : 0 <= v <= d -> turn d (Wr 0 (s32 (v + 1)) (race_thread n c)) (S n).

Lemma turn_mono d d' p r : d <= d' -> turn d p r -> turn d' p r.
Proof. intros Hd [n c|n c v Hv]; constructor. lia. Qed.

Fixpoint total (rs : list nat) : Z := match rs with [] => 0 | r :: rs' => Z.of_nat r + total rs' end.
Lemma race_total_insert rs t r r' : rs !! t = Some r -> total (<[t := r']> rs) = total rs - Z.of_nat r + Z.of_nat r'.
Proof.
  revert t. induction rs as [|x rs IH]; intros [|t] H; try done.
  - injection H as ->. change (<[0%nat := r']> (r :: rs)) with (r' :: rs). cbn [total]. lia.
  - change (<[S t := r']> (x :: rs)) with (x :: <[t := r']> rs). cbn [total]. rewrite (IH t H). lia.
Qed.
Lemma total_nonneg rs : 0 <= total rs.
Proof. induction rs as [|x rs IH]; cbn; lia. Qed.
Lemma total_replicate k r : total (replicate k r) = Z.of_nat k * Z.of_nat r.
Proof. induction k as [|k IH]; [done|]. cbn [replicate total]. rewrite IH. lia. Qed.

Definition race_inv (all : Z) (s : mem * pool) : Prop :=
  exists d rs, Forall2 (turn d) s.2 rs /\ d + total rs = all /\ 0 <= s.1 0%nat <= d.

Lemma race_inv_step all s s' : all < 2 ^ 31 -> race_inv all s -> pstep s s' -> race_inv all s'.
Proof.
  intros Hall (d & rs & Hf & Ht & Hm) Hs. destruct Hs as [m ps t i k Hp|m ps t i v p Hp]; cbn [fst snd] in *;
    destruct (Forall2_lookup_l _ _ _ _ _ Hf Hp) as (r & Hr & Hturn).
  - inversion Hturn as [n c E E'|]. destruct n as [|n]; [discriminate E|]. injection E as <- <-. subst r. exists d, rs. cbn [fst snd]. split; [|done]. rewrite <-(list_insert_id rs t (S n)) by done.
    apply Forall2_insert; [done|]. exact (turn_read d n (c + 1) (m 0%nat) Hm).
  - inversion Hturn as [n c E|n c v' Hv E E']; [by destruct n|]. subst. exists (d + 1), (<[t := n]> rs). cbn [fst snd].
    assert (0 <= total (<[t := n]> rs)) as Hn by apply total_nonneg. rewrite (race_total_insert rs t (S n) n Hr) in *. split_and!.
    + apply Forall2_insert; [|constructor]. eapply Forall2_impl; [exact Hf|]. intros x y. apply turn_mono. lia.
    + lia.
    + unfold setm. rewrite decide_True by done. rewrite s32_id by (unfold is_s32; lia). lia.
    + unfold setm. rewrite decide_True by done. rewrite s32_id by (unfold is_s32; lia). lia.
Qed.

(** Under every schedule the threads end, with at most as many as they counted. *)
Theorem race_at_most num_thread num_increase : Z.of_nat num_thread * Z.of_nat num_increase < 2 ^ 31 ->
  always (fun m => 0 <= m 0%nat <= Z.of_nat num_thread * Z.of_nat num_increase) (fun _ => 0, race_threads num_thread num_increase).
Proof.
  intros Hall. apply (always_intro (race_inv (Z.of_nat num_thread * Z.of_nat num_increase))).
  - intros s s'. by apply race_inv_step.
  - intros m ps (d & rs & Hf & Ht & Hm) Hfin. cbn [fst snd] in *. assert (total rs = 0) as E; [|lia].
    clear -Hf Hfin. induction Hf as [|p r ps rs Hp Hf IH]; [done|]. apply Forall_cons in Hfin as [-> Hfin]. cbn [total]. rewrite IH by done.
    inversion Hp as [n c E|]. destruct n; [lia|discriminate E].
  - exists 0, (replicate num_thread num_increase). cbn [fst snd]. split_and!; [|rewrite total_replicate; lia|lia|lia].
    unfold race_threads. apply Forall2_replicate. constructor.
Qed.

(** ** A lost addition *)

(** One thread from the start of a turn to its end, alone. *)
Lemma run_out n : forall c m ps t, ps !! t = Some (race_thread n c) -> 0 <= m 0%nat -> m 0%nat + Z.of_nat n < 2 ^ 31 ->
  exists m', rtc pstep (m, ps) (m', <[t := Done tt]> ps) /\ m' 0%nat = m 0%nat + Z.of_nat n.
Proof.
  induction n as [|n IH]; intros c m ps t Hp H0 H1.
  - exists m. split; [|lia]. rewrite list_insert_id by done. apply rtc_refl.
  - pose proof (lookup_lt_Some _ _ _ Hp) as Hlt. set (m1 := setm m 0 (s32 (m 0%nat + 1))).
    assert (m1 0%nat = m 0%nat + 1) as E1 by (unfold m1, setm; rewrite decide_True, s32_id by (done || unfold is_s32; lia); done).
    destruct (IH (c + 1) m1 (<[t := race_thread n (c + 1)]> ps) t) as (m' & Hr & Hm').
    { by rewrite list_lookup_insert_eq. } { lia. } { lia. }
    rewrite list_insert_insert_eq in Hr. exists m'. split; [|lia].
    set (w := Wr 0 (s32 (m 0%nat + 1)) (race_thread n (c + 1))). apply (rtc_l _ _ (m, <[t := w]> ps)); [exact (st_rd m ps t 0 _ Hp)|].
    apply (rtc_l _ _ (m1, <[t := race_thread n (c + 1)]> (<[t := w]> ps))); [apply st_wr; by rewrite list_lookup_insert_eq|]. by rewrite list_insert_insert_eq.
Qed.

(** All threads one after the other. *)
Lemma run_all_out ps : forall ns pre m, Forall2 (fun p n => exists c, p = race_thread n c) ps ns -> finished pre -> 0 <= m 0%nat -> m 0%nat + total ns < 2 ^ 31 ->
  exists m' ps', rtc pstep (m, pre ++ ps) (m', ps') /\ finished ps' /\ m' 0%nat = m 0%nat + total ns.
Proof.
  induction ps as [|p ps IH]; intros ns pre m Hf Hpre H0 H1; inversion Hf as [|? n ? ns' [c ->] Hf']; subst; cbn [total] in *.
  - exists m, pre. rewrite app_nil_r. split_and!; [apply rtc_refl|done|lia].
  - pose proof (total_nonneg ns') as Hn. destruct (run_out n c m (pre ++ race_thread n c :: ps) (length pre)) as (m1 & R1 & E1); [by apply list_lookup_middle|lia|lia|].
    rewrite insert_app_r_alt, Nat.sub_diag in R1 by lia. change (<[0%nat := Done tt]> (race_thread n c :: ps)) with ([Done tt] ++ ps) in R1. rewrite app_assoc in R1.
    destruct (IH ns' (pre ++ [Done tt]) m1 Hf') as (m2 & ps2 & R2 & F2 & E2); [by apply Forall_app_2; [|constructor]|lia|lia|].
    exists m2, ps2. split_and!; [by etransitivity|done|lia].
Qed.

(** With two threads or more an addition can be lost: there is a schedule after which
    the counter is less than the sum of what the threads counted. *)
Theorem race_main_loses num_thread num_increase : (2 <= num_thread)%nat -> (1 <= num_increase)%nat -> Z.of_nat num_thread * Z.of_nat num_increase < 2 ^ 31 ->
  exists m ps, rtc pstep (fun _ => 0, race_threads num_thread num_increase) (m, ps) /\ finished ps /\ m 0%nat = Z.of_nat num_thread * Z.of_nat num_increase - 1.
Proof.
  intros HT HN Hall. destruct num_thread as [|[|T]]; [lia|lia|]. destruct num_increase as [|n]; [lia|].
  change (race_threads (S (S T)) (S n)) with (race_thread (S n) 0 :: race_thread (S n) 0 :: race_threads T (S n)). set (rest := race_threads T (S n)).
  set (w := Wr 0 (s32 (0 + 1)) (race_thread n (0 + 1))). set (m1 := setm (fun _ => 0) 0 1 : mem). set (m2 := setm m1 0 1).
  assert (rtc pstep (fun _ => 0, race_thread (S n) 0 :: race_thread (S n) 0 :: rest) (m2, race_thread n (0 + 1) :: race_thread n (0 + 1) :: rest)) as R.
  { eapply rtc_l; [by apply (st_rd _ _ 0%nat 0)|]. eapply rtc_l; [by apply (st_rd _ _ 1%nat 0)|].
    eapply rtc_l; [by apply (st_wr _ _ 0%nat 0)|]. eapply rtc_l; [by apply (st_wr _ _ 1%nat 0)|]. apply rtc_refl. }
  destruct (run_all_out (race_thread n (0 + 1) :: race_thread n (0 + 1) :: rest) (n :: n :: replicate T (S n)) [] m2) as (m & ps & R2 & F & E).
  - constructor; [by eexists|]. constructor; [by eexists|]. unfold rest, race_threads. apply Forall2_replicate. by eexists.
  - constructor.
  - done.
  - change (m2 0%nat) with 1. cbn [total]. rewrite total_replicate. lia.
  - exists m, ps. split_and!; [by etransitivity|done|]. rewrite E. change (m2 0%nat) with 1. cbn [total]. rewrite total_replicate. lia.
Qed.
